(* ===== verification/_CoqProject ===== *)
-Q . S2P
Prelude.v
BoundaryTypes.v
SendDomain.v
SendWorkflow.v
SendReducer.v
RefCodec.v
JournalProtocol.v
SendWitnesses.v
Base64.v
ClientDomain.v
Json.v
ProviderRequest.v
ProviderAnswers.v
ClientState.v
ClientCalls.v
ClientSections.v
ClientInvariant.v
ClientActivity.v
ClientWitnesses.v
Futures.v
Resolution.v
ResolutionRuns.v
SendEngine.v
SendRuns.v
Transport.v
EngineWitnesses.v
CellBoc.v
CellBocSpec.v
ConnectSession.v
ConnectValues.v
ConnectBridge.v
Addresses.v
TransferLink.v
ConnectRpc.v
ConnectRpcSpec.v
ConnectEmbedded.v
ConnectSigning.v
ConnectWalletState.v
ConnectSigningSpec.v
ConnectHandshake.v
ConnectLink.v
WordList.v
Mnemonic.v
WalletContract.v
WalletKeys.v
SnakeData.v
Transfer.v
EncryptedComment.v
RecipientKey.v
ConnectCrypto.v
SessionBoundary.v
EmulationAnswers.v
LookupAnswers.v
NftAnswers.v
Lifecycle.v
KeyRotation.v
SlotOperations.v
Preview.v
SlotRelease.v
NftTransfer.v
PreviewRuns.v
NftTransferRuns.v
SlotRuns.v
ConnectEventWire.v
ConnectDerived.v
ConnectDerivedSpec.v
ConnectClient.v
ConnectClassic.v
ConnectClassicRuns.v
ConnectWitnesses.v
ConnectLinkWitnesses.v
RefCells.v
WalletWitnesses.v
ConnectClassicWitnesses.v
TransferWitnesses.v
CommentWitnesses.v
PreviewWitnesses.v
NftWitnesses.v
ActivityAnswers.v
