(* ===== verification/Prelude.v ===== *)
(** * Wallet Engine: a verification library

    The Wallet Engine ([src/src], a Rust crate) is the headless core of a TON
    wallet: it keeps an observable snapshot of one wallet, reads provider data,
    and signs and submits transfers with the help of a host that owns HTTP,
    secrets and a durable journal.  This library models its logic as Rocq
    functions, one definition per function or critical section of the source,
    and proves the properties that make it safe to use with real funds.

    ** The program and the files of the library

    - Values at the boundary ([src/types], [src/domain/error.rs],
      [src/engine/expiration.rs]): canonical decimal strings, non-empty strings,
      bounded diagnostics, expiration arithmetic.  File [BoundaryTypes].
    - Send data ([src/domain/send.rs], [journal.rs], [secret.rs]): requests,
      phases, snapshots, journal records, validation of a batch.  File
      [SendDomain].
    - The send reducer ([src/wallet/send.rs]): a pure state machine that turns
      host answers into directives, and the readers of its durable journal
      records.  File [SendWorkflow] (definitions), [SendReducer] (properties of
      one workflow), [JournalProtocol] (any number of processes, crashes and lost
      replies over a journal host that offers compare-and-swap).
    - The client ([src/engine]): one mutex around [State].  Each public operation
      is a future that enters the mutex a few times and awaits the host in
      between.  [ClientDomain] has the data, [Json] the JSON values,
      [ProviderRequest] the URL and request builders ([src/transport/request.rs]
      and the [build_*] functions of the engine), [ClientState] one definition
      per critical section of every operation, [ClientCalls] the step relation in
      which any section of any operation may run next, [ClientSections] the proof
      that each section keeps the invariant, [ClientInvariant] what follows for
      whole runs, [ClientActivity] the list logic of activity and NFT pages.
    - Operations as futures: [Futures] is a program of lock sections and host
      calls with a step semantics in which other operations run between any two
      steps; [ProviderAnswers] parses what the provider returns
      ([provider.rs], [send_http.rs], [resolution_http.rs]); [Resolution] and
      [SendEngine] are the resolver ([resolution.rs], [resolve.rs]) and the
      operations [send], [sign_message] and [send_boc] in full; [ResolutionRuns]
      and [SendRuns] prove what every run of them does.
    - Transports ([src/transport/http.rs], [statusless.rs]): [Transport] turns what the host returned into a body or a classified error; its second half is the
      interface behind which the client uses either transport, and what a submission
      concludes from an answer.
    - Activity pages ([provider.rs]): [ActivityAnswers] builds rows from provider JSON
      and raw transactions, and says what a page holds.
    - Untrusted cells ([crates/ton-connect-core/src/cell_boc.rs]): [CellBoc] is the
      validator that runs before the cell parser of the ton crate, [CellBocSpec]
      the serializer of bags of cells it is compared with.
    - TON Connect ([crates/ton-connect-core]): [ConnectSession] is the wallet-side
      session reducer, its durable form, the dApp-side event cursor
      ([session_state.rs]) and their runs; [ConnectValues] the
      validated scalars ([value.rs]) and cell values; [ConnectBridge] envelopes and
      the event-stream decoder ([bridge.rs], [http_bridge.rs]) with
      its behaviour on any sequence of chunks; [ConnectRpc] requests, responses,
      features and the checks between them ([rpc.rs], [capability.rs], parts of
      [connect.rs]), [ConnectRpcSpec] their JSON and their meaning;
      [ConnectEmbedded] the compact requests of links ([embedded.rs]); [ConnectSigning] the signed messages ([signing.rs]),
      [ConnectWalletState] the states wallets are deployed with ([wallet_state.rs]),
      [ConnectSigningSpec] what signatures and keys are bound to; [ConnectHandshake]
      connect requests, replies and their correlation ([connect.rs], [manifest.rs],
      [js_bridge.rs]); [ConnectLink] connect links ([deep_link.rs]).
    - TON Connect events and answers: [ConnectEventWire] is the JSON of devices, replies,
      events and responses ([connect.rs], [rpc.rs], [embedded.rs]) and
      reads it back; [ConnectCrypto] the encryption of a session ([session.rs]).
    - Recovery phrases and keys ([src/wallet]): [WordList] and [Mnemonic] are phrases,
      their entropy and SLIP-0010 ([mnemonic.rs], [mnemonic_scheme.rs], [slip_0010.rs],
      [vendor/ton/src/ton_wallet/mnemonic.rs]), and their encoding;
      [WalletContract] is the storage, state and requests of the contract
      ([vendor/ton/src/ton_wallet]), and reads requests back;
      [WalletKeys] the keys of a wallet, their history and signatures ([crypto.rs],
      [key_history.rs]).
    - Signed messages ([src/wallet]): [SnakeData] is text in chains of cells
      ([vendor/ton/src/tep/snake_data.rs]), [Transfer] builds and signs the messages of an
      intent and their previews ([transfer.rs]), reads them back as the
      contract does and puts them behind the interface of [SendEngine]; [KeyRotation] is
      the request that replaces the signing key ([key_rotation.rs]).
    - Encrypted comments ([src/wallet/encrypted_comment.rs], [recipient_public_key.rs]):
      [EncryptedComment]; [RecipientKey] checks a supplied key
      against the standard wallet states.
    - The resolution slot ([prepare_transfer.rs], [key_rotation.rs], [dns.rs],
      [encrypted_comment.rs] of the engine): [LookupAnswers] reads DNS records, public keys
      and key changes, [SlotOperations] has the operations as futures, [SlotRelease] shows
      that none of them leaks the slot, [SlotRuns] what their results are worth.
    - Previews ([preview.rs], [emulation.rs]): [EmulationAnswers] reads the traces of the
      provider, [Preview] has the preview operations as futures, [PreviewRuns] shows what
      their runs show the user and that the preview slot is released.
    - NFTs ([nft.rs], [nft_transfer.rs] of the engine and of the wallet): [NftAnswers]
      reads items and enriches their metadata, [NftTransfer] builds the message that moves
      an item and has the two operations, [NftTransferRuns] says what their runs do.
    - The life of a wallet ([src/wallet/mod.rs]): [Lifecycle] has every operation as a
      program of host calls and says what each run reads and keeps.
    - Derived sessions ([src/ton_connect/derived.rs] and the shared part of
      [src/ton_connect.rs]): [SessionBoundary], [ConnectDerived]; [ConnectDerivedSpec]
      composes lifecycle, keys, encryption and JSON into what the dApp receives.
    - Sessions over the bridge: [ConnectClient] is the endpoints of a bridge
      ([http_bridge.rs]), the durable state of a session ([http_session.rs]) and the client
      that runs it ([crates/ton-connect-client]); [ConnectClassic] the session that hosts
      hold ([TonConnectSession] of [src/ton_connect.rs]), with its pending requests and the
      response that awaits delivery; [ConnectClassicRuns] what its runs, restarts included,
      guarantee.
    - Addresses ([friendly_address.rs], [account_address.rs], [src/types/address.rs]):
      [Addresses].
    - Links ([src/domain/ton_transfer_link.rs]): [TransferLink].
    - Concrete runs: [RefCodec], [Base64], [SendWitnesses], [ClientWitnesses],
      [EngineWitnesses], [ConnectWitnesses], [ConnectLinkWitnesses], [RefCells],
      [WalletWitnesses], [ConnectClassicWitnesses], [TransferWitnesses],
      [CommentWitnesses], [PreviewWitnesses], [NftWitnesses] and the end of
      [ActivityAnswers] instantiate the parameters and apply the
      theorems to them.

    ** Conventions

    Rust's [Result] is [result E A]; [?] is [let?].  A method [&mut self] that can
    fail is a [method State E A], a function from a state to a state and a
    result: what was assigned before an error stays assigned.  Machine integers
    are [N] with [checked_add] and [saturating_add] at [u64_max] written where the
    source writes them.  Strings are lists of Unicode scalar values, their UTF-8
    bytes are [utf8].  Record fields carry a short prefix of their type;
    [r <| f := v |>] is an assignment to a field.  A Rust [HashMap] is a [gmap];
    where the source lists its values, the theorem [activity_merge_spec] shows
    that the order does not matter.

    Some definitions use fuel.  [push_loop] of the event-stream decoder gets one unit
    per buffered byte, and every turn consumes at least one ([push_loop_loop] in
    [ConnectBridge] shows that it always reaches its end).  [recover_from] of the
    key history gets one unit per known key change, which bounds the walk in the source
    as well.  The reader of wallet requests takes the number of links it may follow, and
    the reader of text in cells at most as many cells as a tree may be deep.  The writer of
    text gets one unit per byte, which is never fewer than the chunks it writes.
    [rotation_attempts] and [key_change_pages] count the attempts and the pages that the
    source allows.
    The other loops of
    the source are structural on their lists or counters, the retry loop of the
    journal is bounded by its own constant, and the long-running loops ([shutdown],
    the futures) are modelled turn by turn.

    ** Parameters

    Code outside the repository is a class that definitions take as an argument:
    [BigUintText] (text of big integers), [JournalCodec] (serde of durable
    records, with its round-trip law), [SerdeJson], [TonAddressText],
    [TonAddressParser], [TonCoreBoc], [TonTransactions] and [WalletSigner] (the [ton]
    crate and what is built on it),
    [Base64Engine] and [UrlSafeBase64], [HexCrate], [Crc16], [Crc32c], [Crc32Iso],
    [Sha256], [Sha512], [Ed25519], [Ed25519Keys], [CryptoBox], [UrlCrate], [UrlQuery],
    [UrlParts], [UrlBridge] and [HostParser], [TonCells] (cells, their hashes and the
    builder), [CellCapacity] (what fits into a cell),
    [TonStates] and [TonMessages] (states and messages of the [ton] crate),
    [TonAddressCodec], [AesBlocks] and [Curve25519] (the cipher and the curve of encrypted
    comments), [WalletCodes] (the published code cells), [BigUintHex], [HashIteration] (the
    order in which a hash map lists its entries, a permutation of them), [ParseErrors] (the
    texts of parser errors), [TonNftMessages] (the cell of an NFT transfer), and the host calls as values that may be anything.  The files of concrete runs
    give an executable instance of each; those for Base64, hex and the checksums
    reproduce test vectors of the repository.

    ** What is proved

    - Journal: a signed message that may be on chain is never overwritten, under
      any interleaving of processes; submission happens only after the exact
      message is durable; lost races store nothing; restart shows the persisted
      phase; resolution writes only what evidence supports.
    - Reducer: every reachable state is well formed, terminal stages stay, internal
      errors are unreachable, the replacement policy is exact.
    - Client: the state invariant for all interleavings, late results are no-ops,
      the commit boundary cannot be crossed by cancellation or shutdown, equal
      revisions mean equal snapshots, shutdown is final and returns every request.
    - Lists: a parsed page holds exactly the value transfers of its transactions, each
      with all its details; activity is the canonical list of everything received, or a
      single page as it was received; pagination ends; NFT pages have no repeated
      address.
    - Operations: in every run of [send] the message is durable before it is
      submitted, the secret is read only when no unresolved send is in the way, and
      the result is what the journal stores; resolution writes only what the
      provider's answers justify; what is submitted, prepared or previewed authorizes
      exactly the messages of the intent; a submission is failed or accepted exactly when the
      provider said so, and unknown after every other failure.
    - Untrusted input: the cell validator accepts exactly well-formed bags and
      bounds cells, depth and cycles; the event-stream decoder needs bounded memory
      and comes to the same outcome, messages or error, however the stream is cut; transfer links are parsed soundly
      and completely.
    - TON Connect sessions: request numbers strictly increase, events are numbered
      without gaps, the session never gets stuck, and both sides agree on events.
    - TON Connect requests: every request survives its JSON, decoded requests are
      well formed, the capability check accepts exactly what the wallet advertises,
      and an accepted response answers its request.
    - TON Connect connections: links and embedded requests survive their text forms,
      a connect event is accepted exactly when it answers the request, a signature is
      bound to account, domain, time and payload, and a key to the account through
      the hash of the state it was deployed with.
    - Wallets: phrases and entropies determine each other, a created wallet can be
      revealed, imported again and deleted, secrets are read only for the wallet they
      belong to, import and scheme detection agree on single words, and the keys of all
      rotations are recovered from the current one.
    - Sessions over the bridge: a request is received and answered at most once, restarts
      included; a stored session is restored as it was, unless its cursor cannot be read
      back; an approved connect tells the dApp account, network and proof.
    - Slot operations: none leaks the resolution slot; a prepared transfer is one transfer
      in two forms; a rotation keeps the wallet and its old key; a secret is read for a
      comment only when the recipient's key is known, both parties read the comment, its
      cells are never too large, and earlier keys read what was encrypted for them; a supplied key opens the wallet it is
      accepted for.
    - Previews and NFTs: an emulation answer is read exactly; a preview emulates exactly the messages a send would submit and
      reports what the provider answered, and its slot is always released; an NFT transfer
      moves the item that was checked, and only when the wallet owns it.
    - Derived sessions: a transaction request becomes a send of exactly its messages, when
      account, network and time limit allow it; connect events and signed data that the
      wallet produces reach the dApp, which reads what it asked for and verifies it.
    - Requests: parameters survive URL encoding, no input moves a request to another
      host.
    - Values: round trips, bounds and overflow behaviour.

    ** Not modelled

    The parts of the vendored [ton] crate that the wallet does not reach, cryptography,
    the host, generated bindings, tests and tools are outside the library, and so is the
    list of wallets that dApps choose from ([wallets_list.rs]), which no session uses. *)

From stdpp Require Import base numbers list option strings sorting.

#[global] Set Default Goal Selector "!".

Declare Scope rust_scope.
Delimit Scope rust_scope with rust.

(** ** Results

    Rust's [Result<A, E>].  The error type comes first so that a partially
    applied [result E] is the monad of the [?] operator. *)

Inductive result (E A : Type) : Type :=
  | Ok (value : A)
  | Err (error : E).

Arguments Ok {E A} value.
Arguments Err {E A} error.

Definition rbind {E A B} (r : result E A) (k : A -> result E B) : result E B :=
  match r with
  | Ok a => k a
  | Err e => Err e
  end.

Definition rmap {E A B} (f : A -> B) (r : result E A) : result E B :=
  rbind r (fun a => Ok (f a)).

Definition map_err {E F A} (f : E -> F) (r : result E A) : result F A :=
  match r with
  | Ok a => Ok a
  | Err e => Err (f e)
  end.

Definition ok_or {E A} (e : E) (o : option A) : result E A :=
  match o with
  | Some a => Ok a
  | None => Err e
  end.

Definition is_ok {E A} (r : result E A) : bool :=
  match r with Ok _ => true | Err _ => false end.

Notation "'let?' x := r 'in' k" := (rbind r (fun x => k))
  (at level 10, x name, r at level 100, k at level 200) : rust_scope.

(** ** Methods that take [&mut self] and return a [Result]

    A mutation made before an early return survives the error, so the state is
    returned on both branches. *)

Definition method (S E A : Type) : Type := S -> S * result E A.

Section Method.
Context {S E : Type}.

Definition mret {A} (a : A) : method S E A := fun s => (s, Ok a).

Definition mthrow {A} (e : E) : method S E A := fun s => (s, Err e).

Definition mbind' {A B} (m : method S E A) (k : A -> method S E B) : method S E B :=
  fun s =>
    match m s with
    | (s', Ok a) => k a s'
    | (s', Err e) => (s', Err e)
    end.

Definition mlift {A} (r : result E A) : method S E A := fun s => (s, r).

Definition mget : method S E S := fun s => (s, Ok s).

Definition mupdate (f : S -> S) : method S E unit := fun s => (f s, Ok tt).
End Method.

Notation "'let!' x := m 'in' k" := (mbind' m (fun x => k))
  (at level 10, x name, m at level 100, k at level 200) : rust_scope.
Notation "'do!' m ';' k" := (mbind' m (fun _ => k))
  (at level 10, m at level 100, k at level 200) : rust_scope.

(** ** Record update

    [r <| field := v |>] is the Rust assignment [r.field = v]; a record type
    opts in with an [Eta] instance that lists its fields. *)

Class Eta (R : Type) := eta_expand : R -> R.

Class Updater {R T : Type} (proj : R -> T) := update : (T -> T) -> R -> R.
Arguments update {R T} proj {_} f r : rename.

Ltac derive_updater proj :=
  lazymatch type of proj with
  | ?R -> ?T =>
      let inst := constr:(_ : Eta R) in
      let body := eval hnf in inst in
      lazymatch eval pattern proj in body with
      | ?ctx _ =>
          let upd := eval cbv beta in
            (fun (f : T -> T) (r : R) => ctx (fun x => f (proj x)) r) in
          exact upd
      end
  end.

#[export] Hint Extern 1 (Updater ?proj) => derive_updater proj : typeclass_instances.

Notation "r <| f := v |>" := (update f (fun _ => v) r)
  (at level 1, left associativity, f at level 1, v at level 200) : rust_scope.

Notation "r <| f ';' g := v |>" := (update f (update g (fun _ => v)) r)
  (at level 1, left associativity, f at level 1, g at level 1, v at level 200) : rust_scope.
Notation "r <| f ';' g ';' h := v |>" := (update f (update g (update h (fun _ => v))) r)
  (at level 1, left associativity, f at level 1, g at level 1, h at level 1,
   v at level 200) : rust_scope.

#[global] Open Scope rust_scope.

(** ** Machine integers

    Unsigned integers are [N]; the width is in the operations that check it. *)

Definition u8_max : N := 255%N.
Definition u16_max : N := 65535%N.
Definition u32_max : N := 4294967295%N.
Definition u64_max : N := 18446744073709551615%N.

(** [checked_add] of an unsigned type whose largest value is [max]. *)
Definition checked_add (max a b : N) : option N :=
  if (a + b <=? max)%N then Some (a + b)%N else None.

Definition checked_mul (max a b : N) : option N :=
  if (a * b <=? max)%N then Some (a * b)%N else None.

Definition saturating_add (max a b : N) : N := N.min max (a + b).

(** ** Text

    A Rust [str] is the list of its Unicode scalar values; a byte string is a
    list of values below 256. *)

Abbreviation char := N (only parsing).
Abbreviation rstr := (list N) (only parsing).
Abbreviation bytes := (list N) (only parsing).

Definition lit (s : string) : rstr :=
  map Ascii.N_of_ascii (String.list_ascii_of_string s).

(** [char::is_control]: general category Cc. *)
Definition is_control (c : char) : bool :=
  ((c <=? 31) || ((127 <=? c) && (c <=? 159)))%N.

(** [char::is_whitespace]: the Unicode property [White_Space]. *)
Definition is_whitespace (c : char) : bool :=
  (((9 <=? c) && (c <=? 13)) || (c =? 32) || (c =? 133) || (c =? 160)
   || (c =? 5760) || ((8192 <=? c) && (c <=? 8202)) || (c =? 8232)
   || (c =? 8233) || (c =? 8239) || (c =? 8287) || (c =? 12288))%N.

Definition is_ascii_digit (c : char) : bool := ((48 <=? c) && (c <=? 57))%N.

Fixpoint drop_while {A} (p : A -> bool) (l : list A) : list A :=
  match l with
  | [] => []
  | x :: l' => if p x then drop_while p l' else l
  end.

Definition trim_start (s : rstr) : rstr := drop_while is_whitespace s.
Definition trim_end (s : rstr) : rstr := reverse (drop_while is_whitespace (reverse s)).
Definition trim (s : rstr) : rstr := trim_end (trim_start s).

Definition is_empty {A} (l : list A) : bool :=
  match l with [] => true | _ :: _ => false end.

(** The UTF-8 bytes of one scalar value; the masks only matter above U+10FFFF,
    which is not a [char]. *)
Definition utf8_char (c : char) : bytes :=
  let cont k := N.lor 128 (N.land (N.shiftr c k) 63) in
  (if c <? 128 then [c]
   else if c <? 2048 then [N.lor 192 (N.land (N.shiftr c 6) 31); cont 0]
   else if c <? 65536 then [N.lor 224 (N.land (N.shiftr c 12) 15); cont 6; cont 0]
   else [N.lor 240 (N.land (N.shiftr c 18) 7); cont 12; cont 6; cont 0])%N.

(** [str::as_bytes]. *)
Definition utf8 (s : rstr) : bytes := flat_map utf8_char s.

(** [str::strip_prefix] with a literal and [str::starts_with]. *)
Fixpoint strip_prefix (p s : rstr) : option rstr :=
  match p, s with
  | [], _ => Some s
  | a :: p', b :: s' => if (a =? b)%N then strip_prefix p' s' else None
  | _ :: _, [] => None
  end.

(** [str::split_once] with a character. *)
Fixpoint split_once (c : char) (s : rstr) : option (rstr * rstr) :=
  match s with
  | [] => None
  | x :: s' =>
      if (x =? c)%N then Some ([], s')
      else match split_once c s' with
           | Some (a, b) => Some (x :: a, b)
           | None => None
           end
  end.

(** [str::split] with a character: never empty. *)
Fixpoint split_on (c : char) (s : rstr) : list rstr :=
  match s with
  | [] => [[]]
  | x :: s' =>
      if (x =? c)%N then [] :: split_on c s'
      else match split_on c s' with
           | [] => [[x]]
           | w :: ws => (x :: w) :: ws
           end
  end.

Definition contains (c : char) (s : rstr) : bool := existsb (N.eqb c) s.

(** [eq_ignore_ascii_case] with a lowercase literal. *)
Definition to_ascii_lowercase (c : char) : char :=
  if ((65 <=? c) && (c <=? 90))%N then (c + 32)%N else c.

Definition eq_ignore_ascii_case (s : rstr) (lower : string) : bool :=
  bool_decide (map to_ascii_lowercase s = lit lower).

(** ** Automation *)

Create HintDb rust discriminated.

(** Splits every [match] and boolean test of the goal and of the hypotheses
    and discharges the branches that contradict an equation. *)
Ltac rust_cases :=
  repeat (case_match || (progress simplify_eq/=)); try done.

Ltac monad_unfold :=
  unfold rmap, rbind, map_err, ok_or, mret, mthrow, mbind', mlift, mget, mupdate in *.

Ltac bool_to_prop :=
  repeat match goal with
  | H : (_ && _) = true |- _ => apply andb_true_iff in H as [? ?]
  | H : (_ || _) = false |- _ => apply orb_false_iff in H as [? ?]
  | H : negb _ = true |- _ => apply negb_true_iff in H
  | H : negb _ = false |- _ => apply negb_false_iff in H
  | H : N.eqb _ _ = true |- _ => apply N.eqb_eq in H
  | H : N.eqb _ _ = false |- _ => apply N.eqb_neq in H
  | H : N.leb _ _ = true |- _ => apply N.leb_le in H
  | H : N.leb _ _ = false |- _ => apply N.leb_gt in H
  | H : N.ltb _ _ = true |- _ => apply N.ltb_lt in H
  | H : N.ltb _ _ = false |- _ => apply N.ltb_ge in H
  | H : bool_decide _ = true |- _ => apply bool_decide_eq_true in H
  | H : bool_decide _ = false |- _ => apply bool_decide_eq_false in H
  end.

(** ** Scalar values and text order *)

(** A Unicode scalar value: what a Rust [char] holds. *)
Definition scalar (c : char) : Prop := (c < 55296 \/ 57344 <= c < 1114112)%N.


(** [Ord] of [str]: lexicographic order of the scalar values. *)
Fixpoint str_cmp (a b : rstr) : comparison :=
  match a, b with
  | [], [] => Eq
  | [], _ :: _ => Lt
  | _ :: _, [] => Gt
  | x :: a', y :: b' => match (x ?= y)%N with Eq => str_cmp a' b' | c => c end
  end.

(** ** Shared lemmas *)

Lemma rbind_ok {E A B} (r : result E A) (k : A -> result E B) b :
  rbind r k = Ok b <-> exists a, r = Ok a /\ k a = Ok b.
Proof. destruct r; simpl; naive_solver. Qed.

Lemma ok_or_ok {E A} (e : E) (o : option A) a : ok_or e o = Ok a <-> o = Some a.
Proof. destruct o; simpl; naive_solver. Qed.

Lemma map_err_ok {E F A} (f : E -> F) (r : result E A) a :
  map_err f r = Ok a <-> r = Ok a.
Proof. destruct r; simpl; naive_solver. Qed.

Lemma if_err_ok {E B} (c : bool) (err : E) (k : result E B) y :
  (if c then Err err else k) = Ok y <-> c = false /\ k = Ok y.
Proof. destruct c; naive_solver. Qed.

Lemma checked_add_Some max a b c :
  checked_add max a b = Some c <-> (c = a + b /\ a + b <= max)%N.
Proof.
  unfold checked_add. destruct (N.leb_spec (a + b) max); split; intros H'.
  - by simplify_eq.
  - by destruct H' as [-> _].
  - done.
  - lia.
Qed.

Lemma checked_add_None max a b : checked_add max a b = None <-> (max < a + b)%N.
Proof. unfold checked_add. destruct (N.leb_spec (a + b) max); split; done || lia. Qed.

Lemma saturating_add_spec max a b :
  saturating_add max a b =
    match checked_add max a b with Some c => c | None => max end.
Proof. unfold saturating_add, checked_add. destruct (N.leb_spec (a + b) max); lia. Qed.

Lemma drop_while_forallb {A} (p : A -> bool) l :
  drop_while p l = [] <-> forallb p l = true.
Proof. induction l as [|x l IH]; simpl; [done|]. destruct (p x); simpl; [done|by split]. Qed.

Lemma drop_while_suffix {A} (p : A -> bool) l :
  exists pre, l = pre ++ drop_while p l /\ forallb p pre = true.
Proof.
  induction l as [|x l [pre [Hl Hp]]]; simpl; [by exists []|].
  destruct (p x) eqn:E; [exists (x :: pre); simpl; rewrite E; by rewrite <- Hl|by exists []].
Qed.

Lemma drop_while_head {A} (p : A -> bool) l x l' :
  drop_while p l = x :: l' -> p x = false.
Proof. induction l as [|y l IH]; simpl; [done|]. destruct (p y) eqn:E; naive_solver. Qed.

Lemma drop_while_id {A} (p : A -> bool) x l :
  p x = false -> drop_while p (x :: l) = x :: l.
Proof. simpl. by intros ->. Qed.

Lemma drop_while_length {A} (p : A -> bool) l : length (drop_while p l) <= length l.
Proof. induction l as [|x l IH]; simpl; [lia|]. destruct (p x); simpl; lia. Qed.

Lemma forallb_reverse {A} (p : A -> bool) l : forallb p (reverse l) = forallb p l.
Proof.
  induction l as [|x l IH]; [done|]. rewrite reverse_cons, forallb_app, IH. simpl.
  by rewrite andb_true_r, andb_comm.
Qed.

Lemma trim_nil_iff s : trim s = [] <-> forallb is_whitespace s = true.
Proof.
  unfold trim, trim_end, trim_start.
  rewrite <- (drop_while_forallb is_whitespace s). split; intros H.
  - destruct (drop_while is_whitespace s) as [|c l] eqn:E; [done|exfalso].
    apply (f_equal reverse) in H. rewrite reverse_involutive, reverse_nil in H.
    rewrite drop_while_forallb, forallb_reverse in H. simpl in H.
    by rewrite (drop_while_head _ _ _ _ E) in H.
  - rewrite H. done.
Qed.

(** ** Splitting text *)

Lemma strip_prefix_Some p s t : strip_prefix p s = Some t <-> s = p ++ t.
Proof.
  revert s. induction p as [|a p IH]; intros s; simpl; [naive_solver|].
  destruct s as [|b s]; [done|]. destruct (N.eqb_spec a b) as [<-|Hn].
  - rewrite IH. naive_solver.
  - naive_solver.
Qed.

Lemma contains_app c a b : contains c (a ++ b) = contains c a || contains c b.
Proof. apply existsb_app. Qed.

Lemma split_once_app c a b : contains c a = false -> split_once c (a ++ c :: b) = Some (a, b).
Proof.
  induction a as [|x a IH]; simpl; intros H; [by rewrite N.eqb_refl|].
  apply orb_false_iff in H as [Hx Ha]. rewrite N.eqb_sym, Hx, IH; done.
Qed.

Lemma split_once_None c s : split_once c s = None <-> contains c s = false.
Proof.
  induction s as [|x s IH]; simpl; [done|]. rewrite N.eqb_sym.
  destruct (c =? x)%N; simpl; [done|].
  destruct (split_once c s) as [[? ?]|]; rewrite <- ?IH; naive_solver.
Qed.

Lemma split_once_Some c s a b :
  split_once c s = Some (a, b) -> s = a ++ c :: b /\ contains c a = false.
Proof.
  revert a. induction s as [|x s IH]; intros a; simpl; [done|].
  destruct (N.eqb_spec x c) as [->|Hn]; [naive_solver|].
  destruct (split_once c s) as [[a' b']|]; [|done]. intros [= <- <-].
  destruct (IH a' eq_refl) as [-> Ha]. simpl. split; [done|].
  rewrite Ha, orb_false_r. apply N.eqb_neq. congruence.
Qed.

Lemma split_on_app c a b :
  contains c a = false -> split_on c (a ++ c :: b) = a :: split_on c b.
Proof.
  induction a as [|x a IH]; simpl; intros H; [by rewrite N.eqb_refl|].
  apply orb_false_iff in H as [Hx Ha]. by rewrite N.eqb_sym, Hx, IH.
Qed.

Lemma split_on_single c a : contains c a = false -> split_on c a = [a].
Proof.
  induction a as [|x a IH]; simpl; intros H; [done|].
  apply orb_false_iff in H as [Hx Ha]. by rewrite N.eqb_sym, Hx, IH.
Qed.

Lemma land_lor_bound k m c b :
  (m < 2 ^ b)%N -> (k < 2 ^ b)%N -> (N.lor m (N.land c k) < 2 ^ b)%N.
Proof.
  intros Hm Hk.
  destruct (N.eq_dec (N.lor m (N.land c k)) 0%N) as [->|Hn]; [lia|].
  apply N.log2_lt_pow2; [lia|]. rewrite N.log2_lor.
  assert (b <> 0%N) by (intros ->; assert (m = 0%N) by lia; assert (k = 0%N) by lia; subst;
    by rewrite N.land_0_r in Hn).
  apply N.max_lub_lt.
  - destruct (N.eq_dec m 0%N) as [->|?]; [simpl; lia|]. apply N.log2_lt_pow2; lia.
  - pose proof (N.log2_land c k).
    destruct (N.eq_dec k 0%N) as [->|?]; [rewrite N.land_0_r; simpl; lia|].
    assert (N.log2 k < b)%N by (apply N.log2_lt_pow2; lia). lia.
Qed.

Lemma utf8_bytes s : Forall (fun b => (b < 256)%N) (utf8 s).
Proof.
  unfold utf8. induction s as [|c s IH]; simpl; [constructor|]. apply Forall_app. split; [|done].
  unfold utf8_char. destruct (N.ltb_spec c 128); [repeat constructor; lia|].
  destruct (c <? 2048)%N; [|destruct (c <? 65536)%N];
    repeat constructor; apply (land_lor_bound _ _ _ 8); reflexivity.
Qed.

Lemma str_cmp_refl a : str_cmp a a = Eq.
Proof. induction a as [|x a IH]; simpl; [done|]. by rewrite N.compare_refl. Qed.

Lemma str_cmp_eq a b : str_cmp a b = Eq -> a = b.
Proof.
  revert b. induction a as [|x a IH]; intros [|y b]; simpl; try done.
  destruct (N.compare_spec x y) as [->| |]; try done. intros H. by rewrite (IH b H).
Qed.

Lemma str_cmp_antisym a b : str_cmp b a = CompOpp (str_cmp a b).
Proof.
  revert b. induction a as [|x a IH]; intros [|y b]; simpl; try done.
  rewrite N.compare_antisym. destruct (x ?= y)%N eqn:E; simpl; try done.
Qed.

Lemma str_cmp_le_trans a b c : str_cmp a b <> Gt -> str_cmp b c <> Gt -> str_cmp a c <> Gt.
Proof.
  revert b c. induction a as [|x a IH]; intros [|y b] [|z c]; simpl; try done.
  destruct (N.compare_spec x y), (N.compare_spec y z), (N.compare_spec x z);
    subst; try done; try lia. by apply IH.
Qed.
