(* ===== verification/BoundaryTypes.v ===== *)
(** * Boundary types: exact decimal integers, non-blank strings, diagnostics

    Models [src/types/decimal_string.rs], [src/types/non_empty_string.rs], the
    [bounded_diagnostic] sanitizer of [src/domain/error.rs] and
    [src/engine/expiration.rs].  The decimal conversions of the [num_bigint]
    crate are the class [BigUintText]; [RefBigUint] is a reference instance. *)

From stdpp Require Import base numbers list option countable.
From S2P Require Import Prelude.

(** ** Decimal text *)

(** The value of a digit string, most significant digit first. *)
Definition dec_value (s : rstr) : N :=
  fold_left (fun acc c => acc * 10 + (c - 48))%N s 0%N.

(** What the engine uses of [num_bigint::BigUint]: [from_str] on a digit string
    and [to_str_radix(10)]. *)
Class BigUintText := {
  biguint_from_str : rstr -> option N;
  biguint_to_str : N -> rstr;
  biguint_from_str_digits s :
    s <> [] -> forallb is_ascii_digit s = true ->
    biguint_from_str s = Some (dec_value s);
  biguint_to_str_digits n : forallb is_ascii_digit (biguint_to_str n) = true;
  biguint_to_str_value n : dec_value (biguint_to_str n) = n;
  biguint_to_str_lead n :
    exists c s, biguint_to_str n = c :: s /\ (c = 48%N -> s = []);
}.

(** ** [UnsignedDecimalString] *)

Record UnsignedDecimalString := mkUnsignedDecimalString { uds_value : N }.

Inductive UnsignedDecimalStringError := NotCanonicalDecimal.

Definition is_canonical_unsigned_decimal (value : rstr) : bool :=
  match value with
  | [] => false
  | [48%N] => true
  | first :: rest =>
      is_ascii_digit first && negb (first =? 48)%N && forallb is_ascii_digit rest
  end.

Definition uds_from_u64 (value : N) : UnsignedDecimalString :=
  mkUnsignedDecimalString value.

(** [impl Add for &UnsignedDecimalString]: [BigUint] addition cannot overflow. *)
Definition uds_add (lhs rhs : UnsignedDecimalString) : UnsignedDecimalString :=
  mkUnsignedDecimalString (uds_value lhs + uds_value rhs).

(** [try_to::<u64>]: the conversion fails outside the numeric range. *)
Definition uds_try_to_u64 (value : UnsignedDecimalString) : option N :=
  if (uds_value value <=? u64_max)%N then Some (uds_value value) else None.

Section DecimalText.
Context `{BigUintText}.

Definition uds_try_from (value : rstr)
  : result UnsignedDecimalStringError UnsignedDecimalString :=
  if negb (is_canonical_unsigned_decimal value) then Err NotCanonicalDecimal
  else match biguint_from_str value with
       | Some n => Ok (mkUnsignedDecimalString n)
       | None => Err NotCanonicalDecimal
       end.

Definition to_decimal_string (value : UnsignedDecimalString) : rstr :=
  biguint_to_str (uds_value value).
End DecimalText.

(** ** [NonEmptyString] *)

Record NonEmptyString := mkNonEmptyString { nes_str : rstr }.

Inductive NonEmptyStringError := BlankString.

Definition nes_try_from (value : rstr) : result NonEmptyStringError NonEmptyString :=
  if is_empty (trim value) then Err BlankString else Ok (mkNonEmptyString value).

(** ** [bounded_diagnostic] *)

Definition DIAGNOSTIC_MAX_CHARS : nat := 512.

Definition bounded_diagnostic (message : rstr) : rstr :=
  trim (take DIAGNOSTIC_MAX_CHARS
          (map (fun character => if is_control character then 32%N else character)
             message)).

(** ** Send expiration *)

Inductive SendExpiration :=
  | Expiration_EngineDefault
  | Expiration_Exact (unix_timestamp : N).

Inductive SendExpirationError :=
  | NotAfterProviderTime
  | ExpirationOverflow.

Definition resolve_send_expiration (expiration : SendExpiration)
    (provider_time default_validity_seconds : N) : result SendExpirationError N :=
  match expiration with
  | Expiration_EngineDefault =>
      ok_or ExpirationOverflow
        (checked_add u64_max provider_time default_validity_seconds)
  | Expiration_Exact unix_timestamp =>
      if (provider_time <? unix_timestamp)%N then Ok unix_timestamp
      else Err NotAfterProviderTime
  end.

(** ** Decidable equality and countability *)

#[export] Instance SendExpiration_eq_dec : EqDecision SendExpiration.
Proof. solve_decision. Defined.
#[export] Instance UnsignedDecimalString_eq_dec : EqDecision UnsignedDecimalString.
Proof. solve_decision. Defined.
#[export] Instance NonEmptyString_eq_dec : EqDecision NonEmptyString.
Proof. solve_decision. Defined.

#[export] Instance UnsignedDecimalString_countable : Countable UnsignedDecimalString.
Proof. apply (inj_countable' uds_value mkUnsignedDecimalString). by intros []. Defined.
#[export] Instance NonEmptyString_countable : Countable NonEmptyString.
Proof. apply (inj_countable' nes_str mkNonEmptyString). by intros []. Defined.

(** ** A reference instance of the decimal conversions *)

Fixpoint ref_digits (fuel : nat) (n : N) : rstr :=
  match fuel with
  | 0 => []
  | S fuel =>
      (if (n <? 10)%N then [] else ref_digits fuel (n / 10)) ++ [48 + n mod 10]%N
  end.

Definition ref_to_str (n : N) : rstr := ref_digits (S (N.to_nat (N.log2 n))) n.

(** [u64::to_string]. *)
Definition u64_to_string (n : N) : rstr := ref_to_str n.

Definition ref_from_str (s : rstr) : option N :=
  if is_empty s then None
  else if forallb is_ascii_digit s then Some (dec_value s) else None.

(** ** Lemmas *)

Lemma dec_value_app s c : dec_value (s ++ [c]) = (dec_value s * 10 + (c - 48))%N.
Proof. unfold dec_value. by rewrite fold_left_app. Qed.

Lemma is_ascii_digit_spec c : is_ascii_digit c = true <-> (48 <= c <= 57)%N.
Proof. unfold is_ascii_digit. rewrite andb_true_iff, !N.leb_le. done. Qed.

Lemma dec_value_bound s :
  forallb is_ascii_digit s = true -> (dec_value s < 10 ^ N.of_nat (length s))%N.
Proof.
  induction s as [|c s IH] using rev_ind; [done|].
  rewrite forallb_app, dec_value_app, length_app. intros [Hs Hc]%andb_true_iff.
  specialize (IH Hs). simpl in Hc. rewrite andb_true_r in Hc.
  apply is_ascii_digit_spec in Hc.
  replace (N.of_nat (length s + length [c])) with (N.succ (N.of_nat (length s)))
    by (simpl; lia).
  rewrite N.pow_succ_r'. lia.
Qed.

(** A digit string with a nonzero leading digit is at least [10 ^ (length - 1)]. *)
Lemma dec_value_lower c s :
  forallb is_ascii_digit (c :: s) = true -> c <> 48%N ->
  (10 ^ N.of_nat (length s) <= dec_value (c :: s))%N.
Proof.
  intros Hd Hc. induction s as [|d s IH] using rev_ind.
  - simpl in Hd. rewrite andb_true_r in Hd. apply is_ascii_digit_spec in Hd.
    unfold dec_value. simpl. lia.
  - rewrite app_comm_cons, forallb_app in Hd. apply andb_true_iff in Hd as [Hs _].
    rewrite app_comm_cons, dec_value_app, length_app. specialize (IH Hs).
    replace (N.of_nat (length s + length [d])) with (N.succ (N.of_nat (length s)))
      by (simpl; lia).
    rewrite N.pow_succ_r'. lia.
Qed.

(** Digit strings of the same length are determined by their value. *)
Lemma dec_value_inj_length s t :
  length s = length t -> forallb is_ascii_digit s = true ->
  forallb is_ascii_digit t = true -> dec_value s = dec_value t -> s = t.
Proof.
  revert t. induction s as [|c s IH] using rev_ind; intros t Hlen Hs Ht Hv.
  - by destruct t.
  - destruct t as [|d t _] using rev_ind; [rewrite length_app in Hlen; simpl in Hlen; lia|].
    rewrite !length_app in Hlen. simpl in Hlen.
    rewrite forallb_app in Hs, Ht. rewrite !dec_value_app in Hv.
    apply andb_true_iff in Hs as [Hs Hc], Ht as [Ht Hd]. simpl in Hc, Hd.
    rewrite andb_true_r in Hc, Hd. apply is_ascii_digit_spec in Hc, Hd.
    rewrite (IH t); [|lia|done|done|nia]. f_equal. f_equal. nia.
Qed.

Lemma canonical_spec s :
  is_canonical_unsigned_decimal s = true <->
  forallb is_ascii_digit s = true /\ exists c t, s = c :: t /\ (c = 48%N -> t = []).
Proof.
  split.
  - intros Hc. destruct s as [|c t]; [done|].
    destruct (decide (c = 48%N /\ t = [])) as [[-> ->]|Hn]; [naive_solver|].
    assert (is_ascii_digit c = true /\ c <> 48%N /\ forallb is_ascii_digit t = true)
      as (Hd & Hz & Ht).
    { unfold is_canonical_unsigned_decimal in Hc. rust_cases; bool_to_prop; naive_solver. }
    simpl. rewrite Hd, Ht. split; [done|]. exists c, t. naive_solver.
  - intros (Hd & c & t & -> & Hz). simpl in Hd. apply andb_true_iff in Hd as [Hc Ht].
    destruct (N.eq_dec c 48%N) as [->|Hn]; [by rewrite Hz|].
    apply N.eqb_neq in Hn. unfold is_canonical_unsigned_decimal.
    rewrite Hc, Hn, Ht. by repeat case_match.
Qed.

(** Canonical decimal strings are determined by their value. *)
Lemma canonical_value_inj s t :
  is_canonical_unsigned_decimal s = true -> is_canonical_unsigned_decimal t = true ->
  dec_value s = dec_value t -> s = t.
Proof.
  rewrite !canonical_spec.
  intros (Hs & c & s' & -> & Hc) (Ht & d & t' & -> & Hd) Hv.
  assert (forall a u, forallb is_ascii_digit (a :: u) = true -> (a = 48%N -> u = []) ->
    (a = 48%N /\ u = [] /\ dec_value (a :: u) = 0%N) \/
    (a <> 48 /\ 10 ^ N.of_nat (length u) <= dec_value (a :: u) < 10 ^ N.of_nat (S (length u)))%N)
    as Hcase.
  { intros a u Hu Ha. destruct (N.eq_dec a 48%N) as [->|Hn]; [left; by rewrite Ha|right].
    split; [done|]. split; [by apply dec_value_lower|].
    apply (dec_value_bound _ Hu). }
  destruct (Hcase _ _ Hs Hc) as [(-> & -> & Hs0)|(Hcn & Hsl & Hsu)],
    (Hcase _ _ Ht Hd) as [(-> & -> & Ht0)|(Hdn & Htl & Htu)]; [done| | |].
  - assert (0 < 10 ^ N.of_nat (length t'))%N by (apply N.neq_0_lt_0, N.pow_nonzero; lia). lia.
  - assert (0 < 10 ^ N.of_nat (length s'))%N by (apply N.neq_0_lt_0, N.pow_nonzero; lia). lia.
  - apply dec_value_inj_length; [|done|done|done]. simpl. f_equal.
    rewrite Hv in Hsl, Hsu.
    assert (10 ^ N.of_nat (length s') < 10 ^ N.of_nat (S (length t')))%N as H1 by lia.
    assert (10 ^ N.of_nat (length t') < 10 ^ N.of_nat (S (length s')))%N as H2 by lia.
    apply N.pow_lt_mono_r_iff in H1, H2; lia.
Qed.

Lemma ref_digits_spec fuel n :
  (n < 2 ^ N.of_nat fuel)%N -> fuel <> 0 ->
  forallb is_ascii_digit (ref_digits fuel n) = true /\
  dec_value (ref_digits fuel n) = n /\
  exists c s, ref_digits fuel n = c :: s /\ (c = 48%N -> s = []).
Proof.
  revert n. induction fuel as [|fuel IH]; intros n Hn Hf; [done|].
  assert (n mod 10 < 10)%N as Hm by (apply N.mod_lt; lia).
  assert (is_ascii_digit (48 + n mod 10)%N = true) as Hd
    by (apply is_ascii_digit_spec; revert Hm; generalize (n mod 10)%N; lia).
  simpl. rewrite forallb_app, dec_value_app. simpl. rewrite Hd.
  destruct (N.ltb_spec n 10) as [Hlt|Hge].
  - rewrite (N.mod_small n 10) by done. split_and!; [done|unfold dec_value; simpl; lia|].
    by exists (48 + n)%N, [].
  - assert (n / 10 < 2 ^ N.of_nat fuel)%N as Hdiv.
    { apply N.Div0.div_lt_upper_bound. rewrite Nat2N.inj_succ, N.pow_succ_r' in Hn. lia. }
    assert (0 < n / 10)%N as Hpos by (apply N.div_str_pos; lia).
    destruct fuel as [|fuel']; [simpl in Hdiv; lia|].
    destruct (IH (n / 10)%N Hdiv ltac:(done)) as (H1 & H2 & c & s & Hcs & Hz).
    rewrite H1, H2. split_and!; [done| |].
    { rewrite (N.div_mod' n 10) at 3. revert Hm. generalize (n mod 10)%N. lia. }
    rewrite Hcs. exists c, (s ++ [48 + n mod 10])%N. split; [done|]. intros ->.
    rewrite Hz in Hcs by done. rewrite Hcs in H2. unfold dec_value in H2. simpl in H2. lia.
Qed.

Lemma ref_to_str_spec n :
  forallb is_ascii_digit (ref_to_str n) = true /\
  dec_value (ref_to_str n) = n /\
  exists c s, ref_to_str n = c :: s /\ (c = 48%N -> s = []).
Proof.
  apply ref_digits_spec; [|done].
  replace (N.of_nat (S (N.to_nat (N.log2 n)))) with (N.succ (N.log2 n)) by lia.
  destruct (N.eq_dec n 0%N) as [->|Hn]; [done|]. apply N.log2_spec. lia.
Qed.

Lemma ref_from_str_digits s :
  s <> [] -> forallb is_ascii_digit s = true -> ref_from_str s = Some (dec_value s).
Proof. unfold ref_from_str. intros ? ->. by destruct s. Qed.

#[export] Instance RefBigUint : BigUintText := {
  biguint_from_str := ref_from_str;
  biguint_to_str := ref_to_str;
  biguint_from_str_digits := ref_from_str_digits;
  biguint_to_str_digits n := proj1 (ref_to_str_spec n);
  biguint_to_str_value n := proj1 (proj2 (ref_to_str_spec n));
  biguint_to_str_lead n := proj2 (proj2 (ref_to_str_spec n));
}.

Section DecimalTheorems.
Context `{BigUintText}.

Lemma biguint_to_str_canonical n :
  is_canonical_unsigned_decimal (biguint_to_str n) = true.
Proof.
  apply canonical_spec. split; [apply biguint_to_str_digits|apply biguint_to_str_lead].
Qed.

Lemma uds_try_from_canonical s v :
  uds_try_from s = Ok v <->
  is_canonical_unsigned_decimal s = true /\ uds_value v = dec_value s.
Proof.
  unfold uds_try_from. destruct (is_canonical_unsigned_decimal s) eqn:Hc; simpl.
  - apply canonical_spec in Hc as (Hd & c & t & -> & _).
    rewrite biguint_from_str_digits by done. destruct v; simpl. naive_solver.
  - naive_solver.
Qed.
End DecimalTheorems.

Lemma take_map_spaces (s : rstr) :
  Forall (fun c => is_control c = false)
    (map (fun c => if is_control c then 32%N else c) s).
Proof. induction s as [|c s IH]; simpl; constructor; [by destruct (is_control c) eqn:E|done]. Qed.

Lemma trim_sublist (P : char -> Prop) s : Forall P s -> Forall P (trim s).
Proof.
  intros HP. unfold trim, trim_end, trim_start.
  destruct (drop_while_suffix is_whitespace s) as (pre & Hs & _).
  rewrite Hs in HP. apply Forall_app in HP as [_ HP].
  set (u := drop_while is_whitespace s) in *.
  destruct (drop_while_suffix is_whitespace (reverse u)) as (pre' & Hu & _).
  apply Forall_reverse in HP. rewrite Hu in HP. apply Forall_app in HP as [_ HP].
  by apply Forall_reverse.
Qed.

Lemma trim_length s : length (trim s) <= length s.
Proof.
  unfold trim, trim_end, trim_start. rewrite length_reverse.
  pose proof (drop_while_length is_whitespace s).
  pose proof (drop_while_length is_whitespace (reverse (drop_while is_whitespace s))) as H2.
  rewrite length_reverse in H2. lia.
Qed.

Lemma trim_ends s :
  (forall c t, trim s = c :: t -> is_whitespace c = false) /\
  (forall c t, trim s = t ++ [c] -> is_whitespace c = false).
Proof.
  unfold trim, trim_end. set (u := trim_start s). split.
  - intros c t Ht.
    destruct (drop_while_suffix is_whitespace (reverse u)) as (pre & Hu & _).
    apply (f_equal reverse) in Hu. rewrite reverse_involutive, reverse_app, Ht in Hu.
    apply (drop_while_head is_whitespace s c (t ++ reverse pre)). done.
  - intros c t Ht. apply (f_equal reverse) in Ht.
    rewrite reverse_involutive, reverse_app in Ht. by apply drop_while_head in Ht.
Qed.

Lemma trim_fixed s :
  (forall c t, s = c :: t -> is_whitespace c = false) ->
  (forall c t, s = t ++ [c] -> is_whitespace c = false) -> trim s = s.
Proof.
  intros Hh Ht. unfold trim, trim_start, trim_end.
  destruct s as [|c s'] eqn:Es; [done|].
  rewrite drop_while_id by naive_solver.
  destruct (reverse (c :: s')) as [|d r] eqn:Er.
  { apply (f_equal length) in Er. rewrite length_reverse in Er. done. }
  apply (f_equal reverse) in Er as Er'. rewrite reverse_involutive, reverse_cons in Er'.
  rewrite drop_while_id by (by apply (Ht d (reverse r))).
  rewrite <- Er. apply reverse_involutive.
Qed.

(** ** Claims *)

(** An accepted decimal string prints back to exactly the text that was
    parsed, and every value prints to text that parses back to it, so the
    boundary conversion is lossless in both directions. *)
Theorem decimal_string_roundtrip `{BigUintText} :
  (forall s v, uds_try_from s = Ok v -> to_decimal_string v = s) /\
  (forall v, uds_try_from (to_decimal_string v) = Ok v).
Proof.
  split.
  - intros s v [Hc Hv]%uds_try_from_canonical. unfold to_decimal_string.
    apply canonical_value_inj; [apply biguint_to_str_canonical|done|].
    by rewrite biguint_to_str_value.
  - intros v. apply uds_try_from_canonical. unfold to_decimal_string.
    by rewrite biguint_to_str_canonical, biguint_to_str_value.
Qed.

(** Every stored diagnostic has at most 512 characters, contains no control
    character, and neither starts nor ends with white space; sanitizing it again
    changes nothing. *)
Theorem bounded_diagnostic_bounded (message : rstr) :
  let d := bounded_diagnostic message in
  length d <= 512 /\
  Forall (fun c => is_control c = false) d /\
  (forall c t, d = c :: t -> is_whitespace c = false) /\
  (forall c t, d = t ++ [c] -> is_whitespace c = false) /\
  bounded_diagnostic d = d.
Proof.
  intros d.
  assert (length d <= 512) as Hl.
  { unfold d, bounded_diagnostic. etrans; [apply trim_length|]. rewrite length_take.
    unfold DIAGNOSTIC_MAX_CHARS. lia. }
  assert (Forall (fun c => is_control c = false) d) as Hc.
  { apply trim_sublist, Forall_take, take_map_spaces. }
  destruct (trim_ends (take DIAGNOSTIC_MAX_CHARS
     (map (fun c => if is_control c then 32%N else c) message))) as [Hh Ht].
  split_and!; [done|done|done|done|].
  unfold bounded_diagnostic at 1. rewrite (map_ext_in _ id), map_id.
  - rewrite take_ge by done. by apply trim_fixed.
  - intros c Hin.
    rewrite Forall_forall in Hc. by rewrite (Hc _ Hin).
Qed.

(** A resolved expiration never wraps: the default policy adds the
    configured validity exactly or reports overflow, and an exact timestamp is
    returned unchanged only when it is later than provider time. *)
Theorem resolve_send_expiration_spec e now validity :
  match resolve_send_expiration e now validity with
  | Ok t =>
      match e with
      | Expiration_EngineDefault => t = (now + validity)%N /\ (t <= u64_max)%N
      | Expiration_Exact ts => t = ts /\ (now < t)%N
      end
  | Err ExpirationOverflow =>
      e = Expiration_EngineDefault /\ (u64_max < now + validity)%N
  | Err NotAfterProviderTime => exists ts, e = Expiration_Exact ts /\ (ts <= now)%N
  end.
Proof.
  unfold resolve_send_expiration. destruct e as [|ts].
  - destruct (checked_add _ _ _) as [t|] eqn:E; simpl.
    + apply checked_add_Some in E as [-> ?]. done.
    + apply checked_add_None in E. done.
  - destruct (N.ltb_spec now ts); [done|]. by exists ts.
Qed.
