(* ===== verification/SendDomain.v ===== *)
(** * Domain records of the send path

    Models the data of [src/domain/send.rs], [src/domain/journal.rs],
    [src/domain/secret.rs] and the address equality of [src/types/address.rs],
    with the batch validation [exact_value_total]. *)

From stdpp Require Import base numbers list option strings countable.
From S2P Require Import Prelude BoundaryTypes.

(** ** Addresses, hashes and message bodies *)

(** Fields of [ton_core]'s address that the engine reads. *)
Record TonAddress := mkTonAddress { ta_workchain : Z; ta_hash : bytes }.

(** The original boundary text together with the parsed address. *)
Record TonAddressString := mkTonAddressString {
  tas_value : rstr;
  tas_address : TonAddress;
}.

#[export] Instance TonAddress_eq_dec : EqDecision TonAddress.
Proof. solve_decision. Defined.

(** [impl PartialEq for TonAddressString]: the text is not compared. *)
Definition tas_eqb (self other : TonAddressString) : bool :=
  bool_decide (tas_address self = tas_address other).

Record Base64Hash := mkBase64Hash { b64_str : rstr }.

(** Validated Bag of Cells bytes. *)
Record Boc := mkBoc { boc_bytes : bytes }.

#[export] Instance Base64Hash_eq_dec : EqDecision Base64Hash.
Proof. solve_decision. Defined.
#[export] Instance Boc_eq_dec : EqDecision Boc.
Proof. solve_decision. Defined.

Inductive SendAmount :=
  | Amount_Exact (nanograms : UnsignedDecimalString)
  | Amount_All.

Inductive SendMessageBody :=
  | Body_Empty
  | Body_Comment (text : rstr)
  | Body_RawPayload (boc : Boc).

Record SendMessage := mkSendMessage {
  sm_destination : TonAddressString;
  sm_amount : SendAmount;
  sm_body : SendMessageBody;
  sm_bounce : bool;
  sm_state_init : option Boc;
}.

#[export] Instance SendAmount_eq_dec : EqDecision SendAmount.
Proof. solve_decision. Defined.
#[export] Instance SendMessageBody_eq_dec : EqDecision SendMessageBody.
Proof. solve_decision. Defined.

(** The derived [PartialEq] of a message compares destinations with [tas_eqb]. *)
Definition sm_eqb (a b : SendMessage) : bool :=
  tas_eqb (sm_destination a) (sm_destination b)
  && bool_decide (sm_amount a = sm_amount b)
  && bool_decide (sm_body a = sm_body b)
  && Bool.eqb (sm_bounce a) (sm_bounce b)
  && bool_decide (sm_state_init a = sm_state_init b).

Fixpoint messages_eqb (a b : list SendMessage) : bool :=
  match a, b with
  | [], [] => true
  | x :: a, y :: b => sm_eqb x y && messages_eqb a b
  | _, _ => false
  end.

(** ** Intents and requests *)

Record SendIntent := mkSendIntent {
  si_expiration : SendExpiration;
  si_messages : list SendMessage;
}.

Inductive SendIntentError :=
  | InvalidMessageCount
  | WholeBalanceInBatch.

Definition is_whole_balance (message : SendMessage) : bool :=
  match sm_amount message with Amount_All => true | Amount_Exact _ => false end.

(** The accumulation loop of [exact_value_total]; [None] is its early return. *)
Fixpoint exact_total_loop (total : UnsignedDecimalString) (messages : list SendMessage)
  : option UnsignedDecimalString :=
  match messages with
  | [] => Some total
  | message :: rest =>
      match sm_amount message with
      | Amount_Exact nanograms => exact_total_loop (uds_add total nanograms) rest
      | Amount_All => None
      end
  end.

Definition exact_value_total (self : SendIntent)
  : result SendIntentError (option UnsignedDecimalString) :=
  let messages := si_messages self in
  if is_empty messages || (255 <? length messages) then Err InvalidMessageCount
  else if (1 <? length messages) && existsb is_whole_balance messages
       then Err WholeBalanceInBatch
       else Ok (exact_total_loop (uds_from_u64 0) messages).

Record SendRequest := mkSendRequest {
  sr_operation_id : NonEmptyString;
  sr_force : bool;
  sr_intent : SendIntent;
}.

(** ** Account state and public phases *)

Inductive AccountStatus :=
  | Account_Nonexistent
  | Account_Uninitialized
  | Account_Active
  | Account_Frozen
  | Account_Unknown.

#[export] Instance AccountStatus_eq_dec : EqDecision AccountStatus.
Proof. solve_decision. Defined.

Inductive SendPhase :=
  | Phase_Idle
  | Phase_Validating
  | Phase_Authorizing
  | Phase_Preparing
  | Phase_Persisting
  | Phase_ReadyToSubmit
  | Phase_Submitting
  | Phase_SubmissionUnknown
  | Phase_Submitted
  | Phase_HandedOff
  | Phase_Confirmed
  | Phase_Replaced
  | Phase_SequenceNumberConsumed
  | Phase_Expired
  | Phase_Superseded
  | Phase_Failed
  | Phase_Cancelled.

#[export] Instance SendPhase_eq_dec : EqDecision SendPhase.
Proof. solve_decision. Defined.

Inductive PendingReason :=
  | Pending_InMempool
  | Pending_AwaitingWindow.

#[export] Instance PendingReason_eq_dec : EqDecision PendingReason.
Proof. solve_decision. Defined.

Record ResolutionInfo := mkResolutionInfo {
  ri_transaction_hash : option Base64Hash;
  ri_transaction_lt : option UnsignedDecimalString;
  ri_pending_reason : option PendingReason;
  ri_can_force_retry : bool;
  ri_retry_after_hint_ms : option N;
}.

#[export] Instance ResolutionInfo_eq_dec : EqDecision ResolutionInfo.
Proof. solve_decision. Defined.

Record SendSnapshot := mkSendSnapshot {
  ss_operation_id : option NonEmptyString;
  ss_phase : SendPhase;
  ss_error_message : option rstr;
  ss_resolution : option ResolutionInfo;
}.

#[export] Instance SendSnapshot_eta : Eta SendSnapshot :=
  fun s => mkSendSnapshot (ss_operation_id s) (ss_phase s) (ss_error_message s)
             (ss_resolution s).

#[export] Instance SendSnapshot_eq_dec : EqDecision SendSnapshot.
Proof. solve_decision. Defined.

(** ** Journal and protected-secret records *)

Record JournalKey := mkJournalKey { jk_record_id : rstr; jk_slot : string }.

Record JournalRecord := mkJournalRecord { jr_version : N; jr_payload : bytes }.

Record JournalCompareExchange := mkJournalCompareExchange {
  jce_key : JournalKey;
  jce_expected_version : option N;
  jce_replacement : JournalRecord;
}.

Record JournalCompareExchangeResult := mkJournalCompareExchangeResult {
  jcr_applied : bool;
  jcr_current : option JournalRecord;
}.

Record ProtectedSecretRef := mkProtectedSecretRef { psr_value : rstr }.

Inductive SecretAccessReason :=
  | Reason_CreateWallet
  | Reason_SignTransfer
  | Reason_SignTonConnectProof
  | Reason_PrepareKeyRotation
  | Reason_EncryptComment
  | Reason_DecryptComment
  | Reason_RevealRecoveryPhrase
  | Reason_DeriveTonConnectSessionKey
  | Reason_SignTonConnectData.

Record ProtectedSecretRead := mkProtectedSecretRead {
  psd_secret_ref : ProtectedSecretRef;
  psd_reason : SecretAccessReason;
  psd_prompt : rstr;
}.

#[export] Instance JournalKey_eq_dec : EqDecision JournalKey.
Proof. solve_decision. Defined.
#[export] Instance JournalRecord_eq_dec : EqDecision JournalRecord.
Proof. solve_decision. Defined.

(** ** Lemmas *)

Lemma tas_eqb_spec a b : tas_eqb a b = true <-> tas_address a = tas_address b.
Proof. apply bool_decide_eq_true. Qed.

Lemma sm_eqb_refl m : sm_eqb m m = true.
Proof.
  unfold sm_eqb. rewrite (proj2 (tas_eqb_spec _ _)) by done.
  rewrite !bool_decide_eq_true_2, Bool.eqb_reflx by done. done.
Qed.

Lemma messages_eqb_refl l : messages_eqb l l = true.
Proof. induction l as [|m l IH]; simpl; [done|]. by rewrite sm_eqb_refl, IH. Qed.

(** The exact amounts of a batch, and their sum. *)
Fixpoint exact_sum (messages : list SendMessage) : N :=
  match messages with
  | [] => 0%N
  | m :: rest =>
      (match sm_amount m with Amount_Exact n => uds_value n | Amount_All => 0 end
       + exact_sum rest)%N
  end.

Lemma exact_total_loop_spec total messages :
  exact_total_loop total messages =
    if existsb is_whole_balance messages then None
    else Some (mkUnsignedDecimalString (uds_value total + exact_sum messages)).
Proof.
  revert total. induction messages as [|m rest IH]; intros total; simpl.
  - destruct total. simpl. by rewrite N.add_0_r.
  - unfold is_whole_balance at 1. destruct (sm_amount m); [|done]. simpl. rewrite IH.
    destruct (existsb _ rest); [done|]. simpl. do 2 f_equal. lia.
Qed.

(** ** Claims *)

(** Batch validation accepts exactly the batches of 1 to 255 messages in
    which a whole-balance message stands alone; the returned total is the exact
    sum of the amounts, without a width limit, and [None] for the single
    whole-balance message. *)
Theorem exact_value_total_spec (intent : SendIntent) :
  let n := length (si_messages intent) in
  let whole := existsb is_whole_balance (si_messages intent) in
  exact_value_total intent =
    if decide (n = 0 \/ 255 < n) then Err InvalidMessageCount
    else if decide (1 < n /\ whole = true) then Err WholeBalanceInBatch
    else if whole then Ok None
    else Ok (Some (mkUnsignedDecimalString (exact_sum (si_messages intent)))).
Proof.
  simpl. unfold exact_value_total. rewrite exact_total_loop_spec.
  set (ms := si_messages intent). set (w := existsb is_whole_balance ms).
  assert (is_empty ms = bool_decide (length ms = 0)) as -> by (by destruct ms).
  destruct (Nat.ltb_spec 255 (length ms)), (Nat.ltb_spec 1 (length ms));
    repeat case_bool_decide; repeat case_decide; destruct w; simpl; try lia; naive_solver lia.
Qed.
