(* ===== verification/SendWorkflow.v ===== *)
(** * The durable send reducer

    Models [src/wallet/send.rs]: the stage table, the [SendWorkflow] reducer
    with every method, and the functions that read the durable journal record.
    [serde_json] is the class [JournalCodec] with its round-trip law;
    [RefCodec] is a reference instance. *)

From stdpp Require Import base numbers list option strings countable.
From S2P Require Import Prelude BoundaryTypes SendDomain.

(** ** Constants *)

Definition JOURNAL_SCHEMA_VERSION : N := 5%N.
Definition FIRST_JOURNAL_VERSION : N := 1%N.
Definition SEND_SLOT : string := "outgoing-transfer".

(** ** Fresh account state *)

Record FreshSendAccount := mkFreshSendAccount {
  fa_status : AccountStatus;
  fa_seqno : N;
}.

Definition permits_send (self : FreshSendAccount) : bool :=
  (match fa_status self with Account_Active => true | _ => false end)
  || ((fa_seqno self =? 0)%N
      && match fa_status self with
         | Account_Nonexistent | Account_Uninitialized => true
         | _ => false
         end).

Definition needs_state_init (self : FreshSendAccount) : bool :=
  match fa_status self with Account_Active => false | _ => true end.

(** ** Signed material *)

Inductive SignedMessageKind := Kind_External | Kind_Internal.

#[export] Instance SignedMessageKind_eq_dec : EqDecision SignedMessageKind.
Proof. solve_decision. Defined.

Record PreparedTransfer := mkPreparedTransfer {
  pt_operation_id : NonEmptyString;
  pt_record_id : NonEmptyString;
  pt_source : TonAddressString;
  pt_kind : SignedMessageKind;
  pt_messages : list SendMessage;
  pt_seqno : N;
  pt_needs_state_init : bool;
  pt_valid_until : N;
  pt_signed_boc : Boc;
  pt_message_hash : Base64Hash;
}.

(** ** Stages and events *)

Inductive SendStage :=
  | Stage_Validating
  | Stage_LoadingJournal
  | Stage_FetchingFreshAccount
  | Stage_Authorizing
  | Stage_Preparing
  | Stage_PersistingPrepared
  | Stage_ReadyToSubmit
  | Stage_Submitting
  | Stage_SubmissionUnknown
  | Stage_Submitted
  | Stage_HandedOff
  | Stage_Confirmed
  | Stage_Replaced
  | Stage_SequenceNumberConsumed
  | Stage_Expired
  | Stage_Superseded
  | Stage_Failed
  | Stage_Cancelled.

#[export] Instance SendStage_eq_dec : EqDecision SendStage.
Proof. solve_decision. Defined.

Inductive SendEvent :=
  | Event_Begin
  | Event_JournalLoaded
  | Event_FreshAccountLoaded
  | Event_PreparedAccountLoaded
  | Event_AuthorizationSucceeded
  | Event_TransferPrepared
  | Event_PreparedJournalPersisted
  | Event_InternalMessageJournalPersisted
  | Event_SubmissionStarted
  | Event_SubmissionSucceeded
  | Event_SubmissionUnknown
  | Event_SubmissionRejected
  | Event_TerminalJournalPersisted
  | Event_JournalConflict
  | Event_Cancel.

Definition is_terminal (self : SendStage) : bool :=
  match self with
  | Stage_SubmissionUnknown | Stage_Submitted | Stage_HandedOff | Stage_Confirmed
  | Stage_Replaced | Stage_SequenceNumberConsumed | Stage_Expired | Stage_Superseded
  | Stage_Failed | Stage_Cancelled => true
  | _ => false
  end.

Definition permits_replacement (self : SendStage) : bool :=
  match self with
  | Stage_Confirmed | Stage_Replaced | Stage_SequenceNumberConsumed | Stage_Expired
  | Stage_Superseded | Stage_Failed | Stage_Cancelled => true
  | _ => false
  end.

Definition permits_forced_replacement (self : SendStage) : bool :=
  match self with
  | Stage_ReadyToSubmit | Stage_Submitting | Stage_SubmissionUnknown | Stage_Submitted
  | Stage_HandedOff => true
  | _ => false
  end.

Definition after_cancellation (self : SendStage) : SendStage :=
  if is_terminal self then self else Stage_Cancelled.

(** [SendStage::transition]; [None] is an out-of-order event. *)
Definition transition (self : SendStage) (event : SendEvent) : option SendStage :=
  match self, event with
  | Stage_Validating, Event_Begin => Some Stage_LoadingJournal
  | Stage_LoadingJournal, Event_JournalLoaded => Some Stage_FetchingFreshAccount
  | Stage_FetchingFreshAccount, Event_FreshAccountLoaded => Some Stage_Authorizing
  | Stage_FetchingFreshAccount, Event_PreparedAccountLoaded
  | Stage_Authorizing, Event_AuthorizationSucceeded => Some Stage_Preparing
  | Stage_Preparing, Event_TransferPrepared => Some Stage_PersistingPrepared
  | Stage_PersistingPrepared, Event_PreparedJournalPersisted => Some Stage_ReadyToSubmit
  | Stage_PersistingPrepared, Event_InternalMessageJournalPersisted => Some Stage_HandedOff
  | Stage_ReadyToSubmit, Event_SubmissionStarted => Some Stage_Submitting
  | Stage_Submitting, Event_SubmissionSucceeded => Some Stage_Submitted
  | Stage_Submitting, Event_SubmissionUnknown => Some Stage_SubmissionUnknown
  | Stage_Submitting, Event_SubmissionRejected => Some Stage_Failed
  | Stage_SubmissionUnknown, Event_TerminalJournalPersisted
  | Stage_Submitted, Event_TerminalJournalPersisted
  | Stage_HandedOff, Event_TerminalJournalPersisted
  | Stage_Failed, Event_TerminalJournalPersisted
  | Stage_Cancelled, Event_TerminalJournalPersisted => Some self
  | stage, Event_JournalConflict => if is_terminal stage then None else Some Stage_Failed
  | stage, Event_Cancel => Some (after_cancellation stage)
  | _, _ => None
  end.

Definition public_phase (self : SendStage) : SendPhase :=
  match self with
  | Stage_Validating | Stage_LoadingJournal | Stage_FetchingFreshAccount => Phase_Validating
  | Stage_Authorizing => Phase_Authorizing
  | Stage_Preparing => Phase_Preparing
  | Stage_PersistingPrepared => Phase_Persisting
  | Stage_ReadyToSubmit => Phase_ReadyToSubmit
  | Stage_Submitting => Phase_Submitting
  | Stage_SubmissionUnknown => Phase_SubmissionUnknown
  | Stage_Submitted => Phase_Submitted
  | Stage_HandedOff => Phase_HandedOff
  | Stage_Confirmed => Phase_Confirmed
  | Stage_Replaced => Phase_Replaced
  | Stage_SequenceNumberConsumed => Phase_SequenceNumberConsumed
  | Stage_Expired => Phase_Expired
  | Stage_Superseded => Phase_Superseded
  | Stage_Failed => Phase_Failed
  | Stage_Cancelled => Phase_Cancelled
  end.

(** ** Directives and errors *)

Inductive SendDirective :=
  | LoadJournal (key : JournalKey)
  | FetchFreshAccount
  | ReadProtectedSecret (read : ProtectedSecretRead)
  | PrepareTransfer (request : SendRequest) (account : FreshSendAccount)
  | PersistJournal (mutation : JournalCompareExchange)
  | Submit (signed_boc : Boc) (message_hash : Base64Hash)
  | HandOff (internal_boc : Boc) (valid_until : N)
  | Finished.

Inductive SendWorkflowError :=
  | InvalidTransition (from : SendStage) (event : string)
  | PreparedTransferMismatch
  | JournalConflict
  | PreviousSubmissionUnresolved
  | AccountUnavailable (status : AccountStatus)
  | InvalidJournal (reason : rstr).

(** ** The durable record and its JSON codec *)

Record DurableSendRecord := mkDurableSendRecord {
  dr_schema_version : N;
  dr_operation_id : NonEmptyString;
  dr_record_id : NonEmptyString;
  dr_source : TonAddressString;
  dr_kind : SignedMessageKind;
  dr_messages : list SendMessage;
  dr_seqno : N;
  dr_needs_state_init : bool;
  dr_valid_until : N;
  dr_signed_boc : Boc;
  dr_message_hash : Base64Hash;
  dr_stage : SendStage;
  dr_provider_reference : option rstr;
  dr_diagnostic : option rstr;
  dr_confirmed_transaction_hash : option Base64Hash;
  dr_confirmed_transaction_lt : option UnsignedDecimalString;
}.

#[export] Instance DurableSendRecord_eta : Eta DurableSendRecord :=
  fun d => mkDurableSendRecord (dr_schema_version d) (dr_operation_id d)
    (dr_record_id d) (dr_source d) (dr_kind d) (dr_messages d) (dr_seqno d)
    (dr_needs_state_init d) (dr_valid_until d) (dr_signed_boc d) (dr_message_hash d)
    (dr_stage d) (dr_provider_reference d) (dr_diagnostic d)
    (dr_confirmed_transaction_hash d) (dr_confirmed_transaction_lt d).

(** [serde_json::to_vec] and [serde_json::from_slice] at the derived [Serialize]
    and [Deserialize] of [DurableSendRecord]; an error is its display text. *)
Class JournalCodec := {
  to_vec : DurableSendRecord -> result rstr bytes;
  from_slice : bytes -> result rstr DurableSendRecord;
  from_slice_to_vec d payload : to_vec d = Ok payload -> from_slice payload = Ok d;
}.

(** ** The reducer state *)

Record SendWorkflow := mkSendWorkflow {
  sw_record_id : NonEmptyString;
  sw_source : TonAddressString;
  sw_request : SendRequest;
  sw_kind : SignedMessageKind;
  sw_local_secret_ref : option ProtectedSecretRef;
  sw_stage : SendStage;
  sw_fresh_account : option FreshSendAccount;
  sw_prepared : option PreparedTransfer;
  sw_journal_version : option N;
  sw_provider_reference : option rstr;
  sw_diagnostic : option rstr;
}.

#[export] Instance SendWorkflow_eta : Eta SendWorkflow :=
  fun w => mkSendWorkflow (sw_record_id w) (sw_source w) (sw_request w) (sw_kind w)
    (sw_local_secret_ref w) (sw_stage w) (sw_fresh_account w) (sw_prepared w)
    (sw_journal_version w) (sw_provider_reference w) (sw_diagnostic w).

Definition new_with_kind (record_id : NonEmptyString) (source : TonAddressString)
    (request : SendRequest) (local_secret_ref : option ProtectedSecretRef)
    (kind : SignedMessageKind) : SendWorkflow :=
  mkSendWorkflow record_id source request kind local_secret_ref Stage_Validating
    None None None None None.

Definition workflow_new (record_id : NonEmptyString) (source : TonAddressString)
    (request : SendRequest) (local_secret_ref : ProtectedSecretRef) : SendWorkflow :=
  new_with_kind record_id source request (Some local_secret_ref) Kind_External.

Definition new_internal (record_id : NonEmptyString) (source : TonAddressString)
    (request : SendRequest) (local_secret_ref : ProtectedSecretRef) : SendWorkflow :=
  new_with_kind record_id source request (Some local_secret_ref) Kind_Internal.

Definition new_prepared_external (record_id : NonEmptyString) (source : TonAddressString)
    (operation_id : NonEmptyString) (force : bool) (valid_until : N) : SendWorkflow :=
  new_with_kind record_id source
    (mkSendRequest operation_id force (mkSendIntent (Expiration_Exact valid_until) []))
    None Kind_External.

Definition workflow_snapshot (self : SendWorkflow) : SendSnapshot :=
  mkSendSnapshot (Some (sr_operation_id (sw_request self))) (public_phase (sw_stage self))
    (sw_diagnostic self) None.

Definition next_journal_version (current : option N) : result SendWorkflowError N :=
  match current with
  | Some version =>
      ok_or (InvalidJournal (lit "version exhausted")) (checked_add u64_max version 1)
  | None => Ok FIRST_JOURNAL_VERSION
  end.

Definition next_stage (self : SendWorkflow) (event : SendEvent) (event_name : string)
  : result SendWorkflowError SendStage :=
  ok_or (InvalidTransition (sw_stage self) event_name) (transition (sw_stage self) event).

Definition reducer (A : Type) : Type := method SendWorkflow SendWorkflowError A.

Definition apply_event (event : SendEvent) (event_name : string) : reducer unit :=
  let! self := mget in
  let! stage := mlift (next_stage self event event_name) in
  mupdate (fun w => w <| sw_stage := stage |>).

Definition journal_key (self : SendWorkflow) : JournalKey :=
  mkJournalKey (nes_str (sw_record_id self)) SEND_SLOT.

Definition prepared_ref (self : SendWorkflow) : result SendWorkflowError PreparedTransfer :=
  ok_or (InvalidTransition (sw_stage self) "prepared_transfer_required") (sw_prepared self).

(** The stage written to the journal for the reducer's current stage. *)
Definition durable_stage (self : SendWorkflow) : SendStage :=
  match sw_stage self, sw_kind self with
  | Stage_PersistingPrepared, Kind_External => Stage_ReadyToSubmit
  | Stage_PersistingPrepared, Kind_Internal => Stage_HandedOff
  | stage, _ => stage
  end.

Definition journal_record (self : SendWorkflow) : result SendWorkflowError DurableSendRecord :=
  let? prepared := prepared_ref self in
  Ok (mkDurableSendRecord JOURNAL_SCHEMA_VERSION (pt_operation_id prepared)
        (pt_record_id prepared) (pt_source prepared) (pt_kind prepared)
        (pt_messages prepared) (pt_seqno prepared) (pt_needs_state_init prepared)
        (pt_valid_until prepared) (pt_signed_boc prepared) (pt_message_hash prepared)
        (durable_stage self) (sw_provider_reference self) (sw_diagnostic self) None None).

Definition read_secret_directive (self : SendWorkflow)
  : result SendWorkflowError SendDirective :=
  let? secret_ref :=
    ok_or (InvalidTransition (sw_stage self) "protected_secret_required")
      (sw_local_secret_ref self) in
  Ok (ReadProtectedSecret
        (mkProtectedSecretRead secret_ref Reason_SignTransfer
           (lit "Authenticate to sign this wallet transaction"))).

Definition validate_prepared (self : SendWorkflow) (prepared : PreparedTransfer)
  : result SendWorkflowError unit :=
  let? account := ok_or PreparedTransferMismatch (sw_fresh_account self) in
  let intent := sr_intent (sw_request self) in
  if negb (bool_decide (pt_operation_id prepared = sr_operation_id (sw_request self)))
     || negb (bool_decide (pt_record_id prepared = sw_record_id self))
     || negb (tas_eqb (pt_source prepared) (sw_source self))
     || negb (bool_decide (pt_kind prepared = sw_kind self))
     || negb (messages_eqb (pt_messages prepared) (si_messages intent))
     || match si_expiration intent with
        | Expiration_Exact unix_timestamp =>
            negb (pt_valid_until prepared =? unix_timestamp)%N
        | Expiration_EngineDefault => false
        end
     || negb (pt_seqno prepared =? fa_seqno account)%N
     || negb (Bool.eqb (pt_needs_state_init prepared) (needs_state_init account))
  then Err PreparedTransferMismatch
  else Ok tt.

(** ** Reading the journal *)

(** Durable signed send that still needs chain evidence. *)
Record PendingSendRecord := mkPendingSendRecord {
  ps_journal_version : N;
  ps_operation_id : NonEmptyString;
  ps_record_id : NonEmptyString;
  ps_source : TonAddressString;
  ps_kind : SignedMessageKind;
  ps_seqno : N;
  ps_valid_until : N;
  ps_message_hash : Base64Hash;
  ps_stage : SendStage;
  ps_durable : DurableSendRecord;
  ps_journal : JournalRecord;
}.

Inductive SendResolution :=
  | Resolution_Confirmed (transaction_hash : Base64Hash)
      (transaction_lt : UnsignedDecimalString)
  | Resolution_Replaced
  | Resolution_SequenceNumberConsumed
  | Resolution_Expired
  | Resolution_StillPending (reason : PendingReason).

Definition current_journal (self : PendingSendRecord) : JournalRecord := ps_journal self.

Definition pending_snapshot (self : PendingSendRecord) (resolution : SendResolution)
  : SendSnapshot :=
  let '(phase, transaction_hash, transaction_lt, pending_reason) :=
    match resolution with
    | Resolution_Confirmed transaction_hash transaction_lt =>
        (Phase_Confirmed, Some transaction_hash, Some transaction_lt, None)
    | Resolution_Replaced => (Phase_Replaced, None, None, None)
    | Resolution_SequenceNumberConsumed => (Phase_SequenceNumberConsumed, None, None, None)
    | Resolution_Expired => (Phase_Expired, None, None, None)
    | Resolution_StillPending reason =>
        (public_phase (ps_stage self), None, None, Some reason)
    end in
  mkSendSnapshot (Some (ps_operation_id self)) phase (dr_diagnostic (ps_durable self))
    (Some (mkResolutionInfo transaction_hash transaction_lt pending_reason
       (bool_decide (is_Some pending_reason) && permits_forced_replacement (ps_stage self))
       (match pending_reason with Some _ => Some 4000%N | None => None end))).

Definition can_force_retry (self : PendingSendRecord) : bool :=
  permits_forced_replacement (ps_stage self).

(** [lt.try_to::<u64>().is_err()] or an absent logical time. *)
Definition invalid_lt (lt : option UnsignedDecimalString) : bool :=
  match lt with
  | None => true
  | Some lt => match uds_try_to_u64 lt with Some _ => false | None => true end
  end.

Section Codec.
Context `{JournalCodec}.

Definition decode_durable_record (record : JournalRecord)
  : result SendWorkflowError DurableSendRecord :=
  if (jr_version record =? 0)%N
  then Err (InvalidJournal (lit "version must be positive"))
  else
    let? durable := map_err InvalidJournal (from_slice (jr_payload record)) in
    if negb (dr_schema_version durable =? JOURNAL_SCHEMA_VERSION)%N
    then Err (InvalidJournal (lit "unsupported schema version"))
    else if bool_decide (dr_stage durable = Stage_Confirmed)
            && (bool_decide (dr_confirmed_transaction_hash durable = None)
                || invalid_lt (dr_confirmed_transaction_lt durable))
         then Err (InvalidJournal (lit "confirmed record evidence is invalid"))
         else Ok durable.

(** The ownership guard shared by the journal readers. *)
Definition foreign_record (durable : DurableSendRecord) (record_id : NonEmptyString)
    (source : TonAddressString) : bool :=
  negb (bool_decide (dr_record_id durable = record_id))
  || negb (tas_eqb (dr_source durable) source).

Definition pending_send_record (record : JournalRecord) (record_id : NonEmptyString)
    (source : TonAddressString) : result SendWorkflowError (option PendingSendRecord) :=
  let? durable := decode_durable_record record in
  if foreign_record durable record_id source
  then Err (InvalidJournal (lit "record belongs to another wallet"))
  else if permits_replacement (dr_stage durable) then Ok None
  else Ok (Some (mkPendingSendRecord (jr_version record) (dr_operation_id durable)
         (dr_record_id durable) (dr_source durable) (dr_kind durable) (dr_seqno durable)
         (dr_valid_until durable) (dr_message_hash durable) (dr_stage durable)
         durable record)).

Definition terminal_send_resolution (record : JournalRecord)
    (record_id : NonEmptyString) (source : TonAddressString)
  : result SendWorkflowError (option SendResolution) :=
  let? durable := decode_durable_record record in
  if foreign_record durable record_id source
  then Err (InvalidJournal (lit "record belongs to another wallet"))
  else match dr_stage durable with
    | Stage_Confirmed =>
        let? transaction_hash :=
          ok_or (InvalidJournal (lit "confirmed record has no transaction hash"))
            (dr_confirmed_transaction_hash durable) in
        let? transaction_lt :=
          ok_or (InvalidJournal (lit "confirmed record has no transaction logical time"))
            (dr_confirmed_transaction_lt durable) in
        Ok (Some (Resolution_Confirmed transaction_hash transaction_lt))
    | Stage_Replaced => Ok (Some Resolution_Replaced)
    | Stage_SequenceNumberConsumed => Ok (Some Resolution_SequenceNumberConsumed)
    | Stage_Expired => Ok (Some Resolution_Expired)
    | _ => Ok None
    end.

Definition send_snapshot_from_journal (record : JournalRecord)
    (record_id : NonEmptyString) (source : TonAddressString)
  : result SendWorkflowError SendSnapshot :=
  let? durable := decode_durable_record record in
  if foreign_record durable record_id source
  then Err (InvalidJournal (lit "record belongs to another wallet"))
  else
    let resolution :=
      match dr_stage durable with
      | Stage_Confirmed =>
          Some (mkResolutionInfo (dr_confirmed_transaction_hash durable)
                  (dr_confirmed_transaction_lt durable) None false None)
      | Stage_Replaced | Stage_SequenceNumberConsumed | Stage_Expired
      | Stage_Superseded => Some (mkResolutionInfo None None None false None)
      | Stage_Validating | Stage_LoadingJournal | Stage_FetchingFreshAccount
      | Stage_Authorizing | Stage_Preparing | Stage_PersistingPrepared =>
          Some (mkResolutionInfo None None (Some Pending_AwaitingWindow) false
                  (Some 4000%N))
      | Stage_ReadyToSubmit | Stage_Submitting | Stage_SubmissionUnknown
      | Stage_Submitted | Stage_HandedOff =>
          Some (mkResolutionInfo None None (Some Pending_AwaitingWindow) true
                  (Some 4000%N))
      | Stage_Failed | Stage_Cancelled => None
      end in
    Ok (mkSendSnapshot (Some (dr_operation_id durable))
          (public_phase (dr_stage durable)) (dr_diagnostic durable) resolution).

(** The durable record a terminal resolution writes; [None] for a resolution
    that must not touch the journal. *)
Definition resolved_record (self : PendingSendRecord) (resolution : SendResolution)
  : option DurableSendRecord :=
  let evidence :=
    match resolution with
    | Resolution_Confirmed transaction_hash transaction_lt =>
        Some (Stage_Confirmed, Some transaction_hash, Some transaction_lt)
    | Resolution_Replaced => Some (Stage_Replaced, None, None)
    | Resolution_SequenceNumberConsumed => Some (Stage_SequenceNumberConsumed, None, None)
    | Resolution_Expired => Some (Stage_Expired, None, None)
    | Resolution_StillPending _ => None
    end in
  match evidence with
  | None => None
  | Some (stage, transaction_hash, transaction_lt) =>
      Some ((((ps_durable self) <| dr_stage := stage |>
               <| dr_diagnostic := None |>)
               <| dr_confirmed_transaction_hash := transaction_hash |>)
               <| dr_confirmed_transaction_lt := transaction_lt |>)
  end.

Definition terminal_mutation (self : PendingSendRecord) (resolution : SendResolution)
  : result SendWorkflowError (option JournalCompareExchange) :=
  match resolved_record self resolution with
  | None => Ok None
  | Some durable =>
      let? replacement_version := next_journal_version (Some (ps_journal_version self)) in
      let? payload := map_err InvalidJournal (to_vec durable) in
      Ok (Some (mkJournalCompareExchange
            (mkJournalKey (nes_str (ps_record_id self)) SEND_SLOT)
            (Some (ps_journal_version self))
            (mkJournalRecord replacement_version payload)))
  end.

(** ** Reducer methods *)

Definition persist_directive (self : SendWorkflow)
  : result SendWorkflowError SendDirective :=
  let? record := journal_record self in
  let? version := next_journal_version (sw_journal_version self) in
  let? payload := map_err InvalidJournal (to_vec record) in
  Ok (PersistJournal (mkJournalCompareExchange (journal_key self)
        (sw_journal_version self) (mkJournalRecord version payload))).

Definition begin_send : reducer SendDirective :=
  do! apply_event Event_Begin "begin";
  let! self := mget in
  mret (LoadJournal (journal_key self)).

Definition journal_loaded (record : option JournalRecord) : reducer SendDirective :=
  let! self := mget in
  let! stage := mlift (next_stage self Event_JournalLoaded "journal_loaded") in
  let! version :=
    match record with
    | None => mret None
    | Some record =>
        let! durable := mlift (decode_durable_record record) in
        if foreign_record durable (sw_record_id self) (sw_source self)
        then mthrow (InvalidJournal (lit "record belongs to another wallet"))
        else if permits_replacement (dr_stage durable)
                || (sr_force (sw_request self)
                    && permits_forced_replacement (dr_stage durable))
             then mret (Some (jr_version record))
             else mthrow PreviousSubmissionUnresolved
    end in
  do! mupdate (fun w => w <| sw_journal_version := version |>);
  do! mupdate (fun w => w <| sw_stage := stage |>);
  mret FetchFreshAccount.

Definition fresh_account_loaded (account : FreshSendAccount) : reducer SendDirective :=
  let! self := mget in
  let! stage := mlift (next_stage self Event_FreshAccountLoaded "fresh_account_loaded") in
  if negb (permits_send account) then mthrow (AccountUnavailable (fa_status account))
  else
    do! mupdate (fun w => w <| sw_fresh_account := Some account |>);
    do! mupdate (fun w => w <| sw_stage := stage |>);
    let! self := mget in
    mlift (read_secret_directive self).

Definition prepared_account_loaded (account : FreshSendAccount) : reducer unit :=
  let! self := mget in
  let! stage :=
    mlift (next_stage self Event_PreparedAccountLoaded "prepared_account_loaded") in
  if negb (permits_send account) then mthrow (AccountUnavailable (fa_status account))
  else
    do! mupdate (fun w => w <| sw_fresh_account := Some account |>);
    mupdate (fun w => w <| sw_stage := stage |>).

Definition authorization_succeeded : reducer SendDirective :=
  let! self := mget in
  let! stage :=
    mlift (next_stage self Event_AuthorizationSucceeded "authorization_succeeded") in
  let! account :=
    mlift (ok_or (InvalidTransition (sw_stage self) "authorization_without_fresh_account")
             (sw_fresh_account self)) in
  do! mupdate (fun w => w <| sw_stage := stage |>);
  mret (PrepareTransfer (sw_request self) account).

Definition transfer_prepared (prepared : PreparedTransfer) : reducer SendDirective :=
  let! self := mget in
  let! stage := mlift (next_stage self Event_TransferPrepared "transfer_prepared") in
  do! mlift (validate_prepared self prepared);
  do! mupdate (fun w => w <| sw_prepared := Some prepared |>);
  do! mupdate (fun w => w <| sw_stage := stage |>);
  let! self := mget in
  mlift (persist_directive self).

Definition journal_persisted (outcome : JournalCompareExchangeResult)
  : reducer SendDirective :=
  if negb (jcr_applied outcome) then
    do! apply_event Event_JournalConflict "journal_conflict";
    do! mupdate (fun w => w <| sw_diagnostic :=
          Some (bounded_diagnostic (lit "Another send operation changed the journal")) |>);
    mthrow JournalConflict
  else
    let! self := mget in
    let event :=
      if bool_decide (sw_stage self = Stage_PersistingPrepared) then
        match sw_kind self with
        | Kind_External => Event_PreparedJournalPersisted
        | Kind_Internal => Event_InternalMessageJournalPersisted
        end
      else Event_TerminalJournalPersisted in
    let! stage := mlift (next_stage self event "journal_persisted") in
    let! next_version := mlift (next_journal_version (sw_journal_version self)) in
    do! mupdate (fun w => w <| sw_journal_version := Some next_version |>);
    do! mupdate (fun w => w <| sw_stage := stage |>);
    let! self := mget in
    match stage with
    | Stage_ReadyToSubmit =>
        let! prepared := mlift (prepared_ref self) in
        mret (Submit (pt_signed_boc prepared) (pt_message_hash prepared))
    | Stage_HandedOff =>
        let! prepared := mlift (prepared_ref self) in
        mret (HandOff (pt_signed_boc prepared) (pt_valid_until prepared))
    | Stage_SubmissionUnknown | Stage_Submitted | Stage_Failed | Stage_Cancelled =>
        mret Finished
    | stage => mthrow (InvalidTransition stage "journal_persisted")
    end.

Definition submission_started : reducer unit :=
  apply_event Event_SubmissionStarted "submission_started".

Definition submission_succeeded (provider_reference : option rstr)
  : reducer SendDirective :=
  do! apply_event Event_SubmissionSucceeded "submission_succeeded";
  do! mupdate (fun w => w <| sw_provider_reference := provider_reference |>);
  do! mupdate (fun w => w <| sw_diagnostic := None |>);
  let! self := mget in
  mlift (persist_directive self).

Definition submission_unknown (diagnostic : rstr) : reducer SendDirective :=
  do! apply_event Event_SubmissionUnknown "submission_unknown";
  do! mupdate (fun w => w <| sw_diagnostic := Some (bounded_diagnostic diagnostic) |>);
  let! self := mget in
  mlift (persist_directive self).

Definition submission_rejected (diagnostic : rstr) : reducer SendDirective :=
  do! apply_event Event_SubmissionRejected "submission_rejected";
  do! mupdate (fun w => w <| sw_diagnostic := Some (bounded_diagnostic diagnostic) |>);
  let! self := mget in
  mlift (persist_directive self).

Definition cancel : reducer SendDirective :=
  let! self := mget in
  let! cancelled_stage :=
    mlift (ok_or (InvalidTransition (sw_stage self) "cancel")
             (transition (sw_stage self) Event_Cancel)) in
  if bool_decide (cancelled_stage = sw_stage self) then mret Finished
  else
    do! mupdate (fun w => w <| sw_stage := cancelled_stage |>);
    let! self := mget in
    match sw_prepared self with
    | Some _ => mlift (persist_directive self)
    | None => mret Finished
    end.
End Codec.
