(* ===== verification/SendReducer.v ===== *)
(** * Theorems about the send reducer

    Drives [SendWorkflow] with arbitrary sequences of method calls and proves
    the stage order, the facts that hold in every reachable reducer state and
    the round trip through the journal record. *)

From stdpp Require Import base numbers list option strings relations.
From S2P Require Import Prelude BoundaryTypes SendDomain SendWorkflow.

(** ** Calls *)

(** One call of a public reducer method, in any order the coordinator may choose. *)
Inductive ReducerCall :=
  | Call_begin
  | Call_journal_loaded (record : option JournalRecord)
  | Call_fresh_account_loaded (account : FreshSendAccount)
  | Call_prepared_account_loaded (account : FreshSendAccount)
  | Call_authorization_succeeded
  | Call_transfer_prepared (prepared : PreparedTransfer)
  | Call_journal_persisted (outcome : JournalCompareExchangeResult)
  | Call_submission_started
  | Call_submission_succeeded (provider_reference : option rstr)
  | Call_submission_unknown (diagnostic : rstr)
  | Call_submission_rejected (diagnostic : rstr)
  | Call_cancel.

Section Calls.
Context `{JournalCodec}.

Definition with_directive (m : reducer SendDirective) : reducer (option SendDirective) :=
  let! d := m in mret (Some d).

Definition no_directive (m : reducer unit) : reducer (option SendDirective) :=
  do! m; mret None.

Definition run_call (call : ReducerCall) : reducer (option SendDirective) :=
  match call with
  | Call_begin => with_directive begin_send
  | Call_journal_loaded record => with_directive (journal_loaded record)
  | Call_fresh_account_loaded account => with_directive (fresh_account_loaded account)
  | Call_prepared_account_loaded account => no_directive (prepared_account_loaded account)
  | Call_authorization_succeeded => with_directive authorization_succeeded
  | Call_transfer_prepared prepared => with_directive (transfer_prepared prepared)
  | Call_journal_persisted outcome => with_directive (journal_persisted outcome)
  | Call_submission_started => no_directive submission_started
  | Call_submission_succeeded reference => with_directive (submission_succeeded reference)
  | Call_submission_unknown diagnostic => with_directive (submission_unknown diagnostic)
  | Call_submission_rejected diagnostic => with_directive (submission_rejected diagnostic)
  | Call_cancel => with_directive cancel
  end.

Definition call_step (w w' : SendWorkflow) : Prop :=
  exists call, w' = (run_call call w).1.

(** Freshly constructed by one of the three public constructors. *)
Inductive fresh_workflow : SendWorkflow -> Prop :=
  | fresh_external rid src req secret : fresh_workflow (workflow_new rid src req secret)
  | fresh_internal rid src req secret : fresh_workflow (new_internal rid src req secret)
  | fresh_prepared rid src op force until :
      fresh_workflow (new_prepared_external rid src op force until).

Definition reachable (w : SendWorkflow) : Prop :=
  exists w0, fresh_workflow w0 /\ rtc call_step w0 w.
End Calls.

(** Every stage in which a provider or a relayer can already hold the BOC. *)
Definition released (stage : SendStage) : bool :=
  match stage with
  | Stage_ReadyToSubmit | Stage_Submitting | Stage_SubmissionUnknown | Stage_Submitted
  | Stage_HandedOff => true
  | _ => false
  end.

(** Reducer stages that the transition table can reach; the remaining four are
    written only by the resolver. *)
Definition resolver_stage (stage : SendStage) : bool :=
  match stage with
  | Stage_Confirmed | Stage_Replaced | Stage_SequenceNumberConsumed | Stage_Expired
  | Stage_Superseded => true
  | _ => false
  end.

(** Stages after the account check succeeded. *)
Definition has_account (stage : SendStage) : bool :=
  match stage with
  | Stage_Authorizing | Stage_Preparing | Stage_PersistingPrepared => true
  | stage => released stage
  end.

(** Stages that carry signed material. *)
Definition has_prepared (stage : SendStage) : bool :=
  match stage with Stage_PersistingPrepared => true | stage => released stage end.

(** Stages before the signed material exists. *)
Definition before_prepared (stage : SendStage) : bool :=
  match stage with
  | Stage_Validating | Stage_LoadingJournal | Stage_FetchingFreshAccount
  | Stage_Authorizing | Stage_Preparing => true
  | _ => false
  end.

(** The facts that hold between any two reducer calls. *)
Record workflow_inv (w : SendWorkflow) : Prop := {
  inv_stage : resolver_stage (sw_stage w) = false;
  inv_account : has_account (sw_stage w) = true -> is_Some (sw_fresh_account w);
  inv_permits a : sw_fresh_account w = Some a -> permits_send a = true;
  inv_prepared : has_prepared (sw_stage w) = true -> is_Some (sw_prepared w);
  inv_matches p : sw_prepared w = Some p -> validate_prepared w p = Ok tt;
  inv_version : released (sw_stage w) = true -> is_Some (sw_journal_version w);
  inv_unprepared : before_prepared (sw_stage w) = true -> sw_prepared w = None;
}.

(** ** Lemmas *)

Lemma transition_terminal stage event stage' :
  is_terminal stage = true -> transition stage event = Some stage' -> stage' = stage.
Proof. destruct stage, event; simpl; naive_solver. Qed.

Lemma transition_cancel stage : transition stage Event_Cancel = Some (after_cancellation stage).
Proof. by destruct stage. Qed.

Section AbstractSteps.
Context `{JournalCodec}.

(** The journal slot lets this request continue with [version]. *)
Inductive loadable (w : SendWorkflow) : option N -> Prop :=
  | loadable_absent : loadable w None
  | loadable_record record durable :
      decode_durable_record record = Ok durable ->
      foreign_record durable (sw_record_id w) (sw_source w) = false ->
      permits_replacement (dr_stage durable) = true \/
        (sr_force (sw_request w) = true /\
         permits_forced_replacement (dr_stage durable) = true) ->
      loadable w (Some (jr_version record)).

(** The effect of one reducer call, as a step relation. *)
Inductive send_step (w : SendWorkflow) : SendWorkflow -> Prop :=
  | step_rejected_call : send_step w w
  | step_begin :
      sw_stage w = Stage_Validating ->
      send_step w (w <| sw_stage := Stage_LoadingJournal |>)
  | step_load version :
      sw_stage w = Stage_LoadingJournal -> loadable w version ->
      send_step w (w <| sw_journal_version := version |>
                     <| sw_stage := Stage_FetchingFreshAccount |>)
  | step_account a stage :
      sw_stage w = Stage_FetchingFreshAccount -> permits_send a = true ->
      stage = Stage_Authorizing \/ stage = Stage_Preparing ->
      send_step w (w <| sw_fresh_account := Some a |> <| sw_stage := stage |>)
  | step_authorize a :
      sw_stage w = Stage_Authorizing -> sw_fresh_account w = Some a ->
      send_step w (w <| sw_stage := Stage_Preparing |>)
  | step_prepare p :
      sw_stage w = Stage_Preparing -> validate_prepared w p = Ok tt ->
      send_step w (w <| sw_prepared := Some p |> <| sw_stage := Stage_PersistingPrepared |>)
  | step_persist version :
      sw_stage w = Stage_PersistingPrepared ->
      next_journal_version (sw_journal_version w) = Ok version ->
      send_step w (w <| sw_journal_version := Some version |>
                     <| sw_stage := durable_stage w |>)
  | step_persist_terminal version :
      is_terminal (sw_stage w) = true ->
      next_journal_version (sw_journal_version w) = Ok version ->
      send_step w (w <| sw_journal_version := Some version |> <| sw_stage := sw_stage w |>)
  | step_conflict diagnostic :
      is_terminal (sw_stage w) = false ->
      send_step w (w <| sw_stage := Stage_Failed |> <| sw_diagnostic := Some diagnostic |>)
  | step_submit :
      sw_stage w = Stage_ReadyToSubmit ->
      send_step w (w <| sw_stage := Stage_Submitting |>)
  | step_succeed reference :
      sw_stage w = Stage_Submitting ->
      send_step w (w <| sw_stage := Stage_Submitted |>
                     <| sw_provider_reference := reference |> <| sw_diagnostic := None |>)
  | step_ambiguous diagnostic stage :
      sw_stage w = Stage_Submitting ->
      stage = Stage_SubmissionUnknown \/ stage = Stage_Failed ->
      send_step w (w <| sw_stage := stage |> <| sw_diagnostic := Some diagnostic |>)
  | step_cancel :
      is_terminal (sw_stage w) = false ->
      send_step w (w <| sw_stage := Stage_Cancelled |>).
End AbstractSteps.

#[export] Hint Constructors loadable send_step : rust.

(** The transition table, event by event. *)
Lemma transition_inv stage event stage' :
  transition stage event = Some stage' ->
  match event with
  | Event_Begin => stage = Stage_Validating /\ stage' = Stage_LoadingJournal
  | Event_JournalLoaded =>
      stage = Stage_LoadingJournal /\ stage' = Stage_FetchingFreshAccount
  | Event_FreshAccountLoaded =>
      stage = Stage_FetchingFreshAccount /\ stage' = Stage_Authorizing
  | Event_PreparedAccountLoaded =>
      stage = Stage_FetchingFreshAccount /\ stage' = Stage_Preparing
  | Event_AuthorizationSucceeded => stage = Stage_Authorizing /\ stage' = Stage_Preparing
  | Event_TransferPrepared => stage = Stage_Preparing /\ stage' = Stage_PersistingPrepared
  | Event_PreparedJournalPersisted =>
      stage = Stage_PersistingPrepared /\ stage' = Stage_ReadyToSubmit
  | Event_InternalMessageJournalPersisted =>
      stage = Stage_PersistingPrepared /\ stage' = Stage_HandedOff
  | Event_SubmissionStarted => stage = Stage_ReadyToSubmit /\ stage' = Stage_Submitting
  | Event_SubmissionSucceeded => stage = Stage_Submitting /\ stage' = Stage_Submitted
  | Event_SubmissionUnknown => stage = Stage_Submitting /\ stage' = Stage_SubmissionUnknown
  | Event_SubmissionRejected => stage = Stage_Submitting /\ stage' = Stage_Failed
  | Event_TerminalJournalPersisted => is_terminal stage = true /\ stage' = stage
  | Event_JournalConflict => is_terminal stage = false /\ stage' = Stage_Failed
  | Event_Cancel => stage' = after_cancellation stage
  end.
Proof. destruct stage, event; simpl; intros; simplify_eq; done. Qed.

Ltac unfold_reducer :=
  unfold run_call, with_directive, no_directive, begin_send, journal_loaded,
    fresh_account_loaded, prepared_account_loaded, authorization_succeeded,
    transfer_prepared, journal_persisted, submission_started, submission_succeeded,
    submission_unknown, submission_rejected, cancel, apply_event, next_stage in *;
  monad_unfold.

Ltac use_transition :=
  match goal with
  | H : transition _ _ = Some _ |- _ => apply transition_inv in H; simpl in H; destruct_and?
  end.

(** Splits the next match of the unfolded call that the goal is about. *)
Ltac call_case :=
  match goal with
  | |- context [match ?x with _ => _ end] =>
      lazymatch x with context [match _ with _ => _ end] => fail | _ => idtac end;
      destruct x eqn:?; simplify_eq
  end.

(** Rewrites with what is known of the stage. *)
Ltac at_stage :=
  match goal with
  | E : sw_stage _ = _ |- _ => rewrite E
  | E : _ = sw_stage _ |- _ => rewrite <- E
  end.

#[local] Arguments bounded_diagnostic : simpl never.
#[local] Arguments decode_durable_record : simpl never.
#[local] Arguments validate_prepared : simpl never.
#[local] Arguments persist_directive : simpl never.
#[local] Arguments next_journal_version : simpl never.
#[local] Arguments transition : simpl never.
#[local] Arguments lit : simpl never.
#[local] Arguments update : simpl never.

Section Refinement.
Context `{JournalCodec}.

Lemma step_persisted w version stage :
  next_journal_version (sw_journal_version w) = Ok version ->
  (sw_stage w = Stage_PersistingPrepared /\ stage = durable_stage w) \/
    (is_terminal (sw_stage w) = true /\ stage = sw_stage w) ->
  send_step w (w <| sw_journal_version := Some version |> <| sw_stage := stage |>).
Proof. intros Hv [[? ->]|[? ->]]; eauto with rust. Qed.

Lemma step_cancelled w :
  after_cancellation (sw_stage w) <> sw_stage w ->
  send_step w (w <| sw_stage := after_cancellation (sw_stage w) |>).
Proof.
  unfold after_cancellation. destruct (is_terminal (sw_stage w)) eqn:?; [done|].
  intros _. by apply step_cancel.
Qed.

(** The state after an applied compare-and-swap. *)
Lemma journal_persisted_state outcome w :
  jcr_applied outcome = true ->
  (run_call (Call_journal_persisted outcome) w).1 = w \/
  exists version stage,
    (run_call (Call_journal_persisted outcome) w).1 =
      w <| sw_journal_version := Some version |> <| sw_stage := stage |> /\
    next_journal_version (sw_journal_version w) = Ok version /\
    ((sw_stage w = Stage_PersistingPrepared /\ stage = durable_stage w) \/
     (is_terminal (sw_stage w) = true /\ stage = sw_stage w)).
Proof.
  intros Ha. unfold_reducer. rewrite Ha. simpl. unfold durable_stage.
  case_bool_decide as Hs; [destruct (sw_kind w) eqn:Hk|];
    (destruct (transition _ _) as [stage|] eqn:Ht; [|by left]);
    apply transition_inv in Ht; simpl in Ht; destruct_and?; subst; simpl;
    (destruct (next_journal_version _) as [version|]; [|by left]); simpl; right.
  - exists version, Stage_ReadyToSubmit. rewrite Hs.
    split; [by destruct (prepared_ref _)|naive_solver].
  - exists version, Stage_HandedOff. rewrite Hs.
    split; [by destruct (prepared_ref _)|naive_solver].
  - exists version, (sw_stage w).
    split; [destruct (sw_stage w); simpl; try done; by destruct (prepared_ref _)|].
    naive_solver.
Qed.

Lemma run_call_step call w : send_step w (run_call call w).1.
Proof.
  destruct call as [| | | | | |outcome| | | | |].
  all: lazymatch goal with
    | |- context [Call_journal_persisted _] => idtac
    | _ =>
      unfold_reducer; simpl;
      repeat (call_case; simpl; try apply step_rejected_call);
      try use_transition; bool_to_prop; subst;
      try match goal with u : unit |- _ => destruct u end;
      first [by eauto with rust | idtac]
    end.
  - apply step_load; [done|]. eapply loadable_record; [done..|].
    apply orb_true_iff in Heqb0 as [|[? ?]%andb_true_iff]; auto.
  - destruct (jcr_applied outcome) eqn:Ha.
    + destruct (journal_persisted_state _ w Ha) as [->|(v & st & -> & Hv & Hst)];
        [apply step_rejected_call|by apply step_persisted].
    + unfold_reducer. rewrite Ha. simpl.
      destruct (transition _ _) eqn:Ht; simpl; [|apply step_rejected_call].
      use_transition. subst. by apply step_conflict.
  - by apply step_cancelled.
  - by apply step_cancelled.
  - by apply step_cancelled.
Qed.

(** *** Invariant *)

Lemma fresh_workflow_inv w : fresh_workflow w -> workflow_inv w.
Proof. by intros []; constructor. Qed.

Lemma send_step_inv w w' : workflow_inv w -> send_step w w' -> workflow_inv w'.
Proof.
  intros [Hst Hac Hpe Hpr Hma Hve Hun] Hstep. unfold durable_stage in *.
  destruct Hstep; cbv [update] in *;
    destruct w as [rid src req kind secret stg acct prep ver pref diag]; simpl in *;
    subst; try by constructor.
  all: destruct_or?; subst; try destruct kind;
    try (destruct stg; simpl in *; try done; []);
    constructor; simpl in *; intros; simplify_eq; auto; try by eauto.
  all: by specialize (Hun eq_refl).
Qed.

Lemma reachable_inv w : reachable w -> workflow_inv w.
Proof.
  intros (w0 & Hw0 & Hsteps). apply fresh_workflow_inv in Hw0.
  induction Hsteps as [|x y z [call ->] _ IH]; [done|].
  apply IH. eapply send_step_inv; [done|apply run_call_step].
Qed.
End Refinement.

(** ** Journal contents *)

Section JournalContents.
Context `{JournalCodec}.

Lemma prepared_ref_ok w p : prepared_ref w = Ok p <-> sw_prepared w = Some p.
Proof. apply ok_or_ok. Qed.

(** What a persistence directive writes. *)
Lemma persist_directive_spec w m :
  persist_directive w = Ok (PersistJournal m) ->
  exists p d,
    sw_prepared w = Some p /\
    journal_record w = Ok d /\
    jce_key m = journal_key w /\
    jce_expected_version m = sw_journal_version w /\
    next_journal_version (sw_journal_version w) = Ok (jr_version (jce_replacement m)) /\
    from_slice (jr_payload (jce_replacement m)) = Ok d.
Proof.
  unfold persist_directive. intros (d & Hd & Hr)%rbind_ok.
  apply rbind_ok in Hr as (v & Hv & Hr). apply rbind_ok in Hr as (pl & Hp & Hr).
  simplify_eq/=. apply map_err_ok in Hp.
  pose proof Hd as Hd'. unfold journal_record in Hd'.
  apply rbind_ok in Hd' as (p & Hp' & _). apply prepared_ref_ok in Hp'.
  exists p, d. split_and!; try done. by apply from_slice_to_vec.
Qed.

Lemma persist_directive_shape w d :
  persist_directive w = Ok d -> exists m, d = PersistJournal m.
Proof.
  unfold persist_directive. intros (? & _ & Hr)%rbind_ok.
  apply rbind_ok in Hr as (? & _ & Hr). apply rbind_ok in Hr as (? & _ & Hr). naive_solver.
Qed.

Lemma persist_directive_err w e :
  is_Some (sw_prepared w) -> persist_directive w = Err e -> exists r, e = InvalidJournal r.
Proof.
  intros [p Hp]. unfold persist_directive, journal_record, prepared_ref,
    next_journal_version, map_err. rewrite Hp. simpl. intros He.
  destruct (sw_journal_version w) as [v|]; simpl in He; [destruct (checked_add _ _ _)|];
    simpl in He; try destruct (to_vec _); naive_solver.
Qed.

Lemma decode_durable_record_err record e :
  decode_durable_record record = Err e -> exists r, e = InvalidJournal r.
Proof.
  unfold decode_durable_record, map_err. destruct (_ =? 0)%N; [naive_solver|].
  destruct (from_slice _); simpl; [|naive_solver].
  destruct (negb _); [naive_solver|]. destruct (_ && _); naive_solver.
Qed.

Lemma validate_prepared_err w p e :
  validate_prepared w p = Err e -> e = PreparedTransferMismatch.
Proof.
  unfold validate_prepared. destruct (sw_fresh_account w); simpl; [|naive_solver].
  destruct (_ || _); naive_solver.
Qed.

Lemma next_journal_version_err current e :
  next_journal_version current = Err e -> exists r, e = InvalidJournal r.
Proof. unfold next_journal_version, ok_or. repeat case_match; naive_solver. Qed.

Lemma read_secret_directive_err w e :
  read_secret_directive w = Err e ->
  e = InvalidTransition (sw_stage w) "protected_secret_required".
Proof. unfold read_secret_directive, ok_or. repeat case_match; naive_solver. Qed.

Lemma next_journal_version_ok current v :
  next_journal_version current = Ok v <->
  match current with
  | None => v = 1%N
  | Some c => v = (c + 1)%N /\ (v <= u64_max)%N
  end.
Proof.
  destruct current as [c|]; simpl; unfold next_journal_version.
  - rewrite ok_or_ok, checked_add_Some. naive_solver.
  - unfold FIRST_JOURNAL_VERSION. naive_solver.
Qed.

Lemma next_journal_version_pos current v : next_journal_version current = Ok v -> v <> 0%N.
Proof. rewrite next_journal_version_ok. destruct current; lia. Qed.

(** A record written by the reducer is accepted by the journal readers. *)
Lemma decode_persisted w m :
  resolver_stage (sw_stage w) = false ->
  persist_directive w = Ok (PersistJournal m) ->
  exists d, journal_record w = Ok d /\ decode_durable_record (jce_replacement m) = Ok d.
Proof.
  intros Hst (p & d & Hp & Hd & _ & _ & Hv & Hs)%persist_directive_spec.
  exists d. split; [done|]. unfold decode_durable_record. rewrite Hs. simpl.
  apply next_journal_version_pos in Hv. apply N.eqb_neq in Hv as ->.
  unfold journal_record in Hd. apply rbind_ok in Hd as (p' & _ & Hd). simplify_eq/=.
  rewrite bool_decide_eq_false_2; [done|].
  unfold durable_stage. by destruct (sw_stage w), (sw_kind w).
Qed.

Lemma validate_prepared_fields w p :
  validate_prepared w p = Ok tt ->
  pt_operation_id p = sr_operation_id (sw_request w) /\
  pt_record_id p = sw_record_id w /\
  tas_eqb (pt_source p) (sw_source w) = true /\
  pt_kind p = sw_kind w.
Proof.
  unfold validate_prepared. intros (a & _ & Hv)%rbind_ok.
  destruct (_ || _) eqn:E in Hv; [done|]. bool_to_prop. done.
Qed.

(** The reducer's own record passes the ownership guard of its own wallet. *)
Lemma own_record_not_foreign w d :
  workflow_inv w -> journal_record w = Ok d ->
  foreign_record d (sw_record_id w) (sw_source w) = false.
Proof.
  intros Hinv. unfold journal_record. intros (p & Hp & Hd)%rbind_ok.
  apply prepared_ref_ok in Hp. apply (inv_matches _ Hinv) in Hp.
  apply validate_prepared_fields in Hp as (_ & Hr & Hs & _). simplify_eq/=.
  unfold foreign_record. simpl. rewrite Hr, Hs, bool_decide_eq_true_2 by done. done.
Qed.
End JournalContents.

(** ** Terminal evidence *)

(** The provider parser yields logical times that fit [u64]. *)
Definition resolution_lt_fits (resolution : SendResolution) : bool :=
  match resolution with
  | Resolution_Confirmed _ lt => (uds_value lt <=? u64_max)%N
  | _ => true
  end.

(** The two durable records describe the same signed message. *)
Definition same_signed_message (d d' : DurableSendRecord) : Prop :=
  dr_operation_id d' = dr_operation_id d /\ dr_record_id d' = dr_record_id d /\
  dr_source d' = dr_source d /\ dr_kind d' = dr_kind d /\ dr_messages d' = dr_messages d /\
  dr_seqno d' = dr_seqno d /\ dr_valid_until d' = dr_valid_until d /\
  dr_signed_boc d' = dr_signed_boc d /\ dr_message_hash d' = dr_message_hash d.

Section TerminalEvidence.
Context `{JournalCodec}.

Lemma decode_durable_record_ok record d :
  decode_durable_record record = Ok d ->
  jr_version record <> 0%N /\ from_slice (jr_payload record) = Ok d /\
  dr_schema_version d = JOURNAL_SCHEMA_VERSION.
Proof.
  unfold decode_durable_record. destruct (_ =? 0)%N eqn:Hv; [done|].
  intros (d' & Hd & Hr)%rbind_ok. apply map_err_ok in Hd.
  destruct (negb _) eqn:Hs in Hr; [done|]. destruct (_ && _) in Hr; [done|].
  simplify_eq. bool_to_prop. done.
Qed.

Lemma pending_send_record_ok record rid src p :
  pending_send_record record rid src = Ok (Some p) ->
  decode_durable_record record = Ok (ps_durable p) /\
  foreign_record (ps_durable p) rid src = false /\
  permits_replacement (dr_stage (ps_durable p)) = false /\
  ps_journal_version p = jr_version record /\
  ps_operation_id p = dr_operation_id (ps_durable p) /\
  ps_record_id p = dr_record_id (ps_durable p) /\
  ps_source p = dr_source (ps_durable p) /\
  ps_message_hash p = dr_message_hash (ps_durable p) /\
  ps_stage p = dr_stage (ps_durable p) /\ ps_journal p = record.
Proof.
  unfold pending_send_record. intros (d & Hd & Hr)%rbind_ok.
  destruct (foreign_record d rid src) eqn:Hf; [done|].
  destruct (permits_replacement _) eqn:Hp; [done|]. by simplify_eq/=.
Qed.

(** A terminal mutation writes the resolved record one version further. *)
Lemma terminal_mutation_ok p resolution m :
  terminal_mutation p resolution = Ok (Some m) ->
  exists d, resolved_record p resolution = Some d /\
    jce_expected_version m = Some (ps_journal_version p) /\
    jr_version (jce_replacement m) = (ps_journal_version p + 1)%N /\
    from_slice (jr_payload (jce_replacement m)) = Ok d.
Proof.
  unfold terminal_mutation. destruct (resolved_record p resolution) as [d|]; [|done].
  intros (v & Hv & Hr)%rbind_ok. apply rbind_ok in Hr as (pl & Hpl & Hr).
  apply map_err_ok in Hpl. apply next_journal_version_ok in Hv as [-> _].
  simplify_eq/=. exists d. split_and!; try done. by apply from_slice_to_vec.
Qed.

Lemma resolved_record_fields p resolution d :
  resolved_record p resolution = Some d ->
  same_signed_message (ps_durable p) d /\
  dr_schema_version d = dr_schema_version (ps_durable p) /\
  permits_replacement (dr_stage d) = true.
Proof.
  unfold resolved_record. destruct resolution; simpl; intros; simplify_eq; done.
Qed.

(** The resolved record passes the evidence check of the reader. *)
Lemma decode_resolved p resolution d version payload :
  resolved_record p resolution = Some d -> resolution_lt_fits resolution = true ->
  dr_schema_version (ps_durable p) = JOURNAL_SCHEMA_VERSION ->
  version <> 0%N -> from_slice payload = Ok d ->
  decode_durable_record (mkJournalRecord version payload) = Ok d.
Proof.
  intros Hd Hlt Hs Hv Hp. unfold decode_durable_record. simpl.
  apply N.eqb_neq in Hv as ->. rewrite Hp. simpl.
  pose proof (resolved_record_fields _ _ _ Hd) as (_ & -> & _). rewrite Hs. simpl.
  unfold resolved_record in Hd. destruct resolution; simplify_eq/=; try done.
  unfold uds_try_to_u64. by rewrite Hlt.
Qed.

(** What the readers see of a terminal mutation. *)
Lemma terminal_mutation_reads record rid src p resolution m :
  pending_send_record record rid src = Ok (Some p) ->
  resolution_lt_fits resolution = true ->
  terminal_mutation p resolution = Ok (Some m) ->
  jce_expected_version m = Some (jr_version record) /\
  jr_version (jce_replacement m) = (jr_version record + 1)%N /\
  terminal_send_resolution (jce_replacement m) rid src = Ok (Some resolution) /\
  pending_send_record (jce_replacement m) rid src = Ok None /\
  exists d d', decode_durable_record record = Ok d /\
    decode_durable_record (jce_replacement m) = Ok d' /\ same_signed_message d d'.
Proof.
  intros (Hdec & Hfor & _ & Hver & _)%pending_send_record_ok Hlt
    (d & Hd & Hexp & Hnew & Hsl)%terminal_mutation_ok.
  pose proof (resolved_record_fields _ _ _ Hd) as (Hsame & Hsch & Hperm).
  pose proof (decode_durable_record_ok _ _ Hdec) as (_ & _ & Hs5).
  assert (decode_durable_record (jce_replacement m) = Ok d) as Hdec'.
  { destruct (jce_replacement m) as [v pl]; simpl in *.
    eapply decode_resolved; [done..|lia|done]. }
  assert (foreign_record d rid src = false) as Hfor'.
  { destruct Hsame as (_ & Hr & Hsr & _). unfold foreign_record in *. by rewrite Hr, Hsr. }
  split_and!; [by rewrite Hexp, Hver|by rewrite Hnew, Hver| | |by eauto].
  - unfold terminal_send_resolution. rewrite Hdec'. simpl. rewrite Hfor'.
    unfold resolved_record in Hd. by destruct resolution; simplify_eq/=.
  - unfold pending_send_record. rewrite Hdec'. simpl. by rewrite Hfor', Hperm.
Qed.
End TerminalEvidence.

(** ** Claims *)

Section Claims.
Context `{JournalCodec}.

(** Recording chain evidence is lossless and forward only: the mutation for
    a pending record expects exactly the inspected version, writes the next one,
    keeps the signed message, and the stored record reads back as the same
    resolution and no longer blocks a new signature. *)
Theorem terminal_mutation_roundtrip record rid src p resolution m :
  pending_send_record record rid src = Ok (Some p) ->
  resolution_lt_fits resolution = true ->
  terminal_mutation p resolution = Ok (Some m) ->
  jce_expected_version m = Some (jr_version record) /\
  jr_version (jce_replacement m) = (jr_version record + 1)%N /\
  terminal_send_resolution (jce_replacement m) rid src = Ok (Some resolution) /\
  pending_send_record (jce_replacement m) rid src = Ok None /\
  exists d d', decode_durable_record record = Ok d /\
    decode_durable_record (jce_replacement m) = Ok d' /\ same_signed_message d d'.
Proof. apply terminal_mutation_reads. Qed.

(** A resolution that found no terminal evidence never produces a journal
    mutation, and a terminal one always does unless the version counter is
    exhausted or the record cannot be encoded. *)
Theorem only_evidence_mutates_journal p resolution :
  match terminal_mutation p resolution with
  | Ok None => exists reason, resolution = Resolution_StillPending reason
  | Ok (Some _) => forall reason, resolution <> Resolution_StillPending reason
  | Err (InvalidJournal reason) =>
      (u64_max < ps_journal_version p + 1)%N \/
      exists d, resolved_record p resolution = Some d /\ to_vec d = Err reason
  | Err _ => False
  end.
Proof.
  unfold terminal_mutation. destruct (resolved_record p resolution) as [d|] eqn:Hd.
  - unfold next_journal_version. destruct (checked_add _ _ _) eqn:Hc; simpl.
    + destruct (to_vec d) as [pl|e] eqn:He; simpl; [|by right; exists d].
      intros reason ->. done.
    + apply checked_add_None in Hc. by left.
  - destruct resolution; simplify_eq/=. by eexists.
Qed.

(** The stages split into three groups: those that carry final evidence
    permit a replacement signature, those with a complete signed message permit
    it only by an explicit override, and the remaining six are never overridden.
    Cancelling keeps a terminal stage and turns every other one into the
    terminal, replaceable [Cancelled]. *)
Theorem replacement_policy stage :
  (permits_replacement stage = true -> is_terminal stage = true) /\
  (permits_replacement stage = true -> permits_forced_replacement stage = false) /\
  (permits_replacement stage = false /\ permits_forced_replacement stage = false <->
     before_prepared stage = true \/ stage = Stage_PersistingPrepared) /\
  is_terminal (after_cancellation stage) = true /\
  (is_terminal stage = true -> after_cancellation stage = stage) /\
  (is_terminal stage = false ->
     after_cancellation stage = Stage_Cancelled /\
     permits_replacement (after_cancellation stage) = true).
Proof. destruct stage; naive_solver. Qed.

(** [HandedOff] is the one terminal stage, besides the two ambiguous
    submission results, that still blocks a replacement signature. *)
Theorem handed_off_blocks_replacement stage :
  is_terminal stage = true /\ stage <> Stage_SubmissionUnknown /\
    stage <> Stage_Submitted /\ permits_replacement stage = false
  <-> stage = Stage_HandedOff.
Proof. destruct stage; naive_solver. Qed.

(** Only signable accounts are accepted: an active wallet with any
    sequence number and without [StateInit], or an undeployed one at sequence
    number zero with [StateInit]. *)
Theorem fresh_account_policy account :
  permits_send account = true <->
    (fa_status account = Account_Active /\ needs_state_init account = false) \/
    (fa_seqno account = 0%N /\ needs_state_init account = true /\
     (fa_status account = Account_Nonexistent \/
      fa_status account = Account_Uninitialized)).
Proof.
  unfold permits_send, needs_state_init.
  destruct (fa_status account); simpl; try rewrite andb_true_r; try rewrite andb_false_r;
    rewrite ?N.eqb_eq; naive_solver.
Qed.

(** C39: in every state that any sequence of reducer calls can reach, the stage
    order is respected: a stage past the account check carries an account that
    permits sending, a stage past signing carries signed material that matches
    the request, the wallet and that account, a stage in which the message may
    have left the device has a journal version, and the reducer never enters a
    stage reserved for the resolver. *)
Theorem reachable_workflow_invariant w : reachable w -> workflow_inv w.
Proof. apply reachable_inv. Qed.

(** A terminal result is final: whatever calls follow, in any number and
    order, the stage does not change. *)
Theorem terminal_stage_absorbing w w' :
  is_terminal (sw_stage w) = true -> rtc call_step w w' -> sw_stage w' = sw_stage w.
Proof.
  intros Ht Hsteps. induction Hsteps as [|x y z [call ->] _ IH]; [done|].
  assert (sw_stage (run_call call x).1 = sw_stage x) as Heq.
  { destruct (run_call_step call x); cbv [update]; simpl; try done;
      destruct (sw_stage x); simplify_eq/=; naive_solver. }
  rewrite Heq in IH. by rewrite IH.
Qed.

(** A submission directive is issued only in reply to an applied
    compare-and-swap, and the record that this compare-and-swap stored is the
    exact signed message now handed to the provider, at stage [ReadyToSubmit]. *)
Theorem submit_only_after_durable_record w call w' boc hash :
  reachable w ->
  run_call call w = (w', Ok (Some (Submit boc hash))) ->
  (exists outcome, call = Call_journal_persisted outcome /\ jcr_applied outcome = true) /\
  sw_stage w = Stage_PersistingPrepared /\ sw_kind w = Kind_External /\
  sw_stage w' = Stage_ReadyToSubmit /\
  forall m, persist_directive w = Ok (PersistJournal m) ->
    sw_journal_version w' = Some (jr_version (jce_replacement m)) /\
    exists d, decode_durable_record (jce_replacement m) = Ok d /\
      dr_signed_boc d = boc /\ dr_message_hash d = hash /\ dr_stage d = Stage_ReadyToSubmit.
Proof.
  intros Hreach Hrun.
  assert (exists outcome, call = Call_journal_persisted outcome /\
            jcr_applied outcome = true) as (outcome & -> & Ha).
  { destruct call; unfold_reducer; simpl in Hrun; repeat case_match; simplify_eq/=;
      unfold read_secret_directive, rbind, ok_or in *; repeat case_match; simplify_eq/=;
      try match goal with H : persist_directive _ = Ok _ |- _ =>
        apply persist_directive_shape in H as [? ?] end; try done.
    all: bool_to_prop; by eexists. }
  unfold_reducer. rewrite Ha in Hrun. simpl in Hrun.
  case_bool_decide as Hs; [destruct (sw_kind w) eqn:Hk|];
    (destruct (transition _ _) as [stage|] eqn:Ht; [|done]);
    apply transition_inv in Ht; simpl in Ht; destruct_and?; subst; simpl in Hrun;
    (destruct (next_journal_version _) as [version|] eqn:Hv; [|done]);
    simpl in Hrun; unfold prepared_ref, ok_or in Hrun; cbv [update] in Hrun; simpl in Hrun.
  - destruct (sw_prepared w) as [p|] eqn:Hp; simplify_eq/=.
    split_and!; try done; [by exists outcome|].
    intros m Hm. pose proof (persist_directive_spec _ _ Hm)
      as (p' & d & Hp' & Hd & _ & _ & Hv' & Hs').
    rewrite Hv in Hv'. simplify_eq. split; [done|].
    destruct (decode_persisted w m) as (d' & Hd' & Hdec); [by rewrite Hs|done|].
    exists d'. split; [done|]. unfold journal_record, prepared_ref in Hd'.
    rewrite Hp in Hd'. simplify_eq/=. unfold durable_stage. by rewrite Hs, Hk.
  - destruct (sw_prepared w); simplify_eq/=.
  - destruct (sw_stage w); simplify_eq/=; destruct (sw_prepared w); simplify_eq/=.
Qed.

(** An unresolved earlier send of the same wallet blocks a new signature:
    without [force] every stage that is not final evidence is refused, with
    [force] only a complete signed message may be overridden, and a refusal
    leaves the reducer unchanged. *)
Theorem unresolved_send_blocks_new_signature w record durable :
  sw_stage w = Stage_LoadingJournal ->
  decode_durable_record record = Ok durable ->
  foreign_record durable (sw_record_id w) (sw_source w) = false ->
  journal_loaded (Some record) w =
    if permits_replacement (dr_stage durable)
       || (sr_force (sw_request w) && permits_forced_replacement (dr_stage durable))
    then (w <| sw_journal_version := Some (jr_version record) |>
            <| sw_stage := Stage_FetchingFreshAccount |>, Ok FetchFreshAccount)
    else (w, Err PreviousSubmissionUnresolved).
Proof.
  intros Hs Hd Hf. unfold_reducer. rewrite Hs, Hd. simpl. rewrite Hf.
  by destruct (_ || _).
Qed.

(** After a crash the journal alone restores what the user saw: the record
    that a reachable reducer state persists decodes for the same wallet, and the
    restored snapshot has the same operation, the same diagnostic and the phase
    of the stage that the persistence establishes. *)
Theorem restart_restores_persisted_phase w m :
  reachable w ->
  persist_directive w = Ok (PersistJournal m) ->
  exists snapshot,
    send_snapshot_from_journal (jce_replacement m) (sw_record_id w) (sw_source w)
      = Ok snapshot /\
    ss_operation_id snapshot = Some (sr_operation_id (sw_request w)) /\
    ss_phase snapshot = public_phase (durable_stage w) /\
    ss_error_message snapshot = sw_diagnostic w.
Proof.
  intros Hreach%reachable_inv Hm.
  destruct (decode_persisted w m) as (d & Hd & Hdec); [apply Hreach|done|].
  unfold send_snapshot_from_journal. rewrite Hdec. simpl.
  rewrite (own_record_not_foreign w d) by done. eexists. split; [done|].
  unfold journal_record in Hd. apply rbind_ok in Hd as (p & Hp & Hd). simplify_eq/=.
  apply prepared_ref_ok, (inv_matches _ Hreach), validate_prepared_fields in Hp as (-> & _).
  done.
Qed.

(** C40: the internal consistency errors of the reducer cannot surface: no call
    in a reachable state reports a missing signed message or a missing account. *)
Theorem internal_errors_unreachable w call w' stage event :
  reachable w ->
  run_call call w = (w', Err (InvalidTransition stage event)) ->
  event <> "prepared_transfer_required"%string /\
  event <> "authorization_without_fresh_account"%string.
Proof.
  intros Hinv%reachable_inv Hrun.
  pose proof (inv_account _ Hinv) as Hac. pose proof (inv_prepared _ Hinv) as Hpr.
  destruct call; unfold_reducer; simpl in Hrun; repeat case_match; simplify_eq/=;
    try use_transition; destruct_and?; try done.
  all: try match goal with
    | E : decode_durable_record _ = Err _ |- _ =>
        apply decode_durable_record_err in E as [? ?]
    | E : validate_prepared _ _ = Err _ |- _ => apply validate_prepared_err in E
    | E : next_journal_version _ = Err _ |- _ => apply next_journal_version_err in E as [? ?]
    | E : read_secret_directive _ = Err _ |- _ => apply read_secret_directive_err in E
    | E : prepared_ref ?v = Err _ |- _ =>
        destruct Hpr as [p Hp]; [by at_stage|unfold prepared_ref in E];
        cbv [update] in E; simpl in E; rewrite Hp in E
    | E : sw_fresh_account _ = None |- _ => destruct Hac; [by at_stage|done]
    | E : persist_directive ?v = Err _ |- _ =>
        let Hs := fresh in
        assert (is_Some (sw_prepared v)) as Hs by
          (cbv [update]; simpl; solve [by eauto | by apply Hpr; simplify_eq; at_stage]);
        apply (persist_directive_err _ _ Hs) in E as [? ?]
    end; simplify_eq; done.
Qed.
End Claims.
