(* ===== verification/RefCodec.v ===== *)
(** * A reference codec for the journal record

    An executable instance of [JournalCodec], used where a theorem about every
    codec is applied to a concrete journal.  Records are flattened to a stream
    of numbers; the class [Tokens] carries the prefix round trip. *)

From stdpp Require Import base numbers list option strings.
From S2P Require Import Prelude BoundaryTypes SendDomain SendWorkflow.

Class Tokens (A : Type) := {
  enc : A -> list N;
  dec : list N -> option (A * list N);
  dec_enc a rest : dec (enc a ++ rest) = Some (a, rest);
}.

#[export] Instance Tokens_N : Tokens N := {
  enc n := [n];
  dec s := match s with [] => None | n :: rest => Some (n, rest) end;
  dec_enc a rest := eq_refl;
}.

Section Iso.
Context {A B : Type} `{Tokens B} (f : A -> B) (g : B -> A) (gf : forall a, g (f a) = a).

Definition iso_dec (s : list N) : option (A * list N) :=
  match dec s with Some (b, rest) => Some (g b, rest) | None => None end.

Lemma iso_dec_enc a rest : iso_dec (enc (f a) ++ rest) = Some (a, rest).
Proof. unfold iso_dec. by rewrite dec_enc, gf. Qed.

Definition Tokens_iso : Tokens A :=
  {| enc a := enc (f a); dec := iso_dec; dec_enc := iso_dec_enc |}.
End Iso.

Section Combinators.
Context {A B : Type} `{Tokens A} `{Tokens B}.

Definition pair_dec (s : list N) : option (A * B * list N) :=
  match dec s with
  | Some (a, rest) =>
      match dec rest with Some (b, rest') => Some (a, b, rest') | None => None end
  | None => None
  end.

Lemma pair_dec_enc (p : A * B) rest : pair_dec ((enc p.1 ++ enc p.2) ++ rest) = Some (p, rest).
Proof. unfold pair_dec. rewrite <- app_assoc, !dec_enc. by destruct p. Qed.

Definition option_dec (s : list N) : option (option A * list N) :=
  match s with
  | 0%N :: rest => Some (None, rest)
  | _ :: rest => match dec rest with Some (a, rest') => Some (Some a, rest') | None => None end
  | [] => None
  end.

Definition option_enc (o : option A) : list N :=
  match o with None => [0%N] | Some a => 1%N :: enc a end.

Lemma option_dec_enc o rest : option_dec (option_enc o ++ rest) = Some (o, rest).
Proof. destruct o; simpl; [|done]. by rewrite dec_enc. Qed.

Fixpoint repeat_dec (n : nat) (s : list N) : option (list A * list N) :=
  match n with
  | 0 => Some ([], s)
  | S n =>
      match dec s with
      | Some (a, rest) =>
          match repeat_dec n rest with
          | Some (l, rest') => Some (a :: l, rest')
          | None => None
          end
      | None => None
      end
  end.

Definition list_enc (l : list A) : list N :=
  N.of_nat (length l) :: concat (map enc l).

Definition list_dec (s : list N) : option (list A * list N) :=
  match s with [] => None | n :: rest => repeat_dec (N.to_nat n) rest end.

Lemma list_dec_enc l rest : list_dec (list_enc l ++ rest) = Some (l, rest).
Proof.
  unfold list_dec, list_enc. simpl. rewrite Nat2N.id.
  induction l as [|a l IH]; [done|]. simpl. by rewrite <- app_assoc, dec_enc, IH.
Qed.
End Combinators.

#[export] Instance Tokens_pair {A B} `{Tokens A} `{Tokens B} : Tokens (A * B) :=
  {| enc p := enc p.1 ++ enc p.2; dec := pair_dec; dec_enc := pair_dec_enc |}.
#[export] Instance Tokens_option {A} `{Tokens A} : Tokens (option A) :=
  {| enc := option_enc; dec := option_dec; dec_enc := option_dec_enc |}.
#[export] Instance Tokens_list {A} `{Tokens A} : Tokens (list A) :=
  {| enc := list_enc; dec := list_dec; dec_enc := list_dec_enc |}.

(** Enumerations are numbered by their position in a list of all constructors. *)
Definition stages : list SendStage :=
  [Stage_Validating; Stage_LoadingJournal; Stage_FetchingFreshAccount; Stage_Authorizing;
   Stage_Preparing; Stage_PersistingPrepared; Stage_ReadyToSubmit; Stage_Submitting;
   Stage_SubmissionUnknown; Stage_Submitted; Stage_HandedOff; Stage_Confirmed;
   Stage_Replaced; Stage_SequenceNumberConsumed; Stage_Expired; Stage_Superseded;
   Stage_Failed; Stage_Cancelled].

Definition position {A} `{EqDecision A} (l : list A) (a : A) : N :=
  match list_find (eq a) l with Some (i, _) => N.of_nat i | None => 0%N end.

#[export] Instance Tokens_bool : Tokens bool.
Proof. apply (Tokens_iso (fun b : bool => if b then 1 else 0)%N (fun n => n =? 1)%N). by intros []. Defined.

#[export] Instance Tokens_stage : Tokens SendStage.
Proof.
  apply (Tokens_iso (position stages) (fun n => nth (N.to_nat n) stages Stage_Validating)).
  by intros [].
Defined.

#[export] Instance Tokens_kind : Tokens SignedMessageKind.
Proof.
  apply (Tokens_iso (fun k => bool_decide (k = Kind_External))
           (fun b : bool => if b then Kind_External else Kind_Internal)).
  by intros [].
Defined.

#[export] Instance Tokens_Z : Tokens Z.
Proof.
  apply (Tokens_iso (fun z => (Z.abs_N z, bool_decide (z < 0)%Z))
           (fun p => if p.2 then (- Z.of_N p.1)%Z else Z.of_N p.1)).
  intros z. simpl. case_bool_decide; lia.
Defined.

#[export] Instance Tokens_NonEmptyString : Tokens NonEmptyString.
Proof. apply (Tokens_iso nes_str mkNonEmptyString). by intros []. Defined.
#[export] Instance Tokens_uds : Tokens UnsignedDecimalString.
Proof. apply (Tokens_iso uds_value mkUnsignedDecimalString). by intros []. Defined.
#[export] Instance Tokens_Boc : Tokens Boc.
Proof. apply (Tokens_iso boc_bytes mkBoc). by intros []. Defined.
#[export] Instance Tokens_Base64Hash : Tokens Base64Hash.
Proof. apply (Tokens_iso b64_str mkBase64Hash). by intros []. Defined.

#[export] Instance Tokens_TonAddressString : Tokens TonAddressString.
Proof.
  apply (Tokens_iso
    (fun t => (tas_value t, (ta_workchain (tas_address t), ta_hash (tas_address t))))
    (fun p => mkTonAddressString p.1 (mkTonAddress p.2.1 p.2.2))).
  by intros [? []].
Defined.

#[export] Instance Tokens_SendAmount : Tokens SendAmount.
Proof.
  apply (Tokens_iso
    (fun a => match a with Amount_Exact n => Some n | Amount_All => None end)
    (fun o => match o with Some n => Amount_Exact n | None => Amount_All end)).
  by intros [].
Defined.

#[export] Instance Tokens_SendMessageBody : Tokens SendMessageBody.
Proof.
  apply (Tokens_iso
    (fun b => match b with
      | Body_Empty => (None : option rstr, None : option Boc)
      | Body_Comment t => (Some t, None)
      | Body_RawPayload c => (None, Some c)
      end)
    (fun p => match p with
      | (Some t, _) => Body_Comment t
      | (None, Some c) => Body_RawPayload c
      | (None, None) => Body_Empty
      end)).
  by intros [].
Defined.

#[export] Instance Tokens_SendMessage : Tokens SendMessage.
Proof.
  apply (Tokens_iso
    (fun m => (sm_destination m, sm_amount m, sm_body m, sm_bounce m, sm_state_init m))
    (fun p => let '(d, a, b, c, s) := p in mkSendMessage d a b c s)).
  by intros [].
Defined.

#[export] Instance Tokens_DurableSendRecord : Tokens DurableSendRecord.
Proof.
  apply (Tokens_iso
    (fun d => (dr_schema_version d, dr_operation_id d, dr_record_id d, dr_source d,
               dr_kind d, dr_messages d, dr_seqno d, dr_needs_state_init d,
               dr_valid_until d, dr_signed_boc d, dr_message_hash d, dr_stage d,
               dr_provider_reference d, dr_diagnostic d, dr_confirmed_transaction_hash d,
               dr_confirmed_transaction_lt d))
    (fun p => let '(a, b, c, d, e, f, g, h, i, j, k, l, m, n, o, q) := p in
              mkDurableSendRecord a b c d e f g h i j k l m n o q)).
  by intros [].
Defined.

Definition ref_to_vec (d : DurableSendRecord) : result rstr bytes := Ok (enc d).

Definition ref_from_slice (payload : bytes) : result rstr DurableSendRecord :=
  match dec payload with
  | Some (d, []) => Ok d
  | _ => Err (lit "malformed record")
  end.

Lemma ref_from_slice_to_vec d payload :
  ref_to_vec d = Ok payload -> ref_from_slice payload = Ok d.
Proof.
  unfold ref_to_vec, ref_from_slice. intros Heq.
  assert (payload = enc d ++ []) as -> by (rewrite app_nil_r; congruence).
  by rewrite dec_enc.
Qed.

#[export] Instance RefCodec : JournalCodec :=
  {| to_vec := ref_to_vec; from_slice := ref_from_slice;
     from_slice_to_vec := ref_from_slice_to_vec |}.
