(* ===== verification/JournalProtocol.v ===== *)
(** * Concurrent writers of the send journal

    Any number of send workflows and resolvers, in any number of processes,
    share the one journal slot of a wallet.  They read it at any time, hold what
    they read for any time, and write it by compare-and-swap.  The theorem is
    that no interleaving lets a signed message whose fate is unknown disappear
    from the journal unless its replacement was forced by the user.

    Models the use that [src/wallet/send.rs], [src/engine/send.rs] and
    [src/engine/resolution.rs] make of [JournalCompareExchange]. *)

From stdpp Require Import base numbers list option relations.
From S2P Require Import Prelude BoundaryTypes SendDomain SendWorkflow SendReducer RefCodec.

(** The host's compare-and-swap, as [src/domain/journal.rs] documents it: the
    replacement is stored exactly when the current version is the expected one,
    or the slot is absent when none is expected. *)
Class JournalHost := {
  host_cas : option JournalRecord -> JournalCompareExchange ->
    option JournalRecord * JournalCompareExchangeResult;
  host_cas_spec slot m :
    host_cas slot m =
      if decide (jr_version <$> slot = jce_expected_version m)
      then (Some (jce_replacement m),
            mkJournalCompareExchangeResult true (Some (jce_replacement m)))
      else (slot, mkJournalCompareExchangeResult false slot);
}.

Definition ref_host_cas (slot : option JournalRecord) (m : JournalCompareExchange)
  : option JournalRecord * JournalCompareExchangeResult :=
  if decide (jr_version <$> slot = jce_expected_version m)
  then (Some (jce_replacement m),
        mkJournalCompareExchangeResult true (Some (jce_replacement m)))
  else (slot, mkJournalCompareExchangeResult false slot).

#[export] Instance RefJournalHost : JournalHost :=
  {| host_cas := ref_host_cas; host_cas_spec slot m := eq_refl |}.

(** ** Worlds *)

(** One entry per record ever stored, newest first, with the [force] flag of the
    request that wrote it (false for a resolver). *)
Abbreviation history := (list (JournalRecord * bool)) (only parsing).

Definition slot_of (h : history) : option JournalRecord := fst <$> head h.

Inductive Process :=
  | Proc_Send (w : SendWorkflow) (directive : option SendDirective)
  | Proc_Resolver (p : PendingSendRecord).

Record World := mkWorld { wd_history : history; wd_processes : list Process }.

Section Protocol.
Context `{JournalCodec} `{JournalHost}.
(** The wallet that owns the slot. *)
Context (rid : NonEmptyString) (src : TonAddressString).

(** The directive a call leaves for the coordinator. *)
Definition directive_of (r : result SendWorkflowError (option SendDirective))
  : option SendDirective :=
  match r with Ok d => d | Err _ => None end.

(** The journal after the host processed a mutation written by a request with
    the given [force] flag. *)
Definition store (h : history) (m : JournalCompareExchange) (force : bool)
  : history * JournalCompareExchangeResult :=
  let '(slot, outcome) := host_cas (slot_of h) m in
  match slot with
  | Some record => if jcr_applied outcome then ((record, force) :: h, outcome) else (h, outcome)
  | None => (h, outcome)
  end.

(** A record that some process may have read: absent, or stored at some time. *)
Definition observable (h : history) (record : option JournalRecord) : Prop :=
  match record with None => True | Some r => exists f, (r, f) ∈ h end.

(** Calls that do not concern the journal. *)
Definition local_call (call : ReducerCall) : bool :=
  match call with
  | Call_journal_loaded _ | Call_journal_persisted _ => false
  | _ => true
  end.

Inductive world_step : World -> World -> Prop :=
  | ws_spawn h ps w :
      fresh_workflow w -> sw_record_id w = rid -> sw_source w = src ->
      world_step (mkWorld h ps) (mkWorld h (Proc_Send w None :: ps))
  | ws_local h ps i w dir call :
      ps !! i = Some (Proc_Send w dir) -> local_call call = true ->
      world_step (mkWorld h ps)
        (mkWorld h (<[i := Proc_Send (run_call call w).1
                            (directive_of (run_call call w).2)]> ps))
  | ws_load h ps i w dir record :
      ps !! i = Some (Proc_Send w dir) -> observable h record ->
      world_step (mkWorld h ps)
        (mkWorld h (<[i := Proc_Send (run_call (Call_journal_loaded record) w).1
                            (directive_of (run_call (Call_journal_loaded record) w).2)]> ps))
  | ws_persist h ps i w m h' outcome :
      ps !! i = Some (Proc_Send w (Some (PersistJournal m))) ->
      store h m (sr_force (sw_request w)) = (h', outcome) ->
      world_step (mkWorld h ps)
        (mkWorld h' (<[i := Proc_Send (run_call (Call_journal_persisted outcome) w).1
                         (directive_of (run_call (Call_journal_persisted outcome) w).2)]> ps))
  | ws_persist_lost h ps i w m h' outcome :
      ps !! i = Some (Proc_Send w (Some (PersistJournal m))) ->
      store h m (sr_force (sw_request w)) = (h', outcome) ->
      world_step (mkWorld h ps) (mkWorld h' (<[i := Proc_Send w None]> ps))
  | ws_resolver h ps record f p :
      (record, f) ∈ h -> pending_send_record record rid src = Ok (Some p) ->
      world_step (mkWorld h ps) (mkWorld h (Proc_Resolver p :: ps))
  | ws_resolve h ps i p resolution m h' outcome :
      ps !! i = Some (Proc_Resolver p) -> resolution_lt_fits resolution = true ->
      terminal_mutation p resolution = Ok (Some m) -> store h m false = (h', outcome) ->
      world_step (mkWorld h ps) (mkWorld h' ps)
  | ws_crash h ps i :
      world_step (mkWorld h ps) (mkWorld h (delete i ps)).

Definition initial_world : World := mkWorld [] [].

Definition reachable_world (w : World) : Prop := rtc world_step initial_world w.

(** ** Specification *)

(** [new], written with [force], may overwrite [old]. *)
Definition may_follow (new : JournalRecord) (force : bool) (old : JournalRecord) : Prop :=
  exists d_new d_old,
    decode_durable_record new = Ok d_new /\ decode_durable_record old = Ok d_old /\
    (permits_replacement (dr_stage d_old) = true \/
     (force = true /\ permits_forced_replacement (dr_stage d_old) = true) \/
     (dr_operation_id d_new = dr_operation_id d_old /\
      dr_message_hash d_new = dr_message_hash d_old /\
      dr_signed_boc d_new = dr_signed_boc d_old)).

Fixpoint chained (h : history) : Prop :=
  match h with
  | (new, force) :: ((old, _) :: _) as rest => may_follow new force old /\ chained rest
  | _ => True
  end.

(** The entry at distance [i] from the newest has version [length h - i]. *)
Definition dense (h : history) : Prop :=
  forall i r f, h !! i = Some (r, f) -> jr_version r = N.of_nat (length h - i).

Definition wallet_record (r : JournalRecord) : Prop :=
  exists d, decode_durable_record r = Ok d /\ foreign_record d rid src = false.

(** The record that a workflow will overwrite is one it may overwrite. *)
Definition overwritable (w : SendWorkflow) (r : JournalRecord) : Prop :=
  exists d, decode_durable_record r = Ok d /\
    (permits_replacement (dr_stage d) = true \/
     (sr_force (sw_request w) = true /\
      permits_forced_replacement (dr_stage d) = true) \/
     (exists p, sw_prepared w = Some p /\
        dr_operation_id d = pt_operation_id p /\
        dr_message_hash d = pt_message_hash p /\ dr_signed_boc d = pt_signed_boc p)).

Record send_inv (h : history) (w : SendWorkflow) (directive : option SendDirective) : Prop := {
  si_workflow : workflow_inv w;
  si_record : sw_record_id w = rid;
  si_source : sw_source w = src;
  si_early : sw_stage w = Stage_Validating \/ sw_stage w = Stage_LoadingJournal ->
    sw_journal_version w = None;
  si_version v : sw_journal_version w = Some v ->
    exists r f, (r, f) ∈ h /\ jr_version r = v /\ overwritable w r;
  si_directive m : directive = Some (PersistJournal m) ->
    persist_directive w = Ok (PersistJournal m);
}.

Definition process_inv (h : history) (p : Process) : Prop :=
  match p with
  | Proc_Send w directive => send_inv h w directive
  | Proc_Resolver p => exists r f, (r, f) ∈ h /\ pending_send_record r rid src = Ok (Some p)
  end.

Record world_inv (w : World) : Prop := {
  wi_dense : dense (wd_history w);
  wi_wallet r f : (r, f) ∈ wd_history w -> wallet_record r;
  wi_chained : chained (wd_history w);
  wi_processes p : p ∈ wd_processes w -> process_inv (wd_history w) p;
}.
End Protocol.

(** ** Lemmas about reducer calls *)

Section CallFacts.
Context `{JournalCodec}.

Lemma run_call_persist call w w' m :
  run_call call w = (w', Ok (Some (PersistJournal m))) ->
  persist_directive w' = Ok (PersistJournal m).
Proof.
  unfold_reducer. destruct call; simpl; intros Hrun; repeat case_match; simplify_eq/=; try done.
  all: unfold read_secret_directive, rbind, ok_or in *; repeat case_match; simplify_eq/=.
Qed.

Lemma local_call_version call w :
  local_call call = true ->
  sw_journal_version (run_call call w).1 = sw_journal_version w.
Proof.
  unfold_reducer. destruct call; simpl; intros Hl; try done;
    repeat (case_match; simplify_eq/=; try done).
Qed.

Lemma refused_persist_version outcome w :
  jcr_applied outcome = false ->
  sw_journal_version (run_call (Call_journal_persisted outcome) w).1 = sw_journal_version w.
Proof. intros Ha. unfold_reducer. rewrite Ha. simpl. by repeat (case_match; simplify_eq/=). Qed.

Lemma journal_loaded_state record w :
  (run_call (Call_journal_loaded record) w).1 = w \/
  exists version,
    (run_call (Call_journal_loaded record) w).1 =
      w <| sw_journal_version := version |> <| sw_stage := Stage_FetchingFreshAccount |> /\
    match record with
    | None => version = None
    | Some r => version = Some (jr_version r) /\
        exists d, decode_durable_record r = Ok d /\
          (permits_replacement (dr_stage d) = true \/
           (sr_force (sw_request w) = true /\
            permits_forced_replacement (dr_stage d) = true))
    end.
Proof.
  unfold_reducer. simpl.
  destruct (transition _ _) eqn:Ht; simpl; [|by left].
  apply transition_inv in Ht as [_ ->].
  destruct record as [r|]; simpl; [|right; by exists None].
  destruct (decode_durable_record r) as [d|] eqn:Hd; simpl; [|by left].
  destruct (foreign_record _ _ _); simpl; [by left|].
  destruct (_ || _) eqn:Hp; simpl; [|by left].
  right. exists (Some (jr_version r)). split; [done|]. split; [done|]. exists d.
  split; [done|]. by apply orb_true_iff in Hp as [|[? ?]%andb_true_iff]; auto.
Qed.

(** What no step changes. *)
Lemma send_step_frame w w' :
  send_step w w' ->
  sw_record_id w' = sw_record_id w /\ sw_source w' = sw_source w /\
  sw_request w' = sw_request w /\ sw_kind w' = sw_kind w.
Proof. by intros []. Qed.

Lemma send_step_prepared w w' p :
  workflow_inv w -> send_step w w' -> sw_prepared w = Some p -> sw_prepared w' = Some p.
Proof.
  intros Hinv Hstep Hp. destruct Hstep; try done.
  pose proof (inv_unprepared _ Hinv) as Hn. rewrite H0 in Hn. simpl in Hn.
  by rewrite Hn in Hp.
Qed.

Lemma send_step_early w w' :
  send_step w w' ->
  sw_stage w' = Stage_Validating \/ sw_stage w' = Stage_LoadingJournal ->
  (sw_stage w = Stage_Validating \/ sw_stage w = Stage_LoadingJournal) /\
  sw_journal_version w' = sw_journal_version w.
Proof.
  intros Hstep.
  destruct Hstep; cbv [update]; simpl; try naive_solver.
  - unfold durable_stage. at_stage. destruct (sw_kind w); intros [? | ?]; done.
  - intros [Hs | Hs]; rewrite Hs in *; done.
Qed.
End CallFacts.

(** ** Preservation *)

Section Preservation.
Context `{JournalCodec} `{JournalHost}.
Context (rid : NonEmptyString) (src : TonAddressString).

Lemma store_spec h m force h' outcome :
  store h m force = (h', outcome) ->
  (jcr_applied outcome = true /\ h' = (jce_replacement m, force) :: h /\
   jr_version <$> slot_of h = jce_expected_version m) \/
  (jcr_applied outcome = false /\ h' = h).
Proof.
  unfold store. rewrite host_cas_spec. case_decide as Hv; simpl.
  - intros. simplify_eq/=. by left.
  - destruct (slot_of h); intros; simplify_eq/=; by right.
Qed.

Lemma overwritable_step w w' r :
  workflow_inv w -> send_step w w' -> overwritable w r -> overwritable w' r.
Proof.
  intros Hinv Hstep (d & Hd & Hcases). exists d. split; [done|].
  destruct (send_step_frame _ _ Hstep) as (_ & _ & -> & _).
  destruct Hcases as [|[|(p & Hp & ?)]]; [by auto|by auto|].
  right; right. exists p. split; [by eapply send_step_prepared|done].
Qed.

Lemma send_inv_mono h e w d : send_inv rid src h w d -> send_inv rid src (e :: h) w d.
Proof.
  intros [? ? ? ? Hv ?]. constructor; [done..| |done].
  intros v (r & f & Hin & ?)%Hv. exists r, f. split; [by right|done].
Qed.

Lemma process_inv_mono h e p : process_inv rid src h p -> process_inv rid src (e :: h) p.
Proof.
  destruct p; simpl; [apply send_inv_mono|].
  intros (r & f & Hin & ?). exists r, f. split; [by right|done].
Qed.

(** The versions in a dense history identify its records. *)
Lemma dense_head h r f v :
  dense h -> (r, f) ∈ h -> jr_version r = v -> jr_version <$> slot_of h = Some v ->
  slot_of h = Some r /\ v = N.of_nat (length h).
Proof.
  intros Hd [i Hi]%list_elem_of_lookup Hv Hs.
  destruct h as [|[r0 f0] h]; [done|]. unfold slot_of in *. simpl in *.
  pose proof (Hd 0 r0 f0 eq_refl) as H0v. pose proof (Hd i r f Hi) as Hiv. simplify_eq.
  apply lookup_lt_Some in Hi as Hlt. simpl in *. simplify_eq/=.
  destruct i as [|i]; [|lia]. simplify_eq/=. split; [done|lia].
Qed.

(** Extending the history by a record that may follow its head. *)
Lemma history_extend h ps r force :
  world_inv rid src (mkWorld h ps) ->
  jr_version r = N.of_nat (S (length h)) -> wallet_record rid src r ->
  (forall old, slot_of h = Some old -> may_follow r force old) ->
  dense ((r, force) :: h) /\
  (forall r' f', (r', f') ∈ (r, force) :: h -> wallet_record rid src r') /\
  chained ((r, force) :: h).
Proof.
  intros [Hd Hw Hc _] Hv Hr Hm. simpl in *. split_and!.
  - intros [|i] r' f' Hi; simplify_eq/=; [done|]. by apply Hd in Hi.
  - intros r' f' [?|?]%elem_of_cons; simplify_eq; eauto.
  - destruct h as [|[old f] h]; [done|]. split; [by apply Hm|done].
Qed.

(** A compare-and-swap that a workflow wins stores a record that may follow
    the one it replaces. *)
Lemma send_persist_extends h ps w dir m force h' outcome :
  world_inv rid src (mkWorld h ps) -> send_inv rid src h w dir ->
  force = sr_force (sw_request w) ->
  persist_directive w = Ok (PersistJournal m) -> store h m force = (h', outcome) ->
  jcr_applied outcome = true ->
  h' = (jce_replacement m, force) :: h /\
  jr_version (jce_replacement m) = N.of_nat (S (length h)) /\
  wallet_record rid src (jce_replacement m) /\
  (forall old, slot_of h = Some old -> may_follow (jce_replacement m) force old) /\
  overwritable w (jce_replacement m) /\
  next_journal_version (sw_journal_version w) = Ok (jr_version (jce_replacement m)).
Proof.
  intros Hwi [Hwf Hrid Hsrc _ Hver _] -> Hm Hst Happ.
  destruct (store_spec _ _ _ _ _ Hst) as [(_ & -> & Hexp)|[? _]]; [|congruence].
  pose proof (persist_directive_spec _ _ Hm) as (p & d & Hp & Hd & _ & He & Hn & _).
  destruct (decode_persisted w m) as (d' & Hd' & Hdec); [apply Hwf|done|].
  assert (d' = d) as -> by congruence. rewrite He in Hexp.
  assert (dr_operation_id d = pt_operation_id p /\ dr_message_hash d = pt_message_hash p /\
          dr_signed_boc d = pt_signed_boc p) as (Hop & Hha & Hbo).
  { unfold journal_record, prepared_ref in Hd. rewrite Hp in Hd. by simplify_eq/=. }
  assert (jr_version (jce_replacement m) = N.of_nat (S (length h)) /\
          forall old, slot_of h = Some old -> overwritable w old) as [Hv Hold].
  { apply next_journal_version_ok in Hn. destruct (sw_journal_version w) as [v|] eqn:Hsv.
    - destruct (Hver v eq_refl) as (r & f & Hin & Hrv & Hov).
      destruct (dense_head h r f v) as [Hs Hlen]; [apply Hwi|done..|].
      destruct Hn as [-> _]. split; [lia|]. intros old Ho. rewrite Hs in Ho. by simplify_eq.
    - destruct h as [|[]]; [|done]. split; [done|]. by intros. }
  split_and!; [done|done| | | |done].
  - exists d. split; [done|]. rewrite <- Hrid, <- Hsrc. by apply own_record_not_foreign.
  - intros old (d_old & Hdo & Hcases)%Hold. exists d, d_old. split_and!; [done|done|].
    destruct Hcases as [|[|(p' & Hp' & ? & ? & ?)]]; [by auto|by auto|].
    right; right. simplify_eq. by rewrite Hop, Hha, Hbo.
  - exists d. split; [done|]. right; right. by exists p.
Qed.

(** A resolver that wins its compare-and-swap keeps the signed message. *)
Lemma resolve_extends h ps p resolution m h' outcome :
  world_inv rid src (mkWorld h ps) -> process_inv rid src h (Proc_Resolver p) ->
  resolution_lt_fits resolution = true ->
  terminal_mutation p resolution = Ok (Some m) -> store h m false = (h', outcome) ->
  jcr_applied outcome = true ->
  h' = (jce_replacement m, false) :: h /\
  jr_version (jce_replacement m) = N.of_nat (S (length h)) /\
  wallet_record rid src (jce_replacement m) /\
  (forall old, slot_of h = Some old -> may_follow (jce_replacement m) false old).
Proof.
  intros Hwi (r & f & Hin & Hp) Hlt Hm Hst Happ.
  destruct (store_spec _ _ _ _ _ Hst) as [(_ & -> & Hexp)|[? _]]; [|congruence].
  apply pending_send_record_ok in Hp as (Hdec & Hfor & _ & Hver & _).
  apply terminal_mutation_ok in Hm as (d & Hd & He & Hn & Hsl).
  pose proof (resolved_record_fields _ _ _ Hd) as (Hsame & _ & _).
  pose proof (decode_durable_record_ok _ _ Hdec) as (_ & _ & Hs5).
  assert (decode_durable_record (jce_replacement m) = Ok d) as Hdec'.
  { destruct (jce_replacement m) as [v pl]; simpl in *.
    eapply decode_resolved; [done..|lia|done]. }
  rewrite He, Hver in Hexp.
  destruct (dense_head h r f (jr_version r)) as [Hslot Hlen]; [apply Hwi|done..|].
  destruct Hsame as (Hop & Hri & Hso & _ & _ & _ & _ & Hbo & Hha).
  split_and!; [done|rewrite Hn, Hver; lia| |].
  - exists d. split; [done|]. unfold foreign_record in *. by rewrite Hri, Hso.
  - intros old Ho. rewrite Hslot in Ho. simplify_eq. exists d, (ps_durable p).
    split_and!; [done|done|]. right; right. by rewrite Hop, Hha, Hbo.
Qed.

Lemma directive_of_persist call w m :
  directive_of (run_call call w).2 = Some (PersistJournal m) ->
  persist_directive (run_call call w).1 = Ok (PersistJournal m).
Proof.
  destruct (run_call call w) as [w' [[]|]] eqn:E; simpl; intros; simplify_eq.
  by eapply run_call_persist.
Qed.

(** One call keeps the facts of its workflow when the version it ends with is
    the one it started with. *)
Lemma send_inv_call h w dir call :
  send_inv rid src h w dir ->
  sw_journal_version (run_call call w).1 = sw_journal_version w ->
  send_inv rid src h (run_call call w).1 (directive_of (run_call call w).2).
Proof.
  intros [Hwf Hrid Hsrc He Hv Hd] Hsame. pose proof (run_call_step call w) as Hstep.
  destruct (send_step_frame _ _ Hstep) as (Hr & Hs & _ & _).
  constructor; [by eapply send_step_inv|congruence|congruence| | |apply directive_of_persist].
  - intros (Hearly & ->)%(send_step_early _ _ Hstep). by apply He.
  - rewrite Hsame. intros v (r & f & ? & ? & ?)%Hv. exists r, f. split_and!; [done..|].
    by eapply overwritable_step.
Qed.

Lemma send_inv_load h w dir record :
  send_inv rid src h w dir -> observable h record ->
  send_inv rid src h (run_call (Call_journal_loaded record) w).1
    (directive_of (run_call (Call_journal_loaded record) w).2).
Proof.
  intros Hinv Hobs. set (call := Call_journal_loaded record).
  destruct (journal_loaded_state record w) as [Heq|(version & Heq & Hrec)].
  { apply (send_inv_call _ _ dir); [done|]. unfold call. by rewrite Heq. }
  pose proof Hinv as [Hwf Hrid Hsrc _ _ _].
  constructor; [|by unfold call; rewrite Heq..| | |apply directive_of_persist].
  - eapply send_step_inv; [done|apply run_call_step].
  - unfold call. rewrite Heq. cbv [update]. simpl. naive_solver.
  - unfold call. rewrite Heq. cbv [update]. simpl. intros v ->.
    destruct record as [r|]; [|done]. destruct Hrec as ([= ->] & d & Hd & Hc).
    destruct Hobs as [f Hin]. exists r, f. split_and!; [done|done|]. exists d.
    split; [done|]. simpl. naive_solver.
Qed.

(** The workflow that won the compare-and-swap owns the new head. *)
Lemma send_inv_persisted h w dir m outcome force :
  send_inv rid src h w dir -> jcr_applied outcome = true ->
  overwritable w (jce_replacement m) ->
  next_journal_version (sw_journal_version w) = Ok (jr_version (jce_replacement m)) ->
  send_inv rid src ((jce_replacement m, force) :: h)
    (run_call (Call_journal_persisted outcome) w).1
    (directive_of (run_call (Call_journal_persisted outcome) w).2).
Proof.
  intros Hinv Happ Hov Hn. set (call := Call_journal_persisted outcome).
  destruct (journal_persisted_state outcome w Happ) as [Heq|(v & stage & Heq & Hv & Hst)].
  { apply send_inv_mono, (send_inv_call _ _ dir); [done|]. unfold call. by rewrite Heq. }
  pose proof Hinv as [Hwf Hrid Hsrc _ _ _]. pose proof (run_call_step call w) as Hstep.
  assert (v = jr_version (jce_replacement m)) as -> by congruence.
  constructor; [by eapply send_step_inv|by unfold call; rewrite Heq..| | |
    apply directive_of_persist].
  - intros (Hearly & _)%(send_step_early _ _ Hstep). exfalso.
    destruct Hst as [[Hs _]|[Hs _]], Hearly as [He|He]; rewrite He in Hs; done.
  - intros v Hsv. exists (jce_replacement m), force. split_and!; [by left| |].
    + revert Hsv. unfold call. rewrite Heq. cbv [update]. simpl. naive_solver.
    + by eapply overwritable_step.
Qed.

Lemma processes_mono h e (ps : list Process) :
  (forall p, p ∈ ps -> process_inv rid src h p) ->
  forall p, p ∈ ps -> process_inv rid src (e :: h) p.
Proof. intros Hps p Hp. by apply process_inv_mono, Hps. Qed.

Lemma processes_insert h (ps : list Process) i q :
  (forall p, p ∈ ps -> process_inv rid src h p) -> process_inv rid src h q ->
  forall p, p ∈ <[i := q]> ps -> process_inv rid src h p.
Proof.
  intros Hps Hq p [j Hj]%list_elem_of_lookup.
  apply list_lookup_insert_Some in Hj as [(_ & <- & _)|(_ & Hj)]; [done|].
  apply Hps, list_elem_of_lookup. by exists j.
Qed.
End Preservation.

Section WorldInvariant.
Context `{JournalCodec} `{JournalHost}.
Context (rid : NonEmptyString) (src : TonAddressString).

Lemma world_inv_set h ps ps' :
  world_inv rid src (mkWorld h ps) ->
  (forall p, p ∈ ps' -> process_inv rid src h p) -> world_inv rid src (mkWorld h ps').
Proof. intros [? ? ? _] ?. by constructor. Qed.

Lemma world_inv_extend h ps ps' r force :
  world_inv rid src (mkWorld h ps) ->
  jr_version r = N.of_nat (S (length h)) -> wallet_record rid src r ->
  (forall old, slot_of h = Some old -> may_follow r force old) ->
  (forall p, p ∈ ps' -> process_inv rid src ((r, force) :: h) p) ->
  world_inv rid src (mkWorld ((r, force) :: h) ps').
Proof.
  intros Hwi Hv Hr Hm Hp.
  destruct (history_extend rid src h ps r force Hwi Hv Hr Hm) as (? & ? & ?).
  by constructor.
Qed.

Lemma send_process h ps i w dir :
  world_inv rid src (mkWorld h ps) -> ps !! i = Some (Proc_Send w dir) ->
  send_inv rid src h w dir.
Proof.
  intros [_ _ _ Hp] Hi. apply (Hp (Proc_Send w dir)), list_elem_of_lookup. by exists i.
Qed.

(** A persistence step, whether or not the process learns its outcome. *)
Lemma persist_step_inv h ps i w m h' outcome q :
  world_inv rid src (mkWorld h ps) ->
  ps !! i = Some (Proc_Send w (Some (PersistJournal m))) ->
  store h m (sr_force (sw_request w)) = (h', outcome) ->
  q = Proc_Send w None \/
    q = Proc_Send (run_call (Call_journal_persisted outcome) w).1
          (directive_of (run_call (Call_journal_persisted outcome) w).2) ->
  world_inv rid src (mkWorld h' (<[i := q]> ps)).
Proof.
  intros Hwi Hi Hst Hq. pose proof (send_process _ _ _ _ _ Hwi Hi) as Hs.
  pose proof (si_directive _ _ _ _ _ Hs m eq_refl) as Hm.
  assert (send_inv rid src h w None) as Hs0 by (by destruct Hs; constructor).
  destruct (jcr_applied outcome) eqn:Happ.
  - destruct (send_persist_extends rid src h ps w _ m _ h' outcome Hwi Hs eq_refl Hm Hst Happ)
      as (-> & Hv & Hr & Hmf & Hov & Hn).
    eapply world_inv_extend; [done..|]. apply processes_insert; [apply processes_mono, Hwi|].
    destruct Hq as [-> | ->]; [by apply send_inv_mono|by eapply send_inv_persisted].
  - destruct (store_spec _ _ _ _ _ Hst) as [(? & _)|[_ ->]]; [congruence|].
    apply (world_inv_set _ ps); [done|]. apply processes_insert; [apply Hwi|].
    destruct Hq as [-> | ->]; [done|].
    eapply send_inv_call; [done|by apply refused_persist_version].
Qed.

Lemma world_step_inv w w' : world_inv rid src w -> world_step rid src w w' -> world_inv rid src w'.
Proof.
  intros Hwi Hstep. destruct Hstep as
    [h ps w Hf Hr Hs|h ps i w dir call Hi Hl|h ps i w dir record Hi Ho
    |h ps i w m h' outcome Hi Hst|h ps i w m h' outcome Hi Hst|h ps record f p Hin Hp
    |h ps i p resolution m h' outcome Hi Hlt Hm Hst|h ps i].
  - apply (world_inv_set _ ps); [done|]. intros q [-> |Hq]%elem_of_cons; [|by apply Hwi].
    pose proof (fresh_workflow_inv _ Hf) as Hinv. constructor; try done.
    all: destruct Hf; simpl; done.
  - apply (world_inv_set _ ps); [done|]. apply processes_insert; [apply Hwi|].
    eapply send_inv_call; [by eapply send_process|by apply local_call_version].
  - apply (world_inv_set _ ps); [done|]. apply processes_insert; [apply Hwi|].
    eapply send_inv_load; [by eapply send_process|done].
  - eapply persist_step_inv; [done..|by right].
  - eapply persist_step_inv; [done..|by left].
  - apply (world_inv_set _ ps); [done|]. intros q [-> |Hq]%elem_of_cons; [|by apply Hwi].
    by exists record, f.
  - destruct (jcr_applied outcome) eqn:Happ.
    + destruct (resolve_extends rid src h ps p resolution m h' outcome)
        as (-> & Hv & Hr & Hmf); [done| |done..|].
      { apply Hwi, list_elem_of_lookup. by exists i. }
      eapply world_inv_extend; [done..|apply processes_mono, Hwi].
    + destruct (store_spec _ _ _ _ _ Hst) as [(? & _)|[_ ->]]; [congruence|done].
  - apply (world_inv_set _ ps); [done|]. intros q Hq. apply Hwi. simpl.
    eapply elem_of_submseteq; [done|]. apply sublist_submseteq, sublist_delete.
Qed.

Lemma reachable_world_inv w : reachable_world rid src w -> world_inv rid src w.
Proof.
  intros Hr. unfold reachable_world in Hr. remember initial_world as w0 eqn:E.
  assert (world_inv rid src w0) as Hw0.
  { subst. constructor; simpl; [by intros []| |done|]; intros;
      match goal with E : _ ∈ [] |- _ => by apply not_elem_of_nil in E end. }
  clear E. induction Hr as [|x y z Hstep _ IH]; [done|].
  apply IH. by eapply world_step_inv.
Qed.
End WorldInvariant.

(** ** Claims *)

Section Claims.
Context `{JournalCodec} `{JournalHost}.
Context (rid : NonEmptyString) (src : TonAddressString).

(** C1: under every interleaving of sends, resolvers, stale reads, lost replies
    and crashes, each record ever stored in the journal decodes as a record of
    this wallet, the versions are exactly 1, 2, 3, ... in storing order, and
    every record was overwritten either after final evidence, or by a request
    that explicitly forced the replacement of a complete signed message, or by
    a newer state of the same operation with the same signed message. *)
Theorem journal_never_loses_a_signed_message w :
  reachable_world rid src w ->
  chained (wd_history w) /\ dense (wd_history w) /\
  (forall r f, (r, f) ∈ wd_history w -> wallet_record rid src r).
Proof. intros [? ? ? _]%reachable_world_inv. done. Qed.

(** A competing writer cannot be overwritten unseen: a compare-and-swap of a
    workflow is applied only when the slot still holds the very record that this
    workflow loaded or wrote itself; otherwise nothing is stored and the workflow
    that was about to commit fails with a journal conflict. *)
Theorem lost_race_stores_nothing wd i w m h' outcome :
  reachable_world rid src wd ->
  wd_processes wd !! i = Some (Proc_Send w (Some (PersistJournal m))) ->
  store (wd_history wd) m (sr_force (sw_request w)) = (h', outcome) ->
  (jcr_applied outcome = true /\ h' = (jce_replacement m, sr_force (sw_request w)) :: wd_history wd /\
   forall old, slot_of (wd_history wd) = Some old -> overwritable w old) \/
  (jcr_applied outcome = false /\ h' = wd_history wd /\
   (is_terminal (sw_stage w) = false ->
    (journal_persisted outcome w).2 = Err JournalConflict)).
Proof.
  intros Hr%reachable_world_inv Hi Hst. destruct wd as [h ps]; simpl in *.
  pose proof (send_process rid src _ _ _ _ _ Hr Hi) as Hs.
  pose proof (si_directive _ _ _ _ _ Hs m eq_refl) as Hm.
  destruct (store_spec _ _ _ _ _ Hst) as [(Happ & -> & Hexp)|[Happ ->]]; [left|right].
  - split_and!; [done|done|]. intros old Ho.
    apply persist_directive_spec in Hm as (_ & _ & _ & _ & _ & He & _ & _).
    rewrite He, Ho in Hexp. simpl in Hexp. symmetry in Hexp.
    destruct (si_version _ _ _ _ _ Hs _ Hexp) as (r & f & Hin & Hv & Hov).
    destruct (dense_head h r f _ (wi_dense _ _ _ Hr) Hin Hv) as [Hslot _].
    { by rewrite Ho. }
    rewrite Hslot in Ho. by simplify_eq.
  - split_and!; [done|done|]. intros Ht. unfold journal_persisted, apply_event, next_stage.
    monad_unfold. rewrite Happ. simpl.
    assert (transition (sw_stage w) Event_JournalConflict = Some Stage_Failed) as ->; [|done].
    by destruct (sw_stage w).
Qed.
End Claims.
