(* ===== verification/SendWitnesses.v ===== *)
(** * Concrete runs of the send path

    A wallet, a request and its signed message, driven through the reducer and
    the shared journal with the reference codec and host.  Each witness applies
    a theorem of the send path to such a run. *)

From stdpp Require Import base numbers list option strings relations.
From S2P Require Import Prelude BoundaryTypes SendDomain SendWorkflow SendReducer.
From S2P Require Import RefCodec JournalProtocol.

Definition demo_record_id : NonEmptyString := mkNonEmptyString (lit "wallet-1").
Definition demo_source : TonAddressString :=
  mkTonAddressString (lit "0:11") (mkTonAddress 0 [17%N]).
Definition demo_message : SendMessage :=
  mkSendMessage demo_source (Amount_Exact (mkUnsignedDecimalString 5)) Body_Empty false None.
Definition demo_request : SendRequest :=
  mkSendRequest (mkNonEmptyString (lit "op-1")) false
    (mkSendIntent Expiration_EngineDefault [demo_message]).
Definition demo_workflow : SendWorkflow :=
  workflow_new demo_record_id demo_source demo_request (mkProtectedSecretRef (lit "s")).
Definition demo_account : FreshSendAccount := mkFreshSendAccount Account_Active 7.
Definition demo_prepared : PreparedTransfer :=
  mkPreparedTransfer (sr_operation_id demo_request) demo_record_id demo_source Kind_External
    [demo_message] 7 false 1000 (mkBoc [1; 2; 3]%N) (mkBase64Hash (lit "hash")).

(** The calls of an ordinary send up to the first persistence directive. *)
Definition prepare_calls (record : option JournalRecord) : list ReducerCall :=
  [Call_begin; Call_journal_loaded record; Call_fresh_account_loaded demo_account;
   Call_authorization_succeeded; Call_transfer_prepared demo_prepared].

Definition drive (calls : list ReducerCall) (w : SendWorkflow) : SendWorkflow :=
  fold_left (fun w call => (run_call call w).1) calls w.

Definition demo_persisting : SendWorkflow := drive (prepare_calls None) demo_workflow.

Definition applied : JournalCompareExchangeResult := mkJournalCompareExchangeResult true None.

(** Up to the terminal record of an accepted submission. *)
Definition demo_submitted : SendWorkflow :=
  drive [Call_journal_persisted applied; Call_submission_started;
         Call_submission_succeeded None] demo_persisting.

Definition mutation_of (w : SendWorkflow) : JournalCompareExchange :=
  match persist_directive w with
  | Ok (PersistJournal m) => m
  | _ => mkJournalCompareExchange (mkJournalKey [] "") None (mkJournalRecord 0 [])
  end.

(** The first journal record, and the pending send read back from it. *)
Definition demo_record : JournalRecord := jce_replacement (mutation_of demo_persisting).

Definition demo_durable : option DurableSendRecord :=
  match decode_durable_record demo_record with Ok d => Some d | Err _ => None end.

Definition demo_pending : option PendingSendRecord :=
  match pending_send_record demo_record demo_record_id demo_source with
  | Ok p => p
  | Err _ => None
  end.

Definition demo_resolution : SendResolution :=
  Resolution_Confirmed (mkBase64Hash (lit "tx")) (mkUnsignedDecimalString 99).

Lemma drive_reachable calls w0 : fresh_workflow w0 -> reachable (drive calls w0).
Proof.
  intros Hf. exists w0. split; [done|]. clear Hf. unfold drive. revert w0.
  induction calls as [|call calls IH]; intros w0; [done|]. simpl.
  eapply rtc_l; [by exists call|apply IH].
Qed.

Lemma demo_persisting_reachable : reachable demo_persisting.
Proof. apply drive_reachable. constructor. Qed.

Lemma reachable_workflow_invariant_witness :
  sw_stage demo_persisting = Stage_PersistingPrepared /\ workflow_inv demo_persisting.
Proof.
  split; [vm_compute; reflexivity|].
  apply reachable_workflow_invariant. apply demo_persisting_reachable.
Defined.

Lemma terminal_stage_absorbing_witness :
  sw_stage (run_call Call_cancel demo_submitted).1 = Stage_Submitted.
Proof.
  transitivity (sw_stage demo_submitted); [|vm_compute; reflexivity].
  apply (terminal_stage_absorbing demo_submitted); [vm_compute; reflexivity|].
  apply rtc_once. exists Call_cancel. reflexivity.
Defined.

Lemma submit_only_after_durable_record_witness :
  sw_stage demo_persisting = Stage_PersistingPrepared /\
  exists d, decode_durable_record demo_record = Ok d /\
    dr_signed_boc d = mkBoc [1; 2; 3]%N /\ dr_stage d = Stage_ReadyToSubmit.
Proof.
  destruct (submit_only_after_durable_record demo_persisting (Call_journal_persisted applied)
    (run_call (Call_journal_persisted applied) demo_persisting).1
    (mkBoc [1; 2; 3]%N) (mkBase64Hash (lit "hash"))) as (_ & Hs & _ & _ & Hm).
  - apply demo_persisting_reachable.
  - vm_compute. reflexivity.
  - split; [exact Hs|].
    destruct (Hm (mutation_of demo_persisting)) as (_ & d & Hd & Hb & _ & Hst);
      [vm_compute; reflexivity|].
    exists d. split; [exact Hd|]. split; [exact Hb|exact Hst].
Defined.

(** A second send of the same wallet after the first one was submitted. *)
Definition demo_second : SendWorkflow := drive [Call_begin] demo_workflow.

Lemma unresolved_send_blocks_new_signature_witness :
  journal_loaded (Some demo_record) demo_second =
    (demo_second, Err PreviousSubmissionUnresolved).
Proof.
  destruct demo_durable as [d|] eqn:Hd; [|vm_compute in Hd; discriminate].
  rewrite (unresolved_send_blocks_new_signature demo_second demo_record d).
  - vm_compute in Hd. injection Hd as <-. vm_compute. reflexivity.
  - vm_compute. reflexivity.
  - unfold demo_durable in Hd. destruct (decode_durable_record demo_record); congruence.
  - vm_compute in Hd. injection Hd as <-. vm_compute. reflexivity.
Defined.

Lemma restart_restores_persisted_phase_witness :
  exists snapshot,
    send_snapshot_from_journal demo_record demo_record_id demo_source = Ok snapshot /\
    ss_phase snapshot = Phase_ReadyToSubmit.
Proof.
  destruct (restart_restores_persisted_phase demo_persisting (mutation_of demo_persisting))
    as (s & Hs & _ & Hp & _).
  - apply demo_persisting_reachable.
  - vm_compute. reflexivity.
  - exists s. split; [exact Hs|]. rewrite Hp. vm_compute. reflexivity.
Defined.

Lemma internal_errors_unreachable_witness :
  "begin"%string <> "prepared_transfer_required"%string /\
  "begin"%string <> "authorization_without_fresh_account"%string.
Proof.
  apply (internal_errors_unreachable demo_persisting Call_begin demo_persisting
           Stage_PersistingPrepared "begin"); [apply demo_persisting_reachable|].
  vm_compute. reflexivity.
Defined.

Lemma terminal_mutation_roundtrip_witness :
  exists p m, demo_pending = Some p /\
    jr_version (jce_replacement m) = 2%N /\
    terminal_send_resolution (jce_replacement m) demo_record_id demo_source
      = Ok (Some demo_resolution).
Proof.
  destruct demo_pending as [p|] eqn:Hp; [|vm_compute in Hp; discriminate].
  destruct (terminal_mutation p demo_resolution) as [[m|]|e] eqn:Hm;
    try (exfalso; vm_compute in Hp; injection Hp as <-; vm_compute in Hm; discriminate).
  exists p, m. split; [reflexivity|].
  destruct (terminal_mutation_roundtrip demo_record demo_record_id demo_source p
    demo_resolution m) as (_ & Hv & Hr & _).
  - unfold demo_pending in Hp. destruct (pending_send_record _ _ _); congruence.
  - vm_compute. reflexivity.
  - exact Hm.
  - split; [|exact Hr]. rewrite Hv. vm_compute. reflexivity.
Defined.

(** ** A shared journal *)

(** The world of one process that still has these calls behind it. *)
Definition one_process (h : list (JournalRecord * bool)) (w : SendWorkflow) : World :=
  mkWorld h [Proc_Send w (match persist_directive w with Ok d => Some d | Err _ => None end)].

(** The send is about to commit, and the same world after its compare-and-swap. *)
Definition demo_world : World := one_process [] demo_persisting.
Definition demo_committed : World :=
  mkWorld [(demo_record, false)]
    [Proc_Send (run_call (Call_journal_persisted
         (mkJournalCompareExchangeResult true (Some demo_record))) demo_persisting).1
       (directive_of (run_call (Call_journal_persisted
         (mkJournalCompareExchangeResult true (Some demo_record))) demo_persisting).2)].

Lemma demo_world_reachable : reachable_world demo_record_id demo_source demo_world.
Proof.
  eapply rtc_l; [by apply (ws_spawn _ _ [] [] demo_workflow); [constructor|..]|].
  eapply rtc_l; [by eapply (ws_local _ _ [] _ 0 _ _ Call_begin)|].
  eapply rtc_l; [by eapply (ws_load _ _ [] _ 0 _ _ None)|].
  eapply rtc_l; [by eapply (ws_local _ _ [] _ 0 _ _ (Call_fresh_account_loaded demo_account))|].
  eapply rtc_l; [by eapply (ws_local _ _ [] _ 0 _ _ Call_authorization_succeeded)|].
  eapply rtc_l; [by eapply (ws_local _ _ [] _ 0 _ _ (Call_transfer_prepared demo_prepared))|].
  vm_compute. apply rtc_refl.
Qed.

Lemma demo_committed_reachable : reachable_world demo_record_id demo_source demo_committed.
Proof.
  eapply rtc_r; [apply demo_world_reachable|].
  apply (ws_persist _ _ [] (wd_processes demo_world) 0 demo_persisting
           (mutation_of demo_persisting) [(demo_record, false)]
           (mkJournalCompareExchangeResult true (Some demo_record)));
    vm_compute; reflexivity.
Qed.

Lemma journal_never_loses_a_signed_message_witness :
  wd_history demo_committed = [(demo_record, false)] /\
  wallet_record demo_record_id demo_source demo_record /\ jr_version demo_record = 1%N.
Proof.
  destruct (journal_never_loses_a_signed_message demo_record_id demo_source demo_committed
    demo_committed_reachable) as (_ & Hd & Hw).
  split; [reflexivity|]. split.
  - apply (Hw demo_record false). apply list_elem_of_lookup. by exists 0.
  - apply (Hd 0 demo_record false). reflexivity.
Defined.

(** The commit of a workflow whose slot was filled by another process meanwhile. *)
Lemma lost_race_stores_nothing_witness :
  exists outcome, store [] (mutation_of demo_persisting) false
    = ([(demo_record, false)], outcome) /\ jcr_applied outcome = true.
Proof.
  destruct (store [] (mutation_of demo_persisting) false) as [h' outcome] eqn:Hst.
  destruct (lost_race_stores_nothing demo_record_id demo_source demo_world 0 demo_persisting
    (mutation_of demo_persisting) h' outcome) as [(Ha & Hh & _)|(Ha & _)].
  - exact demo_world_reachable.
  - vm_compute. reflexivity.
  - exact Hst.
  - exists outcome. split; [|exact Ha]. rewrite Hh. reflexivity.
  - exfalso. vm_compute in Hst. injection Hst as <- <-. vm_compute in Ha. discriminate.
Defined.

Lemma decimal_string_roundtrip_witness :
  uds_try_from (lit "18446744073709551616") = Ok (mkUnsignedDecimalString 18446744073709551616) /\
  to_decimal_string (mkUnsignedDecimalString 18446744073709551616) = lit "18446744073709551616".
Proof.
  split; [vm_compute; reflexivity|].
  apply (proj1 decimal_string_roundtrip). vm_compute. reflexivity.
Defined.

Lemma only_evidence_mutates_journal_witness :
  exists p, demo_pending = Some p /\
    terminal_mutation p (Resolution_StillPending Pending_InMempool) = Ok None /\
    exists reason,
      Resolution_StillPending Pending_InMempool = Resolution_StillPending reason.
Proof.
  destruct demo_pending as [p|] eqn:Hp; [|vm_compute in Hp; discriminate].
  exists p. split; [reflexivity|]. split; [reflexivity|].
  exact (only_evidence_mutates_journal p (Resolution_StillPending Pending_InMempool)).
Defined.
