(* ===== verification/Base64.v ===== *)
(** * Base64 values

    [src/types/base64_hash.rs] and the Base64 text of a [Boc] ([src/types/boc.rs]).
    The [base64] crate is the class [Base64Engine]. *)

From stdpp Require Import base numbers list option strings.
From S2P Require Import Prelude SendDomain.

(** The four decoders and the encoder of the [base64] crate that are used. *)
Class Base64Engine := {
  standard_decode : rstr -> option bytes;
  standard_no_pad_decode : rstr -> option bytes;
  url_safe_decode : rstr -> option bytes;
  url_safe_no_pad_decode : rstr -> option bytes;
  standard_encode : bytes -> rstr;
  standard_decode_encode data :
    Forall (fun b => b < 256)%N data -> standard_decode (standard_encode data) = Some data;
  decode_bytes s data :
    standard_decode s = Some data \/ standard_no_pad_decode s = Some data
    \/ url_safe_decode s = Some data \/ url_safe_no_pad_decode s = Some data ->
    Forall (fun b => b < 256)%N data;
  standard_encode_no_colon data : contains 58%N (standard_encode data) = false;
}.

Definition HASH_BYTES : nat := 32.

Section Hash.
Context `{Base64Engine}.

(** [Boc::to_base64]. *)
Definition boc_to_base64 (boc : Boc) : rstr := standard_encode (boc_bytes boc).

Definition base64_hash_from_bytes (data : bytes) : option Base64Hash :=
  if negb (length data =? HASH_BYTES)%nat then None
  else Some (mkBase64Hash (standard_encode data)).

Definition base64_hash_try_from (value : rstr) : option Base64Hash :=
  let data :=
    match standard_decode value with
    | Some data => Some data
    | None =>
        match standard_no_pad_decode value with
        | Some data => Some data
        | None =>
            match url_safe_decode value with
            | Some data => Some data
            | None => url_safe_no_pad_decode value
            end
        end
    end in
  data ≫= base64_hash_from_bytes.

(** Whatever alphabet and padding a hash arrived in, its stored text parses back
    to the same hash. *)
Lemma base64_hash_canonical value hash :
  base64_hash_try_from value = Some hash -> base64_hash_try_from (b64_str hash) = Some hash.
Proof.
  unfold base64_hash_try_from at 1. intros (data & Hdec & Hd)%bind_Some.
  assert (Hb : Forall (fun b => b < 256)%N data).
  { apply (decode_bytes value). repeat case_match; simplify_eq; tauto. }
  unfold base64_hash_from_bytes in Hd.
  destruct (length data =? HASH_BYTES)%nat eqn:E; [|done]. injection Hd as <-.
  unfold base64_hash_try_from. simpl. rewrite standard_decode_encode by done. simpl.
  unfold base64_hash_from_bytes. by rewrite E.
Qed.
End Hash.

(** * Reference Base64

    An executable Base64 codec with the standard and the URL-safe alphabet, with
    required and with forbidden padding, that rejects non-zero trailing bits: a
    concrete [Base64Engine] for the theorems that assume one. *)

Module B64.
Section Alphabet.
Context (c62 c63 : char).

Definition digit (n : N) : char :=
  (if n <? 26 then 65 + n
   else if n <? 52 then 71 + n
   else if n <? 62 then n - 4
   else if n =? 62 then c62
   else c63)%N.

Definition digit_value (c : char) : option N :=
  (if (65 <=? c) && (c <=? 90) then Some (c - 65)
   else if (97 <=? c) && (c <=? 122) then Some (c - 71)
   else if (48 <=? c) && (c <=? 57) then Some (c + 4)
   else if c =? c62 then Some 62
   else if c =? c63 then Some 63
   else None)%N.

Definition padding (pad : bool) (s : rstr) : rstr := if pad then s else [].

Fixpoint encode (pad : bool) (data : bytes) : rstr :=
  match data with
  | [] => []
  | [x] => [digit (x / 4); digit (x mod 4 * 16)]%N ++ padding pad [61; 61]%N
  | [x; y] =>
      [digit (x / 4); digit (x mod 4 * 16 + y / 16); digit (y mod 16 * 4)]%N
      ++ padding pad [61]%N
  | x :: y :: z :: rest =>
      digit (x / 4)%N :: digit (x mod 4 * 16 + y / 16)%N
      :: digit (y mod 16 * 4 + z / 64)%N :: digit (z mod 64)%N :: encode pad rest
  end.

Definition decode2 (a b : char) : option bytes :=
  match digit_value a, digit_value b with
  | Some a, Some b => if (b mod 16 =? 0)%N then Some [a * 4 + b / 16]%N else None
  | _, _ => None
  end.

Definition decode3 (a b c : char) : option bytes :=
  match digit_value a, digit_value b, digit_value c with
  | Some a, Some b, Some c =>
      if (c mod 4 =? 0)%N then Some [a * 4 + b / 16; b mod 16 * 16 + c / 4]%N else None
  | _, _, _ => None
  end.

Definition decode4 (a b c d : char) : option bytes :=
  match digit_value a, digit_value b, digit_value c, digit_value d with
  | Some a, Some b, Some c, Some d =>
      Some [a * 4 + b / 16; b mod 16 * 16 + c / 4; c mod 4 * 64 + d]%N
  | _, _, _, _ => None
  end.

Fixpoint decode (pad : bool) (s : rstr) : option bytes :=
  match s with
  | [] => Some []
  | [a; b] => if pad then None else decode2 a b
  | [a; b; c] => if pad then None else decode3 a b c
  | a :: b :: c :: d :: rest =>
      if pad && is_empty rest && (d =? 61)%N
      then if (c =? 61)%N then decode2 a b else decode3 a b c
      else
        match decode4 a b c d, decode pad rest with
        | Some x, Some y => Some (x ++ y)
        | _, _ => None
        end
  | _ => None
  end.

Lemma digit_value_bound c n : digit_value c = Some n -> (n < 64)%N.
Proof.
  unfold digit_value. intros H.
  repeat (match type of H with context [if ?b then _ else _] => destruct b eqn:? end);
    bool_to_prop; simplify_eq; lia.
Qed.

(** Induction three bytes, and four characters, at a time. *)
Lemma list_ind3 {A} (P : list A -> Prop) :
  P [] -> (forall x, P [x]) -> (forall x y, P [x; y]) ->
  (forall x y z l, P l -> P (x :: y :: z :: l)) -> forall l, P l.
Proof.
  intros H0 H1 H2 H3. fix IH 1. intros [|x [|y [|z l]]]; [done|apply H1|apply H2|apply H3, IH].
Qed.

Lemma list_ind4 {A} (P : list A -> Prop) :
  P [] -> (forall x, P [x]) -> (forall x y, P [x; y]) -> (forall x y z, P [x; y; z]) ->
  (forall x y z w l, P l -> P (x :: y :: z :: w :: l)) -> forall l, P l.
Proof.
  intros H0 H1 H2 H3 H4. fix IH 1.
  intros [|x [|y [|z [|w l]]]]; [done|apply H1|apply H2|apply H3|apply H4, IH].
Qed.

Lemma pieces_are_bytes a b c d :
  (a < 64)%N -> (b < 64)%N -> (c < 64)%N -> (d < 64)%N ->
  (a * 4 + b / 16 < 256 /\ b mod 16 * 16 + c / 4 < 256 /\ c mod 4 * 64 + d < 256)%N.
Proof.
  intros. assert (b / 16 < 4)%N by (apply N.Div0.div_lt_upper_bound; lia).
  assert (c / 4 < 16)%N by (apply N.Div0.div_lt_upper_bound; lia).
  pose proof (N.mod_lt b 16). pose proof (N.mod_lt c 4). lia.
Qed.

Ltac decoded_bytes :=
  repeat case_match; simplify_eq;
  repeat match goal with H : digit_value _ = Some ?n |- _ => apply digit_value_bound in H end.

Lemma decode2_bytes a b data : decode2 a b = Some data -> Forall (fun b => b < 256)%N data.
Proof.
  unfold decode2. intros H. decoded_bytes. repeat constructor. by apply (pieces_are_bytes _ _ 0 0).
Qed.

Lemma decode3_bytes a b c data : decode3 a b c = Some data -> Forall (fun b => b < 256)%N data.
Proof.
  unfold decode3. intros H. decoded_bytes.
  match goal with |- Forall _ [(?x * 4 + ?y / 16)%N; (_ + ?z / 4)%N] =>
    destruct (pieces_are_bytes x y z 0) as (? & ? & ?) end; try done. by repeat constructor.
Qed.

Lemma decode4_bytes a b c d data : decode4 a b c d = Some data -> Forall (fun b => b < 256)%N data.
Proof.
  unfold decode4. intros H. decoded_bytes.
  match goal with |- Forall _ [(?x * 4 + ?y / 16)%N; (_ + ?z / 4)%N; (_ + ?w)%N] =>
    destruct (pieces_are_bytes x y z w) as (? & ? & ?) end; try done. by repeat constructor.
Qed.

Lemma decode_is_bytes pad s data : decode pad s = Some data -> Forall (fun b => b < 256)%N data.
Proof.
  revert data. induction s as [|a|a b|a b c|a b c d s IH] using list_ind4; intros data H;
    cbn [decode] in H; [by simplify_eq|done|..].
  - destruct pad; [done|]. by eapply decode2_bytes.
  - destruct pad; [done|]. by eapply decode3_bytes.
  - case_match.
    + case_match; [by eapply decode2_bytes|by eapply decode3_bytes].
    + destruct (decode4 a b c d) eqn:E; [|done]. destruct (decode pad s) eqn:E'; [|done].
      simplify_eq. apply Forall_app. split; [by eapply decode4_bytes|by apply IH].
Qed.
(** A character that is no digit of the alphabet and no padding does not occur. *)
Lemma encode_avoids c pad data :
  (forall n, (c =? digit n)%N = false) -> (pad = true -> (c =? 61)%N = false) ->
  contains c (encode pad data) = false.
Proof.
  intros Hd Hp. assert (Hpad : forall s, Forall (eq 61%N) s -> existsb (N.eqb c) (padding pad s) = false).
  { intros s Hs. destruct pad; cbn [padding]; [|done]. induction Hs as [|x s <- _ IH]; [done|].
    cbn [existsb]. by rewrite Hp, IH. }
  unfold contains. induction data as [|x|x y|x y z data IH] using list_ind3;
    cbn [encode existsb]; [done| | |by rewrite !Hd].
  - rewrite existsb_app, Hpad by (repeat constructor). cbn [existsb]. by rewrite !Hd.
  - rewrite existsb_app, Hpad by (repeat constructor). cbn [existsb]. by rewrite !Hd.
Qed.

Context (alphabet : forallb (fun k => bool_decide (digit_value (digit (N.of_nat k)) = Some (N.of_nat k)))
                      (seq 0 64) = true).
Context (c62_not_equals : (c62 =? 61)%N = false) (c63_not_equals : (c63 =? 61)%N = false).

Lemma digit_value_digit n : (n < 64)%N -> digit_value (digit n) = Some n.
Proof.
  intros Hn. rewrite forallb_forall in alphabet. specialize (alphabet (N.to_nat n)).
  rewrite N2Nat.id in alphabet. eapply bool_decide_eq_true_1, alphabet, in_seq. lia.
Qed.

Lemma digit_not_equals n : (digit n =? 61)%N = false.
Proof.
  unfold digit.
  repeat (match goal with |- context [if ?b then _ else _] => destruct b eqn:? end);
    bool_to_prop; try done; apply N.eqb_neq; lia.
Qed.

Lemma split_byte b k : (b < 256)%N -> (0 < k)%N ->
  exists q r, (b / k = q /\ b mod k = r /\ b = k * q + r /\ r < k)%N.
Proof.
  intros _ Hk. exists (b / k)%N, (b mod k)%N. repeat split; [|apply N.mod_lt; lia].
  apply N.div_mod. lia.
Qed.

Lemma decode2_encode x :
  (x < 256)%N -> decode2 (digit (x / 4)) (digit (x mod 4 * 16)) = Some [x].
Proof.
  intros Hx. destruct (split_byte x 4 Hx) as (q & r & -> & -> & E & Hr); [lia|].
  unfold decode2. rewrite !digit_value_digit by lia.
  rewrite N.Div0.mod_mul, N.div_mul by lia. cbn [N.eqb]. do 2 f_equal. lia.
Qed.

Lemma decode3_encode x y :
  (x < 256)%N -> (y < 256)%N ->
  decode3 (digit (x / 4)) (digit (x mod 4 * 16 + y / 16)) (digit (y mod 16 * 4)) = Some [x; y].
Proof.
  intros Hx Hy. destruct (split_byte x 4 Hx) as (q & r & -> & -> & E & Hr); [lia|].
  destruct (split_byte y 16 Hy) as (q' & r' & -> & -> & E' & Hr'); [lia|].
  unfold decode3. rewrite !digit_value_digit by lia.
  rewrite N.Div0.mod_mul, N.div_mul by lia. cbn [N.eqb].
  rewrite N.div_add_l, N.div_small by lia.
  rewrite (N.add_comm (r * 16)), N.Div0.mod_add, N.mod_small by lia.
  repeat f_equal; lia.
Qed.

Lemma decode4_encode x y z :
  (x < 256)%N -> (y < 256)%N -> (z < 256)%N ->
  decode4 (digit (x / 4)) (digit (x mod 4 * 16 + y / 16)) (digit (y mod 16 * 4 + z / 64))
    (digit (z mod 64)) = Some [x; y; z].
Proof.
  intros Hx Hy Hz. destruct (split_byte x 4 Hx) as (q & r & -> & -> & E & Hr); [lia|].
  destruct (split_byte y 16 Hy) as (q' & r' & -> & -> & E' & Hr'); [lia|].
  destruct (split_byte z 64 Hz) as (q2 & r2 & -> & -> & E2 & Hr2); [lia|].
  unfold decode4. rewrite !digit_value_digit by lia.
  rewrite !N.div_add_l, !N.div_small by lia.
  rewrite (N.add_comm (r * 16)), (N.add_comm (r' * 4)), !N.Div0.mod_add, !N.mod_small by lia.
  repeat f_equal; lia.
Qed.

Lemma decode_encode pad data :
  Forall (fun b => b < 256)%N data -> decode pad (encode pad data) = Some data.
Proof.
  induction data as [|x|x y|x y z data IH] using list_ind3; intros Hd;
    rewrite ?Forall_cons_iff in Hd; destruct_and?; [done|..].
  - destruct pad; cbn [encode decode padding app is_empty andb]; rewrite ?N.eqb_refl; by apply decode2_encode.
  - destruct pad; cbn [encode decode padding app is_empty andb]; [|by apply decode3_encode].
    rewrite N.eqb_refl, digit_not_equals. by apply decode3_encode.
  - cbn [encode decode]. rewrite digit_not_equals, andb_false_r.
    by rewrite decode4_encode, IH.
Qed.

Lemma encode_no_equals data : contains 61%N (encode false data) = false.
Proof. apply encode_avoids; [|done]. intros n. rewrite N.eqb_sym. apply digit_not_equals. Qed.
End Alphabet.

End B64.

#[export, refine] Instance RefBase64 : Base64Engine := {
  standard_decode := B64.decode 43 47 true;
  standard_no_pad_decode := B64.decode 43 47 false;
  url_safe_decode := B64.decode 45 95 true;
  url_safe_no_pad_decode := B64.decode 45 95 false;
  standard_encode := B64.encode 43 47 true;
}.
Proof.
  - intros data Hd. apply B64.decode_encode; [by vm_compute|done..].
  - intros s data [H|[H|[H|H]]]; by eapply B64.decode_is_bytes.
  - intros data. apply B64.encode_avoids; [|done]. intros n. apply N.eqb_neq. unfold B64.digit.
    repeat case_match; bool_to_prop; lia.
Defined.
