(* ===== verification/ClientDomain.v ===== *)
(** * Client data: configuration, errors, snapshots and HTTP requests

    The records and enums of [src/domain] and [src/transport/http.rs] that the
    wallet client of [src/engine] keeps in its state or passes to its host, and
    the conversions from the internal activity model to the public one. *)

From stdpp Require Import base numbers list option strings gmap.
From S2P Require Import Prelude.
From S2P Require Import BoundaryTypes.
From S2P Require Import SendDomain.

(** ** Configuration ([src/domain/config.rs]) *)

Inductive Network := Mainnet | Testnet.

#[export] Instance Network_eq_dec : EqDecision Network.
Proof. solve_decision. Defined.

Record ProviderConfig := mkProviderConfig {
  pc_toncenter_base_url : rstr;
  pc_dns_root_address : option TonAddressString;
  pc_request_timeout_ms : N;
}.

Record WalletClientConfig := mkWalletClientConfig {
  cfg_record_id : NonEmptyString;
  cfg_address : TonAddressString;
  cfg_public_key : bytes;
  cfg_local_secret_ref : option ProtectedSecretRef;
  cfg_network : Network;
  cfg_send_validity_seconds : N;
  cfg_resolution_margin_seconds : N;
  cfg_providers : ProviderConfig;
}.

(** ** HTTP requests ([src/transport/http.rs]) *)

Inductive HttpMethod := Get | Post.

Record HttpRequestId := mkHttpRequestId { rid_value : N }.

#[export] Instance HttpRequestId_eq_dec : EqDecision HttpRequestId.
Proof. solve_decision. Defined.

Record HttpHeader := mkHttpHeader { hh_name : rstr; hh_value : rstr }.

Record HttpRequest := mkHttpRequest {
  hr_id : HttpRequestId;
  hr_method : HttpMethod;
  hr_url : rstr;
  hr_headers : list HttpHeader;
  hr_body : bytes;
  hr_timeout_ms : N;
}.

#[export] Instance HttpRequest_eta : Eta HttpRequest :=
  fun r => mkHttpRequest (hr_id r) (hr_method r) (hr_url r) (hr_headers r) (hr_body r)
    (hr_timeout_ms r).

Inductive HttpHostErrorKind :=
  | Host_Offline | Host_Timeout | Host_ConnectionLost | Host_Dns | Host_Tls
  | Host_PolicyViolation | Host_ResponseTooLarge | Host_Cancelled | Host_Other.

#[export] Instance HttpHostErrorKind_eq_dec : EqDecision HttpHostErrorKind.
Proof. solve_decision. Defined.

(** ** Errors and resource states ([src/domain/error.rs]) *)

Inductive ErrorCategory :=
  | Category_Transport | Category_ProviderProtocol | Category_RateLimit
  | Category_Cancellation | Category_HostPolicy.

Inductive ErrorCode :=
  | Code_InvalidProviderResponse | Code_HttpRejected | Code_RateLimited
  | Code_TransportFailed | Code_HostCancelled | Code_ResponseTooLarge
  | Code_HostPolicyViolation.

#[export] Instance ErrorCode_eq_dec : EqDecision ErrorCode.
Proof. solve_decision. Defined.

Inductive RetryAdvice := Retry_None | Retry_Safe | Retry_AfterDelay.

Record DomainError := mkDomainError {
  de_code : ErrorCode;
  de_category : ErrorCategory;
  de_retry : RetryAdvice;
  de_developer_message : rstr;
  de_provider_status : option N;
  de_retry_after_ms : option N;
  de_host_kind : option HttpHostErrorKind;
}.

Inductive ResourcePhase := Resource_Idle | Resource_Loading | Resource_Ready | Resource_Failed.

#[export] Instance ResourcePhase_eq_dec : EqDecision ResourcePhase.
Proof. solve_decision. Defined.

Record ResourceState := mkResourceState {
  rs_phase : ResourcePhase;
  rs_error : option DomainError;
}.

Definition resource_idle : ResourceState := mkResourceState Resource_Idle None.
Definition resource_loading : ResourceState := mkResourceState Resource_Loading None.
Definition resource_ready : ResourceState := mkResourceState Resource_Ready None.
Definition resource_failed (error : DomainError) : ResourceState :=
  mkResourceState Resource_Failed (Some error).

Inductive WalletClientError :=
  | InvalidLocalSecretReference
  | InvalidWalletPublicKey
  | WalletIdentityMismatch
  | InvalidProviderBaseUrl
  | InvalidSendRequest
  | NftTransferUnavailable (diagnostic : rstr)
  | NftTransferEmulationRejected (diagnostic : rstr)
  | EncryptedCommentUnavailable (diagnostic : rstr)
  | DnsResolutionUnavailable (diagnostic : rstr)
  | KeyRotationUnavailable (diagnostic : rstr)
  | LocalSigningUnavailable
  | IdentifierExhausted
  | StateUnavailable
  | SendAlreadyInProgress
  | SendPreviewAlreadyInProgress
  | Client_PreviousSubmissionUnresolved
  | WalletSeqnoNotAdvanced
  | SendAccountUnavailable (status : AccountStatus)
  | InsufficientBalance (available_nanograms requested_nanograms : UnsignedDecimalString)
  | InsufficientBalanceForFees (available_nanograms requested_nanograms
      estimated_fee_nanograms : UnsignedDecimalString)
  | InvalidProtectedSecret
  | SendPreviewFailed (diagnostic : rstr)
  | EmulationFailed (diagnostic : rstr)
  | EmulationMessageNotAccepted (diagnostic : rstr)
  | EmulationRejected (diagnostic : rstr) (compute_exit_code action_result_code : option Z)
  | SendFailed (diagnostic : rstr)
  | SubmissionUnknown (diagnostic : rstr)
  | SendCancellationTooLate
  | Shutdown
  | EncryptedCommentLookupFailed (diagnostic : rstr).

(** ** Account and activity ([src/domain/activity.rs], [src/engine/provider.rs]) *)

Record AccountSnapshot := mkAccountSnapshot {
  as_balance_nanograms : UnsignedDecimalString;
  as_status : AccountStatus;
  as_sync_utime : N;
}.

Inductive ActivityDirection := Sent | Received.

Inductive ActivityStatus := Activity_Success | Activity_Failed | Activity_Bounced.

Record ActivityItem := mkActivityItem {
  ai_id : rstr;
  ai_transaction_hash : Base64Hash;
  ai_logical_time : UnsignedDecimalString;
  ai_timestamp : N;
  ai_direction : ActivityDirection;
  ai_amount_nanograms : UnsignedDecimalString;
  ai_transaction_fee_nanograms : UnsignedDecimalString;
  ai_status : ActivityStatus;
  ai_comment : option rstr;
  ai_encrypted_comment : option Boc;
  ai_counterparty : option TonAddressString;
}.

Record ActivityCursor := mkActivityCursor {
  ac_logical_time : UnsignedDecimalString;
  ac_hash : Base64Hash;
}.

(** The numeric row kept inside the client; [BigUint] is [N]. *)
Record ActivityRecord := mkActivityRecord {
  ar_id : rstr;
  ar_transaction_hash : Base64Hash;
  ar_logical_time : N;
  ar_timestamp : N;
  ar_direction : ActivityDirection;
  ar_amount_nanograms : N;
  ar_transaction_fee_nanograms : N;
  ar_status : ActivityStatus;
  ar_comment : option rstr;
  ar_encrypted_comment : option Boc;
  ar_counterparty : option TonAddress;
}.

Record ActivityPageCursor := mkActivityPageCursor {
  apc_logical_time : N;
  apc_hash : Base64Hash;
}.

Record ActivityPage := mkActivityPage {
  ap_items : list ActivityRecord;
  ap_cursor : option ActivityPageCursor;
  ap_has_more : bool;
}.

(** The address text of the [ton] crate ([TonAddress::to_base64]): mainnet,
    bounceable and URL-safe flags. *)
Class TonAddressText := {
  to_base64 : TonAddress -> bool -> bool -> bool -> rstr;
}.

Section Portable.
Context `{TonAddressText}.

(** [TonAddressString::from_address]. *)
Definition from_address (address : TonAddress) (network : Network) : TonAddressString :=
  mkTonAddressString (to_base64 address (bool_decide (network = Mainnet)) false true) address.

Definition record_snapshot (network : Network) (self : ActivityRecord) : ActivityItem :=
  mkActivityItem (ar_id self) (ar_transaction_hash self)
    (mkUnsignedDecimalString (ar_logical_time self)) (ar_timestamp self) (ar_direction self)
    (mkUnsignedDecimalString (ar_amount_nanograms self))
    (mkUnsignedDecimalString (ar_transaction_fee_nanograms self)) (ar_status self)
    (ar_comment self) (ar_encrypted_comment self)
    ((fun address => from_address address network) <$> ar_counterparty self).
End Portable.

Definition cursor_snapshot (self : ActivityPageCursor) : ActivityCursor :=
  mkActivityCursor (mkUnsignedDecimalString (apc_logical_time self)) (apc_hash self).

(** ** NFT items ([src/domain/nft.rs]) *)

Record NftCollectionDescriptor := mkNftCollectionDescriptor {
  nc_address : TonAddressString;
  nc_name : option rstr;
  nc_description : option rstr;
  nc_image : option rstr;
  nc_content : gmap rstr rstr;
}.

Record NftItem := mkNftItem {
  nft_address : TonAddressString;
  nft_collection_address : option TonAddressString;
  nft_collection : option NftCollectionDescriptor;
  nft_owner_address : option TonAddressString;
  nft_real_owner : option TonAddressString;
  nft_sale_contract_address : option TonAddressString;
  nft_auction_contract_address : option TonAddressString;
  nft_index : UnsignedDecimalString;
  nft_last_transaction_lt : UnsignedDecimalString;
  nft_initialized : bool;
  nft_on_sale : bool;
  nft_code_hash : rstr;
  nft_data_hash : rstr;
  nft_content : gmap rstr rstr;
  nft_is_nsfw : option bool;
  nft_is_scam : option bool;
}.

(** [raw_count] is the number of provider rows ([src/engine/nft.rs]). *)
Record NftPage := mkNftPage {
  np_items : list NftItem;
  np_raw_count : N;
  np_has_more : bool;
}.

(** ** Snapshots ([src/domain/wallet.rs]) *)

Record ActivityList := mkActivityList {
  al_items : list ActivityItem;
  al_resource : ResourceState;
  al_pagination_resource : ResourceState;
  al_has_more : bool;
}.

#[export] Instance ActivityList_eta : Eta ActivityList :=
  fun l => mkActivityList (al_items l) (al_resource l) (al_pagination_resource l)
    (al_has_more l).

Record NftList := mkNftList {
  nl_items : list NftItem;
  nl_resource : ResourceState;
  nl_pagination_resource : ResourceState;
  nl_has_more : bool;
}.

#[export] Instance NftList_eta : Eta NftList :=
  fun l => mkNftList (nl_items l) (nl_resource l) (nl_pagination_resource l)
    (nl_has_more l).

Record WalletSnapshot := mkWalletSnapshot {
  ws_revision : N;
  ws_record_id : NonEmptyString;
  ws_address : TonAddressString;
  ws_network : Network;
  ws_account : option AccountSnapshot;
  ws_account_resource : ResourceState;
  ws_activity : ActivityList;
  ws_activity_cursor : option ActivityCursor;
  ws_nfts : NftList;
  ws_send : SendSnapshot;
}.

#[export] Instance WalletSnapshot_eta : Eta WalletSnapshot :=
  fun s => mkWalletSnapshot (ws_revision s) (ws_record_id s) (ws_address s) (ws_network s)
    (ws_account s) (ws_account_resource s) (ws_activity s) (ws_activity_cursor s)
    (ws_nfts s) (ws_send s).

(** [WalletSnapshot::empty]. *)
Definition snapshot_empty (config : WalletClientConfig) : WalletSnapshot :=
  mkWalletSnapshot 0 (cfg_record_id config) (cfg_address config) (cfg_network config)
    None resource_idle
    (mkActivityList [] resource_idle resource_idle false) None
    (mkNftList [] resource_idle resource_idle false)
    (mkSendSnapshot None Phase_Idle None None).

Inductive WalletOperationOutcome :=
  | Completed | PartiallyCompleted | Failed | Cancelled | Superseded | Skipped.

Record WalletUpdate := mkWalletUpdate {
  wu_outcome : WalletOperationOutcome;
  wu_activity_items_added : N;
  wu_nft_items_added : N;
  wu_snapshot : WalletSnapshot;
}.
