(* ===== verification/Json.v ===== *)
(** * JSON values and typed decoding

    The [serde_json::Value] tree, the accessors the engine uses, [str::parse] of
    the unsigned integers, and what the derived [Deserialize] of a struct accepts.
    Lexing and printing of JSON text is third-party code: the class [SerdeJson]
    stands for it. *)

From stdpp Require Import base numbers list option strings.
From S2P Require Import Prelude BoundaryTypes.

(** A JSON number: an unsigned (at most [u64_max]) or a negative 64-bit integer, or a float, of
    which only the text that [Number::to_string] prints is visible. *)
Inductive Number :=
  | PosInt (n : N)
  | NegInt (n : Z)
  | Float (text : rstr).

#[warnings="-register-all"]
Inductive Value :=
  | Null
  | Bool (b : bool)
  | Num (n : Number)
  | Str (s : rstr)
  | Array (items : list Value)
  | Object (fields : list (rstr * Value)).

(** [to_vec], the document a slice holds (members in the order of the text,
    repeated names included), [Value::to_string], and the texts of the errors that
    a typed decoding of this slice or of this value reports. *)
Class SerdeJson := {
  value_to_vec : Value -> result rstr bytes;
  document_from_slice : bytes -> result rstr Value;
  value_to_string : Value -> rstr;
  serde_error : bytes -> rstr;
  serde_value_error : Value -> rstr;
}.

(** ** Accessors *)

Fixpoint assoc_get {A} (key : rstr) (fields : list (rstr * A)) : option A :=
  match fields with
  | [] => None
  | (k, v) :: rest => if bool_decide (k = key) then Some v else assoc_get key rest
  end.

(** [Value::get] with a string key and with an index. *)
Definition value_get (key : string) (v : Value) : option Value :=
  match v with
  | Object fields => assoc_get (lit key) fields
  | _ => None
  end.

Definition value_nth (i : nat) (v : Value) : option Value :=
  match v with
  | Array items => items !! i
  | _ => None
  end.

Definition as_str (v : Value) : option rstr :=
  match v with Str s => Some s | _ => None end.

Definition as_array (v : Value) : option (list Value) :=
  match v with Array items => Some items | _ => None end.

Definition as_bool (v : Value) : option bool :=
  match v with Bool b => Some b | _ => None end.

Definition as_u64 (v : Value) : option N :=
  match v with
  | Num (PosInt n) => if (n <=? u64_max)%N then Some n else None
  | _ => None
  end.

Definition as_i64 (v : Value) : option Z :=
  match v with
  | Num (PosInt n) => if (n <=? 9223372036854775807)%N then Some (Z.of_N n) else None
  | Num (NegInt n) => Some n
  | _ => None
  end.

Definition is_null (v : Value) : bool :=
  match v with Null => true | _ => false end.

(** [json!] objects of the request builders. *)
Definition object (fields : list (string * Value)) : Value :=
  Object (map (fun '(k, v) => (lit k, v)) fields).

(** [i64::to_string] and [Number::to_string]. *)
Definition i64_to_string (n : Z) : rstr :=
  if (n <? 0)%Z then 45%N :: u64_to_string (Z.abs_N n) else u64_to_string (Z.to_N n).

Definition number_to_string (n : Number) : rstr :=
  match n with
  | PosInt n => u64_to_string n
  | NegInt n => i64_to_string n
  | Float text => text
  end.

(** ** [str::parse] of unsigned integers

    [from_str_radix]: one optional plus sign, then at least one digit. *)

Definition empty_int : rstr := lit "cannot parse integer from empty string".
Definition invalid_digit : rstr := lit "invalid digit found in string".
Definition pos_overflow : rstr := lit "number too large to fit in target type".

(** [char::to_digit]. *)
Definition to_digit (radix c : N) : option N :=
  let digit :=
    (if (48 <=? c) && (c <=? 57) then Some (c - 48)
     else if (97 <=? c) && (c <=? 122) then Some (c - 87)
     else if (65 <=? c) && (c <=? 90) then Some (c - 55)
     else None)%N in
  match digit with
  | Some d => if (d <? radix)%N then Some d else None
  | None => None
  end.

Fixpoint parse_digits (radix max acc : N) (s : rstr) : result rstr N :=
  match s with
  | [] => Ok acc
  | c :: rest =>
      match to_digit radix c with
      | None => Err invalid_digit
      | Some d =>
          if (acc * radix + d <=? max)%N then parse_digits radix max (acc * radix + d) rest
          else Err pos_overflow
      end
  end.

Definition parse_uint (radix max : N) (s : rstr) : result rstr N :=
  match s with
  | [] => Err empty_int
  | 43%N :: [] => Err invalid_digit
  | 43%N :: rest => parse_digits radix max 0 rest
  | _ => parse_digits radix max 0 s
  end.

(** ** [Value::pointer] *)

Definition pointer_index (token : rstr) : option nat :=
  match token with
  | 43%N :: _ => None
  | 48%N :: _ :: _ => None
  | _ => match parse_uint 10 u64_max token with Ok n => Some (N.to_nat n) | Err _ => None end
  end.

Fixpoint pointer (tokens : list string) (v : Value) : option Value :=
  match tokens with
  | [] => Some v
  | token :: rest =>
      let next :=
        match v with
        | Object _ => value_get token v
        | Array items => pointer_index (lit token) ≫= (fun i => items !! i)
        | _ => None
        end in
      next ≫= pointer rest
  end.

(** ** Documents and values *)

(** A later member replaces an earlier one of the same name. *)
Fixpoint last_wins {A} (fields : list (rstr * A)) : list (rstr * A) :=
  match fields with
  | [] => []
  | (k, v) :: rest =>
      if bool_decide (k ∈ map fst rest) then last_wins rest else (k, v) :: last_wins rest
  end.

Fixpoint as_value (document : Value) : Value :=
  match document with
  | Array items => Array (map as_value items)
  | Object fields => Object (last_wins (map (fun '(k, v) => (k, as_value v)) fields))
  | v => v
  end.

(** ** Derived [Deserialize]

    A struct is read from an object, in which a declared member must not occur
    twice and unknown members are skipped, or from an array with one item per
    declared field, of which only trailing ones can be missing. *)

Inductive Shape := FromMap | FromSeq.

Definition occurrences (key : rstr) (fields : list (rstr * Value)) : nat :=
  length (filter (fun field => field.1 = key) fields).

Definition struct_members (names : list string) (v : Value)
  : option (Shape * list (option Value)) :=
  match v with
  | Object fields =>
      if forallb (fun name => (occurrences (lit name) fields <=? 1)%nat) names
      then Some (FromMap, map (fun name => assoc_get (lit name) fields) names)
      else None
  | Array items =>
      if (length items <=? length names)%nat
      then Some (FromSeq, map (fun i => items !! i) (seq 0 (length names)))
      else None
  | _ => None
  end.

(** A field without attribute, and one of type [Option]: a missing member of an
    object is [None], a missing item of an array is an error. *)
Definition required {A} (decode : Value -> option A) (field : option Value) : option A :=
  field ≫= decode.

Definition nullable {A} (decode : Value -> option A) (v : Value) : option (option A) :=
  if is_null v then Some None else Some <$> decode v.

Definition optional {A} (decode : Value -> option A) (shape : Shape) (field : option Value)
  : option (option A) :=
  match field, shape with
  | Some v, _ => nullable decode v
  | None, FromMap => Some None
  | None, FromSeq => None
  end.

(** A field with [#[serde(default)]]. *)
Definition defaulted {A} (default : A) (decode : Value -> option A) (field : option Value)
  : option A :=
  match field with Some v => decode v | None => Some default end.

(** [Vec<T>]. *)
Definition decode_vec {A} (decode : Value -> option A) (v : Value) : option (list A) :=
  as_array v ≫= mapM decode.

(** A field of type [Value]. *)
Definition decode_value (v : Value) : option Value := Some (as_value v).

Section Decoding.
Context `{SerdeJson}.

(** [serde_json::from_slice::<Value>]. *)
Definition value_from_slice (body : bytes) : result rstr Value :=
  rmap as_value (document_from_slice body).

(** [serde_json::from_slice] at a derived type. *)
Definition decode_slice {A} (decode : Value -> option A) (body : bytes) : result rstr A :=
  let? document := document_from_slice body in
  ok_or (serde_error body) (decode document).

(** [serde_json::from_value] at a derived type. *)
Definition decode_from_value {A} (decode : Value -> option A) (v : Value) : result rstr A :=
  ok_or (serde_value_error v) (decode v).
End Decoding.

(** ** Bounds of parsed integers *)

Lemma parse_digits_bound radix max acc s n :
  (acc <= max)%N -> parse_digits radix max acc s = Ok n -> (n <= max)%N.
Proof.
  revert acc. induction s as [|c s IH]; simpl; intros acc Hacc E; [by simplify_eq|].
  destruct (to_digit radix c) as [d|]; [|done].
  destruct (acc * radix + d <=? max)%N eqn:Hd; [|done].
  apply (IH (acc * radix + d)%N); [by apply N.leb_le|done].
Qed.

Lemma parse_uint_bound radix max s n : parse_uint radix max s = Ok n -> (n <= max)%N.
Proof.
  assert (forall s, parse_digits radix max 0 s = Ok n -> (n <= max)%N) as Hd
    by (intros s'; apply parse_digits_bound; lia).
  unfold parse_uint. destruct s as [|c s]; [done|]. repeat case_match; try done; apply Hd.
Qed.
