(* ===== verification/ProviderRequest.v ===== *)
(** * Provider requests

    [src/transport/request.rs], the request builders of [src/engine/activity.rs],
    [src/engine/nft.rs] and [src/engine/send_http.rs].  The reference decoder
    [parse_form] of query strings is not part of the program; it states what the
    provider reads back from the built URL. *)

From stdpp Require Import base numbers list option strings gmap.
From S2P Require Import Prelude.
From S2P Require Import BoundaryTypes.
From S2P Require Import SendDomain.
From S2P Require Import Base64.
From S2P Require Import ClientDomain.
From S2P Require Import Json.

(** ** URL construction *)

Definition form_unreserved (byte : N) : bool :=
  (((65 <=? byte) && (byte <=? 90)) || ((97 <=? byte) && (byte <=? 122))
   || ((48 <=? byte) && (byte <=? 57)) || (byte =? 42) || (byte =? 45)
   || (byte =? 46) || (byte =? 95))%N.

Definition hex_digit (nibble : N) : char :=
  (if nibble <? 10 then 48 + nibble else 65 + (nibble - 10))%N.

Definition encoded_byte (byte : N) : rstr :=
  if form_unreserved byte then [byte]
  else if (byte =? 32)%N then [43%N]
  else [37%N; hex_digit (N.shiftr byte 4); hex_digit (N.land byte 15)].

Definition append_encoded_query_component (output value : rstr) : rstr :=
  output ++ flat_map encoded_byte (utf8 value).

Definition is_ascii_control (byte : N) : bool := ((byte <=? 31) || (byte =? 127))%N.

(** Bytes that would end or reinterpret the path of the configured base. *)
Definition forbidden_base_byte (byte : N) : bool :=
  is_ascii_control byte || ((byte =? 32) || (byte =? 63) || (byte =? 35) || (byte =? 92))%N.

(** [rest.split('/').next()]. *)
Definition before_slash (rest : rstr) : rstr :=
  match split_once 47 rest with Some (a, _) => a | None => rest end.

Definition base_authority (base : rstr) : option rstr :=
  before_slash <$> match strip_prefix (lit "https://") base with
                   | Some rest => Some rest
                   | None => strip_prefix (lit "http://") base
                   end.

Definition strip_slash (base : rstr) : rstr :=
  match reverse base with
  | c :: rest => if (c =? 47)%N then reverse rest else base
  | [] => base
  end.

Definition append_segment (url segment : rstr) : rstr := (url ++ [47%N]) ++ segment.

(** The body of the query loop for the pair at [index]. *)
Definition append_pair (url : rstr) (index : nat) (entry : rstr * rstr) : rstr :=
  let url := url ++ [if (index =? 0)%nat then 63%N else 38%N] in
  let url := append_encoded_query_component url entry.1 in
  let url := url ++ [61%N] in
  append_encoded_query_component url entry.2.

Fixpoint append_query (url : rstr) (index : nat) (query : list (rstr * rstr)) : rstr :=
  match query with
  | [] => url
  | entry :: rest => append_query (append_pair url index entry) (S index) rest
  end.

Definition build_provider_url (base : rstr) (path : list rstr) (query : list (rstr * rstr))
  : result WalletClientError rstr :=
  let? authority := ok_or InvalidProviderBaseUrl (base_authority base) in
  if is_empty authority
     || match authority with c :: _ => (c =? 58)%N | [] => false end
     || contains 64 authority
     || negb (forallb (fun c => (c <? 128)%N) base)
     || existsb forbidden_base_byte (utf8 base)
  then Err InvalidProviderBaseUrl
  else Ok (append_query (foldl append_segment (strip_slash base) path) 0 query).

Definition build_toncenter_url (config : WalletClientConfig) (path : list rstr)
    (query : list (rstr * rstr)) : result WalletClientError rstr :=
  build_provider_url (pc_toncenter_base_url (cfg_providers config)) path query.

Definition accept_json : HttpHeader := mkHttpHeader (lit "Accept") (lit "application/json").

Definition build_toncenter_v2_request (config : WalletClientConfig) (id : HttpRequestId)
    (path : rstr) (query : list (rstr * rstr)) : result WalletClientError HttpRequest :=
  let? url := build_toncenter_url config [lit "api"; lit "v2"; path] query in
  Ok (mkHttpRequest id Get url [accept_json] [] (pc_request_timeout_ms (cfg_providers config))).

Definition build_toncenter_v3_request (config : WalletClientConfig) (id : HttpRequestId)
    (path : rstr) (query : list (rstr * rstr)) : result WalletClientError HttpRequest :=
  let path_segments :=
    [lit "api"; lit "v3"] ++ filter (fun segment => segment <> []) (split_on 47 path) in
  let? url := build_toncenter_url config path_segments query in
  Ok (mkHttpRequest id Get url [accept_json] [] (pc_request_timeout_ms (cfg_providers config))).

(** ** Engine request builders *)

Definition address_param (config : WalletClientConfig) : rstr * rstr :=
  (lit "address", tas_value (cfg_address config)).

Definition build_account_request (config : WalletClientConfig) (id : HttpRequestId)
  : result WalletClientError HttpRequest :=
  build_toncenter_v2_request config id (lit "getAddressInformation") [address_param config].

Definition build_refresh_requests (config : WalletClientConfig)
    (account_id activity_id : HttpRequestId)
  : result WalletClientError (HttpRequest * HttpRequest) :=
  let? account := build_account_request config account_id in
  let? activity :=
    build_toncenter_v2_request config activity_id (lit "getTransactions")
      [address_param config; (lit "limit", lit "10")] in
  Ok (account, activity).

Section Builders.
Context `{BigUintText} `{SerdeJson}.

Definition build_activity_page_request (config : WalletClientConfig)
    (cursor : ActivityPageCursor) (id : HttpRequestId) : result WalletClientError HttpRequest :=
  let logical_time := biguint_to_str (apc_logical_time cursor) in
  build_toncenter_v2_request config id (lit "getTransactions")
    [address_param config; (lit "limit", lit "10"); (lit "lt", logical_time);
     (lit "hash", b64_str (apc_hash cursor))].

Definition NFT_PAGE_SIZE : N := 60%N.

Definition build_nft_page_request (config : WalletClientConfig) (id : HttpRequestId)
    (offset : N) : result WalletClientError HttpRequest :=
  build_toncenter_v3_request config id (lit "nft/items")
    [(lit "owner_address", tas_value (cfg_address config));
     (lit "limit", u64_to_string NFT_PAGE_SIZE); (lit "offset", u64_to_string offset);
     (lit "sort_by_last_transaction_lt", lit "true")].

Definition build_json_rpc_request (config : WalletClientConfig) (id : HttpRequestId)
    (rpc_method : string) (params : Value) : result WalletClientError HttpRequest :=
  let? body := map_err (fun _ => StateUnavailable)
    (value_to_vec (object [("jsonrpc", Str (lit "2.0"));
                           ("id", Str (u64_to_string (rid_value id)));
                           ("method", Str (lit rpc_method)); ("params", params)]%string)) in
  let? request := build_toncenter_v2_request config id (lit "jsonRPC") [] in
  Ok (request <| hr_method := Post |>
        <| hr_headers := hr_headers request ++
             [mkHttpHeader (lit "Content-Type") (lit "application/json")] |>
        <| hr_body := body |>).

Definition build_seqno_request (config : WalletClientConfig) (id : HttpRequestId)
  : result WalletClientError HttpRequest :=
  build_json_rpc_request config id "runGetMethod"
    (object [("address", Str (tas_value (cfg_address config)));
             ("method", Str (lit "seqno")); ("stack", Array [])]%string).

Definition build_public_key_request (config : WalletClientConfig) (id : HttpRequestId)
    (address : TonAddressString) : result WalletClientError HttpRequest :=
  build_json_rpc_request config id "runGetMethod"
    (object [("address", Str (tas_value address)); ("method", Str (lit "get_public_key"));
             ("stack", Array [])]%string).

Definition DNS_RECURSION_TTL : N := 10%N.

Definition build_dns_resolve_request (config : WalletClientConfig) (id : HttpRequestId)
    (root name : rstr) : result WalletClientError HttpRequest :=
  build_json_rpc_request config id "dnsResolve"
    (object [("address", Str root); ("name", Str name);
             ("ttl", Num (PosInt DNS_RECURSION_TTL))]%string).

Definition KEY_CHANGE_PAGE_SIZE : N := 100%N.

Definition build_key_change_request (config : WalletClientConfig) (id : HttpRequestId)
    (offset : N) : result WalletClientError HttpRequest :=
  build_toncenter_v3_request config id (lit "actions")
    [(lit "account", tas_value (cfg_address config));
     (lit "action_type", lit "change_wallet_key");
     (lit "limit", u64_to_string KEY_CHANGE_PAGE_SIZE); (lit "offset", u64_to_string offset);
     (lit "sort", lit "desc")].

Definition build_nft_item_request (config : WalletClientConfig) (id : HttpRequestId)
    (address : TonAddressString) : result WalletClientError HttpRequest :=
  build_toncenter_v3_request config id (lit "nft/items")
    [(lit "address", tas_value address); (lit "limit", lit "2"); (lit "offset", lit "0")].

(** The evidence requests of [src/engine/resolution_http.rs]. *)
Definition build_executed_by_message_request (config : WalletClientConfig)
    (id : HttpRequestId) (message_hash : Base64Hash) : result WalletClientError HttpRequest :=
  build_toncenter_v3_request config id (lit "transactionsByMessage")
    [(lit "msg_hash", b64_str message_hash); (lit "direction", lit "in");
     (lit "limit", lit "1"); (lit "offset", lit "0")].

Definition build_pending_transactions_request (config : WalletClientConfig)
    (id : HttpRequestId) : result WalletClientError HttpRequest :=
  build_toncenter_v3_request config id (lit "pendingTransactions")
    [(lit "account", tas_value (cfg_address config))].

Definition build_wallet_state_request (config : WalletClientConfig) (id : HttpRequestId)
  : result WalletClientError HttpRequest :=
  build_toncenter_v3_request config id (lit "walletStates") [address_param config].

(** A [Boc] serializes as its standard Base64 text. *)
Definition build_send_boc_request `{Base64Engine} (config : WalletClientConfig)
    (id : HttpRequestId) (boc : Boc) : result WalletClientError HttpRequest :=
  build_json_rpc_request config id "sendBoc" (object [("boc", Str (boc_to_base64 boc))]%string).
End Builders.

(** ** What the provider reads back *)

Definition hex_value (c : char) : option N :=
  (if (48 <=? c) && (c <=? 57) then Some (c - 48)
   else if (65 <=? c) && (c <=? 70) then Some (c - 55) else None)%N.

(** The inverse of form encoding on one component. *)
Fixpoint decode_form (s : rstr) : option bytes :=
  match s with
  | [] => Some []
  | c :: rest =>
      if (c =? 37)%N then
        match rest with
        | h :: l :: rest' =>
            match hex_value h, hex_value l with
            | Some h, Some l => cons (16 * h + l)%N <$> decode_form rest'
            | _, _ => None
            end
        | _ => None
        end
      else cons (if (c =? 43)%N then 32%N else c) <$> decode_form rest
  end.

Definition decode_pair (s : rstr) : option (bytes * bytes) :=
  match split_once 61 s with
  | Some (k, v) =>
      match decode_form k, decode_form v with
      | Some k, Some v => Some (k, v)
      | _, _ => None
      end
  | None => None
  end.

Definition parse_form (s : rstr) : option (list (bytes * bytes)) :=
  mapM decode_pair (split_on 38 s).

(** The path and the query of a URL, and its authority: the text after [://] up to
    the first of [/], [?], [#] and the backslash. *)
Definition url_query (url : rstr) : option rstr := snd <$> split_once 63 url.

Fixpoint until_delimiter (s : rstr) : rstr :=
  match s with
  | [] => []
  | c :: s' =>
      if ((c =? 47) || (c =? 63) || (c =? 35) || (c =? 92))%N then []
      else c :: until_delimiter s'
  end.

Fixpoint url_authority (s : rstr) : option rstr :=
  match strip_prefix (lit "://") s with
  | Some rest => Some (until_delimiter rest)
  | None => match s with [] => None | _ :: s' => url_authority s' end
  end.

(** ** Encoding lemmas *)

Lemma hex_digit_value n : (n < 16)%N -> hex_value (hex_digit n) = Some n.
Proof.
  intros Hn. unfold hex_digit, hex_value. destruct (N.ltb_spec n 10).
  - destruct (N.leb_spec 48 (48 + n)), (N.leb_spec (48 + n) 57); simpl; try lia. f_equal. lia.
  - destruct (N.leb_spec 48 (65 + (n - 10))), (N.leb_spec (65 + (n - 10)) 57),
      (N.leb_spec 65 (65 + (n - 10))), (N.leb_spec (65 + (n - 10)) 70);
      simpl; try lia; f_equal; lia.
Qed.

Lemma byte_nibbles b :
  (b < 256)%N -> (16 * N.shiftr b 4 + N.land b 15 = b /\ N.shiftr b 4 < 16 /\ N.land b 15 < 16)%N.
Proof.
  intros Hb. change 15%N with (N.ones 4). rewrite N.land_ones, N.shiftr_div_pow2.
  change (2 ^ 4)%N with 16%N. pose proof (N.div_mod b 16). pose proof (N.mod_lt b 16).
  pose proof (N.Div0.div_lt_upper_bound b 16 16). lia.
Qed.

Lemma decode_form_cons b s :
  (b < 256)%N -> decode_form (encoded_byte b ++ s) = cons b <$> decode_form s.
Proof.
  intros Hb. unfold encoded_byte. destruct (form_unreserved b) eqn:Hu.
  - unfold form_unreserved in Hu. simpl.
    destruct (N.eqb_spec b 37) as [->|_]; [done|].
    by destruct (N.eqb_spec b 43) as [->|_].
  - destruct (N.eqb_spec b 32) as [->|_]; [done|]. simpl.
    destruct (byte_nibbles b Hb) as (Hsum & Hh & Hl).
    by rewrite !hex_digit_value, Hsum by done.
Qed.

Lemma decode_form_encode bs :
  Forall (fun b => (b < 256)%N) bs -> decode_form (flat_map encoded_byte bs) = Some bs.
Proof.
  induction 1 as [|b bs Hb _ IH]; [done|]. simpl. by rewrite decode_form_cons, IH.
Qed.

(** Characters an encoded component never contains. *)
Definition delimiter (c : char) : bool :=
  ((c =? 35) || (c =? 38) || (c =? 47) || (c =? 61) || (c =? 63) || (c =? 64) || (c =? 92))%N.

Lemma hex_digit_plain n c : (n < 16)%N -> delimiter c = true -> (c =? hex_digit n)%N = false.
Proof.
  intros Hn Hc. apply N.eqb_neq. intros ->. unfold delimiter, hex_digit in Hc.
  repeat (rewrite orb_true_iff in Hc || rewrite N.eqb_eq in Hc).
  destruct (N.ltb_spec n 10); lia.
Qed.

Lemma encoded_plain c bs :
  Forall (fun b => (b < 256)%N) bs -> delimiter c = true ->
  contains c (flat_map encoded_byte bs) = false.
Proof.
  intros Hbs Hc. induction Hbs as [|b bs Hb _ IH]; [done|]. simpl.
  rewrite contains_app, IH, orb_false_r. unfold encoded_byte.
  destruct (form_unreserved b) eqn:Hu.
  - simpl. rewrite orb_false_r. apply N.eqb_neq. intros ->.
    unfold delimiter, form_unreserved in *.
    repeat (rewrite orb_true_iff in Hc || rewrite N.eqb_eq in Hc).
    destruct_or!; by subst.
  - destruct (byte_nibbles b Hb) as (_ & Hh & Hl).
    destruct (b =? 32)%N; simpl; rewrite ?hex_digit_plain by done; rewrite ?orb_false_r;
      apply N.eqb_neq; intros ->; done.
Qed.

Definition encode (s : rstr) : rstr := flat_map encoded_byte (utf8 s).

Definition encode_pair (entry : rstr * rstr) : rstr := encode entry.1 ++ 61%N :: encode entry.2.

Lemma encode_plain c s : delimiter c = true -> contains c (encode s) = false.
Proof. apply encoded_plain, utf8_bytes. Qed.

Lemma encode_pair_plain c entry :
  delimiter c = true -> c <> 61%N -> contains c (encode_pair entry) = false.
Proof.
  intros Hc Hn. unfold encode_pair. rewrite contains_app. simpl.
  rewrite !encode_plain by done. simpl. rewrite orb_false_r. by apply N.eqb_neq.
Qed.

Lemma decode_encode_pair entry :
  decode_pair (encode_pair entry) = Some (utf8 entry.1, utf8 entry.2).
Proof.
  unfold decode_pair, encode_pair. rewrite split_once_app by by apply encode_plain.
  unfold encode. by rewrite !decode_form_encode by apply utf8_bytes.
Qed.

(** The query text of a list of pairs, without its leading question mark. *)
Definition form_text (query : list (rstr * rstr)) : rstr :=
  match query with
  | [] => []
  | entry :: rest => encode_pair entry ++ flat_map (fun e => 38%N :: encode_pair e) rest
  end.

Lemma append_pair_text url index entry :
  append_pair url index entry =
    url ++ (if (index =? 0)%nat then 63%N else 38%N) :: encode_pair entry.
Proof.
  unfold append_pair, append_encoded_query_component, encode_pair. fold (encode entry.1).
  fold (encode entry.2). by rewrite <- !app_assoc.
Qed.

Lemma append_query_rest url index query :
  append_query url (S index) query = url ++ flat_map (fun e => 38%N :: encode_pair e) query.
Proof.
  revert url index. induction query as [|e rest IH]; intros url index; simpl.
  - by rewrite app_nil_r.
  - rewrite IH, append_pair_text. simpl. by rewrite <- app_assoc.
Qed.

Lemma append_query_text url query :
  append_query url 0 query = url ++ match query with [] => [] | _ => 63%N :: form_text query end.
Proof.
  destruct query as [|e rest]; simpl; [by rewrite app_nil_r|].
  rewrite append_query_rest, append_pair_text. simpl. by rewrite <- app_assoc.
Qed.

Lemma parse_form_text query :
  query <> [] ->
  parse_form (form_text query) = Some (map (fun e => (utf8 e.1, utf8 e.2)) query).
Proof.
  destruct query as [|e rest]; [done|intros _]. unfold parse_form, form_text.
  revert e. induction rest as [|e' rest IH]; intros e.
  - simpl. rewrite app_nil_r, split_on_single by by apply encode_pair_plain. simpl.
    by rewrite decode_encode_pair.
  - simpl. rewrite split_on_app by by apply encode_pair_plain. simpl.
    rewrite decode_encode_pair. simpl. specialize (IH e'). simpl in IH. by rewrite IH.
Qed.

Lemma foldl_segments base path :
  foldl append_segment base path = base ++ flat_map (fun s => 47%N :: s) path.
Proof.
  revert base. induction path as [|s path IH]; intros base; simpl; [by rewrite app_nil_r|].
  rewrite IH. unfold append_segment. by rewrite <- !app_assoc.
Qed.

(** ** The accepted base *)

#[local] Arguments N.eqb : simpl never.

Lemma ascii_utf8 s : forallb (fun c => (c <? 128)%N) s = true -> utf8 s = s.
Proof.
  induction s as [|c s IH]; [done|]. simpl. intros [Hc Hs]%andb_true_iff.
  unfold utf8_char. rewrite Hc. simpl. by rewrite IH.
Qed.

Lemma strip_slash_app p rest : rest <> [] -> strip_slash (p ++ rest) = p ++ strip_slash rest.
Proof.
  intros Hne. unfold strip_slash. rewrite reverse_app.
  destruct (reverse rest) as [|c r] eqn:E.
  - by apply (f_equal reverse) in E; rewrite reverse_involutive in E.
  - simpl. destruct (c =? 47)%N; [|done]. rewrite reverse_app. by rewrite reverse_involutive.
Qed.

Lemma strip_slash_cases s : strip_slash s = s \/ s = strip_slash s ++ [47%N].
Proof.
  unfold strip_slash. destruct (reverse s) as [|c r] eqn:E; [by left|].
  destruct (N.eqb_spec c 47) as [->|]; [right|by left].
  apply (f_equal reverse) in E. rewrite reverse_involutive, reverse_cons in E. done.
Qed.

Lemma contains_existsb c s (p : N -> bool) :
  existsb p s = false -> p c = true -> contains c s = false.
Proof.
  intros Hs Hp. induction s as [|x s IH]; [done|]. simpl in *.
  apply orb_false_iff in Hs as [Hx Hs]. rewrite IH, orb_false_r by done.
  apply N.eqb_neq. intros ->. by rewrite Hx in Hp.
Qed.

Lemma strip_slash_contains c s : contains c s = false -> contains c (strip_slash s) = false.
Proof.
  intros Hc. destruct (strip_slash_cases s) as [->|E]; [done|].
  rewrite E, contains_app in Hc. by apply orb_false_iff in Hc as [? _].
Qed.

(** What acceptance of a base URL establishes. *)
Lemma build_provider_url_ok base path query url :
  build_provider_url base path query = Ok url ->
  exists scheme rest,
    (scheme = lit "https://" \/ scheme = lit "http://") /\
    base = scheme ++ rest /\ base_authority base = Some (before_slash rest) /\
    before_slash rest <> [] /\ contains 64 (before_slash rest) = false /\
    contains 63 base = false /\ contains 35 base = false /\ contains 92 base = false /\
    url = (strip_slash base ++ flat_map (fun s => 47%N :: s) path)
            ++ match query with [] => [] | _ => 63%N :: form_text query end.
Proof.
  unfold build_provider_url. intros (authority & Hau%ok_or_ok & H)%rbind_ok.
  destruct (_ || _) eqn:Hg in H; [done|]. injection H as <-.
  rewrite append_query_text, foldl_segments. bool_to_prop.
  assert (contains 63 base = false /\ contains 35 base = false /\ contains 92 base = false)
    as (? & ? & ?).
  { match goal with H : existsb _ _ = false |- _ => rewrite ascii_utf8 in H by done end.
    by split_and!; eapply contains_existsb. }
  assert (authority <> []) by (intros ->; done).
  pose proof Hau as Hau'. unfold base_authority in Hau.
  destruct (strip_prefix (lit "https://") base) as [rest|] eqn:E;
    [|destruct (strip_prefix (lit "http://") base) as [rest|] eqn:E'; [|done]];
    injection Hau as <-.
  - apply strip_prefix_Some in E. exists (lit "https://"), rest. split_and!; eauto.
  - apply strip_prefix_Some in E'. exists (lit "http://"), rest. split_and!; eauto.
Qed.

Lemma until_delimiter_slash rest tail :
  contains 63 rest = false -> contains 35 rest = false -> contains 92 rest = false ->
  (tail = [] \/ exists c t, tail = c :: t /\ (c = 47%N \/ c = 63%N)) ->
  until_delimiter (rest ++ tail) = before_slash rest.
Proof.
  intros H1 H2 H3 Ht. unfold before_slash. induction rest as [|c rest IH]; simpl in *.
  - destruct Ht as [->|(c & t & -> & [-> | ->])]; done.
  - apply orb_false_iff in H1 as [Hc1 H1], H2 as [Hc2 H2], H3 as [Hc3 H3].
    rewrite (N.eqb_sym c 63), (N.eqb_sym c 35), (N.eqb_sym c 92), Hc1, Hc2, Hc3, !orb_false_r.
    destruct (c =? 47)%N; [done|]. rewrite IH by done.
    by destruct (split_once 47 rest) as [[? ?]|].
Qed.

Lemma url_authority_scheme scheme rest :
  scheme = lit "https://" \/ scheme = lit "http://" ->
  url_authority (scheme ++ rest) = Some (until_delimiter rest).
Proof. by intros [-> | ->]. Qed.

(** ** Claims *)

(** The query parameters survive the trip to the provider: splitting the
    built URL at its question mark gives the configured base and the path
    segments, and form-decoding the rest gives exactly the UTF-8 bytes of the
    keys and values that the caller passed, in order. *)
Theorem provider_url_query_roundtrip base path query url :
  build_provider_url base path query = Ok url ->
  forallb (fun segment => negb (contains 63 segment)) path = true ->
  query <> [] ->
  exists q,
    split_once 63 url = Some (strip_slash base ++ flat_map (fun s => 47%N :: s) path, q) /\
    parse_form q = Some (map (fun e => (utf8 e.1, utf8 e.2)) query).
Proof.
  intros (_ & _ & _ & _ & _ & _ & _ & Hq & _ & _ & ->)%build_provider_url_ok Hp Hne.
  exists (form_text query). split; [|by apply parse_form_text].
  destruct query as [|e rest]; [done|]. apply split_once_app.
  rewrite contains_app, strip_slash_contains by done. simpl.
  induction path as [|s path IH]; [done|]. simpl in *.
  apply andb_true_iff in Hp as [Hs%negb_true_iff Hp].
  by rewrite contains_app, Hs, IH.
Qed.

(** No path, parameter or configured base can move a request to another
    host: the authority of every built URL is the authority of the configured
    base, it is not empty and it contains no user information, and the scheme is
    that of the base, HTTP or HTTPS. *)
Theorem provider_url_keeps_authority base path query url :
  build_provider_url base path query = Ok url ->
  exists authority,
    base_authority base = Some authority /\ authority <> [] /\
    contains 64 authority = false /\ url_authority url = Some authority /\
    (strip_prefix (lit "https://") url <> None <-> strip_prefix (lit "https://") base <> None).
Proof.
  intros (scheme & rest & Hsc & -> & Hau & Hne & Hat & H1 & H2 & H3 & ->)%build_provider_url_ok.
  exists (before_slash rest). split_and!; try done.
  all: assert (rest <> []) as Hr by (by intros ->).
  all: rewrite strip_slash_app, <- !app_assoc by done.
  - rewrite url_authority_scheme by done. f_equal.
    rewrite contains_app in H1, H2, H3.
    apply orb_false_iff in H1 as [_ H1], H2 as [_ H2], H3 as [_ H3].
    set (tail := flat_map _ path ++ _).
    assert (tail = [] \/ exists c t, tail = c :: t /\ (c = 47%N \/ c = 63%N)) as Ht.
    { unfold tail. destruct path as [|s path]; [|right; simpl; eauto].
      destruct query; [by left|right; simpl; eauto]. }
    destruct (strip_slash_cases rest) as [->|E]; [by apply until_delimiter_slash|].
    transitivity (until_delimiter (strip_slash rest ++ [47%N])).
    + rewrite !until_delimiter_slash by
        (by try apply strip_slash_contains; try (right; eexists _, _; split; [done|by left])).
      done.
    + rewrite <- E. rewrite <- (app_nil_r rest) at 1.
      apply until_delimiter_slash; try done. by left.
  - destruct Hsc as [-> | ->]; simpl; done.
Qed.
