(* ===== verification/ProviderAnswers.v ===== *)
(** * Provider answers

    The parsers of [src/engine/provider.rs] (accounts), [src/engine/send_http.rs]
    and [src/engine/resolution_http.rs]. *)

From stdpp Require Import base numbers list option strings.
From S2P Require Import Prelude BoundaryTypes SendDomain Base64 ClientDomain Json.

(** ** Errors *)

(** [invalid_response] of [provider.rs] and [resolution_http.rs], [invalid_json] of
    [send_http.rs]: the three are the same function. *)
Definition invalid_response (message : rstr) : DomainError :=
  mkDomainError Code_InvalidProviderResponse Category_ProviderProtocol Retry_None
    (bounded_diagnostic message) None None None.

(** ** Envelopes ([src/engine/provider.rs]) *)

Record RawEnvelope := mkRawEnvelope {
  re_ok : bool;
  re_result : option Value;
  re_error : option Value;
  re_description : option rstr;
  re_code : option Value;
}.

Definition decode_RawEnvelope (v : Value) : option RawEnvelope :=
  match struct_members ["ok"; "result"; "error"; "description"; "code"] v with
  | Some (shape, [ok; result; error; description; code]) =>
      ok ← required as_bool ok;
      result ← optional decode_value shape result;
      error ← optional decode_value shape error;
      description ← optional as_str shape description;
      code ← optional decode_value shape code;
      Some (mkRawEnvelope ok result error description code)
  | _ => None
  end.

Definition provider_code (value : Value) : option N :=
  match as_u64 value ≫= (fun n => if (n <=? u16_max)%N then Some n else None) with
  | Some n => Some n
  | None =>
      s ← as_str value;
      match parse_uint 10 u16_max s with Ok n => Some n | Err _ => None end
  end.

Definition value_message (value : Value) : option rstr :=
  match as_str value with
  | Some s => Some s
  | None => i64_to_string <$> as_i64 value
  end.

Definition provider_envelope_error (envelope : RawEnvelope) : DomainError :=
  let status := re_code envelope ≫= provider_code in
  let developer_message :=
    match re_error envelope ≫= value_message with
    | Some message => message
    | None => default (lit "provider rejected request") (re_description envelope)
    end in
  if bool_decide (status = Some 429%N)
  then mkDomainError Code_RateLimited Category_RateLimit Retry_Safe
         (bounded_diagnostic developer_message) status None None
  else mkDomainError Code_HttpRejected Category_ProviderProtocol
         (if match status with Some value => (500 <=? value)%N | None => false end
          then Retry_Safe else Retry_None)
         (bounded_diagnostic developer_message) status None None.

Section Answers.
Context `{SerdeJson} `{BigUintText} `{Base64Engine}.

Definition decode_envelope {T} (decode : Value -> option T) (body : bytes)
  : result DomainError T :=
  let? envelope := map_err invalid_response (decode_slice decode_RawEnvelope body) in
  if negb (re_ok envelope) then Err (provider_envelope_error envelope)
  else
    let? result :=
      ok_or (invalid_response (lit "missing provider result")) (re_result envelope) in
    map_err invalid_response (decode_from_value decode result).

(** ** Accounts *)

Record Account := mkAccount {
  acc_balance : Value;
  acc_state : rstr;
  acc_sync_utime : N;
}.

Definition decode_Account (v : Value) : option Account :=
  match struct_members ["balance"; "state"; "sync_utime"] v with
  | Some (_, [balance; state; sync_utime]) =>
      balance ← required decode_value balance;
      state ← defaulted [] as_str state;
      sync_utime ← required as_u64 sync_utime;
      Some (mkAccount balance state sync_utime)
  | _ => None
  end.

Definition parse_unsigned_decimal (value : Value) (field : string) : result DomainError N :=
  let not_unsigned := invalid_response (lit field ++ lit " is not an unsigned decimal") in
  match value with
  | Str value => ok_or not_unsigned (biguint_from_str value)
  | Num value => ok_or not_unsigned (biguint_from_str (number_to_string value))
  | Null | Bool _ | Array _ | Object _ =>
      Err (invalid_response (lit field ++ lit " is not a decimal value"))
  end.

Definition account_status (state : rstr) : AccountStatus :=
  if bool_decide (state = lit "nonexist") || bool_decide (state = lit "nonexistent")
  then Account_Nonexistent
  else if bool_decide (state = lit "uninit") || bool_decide (state = lit "uninitialized")
  then Account_Uninitialized
  else if bool_decide (state = lit "active") then Account_Active
  else if bool_decide (state = lit "frozen") then Account_Frozen
  else Account_Unknown.

Definition parse_account (body : bytes) : result DomainError AccountSnapshot :=
  let? account := decode_envelope decode_Account body in
  let? balance := parse_unsigned_decimal (acc_balance account) "account balance" in
  Ok (mkAccountSnapshot (mkUnsignedDecimalString balance) (account_status (acc_state account))
        (acc_sync_utime account)).

(** ** Sequence numbers and submission ([src/engine/send_http.rs]) *)

(** The number of a stack entry, [["num", "0x7"]] or
    [{"type": "num", "value": "0x7"}]. *)
Definition stack_number (value : Value) : option rstr :=
  match as_array value ≫= (fun items =>
          match items with
          | [kind; value] => if bool_decide (as_str kind = Some (lit "num")) then as_str value
                             else None
          | _ => None
          end) with
  | Some encoded => Some encoded
  | None =>
      if bool_decide (value_get "type" value ≫= as_str = Some (lit "num"))
      then value_get "value" value ≫= as_str
      else None
  end.

Definition parse_seqno (body : bytes) : result DomainError N :=
  let? value := map_err invalid_response (value_from_slice body) in
  match value_get "error" value with
  | Some error => Err (invalid_response (value_to_string error))
  | None =>
      let? first :=
        ok_or (invalid_response (lit "missing seqno stack"))
          (pointer ["result"; "stack"; "0"] value) in
      let? encoded := ok_or (invalid_response (lit "invalid seqno value")) (stack_number first) in
      match strip_prefix (lit "0x") encoded with
      | Some hex => map_err invalid_response (parse_uint 16 u32_max hex)
      | None => map_err invalid_response (parse_uint 10 u32_max encoded)
      end
  end.

Inductive SendBocResponse :=
  | Accepted
  | Rejected (message : rstr).

(** The first member of [value] among these that is a string. *)
Fixpoint first_text (keys : list string) (value : Value) : option rstr :=
  match keys with
  | [] => None
  | key :: rest =>
      match value_get key value ≫= as_str with
      | Some text => Some text
      | None => first_text rest value
      end
  end.

Definition json_error_message (value : Value) : rstr :=
  let message :=
    match first_text ["message"; "error"; "description"] value with
    | Some text => text
    | None => default (value_to_string value) (as_str value)
    end in
  bounded_diagnostic message.

Definition parse_send_response (body : bytes) : result DomainError SendBocResponse :=
  let? value := map_err invalid_response (value_from_slice body) in
  match value_get "error" value ≫= (fun error => if is_null error then None else Some error) with
  | Some error => Ok (Rejected (json_error_message error))
  | None =>
      if bool_decide (value_get "ok" value ≫= as_bool = Some false)
      then Ok (Rejected (json_error_message value))
      else if bool_decide (pointer ["result"; "@type"] value ≫= as_str = Some (lit "ok"))
      then Ok Accepted
      else Err (invalid_response (lit "invalid sendBoc success response"))
  end.

(** ** Resolution evidence ([src/engine/resolution_http.rs]) *)

Record ExecutedMessage := mkExecutedMessage {
  em_transaction_hash : Base64Hash;
  em_transaction_lt : UnsignedDecimalString;
}.

Record Message := mkMessage {
  msg_hash : option rstr;
  msg_hash_norm : option rstr;
}.

Record Transaction := mkTransaction {
  tx_hash : rstr;
  tx_lt : Value;
  tx_in_msg : option Message;
}.

Definition decode_Message (v : Value) : option Message :=
  match struct_members ["hash"; "hash_norm"] v with
  | Some (_, [hash; hash_norm]) =>
      hash ← defaulted None (nullable as_str) hash;
      hash_norm ← defaulted None (nullable as_str) hash_norm;
      Some (mkMessage hash hash_norm)
  | _ => None
  end.

Definition decode_Transaction (v : Value) : option Transaction :=
  match struct_members ["hash"; "lt"; "in_msg"] v with
  | Some (_, [hash; lt; in_msg]) =>
      hash ← required as_str hash;
      lt ← required decode_value lt;
      in_msg ← defaulted None (nullable decode_Message) in_msg;
      Some (mkTransaction hash lt in_msg)
  | _ => None
  end.

Definition decode_TransactionsResponse (v : Value) : option (list Transaction) :=
  match struct_members ["transactions"] v with
  | Some (_, [transactions]) => defaulted [] (decode_vec decode_Transaction) transactions
  | _ => None
  end.

(** [WalletState] has one field, [seqno]. *)
Definition decode_WalletState (v : Value) : option (option Value) :=
  match struct_members ["seqno"] v with
  | Some (_, [seqno]) => defaulted None (nullable decode_value) seqno
  | _ => None
  end.

Definition decode_WalletStatesResponse (v : Value) : option (list (option Value)) :=
  match struct_members ["wallets"] v with
  | Some (_, [wallets]) => defaulted [] (decode_vec decode_WalletState) wallets
  | _ => None
  end.

Definition parse_hash (value : rstr) (field : string) : result DomainError Base64Hash :=
  ok_or (invalid_response (lit "invalid " ++ lit field)) (base64_hash_try_from value).

(** [parse_u32] and [parse_u64_string] differ in the width. *)
Definition parse_integer (max : N) (value : Value) (field : string) : result DomainError N :=
  let invalid := invalid_response (lit "invalid " ++ lit field) in
  match value with
  | Num (PosInt n) => if (n <=? max)%N then Ok n else Err invalid
  | Num _ => Err invalid
  | Str value => map_err (fun _ => invalid) (parse_uint 10 max value)
  | Null | Bool _ | Array _ | Object _ => Err invalid
  end.

Definition parse_u32 : Value -> string -> result DomainError N := parse_integer u32_max.

Definition parse_u64_string (value : Value) (field : string)
  : result DomainError UnsignedDecimalString :=
  rmap uds_from_u64 (parse_integer u64_max value field).

Definition parse_executed_message (body : bytes) : result DomainError (option ExecutedMessage) :=
  let? transactions :=
    map_err invalid_response (decode_slice decode_TransactionsResponse body) in
  match transactions with
  | [] => Ok None
  | transaction :: _ =>
      let? hash := parse_hash (tx_hash transaction) "transaction hash" in
      let? lt := parse_u64_string (tx_lt transaction) "transaction logical time" in
      Ok (Some (mkExecutedMessage hash lt))
  end.

Definition message_matches (expected_hash : Base64Hash) (message : Message) : bool :=
  existsb (fun candidate => bool_decide (base64_hash_try_from candidate = Some expected_hash))
    (omap id [msg_hash message; msg_hash_norm message]).

Definition parse_pending_message (body : bytes) (expected_hash : Base64Hash)
  : result DomainError bool :=
  let? transactions :=
    map_err invalid_response (decode_slice decode_TransactionsResponse body) in
  Ok (existsb (message_matches expected_hash) (omap tx_in_msg transactions)).

Definition parse_wallet_seqno (body : bytes) : result DomainError N :=
  let? wallets := map_err invalid_response (decode_slice decode_WalletStatesResponse body) in
  let? seqno :=
    ok_or (invalid_response (lit "walletStates did not return the configured wallet"))
      (head wallets) in
  let? seqno :=
    ok_or (invalid_response (lit "walletStates did not include seqno")) seqno in
  parse_u32 seqno "wallet seqno".
End Answers.

Definition is_explicit_send_rejection (error : DomainError) : bool :=
  match de_provider_status error with
  | Some status =>
      existsb (N.eqb status) [400; 401; 403; 404; 405; 413; 422; 429]%N
  | None => false
  end.
