(* ===== verification/ClientState.v ===== *)
(** * The client state and its lock sections

    [src/engine/state.rs] and every critical section of the wallet client: each
    definition is the code between one [self.lock()] and the release of the
    guard, as a method on [State].  A mutation made before an early return
    survives the error, exactly as it does behind the mutex.  The futures that
    string the sections together leave the mutex between them, so any other
    section can run there.

    A [oneshot] channel is the number of its sender; a sender that leaves
    [st_waiters] has either been fired or dropped, and both wake its receiver. *)

From stdpp Require Import base numbers list option strings gmap.
From S2P Require Import Prelude.
From S2P Require Import BoundaryTypes.
From S2P Require Import SendDomain.
From S2P Require Import SendWorkflow.
From S2P Require Import ClientDomain.
From S2P Require Import Json.
From S2P Require Import ProviderRequest.

(** ** State ([src/engine/state.rs]) *)

Inductive OperationFamily :=
  | Refresh | Pagination | NftRefresh | NftPagination | Preview | Send | Resolution.

#[export] Instance OperationFamily_eq_dec : EqDecision OperationFamily.
Proof. solve_decision. Defined.

Record KeyChange := mkKeyChange {
  kc_new_public_key : bytes;
  kc_encrypted_old_private_key : bytes;
}.

Record State := mkState {
  st_config : WalletClientConfig;
  st_snapshot : WalletSnapshot;
  st_activity : list ActivityRecord;
  st_activity_cursor : option ActivityPageCursor;
  st_activity_has_more : bool;
  st_nft_offset : N;
  st_nfts_has_more : bool;
  st_key_changes : option (list KeyChange);
  st_next_id : N;
  st_refresh_generation : N;
  st_pagination_generation : N;
  st_nft_refresh_generation : N;
  st_nft_pagination_generation : N;
  st_preview_generation : N;
  st_send_generation : N;
  st_resolution_generation : N;
  st_active_refresh : option (N * list HttpRequestId);
  st_active_pagination : option (N * HttpRequestId);
  st_active_nft_refresh : option (N * HttpRequestId);
  st_active_nft_pagination : option (N * HttpRequestId);
  st_active_preview : option (N * list HttpRequestId);
  st_active_send : option (N * list HttpRequestId);
  st_active_resolution : option (N * list HttpRequestId);
  st_send_commit_started : bool;
  st_send_workflow : option SendWorkflow;
  st_waiters : list (N * nat);
  st_shutdown : bool;
  st_closing : bool;
}.

#[export] Instance State_eta : Eta State :=
  fun s => mkState (st_config s) (st_snapshot s) (st_activity s) (st_activity_cursor s)
    (st_activity_has_more s) (st_nft_offset s) (st_nfts_has_more s) (st_key_changes s)
    (st_next_id s) (st_refresh_generation s) (st_pagination_generation s)
    (st_nft_refresh_generation s) (st_nft_pagination_generation s)
    (st_preview_generation s) (st_send_generation s) (st_resolution_generation s)
    (st_active_refresh s) (st_active_pagination s) (st_active_nft_refresh s)
    (st_active_nft_pagination s) (st_active_preview s) (st_active_send s)
    (st_active_resolution s) (st_send_commit_started s) (st_send_workflow s)
    (st_waiters s) (st_shutdown s) (st_closing s).

(** A lock section. *)
Definition section (A : Type) : Type := method State WalletClientError A.

Definition allocate_request_id : section HttpRequestId :=
  let! self := mget in
  let id := st_next_id self in
  let! next := mlift (ok_or IdentifierExhausted (checked_add u64_max (st_next_id self) 1)) in
  do! mupdate (fun s => s <| st_next_id := next |>);
  mret (mkHttpRequestId id).

(** The listeners that a new [revision] does not wake. *)
Definition still_waiting (revision : N) (waiters : list (N * nat)) : list (N * nat) :=
  filter (fun waiter => ~ (waiter.1 < revision)%N) waiters.

Definition next_revision : section unit :=
  let! self := mget in
  let! revision :=
    mlift (ok_or IdentifierExhausted (checked_add u64_max (ws_revision (st_snapshot self)) 1)) in
  do! mupdate (fun s => s <| st_snapshot ; ws_revision := revision |>);
  mupdate (fun s => s <| st_waiters := still_waiting revision (st_waiters s) |>).

Definition is_generation {A} (active : option (N * A)) (generation : N) : bool :=
  match active with Some (g, _) => (g =? generation)%N | None => false end.

Definition is_current (family : OperationFamily) (generation : N) (self : State) : bool :=
  match family with
  | Refresh => is_generation (st_active_refresh self) generation
  | Pagination => is_generation (st_active_pagination self) generation
  | NftRefresh => is_generation (st_active_nft_refresh self) generation
  | NftPagination => is_generation (st_active_nft_pagination self) generation
  | Preview => is_generation (st_active_preview self) generation
  | Send => is_generation (st_active_send self) generation
  | Resolution => is_generation (st_active_resolution self) generation
  end.

Definition ensure_running (state : State) : result WalletClientError unit :=
  if st_closing state || st_shutdown state then Err Shutdown else Ok tt.

Definition wallet_update (outcome : WalletOperationOutcome) (added : N) (state : State)
  : WalletUpdate := mkWalletUpdate outcome added 0 (st_snapshot state).

Definition nft_update (outcome : WalletOperationOutcome) (added : N) (state : State)
  : WalletUpdate := mkWalletUpdate outcome 0 added (st_snapshot state).

(** The checked increment of a generation counter that starts an operation. *)
Definition bump (counter : State -> N) `{!Updater counter} : section N :=
  let! self := mget in
  let! generation := mlift (ok_or IdentifierExhausted (checked_add u64_max (counter self) 1)) in
  do! mupdate (fun s => s <| counter := generation |>);
  mret generation.

Definition running : section State :=
  let! state := mget in
  do! mlift (ensure_running state);
  mret state.

(** ** Construction, waiting and shutdown ([src/engine/client.rs]) *)

(** [validate_config] ([src/engine/validation.rs]). *)
Definition validate_config (config : WalletClientConfig) : result WalletClientError unit :=
  if match cfg_local_secret_ref config with
     | Some secret_ref => is_empty (trim (psr_value secret_ref))
     | None => false
     end
  then Err InvalidLocalSecretReference
  else if negb (length (cfg_public_key config) =? 32)%nat then Err InvalidWalletPublicKey
  else Ok tt.

Definition with_transport (config : WalletClientConfig) : result WalletClientError State :=
  let? _ := validate_config config in
  Ok (mkState config (snapshot_empty config) [] None false 0 false None 1
        0 0 0 0 0 0 0 None None None None None None None false None [] false false).

(** The first section of [wait_for_change]: the newer snapshot, or the receiver
    of a new [sender] to await. *)
Definition wait_for_change (after_revision : N) (sender : nat)
  : section (WalletSnapshot + nat) :=
  let! state := mget in
  if st_closing state || st_shutdown state then mthrow Shutdown
  else if (after_revision <? ws_revision (st_snapshot state))%N
  then mret (inl (st_snapshot state))
  else
    do! mupdate (fun s => s <| st_waiters := st_waiters s ++ [(after_revision, sender)] |>);
    mret (inr sender).

(** Its last section, after the receiver was woken. *)
Definition wait_for_change_woken : section WalletSnapshot :=
  let! state := mget in
  if st_shutdown state then mthrow Shutdown else mret (st_snapshot state).

Definition mark_loading_cancelled (resource : ResourceState) : ResourceState :=
  if bool_decide (rs_phase resource = Resource_Loading) then resource_idle else resource.

Definition request_ids_of (active : option (N * list HttpRequestId)) : list HttpRequestId :=
  match active with Some (_, ids) => ids | None => [] end.

Definition request_id_of (active : option (N * HttpRequestId)) : list HttpRequestId :=
  match active with Some (_, id) => [id] | None => [] end.

Definition has_active_work (state : State) : bool :=
  bool_decide (is_Some (st_active_refresh state))
  || bool_decide (is_Some (st_active_pagination state))
  || bool_decide (is_Some (st_active_nft_refresh state))
  || bool_decide (is_Some (st_active_nft_pagination state))
  || bool_decide (is_Some (st_active_preview state))
  || bool_decide (is_Some (st_active_send state))
  || bool_decide (is_Some (st_active_resolution state)).

Section Codec.
Context `{JournalCodec}.

(** Cancels the published workflow of a send whose slot was just taken. *)
Definition cancel_published_send (s : State) : State :=
  let s :=
    match st_send_workflow s with
    | Some workflow =>
        let workflow := (cancel workflow).1 in
        s <| st_snapshot ; ws_send := workflow_snapshot workflow |>
          <| st_send_workflow := Some workflow |>
    | None => s
    end in
  s <| st_snapshot ; ws_send ; ss_phase := Phase_Cancelled |>.

(** The slots that [prepare_shutdown] empties, in its order. *)
Definition take_refresh (s : State) : State :=
  match st_active_refresh s with
  | Some _ =>
      s <| st_active_refresh := None |>
        <| st_snapshot ; ws_account_resource :=
             mark_loading_cancelled (ws_account_resource (st_snapshot s)) |>
        <| st_snapshot ; ws_activity ; al_resource :=
             mark_loading_cancelled (al_resource (ws_activity (st_snapshot s))) |>
  | None => s
  end.

Definition take_pagination (s : State) : State :=
  match st_active_pagination s with
  | Some _ => s <| st_active_pagination := None |>
                <| st_snapshot ; ws_activity ; al_pagination_resource := resource_idle |>
  | None => s
  end.

Definition take_nft_refresh (s : State) : State :=
  match st_active_nft_refresh s with
  | Some _ => s <| st_active_nft_refresh := None |>
                <| st_snapshot ; ws_nfts ; nl_resource :=
                     mark_loading_cancelled (nl_resource (ws_nfts (st_snapshot s))) |>
  | None => s
  end.

Definition take_nft_pagination (s : State) : State :=
  match st_active_nft_pagination s with
  | Some _ => s <| st_active_nft_pagination := None |>
                <| st_snapshot ; ws_nfts ; nl_pagination_resource := resource_idle |>
  | None => s
  end.

Definition take_send (s : State) : State :=
  match st_active_send s with
  | Some _ => cancel_published_send (s <| st_active_send := None |>)
  | None => s
  end.

(** All slots, one after the other. *)
Definition take_all (s : State) : State :=
  let s := take_refresh s in
  let s := take_pagination s in
  let s := take_nft_refresh s in
  let s := take_nft_pagination s in
  let s := s <| st_active_preview := None |> in
  let s := take_send s in
  let s := s <| st_active_resolution := None |> in
  s <| st_send_commit_started := false |>.

Definition prepare_shutdown : section (list HttpRequestId * list (N * nat)) :=
  let! state := mget in
  let has_active_work := has_active_work state in
  if has_active_work && (ws_revision (st_snapshot state) =? u64_max)%N
  then mthrow IdentifierExhausted
  else
    let request_ids :=
      request_ids_of (st_active_refresh state) ++ request_id_of (st_active_pagination state)
      ++ request_id_of (st_active_nft_refresh state)
      ++ request_id_of (st_active_nft_pagination state)
      ++ request_ids_of (st_active_preview state) ++ request_ids_of (st_active_send state)
      ++ request_ids_of (st_active_resolution state) in
    do! mupdate take_all;
    do! (if has_active_work then next_revision else mret tt);
    do! mupdate (fun s => s <| st_shutdown := true |>);
    let! state := mget in
    let waiters := st_waiters state in
    do! mupdate (fun s => s <| st_waiters := [] |>);
    mret (request_ids, waiters).

Inductive ShutdownAction :=
  | Shutdown_Done
  | Shutdown_Wait (receiver : nat)
  | Shutdown_Finish (request_ids : list HttpRequestId) (waiters : list (N * nat)).

(** One turn of the loop of [shutdown]. *)
Definition shutdown_turn (sender : nat) : section ShutdownAction :=
  let! state := mget in
  if st_shutdown state then mret Shutdown_Done
  else
    do! mupdate (fun s => s <| st_closing := true |>);
    if bool_decide (is_Some (st_active_send state)) && st_send_commit_started state
    then
      let revision := ws_revision (st_snapshot state) in
      do! mupdate (fun s => s <| st_waiters := st_waiters s ++ [(revision, sender)] |>);
      mret (Shutdown_Wait sender)
    else
      let! finish := prepare_shutdown in
      mret (Shutdown_Finish finish.1 finish.2).

(** [cancel_send] ([src/engine/send.rs]). *)
Definition cancel_send : section (list HttpRequestId) :=
  let! state := mget in
  if bool_decide (is_Some (st_active_send state)) && st_send_commit_started state
  then mthrow SendCancellationTooLate
  else
    let active := st_active_send state in
    do! mupdate (fun s => s <| st_active_send := None |>);
    do! mupdate (fun s => s <| st_send_commit_started := false |>);
    do! match active with
        | Some _ => do! mupdate cancel_published_send; next_revision
        | None => mret tt
        end;
    mret (request_ids_of active).
End Codec.

(** ** Activity ([src/engine/activity.rs], [src/engine/refresh.rs]) *)

Definition PAGE_SIZE : N := 10%N.

(** [Ordering::then_with]. *)
Definition then_with (c : comparison) (next : comparison) : comparison :=
  match c with Eq => next | _ => c end.

Definition activity_record_order (left right : ActivityRecord) : comparison :=
  then_with
    (then_with (ar_logical_time right ?= ar_logical_time left)%N
       (ar_timestamp right ?= ar_timestamp left)%N)
    (str_cmp (ar_id left) (ar_id right)).

(** [slice::sort_by] with this comparison: a stable sort. *)
Fixpoint insert_record (item : ActivityRecord) (l : list ActivityRecord)
  : list ActivityRecord :=
  match l with
  | [] => [item]
  | x :: rest =>
      match activity_record_order item x with
      | Gt => x :: insert_record item rest
      | _ => item :: l
      end
  end.

Fixpoint sort_records (l : list ActivityRecord) : list ActivityRecord :=
  match l with
  | [] => []
  | x :: rest => insert_record x (sort_records rest)
  end.

(** The [HashMap] keyed by row identifier: [insert] replaces the row of an
    identifier, [into_values] lists one row per identifier.  The listing order of
    the map is not specified; [merge_rows_order] in the proofs shows that it has
    no influence on the sorted result. *)
Definition rows_by_id (items : list ActivityRecord) : gmap rstr ActivityRecord :=
  foldl (fun by_id item => <[ar_id item := item]> by_id) ∅ items.

Definition merge_rows (old new : list ActivityRecord) : list ActivityRecord :=
  sort_records (map snd (map_to_list (rows_by_id (old ++ new)))).

Section Rows.
Context `{TonAddressText}.

Definition sync_activity_snapshot (s : State) : State :=
  let network := cfg_network (st_config s) in
  s <| st_snapshot ; ws_activity ; al_items := map (record_snapshot network) (st_activity s) |>
    <| st_snapshot ; ws_activity_cursor := cursor_snapshot <$> st_activity_cursor s |>
    <| st_snapshot ; ws_activity ; al_has_more := st_activity_has_more s |>.

(** Whether a page moves to an older logical time. *)
Definition page_advances (state : State) (page : ActivityPage) : bool :=
  match st_activity_cursor state, ap_cursor page with
  | Some previous, Some next => (apc_logical_time next <? apc_logical_time previous)%N
  | _, _ => false
  end.

(** [u64::try_from] of a [usize] cannot fail on the supported targets. *)
Definition apply_activity_page (page : ActivityPage) (s : State) : State * N :=
  if negb (page_advances s page)
  then (sync_activity_snapshot (s <| st_activity_has_more := false |>), 0%N)
  else
    let previous_len := length (st_activity s) in
    let s := s <| st_activity := merge_rows (st_activity s) (ap_items page) |>
               <| st_activity_cursor := ap_cursor page |>
               <| st_activity_has_more := ap_has_more page |> in
    (sync_activity_snapshot s, N.of_nat (length (st_activity s) - previous_len)).

Definition apply_refreshed_activity_page (page : ActivityPage) (s : State) : State :=
  if is_empty (st_activity s) then
    sync_activity_snapshot
      (s <| st_activity := ap_items page |>
         <| st_activity_cursor := ap_cursor page |>
         <| st_activity_has_more := ap_has_more page |>)
  else sync_activity_snapshot (s <| st_activity := merge_rows (st_activity s) (ap_items page) |>).

Inductive RefreshValue :=
  | Refresh_Account (value : result DomainError AccountSnapshot)
  | Refresh_Activity (value : result DomainError ActivityPage).

Definition start_refresh : section (N * (HttpRequest * HttpRequest) * list HttpRequestId) :=
  let! state := running in
  let config := st_config state in
  let! account_id := allocate_request_id in
  let! activity_id := allocate_request_id in
  let! requests := mlift (build_refresh_requests config account_id activity_id) in
  let! generation := bump st_refresh_generation in
  let! state := mget in
  let previous_request_ids :=
    request_ids_of (st_active_refresh state) ++ request_id_of (st_active_pagination state) in
  do! mupdate (fun s => s <| st_active_refresh := Some (generation, [account_id; activity_id]) |>);
  do! mupdate (fun s => s <| st_active_pagination := None |>);
  do! mupdate (fun s => s <| st_snapshot ; ws_account_resource := resource_loading |>);
  do! mupdate (fun s => s <| st_snapshot ; ws_activity ; al_resource := resource_loading |>);
  do! mupdate (fun s =>
    s <| st_snapshot ; ws_activity ; al_pagination_resource := resource_idle |>);
  do! next_revision;
  mret (generation, requests, previous_request_ids).

Definition publish_refresh_component (generation : N) (value : RefreshValue) : section unit :=
  let! state := mget in
  if negb (is_current Refresh generation state) then mret tt
  else
    do! match value with
        | Refresh_Account (Ok account) =>
            do! mupdate (fun s => s <| st_snapshot ; ws_account := Some account |>);
            mupdate (fun s => s <| st_snapshot ; ws_account_resource := resource_ready |>)
        | Refresh_Account (Err error) =>
            mupdate (fun s => s <| st_snapshot ; ws_account_resource := resource_failed error |>)
        | Refresh_Activity (Ok page) =>
            do! mupdate (apply_refreshed_activity_page page);
            mupdate (fun s => s <| st_snapshot ; ws_activity ; al_resource := resource_ready |>)
        | Refresh_Activity (Err error) =>
            mupdate (fun s =>
              s <| st_snapshot ; ws_activity ; al_resource := resource_failed error |>)
        end;
    next_revision.

Definition finish_refresh (generation : N) : section WalletUpdate :=
  let! state := mget in
  if negb (is_current Refresh generation state) then mret (wallet_update Superseded 0 state)
  else
    do! mupdate (fun s => s <| st_active_refresh := None |>);
    let! state := mget in
    let failed :=
      length (filter (fun resource => rs_phase resource = Resource_Failed)
                [ws_account_resource (st_snapshot state);
                 al_resource (ws_activity (st_snapshot state))]) in
    let outcome :=
      match failed with 0%nat => Completed | 2%nat => Failed | _ => PartiallyCompleted end in
    mret (wallet_update outcome 0 state).

Definition cancel_refresh : section (list HttpRequestId) :=
  let! state := mget in
  let request_ids := request_ids_of (st_active_refresh state) in
  do! mupdate (fun s => s <| st_active_refresh := None |>);
  if is_empty request_ids then mret request_ids
  else
    do! mupdate (fun s => s <| st_snapshot ; ws_account_resource :=
          mark_loading_cancelled (ws_account_resource (st_snapshot s)) |>);
    do! mupdate (fun s => s <| st_snapshot ; ws_activity ; al_resource :=
          mark_loading_cancelled (al_resource (ws_activity (st_snapshot s))) |>);
    do! next_revision;
    mret request_ids.

(** [inl] is the update returned without a request. *)
Definition start_load_more_activity `{BigUintText}
  : section (WalletUpdate + N * HttpRequest) :=
  let! state := running in
  if bool_decide (is_Some (st_active_refresh state))
     || bool_decide (is_Some (st_active_pagination state))
     || negb (st_activity_has_more state)
  then mret (inl (wallet_update Skipped 0 state))
  else
    match st_activity_cursor state with
    | None => mret (inl (wallet_update Skipped 0 state))
    | Some cursor =>
        let! id := allocate_request_id in
        let! request := mlift (build_activity_page_request (st_config state) cursor id) in
        let! generation := bump st_pagination_generation in
        do! mupdate (fun s => s <| st_active_pagination := Some (generation, id) |>);
        do! mupdate (fun s =>
          s <| st_snapshot ; ws_activity ; al_pagination_resource := resource_loading |>);
        do! next_revision;
        mret (inr (generation, request))
    end.

Definition finish_load_more_activity (generation : N) (page : result DomainError ActivityPage)
  : section WalletUpdate :=
  let! state := mget in
  if negb (is_current Pagination generation state)
  then mret (wallet_update Superseded 0 state)
  else
    do! mupdate (fun s => s <| st_active_pagination := None |>);
    let! outcome_added :=
      match page with
      | Ok page =>
          let! state := mget in
          let added := (apply_activity_page page state).2 in
          do! mupdate (fun s => (apply_activity_page page s).1);
          do! mupdate (fun s =>
            s <| st_snapshot ; ws_activity ; al_pagination_resource := resource_ready |>);
          mret (Completed, added)
      | Err error =>
          if bool_decide (de_code error = Code_HostCancelled) then
            do! mupdate (fun s =>
              s <| st_snapshot ; ws_activity ; al_pagination_resource := resource_idle |>);
            mret (Cancelled, 0%N)
          else
            do! mupdate (fun s => s <| st_snapshot ; ws_activity ; al_pagination_resource :=
                  resource_failed error |>);
            mret (Failed, 0%N)
      end in
    do! next_revision;
    let! state := mget in
    mret (wallet_update outcome_added.1 outcome_added.2 state).

Definition cancel_load_more_activity : section (list HttpRequestId) :=
  let! state := mget in
  let request_id := request_id_of (st_active_pagination state) in
  do! mupdate (fun s => s <| st_active_pagination := None |>);
  if is_empty request_id then mret request_id
  else
    do! mupdate (fun s =>
      s <| st_snapshot ; ws_activity ; al_pagination_resource := resource_idle |>);
    do! next_revision;
    mret request_id.
End Rows.

(** ** NFT pages ([src/engine/nft.rs]) *)

(** The iterator [filter(|item| seen.insert(address))]. *)
Fixpoint retain_unseen (seen : gset rstr) (items : list NftItem) : list NftItem :=
  match items with
  | [] => []
  | item :: rest =>
      let key := tas_value (nft_address item) in
      if decide (key ∈ seen) then retain_unseen seen rest
      else item :: retain_unseen ({[key]} ∪ seen) rest
  end.

Definition deduplicate_nfts (items : list NftItem) : list NftItem := retain_unseen ∅ items.

Definition apply_refreshed_nft_page (page : NftPage) (s : State) : State :=
  s <| st_snapshot ; ws_nfts ; nl_items := deduplicate_nfts (np_items page) |>
    <| st_nft_offset := np_raw_count page |>
    <| st_nfts_has_more := np_has_more page |>
    <| st_snapshot ; ws_nfts ; nl_has_more := np_has_more page |>.

Definition apply_nft_page (page : NftPage) (s : State) : State * N :=
  let previous := nl_items (ws_nfts (st_snapshot s)) in
  let seen : gset rstr := list_to_set (map (fun item => tas_value (nft_address item)) previous) in
  let items := previous ++ retain_unseen seen (np_items page) in
  (s <| st_snapshot ; ws_nfts ; nl_items := items |>
     <| st_nft_offset := saturating_add u64_max (st_nft_offset s) (np_raw_count page) |>
     <| st_nfts_has_more := np_has_more page |>
     <| st_snapshot ; ws_nfts ; nl_has_more := np_has_more page |>,
   N.of_nat (length items - length previous)).

Definition start_refresh_nfts : section (N * HttpRequest * list HttpRequestId * Network) :=
  let! state := running in
  let! id := allocate_request_id in
  let! request := mlift (build_nft_page_request (st_config state) id 0) in
  let! generation := bump st_nft_refresh_generation in
  let! state := mget in
  let previous_request_ids :=
    request_id_of (st_active_nft_refresh state)
    ++ request_id_of (st_active_nft_pagination state) in
  do! mupdate (fun s => s <| st_active_nft_refresh := Some (generation, id) |>);
  do! mupdate (fun s => s <| st_active_nft_pagination := None |>);
  do! mupdate (fun s => s <| st_snapshot ; ws_nfts ; nl_resource := resource_loading |>);
  do! mupdate (fun s => s <| st_snapshot ; ws_nfts ; nl_pagination_resource := resource_idle |>);
  do! next_revision;
  mret (generation, request, previous_request_ids, cfg_network (st_config state)).

Definition finish_refresh_nfts (generation : N) (page : result DomainError NftPage)
  : section WalletUpdate :=
  let! state := mget in
  if negb (is_current NftRefresh generation state)
  then mret (nft_update Superseded 0 state)
  else
    do! mupdate (fun s => s <| st_active_nft_refresh := None |>);
    let! outcome :=
      match page with
      | Ok page =>
          do! mupdate (apply_refreshed_nft_page page);
          do! mupdate (fun s => s <| st_snapshot ; ws_nfts ; nl_resource := resource_ready |>);
          mret Completed
      | Err error =>
          if bool_decide (de_code error = Code_HostCancelled) then
            do! mupdate (fun s => s <| st_snapshot ; ws_nfts ; nl_resource := resource_idle |>);
            mret Cancelled
          else
            do! mupdate (fun s =>
              s <| st_snapshot ; ws_nfts ; nl_resource := resource_failed error |>);
            mret Failed
      end in
    do! next_revision;
    let! state := mget in
    mret (nft_update outcome 0 state).

Definition cancel_refresh_nfts : section (list HttpRequestId) :=
  let! state := mget in
  let request_id := request_id_of (st_active_nft_refresh state) in
  do! mupdate (fun s => s <| st_active_nft_refresh := None |>);
  if is_empty request_id then mret request_id
  else
    do! mupdate (fun s => s <| st_snapshot ; ws_nfts ; nl_resource := resource_idle |>);
    do! next_revision;
    mret request_id.

Definition start_load_more_nfts : section (WalletUpdate + N * HttpRequest * Network) :=
  let! state := running in
  if bool_decide (is_Some (st_active_nft_refresh state))
     || bool_decide (is_Some (st_active_nft_pagination state))
     || negb (st_nfts_has_more state)
  then mret (inl (nft_update Skipped 0 state))
  else
    let! id := allocate_request_id in
    let! request := mlift (build_nft_page_request (st_config state) id (st_nft_offset state)) in
    let! generation := bump st_nft_pagination_generation in
    do! mupdate (fun s => s <| st_active_nft_pagination := Some (generation, id) |>);
    do! mupdate (fun s =>
      s <| st_snapshot ; ws_nfts ; nl_pagination_resource := resource_loading |>);
    do! next_revision;
    mret (inr (generation, request, cfg_network (st_config state))).

Definition finish_load_more_nfts (generation : N) (page : result DomainError NftPage)
  : section WalletUpdate :=
  let! state := mget in
  if negb (is_current NftPagination generation state)
  then mret (nft_update Superseded 0 state)
  else
    do! mupdate (fun s => s <| st_active_nft_pagination := None |>);
    let! outcome_added :=
      match page with
      | Ok page =>
          let! state := mget in
          let added := (apply_nft_page page state).2 in
          do! mupdate (fun s => (apply_nft_page page s).1);
          do! mupdate (fun s =>
            s <| st_snapshot ; ws_nfts ; nl_pagination_resource := resource_ready |>);
          mret (Completed, added)
      | Err error =>
          if bool_decide (de_code error = Code_HostCancelled) then
            do! mupdate (fun s =>
              s <| st_snapshot ; ws_nfts ; nl_pagination_resource := resource_idle |>);
            mret (Cancelled, 0%N)
          else
            do! mupdate (fun s =>
              s <| st_snapshot ; ws_nfts ; nl_pagination_resource := resource_failed error |>);
            mret (Failed, 0%N)
      end in
    do! next_revision;
    let! state := mget in
    mret (nft_update outcome_added.1 outcome_added.2 state).

Definition cancel_load_more_nfts : section (list HttpRequestId) :=
  let! state := mget in
  let request_id := request_id_of (st_active_nft_pagination state) in
  do! mupdate (fun s => s <| st_active_nft_pagination := None |>);
  if is_empty request_id then mret request_id
  else
    do! mupdate (fun s => s <| st_snapshot ; ws_nfts ; nl_pagination_resource := resource_idle |>);
    do! next_revision;
    mret request_id.

(** ** Send previews ([src/engine/preview.rs]) *)

(** The guards and the generation with which every preview starts. *)
Definition reserve_preview : section (N * WalletClientConfig) :=
  let! state := running in
  if bool_decide (is_Some (st_active_send state)) then mthrow SendAlreadyInProgress
  else if bool_decide (is_Some (st_active_preview state)) then mthrow SendPreviewAlreadyInProgress
  else
    let! generation := bump st_preview_generation in
    mret (generation, st_config state).

Record PreviewReservation := mkPreviewReservation {
  pv_generation : N;
  pv_config : WalletClientConfig;
  pv_account_request : HttpRequest;
  pv_seqno_request : HttpRequest;
  pv_emulation_request_id : HttpRequestId;
}.

(** The first section of [preview_send] and of [preview_send_boc]. *)
Definition start_preview `{SerdeJson} : section PreviewReservation :=
  let! reserved := reserve_preview in
  let generation := reserved.1 in
  let config := reserved.2 in
  let! account_id := allocate_request_id in
  let! account_request := mlift (build_account_request config account_id) in
  let! seqno_id := allocate_request_id in
  let! seqno_request := mlift (build_seqno_request config seqno_id) in
  let! emulation_request_id := allocate_request_id in
  do! mupdate (fun s => s <| st_active_preview := Some (generation, []) |>);
  mret (mkPreviewReservation generation config account_request seqno_request
          emulation_request_id).

(** The first section of [preview_sign_message]. *)
Definition start_preview_sign_message : section (N * WalletClientConfig * HttpRequest) :=
  let! reserved := reserve_preview in
  let generation := reserved.1 in
  let config := reserved.2 in
  let! account_id := allocate_request_id in
  let! account_request := mlift (build_account_request config account_id) in
  do! mupdate (fun s => s <| st_active_preview := Some (generation, []) |>);
  mret (generation, config, account_request).

Definition cancel_send_preview : section (list HttpRequestId) :=
  let! state := running in
  do! mupdate (fun s => s <| st_active_preview := None |>);
  mret (request_ids_of (st_active_preview state)).

Definition finish_preview (generation : N) : section unit :=
  let! state := mget in
  if is_current Preview generation state
  then mupdate (fun s => s <| st_active_preview := None |>)
  else if st_shutdown state then mthrow Shutdown
  else mthrow StateUnavailable.

Definition start_preview_request (generation : N) (request_id : HttpRequestId) : section unit :=
  let! state := running in
  match st_active_preview state with
  | None => mthrow StateUnavailable
  | Some (active_generation, request_ids) =>
      if negb (active_generation =? generation)%N then mthrow StateUnavailable
      else mupdate (fun s =>
        s <| st_active_preview := Some (active_generation, request_ids ++ [request_id]) |>)
  end.

Definition finish_preview_request (generation : N) (request_id : HttpRequestId)
  : section unit :=
  let! state := running in
  match st_active_preview state with
  | None => mthrow StateUnavailable
  | Some (active_generation, request_ids) =>
      if negb (active_generation =? generation)%N then mthrow StateUnavailable
      else mupdate (fun s =>
        s <| st_active_preview :=
               Some (active_generation, filter (fun active => active <> request_id) request_ids) |>)
  end.

(** ** Sends ([src/engine/send.rs], [send_boc.rs], [sign_message.rs], [send_state.rs]) *)

Record SendReservation := mkSendReservation {
  sv_generation : N;
  sv_config : WalletClientConfig;
  sv_account_request : HttpRequest;
  sv_seqno_request : HttpRequest;
  sv_resolution_request_ids : list HttpRequestId;
  sv_submit_request_id : option HttpRequestId;
  sv_journal_key : JournalKey;
  sv_workflow : SendWorkflow;
}.

Definition busy (state : State) : bool :=
  bool_decide (is_Some (st_active_send state)) || bool_decide (is_Some (st_active_resolution state)).

Definition local_secret (state : State) : result WalletClientError ProtectedSecretRef :=
  ok_or LocalSigningUnavailable (cfg_local_secret_ref (st_config state)).

(** The four resolver requests get their identifiers in one array expression. *)
Definition allocate_four : section (list HttpRequestId) :=
  let! a := allocate_request_id in
  let! b := allocate_request_id in
  let! c := allocate_request_id in
  let! d := allocate_request_id in
  mret [a; b; c; d].

(** Everything between the single-flight guard and the publication of the new
    workflow, shared by the three send entry points.  [with_submit] reserves the
    submission request, which a message that is only handed off does not need. *)
Definition reserve_send `{SerdeJson} (with_submit : bool)
    (make_workflow : WalletClientConfig -> SendWorkflow) : section SendReservation :=
  let! state := mget in
  if busy state then mthrow SendAlreadyInProgress
  else
    let! generation := bump st_send_generation in
    let config := st_config state in
    let! account_id := allocate_request_id in
    let! account_request := mlift (build_account_request config account_id) in
    let! seqno_id := allocate_request_id in
    let! seqno_request := mlift (build_seqno_request config seqno_id) in
    let! resolution_request_ids := allocate_four in
    let! submit_request_id :=
      (if with_submit then let! id := allocate_request_id in mret (Some id) else mret None) in
    let workflow_directive := begin_send (make_workflow config) in
    let workflow := workflow_directive.1 in
    let! directive := mlift (map_err (fun _ => InvalidSendRequest) workflow_directive.2) in
    match directive with
    | LoadJournal journal_key =>
        do! mupdate (fun s => s <| st_active_send := Some (generation, []) |>);
        do! mupdate (fun s => s <| st_send_commit_started := false |>);
        do! mupdate (fun s => s <| st_snapshot ; ws_send := workflow_snapshot workflow |>);
        do! mupdate (fun s => s <| st_send_workflow := Some workflow |>);
        do! next_revision;
        mret (mkSendReservation generation config account_request seqno_request
                resolution_request_ids submit_request_id journal_key workflow)
    | _ => mthrow StateUnavailable
    end.

Definition start_send `{SerdeJson} (request : SendRequest) : section SendReservation :=
  let! state := running in
  let! local_secret_ref := mlift (local_secret state) in
  reserve_send true (fun config =>
    workflow_new (cfg_record_id config) (cfg_address config) request local_secret_ref).

Definition start_sign_message `{SerdeJson} (send_request : SendRequest)
  : section SendReservation :=
  let! state := running in
  let! local_secret_ref := mlift (local_secret state) in
  reserve_send false (fun config =>
    new_internal (cfg_record_id config) (cfg_address config) send_request local_secret_ref).

Definition start_send_boc `{SerdeJson} (operation_id : NonEmptyString) (force : bool)
    (valid_until : N) : section SendReservation :=
  do! running;
  reserve_send true (fun config =>
    new_prepared_external (cfg_record_id config) (cfg_address config) operation_id force
      valid_until).

Definition publish_prior_send_resolution (generation : N) (snapshot : SendSnapshot)
  : section unit :=
  let! state := mget in
  if negb (is_current Send generation state) then mthrow StateUnavailable
  else
    do! mupdate (fun s => s <| st_snapshot ; ws_send := snapshot |>);
    next_revision.

Definition block_send_for_pending (generation : N) (snapshot : SendSnapshot)
  : section WalletClientError :=
  let! state := mget in
  if negb (is_current Send generation state) then mthrow StateUnavailable
  else
    do! mupdate (fun s => s <| st_active_send := None |>);
    do! mupdate (fun s => s <| st_send_commit_started := false |>);
    do! mupdate (fun s => s <| st_send_workflow := None |>);
    do! mupdate (fun s => s <| st_snapshot ; ws_send := snapshot |>);
    do! next_revision;
    mret Client_PreviousSubmissionUnresolved.

(** [fail_send] and [mark_send_unknown] differ in the published phase only. *)
Definition end_send (phase : SendPhase) (generation : N) (message : rstr) : section unit :=
  let! state := mget in
  if is_current Send generation state then
    do! mupdate (fun s => s <| st_active_send := None |>);
    do! mupdate (fun s => s <| st_send_commit_started := false |>);
    do! mupdate (fun s => s <| st_snapshot ; ws_send ; ss_phase := phase |>);
    do! mupdate (fun s => s <| st_snapshot ; ws_send ; ss_error_message :=
                             Some (bounded_diagnostic message) |>);
    next_revision
  else mret tt.

Definition fail_send : N -> rstr -> section unit := end_send Phase_Failed.

Definition mark_send_unknown : N -> rstr -> section unit := end_send Phase_SubmissionUnknown.

(** A method that returns an error value instead of failing. *)
Definition or_own_error (m : section unit) (error : WalletClientError)
  : State -> State * WalletClientError :=
  fun s =>
    match m s with
    | (s', Ok _) => (s', error)
    | (s', Err own) => (s', own)
    end.

Definition send_failed_error (generation : N) (message : rstr)
  : State -> State * WalletClientError :=
  let diagnostic := bounded_diagnostic message in
  or_own_error (fail_send generation diagnostic) (SendFailed diagnostic).

Definition submission_unknown_error (generation : N) (message : rstr)
  : State -> State * WalletClientError :=
  let diagnostic := bounded_diagnostic message in
  or_own_error (mark_send_unknown generation diagnostic) (SubmissionUnknown diagnostic).

(** [thiserror]'s [Display] of the workflow errors; [debug] prints a variant name
    ([{:?}]) and is a parameter. *)
Definition workflow_error_text (debug : SendStage + AccountStatus -> rstr)
    (error : SendWorkflowError) : rstr :=
  match error with
  | InvalidTransition from event =>
      lit "invalid send transition from " ++ debug (inl from) ++ lit ": " ++ lit event
  | PreparedTransferMismatch => lit "prepared transfer does not match the active send request"
  | JournalConflict => lit "send journal was changed by another operation"
  | PreviousSubmissionUnresolved => lit "the previous submission outcome is unresolved"
  | AccountUnavailable status =>
      lit "wallet account state " ++ debug (inr status) ++ lit " does not permit sending"
  | InvalidJournal reason => lit "send journal record is invalid: " ++ reason
  end.

Definition public_workflow_error (diagnostic : rstr) (error : SendWorkflowError)
  : WalletClientError :=
  match error with
  | JournalConflict => SendAlreadyInProgress
  | PreviousSubmissionUnresolved => Client_PreviousSubmissionUnresolved
  | AccountUnavailable status => SendAccountUnavailable status
  | InvalidTransition _ _ | PreparedTransferMismatch | InvalidJournal _ => SendFailed diagnostic
  end.

Definition send_workflow_error (debug : SendStage + AccountStatus -> rstr) (generation : N)
    (error : SendWorkflowError) : State -> State * WalletClientError :=
  let diagnostic := bounded_diagnostic (workflow_error_text debug error) in
  or_own_error (fail_send generation diagnostic) (public_workflow_error diagnostic error).

Definition begin_send_commit (generation : N) : section unit :=
  let! state := mget in
  if st_shutdown state then mthrow Shutdown
  else if negb (is_current Send generation state) then mthrow StateUnavailable
  else mupdate (fun s => s <| st_send_commit_started := true |>).

Definition ensure_current_send (generation : N) : section unit :=
  let! state := mget in
  if st_shutdown state then mthrow Shutdown
  else if negb (is_current Send generation state) then mthrow StateUnavailable
  else mret tt.

Definition publish_send_workflow (generation : N) (workflow : SendWorkflow) : section unit :=
  let! state := mget in
  if negb (is_current Send generation state) then mthrow StateUnavailable
  else
    do! mupdate (fun s => s <| st_snapshot ; ws_send := workflow_snapshot workflow |>);
    do! mupdate (fun s => s <| st_send_workflow := Some workflow |>);
    next_revision.

Definition start_send_request (generation : N) (request_id : HttpRequestId) : section unit :=
  let! state := mget in
  if st_shutdown state then mthrow Shutdown
  else
    match st_active_send state with
    | None => mthrow StateUnavailable
    | Some (active_generation, request_ids) =>
        if negb (active_generation =? generation)%N then mthrow StateUnavailable
        else mupdate (fun s =>
          s <| st_active_send := Some (active_generation, request_ids ++ [request_id]) |>)
    end.

Definition finish_send_request (generation : N) (request_id : HttpRequestId) : section unit :=
  let! state := mget in
  if st_shutdown state then mthrow Shutdown
  else
    match st_active_send state with
    | None => mthrow StateUnavailable
    | Some (active_generation, request_ids) =>
        if negb (active_generation =? generation)%N then mthrow StateUnavailable
        else mupdate (fun s =>
          s <| st_active_send :=
                 Some (active_generation, filter (fun active => active <> request_id) request_ids) |>)
    end.

(** The last section of [submit_prepared_send] and of [sign_message]. *)
Definition complete_send (generation : N) (workflow : SendWorkflow) : section unit :=
  let! state := mget in
  if is_current Send generation state then
    do! mupdate (fun s => s <| st_snapshot ; ws_send := workflow_snapshot workflow |>);
    do! mupdate (fun s => s <| st_send_workflow := Some workflow |>);
    do! mupdate (fun s => s <| st_active_send := None |>);
    do! mupdate (fun s => s <| st_send_commit_started := false |>);
    next_revision
  else mret tt.

(** ** The resolution slot

    Standalone resolution, DNS lookup, key rotation, transfer preparation and
    encrypted comments share one single-flight slot. *)

(** Guards and generation of an operation that takes the slot. *)
Definition reserve_resolution : section (N * WalletClientConfig) :=
  let! state := mget in
  if busy state then mthrow SendAlreadyInProgress
  else
    let! generation := bump st_resolution_generation in
    mret (generation, st_config state).

Definition take_resolution (generation : N) : section unit :=
  mupdate (fun s => s <| st_active_resolution := Some (generation, []) |>).

(** [resolve_pending] ([src/engine/resolve.rs]). *)
Definition start_resolve_pending
  : section (N * WalletClientConfig * JournalKey * HttpRequest * list HttpRequestId) :=
  do! running;
  let! reserved := reserve_resolution in
  let config := reserved.2 in
  let! account_id := allocate_request_id in
  let! account_request := mlift (build_account_request config account_id) in
  let! resolution_ids := allocate_four in
  do! take_resolution reserved.1;
  mret (reserved.1, config, mkJournalKey (nes_str (cfg_record_id config)) SEND_SLOT,
        account_request, resolution_ids).

(** The first section of [prepare_transfer] and of [prepare_key_rotation]; they
    differ in the secret access they ask for. *)
Definition start_signing_preparation `{SerdeJson} (reason : SecretAccessReason)
    (prompt : rstr)
  : section (N * WalletClientConfig * HttpRequest * HttpRequest * ProtectedSecretRead) :=
  let! state := running in
  let! secret_ref := mlift (local_secret state) in
  let! reserved := reserve_resolution in
  let config := reserved.2 in
  let! account_id := allocate_request_id in
  let! account_request := mlift (build_account_request config account_id) in
  let! seqno_id := allocate_request_id in
  let! seqno_request := mlift (build_seqno_request config seqno_id) in
  do! take_resolution reserved.1;
  mret (reserved.1, config, account_request, seqno_request,
        mkProtectedSecretRead secret_ref reason prompt).

Definition start_prepare_transfer `{SerdeJson} :=
  start_signing_preparation Reason_SignTransfer
    (lit "Authenticate to prepare this wallet transaction").

Definition start_key_rotation `{SerdeJson} :=
  start_signing_preparation Reason_PrepareKeyRotation
    (lit "Authenticate to create a new wallet signing key").

(** [ProviderConfig::effective_dns_root_address]. *)
Definition effective_dns_root_address (self : ProviderConfig) (network : Network) : rstr :=
  match pc_dns_root_address self with
  | Some address => tas_value address
  | None =>
      match network with
      | Mainnet => lit "-1:e56754f83426f69b09267bd876ac97c44821345b7e266bd956a7bfbfb98df35c"
      | Testnet => lit "-1:efe71d13860afaa6aeaeaf636f9168487f80f1031b0bf8d939ae49d3ea7f7da0"
      end
  end.

(** [resolve_dns] ([src/engine/dns.rs]) for a normalized name. *)
Definition start_resolve_dns `{SerdeJson} (name : rstr) : section (N * Network * HttpRequest) :=
  do! running;
  let! reserved := reserve_resolution in
  let config := reserved.2 in
  let root := effective_dns_root_address (cfg_providers config) (cfg_network config) in
  let! id := allocate_request_id in
  let! resolve_request := mlift (build_dns_resolve_request config id root name) in
  do! take_resolution reserved.1;
  mret (reserved.1, cfg_network config, resolve_request).

(** ** Encrypted comments ([src/engine/encrypted_comment.rs]) *)

Record RecipientKeyLookup := mkRecipientKeyLookup {
  rk_recipient : TonAddressString;
  rk_network : Network;
  rk_hint : option bytes;
  rk_account : HttpRequest;
  rk_public_key : HttpRequest;
}.

Definition recipient_key_lookup `{SerdeJson} (config : WalletClientConfig)
    (recipient : TonAddressString) (hint : option bytes) : section RecipientKeyLookup :=
  let! account_id := allocate_request_id in
  let! account :=
    mlift (build_toncenter_v2_request config account_id (lit "getAddressInformation")
             [(lit "address", tas_value recipient)]) in
  let! public_key_id := allocate_request_id in
  let! public_key := mlift (build_public_key_request config public_key_id recipient) in
  mret (mkRecipientKeyLookup recipient (cfg_network config) hint account public_key).

Definition start_create_encrypted_comment `{SerdeJson} (recipient : TonAddressString)
    (hint : option bytes)
  : section (N * WalletClientConfig * RecipientKeyLookup * ProtectedSecretRead) :=
  let! state := running in
  let! secret_ref := mlift (local_secret state) in
  let! reserved := reserve_resolution in
  let! lookup := recipient_key_lookup reserved.2 recipient hint in
  do! take_resolution reserved.1;
  mret (reserved.1, reserved.2, lookup,
        mkProtectedSecretRead secret_ref Reason_EncryptComment
          (lit "Authenticate to encrypt this transfer comment")).

Definition start_resolve_comment_recipient `{SerdeJson} (recipient : TonAddressString)
    (hint : option bytes) : section (N * RecipientKeyLookup) :=
  do! running;
  let! reserved := reserve_resolution in
  let! lookup := recipient_key_lookup reserved.2 recipient hint in
  do! take_resolution reserved.1;
  mret (reserved.1, lookup).

(** [decrypt_comment] ([src/engine/encrypted_comment.rs]). *)
Definition start_decrypt_comment : section (N * WalletClientConfig * ProtectedSecretRead) :=
  let! state := running in
  let! secret_ref := mlift (local_secret state) in
  let! reserved := reserve_resolution in
  do! take_resolution reserved.1;
  mret (reserved.1, reserved.2,
        mkProtectedSecretRead secret_ref Reason_DecryptComment
          (lit "Authenticate to decrypt this transfer comment")).

Definition start_resolution_request (generation : N) (request_id : HttpRequestId)
  : section unit :=
  let! state := mget in
  match st_active_resolution state with
  | None => mthrow StateUnavailable
  | Some (active_generation, request_ids) =>
      if negb (active_generation =? generation)%N then mthrow StateUnavailable
      else mupdate (fun s =>
        s <| st_active_resolution := Some (active_generation, request_ids ++ [request_id]) |>)
  end.

Definition finish_resolution_request (generation : N) (request_id : HttpRequestId)
  : section unit :=
  let! state := mget in
  match st_active_resolution state with
  | None => mthrow StateUnavailable
  | Some (active_generation, request_ids) =>
      if negb (active_generation =? generation)%N then mthrow StateUnavailable
      else mupdate (fun s =>
        s <| st_active_resolution :=
               Some (active_generation, filter (fun active => active <> request_id) request_ids) |>)
  end.

Definition ensure_resolution_current (generation : N) : section unit :=
  let! state := mget in
  if is_current Resolution generation state then mret tt else mthrow StateUnavailable.

Definition complete_resolution (generation : N) : section unit :=
  let! state := mget in
  if negb (is_current Resolution generation state) then mthrow StateUnavailable
  else mupdate (fun s => s <| st_active_resolution := None |>).

Definition discard_resolution (generation : N) : section unit :=
  let! state := mget in
  if is_current Resolution generation state
  then mupdate (fun s => s <| st_active_resolution := None |>)
  else mret tt.

Definition complete_standalone_resolution (generation : N) (snapshot : option SendSnapshot)
  : section SendSnapshot :=
  let! state := mget in
  if negb (is_current Resolution generation state) then mthrow StateUnavailable
  else
    do! mupdate (fun s => s <| st_active_resolution := None |>);
    do! match snapshot with
        | Some snapshot =>
            if bool_decide (ws_send (st_snapshot state) = snapshot) then mret tt
            else
              do! mupdate (fun s => s <| st_snapshot ; ws_send := snapshot |>);
              next_revision
        | None => mret tt
        end;
    let! state := mget in
    mret (ws_send (st_snapshot state)).

(** The request of one key-history page, and the section that caches the history. *)
Definition key_history_request (generation offset : N)
  : section (HttpRequest * TonAddressString) :=
  let! state := mget in
  if negb (is_current Resolution generation state) then mthrow StateUnavailable
  else
    let! id := allocate_request_id in
    let! request := mlift (build_key_change_request (st_config state) id offset) in
    mret (request, cfg_address (st_config state)).

Definition cache_key_changes (generation : N) (changes : list KeyChange) : section unit :=
  let! state := mget in
  if negb (is_current Resolution generation state) then mthrow StateUnavailable
  else mupdate (fun s => s <| st_key_changes := Some changes |>).

(** [load_fresh_nft_for_transfer] ([src/engine/nft_transfer.rs]). *)
Definition load_fresh_nft_request (address : TonAddressString)
  : section (HttpRequest * Network) :=
  let! state := running in
  let! request_id := allocate_request_id in
  let! request := mlift (build_nft_item_request (st_config state) request_id address) in
  mret (request, cfg_network (st_config state)).
