(* ===== verification/ClientCalls.v ===== *)
(** * Interleavings of the lock sections

    Every future of the client is a sequence of lock sections with host calls in
    between, so what the client can do under any number of concurrent calls is a
    run of the step relation [client_step], in which each step is one section of
    [ClientState] with arbitrary arguments.  The only restriction is that a
    request that is registered as active carries an identifier the client
    allocated before.  The theorems hold for all such runs. *)

From stdpp Require Import base numbers list option strings gmap relations.
From S2P Require Import Prelude.
From S2P Require Import BoundaryTypes.
From S2P Require Import SendDomain.
From S2P Require Import SendWorkflow.
From S2P Require Import ClientDomain.
From S2P Require Import Json.
From S2P Require Import ProviderRequest.
From S2P Require Import ClientState.

(** ** Calls *)

Inductive ClientCall :=
  | Do_wait_for_change (after_revision : N) (sender : nat)
  | Do_shutdown_turn (sender : nat)
  | Do_start_refresh
  | Do_publish_refresh_component (generation : N) (value : RefreshValue)
  | Do_finish_refresh (generation : N)
  | Do_cancel_refresh
  | Do_start_load_more_activity
  | Do_finish_load_more_activity (generation : N) (page : result DomainError ActivityPage)
  | Do_cancel_load_more_activity
  | Do_start_refresh_nfts
  | Do_finish_refresh_nfts (generation : N) (page : result DomainError NftPage)
  | Do_cancel_refresh_nfts
  | Do_start_load_more_nfts
  | Do_finish_load_more_nfts (generation : N) (page : result DomainError NftPage)
  | Do_cancel_load_more_nfts
  | Do_start_preview
  | Do_start_preview_sign_message
  | Do_cancel_send_preview
  | Do_finish_preview (generation : N)
  | Do_start_preview_request (generation : N) (id : HttpRequestId)
  | Do_finish_preview_request (generation : N) (id : HttpRequestId)
  | Do_start_send (request : SendRequest)
  | Do_start_sign_message (request : SendRequest)
  | Do_start_send_boc (operation_id : NonEmptyString) (force : bool) (valid_until : N)
  | Do_cancel_send
  | Do_publish_prior_send_resolution (generation : N) (snapshot : SendSnapshot)
  | Do_block_send_for_pending (generation : N) (snapshot : SendSnapshot)
  | Do_fail_send (generation : N) (message : rstr)
  | Do_mark_send_unknown (generation : N) (message : rstr)
  | Do_begin_send_commit (generation : N)
  | Do_ensure_current_send (generation : N)
  | Do_publish_send_workflow (generation : N) (workflow : SendWorkflow)
  | Do_start_send_request (generation : N) (id : HttpRequestId)
  | Do_finish_send_request (generation : N) (id : HttpRequestId)
  | Do_complete_send (generation : N) (workflow : SendWorkflow)
  | Do_start_resolve_pending
  | Do_start_prepare_transfer
  | Do_start_key_rotation
  | Do_start_resolve_dns (name : rstr)
  | Do_start_create_encrypted_comment (recipient : TonAddressString) (hint : option bytes)
  | Do_start_resolve_comment_recipient (recipient : TonAddressString) (hint : option bytes)
  | Do_start_decrypt_comment
  | Do_start_resolution_request (generation : N) (id : HttpRequestId)
  | Do_finish_resolution_request (generation : N) (id : HttpRequestId)
  | Do_ensure_resolution_current (generation : N)
  | Do_complete_resolution (generation : N)
  | Do_discard_resolution (generation : N)
  | Do_complete_standalone_resolution (generation : N) (snapshot : option SendSnapshot)
  | Do_key_history_request (generation offset : N)
  | Do_cache_key_changes (generation : N) (changes : list KeyChange)
  | Do_load_fresh_nft_request (address : TonAddressString).

Section Client.
Context `{JournalCodec} `{SerdeJson} `{BigUintText} `{TonAddressText}.

(** The state after a section; its result goes to the future that ran it. *)
Definition after {A} (m : section A) (s : State) : State := (m s).1.

Definition run_client (call : ClientCall) : State -> State :=
  match call with
  | Do_wait_for_change revision sender => after (wait_for_change revision sender)
  | Do_shutdown_turn sender => after (shutdown_turn sender)
  | Do_start_refresh => after start_refresh
  | Do_publish_refresh_component g value => after (publish_refresh_component g value)
  | Do_finish_refresh g => after (finish_refresh g)
  | Do_cancel_refresh => after cancel_refresh
  | Do_start_load_more_activity => after start_load_more_activity
  | Do_finish_load_more_activity g page => after (finish_load_more_activity g page)
  | Do_cancel_load_more_activity => after cancel_load_more_activity
  | Do_start_refresh_nfts => after start_refresh_nfts
  | Do_finish_refresh_nfts g page => after (finish_refresh_nfts g page)
  | Do_cancel_refresh_nfts => after cancel_refresh_nfts
  | Do_start_load_more_nfts => after start_load_more_nfts
  | Do_finish_load_more_nfts g page => after (finish_load_more_nfts g page)
  | Do_cancel_load_more_nfts => after cancel_load_more_nfts
  | Do_start_preview => after start_preview
  | Do_start_preview_sign_message => after start_preview_sign_message
  | Do_cancel_send_preview => after cancel_send_preview
  | Do_finish_preview g => after (finish_preview g)
  | Do_start_preview_request g id => after (start_preview_request g id)
  | Do_finish_preview_request g id => after (finish_preview_request g id)
  | Do_start_send request => after (start_send request)
  | Do_start_sign_message request => after (start_sign_message request)
  | Do_start_send_boc operation_id force until => after (start_send_boc operation_id force until)
  | Do_cancel_send => after cancel_send
  | Do_publish_prior_send_resolution g snapshot =>
      after (publish_prior_send_resolution g snapshot)
  | Do_block_send_for_pending g snapshot => after (block_send_for_pending g snapshot)
  | Do_fail_send g message => after (fail_send g message)
  | Do_mark_send_unknown g message => after (mark_send_unknown g message)
  | Do_begin_send_commit g => after (begin_send_commit g)
  | Do_ensure_current_send g => after (ensure_current_send g)
  | Do_publish_send_workflow g workflow => after (publish_send_workflow g workflow)
  | Do_start_send_request g id => after (start_send_request g id)
  | Do_finish_send_request g id => after (finish_send_request g id)
  | Do_complete_send g workflow => after (complete_send g workflow)
  | Do_start_resolve_pending => after start_resolve_pending
  | Do_start_prepare_transfer => after start_prepare_transfer
  | Do_start_key_rotation => after start_key_rotation
  | Do_start_resolve_dns name => after (start_resolve_dns name)
  | Do_start_create_encrypted_comment recipient hint =>
      after (start_create_encrypted_comment recipient hint)
  | Do_start_resolve_comment_recipient recipient hint =>
      after (start_resolve_comment_recipient recipient hint)
  | Do_start_decrypt_comment => after start_decrypt_comment
  | Do_start_resolution_request g id => after (start_resolution_request g id)
  | Do_finish_resolution_request g id => after (finish_resolution_request g id)
  | Do_ensure_resolution_current g => after (ensure_resolution_current g)
  | Do_complete_resolution g => after (complete_resolution g)
  | Do_discard_resolution g => after (discard_resolution g)
  | Do_complete_standalone_resolution g snapshot =>
      after (complete_standalone_resolution g snapshot)
  | Do_key_history_request g offset => after (key_history_request g offset)
  | Do_cache_key_changes g changes => after (cache_key_changes g changes)
  | Do_load_fresh_nft_request address => after (load_fresh_nft_request address)
  end.

(** Requests are registered under identifiers that were allocated before. *)
Definition allocated (call : ClientCall) (s : State) : Prop :=
  match call with
  | Do_start_preview_request _ id | Do_start_send_request _ id
  | Do_start_resolution_request _ id => (rid_value id < st_next_id s)%N
  | _ => True
  end.

Definition client_step (s s' : State) : Prop :=
  exists call, allocated call s /\ s' = run_client call s.

Definition reachable_client (s : State) : Prop :=
  exists config s0, with_transport config = Ok s0 /\ rtc client_step s0 s.
End Client.

(** ** What the sections keep *)

Definition generation (family : OperationFamily) (s : State) : N :=
  match family with
  | Refresh => st_refresh_generation s
  | Pagination => st_pagination_generation s
  | NftRefresh => st_nft_refresh_generation s
  | NftPagination => st_nft_pagination_generation s
  | Preview => st_preview_generation s
  | Send => st_send_generation s
  | Resolution => st_resolution_generation s
  end.

Definition active_generation (family : OperationFamily) (s : State) : option N :=
  match family with
  | Refresh => fst <$> st_active_refresh s
  | Pagination => fst <$> st_active_pagination s
  | NftRefresh => fst <$> st_active_nft_refresh s
  | NftPagination => fst <$> st_active_nft_pagination s
  | Preview => fst <$> st_active_preview s
  | Send => fst <$> st_active_send s
  | Resolution => fst <$> st_active_resolution s
  end.

(** Every provider request that the host currently owns. *)
Definition active_request_ids (s : State) : list HttpRequestId :=
  request_ids_of (st_active_refresh s) ++ request_id_of (st_active_pagination s)
  ++ request_id_of (st_active_nft_refresh s) ++ request_id_of (st_active_nft_pagination s)
  ++ request_ids_of (st_active_preview s) ++ request_ids_of (st_active_send s)
  ++ request_ids_of (st_active_resolution s).

Definition revision (s : State) : N := ws_revision (st_snapshot s).

Definition published_activity `{TonAddressText} (s : State) : Prop :=
  al_items (ws_activity (st_snapshot s))
    = map (record_snapshot (cfg_network (st_config s))) (st_activity s) /\
  ws_activity_cursor (st_snapshot s) = cursor_snapshot <$> st_activity_cursor s /\
  al_has_more (ws_activity (st_snapshot s)) = st_activity_has_more s.

(** The state invariant. *)
Record client_inv `{TonAddressText} (s : State) : Prop := {
  ci_generation family g :
    active_generation family s = Some g -> (g <= generation family s)%N;
  ci_ids : Forall (fun id => (rid_value id < st_next_id s)%N) (active_request_ids s);
  ci_single_flight : st_active_send s = None \/ st_active_resolution s = None;
  ci_refresh : st_active_refresh s = None \/ st_active_pagination s = None;
  ci_refresh_ids g : st_active_refresh s <> Some (g, []);
  ci_nft_refresh : st_active_nft_refresh s = None \/ st_active_nft_pagination s = None;
  ci_commit : st_send_commit_started s = true -> is_Some (st_active_send s);
  ci_waiters : Forall (fun waiter => (revision s <= waiter.1)%N) (st_waiters s);
  ci_shutdown :
    st_shutdown s = true ->
    st_closing s = true /\ has_active_work s = false /\ st_waiters s = [];
  ci_activity : published_activity s;
  ci_revision : (revision s <= u64_max)%N;
}.

(** What one section may change. *)
Record client_change (s s' : State) : Prop := {
  cc_config : st_config s' = st_config s;
  cc_ids : (st_next_id s <= st_next_id s')%N;
  cc_generation family : (generation family s <= generation family s')%N;
  cc_active family g :
    active_generation family s' = Some g ->
    active_generation family s = Some g \/ (generation family s < g)%N;
  cc_revision :
    st_snapshot s' = st_snapshot s \/ revision s' = (revision s + 1)%N \/
    (revision s = u64_max /\ revision s' = revision s);
  cc_closing : st_closing s = true -> st_closing s' = true;
  cc_shutdown : st_shutdown s = true -> s' = s;
}.
