(* ===== verification/ClientSections.v ===== *)
(** * The lock sections keep the client invariant

    Rules that run a section symbolically, the tactics built on them, and one
    lemma per section: it keeps [client_inv] and changes the state only as
    [client_change] allows.  [run_client_good] collects them. *)

From stdpp Require Import base numbers list option strings gmap relations.
From S2P Require Import Prelude.
From S2P Require Import BoundaryTypes.
From S2P Require Import SendDomain.
From S2P Require Import SendWorkflow.
From S2P Require Import ClientDomain.
From S2P Require Import Json.
From S2P Require Import ProviderRequest.
From S2P Require Import ClientState.
From S2P Require Import ClientCalls.

(** ** Symbolic execution of sections *)

#[local] Arguments checked_add : simpl never.
#[local] Arguments N.add : simpl never.
#[local] Arguments still_waiting : simpl never.
#[local] Arguments merge_rows : simpl never.
#[local] Arguments retain_unseen : simpl never.

(** [s'] is the running state [s] with counters that may have grown. *)
Record counted (s s' : State) : Prop := {
  ct_running : st_shutdown s = false;
  ct_next_id : (st_next_id s <= st_next_id s')%N;
  ct_generation family : (generation family s <= generation family s')%N;
  ct_rest : exists n r p nr np pv sd rs,
    s' = s <| st_next_id := n |> <| st_refresh_generation := r |>
           <| st_pagination_generation := p |> <| st_nft_refresh_generation := nr |>
           <| st_nft_pagination_generation := np |> <| st_preview_generation := pv |>
           <| st_send_generation := sd |> <| st_resolution_generation := rs |>;
}.

Lemma counted_refl s : st_shutdown s = false -> counted s s.
Proof.
  intros Hs. constructor; [done|lia|lia|].
  exists (st_next_id s), (st_refresh_generation s), (st_pagination_generation s),
    (st_nft_refresh_generation s), (st_nft_pagination_generation s), (st_preview_generation s),
    (st_send_generation s), (st_resolution_generation s). by destruct s.
Qed.

Lemma counted_trans s1 s2 s3 : counted s1 s2 -> counted s2 s3 -> counted s1 s3.
Proof.
  intros [R1 I1 G1 (n1&r1&p1&nr1&np1&pv1&sd1&rs1&E1)] [R2 I2 G2 (n&r&p&nr&np&pv&sd&rs&E2)].
  constructor; [done|lia|intros f; specialize (G1 f); specialize (G2 f); lia|].
  exists n, r, p, nr, np, pv, sd, rs. by subst.
Qed.

Section Rules.
Context `{TonAddressText}.

(** The section keeps the invariant and changes only what it may. *)
Definition good (s s' : State) : Prop :=
  client_inv s -> client_inv s' /\ client_change s s'.

(** A section that started in [s0] and has only moved counters up to [s]. *)
Definition exec {A} (s0 : State) (m : section A) (s : State) : Prop :=
  counted s0 s -> good s0 (after m s).

Lemma client_change_refl s : client_change s s.
Proof. constructor; auto; lia. Qed.

Lemma good_refl s : good s s.
Proof. split; [done|apply client_change_refl]. Qed.

Lemma counted_good s s' : counted s s' -> good s s'.
Proof.
  intros [Hrun Hid Hgen (n & r & p & nr & np & pv & sd & rs & ->)].
  intros [I1 I2 I3 I4 I5 I6 I7 I8 I9 I10 I11]. split.
  - constructor; try done.
    + intros f g Hf. etrans; [|apply Hgen]. apply I1. by destruct f.
    + eapply Forall_impl; [exact I2|]. simpl in Hid |- *. intros. lia.
  - constructor; try done; [|by left|by rewrite Hrun].
    intros f g Hf. left. by destruct f.
Qed.

Lemma exec_throw {A} s0 (e : WalletClientError) s : exec s0 (mthrow e : section A) s.
Proof. intros Hc. by apply counted_good. Qed.

Lemma exec_ret {A} s0 (a : A) s : exec s0 (mret a) s.
Proof. intros Hc. by apply counted_good. Qed.

Lemma exec_lift {A B} s0 (r : result WalletClientError A) (k : A -> section B) s :
  (forall a, r = Ok a -> exec s0 (k a) s) -> exec s0 (let! a := mlift r in k a) s.
Proof.
  intros Hk Hc. destruct r as [a|e]; [by apply (Hk a)|by apply counted_good].
Qed.

Lemma exec_assoc {A B C} s0 (m : section A) (k : A -> section B) (l : B -> section C) s :
  exec s0 (let! a := m in let! b := k a in l b) s ->
  exec s0 (let! b := (let! a := m in k a) in l b) s.
Proof.
  unfold exec, after, mbind'. by destruct (m s) as [s1 [a|e]].
Qed.

Lemma exec_ret_bind {A B} s0 (a : A) (k : A -> section B) s :
  exec s0 (k a) s -> exec s0 (let! a := mret a in k a) s.
Proof. done. Qed.

Lemma exec_throw_bind {A B} s0 (e : WalletClientError) (k : A -> section B) s :
  exec s0 (let! a := mthrow e in k a) s.
Proof. intros Hc. by apply counted_good. Qed.

Lemma exec_get {B} s0 (k : State -> section B) s :
  exec s0 (k s) s -> exec s0 (let! x := mget in k x) s.
Proof. done. Qed.

Lemma counted_next_id s n :
  st_shutdown s = false -> (st_next_id s <= n)%N -> counted s (s <| st_next_id := n |>).
Proof.
  intros Hs Hn. constructor; [done|done|by intros []|].
  exists n, (st_refresh_generation s), (st_pagination_generation s),
    (st_nft_refresh_generation s), (st_nft_pagination_generation s), (st_preview_generation s),
    (st_send_generation s), (st_resolution_generation s). done.
Qed.

Lemma counted_shutdown s s' : counted s s' -> st_shutdown s' = false.
Proof. by intros [Hr _ _ (?&?&?&?&?&?&?&?&->)]. Qed.

Lemma exec_alloc {B} s0 (k : HttpRequestId -> section B) s :
  (forall n, n = (st_next_id s + 1)%N ->
     exec s0 (k (mkHttpRequestId (st_next_id s))) (s <| st_next_id := n |>)) ->
  exec s0 (let! id := allocate_request_id in k id) s.
Proof.
  intros Hk Hc. unfold after, allocate_request_id. monad_unfold. simpl.
  destruct (checked_add _ _ _) as [n|] eqn:Hn; [|by apply counted_good].
  apply checked_add_Some in Hn as [-> _]. apply Hk; [done|]. eapply counted_trans; [done|].
  apply counted_next_id; [by eapply counted_shutdown|lia].
Qed.

Definition counts (counter : State -> N) `{!Updater counter} : Prop :=
  forall s n, st_shutdown s = false -> (counter s <= n)%N -> counted s (s <| counter := n |>).

Lemma exec_bump {B} s0 (counter : State -> N) `{!Updater counter} (k : N -> section B) s :
  counts counter ->
  exec s0 (k (counter s + 1)%N) (s <| counter := (counter s + 1)%N |>) ->
  exec s0 (let! g := bump counter in k g) s.
Proof.
  intros Hcount Hk Hc. unfold after, bump. monad_unfold. simpl.
  destruct (checked_add _ _ _) as [n|] eqn:Hn; [|by apply counted_good].
  apply checked_add_Some in Hn as [-> _]. apply Hk. eapply counted_trans; [done|].
  apply Hcount; [by eapply counted_shutdown|lia].
Qed.

Lemma good_running {B} (k : State -> section B) s :
  (st_shutdown s = false -> st_closing s = false -> exec s (k s) s) ->
  good s (after (let! x := running in k x) s).
Proof.
  intros Hk. unfold after, running, ensure_running. monad_unfold. simpl.
  destruct (st_closing s) eqn:Hc; [apply good_refl|].
  destruct (st_shutdown s) eqn:Hs; [apply good_refl|]. simpl.
  by apply Hk, counted_refl.
Qed.

(** A revision is published, or the counter is exhausted and nothing changes. *)
Lemma next_revision_cases s :
  (after next_revision s = s <| st_snapshot ; ws_revision := (revision s + 1)%N |>
      <| st_waiters := still_waiting (revision s + 1) (st_waiters s) |> /\
   (revision s + 1 <= u64_max)%N) \/
  (after next_revision s = s /\ (u64_max < revision s + 1)%N).
Proof.
  unfold after, next_revision, revision. monad_unfold. simpl.
  destruct (checked_add _ _ _) as [n|] eqn:Hn; simpl.
  - apply checked_add_Some in Hn as [-> ?]. by left.
  - apply checked_add_None in Hn. by right.
Qed.

Lemma still_waiting_spec r ws : Forall (fun w => (r <= w.1)%N) (still_waiting r ws).
Proof.
  unfold still_waiting. induction ws as [|w ws IH]; [constructor|].
  rewrite filter_cons. case_decide; [constructor; [lia|done]|done].
Qed.

(** A change that is not yet published under a new revision. *)
Record moved (s s' : State) : Prop := {
  mv_running : st_shutdown s = false;
  mv_config : st_config s' = st_config s;
  mv_ids : (st_next_id s <= st_next_id s')%N;
  mv_generation family : (generation family s <= generation family s')%N;
  mv_active family g :
    active_generation family s' = Some g ->
    active_generation family s = Some g \/ (generation family s < g)%N;
  mv_revision : revision s' = revision s;
  mv_closing : st_closing s = true -> st_closing s' = true;
}.

Lemma good_quiet s s' :
  (client_inv s -> client_inv s' /\ moved s s' /\ st_snapshot s' = st_snapshot s) -> good s s'.
Proof.
  intros Hm Hi. destruct (Hm Hi) as (Hi' & [M0 M1 M2 M3 M4 M5 M6] & Hs). split; [done|].
  constructor; auto. by rewrite M0.
Qed.

Lemma good_publish s s' :
  (client_inv s -> client_inv s' /\ moved s s') -> good s (after next_revision s').
Proof.
  intros Hm Hi. destruct (Hm Hi) as ([I1 I2 I3 I4 I5 I6 I7 I8 I9 I10 I11] & [M0 M1 M2 M3 M4 M5 M6]).
  destruct (next_revision_cases s') as [[-> Hmax]|[-> Hmax]].
  - split.
    + constructor; simpl; try done; [apply still_waiting_spec|].
      intros Hsd. destruct (I9 Hsd) as (? & ? & ->). done.
    + constructor; simpl; try done; [right; left|by rewrite M0].
      unfold revision at 1. simpl. by rewrite M5.
  - split; [by constructor|]. constructor; try done; [|by rewrite M0].
    right; right. rewrite M5 in Hmax, I11. split; [lia|done].
Qed.

Lemma after_update {A} f (k : section A) s : after (do! mupdate f; k) s = after k (f s).
Proof. done. Qed.

Lemma after_assoc {A B C} (m : section A) (k : A -> section B) (l : B -> section C) s :
  after (let! b := (let! a := m in k a) in l b) s = after (let! a := m in let! b := k a in l b) s.
Proof. unfold after, mbind'. by destruct (m s) as [s1 [a|e]]. Qed.

Lemma after_publish {A} (a : A) s : after (do! next_revision; mret a) s = after next_revision s.
Proof. unfold after, mbind'. by destruct (next_revision s) as [s' [[]|e]]. Qed.

Lemma after_publish_get {A} (k : State -> A) s :
  after (do! next_revision; let! x := mget in mret (k x)) s = after next_revision s.
Proof. unfold after, mbind'. by destruct (next_revision s) as [s' [[]|e]]. Qed.

Lemma current_running f g s : client_inv s -> is_current f g s = true -> st_shutdown s = false.
Proof.
  intros Hi Hc. destruct (st_shutdown s) eqn:Hs; [|done].
  destruct (ci_shutdown _ Hi Hs) as (_ & Hw & _). unfold has_active_work in Hw.
  repeat (apply orb_false_iff in Hw as [Hw ?]). bool_to_prop.
  destruct f; simpl in Hc; unfold is_generation in Hc; case_match; naive_solver.
Qed.

Lemma after_get {A} (k : State -> section A) s : after (let! x := mget in k x) s = after (k s) s.
Proof. done. Qed.

Lemma after_ret {A} (a : A) s : after (mret a : section A) s = s.
Proof. done. Qed.

Lemma after_ret_bind {A B} (a : A) (k : A -> section B) s :
  after (let! x := mret a in k x) s = after (k a) s.
Proof. done. Qed.

Lemma after_throw {A} e s : after (mthrow e : section A) s = s.
Proof. done. Qed.

Lemma current_active f g s : is_current f g s = true -> active_generation f s = Some g.
Proof.
  destruct f; simpl; unfold is_generation; case_match; try done; case_match; simpl;
    intros ->%N.eqb_eq; done.
Qed.
End Rules.

(** Proves the invariant and the change of one explicit final state, field by
    field: a family at a time, the request identifiers list by list. *)
Lemma Forall_filter_keep {A} (P Q : A -> Prop) `{!forall x, Decision (Q x)} l :
  Forall P l -> Forall P (filter Q l).
Proof.
  induction 1 as [|x l Hx _ IH]; [constructor|]. rewrite filter_cons.
  case_decide; [by constructor|done].
Qed.

Ltac known :=
  repeat match goal with
  | E : st_active_preview _ = Some _ |- _ => progress rewrite E in *
  | E : st_active_send _ = Some _ |- _ => progress rewrite E in *
  | E : st_active_resolution _ = Some _ |- _ => progress rewrite E in *
  end; simpl in *.

Ltac leaf_family I1 :=
  let f := fresh "f" in let g := fresh "g" in
  intros f g; specialize (I1 f g); destruct f; simpl in *;
  first [exact I1 | intros ?; simplify_eq/=; lia | intros Hg; specialize (I1 Hg); lia
        | intros Hg; solve [auto] | intros ?; simplify_eq/=; right; lia
        | known; solve [auto] | idtac].

Ltac leaf_ids :=
  unfold active_request_ids in *; rewrite ?Forall_app in *; destruct_and?; split_and?; simpl in *;
  first [assumption | (eapply Forall_impl; [eassumption|simpl; intros; lia])
        | repeat constructor; simpl; lia
        | known; first [apply Forall_app; split; [assumption|repeat constructor; assumption]
                       | apply Forall_filter_keep; assumption]
        | idtac].

Ltac leaf_small :=
  intros; simpl in *;
  first [assumption | reflexivity | congruence | lia | discriminate | (left; reflexivity)
        | (right; reflexivity) | solve [auto] | solve [eauto 4]
        | split_and!; reflexivity
        | match goal with H : fst <$> ?o = Some _ |- is_Some ?o =>
            destruct o; [by eexists|discriminate] end
        | match goal with H : ?P \/ ?Q |- _ => destruct H; solve [auto|congruence] end
        | idtac ].

Ltac leaf_inv I1 :=
  constructor;
  [ leaf_family I1
  | leaf_ids
  | leaf_small
  | leaf_small
  | leaf_small
  | leaf_small
  | leaf_small
  | unfold revision in *; leaf_small
  | unfold has_active_work in *; leaf_small
  | unfold published_activity in *; leaf_small
  | unfold revision in *; leaf_small ].

Ltac leaf_moved I1 :=
  constructor;
  [ leaf_small
  | leaf_small
  | simpl; lia
  | intros []; simpl; lia
  | leaf_family I1
  | unfold revision; leaf_small
  | leaf_small ].

Ltac leaf :=
  let Hi := fresh "Hi" in
  intros Hi; destruct Hi as [I1 I2 I3 I4 I5 I6 I7 I8 I9 I10 I11]; split_and?;
  [leaf_inv I1|leaf_moved I1|..].

(** Runs a section up to its first assignment. *)
Ltac exec_alloc_step :=
  let n := fresh "n" in let Hn := fresh "Hn" in
  apply exec_alloc; intros n Hn; simpl in Hn;
  try match goal with
  | |- exec _ _ (update st_next_id (fun _ => n) (update st_next_id (fun _ => ?m) ?s)) =>
      change (update st_next_id (fun _ => n) (update st_next_id (fun _ => m) s))
        with (update st_next_id (fun _ => n) s);
      change (st_next_id (update st_next_id (fun _ => m) s)) with m
  end.

Ltac exec_step :=
  lazymatch goal with
  | |- exec _ (mthrow _) _ => apply exec_throw
  | |- exec _ (mret _) _ => apply exec_ret
  | |- exec _ (mbind' mget _) _ => apply exec_get
  | |- exec _ (mbind' allocate_request_id _) _ => exec_alloc_step
  | |- exec _ (mbind' (bump _) _) _ => apply exec_bump; [solve [auto with client]|]
  | |- exec _ (mbind' (mlift _) _) _ => apply exec_lift; intros ? _
  | |- exec _ (mbind' (mbind' _ _) _) _ => apply exec_assoc
  | |- exec _ (mbind' (mthrow _) _) _ => apply exec_throw_bind
  | |- exec _ (mbind' (mret _) _) _ => apply exec_ret_bind
  | |- exec _ (mbind' allocate_four _) _ => unfold allocate_four
  | |- exec _ (if ?b then _ else _) _ => destruct b eqn:?
  | |- exec _ (mbind' (if ?b then _ else _) _) _ => destruct b eqn:?
  | |- exec _ (match ?o with Some _ => _ | None => _ end) _ => destruct o eqn:?
  end.

Ltac guards :=
  bool_to_prop;
  repeat match goal with
  | H : ~ is_Some ?o |- _ => apply eq_None_not_Some in H
  end.

Ltac exec_steps := repeat exec_step; guards.

Ltac publish :=
  rewrite ?after_update, ?after_publish, ?after_publish_get; apply good_publish.

Ltac quiet :=
  rewrite ?after_update;
  lazymatch goal with |- good _ (after (mret _) _) => apply good_quiet | _ => apply good_quiet end.

(** A current generation means that the client is not shut down. *)
Ltac running_now :=
  let Hi := fresh "Hi" in
  intros Hi;
  match goal with
  | Hc : is_current ?f ?g ?s = true |- _ =>
      pose proof (current_running f g s Hi Hc); pose proof (current_active f g s Hc)
  end; revert Hi.

Ltac prove_counts :=
  let s := fresh in let n := fresh in
  intros s n ? ?; constructor; [done|done|intros []; simpl; lia|];
  first
    [ exists (st_next_id s), n, (st_pagination_generation s), (st_nft_refresh_generation s),
        (st_nft_pagination_generation s), (st_preview_generation s), (st_send_generation s),
        (st_resolution_generation s); reflexivity
    | exists (st_next_id s), (st_refresh_generation s), n, (st_nft_refresh_generation s),
        (st_nft_pagination_generation s), (st_preview_generation s), (st_send_generation s),
        (st_resolution_generation s); reflexivity
    | exists (st_next_id s), (st_refresh_generation s), (st_pagination_generation s), n,
        (st_nft_pagination_generation s), (st_preview_generation s), (st_send_generation s),
        (st_resolution_generation s); reflexivity
    | exists (st_next_id s), (st_refresh_generation s), (st_pagination_generation s),
        (st_nft_refresh_generation s), n, (st_preview_generation s), (st_send_generation s),
        (st_resolution_generation s); reflexivity
    | exists (st_next_id s), (st_refresh_generation s), (st_pagination_generation s),
        (st_nft_refresh_generation s), (st_nft_pagination_generation s), n,
        (st_send_generation s), (st_resolution_generation s); reflexivity
    | exists (st_next_id s), (st_refresh_generation s), (st_pagination_generation s),
        (st_nft_refresh_generation s), (st_nft_pagination_generation s),
        (st_preview_generation s), n, (st_resolution_generation s); reflexivity
    | exists (st_next_id s), (st_refresh_generation s), (st_pagination_generation s),
        (st_nft_refresh_generation s), (st_nft_pagination_generation s),
        (st_preview_generation s), (st_send_generation s), n; reflexivity ].

Create HintDb client discriminated.

Lemma counts_refresh : counts st_refresh_generation.
Proof. prove_counts. Qed.
Lemma counts_pagination : counts st_pagination_generation.
Proof. prove_counts. Qed.
Lemma counts_nft_refresh : counts st_nft_refresh_generation.
Proof. prove_counts. Qed.
Lemma counts_nft_pagination : counts st_nft_pagination_generation.
Proof. prove_counts. Qed.
Lemma counts_preview : counts st_preview_generation.
Proof. prove_counts. Qed.
Lemma counts_send : counts st_send_generation.
Proof. prove_counts. Qed.
Lemma counts_resolution : counts st_resolution_generation.
Proof. prove_counts. Qed.

#[export] Hint Resolve counts_refresh counts_pagination counts_nft_refresh
  counts_nft_pagination counts_preview counts_send counts_resolution : client.

Section Sections.
Context `{JournalCodec} `{SerdeJson} `{BigUintText} `{TonAddressText}.

Lemma start_refresh_good s : good s (after start_refresh s).
Proof. apply good_running. intros Hrun _. exec_steps. intros _. publish. leaf. Qed.

Lemma start_load_more_activity_good s : good s (after start_load_more_activity s).
Proof.
  apply good_running. intros Hrun _. exec_steps. intros _. publish. leaf.
Qed.

Lemma start_refresh_nfts_good s : good s (after start_refresh_nfts s).
Proof. apply good_running. intros Hrun _. exec_steps. intros _. publish. leaf. Qed.

Lemma start_load_more_nfts_good s : good s (after start_load_more_nfts s).
Proof.
  apply good_running. intros Hrun _. exec_steps. intros _. publish. leaf.
Qed.

Lemma start_preview_good s : good s (after start_preview s).
Proof.
  unfold start_preview, reserve_preview. rewrite after_assoc. apply good_running.
  intros Hrun _. exec_steps. intros _. quiet. leaf. done.
Qed.

Lemma start_preview_sign_message_good s : good s (after start_preview_sign_message s).
Proof.
  unfold start_preview_sign_message, reserve_preview. rewrite after_assoc.
  apply good_running. intros Hrun _. exec_steps. intros _. quiet. leaf. done.
Qed.

Lemma reserve_send_exec s with_submit make :
  st_shutdown s = false -> exec s (reserve_send with_submit make) s.
Proof.
  intros Hrun. unfold reserve_send, busy. destruct with_submit; exec_steps.
  all: match goal with d : SendDirective |- _ => destruct d; try apply exec_throw end.
  all: intros _; publish; leaf.
Qed.

Lemma start_send_good request s : good s (after (start_send request) s).
Proof. apply good_running. intros Hrun _. exec_steps. by apply reserve_send_exec. Qed.

Lemma start_sign_message_good request s : good s (after (start_sign_message request) s).
Proof. apply good_running. intros Hrun _. exec_steps. by apply reserve_send_exec. Qed.

Lemma start_send_boc_good op force until s : good s (after (start_send_boc op force until) s).
Proof. apply good_running. intros Hrun _. by apply reserve_send_exec. Qed.

Lemma reserve_resolution_exec {A} s (k : N * WalletClientConfig -> section A) :
  (st_active_send s = None -> st_active_resolution s = None ->
   exec s (k ((st_resolution_generation s + 1)%N, st_config s))
     (s <| st_resolution_generation := (st_resolution_generation s + 1)%N |>)) ->
  exec s (let! r := reserve_resolution in k r) s.
Proof. 
  intros Hk. unfold reserve_resolution, busy. apply exec_assoc, exec_get.
  destruct (_ || _) eqn:Hb; [apply exec_throw_bind|]. guards. exec_steps. by apply Hk.
 Qed.

Ltac start_slot :=
  apply good_running; intros Hrun _; repeat exec_step;
  apply reserve_resolution_exec; intros ? ?; simpl; repeat exec_step;
  intros _; unfold take_resolution; quiet; leaf; done.

Lemma start_resolve_pending_good s : good s (after start_resolve_pending s).
Proof. unfold start_resolve_pending. start_slot. Qed.

Lemma start_signing_preparation_good reason prompt s :
  good s (after (start_signing_preparation reason prompt) s).
Proof. unfold start_signing_preparation. start_slot. Qed.

Lemma start_resolve_dns_good name s : good s (after (start_resolve_dns name) s).
Proof. unfold start_resolve_dns. start_slot. Qed.

Lemma start_create_encrypted_comment_good recipient hint s :
  good s (after (start_create_encrypted_comment recipient hint) s).
Proof. unfold start_create_encrypted_comment, recipient_key_lookup. start_slot. Qed.

Lemma start_resolve_comment_recipient_good recipient hint s :
  good s (after (start_resolve_comment_recipient recipient hint) s).
Proof. unfold start_resolve_comment_recipient, recipient_key_lookup. start_slot. Qed.

Lemma start_decrypt_comment_good s : good s (after start_decrypt_comment s).
Proof. unfold start_decrypt_comment. start_slot. Qed.

Lemma load_fresh_nft_request_good address s : good s (after (load_fresh_nft_request address) s).
Proof. apply good_running. intros Hrun _. exec_steps. Qed.


Ltac section_step :=
  first
    [ rewrite after_get
    | rewrite after_update
    | rewrite after_assoc
    | rewrite after_ret_bind
    | match goal with |- good _ (after (if ?b then _ else _) _) => destruct b eqn:? end
    | match goal with |- good _ (after (match ?o with _ => _ end) _) => destruct o eqn:? end
    | match goal with |- good _ (after (mbind' (match ?o with _ => _ end) _) _) => destruct o eqn:? end ].

Ltac sections := repeat section_step; rewrite ?after_throw, ?after_ret; try apply good_refl.

Ltac current_quiet := apply good_quiet; running_now; guards; leaf; try done.

Ltac current_publish :=
  rewrite ?after_update, ?after_publish, ?after_publish_get; apply good_publish;
  running_now; guards; leaf; try done.

Lemma finish_preview_good g s : good s (after (finish_preview g) s).
Proof. unfold finish_preview. sections. current_quiet. Qed.

Lemma publish_prior_send_resolution_good g snapshot s :
  good s (after (publish_prior_send_resolution g snapshot) s).
Proof. unfold publish_prior_send_resolution. sections. guards. current_publish. Qed.

Lemma block_send_for_pending_good g snapshot s :
  good s (after (block_send_for_pending g snapshot) s).
Proof. unfold block_send_for_pending. sections. guards. current_publish. Qed.

Lemma end_send_good phase g message s : good s (after (end_send phase g message) s).
Proof. unfold end_send. sections. current_publish. Qed.

Lemma begin_send_commit_good g s : good s (after (begin_send_commit g) s).
Proof.
  unfold begin_send_commit. sections. guards. current_quiet.
Qed.

Lemma ensure_current_send_good g s : good s (after (ensure_current_send g) s).
Proof. unfold ensure_current_send. sections. Qed.

Lemma publish_send_workflow_good g workflow s : good s (after (publish_send_workflow g workflow) s).
Proof. unfold publish_send_workflow. sections. guards. current_publish. Qed.

Lemma complete_send_good g workflow s : good s (after (complete_send g workflow) s).
Proof. unfold complete_send. sections. current_publish. Qed.

Lemma ensure_resolution_current_good g s : good s (after (ensure_resolution_current g) s).
Proof. unfold ensure_resolution_current. sections. Qed.

Lemma complete_resolution_good g s : good s (after (complete_resolution g) s).
Proof. unfold complete_resolution. sections. guards. current_quiet. Qed.

Lemma discard_resolution_good g s : good s (after (discard_resolution g) s).
Proof. unfold discard_resolution. sections. current_quiet. Qed.

Lemma cache_key_changes_good g changes s : good s (after (cache_key_changes g changes) s).
Proof. unfold cache_key_changes. sections. guards. current_quiet. Qed.

(** Registering and releasing requests. *)
Ltac request_section :=
  sections; guards; subst; apply good_quiet; leaf; try done.

Lemma start_send_request_good g id s :
  (rid_value id < st_next_id s)%N -> good s (after (start_send_request g id) s).
Proof. intros Hid. unfold start_send_request. request_section. Qed.

Lemma finish_send_request_good g id s : good s (after (finish_send_request g id) s).
Proof. unfold finish_send_request. request_section. Qed.

Lemma start_preview_request_good g id s :
  (rid_value id < st_next_id s)%N -> good s (after (start_preview_request g id) s).
Proof.
  intros Hid. apply good_running. intros Hrun _ _. request_section. Qed.

Lemma finish_preview_request_good g id s : good s (after (finish_preview_request g id) s).
Proof. apply good_running. intros Hrun _ _. request_section. Qed.

Lemma resolution_running s :
  client_inv s -> is_Some (st_active_resolution s) -> st_shutdown s = false.
Proof.
  intros Hi [[g ids] E]. apply (current_running Resolution g s Hi). simpl. rewrite E.
  apply N.eqb_refl.
Qed.

Ltac resolution_section :=
  sections; guards; subst; apply good_quiet;
  let Hi := fresh in intros Hi;
  assert (st_shutdown _ = false) by (by eapply resolution_running); revert Hi; leaf; try done.

Lemma start_resolution_request_good g id s :
  (rid_value id < st_next_id s)%N -> good s (after (start_resolution_request g id) s).
Proof. intros Hid. unfold start_resolution_request. resolution_section. Qed.

Lemma finish_resolution_request_good g id s :
  good s (after (finish_resolution_request g id) s).
Proof. unfold finish_resolution_request. resolution_section. Qed.

Lemma wait_for_change_good after_revision sender s :
  good s (after (wait_for_change after_revision sender) s).
Proof.
  unfold wait_for_change. sections. guards. apply good_quiet. leaf; [|done].
  apply Forall_app. split; [exact I8|repeat constructor; simpl; lia].
Qed.

Lemma finish_refresh_good g s : good s (after (finish_refresh g) s).
Proof. unfold finish_refresh. sections. guards. current_quiet. Qed.

Lemma publish_refresh_component_good g value s :
  good s (after (publish_refresh_component g value) s).
Proof.
  unfold publish_refresh_component, apply_refreshed_activity_page.
  sections; guards; try current_publish.
  all: destruct (is_empty (st_activity s)); current_publish.
Qed.

Lemma finish_load_more_activity_good g page s :
  good s (after (finish_load_more_activity g page) s).
Proof.
  unfold finish_load_more_activity, apply_activity_page.
  sections; guards; try current_publish.
  all: match goal with |- context [negb ?b] => destruct b end; current_publish.
Qed.

Lemma finish_refresh_nfts_good g page s : good s (after (finish_refresh_nfts g page) s).
Proof. unfold finish_refresh_nfts. sections; guards; current_publish. Qed.

Lemma finish_load_more_nfts_good g page s : good s (after (finish_load_more_nfts g page) s).
Proof. unfold finish_load_more_nfts. sections; guards; current_publish. Qed.

Lemma complete_standalone_resolution_good g snapshot s :
  good s (after (complete_standalone_resolution g snapshot) s).
Proof.
  unfold complete_standalone_resolution. sections; guards;
    [current_quiet|current_publish|current_quiet].
Qed.

Lemma key_history_request_good g offset s : good s (after (key_history_request g offset) s).
Proof.
  intros Hi. unfold key_history_request. rewrite after_get.
  destruct (is_current Resolution g s) eqn:Hc; [|by apply good_refl]. simpl.
  pose proof (current_running _ _ _ Hi Hc) as Hrun.
  cut (good s (after (let! id := allocate_request_id in
        let! request := mlift (build_key_change_request (st_config s) id offset) in
        mret (request, cfg_address (st_config s))) s)); [by intros Hg; apply Hg|].
  apply (fun H : exec _ _ _ => H (counted_refl _ Hrun)). exec_steps.
Qed.

Lemma work_running s : client_inv s -> has_active_work s = true -> st_shutdown s = false.
Proof.
  intros Hi Hw. destruct (st_shutdown s) eqn:Hs; [|done].
  destruct (ci_shutdown _ Hi Hs) as (_ & Hn & _). congruence.
Qed.

(** Taking a slot that holds an operation. *)
Ltac cancel_slot slot s :=
  intros Hi; rewrite after_get, after_update;
  destruct (slot s) as [?|] eqn:E; simpl;
  [ assert (st_shutdown s = false) as Hrun by
      (apply work_running; [done|]; unfold has_active_work; rewrite E; simpl;
       by rewrite ?orb_true_r)
  | replace (s <| slot := None |>) with s by (destruct s; simpl in *; by subst);
    by apply good_refl ].

Lemma cancel_load_more_activity_good s : good s (after cancel_load_more_activity s).
Proof.
  unfold cancel_load_more_activity. cancel_slot st_active_pagination s.
  destruct p as [g id]. simpl. revert Hi. publish. leaf.
Qed.

Lemma cancel_refresh_nfts_good s : good s (after cancel_refresh_nfts s).
Proof.
  unfold cancel_refresh_nfts. cancel_slot st_active_nft_refresh s.
  destruct p as [g id]. simpl. revert Hi. publish. leaf.
Qed.

Lemma cancel_load_more_nfts_good s : good s (after cancel_load_more_nfts s).
Proof.
  unfold cancel_load_more_nfts. cancel_slot st_active_nft_pagination s.
  destruct p as [g id]. simpl. revert Hi. publish. leaf.
Qed.

Lemma cancel_refresh_good s : good s (after cancel_refresh s).
Proof.
  unfold cancel_refresh. cancel_slot st_active_refresh s.
  destruct p as [g [|id ids]]; [by destruct (ci_refresh_ids _ Hi g)|]. simpl.
  revert Hi. publish. leaf.
Qed.

Lemma cancel_send_preview_good s : good s (after cancel_send_preview s).
Proof. apply good_running. intros Hrun _ _. quiet. leaf. done. Qed.

Lemma cancel_published_send_fields s :
  exists w, cancel_published_send s =
    s <| st_snapshot ; ws_send := ws_send (st_snapshot (cancel_published_send s)) |>
      <| st_send_workflow := w |>.
Proof.
  unfold cancel_published_send. destruct (st_send_workflow s) as [w|] eqn:E.
  - by eexists.
  - exists None. by destruct s; simpl in *; subst.
Qed.

Lemma cancel_send_good s : good s (after cancel_send s).
Proof.
  unfold cancel_send. rewrite after_get.
  destruct (_ && _) eqn:Hg; [apply good_refl|]. intros Hi. rewrite !after_update.
  destruct (st_active_send s) as [p|] eqn:E; simpl.
  - assert (st_shutdown s = false) as Hrun.
    { apply work_running; [done|]. unfold has_active_work. rewrite E. simpl.
      by rewrite ?orb_true_r. }
    revert Hi. rewrite after_assoc, after_update, after_publish.
    match goal with |- context [cancel_published_send ?x] =>
      destruct (cancel_published_send_fields x) as [w ->] end.
    generalize (ws_send (st_snapshot (cancel_published_send
      s <| st_active_send := None |> <| st_send_commit_started := false |>))).
    intros snapshot. apply good_publish. leaf.
  - replace (s <| st_active_send := None |> <| st_send_commit_started := false |>) with s;
      [by apply good_refl|].
    pose proof (ci_commit _ Hi) as Hcm. rewrite E in Hcm.
    destruct (st_send_commit_started s) eqn:Ec; [destruct Hcm; naive_solver|].
    by destruct s; simpl in *; subst.
Qed.

(** Snapshots that agree on the revision and on the activity list. *)
Definition same_list (sn sn' : WalletSnapshot) : Prop :=
  ws_revision sn' = ws_revision sn /\
  al_items (ws_activity sn') = al_items (ws_activity sn) /\
  al_has_more (ws_activity sn') = al_has_more (ws_activity sn) /\
  ws_activity_cursor sn' = ws_activity_cursor sn.

Ltac take_fields take slot s :=
  exists (st_snapshot (take s)); unfold take, same_list; destruct (slot s) eqn:E;
  split_and!; try done; destruct s; simpl in *; by subst.

Lemma take_refresh_fields s :
  exists sn, take_refresh s = s <| st_active_refresh := None |> <| st_snapshot := sn |> /\
    same_list (st_snapshot s) sn /\ (st_active_refresh s = None -> sn = st_snapshot s).
Proof. take_fields take_refresh st_active_refresh s. Qed.

Lemma take_pagination_fields s :
  exists sn, take_pagination s = s <| st_active_pagination := None |> <| st_snapshot := sn |> /\
    same_list (st_snapshot s) sn /\ (st_active_pagination s = None -> sn = st_snapshot s).
Proof. take_fields take_pagination st_active_pagination s. Qed.

Lemma take_nft_refresh_fields s :
  exists sn, take_nft_refresh s = s <| st_active_nft_refresh := None |> <| st_snapshot := sn |> /\
    same_list (st_snapshot s) sn /\ (st_active_nft_refresh s = None -> sn = st_snapshot s).
Proof. take_fields take_nft_refresh st_active_nft_refresh s. Qed.

Lemma take_nft_pagination_fields s :
  exists sn,
    take_nft_pagination s = s <| st_active_nft_pagination := None |> <| st_snapshot := sn |> /\
    same_list (st_snapshot s) sn /\ (st_active_nft_pagination s = None -> sn = st_snapshot s).
Proof. take_fields take_nft_pagination st_active_nft_pagination s. Qed.

Lemma take_send_fields s :
  exists sn w,
    take_send s = s <| st_active_send := None |> <| st_snapshot := sn |>
                    <| st_send_workflow := w |> /\
    same_list (st_snapshot s) sn /\
    (st_active_send s = None -> sn = st_snapshot s /\ w = st_send_workflow s).
Proof.
  exists (st_snapshot (take_send s)), (st_send_workflow (take_send s)).
  unfold take_send, cancel_published_send, same_list.
  destruct (st_active_send s) eqn:E; simpl; [destruct (st_send_workflow s) eqn:E'|];
    split_and!; try done; destruct s; simpl in *; by subst.
Qed.

Lemma take_all_fields s :
  exists sn w,
    take_all s = s <| st_active_refresh := None |> <| st_active_pagination := None |>
      <| st_active_nft_refresh := None |> <| st_active_nft_pagination := None |>
      <| st_active_preview := None |> <| st_active_send := None |>
      <| st_active_resolution := None |> <| st_send_commit_started := false |>
      <| st_snapshot := sn |> <| st_send_workflow := w |> /\
    same_list (st_snapshot s) sn /\
    (has_active_work s = false -> sn = st_snapshot s).
Proof.
  unfold take_all.
  destruct (take_refresh_fields s) as (sn1 & -> & (R1 & A1 & B1 & C1) & N1).
  match goal with |- context [take_pagination ?x] =>
    destruct (take_pagination_fields x) as (sn2 & -> & (R2 & A2 & B2 & C2) & N2) end.
  match goal with |- context [take_nft_refresh ?x] =>
    destruct (take_nft_refresh_fields x) as (sn3 & -> & (R3 & A3 & B3 & C3) & N3) end.
  match goal with |- context [take_nft_pagination ?x] =>
    destruct (take_nft_pagination_fields x) as (sn4 & -> & (R4 & A4 & B4 & C4) & N4) end.
  match goal with |- context [take_send ?x] =>
    destruct (take_send_fields x) as (sn5 & w & -> & (R5 & A5 & B5 & C5) & N5) end.
  exists sn5, w. split; [done|]. simpl in *. split; [unfold same_list; split_and!; congruence|].
  unfold has_active_work. intros Hw. guards.
  destruct N5 as [-> _]; [done|]. rewrite N4, N3, N2, N1 by done. done.
Qed.

Lemma prepare_shutdown_unfold s :
  prepare_shutdown s =
    if has_active_work s && (revision s =? u64_max)%N then (s, Err IdentifierExhausted)
    else
      match (if has_active_work s then next_revision else mret tt) (take_all s) with
      | (s', Ok _) => (s' <| st_shutdown := true |> <| st_waiters := [] |>,
                       Ok (active_request_ids s, st_waiters s'))
      | (s', Err e) => (s', Err e)
      end.
Proof.
  unfold prepare_shutdown. cbv [mbind' mget mupdate]. fold (revision s).
  by destruct (has_active_work s && _).
Qed.

(** [prepare_shutdown] in one step. *)
Lemma prepare_shutdown_result s :
  prepare_shutdown s =
    if has_active_work s && (revision s =? u64_max)%N then (s, Err IdentifierExhausted)
    else
      let s' := if has_active_work s then after next_revision (take_all s) else take_all s in
      if has_active_work s && (u64_max <? revision s + 1)%N
      then (s', Err IdentifierExhausted)
      else (s' <| st_shutdown := true |> <| st_waiters := [] |>,
            Ok (active_request_ids s, st_waiters s')).
Proof.
  destruct (take_all_fields s) as (sn & w & Hq & (Hr & _) & _).
  assert (revision (take_all s) = revision s) as Hr' by (by rewrite Hq). clear Hq Hr.
  rewrite prepare_shutdown_unfold. destruct (has_active_work s && _) eqn:Hg; [done|].
  revert Hr'. generalize (take_all s). intros q Hr'.
  destruct (has_active_work s) eqn:Hw; simpl; [|reflexivity].
  unfold after, next_revision. monad_unfold. fold (revision q). rewrite Hr'.
  destruct (checked_add _ _ _) as [n|] eqn:Hn; simpl.
  - apply checked_add_Some in Hn as [-> Hn].
    by destruct (N.ltb_spec u64_max (revision s + 1)); [lia|].
  - apply checked_add_None in Hn.
    by destruct (N.ltb_spec u64_max (revision s + 1)); [|lia].
Qed.

Lemma shutdown_state_good s s1 shut :
  st_shutdown s = false ->
  s1 = s <| st_closing := true |> ->
  (exists sn w ws,
     shut = s1 <| st_active_refresh := None |> <| st_active_pagination := None |>
       <| st_active_nft_refresh := None |> <| st_active_nft_pagination := None |>
       <| st_active_preview := None |> <| st_active_send := None |>
       <| st_active_resolution := None |> <| st_send_commit_started := false |>
       <| st_snapshot := sn |> <| st_send_workflow := w |>
       <| st_shutdown := true |> <| st_waiters := ws |> /\ ws = [] /\
     al_items (ws_activity sn) = al_items (ws_activity (st_snapshot s)) /\
     al_has_more (ws_activity sn) = al_has_more (ws_activity (st_snapshot s)) /\
     ws_activity_cursor sn = ws_activity_cursor (st_snapshot s) /\
     (sn = st_snapshot s \/ (ws_revision sn = (revision s + 1)%N /\ (revision s + 1 <= u64_max)%N))) ->
  good s shut.
Proof.
  intros Hrun -> (sn & w & ws & -> & -> & H3 & H4 & H5 & Hrev)
    [I1 I2 I3 I4 I5 I6 I7 I8 I9 (A1 & A2 & A3) I11]. split.
  - constructor; simpl; try done; try (by intros []); try (by left).
    + split_and!; simpl; congruence.
    + destruct Hrev as [->|[Hrev ?]]; [done|]. unfold revision at 1. simpl. lia.
  - constructor; simpl; try done; try (by intros []); try (by rewrite Hrun).
    destruct Hrev as [->|[Hrev _]]; [by left|right; left]. done.
Qed.

Lemma prepare_shutdown_good s :
  st_shutdown s = false -> good s (after prepare_shutdown (s <| st_closing := true |>)).
Proof.
  intros Hrun Hi. pose proof (ci_revision _ Hi) as Hmx. revert Hi. unfold after. rewrite prepare_shutdown_result.
  set (s1 := s <| st_closing := true |>). change (revision s1) with (revision s).
  assert (good s s1) as Hs1 by (apply good_quiet; leaf; done). intros Hi.
  destruct (has_active_work s1 && (_ =? _)%N) eqn:Hmax; [by apply Hs1|].
  destruct (take_all_fields s1) as (sn & w & Hq & (Hr & A & B & C) & Hn). simpl in *.
  assert (revision (take_all s1) = revision s) as Hrv by (by rewrite Hq).
  revert Hi. destruct (has_active_work s1) eqn:Hw; simpl in *.
  - apply N.eqb_neq in Hmax. destruct (N.ltb_spec u64_max (revision s + 1)); [lia|].
    destruct (next_revision_cases (take_all s1)) as [[-> _]|[_ Hgt]]; [|rewrite Hrv in Hgt; lia].
    rewrite Hrv, Hq. eapply shutdown_state_good; [done|done|].
    exists (sn <| ws_revision := (revision s + 1)%N |>), w, [].
    split; [unfold s1; clear; destruct s; cbv; reflexivity|]. split_and!; try done. by right.
  - rewrite Hq. eapply shutdown_state_good; [done|done|].
    exists sn, w, []. split; [unfold s1; clear; destruct s; cbv; reflexivity|].
    split_and!; try done. left. by apply Hn.
Qed.

Lemma shutdown_turn_good sender s : good s (after (shutdown_turn sender) s).
Proof.
  unfold shutdown_turn. rewrite after_get. destruct (st_shutdown s) eqn:Hrun; [apply good_refl|].
  rewrite after_update. destruct (_ && _) eqn:Hg.
  - rewrite after_update, after_ret. guards. apply good_quiet. leaf; [|done].
    apply Forall_app. split; [exact I8|]. repeat constructor. simpl. lia.
  - match goal with |- good _ (after (mbind' ?m _) ?x) =>
      replace (after (mbind' m _) x) with (after prepare_shutdown x) end;
      [by apply prepare_shutdown_good|].
    unfold after, mbind'. by destruct (prepare_shutdown _) as [? [?|?]].
Qed.

(** ** Every section at once *)

Lemma run_client_good call s : allocated call s -> good s (run_client call s).
Proof.
  destruct call; simpl; intros Hal.
  all: auto using wait_for_change_good, shutdown_turn_good, start_refresh_good,
    publish_refresh_component_good, finish_refresh_good, cancel_refresh_good,
    start_load_more_activity_good, finish_load_more_activity_good,
    cancel_load_more_activity_good, start_refresh_nfts_good, finish_refresh_nfts_good,
    cancel_refresh_nfts_good, start_load_more_nfts_good, finish_load_more_nfts_good,
    cancel_load_more_nfts_good, start_preview_good, start_preview_sign_message_good,
    cancel_send_preview_good, finish_preview_good, start_preview_request_good,
    finish_preview_request_good, start_send_good, start_sign_message_good,
    start_send_boc_good, cancel_send_good, publish_prior_send_resolution_good,
    block_send_for_pending_good, begin_send_commit_good, ensure_current_send_good,
    publish_send_workflow_good, start_send_request_good, finish_send_request_good,
    complete_send_good, start_resolve_pending_good, start_resolve_dns_good,
    start_create_encrypted_comment_good, start_resolve_comment_recipient_good,
    start_decrypt_comment_good, start_resolution_request_good.
  all: auto using finish_resolution_request_good, ensure_resolution_current_good,
    complete_resolution_good, discard_resolution_good, complete_standalone_resolution_good,
    key_history_request_good, cache_key_changes_good, load_fresh_nft_request_good.
  - apply end_send_good.
  - apply end_send_good.
  - unfold start_prepare_transfer. apply start_signing_preparation_good.
  - unfold start_key_rotation. apply start_signing_preparation_good.
Qed.
End Sections.
