(* ===== verification/ClientInvariant.v ===== *)
(** * Safety of the client under interleaving

    The theorems about every run of the wallet client: the state invariant,
    generations that never become current again, revisions that identify
    snapshots, the durable commit boundary of a send, and shutdown. *)

From stdpp Require Import base numbers list option strings gmap relations.
From S2P Require Import Prelude.
From S2P Require Import BoundaryTypes.
From S2P Require Import SendDomain.
From S2P Require Import SendWorkflow.
From S2P Require Import ClientDomain.
From S2P Require Import Json.
From S2P Require Import ProviderRequest.
From S2P Require Import ClientState.
From S2P Require Import ClientCalls.
From S2P Require Import ClientSections.

(** The operation on whose behalf a section runs, for the sections that act only
    while their generation is current. *)
Definition owner (call : ClientCall) : option (OperationFamily * N) :=
  match call with
  | Do_publish_refresh_component g _ | Do_finish_refresh g => Some (Refresh, g)
  | Do_finish_load_more_activity g _ => Some (Pagination, g)
  | Do_finish_refresh_nfts g _ => Some (NftRefresh, g)
  | Do_finish_load_more_nfts g _ => Some (NftPagination, g)
  | Do_finish_preview g | Do_start_preview_request g _ | Do_finish_preview_request g _ =>
      Some (Preview, g)
  | Do_publish_prior_send_resolution g _ | Do_block_send_for_pending g _ | Do_fail_send g _
  | Do_mark_send_unknown g _ | Do_begin_send_commit g | Do_ensure_current_send g
  | Do_publish_send_workflow g _ | Do_start_send_request g _ | Do_finish_send_request g _
  | Do_complete_send g _ => Some (Send, g)
  | Do_start_resolution_request g _ | Do_finish_resolution_request g _
  | Do_ensure_resolution_current g | Do_complete_resolution g | Do_discard_resolution g
  | Do_complete_standalone_resolution g _ | Do_key_history_request g _
  | Do_cache_key_changes g _ => Some (Resolution, g)
  | _ => None
  end.

(** A send past its durable commit boundary. *)
Definition committed (g : N) (s : State) : Prop :=
  active_generation Send s = Some g /\ st_send_commit_started s = true.

Section Runs.
Context `{JournalCodec} `{SerdeJson} `{BigUintText} `{TonAddressText}.

(** ** Lemmas on runs *)

Lemma client_step_good s s' :
  client_step s s' -> client_inv s -> client_inv s' /\ client_change s s'.
Proof. intros (call & Hal & ->) Hi. by apply run_client_good. Qed.

Lemma initial_inv config s : with_transport config = Ok s -> client_inv s.
Proof.
  unfold with_transport. destruct (validate_config config); [|done]. intros [= <-].
  constructor; simpl; try done; try (by intros []); try (by left).
Qed.

Lemma run_inv s s' : rtc client_step s s' -> client_inv s -> client_inv s'.
Proof.
  induction 1 as [|x y z Hstep _ IH]; [done|]. intros Hi. by apply IH, (client_step_good x y).
Qed.

Lemma reachable_client_inv s : reachable_client s -> client_inv s.
Proof. intros (config & s0 & Hinit & Hrun). by eapply run_inv, initial_inv. Qed.

Lemma is_current_active f g s : is_current f g s = true <-> active_generation f s = Some g.
Proof.
  split; [apply current_active|].
  destruct f; simpl; unfold is_generation; intros (p & Hp & ->)%fmap_Some;
    rewrite Hp; destruct p; simpl; apply N.eqb_refl.
Qed.

(** A generation that is not current never becomes current again. *)
Lemma stale_forever f g s s' :
  client_inv s -> (g <= generation f s)%N -> is_current f g s = false ->
  rtc client_step s s' -> is_current f g s' = false.
Proof.
  intros Hi Hg Hc Hrun. revert Hi Hg Hc.
  induction Hrun as [|x y z Hstep _ IH]; [done|]. intros Hi Hg Hc.
  destruct (client_step_good x y Hstep Hi) as [Hi' Hch]. apply IH; [done| |].
  - pose proof (cc_generation _ _ Hch f). lia.
  - apply not_true_iff_false. rewrite is_current_active. intros Ha.
    destruct (cc_active _ _ Hch f g Ha) as [Ha'|Hlt]; [|lia].
    apply is_current_active in Ha'. congruence.
Qed.

(** A section whose generation is not current has no effect. *)
Lemma stale_no_effect call f g s :
  owner call = Some (f, g) -> is_current f g s = false -> run_client call s = s.
Proof.
  intros Ho Hc. destruct call; simplify_eq/=; unfold after.
  all: cbv [publish_refresh_component finish_refresh finish_load_more_activity
    finish_refresh_nfts finish_load_more_nfts finish_preview start_preview_request
    finish_preview_request publish_prior_send_resolution block_send_for_pending fail_send
    mark_send_unknown end_send begin_send_commit ensure_current_send publish_send_workflow
    start_send_request finish_send_request complete_send start_resolution_request
    finish_resolution_request ensure_resolution_current complete_resolution
    discard_resolution complete_standalone_resolution key_history_request
    cache_key_changes running ensure_running mbind' mget mlift mret mthrow].
  all: simpl; rewrite ?Hc; simpl; try done.
  all: try (destruct (_ || _); simpl; [done|]).
  all: try (destruct (st_shutdown s); simpl; [done|]); try done.
  all: match goal with |- context [match ?o with Some _ => _ | None => _ end] =>
      destruct o as [[g' ids]|] eqn:E; [|done] end.
  all: try (simpl in Hc; rewrite Hc; done).
Qed.

(** ** Sections that leave the send slot alone *)

Definition slot (s : State) : option N * bool :=
  (active_generation Send s, st_send_commit_started s).

Definition keeps {A} (m : section A) : Prop := forall s, slot (after m s) = slot s.

Lemma keeps_ret {A} (a : A) : keeps (mret a).
Proof. done. Qed.

Lemma keeps_throw {A} e : keeps (mthrow e : section A).
Proof. done. Qed.

Lemma keeps_lift {A} (r : result WalletClientError A) : keeps (mlift r).
Proof. done. Qed.

Lemma keeps_get : keeps mget.
Proof. done. Qed.

Lemma keeps_update f : (forall s, slot (f s) = slot s) -> keeps (mupdate f).
Proof. done. Qed.

Lemma keeps_bind {A B} (m : section A) (k : A -> section B) :
  keeps m -> (forall a, keeps (k a)) -> keeps (let! a := m in k a).
Proof.
  intros Hm Hk s. specialize (Hm s). unfold after, mbind' in *.
  destruct (m s) as [s' [a|e]]; [|done]. simpl in Hm. rewrite <- Hm. apply (Hk a).
Qed.
End Runs.

(** Decides [keeps] by the shape of the section. *)
Ltac keep_slot :=
  repeat first
    [ apply keeps_ret | apply keeps_throw | apply keeps_lift | apply keeps_get
    | apply keeps_bind; [|intros ?]
    | apply keeps_update; intros ?; reflexivity
    | match goal with |- keeps (match ?x with _ => _ end) => destruct x end
    | progress unfold running, allocate_request_id, next_revision, bump, allocate_four,
        reserve_preview, take_resolution, recipient_key_lookup ].

Section Commit.
Context `{JournalCodec} `{SerdeJson} `{BigUintText} `{TonAddressText}.

Lemma sync_slot s : slot (sync_activity_snapshot s) = slot s.
Proof. done. Qed.

Lemma publish_refresh_component_keeps g value : keeps (publish_refresh_component g value).
Proof.
  unfold publish_refresh_component. keep_slot.
  apply keeps_update. intros s. unfold apply_refreshed_activity_page. by destruct (is_empty _).
Qed.

Lemma finish_load_more_activity_keeps g page : keeps (finish_load_more_activity g page).
Proof.
  unfold finish_load_more_activity. keep_slot.
  apply keeps_update. intros s. unfold apply_activity_page. by destruct (negb _).
Qed.

(** With a committed send in the slot no other operation can reserve it. *)
Lemma committed_busy g s : committed g s -> busy s = true.
Proof.
  intros [Ha _]. unfold busy. simpl in Ha. apply fmap_Some in Ha as (p & -> & _). done.
Qed.

Lemma reserve_send_busy with_submit make s :
  busy s = true -> after (reserve_send with_submit make) s = s.
Proof. intros Hb. unfold after, reserve_send, mbind', mget. by rewrite Hb. Qed.

Lemma reserve_resolution_busy {A} (k : N * WalletClientConfig -> section A) s :
  busy s = true -> after (let! r := reserve_resolution in k r) s = s.
Proof. intros Hb. unfold after, reserve_resolution, mbind', mget. by rewrite Hb. Qed.

Lemma running_then {A} (k : State -> section A) s (P : State -> Prop) :
  P s -> P (after (k s) s) -> P (after (let! x := running in k x) s).
Proof.
  intros Hp Hk. unfold after, running, ensure_running, mbind', mget, mlift. simpl.
  by destruct (_ || _).
Qed.

Lemma committed_slot g s s' : slot s' = slot s -> committed g s -> committed g s'.
Proof.
  intros Heq [Ha Hc]. split.
  - rewrite <- Ha. exact (f_equal fst Heq).
  - rewrite <- Hc. exact (f_equal snd Heq).
Qed.

Lemma committed_other g g' s : committed g s -> g' <> g -> is_current Send g' s = false.
Proof.
  intros [Ha _] Hne. apply not_true_iff_false. rewrite is_current_active, Ha. congruence.
Qed.

Lemma committed_reserve {A} g (k : N * WalletClientConfig -> section A) s :
  committed g s -> committed g (after (let! r := reserve_resolution in k r) s).
Proof. intros Hc. by rewrite reserve_resolution_busy by by eapply committed_busy. Qed.

Lemma committed_send g with_submit make s :
  committed g s -> committed g (after (reserve_send with_submit make) s).
Proof. intros Hc. by rewrite reserve_send_busy by by eapply committed_busy. Qed.

Lemma committed_secret {A} g (k : ProtectedSecretRef -> section A) s :
  committed g s -> (forall r, committed g (after (k r) s)) ->
  committed g (after (let! r := mlift (local_secret s) in k r) s).
Proof.
  intros Hc Hk. unfold after, mbind', mlift. destruct (local_secret s); [apply Hk|done].
Qed.

Ltac committed_start :=
  apply running_then; [done|];
  first [apply committed_reserve; done
        | apply committed_secret; [done|]; intros ?; apply committed_reserve; done].

Lemma start_send_committed g request s :
  committed g s -> committed g (after (start_send request) s).
Proof.
  intros Hc. unfold start_send. apply running_then; [done|].
  apply committed_secret; [done|]. intros r. by apply committed_send.
Qed.

Lemma start_sign_message_committed g request s :
  committed g s -> committed g (after (start_sign_message request) s).
Proof.
  intros Hc. unfold start_sign_message. apply running_then; [done|].
  apply committed_secret; [done|]. intros r. by apply committed_send.
Qed.

Lemma start_send_boc_committed g op force until s :
  committed g s -> committed g (after (start_send_boc op force until) s).
Proof.
  intros Hc. unfold start_send_boc.
  apply (running_then (fun _ => reserve_send _ _)); [done|]. by apply committed_send.
Qed.

Lemma commit_kept call g s :
  committed g s -> owner call <> Some (Send, g) -> committed g (run_client call s).
Proof.
  intros Hc Ho.
  destruct (owner call) as [[f g']|] eqn:Eo; [destruct (decide (f = Send)) as [->|Hf]|].
  - rewrite (stale_no_effect call Send g'); [done|done|].
    apply (committed_other g); [done|congruence].
  - revert Eo. destruct call; simpl; intros Eo; simplify_eq; apply (committed_slot g s); try done.
    all: first [apply publish_refresh_component_keeps | apply finish_load_more_activity_keeps
      | match goal with |- slot (after ?m _) = _ => assert (keeps m) as Hk; [|apply Hk] end].
    all: unfold finish_refresh, finish_refresh_nfts, finish_load_more_nfts, finish_preview,
      start_preview_request, finish_preview_request, start_resolution_request,
      finish_resolution_request, ensure_resolution_current, complete_resolution,
      discard_resolution, complete_standalone_resolution, key_history_request,
      cache_key_changes; keep_slot.
  - pose proof Hc as [Ha Hcm]. simpl in Ha. apply fmap_Some in Ha as (p & Hp & Hg).
    destruct call; simpl in Eo |- *; try discriminate Eo.
    all: auto using start_send_committed, start_sign_message_committed, start_send_boc_committed.
    all: try solve [committed_start].
    all: try (apply (committed_slot g s); [|done];
      match goal with |- slot (after ?m _) = _ => assert (keeps m) as Hk; [|apply Hk] end;
      unfold wait_for_change, start_refresh, cancel_refresh, start_load_more_activity,
        cancel_load_more_activity, start_refresh_nfts, cancel_refresh_nfts,
        start_load_more_nfts, cancel_load_more_nfts, start_preview,
        start_preview_sign_message, cancel_send_preview, load_fresh_nft_request; keep_slot; fail).
    + unfold after, shutdown_turn, mbind', mget. destruct (st_shutdown s); [done|].
      rewrite Hp, Hcm. simpl. by apply (committed_slot g s).
    + unfold after, cancel_send, mbind', mget. by rewrite Hp, Hcm.
Qed.
End Commit.

(** ** Claims *)

Section Claims.
Context `{JournalCodec} `{SerdeJson} `{BigUintText} `{TonAddressText}.

(** C17: whatever the host and the callers do, in every reachable state no active
    operation is newer than its counter, every request the host owns has an
    identifier the client allocated, a send and a resolution never overlap, a
    refresh excludes pagination, the commit flag belongs to an active send, no
    listener waits for a revision that already exists, a shut-down client has no
    work left, and the published activity list is the internal one. *)
Theorem client_invariant s : reachable_client s -> client_inv s.
Proof. apply reachable_client_inv. Qed.

(** C18: late results are no-ops: once a generation of any operation family was
    started and is no longer current, no later section that runs on its behalf
    changes the state, after any number of further steps. *)
Theorem superseded_results_are_ignored s s' call family g :
  reachable_client s -> owner call = Some (family, g) ->
  (g <= generation family s)%N -> is_current family g s = false ->
  rtc client_step s s' -> run_client call s' = s'.
Proof.
  intros Hi%reachable_client_inv Ho Hg Hc Hrun.
  by eapply stale_no_effect, stale_forever.
Qed.

(** The revision is a change counter for the whole snapshot: it never goes
    back, and two states of one run with the same revision, below the largest
    machine value, publish the same snapshot. *)
Theorem revision_identifies_snapshot s s' :
  reachable_client s -> rtc client_step s s' ->
  (revision s <= revision s')%N /\
  (revision s' = revision s -> (revision s < u64_max)%N -> st_snapshot s' = st_snapshot s).
Proof.
  intros Hi%reachable_client_inv Hrun. revert Hi.
  induction Hrun as [|x y z Hstep _ IH]; [done|]. intros Hi.
  destruct (client_step_good x y Hstep Hi) as [Hi' Hch]. destruct (IH Hi') as [Hle Heq].
  destruct (cc_revision _ _ Hch) as [Hs|[Hr|[Hm Hr]]].
  - assert (revision y = revision x) as Hr by (unfold revision; by rewrite Hs).
    rewrite Hr in Hle, Heq. split; [done|]. intros E1 E2. by rewrite (Heq E1 E2).
  - split; [lia|]. intros E1 _. lia.
  - split; [lia|]. intros _ E2. lia.
Qed.

(** C19: the commit boundary holds: while a send is past its durable commit, no
    section other than its own ends it or clears the flag, neither cancellation,
    nor shutdown, nor any other operation, and cancelling it is refused. *)
Theorem commit_boundary_respected call g s :
  committed g s -> owner call <> Some (Send, g) ->
  committed g (run_client call s) /\ (cancel_send s).2 = Err SendCancellationTooLate.
Proof.
  intros Hc Ho. split; [by apply commit_kept|]. destruct Hc as [Ha Hcm]. simpl in Ha.
  apply fmap_Some in Ha as (p & Hp & _). unfold cancel_send, mbind', mget. by rewrite Hp, Hcm.
Qed.

(** Shutdown is permanent: once the flag is set, no section of any operation
    changes the state at all. *)
Theorem shutdown_freezes_the_client s s' :
  reachable_client s -> st_shutdown s = true -> rtc client_step s s' -> s' = s.
Proof.
  intros Hi%reachable_client_inv Hs Hrun. revert Hi Hs.
  induction Hrun as [|x y z Hstep _ IH]; [done|]. intros Hi Hs.
  destruct (client_step_good x y Hstep Hi) as [Hi' Hch].
  rewrite (cc_shutdown _ _ Hch Hs) in *. by apply IH.
Qed.

(** One turn of [shutdown] on a running client either waits, exactly when a
    send is past its commit boundary, and then only closes the client to new
    work; or shuts down, handing back the identifier of every active request for
    cancellation; or, at the last revision with work still active, reports
    exhaustion. *)
Theorem shutdown_turn_spec sender s :
  st_shutdown s = false ->
  match shutdown_turn sender s with
  | (s', Ok (Shutdown_Wait receiver)) =>
      receiver = sender /\ st_shutdown s' = false /\ st_closing s' = true /\
      (exists g, committed g s /\ committed g s')
  | (s', Ok (Shutdown_Finish request_ids _)) =>
      request_ids = active_request_ids s /\ st_shutdown s' = true /\
      (forall g, ~ committed g s) /\ active_request_ids s' = []
  | (s', Err e) => e = IdentifierExhausted /\ has_active_work s = true /\ (u64_max <= revision s)%N
  | (_, Ok Shutdown_Done) => False
  end.
Proof.
  intros Hrun. unfold shutdown_turn, mbind' at 1, mget at 1. rewrite Hrun.
  assert ((exists g, committed g s) <->
    bool_decide (is_Some (st_active_send s)) && st_send_commit_started s = true) as Hcom.
  { rewrite andb_true_iff, bool_decide_eq_true. unfold committed. simpl.
    destruct (st_active_send s) as [[g ids]|]; simpl; split.
    - intros (? & _ & ?). by split.
    - intros [_ ?]. by exists g.
    - by intros (? & ? & _).
    - intros [[? ?] _]. done. }
  destruct (_ && _) eqn:Hg.
  - destruct (proj2 Hcom eq_refl) as [g Hc]. simpl. split_and!; try done. by exists g.
  - unfold mbind', mupdate. rewrite prepare_shutdown_result.
    change (has_active_work (s <| st_closing := true |>)) with (has_active_work s).
    change (revision (s <| st_closing := true |>)) with (revision s).
    change (active_request_ids (s <| st_closing := true |>)) with (active_request_ids s).
    destruct (has_active_work s && (revision s =? _)%N) eqn:Hm; [|destruct (has_active_work s && (_ <? _)%N) eqn:Hm'].
    + guards. split_and!; try done. lia.
    + guards. split_and!; try done. lia.
    + assert (forall g, ~ committed g s) as Hnc.
      { intros g Hc. assert (false = true) by (apply Hcom; by exists g). done. }
      destruct (take_all_fields (s <| st_closing := true |>)) as (sn & w & Hq & _ & _).
      rewrite Hq. destruct (has_active_work s); simpl; split_and!; try done.
      match goal with |- context [after next_revision ?x] =>
        destruct (next_revision_cases x) as [[-> _]|[-> _]] end; done.
Qed.
End Claims.
