(* ===== verification/ClientActivity.v ===== *)
(** * Activity rows and NFT pages

    What the list sections of [ClientState] do to the loaded rows: the merge by
    row identifier is a function of the two lists although the map behind it
    lists its values in no particular order, pagination moves strictly back in
    logical time and stops, a refresh keeps the loaded tail, and the NFT list is
    the concatenation of the pages without repeated addresses. *)

From stdpp Require Import base numbers list option strings gmap sorting.
From S2P Require Import Prelude BoundaryTypes SendDomain SendWorkflow.
From S2P Require Import ClientDomain Json ProviderRequest ClientState.

(** ** The order of rows *)

(** [left] may stand before [right]. *)
Definition record_le (left right : ActivityRecord) : Prop :=
  activity_record_order left right <> Gt.

Lemma record_le_spec a b :
  record_le a b <->
  (ar_logical_time b < ar_logical_time a)%N \/
  (ar_logical_time b = ar_logical_time a /\
   ((ar_timestamp b < ar_timestamp a)%N \/
    (ar_timestamp b = ar_timestamp a /\ str_cmp (ar_id a) (ar_id b) <> Gt))).
Proof.
  unfold record_le, activity_record_order, then_with.
  destruct (N.compare_spec (ar_logical_time b) (ar_logical_time a)),
    (N.compare_spec (ar_timestamp b) (ar_timestamp a)),
    (str_cmp (ar_id a) (ar_id b)); intuition (try lia; try congruence).
Qed.

#[export] Instance record_le_trans : Transitive record_le.
Proof.
  intros a b c. rewrite !record_le_spec. intros Hab Hbc.
  pose proof (str_cmp_le_trans (ar_id a) (ar_id b) (ar_id c)).
  intuition (try lia).
Qed.

Lemma record_le_total a b : record_le a b \/ record_le b a.
Proof.
  rewrite !record_le_spec, (str_cmp_antisym (ar_id a) (ar_id b)).
  destruct (N.lt_trichotomy (ar_logical_time a) (ar_logical_time b)) as [|[|]],
    (N.lt_trichotomy (ar_timestamp a) (ar_timestamp b)) as [|[|]],
    (str_cmp (ar_id a) (ar_id b)); simpl; intuition (try lia; try congruence).
Qed.

Lemma record_le_antisym a b : record_le a b -> record_le b a -> ar_id a = ar_id b.
Proof.
  rewrite !record_le_spec, (str_cmp_antisym (ar_id a) (ar_id b)). intros Ha Hb.
  apply str_cmp_eq. destruct (str_cmp (ar_id a) (ar_id b)); simpl in *;
    intuition (try lia; try congruence).
Qed.

(** ** Sorting *)

Lemma insert_record_perm x l : insert_record x l ≡ₚ x :: l.
Proof.
  induction l as [|y l IH]; simpl; [done|]. destruct (activity_record_order x y); try done.
  by rewrite IH, Permutation_swap.
Qed.

Lemma sort_records_perm l : sort_records l ≡ₚ l.
Proof. induction l as [|x l IH]; simpl; [done|]. by rewrite insert_record_perm, IH. Qed.

Lemma insert_record_sorted x l :
  StronglySorted record_le l -> StronglySorted record_le (insert_record x l).
Proof.
  induction 1 as [|y l Hl IH Hy]; simpl; [repeat constructor|].
  destruct (activity_record_order x y) eqn:E.
  1-2: (assert (record_le x y) as Hxy by (unfold record_le; by rewrite E);
    constructor; [by constructor|constructor; [done|]];
    eapply Forall_impl; [exact Hy|]; intros z; by apply record_le_trans).
  constructor; [done|]. rewrite insert_record_perm. constructor; [|done].
  destruct (record_le_total y x) as [|Hxy]; [done|]. exfalso. by apply Hxy.
Qed.

Lemma sort_records_sorted l : StronglySorted record_le (sort_records l).
Proof. induction l; simpl; [constructor|]. by apply insert_record_sorted. Qed.

(** A set of rows with distinct identifiers has one sorted listing. *)
Lemma sort_records_unique l l' :
  NoDup (map ar_id l) -> StronglySorted record_le l' -> l' ≡ₚ l -> l' = sort_records l.
Proof.
  intros Hnd Hs Hp. apply (StronglySorted_unique_strong record_le); [|done| |].
  - intros a b Ha Hb Hab Hba.
    pose proof (record_le_antisym a b Hab Hba) as Hid.
    rewrite Hp in Ha. rewrite sort_records_perm in Hb.
    apply list_elem_of_lookup in Ha as [i Hi], Hb as [j Hj].
    assert (i = j) as ->; [|congruence].
    apply (NoDup_lookup (map ar_id l) i j (ar_id a)); [done| |].
    + by rewrite list_lookup_fmap, Hi.
    + by rewrite list_lookup_fmap, Hj, Hid.
  - apply sort_records_sorted.
  - by rewrite sort_records_perm.
Qed.

(** ** The merge *)

(** The last row of [items] with this identifier. *)
Fixpoint newest_row (id : rstr) (items : list ActivityRecord) : option ActivityRecord :=
  match items with
  | [] => None
  | item :: rest =>
      match newest_row id rest with
      | Some row => Some row
      | None => if decide (ar_id item = id) then Some item else None
      end
  end.

Lemma rows_by_id_lookup items id : rows_by_id items !! id = newest_row id items.
Proof.
  unfold rows_by_id.
  assert (forall m : gmap rstr ActivityRecord,
    foldl (fun by_id item => <[ar_id item := item]> by_id) m items !! id
    = match newest_row id items with Some row => Some row | None => m !! id end) as Hg.
  { induction items as [|x items IH]; intros m; simpl; [done|]. rewrite IH.
    destruct (newest_row id items); [done|].
    destruct (decide (ar_id x = id)) as [<-|]; [apply lookup_insert_eq|].
    by apply lookup_insert_ne. }
  rewrite Hg. destruct (newest_row id items); [done|]. apply lookup_empty.
Qed.

Lemma newest_row_id id items row : newest_row id items = Some row -> ar_id row = id.
Proof.
  induction items as [|x items IH]; simpl; [done|].
  destruct (newest_row id items); [done|]. destruct (decide (ar_id x = id)); congruence.
Qed.

Lemma newest_row_app id old new :
  newest_row id (old ++ new)
  = match newest_row id new with Some row => Some row | None => newest_row id old end.
Proof.
  induction old as [|x old IH]; simpl; [by destruct (newest_row id new)|].
  rewrite IH. by destruct (newest_row id new), (newest_row id old).
Qed.

Lemma newest_row_is_Some id items : is_Some (newest_row id items) <-> id ∈ map ar_id items.
Proof.
  induction items as [|x items IH]; simpl.
  - split; [by intros []|by intros ?%elem_of_nil].
  - rewrite elem_of_cons, <- IH. destruct (newest_row id items); [naive_solver|].
    destruct (decide (ar_id x = id)) as [->|]; naive_solver.
Qed.

(** With distinct identifiers the newest row is the only one. *)
Lemma newest_row_NoDup items row :
  NoDup (map ar_id items) -> newest_row (ar_id row) items = Some row <-> row ∈ items.
Proof.
  intros Hnd. induction items as [|x items IH]; simpl.
  - split; [done|by intros ?%elem_of_nil].
  - apply NoDup_cons in Hnd as [Hx Hnd]. specialize (IH Hnd). rewrite elem_of_cons.
    destruct (newest_row (ar_id row) items) as [r|] eqn:E.
    + split; [intros [= ->]; right; by apply IH|]. intros [->|Hr]; [|by apply IH].
      exfalso. apply Hx, newest_row_is_Some. rewrite E. eauto.
    + destruct (decide (ar_id x = ar_id row)) as [Hid|Hid].
      * split; [intros [= ->]; by left|]. intros [->|Hr]; [done|].
        apply IH in Hr. done.
      * split; [done|]. intros [->|Hr]; [done|]. by apply IH in Hr.
Qed.

(** The values of the map, as [into_values] lists them up to order. *)
Definition merged_values (old new : list ActivityRecord) : list ActivityRecord :=
  map snd (map_to_list (rows_by_id (old ++ new))).

Lemma merged_values_elem old new row :
  row ∈ merged_values old new <-> newest_row (ar_id row) (old ++ new) = Some row.
Proof.
  unfold merged_values. rewrite list_elem_of_fmap. split.
  - intros ([id r] & -> & Hin%elem_of_map_to_list). simpl. rewrite rows_by_id_lookup in Hin.
    by rewrite (newest_row_id _ _ _ Hin).
  - intros Hr. exists (ar_id row, row). split; [done|]. apply elem_of_map_to_list.
    by rewrite rows_by_id_lookup.
Qed.

Lemma merged_values_ids old new :
  map ar_id (merged_values old new) = (map_to_list (rows_by_id (old ++ new))).*1.
Proof.
  unfold merged_values. rewrite map_map. apply map_ext_in. intros [id row] Hin.
  apply list_elem_of_In, elem_of_map_to_list in Hin. rewrite rows_by_id_lookup in Hin.
  by apply newest_row_id in Hin.
Qed.

Lemma merged_values_NoDup old new : NoDup (map ar_id (merged_values old new)).
Proof. rewrite merged_values_ids. apply NoDup_fst_map_to_list. Qed.

Lemma merge_rows_perm old new : merge_rows old new ≡ₚ merged_values old new.
Proof. apply sort_records_perm. Qed.

Lemma merge_rows_ids_NoDup old new : NoDup (map ar_id (merge_rows old new)).
Proof. rewrite merge_rows_perm. apply merged_values_NoDup. Qed.

Lemma merge_rows_elem old new row :
  row ∈ merge_rows old new <-> newest_row (ar_id row) (old ++ new) = Some row.
Proof. rewrite merge_rows_perm. apply merged_values_elem. Qed.

Lemma merge_rows_id old new id :
  id ∈ map ar_id (merge_rows old new) <-> id ∈ map ar_id old \/ id ∈ map ar_id new.
Proof.
  rewrite <- elem_of_app, <- map_app, <- (newest_row_is_Some id (old ++ new)), list_elem_of_fmap.
  split.
  - intros (row & -> & Hr%merge_rows_elem). rewrite Hr. eauto.
  - intros [row Hr]. exists row. rewrite merge_rows_elem, (newest_row_id _ _ _ Hr). done.
Qed.

(** The order in which the map lists its values has no influence. *)
Lemma merge_rows_order old new listing :
  listing ≡ₚ merged_values old new -> sort_records listing = merge_rows old new.
Proof.
  intros Hp. apply sort_records_unique; [apply merged_values_NoDup|apply sort_records_sorted|].
  by rewrite sort_records_perm.
Qed.

(** The rows decide the merge. *)
Lemma merge_rows_unique old new rows :
  NoDup (map ar_id rows) -> StronglySorted record_le rows ->
  (forall row, row ∈ rows <-> newest_row (ar_id row) (old ++ new) = Some row) ->
  rows = merge_rows old new.
Proof.
  intros Hnd Hs Hrows. apply sort_records_unique; [apply merged_values_NoDup|done|].
  apply NoDup_Permutation.
  - eapply NoDup_fmap_1, Hnd.
  - eapply NoDup_fmap_1, merged_values_NoDup.
  - intros row. rewrite Hrows. symmetry. apply merged_values_elem.
Qed.

(** ** The canonical list *)

(** The order in which a list shows its rows: by logical time, then by time, newest first,
    then by identifier. *)
Definition newest_first (a b : ActivityRecord) : Prop :=
  (ar_logical_time b < ar_logical_time a)%N \/
  (ar_logical_time b = ar_logical_time a /\
   ((ar_timestamp b < ar_timestamp a)%N \/
    (ar_timestamp b = ar_timestamp a /\ str_cmp (ar_id a) (ar_id b) <> Gt))).

Lemma newest_first_sorted rows : StronglySorted record_le rows <-> StronglySorted newest_first rows.
Proof.
  split; induction 1 as [|row rows Hs IH Hall]; constructor; try done;
    (eapply Forall_impl; [exact Hall|]); intros other; apply record_le_spec.
Qed.

(** One row for each identifier of the log, the last one received, newest rows first. *)
Record canonical_list (log rows : list ActivityRecord) : Prop := {
  canonical_distinct : NoDup (map ar_id rows);
  canonical_ordered : StronglySorted newest_first rows;
  canonical_newest : forall row, row ∈ rows <-> newest_row (ar_id row) log = Some row;
}.

Lemma merge_rows_canonical_list old new : canonical_list (old ++ new) (merge_rows old new).
Proof.
  constructor; [apply merge_rows_ids_NoDup|apply newest_first_sorted, sort_records_sorted|].
  intros row. apply merge_rows_elem.
Qed.

Lemma canonical_list_ids log rows id :
  canonical_list log rows -> id ∈ map ar_id rows <-> id ∈ map ar_id log.
Proof.
  intros [_ _ Hrows]. rewrite <- (newest_row_is_Some id log), list_elem_of_fmap. split.
  - intros (row & -> & Hin%Hrows). rewrite Hin. eauto.
  - intros [row Hrow]. pose proof (newest_row_id _ _ _ Hrow) as <-. exists row. split; [done|]. by apply Hrows.
Qed.

(** ** Repeated merges *)

Lemma merge_rows_newest old new id :
  newest_row id (merge_rows old new) = newest_row id (old ++ new).
Proof.
  destruct (newest_row id (old ++ new)) as [row|] eqn:E.
  - pose proof (newest_row_id _ _ _ E) as <-.
    apply newest_row_NoDup; [apply merge_rows_ids_NoDup|]. by apply merge_rows_elem.
  - apply eq_None_not_Some. rewrite newest_row_is_Some, merge_rows_id, <- elem_of_app, <- map_app.
    rewrite <- newest_row_is_Some, E. by intros [].
Qed.

(** Only the newest row of each identifier matters for later merges. *)
Lemma merge_rows_merge old new later :
  merge_rows (merge_rows old new) later = merge_rows (old ++ new) later.
Proof.
  apply merge_rows_unique; [apply merge_rows_ids_NoDup|apply sort_records_sorted|].
  intros row. rewrite merge_rows_elem, !newest_row_app, merge_rows_newest, newest_row_app. done.
Qed.

Lemma merge_rows_app old new later :
  merge_rows (old ++ new) later = merge_rows old (new ++ later).
Proof. unfold merge_rows. by rewrite app_assoc. Qed.

Lemma merge_rows_again old new : merge_rows old (new ++ new) = merge_rows old new.
Proof.
  apply merge_rows_unique; [apply merge_rows_ids_NoDup|apply sort_records_sorted|].
  intros row. rewrite merge_rows_elem, !newest_row_app.
  by destruct (newest_row (ar_id row) new).
Qed.

(** A sorted page without repeated rows is its own merge. *)
Lemma merge_rows_canonical items :
  NoDup (map ar_id items) -> StronglySorted record_le items -> merge_rows [] items = items.
Proof.
  intros Hnd Hs. symmetry. apply merge_rows_unique; [done|done|].
  intros row. symmetry. by apply newest_row_NoDup.
Qed.

Lemma merge_rows_nil items : merge_rows [] items = [] -> items = [].
Proof.
  intros E. destruct items as [|x items]; [done|].
  assert (ar_id x ∈ map ar_id (merge_rows [] (x :: items))) as Hx
    by (apply merge_rows_id; right; left).
  rewrite E in Hx. by apply elem_of_nil in Hx.
Qed.

(** Merging pages of activity gives one row per identifier, in descending
    logical time, then timestamp, then identifier order; the row of an identifier
    is the last one received; the result does not depend on the order in which
    the hash map lists its values; and receiving a page twice changes nothing. *)
Theorem activity_merge_spec old new :
  NoDup (map ar_id (merge_rows old new)) /\
  StronglySorted record_le (merge_rows old new) /\
  (forall row, row ∈ merge_rows old new <-> newest_row (ar_id row) (old ++ new) = Some row) /\
  (forall listing, listing ≡ₚ merged_values old new -> sort_records listing = merge_rows old new) /\
  merge_rows (merge_rows old new) new = merge_rows old new.
Proof.
  split_and!.
  - apply merge_rows_ids_NoDup.
  - apply sort_records_sorted.
  - apply merge_rows_elem.
  - apply merge_rows_order.
  - rewrite merge_rows_merge, merge_rows_app. apply merge_rows_again.
Qed.

(** ** Pages *)

Section Pages.
Context `{TonAddressText}.

Lemma page_advances_spec s page :
  page_advances s page = true ->
  exists previous next,
    st_activity_cursor s = Some previous /\ ap_cursor page = Some next /\
    (apc_logical_time next < apc_logical_time previous)%N.
Proof.
  unfold page_advances. destruct (st_activity_cursor s), (ap_cursor page); try done.
  intros ?%N.ltb_lt. eauto.
Qed.

(** One page of older activity.  A page whose cursor is older moves the
    cursor strictly back in logical time, keeps every loaded row identifier, adds
    those of the page and reports exactly the number of new rows; any other page
    leaves rows and cursor alone, adds nothing and stops pagination. *)
Theorem activity_page_spec page s :
  NoDup (map ar_id (st_activity s)) ->
  let s' := (apply_activity_page page s).1 in
  let added := (apply_activity_page page s).2 in
  if page_advances s page then
    (exists previous next,
       st_activity_cursor s = Some previous /\ st_activity_cursor s' = Some next /\
       (apc_logical_time next < apc_logical_time previous)%N) /\
    st_activity_has_more s' = ap_has_more page /\
    NoDup (map ar_id (st_activity s')) /\
    (forall id, id ∈ map ar_id (st_activity s') <->
       id ∈ map ar_id (st_activity s) \/ id ∈ map ar_id (ap_items page)) /\
    N.of_nat (length (st_activity s')) = (N.of_nat (length (st_activity s)) + added)%N
  else
    st_activity s' = st_activity s /\ st_activity_cursor s' = st_activity_cursor s /\
    st_activity_has_more s' = false /\ added = 0%N.
Proof.
  intros Hnd s' added. unfold s', added, apply_activity_page.
  destruct (page_advances s page) eqn:E; [|done]. simpl.
  destruct (page_advances_spec s page E) as (previous & next & Hp & Hn & Hlt).
  rewrite Hn. split_and!.
  - eauto.
  - done.
  - apply merge_rows_ids_NoDup.
  - apply merge_rows_id.
  - assert (length (st_activity s) <= length (merge_rows (st_activity s) (ap_items page))).
    { rewrite <- (length_map ar_id (st_activity s)), <- (length_map ar_id (merge_rows _ _)).
      apply submseteq_length, NoDup_submseteq; [done|].
      intros id Hid. apply merge_rows_id. by left. }
    lia.
Qed.

(** A caller that loads page after page while the list reports more; the number
    of pages that were requested. *)
Fixpoint load_pages (pages : list ActivityPage) (s : State) : nat :=
  match pages with
  | [] => 0
  | page :: rest =>
      if st_activity_has_more s then S (load_pages rest (apply_activity_page page s).1) else 0
  end.

(** C37: pagination ends whatever the provider answers: from a cursor at logical
    time [t] at most [t + 1] pages are ever requested before the list reports
    that it has no more. *)
Theorem activity_pagination_terminates pages s cursor :
  st_activity_cursor s = Some cursor ->
  load_pages pages s <= S (N.to_nat (apc_logical_time cursor)).
Proof.
  revert s cursor. induction pages as [|page pages IH]; intros s cursor Hc; simpl; [lia|].
  destruct (st_activity_has_more s); [|lia]. unfold apply_activity_page.
  destruct (page_advances s page) eqn:E; simpl.
  - destruct (page_advances_spec s page E) as (previous & next & Hp & Hn & Hlt).
    rewrite Hp in Hc. injection Hc as ->.
    match goal with |- S (load_pages _ ?s1) <= _ =>
      pose proof (IH s1 next Hn) end. lia.
  - destruct pages; simpl; lia.
Qed.

(** A refresh after the first one replaces rows but forgets none: it merges
    the newest page into the loaded rows and keeps cursor and end marker, so that
    the next page continues below the oldest loaded row; the first one takes rows,
    cursor and marker from the page as they are. *)
Theorem refresh_keeps_loaded_history page s :
  let s' := apply_refreshed_activity_page page s in
  if is_empty (st_activity s) then
    st_activity s' = ap_items page /\ st_activity_cursor s' = ap_cursor page /\
    st_activity_has_more s' = ap_has_more page
  else
    st_activity_cursor s' = st_activity_cursor s /\
    st_activity_has_more s' = st_activity_has_more s /\
    (forall id, id ∈ map ar_id (st_activity s') <->
       id ∈ map ar_id (st_activity s) \/ id ∈ map ar_id (ap_items page)) /\
    (forall row, row ∈ st_activity s' -> ar_id row ∈ map ar_id (ap_items page) ->
       newest_row (ar_id row) (ap_items page) = Some row).
Proof.
  intros s'. unfold s', apply_refreshed_activity_page.
  destruct (is_empty (st_activity s)) eqn:E; [done|]. simpl. split_and!; [done|done| |].
  - apply merge_rows_id.
  - intros row Hrow Hid. apply merge_rows_elem in Hrow. rewrite newest_row_app in Hrow.
    apply newest_row_is_Some in Hid as [r Hr]. by rewrite Hr in *.
Qed.

(** ** The rows as a function of what was received *)

Inductive page_event :=
  | Refreshed (page : ActivityPage)
  | Loaded (page : ActivityPage).

Definition event_page (event : page_event) : ActivityPage :=
  match event with Refreshed page | Loaded page => page end.

Definition apply_page_event (s : State) (event : page_event) : State :=
  match event with
  | Refreshed page => apply_refreshed_activity_page page s
  | Loaded page => (apply_activity_page page s).1
  end.

(** The rows the client accepts from an event: a loaded page must continue below the
    oldest logical time that was reached. *)
Definition accepted_rows (s : State) (event : page_event) : list ActivityRecord :=
  match event with
  | Refreshed page => ap_items page
  | Loaded page =>
      match st_activity_cursor s, ap_cursor page with
      | Some previous, Some next =>
          if (apc_logical_time next <? apc_logical_time previous)%N then ap_items page else []
      | _, _ => []
      end
  end.

Fixpoint received (s : State) (events : list page_event) : list ActivityRecord :=
  match events with
  | [] => []
  | event :: rest => accepted_rows s event ++ received (apply_page_event s event) rest
  end.

(** A page without repeated identifiers, sorted. *)
Definition parsed_page (page : ActivityPage) : Prop :=
  NoDup (map ar_id (ap_items page)) /\ StronglySorted record_le (ap_items page).

(** The list that a log leads to: its merge, or the items of the only page it holds. *)
Definition shows (events : list page_event) (log rows : list ActivityRecord) : Prop :=
  rows = merge_rows [] log \/
  (rows = log /\ exists page, Refreshed page ∈ events /\ rows = ap_items page).

Lemma shows_nil events log : shows events log [] -> log = [].
Proof. intros [E|[E _]]; [by apply merge_rows_nil|done]. Qed.

Lemma shows_merge events log rows items :
  shows events log rows -> merge_rows rows items = merge_rows [] (log ++ items).
Proof. intros [->|[-> _]]; rewrite ?merge_rows_merge; by rewrite <- merge_rows_app. Qed.

Lemma shows_mono events events' log rows : events ⊆ events' -> shows events log rows -> shows events' log rows.
Proof. unfold shows. set_solver. Qed.

Lemma loaded_rows s page :
  accepted_rows s (Loaded page) = if page_advances s page then ap_items page else [].
Proof. cbn. unfold page_advances. by repeat case_match. Qed.

Lemma apply_page_event_rows events log s event :
  shows events log (st_activity s) ->
  shows (event :: events) (log ++ accepted_rows s event) (st_activity (apply_page_event s event)).
Proof.
  intros Hlog. destruct event as [page|page].
  - cbn [apply_page_event accepted_rows]. unfold apply_refreshed_activity_page.
    destruct (st_activity s) as [|row rows] eqn:Es; cbn [is_empty].
    + right. apply shows_nil in Hlog as ->. split; [done|]. exists page. split; [left|done].
    + left. cbn. by apply (shows_merge events).
  - rewrite loaded_rows. cbn [apply_page_event]. unfold apply_activity_page.
    destruct (page_advances s page); cbn [negb].
    + left. cbn. by apply (shows_merge events).
    + cbn. rewrite app_nil_r. eapply shows_mono; [|exact Hlog]. set_solver.
Qed.

Lemma received_rows_log before events log s :
  shows before log (st_activity s) ->
  shows (before ++ events) (log ++ received s events) (st_activity (foldl apply_page_event s events)).
Proof.
  revert before s log. induction events as [|event events IH]; intros before s log Hlog; simpl.
  - by rewrite !app_nil_r.
  - apply (apply_page_event_rows _ _ _ event) in Hlog. apply IH in Hlog. rewrite <- app_assoc in Hlog.
    eapply shows_mono; [|exact Hlog]. set_solver.
Qed.

End Pages.

(** ** NFT pages *)

Definition nft_key (item : NftItem) : rstr := tas_value (nft_address item).

Definition nft_keys (items : list NftItem) : gset rstr := list_to_set (map nft_key items).

Lemma nft_keys_app a b : nft_keys (a ++ b) = nft_keys a ∪ nft_keys b.
Proof. unfold nft_keys. by rewrite map_app, list_to_set_app_L. Qed.

Lemma nft_keys_elem items key : key ∈ nft_keys items <-> key ∈ map nft_key items.
Proof. apply elem_of_list_to_set. Qed.

Lemma retain_unseen_keys seen items :
  seen ∪ nft_keys (retain_unseen seen items) = seen ∪ nft_keys items.
Proof.
  revert seen. induction items as [|x items IH]; intros seen; simpl; [done|].
  fold (nft_key x). unfold nft_keys in *. simpl.
  destruct (decide (nft_key x ∈ seen)); [rewrite IH; set_solver|].
  simpl. fold (nft_key x). specialize (IH ({[nft_key x]} ∪ seen)). set_solver.
Qed.

Lemma retain_unseen_app seen a b :
  retain_unseen seen (a ++ b)
  = retain_unseen seen a ++ retain_unseen (seen ∪ nft_keys a) b.
Proof.
  revert seen. induction a as [|x a IH]; intros seen; simpl.
  - f_equal. unfold nft_keys. set_solver.
  - fold (nft_key x). destruct (decide (nft_key x ∈ seen)); rewrite IH.
    + do 2 f_equal. unfold nft_keys. set_solver.
    + simpl. do 3 f_equal. unfold nft_keys. set_solver.
Qed.

Lemma retain_unseen_NoDup seen items :
  NoDup (map nft_key (retain_unseen seen items)) /\
  Forall (fun item => nft_key item ∉ seen) (retain_unseen seen items).
Proof.
  revert seen. induction items as [|x items IH]; intros seen; simpl.
  - split; constructor.
  - fold (nft_key x). destruct (decide (nft_key x ∈ seen)) as [|Hx]; [done|]. simpl.
    destruct (IH ({[nft_key x]} ∪ seen)) as [Hnd Hall]. split.
    + constructor; [|done]. rewrite list_elem_of_fmap. intros (y & Hy & Hin).
      rewrite Forall_forall in Hall. specialize (Hall y Hin).
      set_solver.
    + constructor; [done|]. eapply Forall_impl; [exact Hall|]. set_solver.
Qed.

Lemma deduplicate_nfts_keys items : nft_keys (deduplicate_nfts items) = nft_keys items.
Proof. pose proof (retain_unseen_keys ∅ items). unfold deduplicate_nfts. set_solver. Qed.

Definition nft_items (s : State) : list NftItem := nl_items (ws_nfts (st_snapshot s)).

Lemma apply_nft_page_items page s log :
  nft_items s = deduplicate_nfts log ->
  nft_items (apply_nft_page page s).1 = deduplicate_nfts (log ++ np_items page).
Proof.
  unfold apply_nft_page, nft_items. simpl. intros ->. unfold deduplicate_nfts at 3.
  rewrite retain_unseen_app. fold (deduplicate_nfts log). do 2 f_equal.
  change (nft_keys (deduplicate_nfts log) = ∅ ∪ nft_keys log).
  rewrite deduplicate_nfts_keys. set_solver.
Qed.

(** The state after a refresh with [first] and further loaded pages. *)
Definition load_nft_pages (first : NftPage) (rest : list NftPage) (s : State) : State :=
  foldl (fun s page => (apply_nft_page page s).1) (apply_refreshed_nft_page first s) rest.

Definition raw_total (pages : list NftPage) : N := foldr N.add 0%N (map np_raw_count pages).

Lemma load_nft_pages_log rest log s :
  nft_items s = deduplicate_nfts log ->
  let s' := foldl (fun s page => (apply_nft_page page s).1) s rest in
  nft_items s' = deduplicate_nfts (log ++ flat_map np_items rest) /\
  ((st_nft_offset s <= u64_max)%N ->
   st_nft_offset s' = N.min u64_max (st_nft_offset s + raw_total rest)).
Proof.
  revert log s. induction rest as [|page rest IH]; intros log s Hlog.
  - simpl. rewrite app_nil_r. split; [done|]. unfold raw_total. simpl. lia.
  - cbn [foldl flat_map]. destruct (IH _ _ (apply_nft_page_items page s log Hlog)) as [Hi Ho]. split.
    + by rewrite Hi, app_assoc.
    + intros Hle.
      assert (st_nft_offset (apply_nft_page page s).1
              = N.min u64_max (st_nft_offset s + np_raw_count page)) as Hs by done.
      rewrite Ho; rewrite Hs; [|lia]. unfold raw_total. simpl. lia.
Qed.

(** The NFT list after a refresh and any number of loaded pages is the
    concatenation of the pages in which only the first item of each address is
    kept: no address occurs twice, no address the provider reported is missing,
    and the next request starts at the number of raw rows read so far, saturating
    at the machine limit. *)
Theorem nft_pages_spec first rest s :
  let s' := load_nft_pages first rest s in
  let reported := flat_map np_items (first :: rest) in
  nft_items s' = deduplicate_nfts reported /\
  NoDup (map nft_key (nft_items s')) /\
  (forall key, key ∈ map nft_key (nft_items s') <-> key ∈ map nft_key reported) /\
  ((np_raw_count first <= u64_max)%N ->
   st_nft_offset s' = N.min u64_max (raw_total (first :: rest))).
Proof.
  intros s' reported. unfold s', load_nft_pages, reported.
  destruct (load_nft_pages_log rest (np_items first) (apply_refreshed_nft_page first s))
    as [Hi Ho]; [done|]. cbn zeta in Hi. rewrite Hi. split_and!.
  - done.
  - apply (retain_unseen_NoDup ∅).
  - intros key. by rewrite <- !nft_keys_elem, deduplicate_nfts_keys.
  - intros Hle. by rewrite Ho.
Qed.
