(* ===== verification/ClientWitnesses.v ===== *)
(** * Concrete runs of the client

    A client with reference instances of the third-party parameters, driven
    through lock sections; each witness applies a theorem to such a run. *)

From stdpp Require Import base numbers list option strings gmap relations.
From S2P Require Import Prelude BoundaryTypes SendDomain SendWorkflow SendReducer RefCodec.
From S2P Require Import ClientDomain Json ProviderRequest ClientState ClientCalls.
From S2P Require Import ClientSections ClientInvariant ClientActivity SendWitnesses.

(** ** Reference parameters *)

(** Compact JSON text; the strings of the runs need no escapes. *)
Fixpoint json_text (v : Value) : rstr :=
  match v with
  | Null => lit "null"
  | Bool b => if b then lit "true" else lit "false"
  | Num (PosInt n) => u64_to_string n
  | Num (NegInt n) => lit "-" ++ u64_to_string (Z.abs_N n)
  | Num (Float text) => text
  | Str s => [34%N] ++ s ++ [34%N]
  | Array items => lit "[" ++ flat_map (fun v => json_text v ++ lit ",") items ++ lit "]"
  | Object fields =>
      lit "{" ++ flat_map (fun '(k, v) => [34%N] ++ k ++ [34%N; 58%N] ++ json_text v ++ lit ",") fields
        ++ lit "}"
  end.

Definition text (s : string) : Value := Str (lit s).

(** The documents that the hosts of the runs send. *)
Definition account_document : Value :=
  object [("ok", Bool true);
          ("result", object [("balance", text "100"); ("state", text "active");
                             ("sync_utime", Num (PosInt 1000))])].
Definition seqno_document : Value :=
  object [("result", object [("stack", Array [Array [text "num"; text "0x7"]])])].
Definition accepted_document : Value :=
  object [("ok", Bool true); ("result", object [("@type", text "ok")])].
Definition no_transactions_document : Value := object [("transactions", Array [])].
Definition wallets_document : Value :=
  object [("wallets", Array [object [("seqno", Num (PosInt 8))]])].

Definition demo_documents : list Value :=
  [account_document; seqno_document; accepted_document; no_transactions_document;
   wallets_document].

(** A reader of exactly these documents. *)
Definition read_document (body : bytes) : result rstr Value :=
  ok_or (lit "unknown document")
    (List.find (fun v => bool_decide (utf8 (json_text v) = body)) demo_documents).

#[export] Instance RefJson : SerdeJson := {
  value_to_vec v := Ok (utf8 (json_text v));
  document_from_slice := read_document;
  value_to_string v := json_text v;
  serde_error _ := lit "invalid type";
  serde_value_error _ := lit "invalid type";
}.

#[export] Instance RefAddressText : TonAddressText := {
  to_base64 a _ _ _ := ta_hash a;
}.

(** ** A client *)

Definition demo_config : WalletClientConfig :=
  mkWalletClientConfig demo_record_id demo_source (repeat 0%N 32)
    (Some (mkProtectedSecretRef (lit "secret"))) Testnet 60 60
    (mkProviderConfig (lit "https://testnet.toncenter.com/") None 15000).

Definition run_calls (calls : list ClientCall) (s : State) : State :=
  fold_left (fun s call => run_client call s) calls s.

(** The state after construction and these calls. *)
Definition demo_state (calls : list ClientCall) : option State :=
  match with_transport demo_config with
  | Ok s => Some (run_calls calls s)
  | Err _ => None
  end.

Definition any_id (call : ClientCall) : bool :=
  match call with
  | Do_start_preview_request _ _ | Do_start_send_request _ _
  | Do_start_resolution_request _ _ => false
  | _ => true
  end.

Lemma run_calls_steps calls s :
  forallb any_id calls = true -> rtc client_step s (run_calls calls s).
Proof.
  revert s. induction calls as [|call calls IH]; intros s; [done|]. simpl.
  intros [Hc Hcs]%andb_true_iff. eapply rtc_l; [|by apply IH].
  exists call. split; [by destruct call|done].
Qed.

Lemma demo_state_reachable calls s :
  forallb any_id calls = true -> demo_state calls = Some s -> reachable_client s.
Proof.
  unfold demo_state. destruct (with_transport demo_config) as [s0|] eqn:E; [|done].
  intros Hc [= <-]. exists demo_config, s0. split; [done|by apply run_calls_steps].
Qed.

(** A state for the witnesses, computed. *)
Definition demo (calls : list ClientCall) : State :=
  match with_transport demo_config with
  | Ok s => run_calls calls s
  | Err _ => mkState demo_config (snapshot_empty demo_config) [] None false 0 false None 1
               0 0 0 0 0 0 0 None None None None None None None false None [] false false
  end.

Lemma demo_reachable calls : forallb any_id calls = true -> reachable_client (demo calls).
Proof.
  intros Hc. apply (demo_state_reachable calls); [done|]. unfold demo_state, demo.
  destruct (with_transport demo_config) eqn:E; [done|]. by vm_compute in E.
Qed.

(** ** Witnesses *)

Lemma provider_url_query_roundtrip_witness :
  exists q,
    split_once 63 (lit "https://toncenter.com/v2/api/v2/find?a+b=%3D%26") =
      Some (lit "https://toncenter.com/v2/api/v2/find", q) /\
    parse_form q = Some [(lit "a b", lit "=&")].
Proof.
  destruct (provider_url_query_roundtrip (lit "https://toncenter.com/v2/")
    [lit "api"; lit "v2"; lit "find"] [(lit "a b", lit "=&")]
    (lit "https://toncenter.com/v2/api/v2/find?a+b=%3D%26")) as (q & Hs & Hp).
  - vm_compute. reflexivity.
  - vm_compute. reflexivity.
  - discriminate.
  - exists q. split; [exact Hs|exact Hp].
Defined.

Lemma provider_url_keeps_authority_witness :
  exists authority, authority <> [] /\
    url_authority (lit "http://localhost:8081/x/%40?q=%40evil") = Some authority.
Proof.
  destruct (provider_url_keeps_authority (lit "http://localhost:8081") [lit "x"; lit "%40"]
    [(lit "q", lit "@evil")] (lit "http://localhost:8081/x/%40?q=%40evil"))
    as (authority & _ & Hne & _ & Hau & _).
  - vm_compute. reflexivity.
  - exists authority. split; [exact Hne|exact Hau].
Defined.

Definition refreshing : State := demo [Do_start_refresh; Do_start_send demo_request].

Lemma client_invariant_witness :
  active_generation Refresh refreshing = Some 1%N /\ client_inv refreshing.
Proof.
  split; [vm_compute; reflexivity|].
  apply client_invariant, demo_reachable. reflexivity.
Defined.

(** A second refresh makes the first one stale; its answer changes nothing. *)
Lemma superseded_results_are_ignored_witness :
  run_client (Do_finish_refresh 1) (demo [Do_start_refresh; Do_start_refresh; Do_cancel_refresh])
    = demo [Do_start_refresh; Do_start_refresh; Do_cancel_refresh].
Proof.
  apply (superseded_results_are_ignored (demo [Do_start_refresh; Do_start_refresh]) _
           _ Refresh 1).
  - apply demo_reachable. reflexivity.
  - reflexivity.
  - vm_compute. discriminate.
  - vm_compute. reflexivity.
  - apply rtc_once. exists Do_cancel_refresh. split; [exact I|vm_compute; reflexivity].
Defined.

Lemma revision_identifies_snapshot_witness :
  st_snapshot (demo [Do_start_refresh; Do_start_preview]) = st_snapshot (demo [Do_start_refresh]).
Proof.
  apply (revision_identifies_snapshot (demo [Do_start_refresh])).
  - apply demo_reachable. reflexivity.
  - apply rtc_once. exists Do_start_preview. split; [exact I|vm_compute; reflexivity].
  - vm_compute. reflexivity.
  - vm_compute. reflexivity.
Defined.

Definition committed_client : State :=
  demo [Do_start_send demo_request; Do_begin_send_commit 1].

Lemma commit_boundary_respected_witness :
  committed 1 (run_client Do_cancel_send committed_client) /\
  (cancel_send committed_client).2 = Err SendCancellationTooLate.
Proof.
  apply (commit_boundary_respected Do_cancel_send 1 committed_client).
  - split; vm_compute; reflexivity.
  - discriminate.
Defined.

Lemma shutdown_freezes_the_client_witness :
  demo [Do_start_send demo_request; Do_shutdown_turn 0; Do_start_refresh]
    = demo [Do_start_send demo_request; Do_shutdown_turn 0].
Proof.
  apply shutdown_freezes_the_client.
  - apply demo_reachable. reflexivity.
  - vm_compute. reflexivity.
  - apply rtc_once. exists Do_start_refresh. split; [exact I|vm_compute; reflexivity].
Defined.

Lemma shutdown_turn_spec_witness :
  exists s' receiver,
    shutdown_turn 3 committed_client = (s', Ok (Shutdown_Wait receiver)) /\ receiver = 3.
Proof.
  assert (st_shutdown committed_client = false) as Hrun by (vm_compute; reflexivity).
  pose proof (shutdown_turn_spec 3 committed_client Hrun) as Hspec.
  destruct (shutdown_turn 3 committed_client) as [s' [[|r|ids ws]|e]] eqn:E;
    try (exfalso; vm_compute in E; discriminate).
  exists s', r. split; [reflexivity|]. exact (proj1 Hspec).
Defined.

(** ** Activity pages *)

Definition demo_row (id : string) (logical_time : N) : ActivityRecord :=
  mkActivityRecord (lit id) (mkBase64Hash (lit id)) logical_time 100 Received 5 1
    Activity_Success None None None.

Definition demo_page (rows : list ActivityRecord) (oldest : N) : ActivityPage :=
  mkActivityPage rows (Some (mkActivityPageCursor oldest (mkBase64Hash (lit "h")))) true.

Definition first_page : ActivityPage := demo_page [demo_row "c" 9; demo_row "b" 7] 7.
Definition older_page : ActivityPage := demo_page [demo_row "b" 7; demo_row "a" 3] 3.

Definition demo_loaded : State := apply_refreshed_activity_page first_page (demo []).

Lemma activity_page_spec_witness :
  st_activity (apply_activity_page older_page demo_loaded).1
    = [demo_row "c" 9; demo_row "b" 7; demo_row "a" 3] /\
  NoDup (map ar_id (st_activity (apply_activity_page older_page demo_loaded).1)).
Proof.
  split; [vm_compute; reflexivity|].
  assert (NoDup (map ar_id (st_activity demo_loaded))) as Hnd
    by (apply (bool_decide_unpack _); vm_compute; exact I).
  pose proof (activity_page_spec older_page demo_loaded Hnd) as Hspec.
  assert (page_advances demo_loaded older_page = true) as Hadv by (vm_compute; reflexivity).
  rewrite Hadv in Hspec. exact (proj1 (proj2 (proj2 Hspec))).
Defined.

Lemma activity_pagination_terminates_witness :
  load_pages [older_page; older_page; older_page] demo_loaded = 2 /\
  load_pages [older_page; older_page; older_page] demo_loaded <= 8.
Proof.
  split; [vm_compute; reflexivity|].
  apply (activity_pagination_terminates _ demo_loaded
           (mkActivityPageCursor 7 (mkBase64Hash (lit "h")))).
  vm_compute. reflexivity.
Defined.

Lemma demo_page_parsed rows oldest :
  bool_decide (NoDup (map ar_id rows)) = true -> sort_records rows = rows ->
  parsed_page (demo_page rows oldest).
Proof.
  intros Hnd%bool_decide_eq_true Hs. split; [done|]. simpl. rewrite <- Hs.
  apply sort_records_sorted.
Qed.

