(* ===== verification/Futures.v ===== *)
(** * Futures of the client

    An [async] method of the client is a program that runs lock sections and
    awaits the host in between.  [future] is the free monad of these steps.  A
    run interleaves the sections of a future with sections of any other operation
    ([client_step]), the host may answer anything, and the future may be dropped
    at every await, so that properties of runs are properties of all prefixes. *)

From stdpp Require Import base numbers list option strings gmap relations.
From S2P Require Import Prelude BoundaryTypes SendDomain SendWorkflow.
From S2P Require Import ClientDomain Json ProviderRequest ClientState ClientCalls.

(** Host errors are only ever printed; they are represented by their text. *)
Inductive future (A : Type) : Type :=
  | Done (a : A)
  | Locked (B : Type) (critical : State -> State * B) (next : B -> future A)
  | Execute (request : HttpRequest) (next : result DomainError bytes -> future A)
  | Load (key : JournalKey) (next : result rstr (option JournalRecord) -> future A)
  | CompareExchange (mutation : JournalCompareExchange)
      (next : result rstr JournalCompareExchangeResult -> future A)
  | ReadSecret (request : ProtectedSecretRead) (next : result rstr bytes -> future A).

Arguments Done {A} a.
Arguments Locked {A B} critical next.
Arguments Execute {A} request next.
Arguments Load {A} key next.
Arguments CompareExchange {A} mutation next.
Arguments ReadSecret {A} request next.

Fixpoint fbind {A B} (f : future A) (g : A -> future B) : future B :=
  match f with
  | Done a => g a
  | Locked critical next => Locked critical (fun b => fbind (next b) g)
  | Execute request next => Execute request (fun answer => fbind (next answer) g)
  | Load key next => Load key (fun answer => fbind (next answer) g)
  | CompareExchange mutation next =>
      CompareExchange mutation (fun answer => fbind (next answer) g)
  | ReadSecret request next => ReadSecret request (fun answer => fbind (next answer) g)
  end.

(** A future that returns a [Result], and the [?] operator on it. *)
Definition attempt (A : Type) : Type := future (result WalletClientError A).

Definition fok {A} (a : A) : attempt A := Done (Ok a).

Definition fthrow {A} (error : WalletClientError) : attempt A := Done (Err error).

Definition abind {A B} (f : attempt A) (g : A -> attempt B) : attempt B :=
  fbind f (fun r => match r with Ok a => g a | Err error => fthrow error end).

Notation "'await!' x := f 'in' k" := (abind f (fun x => k))
  (at level 10, x name, f at level 100, k at level 200) : rust_scope.
Notation "'run!' f ; k" := (abind f (fun _ => k))
  (at level 10, f at level 100, k at level 200) : rust_scope.

(** A critical section whose result is propagated with [?]. *)
Definition locked {A} (m : section A) : attempt A := Locked m Done.

(** [Err(self.error_method(...))], a section that computes the error to return. *)
Definition fail_with {A} (critical : State -> State * WalletClientError) : attempt A :=
  Locked critical (fun error => fthrow error).

(** [result.map_err(|error| self.error_method(error))?]. *)
Definition or_fail {A E} (r : result E A) (critical : E -> State -> State * WalletClientError)
  : attempt A :=
  match r with
  | Ok a => fok a
  | Err error => fail_with (critical error)
  end.

Definition execute (request : HttpRequest) : future (result DomainError bytes) :=
  Execute request Done.
Definition load_journal (key : JournalKey) : future (result rstr (option JournalRecord)) :=
  Load key Done.
Definition compare_exchange_journal (mutation : JournalCompareExchange)
  : future (result rstr JournalCompareExchangeResult) := CompareExchange mutation Done.
Definition read_protected_secret (request : ProtectedSecretRead) : future (result rstr bytes) :=
  ReadSecret request Done.

Notation "'host!' x := f 'in' k" := (fbind f (fun x => k))
  (at level 10, x name, f at level 100, k at level 200) : rust_scope.

(** ** Runs *)

(** What the host sees. *)
Inductive event :=
  | Executed (request : HttpRequest) (answer : result DomainError bytes)
  | Journal_Loaded (key : JournalKey) (answer : result rstr (option JournalRecord))
  | Exchanged (mutation : JournalCompareExchange)
      (answer : result rstr JournalCompareExchangeResult)
  | Secret_Read (request : ProtectedSecretRead) (answer : result rstr bytes).

Section Runs.
Context `{JournalCodec} `{SerdeJson} `{BigUintText} `{TonAddressText}.

(** [runs f s events s' f']: from state [s] the future goes to [f'] and state [s']
    while the host sees [events] and other operations take any steps. *)
Inductive runs {A} : future A -> State -> list event -> State -> future A -> Prop :=
  | runs_refl f s : runs f s [] s f
  | runs_env f s s1 events s' f' :
      client_step s s1 -> runs f s1 events s' f' -> runs f s events s' f'
  | runs_locked B (critical : State -> State * B) next s events s' f' :
      runs (next (critical s).2) (critical s).1 events s' f' ->
      runs (Locked critical next) s events s' f'
  | runs_execute request next answer s events s' f' :
      runs (next answer) s events s' f' ->
      runs (Execute request next) s (Executed request answer :: events) s' f'
  | runs_load key next answer s events s' f' :
      runs (next answer) s events s' f' ->
      runs (Load key next) s (Journal_Loaded key answer :: events) s' f'
  | runs_exchange mutation next answer s events s' f' :
      runs (next answer) s events s' f' ->
      runs (CompareExchange mutation next) s (Exchanged mutation answer :: events) s' f'
  | runs_secret request next answer s events s' f' :
      runs (next answer) s events s' f' ->
      runs (ReadSecret request next) s (Secret_Read request answer :: events) s' f'.
End Runs.

(** ** Execution

    A future against a host that answers by functions, with no other operation
    running.  It is total: every future of the client ends. *)

Record Host := mkHost {
  on_execute : HttpRequest -> result DomainError bytes;
  on_load : JournalKey -> result rstr (option JournalRecord);
  on_exchange : JournalCompareExchange -> result rstr JournalCompareExchangeResult;
  on_secret : ProtectedSecretRead -> result rstr bytes;
}.

Fixpoint run_with {A} (host : Host) (f : future A) (s : State) : list event * State * A :=
  match f with
  | Done a => ([], s, a)
  | Locked critical next => run_with host (next (critical s).2) (critical s).1
  | Execute request next =>
      let answer := on_execute host request in
      let '(events, s', a) := run_with host (next answer) s in
      (Executed request answer :: events, s', a)
  | Load key next =>
      let answer := on_load host key in
      let '(events, s', a) := run_with host (next answer) s in
      (Journal_Loaded key answer :: events, s', a)
  | CompareExchange mutation next =>
      let answer := on_exchange host mutation in
      let '(events, s', a) := run_with host (next answer) s in
      (Exchanged mutation answer :: events, s', a)
  | ReadSecret request next =>
      let answer := on_secret host request in
      let '(events, s', a) := run_with host (next answer) s in
      (Secret_Read request answer :: events, s', a)
  end.

Lemma run_with_runs `{JournalCodec} `{SerdeJson} `{BigUintText} `{TonAddressText} {A} host
    (f : future A) s events s' a :
  run_with host f s = (events, s', a) -> runs f s events s' (Done a).
Proof.
  revert s events s' a.
  induction f as [a0|C critical next IH|r next IH|key next IH|m next IH|r next IH];
    intros s events s' a E; simpl in E.
  - simplify_eq. constructor.
  - constructor. by apply IH.
  - destruct (run_with _ _ _) as [[ev st] b] eqn:D in E. simplify_eq. constructor. by apply IH.
  - destruct (run_with _ _ _) as [[ev st] b] eqn:D in E. simplify_eq. constructor. by apply IH.
  - destruct (run_with _ _ _) as [[ev st] b] eqn:D in E. simplify_eq. constructor. by apply IH.
  - destruct (run_with _ _ _) as [[ev st] b] eqn:D in E. simplify_eq. constructor. by apply IH.
Qed.

(** ** Reasoning about all runs

    [always ok post history f]: after [history], every event that [f] causes is
    allowed by [ok] given the events before it, and a result satisfies [post]
    given all events.  The state at each section is arbitrary. *)
Fixpoint always {A} (ok : list event -> event -> Prop) (post : list event -> A -> Prop)
    (history : list event) (f : future A) : Prop :=
  match f with
  | Done a => post history a
  | Locked critical next => forall s, always ok post history (next (critical s).2)
  | Execute request next =>
      forall answer, ok history (Executed request answer) /\
        always ok post (history ++ [Executed request answer]) (next answer)
  | Load key next =>
      forall answer, ok history (Journal_Loaded key answer) /\
        always ok post (history ++ [Journal_Loaded key answer]) (next answer)
  | CompareExchange mutation next =>
      forall answer, ok history (Exchanged mutation answer) /\
        always ok post (history ++ [Exchanged mutation answer]) (next answer)
  | ReadSecret request next =>
      forall answer, ok history (Secret_Read request answer) /\
        always ok post (history ++ [Secret_Read request answer]) (next answer)
  end.

Lemma always_bind {A B} ok post history (f : future A) (g : A -> future B) mid :
  always ok mid history f ->
  (forall history' a, mid history' a -> always ok post history' (g a)) ->
  always ok post history (fbind f g).
Proof.
  intros Hf Hg. revert history Hf.
  induction f as [a|C critical next IH|r next IH|key next IH|m next IH|r next IH];
    intros history Hf; simpl in *; [by apply Hg|by intros s; apply IH| | | |].
  all: intros answer; destruct (Hf answer) as [Hok Hnext]; split; [done|by apply IH].
Qed.

(** The rule for [?]. *)
Lemma always_abind {A B} ok post history (f : attempt A) (g : A -> attempt B) mid :
  always ok (fun h r => match r with Ok a => mid h a | Err e => post h (Err e) end) history f ->
  (forall history' a, mid history' a -> always ok post history' (g a)) ->
  always ok post history (abind f g).
Proof.
  intros Hf Hg. eapply always_bind; [exact Hf|]. intros h [a|e] Hr; [by apply Hg|done].
Qed.

Lemma always_impl {A} ok (post post' : list event -> A -> Prop) history f :
  always ok post history f -> (forall h a, post h a -> post' h a) ->
  always ok post' history f.
Proof.
  intros Hf Hp. revert history Hf.
  induction f as [a|C critical next IH|r next IH|key next IH|m next IH|r next IH];
    intros history Hf; simpl in *; [by apply Hp|by intros s; apply IH| | | |].
  all: intros answer; destruct (Hf answer) as [Hok Hnext]; split; [done|by apply IH].
Qed.

(** The rules for one host call. *)
Lemma always_execute {A} ok (post : list event -> A -> Prop) h request g :
  (forall answer, ok h (Executed request answer)) ->
  (forall answer, always ok post (h ++ [Executed request answer]) (g answer)) ->
  always ok post h (fbind (execute request) g).
Proof. intros Hok Hg answer. by split. Qed.

Lemma always_load {A} ok (post : list event -> A -> Prop) h key g :
  (forall answer, ok h (Journal_Loaded key answer)) ->
  (forall answer, always ok post (h ++ [Journal_Loaded key answer]) (g answer)) ->
  always ok post h (fbind (load_journal key) g).
Proof. intros Hok Hg answer. by split. Qed.

Lemma always_exchange {A} ok (post : list event -> A -> Prop) h mutation g :
  (forall answer, ok h (Exchanged mutation answer)) ->
  (forall answer, always ok post (h ++ [Exchanged mutation answer]) (g answer)) ->
  always ok post h (fbind (compare_exchange_journal mutation) g).
Proof. intros Hok Hg answer. by split. Qed.

Lemma always_secret {A} ok (post : list event -> A -> Prop) h request g :
  (forall answer, ok h (Secret_Read request answer)) ->
  (forall answer, always ok post (h ++ [Secret_Read request answer]) (g answer)) ->
  always ok post h (fbind (read_protected_secret request) g).
Proof. intros Hok Hg answer. by split. Qed.

(** Weakening of the allowed events, and a future that starts after [prefix]. *)
Lemma always_shift {A} (ok ok' : list event -> event -> Prop) (post post' : list event -> A -> Prop)
    prefix history f :
  always ok post history f ->
  (forall h ev, ok h ev -> ok' (prefix ++ h) ev) ->
  (forall h a, post h a -> post' (prefix ++ h) a) ->
  always ok' post' (prefix ++ history) f.
Proof.
  intros Hf Hok Hpost. revert history Hf.
  induction f as [a|C critical next IH|r next IH|key next IH|m next IH|r next IH];
    intros history Hf; simpl in *; [by apply Hpost|by intros s; apply IH| | | |].
  all: intros answer; destruct (Hf answer) as [Hev Hnext]; split; [by apply Hok|];
    rewrite <- app_assoc; by apply IH.
Qed.

Section Soundness.
Context `{JournalCodec} `{SerdeJson} `{BigUintText} `{TonAddressText}.

(** Every event of every run is allowed at its place, and results are as claimed. *)
Lemma always_sound {A} ok post history (f f' : future A) s events s' :
  runs f s events s' f' -> always ok post history f ->
  (forall before ev after, events = before ++ ev :: after -> ok (history ++ before) ev) /\
  always ok post (history ++ events) f'.
Proof.
  intros Hrun. revert history.
  induction Hrun as [f s|f s s1 events s' f' Hstep _ IH|B critical next s events s' f' _ IH
    |r next answer s events s' f' _ IH|key next answer s events s' f' _ IH
    |m next answer s events s' f' _ IH|r next answer s events s' f' _ IH]; intros history Hf.
  1: { rewrite app_nil_r. split; [|done]. by intros [|? ?] ev after E. }
  1: by apply IH.
  1: apply IH, Hf.
  all: destruct (Hf answer) as [Hok Hnext]; destruct (IH _ Hnext) as [Hev Hend];
    rewrite <- app_assoc in Hend; split; [|done];
    intros [|e before] ev after E; simplify_eq/=; [by rewrite app_nil_r|];
    rewrite cons_middle, app_assoc; by apply (Hev before ev after).
Qed.

Corollary always_event {A} ok post (f f' : future A) s events s' before ev after :
  always ok post [] f -> runs f s events s' f' -> events = before ++ ev :: after -> ok before ev.
Proof.
  intros Hf Hrun. destruct (always_sound ok post [] f f' s events s' Hrun Hf) as [Hev _].
  apply Hev.
Qed.

Corollary always_result {A} ok post (f : future A) s events s' a :
  always ok post [] f -> runs f s events s' (Done a) -> post events a.
Proof.
  intros Hf Hrun. by destruct (always_sound ok post [] f _ s events s' Hrun Hf) as [_ Hend].
Qed.
End Soundness.

(** ** Rules for attempts

    Most claims are about successful results; [returns] says nothing of errors. *)

Definition returns {A} (P : list event -> A -> Prop) (h : list event)
    (r : result WalletClientError A) : Prop :=
  match r with Ok a => P h a | Err _ => True end.

Lemma returns_abind {A B} ok P h (f : attempt A) (g : A -> attempt B) mid :
  always ok (returns mid) h f ->
  (forall h' a, mid h' a -> always ok (returns P) h' (g a)) ->
  always ok (returns P) h (abind f g).
Proof. intros Hf Hg. by apply (always_abind _ _ _ _ _ mid). Qed.

Lemma returns_or_fail {A E} ok (P : list event -> A -> Prop) h (r : result E A) critical :
  (forall a, r = Ok a -> P h a) -> always ok (returns P) h (or_fail r critical).
Proof. intros Hr. destruct r as [a|e]; simpl; [by apply Hr|done]. Qed.

Lemma returns_locked {A} ok (P : list event -> A -> Prop) h (m : section A) :
  (forall s a, (m s).2 = Ok a -> P h a) -> always ok (returns P) h (locked m).
Proof.
  intros Hm s. simpl. destruct (m s).2 as [a|e] eqn:E; simpl; [by apply (Hm s)|done].
Qed.

Lemma returns_fail_with {A} ok (P : list event -> A -> Prop) h critical :
  always ok (returns P) h (fail_with (A := A) critical).
Proof. by intros s. Qed.
