(* ===== verification/Resolution.v ===== *)
(** * Resolution of a pending send

    [src/engine/resolution.rs] and [src/engine/resolve.rs]: the classification of
    one persisted message from provider evidence, the compare-and-swap loop that
    makes a terminal conclusion durable, and the standalone operation. *)

From stdpp Require Import base numbers list option strings gmap relations.
From S2P Require Import Prelude BoundaryTypes SendDomain SendWorkflow SendReducer.
From S2P Require Import Base64 ClientDomain Json ProviderRequest ProviderAnswers.
From S2P Require Import ClientState ClientCalls Futures.

(** ** Texts of errors *)

(** The derived [Debug] of a unit variant is its name. *)
Definition stage_name (stage : SendStage) : string :=
  match stage with
  | Stage_Validating => "Validating"
  | Stage_LoadingJournal => "LoadingJournal"
  | Stage_FetchingFreshAccount => "FetchingFreshAccount"
  | Stage_Authorizing => "Authorizing"
  | Stage_Preparing => "Preparing"
  | Stage_PersistingPrepared => "PersistingPrepared"
  | Stage_ReadyToSubmit => "ReadyToSubmit"
  | Stage_Submitting => "Submitting"
  | Stage_SubmissionUnknown => "SubmissionUnknown"
  | Stage_Submitted => "Submitted"
  | Stage_HandedOff => "HandedOff"
  | Stage_Confirmed => "Confirmed"
  | Stage_Replaced => "Replaced"
  | Stage_SequenceNumberConsumed => "SequenceNumberConsumed"
  | Stage_Superseded => "Superseded"
  | Stage_Expired => "Expired"
  | Stage_Failed => "Failed"
  | Stage_Cancelled => "Cancelled"
  end.

Definition status_name (status : AccountStatus) : string :=
  match status with
  | Account_Nonexistent => "Nonexistent"
  | Account_Uninitialized => "Uninitialized"
  | Account_Active => "Active"
  | Account_Frozen => "Frozen"
  | Account_Unknown => "Unknown"
  end.

Definition variant_name (v : SendStage + AccountStatus) : rstr :=
  match v with
  | inl stage => lit (stage_name stage)
  | inr status => lit (status_name status)
  end.

Definition error_text (error : SendWorkflowError) : rstr :=
  workflow_error_text variant_name error.

(** [Display] of [UnsignedDecimalString] and of [WalletClientError]. *)
Definition nanograms_text `{BigUintText} (value : UnsignedDecimalString) : rstr :=
  to_decimal_string value.

Definition client_error_text `{BigUintText} (error : WalletClientError) : rstr :=
  match error with
  | InvalidLocalSecretReference => lit "the local signing secret reference is blank"
  | InvalidWalletPublicKey => lit "the wallet public key cannot derive the wallet state"
  | WalletIdentityMismatch =>
      lit "the wallet address does not match the public key and network"
  | InvalidProviderBaseUrl => lit "the provider base URL cannot be used to build a request"
  | InvalidSendRequest => lit "invalid send request"
  | NftTransferUnavailable diagnostic => lit "NFT transfer is unavailable: " ++ diagnostic
  | NftTransferEmulationRejected diagnostic =>
      lit "NFT transfer emulation was rejected: " ++ diagnostic
  | EncryptedCommentUnavailable diagnostic =>
      lit "encrypted comment is unavailable: " ++ diagnostic
  | DnsResolutionUnavailable diagnostic =>
      lit "TON DNS resolution is unavailable: " ++ diagnostic
  | KeyRotationUnavailable diagnostic =>
      lit "wallet key rotation is unavailable: " ++ diagnostic
  | LocalSigningUnavailable => lit "the wallet is not configured for local signing"
  | IdentifierExhausted => lit "wallet client identifier space is exhausted"
  | StateUnavailable => lit "wallet client state is unavailable"
  | SendAlreadyInProgress => lit "another send operation is already in progress"
  | SendPreviewAlreadyInProgress => lit "another send preview is already in progress"
  | Client_PreviousSubmissionUnresolved => lit "the previous submission outcome is unresolved"
  | WalletSeqnoNotAdvanced =>
      lit "the wallet sequence number has not advanced since the previous submission"
  | SendAccountUnavailable status =>
      lit "wallet account state " ++ lit (status_name status) ++ lit " does not permit sending"
  | InsufficientBalance available requested =>
      lit "insufficient wallet balance: requested " ++ nanograms_text requested
      ++ lit " nanograms, available " ++ nanograms_text available
  | InsufficientBalanceForFees available requested fee =>
      lit "insufficient wallet balance including fees: requested " ++ nanograms_text requested
      ++ lit " nanograms, estimated fee " ++ nanograms_text fee
      ++ lit " nanograms, available " ++ nanograms_text available ++ lit " nanograms"
  | InvalidProtectedSecret => lit "the protected wallet secret is invalid"
  | SendPreviewFailed diagnostic => lit "send preview failed: " ++ diagnostic
  | EmulationFailed diagnostic => lit "transfer emulation failed: " ++ diagnostic
  | EmulationMessageNotAccepted diagnostic =>
      lit "emulation message was not accepted: " ++ diagnostic
  | EmulationRejected diagnostic _ _ =>
      lit "transfer emulation rejected the message: " ++ diagnostic
  | SendFailed diagnostic => lit "send failed: " ++ diagnostic
  | SubmissionUnknown diagnostic => lit "submission outcome is unknown: " ++ diagnostic
  | SendCancellationTooLate =>
      lit "the send has crossed its durable commit boundary and can no longer be cancelled"
  | Shutdown => lit "wallet client is shut down"
  | EncryptedCommentLookupFailed diagnostic =>
      lit "encrypted-comment recipient lookup failed: " ++ diagnostic
  end.

(** ** Requests and owners *)

Record ResolutionRequests := mkResolutionRequests {
  rr_executed : HttpRequest;
  rr_pending : HttpRequest;
  rr_wallet_state : HttpRequest;
  rr_executed_recheck : HttpRequest;
}.

Record ResolvedPending := mkResolvedPending {
  rp_resolution : SendResolution;
  rp_journal : JournalRecord;
}.

Inductive ResolutionOwner :=
  | Owner_Send (generation : N)
  | Owner_Standalone (generation : N).

(** [ids[i]] of the array of four. *)
Definition id_at (ids : list HttpRequestId) (i : nat) : HttpRequestId :=
  nth i ids (mkHttpRequestId 0).

Definition resolution_requests_new (config : WalletClientConfig) (pending : PendingSendRecord)
    (ids : list HttpRequestId) : result WalletClientError ResolutionRequests :=
  let? executed :=
    build_executed_by_message_request config (id_at ids 0) (ps_message_hash pending) in
  let? pending_transactions := build_pending_transactions_request config (id_at ids 1) in
  let? wallet_state := build_wallet_state_request config (id_at ids 2) in
  let? executed_recheck :=
    build_executed_by_message_request config (id_at ids 3) (ps_message_hash pending) in
  Ok (mkResolutionRequests executed pending_transactions wallet_state executed_recheck).

Definition resolution_window_expired (provider_time valid_until margin_seconds : N) : bool :=
  (saturating_add u64_max valid_until margin_seconds <? provider_time)%N.

(** ** Error sections *)

Definition resolution_failed_error (owner : ResolutionOwner) (message : rstr)
  : State -> State * WalletClientError :=
  match owner with
  | Owner_Send generation => send_failed_error generation message
  | Owner_Standalone generation => fun s =>
      ((discard_resolution generation s).1, SendFailed (bounded_diagnostic message))
  end.

Definition resolution_workflow_error (owner : ResolutionOwner) (error : SendWorkflowError)
  : State -> State * WalletClientError :=
  match owner with
  | Owner_Send generation => send_workflow_error variant_name generation error
  | Owner_Standalone _ => resolution_failed_error owner (error_text error)
  end.

Definition ensure_current_resolution (owner : ResolutionOwner) : section unit :=
  match owner with
  | Owner_Send generation => ensure_current_send generation
  | Owner_Standalone generation => ensure_resolution_current generation
  end.

(** ** Tracked requests *)

Definition execute_tracked_send_request (generation : N) (request : HttpRequest)
  : attempt (result DomainError bytes) :=
  run! locked (start_send_request generation (hr_id request));
  host! answer := execute request in
  run! locked (finish_send_request generation (hr_id request));
  fok answer.

Definition execute_resolution_request (owner : ResolutionOwner) (request : HttpRequest)
  : attempt (result DomainError bytes) :=
  match owner with
  | Owner_Send generation => execute_tracked_send_request generation request
  | Owner_Standalone generation =>
      run! locked (start_resolution_request generation (hr_id request));
      host! answer := execute request in
      run! locked (finish_resolution_request generation (hr_id request));
      fok answer
  end.

Section Resolution.
Context `{JournalCodec} `{SerdeJson} `{Base64Engine}.

(** ** Persisting a conclusion *)

(** The body of [persist_send_resolution] with [retries] turns of its loop left. *)
Fixpoint persist_loop (retries : nat) (owner : ResolutionOwner) (pending : PendingSendRecord)
    (resolution : SendResolution) : attempt ResolvedPending :=
  match retries with
  | 0 => fail_with (resolution_failed_error owner
           (lit "send journal remained contended during resolution"))
  | S retries =>
      await! mutation :=
        or_fail (terminal_mutation pending resolution) (resolution_workflow_error owner) in
      await! mutation :=
        or_fail (ok_or (lit "pending resolution was not terminal") mutation)
          (resolution_failed_error owner) in
      let replacement := jce_replacement mutation in
      host! answer := compare_exchange_journal mutation in
      await! outcome := or_fail answer (resolution_failed_error owner) in
      run! locked (ensure_current_resolution owner);
      if jcr_applied outcome then fok (mkResolvedPending resolution replacement)
      else
        await! current :=
          or_fail (ok_or (lit "send journal disappeared during resolution") (jcr_current outcome))
            (resolution_failed_error owner) in
        await! current_resolution :=
          or_fail (terminal_send_resolution current (ps_record_id pending) (ps_source pending))
            (resolution_workflow_error owner) in
        match current_resolution with
        | Some current_resolution => fok (mkResolvedPending current_resolution current)
        | None =>
            await! current_pending :=
              or_fail (pending_send_record current (ps_record_id pending) (ps_source pending))
                (resolution_workflow_error owner) in
            await! current_pending :=
              or_fail (ok_or (lit "send journal changed during resolution") current_pending)
                (resolution_failed_error owner) in
            if negb (bool_decide (ps_operation_id current_pending = ps_operation_id pending))
               || negb (bool_decide (ps_message_hash current_pending = ps_message_hash pending))
            then fail_with (resolution_failed_error owner
                   (lit "another send replaced the journal during resolution"))
            else persist_loop retries owner current_pending resolution
        end
  end.

Definition persist_send_resolution (owner : ResolutionOwner) (pending : PendingSendRecord)
    (resolution : SendResolution) : attempt ResolvedPending :=
  persist_loop 3 owner pending resolution.

(** ** Classification *)

Definition developer_error (owner : ResolutionOwner) (error : DomainError)
  : State -> State * WalletClientError :=
  resolution_failed_error owner (de_developer_message error).

(** One request of the evidence sequence: its checked body, parsed. *)
Definition evidence {A} (owner : ResolutionOwner) (request : HttpRequest)
    (parse : bytes -> result DomainError A) : attempt A :=
  await! answer := execute_resolution_request owner request in
  or_fail (rbind answer parse) (developer_error owner).

Definition confirmed (executed : ExecutedMessage) : SendResolution :=
  Resolution_Confirmed (em_transaction_hash executed) (em_transaction_lt executed).

(** Whether the message is in the mempool, and whether that was observed at all:
    a provider without the endpoint counts as an observation. *)
Definition mempool_observation (answer : result DomainError bool) : bool * bool :=
  match answer with
  | Ok is_pending => (is_pending, true)
  | Err error =>
      match de_provider_status error with
      | Some status => (false, (status =? 404)%N || (status =? 405)%N)
      | None => (false, false)
      end
  end.

Definition still_pending (pending : PendingSendRecord) (reason : PendingReason)
  : attempt ResolvedPending :=
  fok (mkResolvedPending (Resolution_StillPending reason) (current_journal pending)).

Definition resolve_pending_with_owner (owner : ResolutionOwner) (config : WalletClientConfig)
    (pending : PendingSendRecord) (provider_time : N) (requests : ResolutionRequests)
  : attempt ResolvedPending :=
  let expired :=
    resolution_window_expired provider_time (ps_valid_until pending)
      (cfg_resolution_margin_seconds config) in
  if bool_decide (ps_kind pending = Kind_Internal) then
    await! indexed_seqno := evidence owner (rr_wallet_state requests) parse_wallet_seqno in
    if (ps_seqno pending <? indexed_seqno)%N
    then persist_send_resolution owner pending Resolution_SequenceNumberConsumed
    else if expired then persist_send_resolution owner pending Resolution_Expired
    else still_pending pending Pending_AwaitingWindow
  else
    await! executed := evidence owner (rr_executed requests) parse_executed_message in
    match executed with
    | Some executed => persist_send_resolution owner pending (confirmed executed)
    | None =>
        await! pending_response := execute_resolution_request owner (rr_pending requests) in
        let observation := mempool_observation
          (rbind pending_response (fun body => parse_pending_message body (ps_message_hash pending))) in
        if observation.1 then still_pending pending Pending_InMempool
        else
          await! indexed_seqno := evidence owner (rr_wallet_state requests) parse_wallet_seqno in
          if (ps_seqno pending <? indexed_seqno)%N then
            await! executed :=
              evidence owner (rr_executed_recheck requests) parse_executed_message in
            match executed with
            | Some executed => persist_send_resolution owner pending (confirmed executed)
            | None => persist_send_resolution owner pending Resolution_Replaced
            end
          else if observation.2 && expired
          then persist_send_resolution owner pending Resolution_Expired
          else still_pending pending Pending_AwaitingWindow
    end.

(** ** The standalone operation ([src/engine/resolve.rs]) *)

Context `{BigUintText}.

Definition fail_standalone_resolution (generation : N) (message : rstr)
  : State -> State * WalletClientError :=
  resolution_failed_error (Owner_Standalone generation) message.

(** The rest of [resolve_pending] after its reservation. *)
Definition resolve_pending_reserved
    (reserved : N * WalletClientConfig * JournalKey * HttpRequest * list HttpRequestId)
  : attempt SendSnapshot :=
  let '(generation, config, journal_key, account_request, resolution_ids) := reserved in
  let source := cfg_address config in
  host! answer := load_journal journal_key in
  await! journal := or_fail answer (fail_standalone_resolution generation) in
  match journal with
  | None => locked (complete_standalone_resolution generation None)
  | Some journal =>
      await! pending :=
        or_fail (pending_send_record journal (cfg_record_id config) source)
          (fun error => fail_standalone_resolution generation (error_text error)) in
      match pending with
      | None =>
          await! snapshot :=
            or_fail (send_snapshot_from_journal journal (cfg_record_id config) source)
              (fun error => fail_standalone_resolution generation (error_text error)) in
          locked (complete_standalone_resolution generation (Some snapshot))
      | Some pending =>
          await! answer :=
            execute_resolution_request (Owner_Standalone generation) account_request in
          await! account :=
            or_fail (rbind answer parse_account)
              (fun error => fail_standalone_resolution generation (de_developer_message error)) in
          let provider_time := as_sync_utime account in
          await! requests :=
            or_fail (resolution_requests_new config pending resolution_ids)
              (fun error => fail_standalone_resolution generation (client_error_text error)) in
          await! resolved :=
            resolve_pending_with_owner (Owner_Standalone generation) config pending provider_time
              requests in
          let snapshot := pending_snapshot pending (rp_resolution resolved) in
          locked (complete_standalone_resolution generation (Some snapshot))
      end
  end.

Definition resolve_pending : attempt SendSnapshot :=
  await! reserved := locked start_resolve_pending in
  resolve_pending_reserved reserved.
End Resolution.
