(* ===== verification/ResolutionRuns.v ===== *)
(** * Runs of the resolver

    Which provider answers support which conclusion, and that every run of the
    resolver writes to the journal only what they support. *)

From stdpp Require Import base numbers list option strings gmap relations.
From S2P Require Import Prelude BoundaryTypes SendDomain SendWorkflow SendReducer.
From S2P Require Import Base64 ClientDomain Json ProviderRequest ProviderAnswers.
From S2P Require Import ClientState ClientCalls Futures Resolution.

(** ** What a conclusion rests on *)

Section Evidence.
Context `{JournalCodec} `{SerdeJson} `{Base64Engine} `{BigUintText}.

(** The provider has no such message in its mempool, or no such endpoint. *)
Definition mempool_absent (hash : Base64Hash) (answer : result DomainError bytes) : Prop :=
  mempool_observation (rbind answer (fun body => parse_pending_message body hash))
    = (false, true).

(** [answers] are the provider answers, in order, from which [resolution] is
    concluded for [pending] at [provider_time]. *)
Inductive supports (config : WalletClientConfig) (pending : PendingSendRecord)
    (provider_time : N) (requests : ResolutionRequests)
  : list event -> SendResolution -> Prop :=
  | supports_consumed body seqno :
      ps_kind pending = Kind_Internal ->
      parse_wallet_seqno body = Ok seqno -> (ps_seqno pending < seqno)%N ->
      supports config pending provider_time requests
        [Executed (rr_wallet_state requests) (Ok body)] Resolution_SequenceNumberConsumed
  | supports_internal_expired body seqno :
      ps_kind pending = Kind_Internal ->
      parse_wallet_seqno body = Ok seqno -> (seqno <= ps_seqno pending)%N ->
      (ps_valid_until pending + cfg_resolution_margin_seconds config < provider_time)%N ->
      supports config pending provider_time requests
        [Executed (rr_wallet_state requests) (Ok body)] Resolution_Expired
  | supports_confirmed body executed :
      ps_kind pending = Kind_External ->
      parse_executed_message body = Ok (Some executed) ->
      supports config pending provider_time requests
        [Executed (rr_executed requests) (Ok body)] (confirmed executed)
  | supports_confirmed_late body pending_answer seqno_body seqno recheck_body executed :
      ps_kind pending = Kind_External ->
      parse_executed_message body = Ok None ->
      parse_wallet_seqno seqno_body = Ok seqno -> (ps_seqno pending < seqno)%N ->
      parse_executed_message recheck_body = Ok (Some executed) ->
      supports config pending provider_time requests
        [Executed (rr_executed requests) (Ok body);
         Executed (rr_pending requests) pending_answer;
         Executed (rr_wallet_state requests) (Ok seqno_body);
         Executed (rr_executed_recheck requests) (Ok recheck_body)] (confirmed executed)
  | supports_replaced body pending_answer seqno_body seqno recheck_body :
      ps_kind pending = Kind_External ->
      parse_executed_message body = Ok None ->
      parse_wallet_seqno seqno_body = Ok seqno -> (ps_seqno pending < seqno)%N ->
      parse_executed_message recheck_body = Ok None ->
      supports config pending provider_time requests
        [Executed (rr_executed requests) (Ok body);
         Executed (rr_pending requests) pending_answer;
         Executed (rr_wallet_state requests) (Ok seqno_body);
         Executed (rr_executed_recheck requests) (Ok recheck_body)] Resolution_Replaced
  | supports_expired body pending_answer seqno_body seqno :
      ps_kind pending = Kind_External ->
      parse_executed_message body = Ok None ->
      mempool_absent (ps_message_hash pending) pending_answer ->
      parse_wallet_seqno seqno_body = Ok seqno -> (seqno <= ps_seqno pending)%N ->
      (ps_valid_until pending + cfg_resolution_margin_seconds config < provider_time)%N ->
      supports config pending provider_time requests
        [Executed (rr_executed requests) (Ok body);
         Executed (rr_pending requests) pending_answer;
         Executed (rr_wallet_state requests) (Ok seqno_body)] Resolution_Expired.

Definition is_exchange (ev : event) : Prop :=
  match ev with Exchanged _ _ => True | _ => False end.

Definition same_send (p q : PendingSendRecord) : Prop :=
  ps_operation_id p = ps_operation_id q /\ ps_message_hash p = ps_message_hash q.

(** What a resolver of [pending], the contents of [record], may do next. *)
Definition resolver_event (config : WalletClientConfig) (pending : PendingSendRecord)
    (provider_time : N) (requests : ResolutionRequests) (history : list event) (ev : event)
  : Prop :=
  match ev with
  | Executed request _ =>
      request ∈ [rr_executed requests; rr_pending requests; rr_wallet_state requests;
                 rr_executed_recheck requests]
  | Exchanged mutation _ =>
      exists answers exchanges resolution current,
        history = answers ++ exchanges /\ Forall is_exchange exchanges /\
        length exchanges < 3 /\
        supports config pending provider_time requests answers resolution /\
        same_send current pending /\
        terminal_mutation current resolution = Ok (Some mutation)
  | Journal_Loaded _ _ | Secret_Read _ _ => False
  end.

(** The journal record that the last event of [history] left or found there. *)
Definition observed_journal (history : list event) (journal : JournalRecord) : Prop :=
  exists before mutation outcome,
    history = before ++ [Exchanged mutation (Ok outcome)] /\
    if jcr_applied outcome then journal = jce_replacement mutation
    else jcr_current outcome = Some journal.

(** What it returns: a record that reads back as the returned conclusion, as the
    journal host confirmed it, or the untouched one while the message is still
    pending. *)
Definition resolver_result (record : JournalRecord) (record_id : NonEmptyString)
    (source : TonAddressString) (history : list event) (resolved : ResolvedPending) : Prop :=
  match rp_resolution resolved with
  | Resolution_StillPending _ =>
      rp_journal resolved = record /\ Forall (fun ev => ~ is_exchange ev) history
  | resolution =>
      observed_journal history (rp_journal resolved) /\
      terminal_send_resolution (rp_journal resolved) record_id source = Ok (Some resolution)
  end.
End Evidence.

(** ** Lemmas *)

Lemma resolution_window_expired_spec provider_time valid_until margin :
  (provider_time <= u64_max)%N ->
  resolution_window_expired provider_time valid_until margin = true <->
  (valid_until + margin < provider_time)%N.
Proof.
  intros Hle. unfold resolution_window_expired, saturating_add. rewrite N.ltb_lt. lia.
Qed.

Lemma parse_integer_bound max value field n : parse_integer max value field = Ok n -> (n <= max)%N.
Proof.
  unfold parse_integer. destruct value as [|b|[k|k|t]|s|items|fields]; try done.
  - destruct (k <=? max)%N eqn:E; [|done]. intros [= ->]. by apply N.leb_le.
  - intros Hn%map_err_ok. by apply parse_uint_bound in Hn.
Qed.

Section Proofs.
Context `{JournalCodec} `{SerdeJson} `{Base64Engine} `{BigUintText}.

Lemma parse_executed_lt body executed :
  parse_executed_message body = Ok (Some executed) ->
  resolution_lt_fits (confirmed executed) = true.
Proof.
  unfold parse_executed_message. intros (txs & _ & Hr)%rbind_ok.
  destruct txs as [|tx txs]; [done|]. apply rbind_ok in Hr as (hash & _ & Hr).
  apply rbind_ok in Hr as (lt & Hlt & Hr). simplify_eq/=.
  unfold parse_u64_string in Hlt. apply rbind_ok in Hlt as (n & Hn & Hlt). simplify_eq/=.
  apply N.leb_le. by apply parse_integer_bound in Hn.
Qed.

Lemma supports_lt config pending time requests answers resolution :
  supports config pending time requests answers resolution ->
  resolution_lt_fits resolution = true.
Proof. destruct 1; try done; by eapply parse_executed_lt. Qed.

Lemma terminal_send_resolution_terminal record rid src resolution :
  terminal_send_resolution record rid src = Ok (Some resolution) ->
  forall reason, resolution <> Resolution_StillPending reason.
Proof.
  unfold terminal_send_resolution. intros (d & _ & Hr)%rbind_ok reason ->.
  destruct (foreign_record d rid src); [done|].
  destruct (dr_stage d); simplify_eq/=; try done.
  apply rbind_ok in Hr as (? & _ & Hr). by apply rbind_ok in Hr as (? & _ & Hr).
Qed.

Lemma terminal_result record rid src history resolution journal :
  observed_journal history journal ->
  terminal_send_resolution journal rid src = Ok (Some resolution) ->
  resolver_result record rid src history (mkResolvedPending resolution journal).
Proof.
  intros Ho Hr. unfold resolver_result. simpl.
  destruct resolution; try done. by eapply terminal_send_resolution_terminal in Hr.
Qed.

Lemma always_execute_resolution ok P h owner request :
  (forall answer, ok h (Executed request answer)) ->
  (forall answer, P (h ++ [Executed request answer]) answer) ->
  always ok (returns P) h (execute_resolution_request owner request).
Proof.
  intros Hok HP. destruct owner as [g|g]; simpl.
  all: intros s; destruct ((_ : section unit) s).2; [|done]; simpl.
  all: intros answer; split; [done|]; intros s'; destruct ((_ : section unit) s').2; [|done].
  all: apply HP.
Qed.

Lemma always_evidence {A} ok (P : list event -> A -> Prop) h owner request parse :
  (forall answer, ok h (Executed request answer)) ->
  (forall body value, parse body = Ok value -> P (h ++ [Executed request (Ok body)]) value) ->
  always ok (returns P) h (evidence owner request parse).
Proof.
  intros Hok HP. unfold evidence.
  apply (returns_abind _ _ _ _ _ (fun h' answer => h' = h ++ [Executed request answer])).
  - by apply always_execute_resolution.
  - intros h' answer ->. apply returns_or_fail. intros value.
    destruct answer as [body|e]; [|done]. apply HP.
Qed.

(** The readers compare addresses, not their texts. *)
Lemma foreign_record_source d rid src src' :
  tas_eqb src' src = true -> foreign_record d rid src' = foreign_record d rid src.
Proof.
  rewrite tas_eqb_spec. intros E. unfold foreign_record. do 2 f_equal.
  apply eq_iff_eq_true. by rewrite !tas_eqb_spec, E.
Qed.

Lemma readers_source record rid src src' :
  tas_eqb src' src = true ->
  terminal_send_resolution record rid src' = terminal_send_resolution record rid src /\
  pending_send_record record rid src' = pending_send_record record rid src.
Proof.
  intros E. unfold terminal_send_resolution, pending_send_record.
  destruct (decode_durable_record record) as [d|]; simpl; [|done].
  by rewrite (foreign_record_source d rid src src' E).
Qed.

Lemma pending_record_owner record rid src p :
  pending_send_record record rid src = Ok (Some p) ->
  ps_record_id p = rid /\ tas_eqb (ps_source p) src = true.
Proof.
  intros (_ & Hfor & _ & _ & _ & -> & -> & _)%pending_send_record_ok.
  unfold foreign_record in Hfor. bool_to_prop. split; [by bool_to_prop|done].
Qed.

(** The loop of [persist_send_resolution], from any of its turns. *)
Lemma always_persist_loop config pending time requests record rid src answers resolution
    retries owner current current_record exchanges :
  supports config pending time requests answers resolution ->
  Forall is_exchange exchanges -> length exchanges + retries <= 3 ->
  same_send current pending ->
  pending_send_record current_record rid src = Ok (Some current) ->
  always (resolver_event config pending time requests)
    (returns (resolver_result record rid src)) (answers ++ exchanges)
    (persist_loop retries owner current resolution).
Proof.
  intros Hsup. revert current current_record exchanges.
  induction retries as [|retries IH]; intros current current_record exchanges Hex Hlen Hsame Hcur;
    cbn [persist_loop]; [apply returns_fail_with|].
  destruct (pending_record_owner _ _ _ _ Hcur) as [Hrid Hsrc].
  apply (returns_abind _ _ _ _ _
    (fun h o => h = answers ++ exchanges /\ terminal_mutation current resolution = Ok o)).
  { by apply returns_or_fail. }
  intros h o [-> Hmut].
  apply (returns_abind _ _ _ _ _ (fun h m => h = answers ++ exchanges /\ o = Some m)).
  { apply returns_or_fail. by destruct o; simpl; intros ? [= ->]. }
  intros h mutation [-> ->]. simpl. intros answer. split.
  { exists answers, exchanges, resolution, current. split_and!; try done. lia. }
  assert (Forall is_exchange (exchanges ++ [Exchanged mutation answer])) as Hex'
    by (apply Forall_app; split; [done|by repeat constructor]).
  apply (returns_abind _ _ _ _ _ (fun h' outcome => answer = Ok outcome /\
    h' = answers ++ exchanges ++ [Exchanged mutation (Ok outcome)])).
  { apply returns_or_fail. intros outcome ->. by rewrite app_assoc. }
  intros h' outcome [-> ->]. set (h := answers ++ exchanges ++ _).
  assert (h = (answers ++ exchanges) ++ [Exchanged mutation (Ok outcome)]) as Hh
    by (unfold h; by rewrite app_assoc).
  apply (returns_abind _ _ _ _ _ (fun h' _ => h' = h)). { by apply returns_locked. }
  intros h' _ ->. destruct (jcr_applied outcome) eqn:Happlied.
  { simpl. apply terminal_result; [by eexists _, _, outcome; rewrite Happlied|].
    by apply (terminal_mutation_reads current_record rid src current resolution mutation);
      [|eapply supports_lt|]. }
  apply (returns_abind _ _ _ _ _ (fun h' now => h' = h /\ jcr_current outcome = Some now)).
  { apply returns_or_fail. by destruct (jcr_current outcome); simpl; intros ? [= ->]. }
  intros h' now [-> Hnow]. rewrite Hrid.
  destruct (readers_source now rid src (ps_source current) Hsrc) as [-> ->].
  apply (returns_abind _ _ _ _ _ (fun h' o => h' = h /\ terminal_send_resolution now rid src = Ok o)).
  { by apply returns_or_fail. }
  intros h' [found|] [-> Hterm].
  { apply terminal_result; [|done]. by eexists _, _, outcome; rewrite Happlied. }
  apply (returns_abind _ _ _ _ _ (fun h' o => h' = h /\ pending_send_record now rid src = Ok o)).
  { by apply returns_or_fail. }
  intros h' o' [-> Hpend].
  apply (returns_abind _ _ _ _ _ (fun h' p => h' = h /\ o' = Some p)).
  { apply returns_or_fail. by destruct o'; simpl; intros ? [= ->]. }
  intros h' next [-> ->]. destruct (_ || _) eqn:Hdiff; [apply returns_fail_with|].
  apply (IH next now); try done.
  - rewrite length_app. simpl. lia.
  - bool_to_prop.
    destruct Hsame. split; congruence.
Qed.

(** A supported conclusion is persisted from the state that was inspected. *)
Lemma always_persist config pending time requests record rid src answers resolution owner :
  supports config pending time requests answers resolution ->
  pending_send_record record rid src = Ok (Some pending) ->
  always (resolver_event config pending time requests)
    (returns (resolver_result record rid src)) answers
    (persist_send_resolution owner pending resolution).
Proof.
  intros Hsup Hrec. rewrite <- (app_nil_r answers).
  by apply (always_persist_loop _ _ _ _ _ _ _ _ _ 3 owner pending record []).
Qed.

Lemma still_pending_result record rid src pending reason answers ok :
  pending_send_record record rid src = Ok (Some pending) ->
  Forall (fun ev => ~ is_exchange ev) answers ->
  always ok (returns (resolver_result record rid src)) answers (still_pending pending reason).
Proof.
  intros (_ & _ & _ & _ & _ & _ & _ & _ & _ & <-)%pending_send_record_ok Hno. by split.
Qed.

Ltac no_exchange :=
  repeat (apply Forall_cons_2; [by intros []|]); apply Forall_nil_2.

Ltac resolver_request :=
  apply always_evidence; [by intros ?; simpl; set_solver|].

Lemma always_resolve_internal config pending time requests record rid src owner :
  (time <= u64_max)%N -> ps_kind pending = Kind_Internal ->
  pending_send_record record rid src = Ok (Some pending) ->
  always (resolver_event config pending time requests)
    (returns (resolver_result record rid src)) []
    (resolve_pending_with_owner owner config pending time requests).
Proof.
  intros Htime Hk Hrec. unfold resolve_pending_with_owner. rewrite Hk. simpl.
  apply (returns_abind _ _ _ _ _ (fun h seqno => exists body,
    h = [Executed (rr_wallet_state requests) (Ok body)] /\ parse_wallet_seqno body = Ok seqno)).
  { resolver_request. by eauto. }
  intros h seqno (body & -> & Hbody). destruct (_ <? seqno)%N eqn:Hs.
  { apply N.ltb_lt in Hs. apply always_persist; [by econstructor|done]. }
  apply N.ltb_ge in Hs. destruct (resolution_window_expired _ _ _) eqn:Hw.
  { apply resolution_window_expired_spec in Hw; [|done].
    apply always_persist; [by econstructor|done]. }
  apply still_pending_result; [done|no_exchange].
Qed.

Lemma mempool_absent_spec hash answer :
  (mempool_observation (rbind answer (fun body => parse_pending_message body hash))).1 = false ->
  (mempool_observation (rbind answer (fun body => parse_pending_message body hash))).2 = true ->
  mempool_absent hash answer.
Proof. unfold mempool_absent. destruct (mempool_observation _). simpl. by intros -> ->. Qed.

Lemma always_resolve_external config pending time requests record rid src owner :
  (time <= u64_max)%N -> ps_kind pending = Kind_External ->
  pending_send_record record rid src = Ok (Some pending) ->
  always (resolver_event config pending time requests)
    (returns (resolver_result record rid src)) []
    (resolve_pending_with_owner owner config pending time requests).
Proof.
  intros Htime Hk Hrec. unfold resolve_pending_with_owner. rewrite Hk. simpl.
  apply (returns_abind _ _ _ _ _ (fun h executed => exists body,
    h = [Executed (rr_executed requests) (Ok body)] /\
    parse_executed_message body = Ok executed)).
  { resolver_request. by eauto. }
  intros h [executed|] (body & -> & Hbody).
  { apply always_persist; [by econstructor|done]. }
  apply (returns_abind _ _ _ _ _ (fun h answer =>
    h = [Executed (rr_executed requests) (Ok body); Executed (rr_pending requests) answer])).
  { apply always_execute_resolution; [by intros ?; simpl; set_solver|done]. }
  intros h pending_answer ->.
  destruct (mempool_observation _).1 eqn:Hmem; [apply still_pending_result; [done|no_exchange]|].
  apply (returns_abind _ _ _ _ _ (fun h seqno => exists seqno_body,
    h = [Executed (rr_executed requests) (Ok body); Executed (rr_pending requests) pending_answer;
         Executed (rr_wallet_state requests) (Ok seqno_body)] /\
    parse_wallet_seqno seqno_body = Ok seqno)).
  { resolver_request. by eauto. }
  intros h seqno (seqno_body & -> & Hseqno). destruct (_ <? seqno)%N eqn:Hs.
  - apply N.ltb_lt in Hs.
    apply (returns_abind _ _ _ _ _ (fun h executed => exists recheck_body,
      h = [Executed (rr_executed requests) (Ok body); Executed (rr_pending requests) pending_answer;
           Executed (rr_wallet_state requests) (Ok seqno_body);
           Executed (rr_executed_recheck requests) (Ok recheck_body)] /\
      parse_executed_message recheck_body = Ok executed)).
    { resolver_request. by eauto. }
    intros h [executed|] (recheck_body & -> & Hre);
      apply always_persist; try done; by econstructor.
  - apply N.ltb_ge in Hs. destruct (_ && _) eqn:Hw.
    + apply andb_true_iff in Hw as [Hobs Hw].
      apply resolution_window_expired_spec in Hw; [|done].
      apply always_persist; [|done]. econstructor; try done. by apply mempool_absent_spec.
    + apply still_pending_result; [done|no_exchange].
Qed.

Lemma always_resolve config pending time requests record rid src owner :
  (time <= u64_max)%N -> pending_send_record record rid src = Ok (Some pending) ->
  always (resolver_event config pending time requests)
    (returns (resolver_result record rid src)) []
    (resolve_pending_with_owner owner config pending time requests).
Proof.
  intros Htime Hrec. destruct (ps_kind pending) eqn:Hk.
  - by apply always_resolve_external.
  - by apply always_resolve_internal.
Qed.

(** ** The standalone operation *)

(** The client of record [rid] at [src] may do this next while resolving. *)
Definition standalone_event (config : WalletClientConfig) (history : list event) (ev : event)
  : Prop :=
  match ev with
  | Secret_Read _ _ => False
  | Journal_Loaded key _ =>
      history = [] /\ key = mkJournalKey (nes_str (cfg_record_id config)) SEND_SLOT
  | Executed _ _ =>
      exists key record rest, history = Journal_Loaded key (Ok (Some record)) :: rest
  | Exchanged _ _ =>
      exists key record request body account pending requests rest,
        history = Journal_Loaded key (Ok (Some record)) :: Executed request (Ok body) :: rest /\
        parse_account body = Ok account /\
        pending_send_record record (cfg_record_id config) (cfg_address config)
          = Ok (Some pending) /\
        resolver_event config pending (as_sync_utime account) requests rest ev
  end.

Lemma parse_account_time body account :
  parse_account body = Ok account -> (as_sync_utime account <= u64_max)%N.
Proof.
  unfold parse_account, decode_envelope, decode_from_value. intros (acc & Hacc & Hr)%rbind_ok.
  apply rbind_ok in Hr as (balance & _ & Hr). simplify_eq/=.
  apply rbind_ok in Hacc as (envelope & _ & Hacc). destruct (negb _); [done|].
  apply rbind_ok in Hacc as (v & _ & Hacc). apply map_err_ok in Hacc.
  destruct (decode_Account v) as [acc'|] eqn:E; simplify_eq/=.
  unfold decode_Account in E. destruct (struct_members _ v) as [[shape l]|]; [|done].
  destruct l as [|? [|? [|u [|]]]]; try done.
  apply bind_Some in E as (? & _ & E). apply bind_Some in E as (? & _ & E).
  apply bind_Some in E as (n & Hn & E). simplify_eq/=.
  apply bind_Some in Hn as (fv & _ & Hx).
  destruct fv as [| |[k|k|k]| | |]; try done. simpl in Hx.
  destruct (k <=? u64_max)%N eqn:Hk; simplify_eq. by apply N.leb_le.
Qed.

Lemma start_resolve_pending_result s g config key request ids :
  (start_resolve_pending s).2 = Ok (g, config, key, request, ids) ->
  key = mkJournalKey (nes_str (cfg_record_id config)) SEND_SLOT.
Proof.
  unfold start_resolve_pending. intros Hr.
  repeat match type of Hr with
  | (mbind' ?m ?k ?s).2 = Ok _ =>
      unfold mbind' at 1 in Hr; destruct (m s) as [? [?|?]]; simpl in Hr; [|done]
  end.
  by simplify_eq.
Qed.

Lemma always_resolve_pending :
  always (fun h ev => exists config, standalone_event config h ev) (returns (fun _ _ => True)) []
    resolve_pending.
Proof.
  unfold resolve_pending, resolve_pending_reserved.
  apply (returns_abind _ _ _ _ _ (fun h r => h = [] /\ exists g config request ids,
    r = (g, config, mkJournalKey (nes_str (cfg_record_id config)) SEND_SLOT, request, ids))).
  { apply returns_locked. intros s [[[[g config] key] request] ids] Hr.
    pose proof (start_resolve_pending_result _ _ _ _ _ _ Hr) as ->. eauto 10. }
  intros h r (-> & g & config & request & ids & ->). cbn beta iota zeta.
  set (key := mkJournalKey _ _).
  apply always_load; [by exists config|]. intros answer.
  apply (returns_abind _ _ _ _ _ (fun h o => h = [Journal_Loaded key (Ok o)])).
  { apply returns_or_fail. by intros o ->. }
  intros h [record|] ->; [|by apply returns_locked].
  apply (returns_abind _ _ _ _ _ (fun h o => h = [Journal_Loaded key (Ok (Some record))] /\
    pending_send_record record (cfg_record_id config) (cfg_address config) = Ok o)).
  { by apply returns_or_fail. }
  intros h [pending|] [-> Hpend].
  2: { apply (returns_abind _ _ _ _ _ (fun _ _ => True)); [by apply returns_or_fail|].
       intros. by apply returns_locked. }
  apply (returns_abind _ _ _ _ _ (fun h answer =>
    h = [Journal_Loaded key (Ok (Some record)); Executed request answer])).
  { apply always_execute_resolution; [|done]. intros. exists config. by eexists _, _, _. }
  intros h account_answer ->.
  apply (returns_abind _ _ _ _ _ (fun h account => exists body,
    h = [Journal_Loaded key (Ok (Some record)); Executed request (Ok body)] /\
    parse_account body = Ok account)).
  { apply returns_or_fail. destruct account_answer; [by eauto|done]. }
  intros h account (body & -> & Haccount).
  apply (returns_abind _ _ _ _ _ (fun h _ =>
    h = [Journal_Loaded key (Ok (Some record)); Executed request (Ok body)])).
  { by apply returns_or_fail. }
  intros h requests ->.
  apply (returns_abind _ _ _ _ _ (fun _ _ => True)); [|intros; by apply returns_locked].
  rewrite <- (app_nil_r [_; _]).
  eapply always_shift;
    [apply (always_resolve config pending (as_sync_utime account) requests record); [|done]
    | |by intros ? []].
  { by apply parse_account_time in Haccount. }
  intros h ev Hev. exists config. destruct ev; simpl in Hev |- *; [| |by eauto 15|done].
  - by eauto.
  - done.
Qed.
End Proofs.

(** ** Claims *)

Section Claims.
Context `{JournalCodec} `{SerdeJson} `{Base64Engine} `{BigUintText} `{TonAddressText}.

(** C16: no terminal conclusion without evidence, in order.  In every run of the
    resolver, whatever the host answers and whatever other operations do, each
    journal write is the terminal mutation of the same send for a conclusion that
    the provider answers received so far support, in the order strongest first
    (own transaction, mempool, sequence number, own transaction again); there are
    at most three writes; the only requests are the four prepared ones; and no
    secret is read. *)
Theorem resolution_rests_on_evidence owner config pending time requests record rid src
    s events s' f before ev after :
  (time <= u64_max)%N -> pending_send_record record rid src = Ok (Some pending) ->
  runs (resolve_pending_with_owner owner config pending time requests) s events s' f ->
  events = before ++ ev :: after ->
  resolver_event config pending time requests before ev.
Proof.
  intros Htime Hrec. eapply always_event. by eapply always_resolve.
Qed.

(** What the resolver returns can be built upon: a terminal conclusion comes
    with a journal record that reads back as exactly that conclusion, whether this
    run wrote it or a competing one did; otherwise the inspected record is
    returned and nothing was written. *)
Theorem resolution_result_is_durable owner config pending time requests record rid src
    s events s' resolved :
  (time <= u64_max)%N -> pending_send_record record rid src = Ok (Some pending) ->
  runs (resolve_pending_with_owner owner config pending time requests) s events s'
    (Done (Ok resolved)) ->
  resolver_result record rid src events resolved.
Proof.
  intros Htime Hrec Hrun. by eapply always_result in Hrun; [|eapply always_resolve].
Qed.

(** The standalone operation reads the journal slot of its own wallet exactly
    once and first, asks the provider only about a record it found there, writes
    only what [resolution_rests_on_evidence] allows at the synchronized provider
    time, and never reads protected secret storage. *)
Theorem resolve_pending_events s events s' f before ev after :
  runs resolve_pending s events s' f -> events = before ++ ev :: after ->
  exists config, standalone_event config before ev.
Proof.
  intros Hrun Hsplit. exact (always_event _ _ _ _ _ _ _ _ _ _ always_resolve_pending Hrun Hsplit).
Qed.
End Claims.
