(* ===== verification/SendEngine.v ===== *)
(** * Sending

    [src/engine/send.rs], [src/engine/sign_message.rs] and
    [src/engine/send_boc.rs]: the futures that drive the send reducer.  Signing
    and message construction ([src/wallet/transfer.rs]) are behind the interface
    [WalletSigner]. *)

From stdpp Require Import base numbers list option strings gmap relations.
From S2P Require Import Prelude BoundaryTypes SendDomain SendWorkflow SendReducer.
From S2P Require Import Base64 ClientDomain Json ProviderRequest ProviderAnswers.
From S2P Require Import ClientState ClientCalls Futures Resolution.

(** ** Requests and results ([src/domain/send.rs]) *)

Record SendBocRequest := mkSendBocRequest {
  sb_operation_id : NonEmptyString;
  sb_force : bool;
  sb_signed_boc : Boc;
  sb_seqno : N;
  sb_valid_until : N;
}.

Record SignMessageRequest := mkSignMessageRequest {
  sg_operation_id : NonEmptyString;
  sg_force : bool;
  sg_intent : SendIntent;
}.

Record SendResult := mkSendResult {
  sres_operation_id : NonEmptyString;
  sres_message_hash : Base64Hash;
  sres_signed_boc : Boc;
  sres_phase : SendPhase;
}.

Record SignMessageResult := mkSignMessageResult {
  sgr_operation_id : NonEmptyString;
  sgr_internal_boc : Boc;
  sgr_valid_until : N;
  sgr_phase : SendPhase;
}.

(** What the futures use of [src/wallet/transfer.rs]; an error is its text. *)
Class WalletSigner := {
  derive_source : bytes -> Network -> result rstr TonAddress;
  prepare_transfer : bytes -> NonEmptyString -> TonAddressString -> Network -> SendRequest ->
    FreshSendAccount -> N -> result rstr PreparedTransfer;
  prepare_internal_signed_transfer : bytes -> NonEmptyString -> TonAddressString -> Network ->
    SendRequest -> FreshSendAccount -> N -> result rstr PreparedTransfer;
  prepare_signed_boc : NonEmptyString -> TonAddressString -> SendBocRequest ->
    result rstr PreparedTransfer;
}.

Definition expiration_error_text (error : SendExpirationError) : rstr :=
  match error with
  | NotAfterProviderTime => lit "transfer expiration timestamp is not after fresh provider time"
  | ExpirationOverflow => lit "transfer expiration timestamp overflow"
  end.

Section Send.
Context `{JournalCodec} `{SerdeJson} `{BigUintText} `{Base64Engine} `{WalletSigner}.

(** ** Shared steps *)

Definition send_domain_error (generation : N) (error : DomainError)
  : State -> State * WalletClientError :=
  send_failed_error generation (de_developer_message error).

Definition send_text_error (generation : N) (error : SendWorkflowError)
  : State -> State * WalletClientError :=
  send_failed_error generation (error_text error).

Definition unknown_text_error (generation : N) (error : SendWorkflowError)
  : State -> State * WalletClientError :=
  submission_unknown_error generation (error_text error).

(** A reducer call on the future's own workflow. *)
Definition reduce {A} (call : SendWorkflow * result SendWorkflowError A)
    (critical : SendWorkflowError -> State -> State * WalletClientError)
  : attempt (SendWorkflow * A) :=
  or_fail (rmap (pair call.1) call.2) critical.

(** The journal slot, and the pending send it may hold. *)
Definition load_send_slot (generation : N) (config : WalletClientConfig) (key : JournalKey)
  : attempt (option JournalRecord * option PendingSendRecord) :=
  host! answer := load_journal key in
  await! journal_record := or_fail answer (send_failed_error generation) in
  run! locked (ensure_current_send generation);
  match journal_record with
  | None => fok (None, None)
  | Some record =>
      await! pending :=
        or_fail (pending_send_record record (cfg_record_id config) (cfg_address config))
          (send_workflow_error variant_name generation) in
      fok (Some record, pending)
  end.

Definition fetch_account (generation : N) (request : HttpRequest) : attempt AccountSnapshot :=
  await! answer := execute_tracked_send_request generation request in
  or_fail (rbind answer parse_account) (send_domain_error generation).

(** The record with which the workflow continues: the loaded one, or the one in
    which the earlier send was just resolved. *)
Definition settle_earlier_send (generation : N) (config : WalletClientConfig) (force : bool)
    (ids : list HttpRequestId) (provider_time : N)
    (slot : option JournalRecord * option PendingSendRecord)
  : attempt (option JournalRecord) :=
  match slot.2 with
  | None => fok slot.1
  | Some pending =>
      if force && can_force_retry pending then fok slot.1
      else
        await! requests :=
          or_fail (resolution_requests_new config pending ids)
            (fun error => send_failed_error generation (client_error_text error)) in
        await! resolved :=
          resolve_pending_with_owner (Owner_Send generation) config pending provider_time
            requests in
        let snapshot := pending_snapshot pending (rp_resolution resolved) in
        run! locked (publish_prior_send_resolution generation snapshot);
        match rp_resolution resolved with
        | Resolution_StillPending _ =>
            await! error := locked (block_send_for_pending generation snapshot) in
            fthrow error
        | _ => fok (Some (rp_journal resolved))
        end
  end.

Definition admit_journal (generation : N) (workflow : SendWorkflow)
    (record : option JournalRecord) : attempt SendWorkflow :=
  await! admitted :=
    reduce (journal_loaded record workflow) (send_workflow_error variant_name generation) in
  match admitted.2 with
  | FetchFreshAccount =>
      run! locked (publish_send_workflow generation admitted.1);
      fok admitted.1
  | _ => fail_with (send_failed_error generation (lit "invalid send journal transition"))
  end.

(** What the three operations do first: the fresh account, and the workflow that
    may continue. *)
Definition open_send (force : bool) (reserved : SendReservation)
  : attempt (AccountSnapshot * SendWorkflow) :=
  let generation := sv_generation reserved in
  let config := sv_config reserved in
  await! slot := load_send_slot generation config (sv_journal_key reserved) in
  await! account := fetch_account generation (sv_account_request reserved) in
  await! record :=
    settle_earlier_send generation config force (sv_resolution_request_ids reserved)
      (as_sync_utime account) slot in
  await! workflow := admit_journal generation (sv_workflow reserved) record in
  fok (account, workflow).

(** Active accounts have a sequence number to fetch, others start at zero. *)
Definition fetch_seqno (generation : N) (request : HttpRequest) (account : AccountSnapshot)
  : attempt N :=
  if bool_decide (as_status account = Account_Active) then
    await! answer := execute_tracked_send_request generation request in
    or_fail (rbind answer parse_seqno) (send_domain_error generation)
  else fok 0%N.

(** ** Submission ([submit_prepared_send]) *)

Definition final_directive (workflow : SendWorkflow) (answer : result DomainError bytes)
  : SendWorkflow * result SendWorkflowError SendDirective :=
  match rbind answer parse_send_response with
  | Ok Accepted => submission_succeeded None workflow
  | Ok (Rejected message) => submission_rejected message workflow
  | Err error =>
      if is_explicit_send_rejection error
      then submission_rejected (de_developer_message error) workflow
      else submission_unknown (de_developer_message error) workflow
  end.

(** From the acknowledged commit to the returned result. *)
Definition submit_committed (generation : N) (operation_id : NonEmptyString) (signed_boc : Boc)
    (submit_request : HttpRequest) (workflow : SendWorkflow) (message_hash : Base64Hash)
  : attempt SendResult :=
  await! started := reduce (submission_started workflow) (unknown_text_error generation) in
  let workflow := started.1 in
  run! locked (publish_send_workflow generation workflow);
  await! answer := execute_tracked_send_request generation submit_request in
  await! final := reduce (final_directive workflow answer) (unknown_text_error generation) in
  let workflow := final.1 in
  match final.2 with
  | PersistJournal mutation =>
      run! locked (publish_send_workflow generation workflow);
      run! locked (ensure_current_send generation);
      host! journal := compare_exchange_journal mutation in
      await! journal := or_fail journal (submission_unknown_error generation) in
      run! locked (ensure_current_send generation);
      await! persisted :=
        reduce (journal_persisted journal workflow) (unknown_text_error generation) in
      let workflow := persisted.1 in
      let phase := ss_phase (workflow_snapshot workflow) in
      run! locked (complete_send generation workflow);
      fok (mkSendResult operation_id message_hash signed_boc phase)
  | _ => fail_with (submission_unknown_error generation
           (lit "invalid terminal persistence transition"))
  end.

(** The error of a failed acknowledgement depends on whether the write happened. *)
Definition acknowledgement_error (generation : N) (applied : bool) (error : SendWorkflowError)
  : State -> State * WalletClientError :=
  if applied then unknown_text_error generation error
  else send_workflow_error variant_name generation error.

Definition submit_prepared_send (generation : N) (config : WalletClientConfig)
    (submit_request_id : HttpRequestId) (workflow : SendWorkflow) (prepared : PreparedTransfer)
  : attempt SendResult :=
  let operation_id := pt_operation_id prepared in
  let signed_boc := pt_signed_boc prepared in
  await! submit_request :=
    or_fail (build_send_boc_request config submit_request_id (pt_signed_boc prepared))
      (fun _ => send_failed_error generation (lit "failed to construct submission")) in
  await! prepared := reduce (transfer_prepared prepared workflow) (send_text_error generation) in
  let workflow := prepared.1 in
  match prepared.2 with
  | PersistJournal mutation =>
      run! locked (publish_send_workflow generation workflow);
      run! locked (begin_send_commit generation);
      host! journal := compare_exchange_journal mutation in
      await! journal := or_fail journal (submission_unknown_error generation) in
      run! locked (ensure_current_send generation);
      await! persisted :=
        reduce (journal_persisted journal workflow)
          (acknowledgement_error generation (jcr_applied journal)) in
      match persisted.2 with
      | Submit _ message_hash =>
          submit_committed generation operation_id signed_boc submit_request persisted.1
            message_hash
      | _ => fail_with (submission_unknown_error generation
               (lit "invalid send submission transition"))
      end
  | _ => fail_with (send_failed_error generation (lit "invalid send persistence transition"))
  end.

(** ** [send] *)

(** [self.fail_send(generation, error.to_string())?; return Err(error)]. *)
Definition fail_client_error {A} (generation : N) (error : WalletClientError) : attempt A :=
  run! locked (fail_send generation (client_error_text error));
  fthrow error.

(** The balance check: an invalid batch, or an exact total above the balance. *)
Definition check_balance (generation : N) (intent : SendIntent) (account : AccountSnapshot)
  : attempt unit :=
  match exact_value_total intent with
  | Err _ => fail_client_error generation InvalidSendRequest
  | Ok None => fok tt
  | Ok (Some nanograms) =>
      if (uds_value (as_balance_nanograms account) <? uds_value nanograms)%N
      then fail_client_error generation
             (InsufficientBalance (as_balance_nanograms account) nanograms)
      else fok tt
  end.

(** The workflow with its fresh account, and the secret access it asks for. *)
Definition authorize (generation : N) (workflow : SendWorkflow) (fresh : FreshSendAccount)
  : attempt (SendWorkflow * ProtectedSecretRead) :=
  await! loaded :=
    reduce (fresh_account_loaded fresh workflow) (send_workflow_error variant_name generation) in
  match loaded.2 with
  | ReadProtectedSecret secret_request =>
      run! locked (publish_send_workflow generation loaded.1);
      fok (loaded.1, secret_request)
  | _ => fail_with (send_failed_error generation (lit "invalid secret-read transition"))
  end.

(** [derive_source] failed. *)
Definition invalid_secret_error (generation : N) : State -> State * WalletClientError :=
  or_own_error (fail_send generation (lit "protected mnemonic is invalid"))
    InvalidProtectedSecret.

(** The secret, once it is known to belong to the configured wallet. *)
Definition unlock_secret (generation : N) (config : WalletClientConfig)
    (secret_request : ProtectedSecretRead) : attempt bytes :=
  host! answer := read_protected_secret secret_request in
  await! secret := or_fail answer (send_failed_error generation) in
  run! locked (ensure_current_send generation);
  await! source :=
    or_fail (derive_source secret (cfg_network config)) (fun _ => invalid_secret_error generation) in
  if bool_decide (source = tas_address (cfg_address config)) then fok secret
  else fail_with (send_failed_error generation
         (lit "protected mnemonic does not belong to this wallet")).

Definition begin_preparation (generation : N) (workflow : SendWorkflow) (invalid : string)
  : attempt SendWorkflow :=
  await! authorized := reduce (authorization_succeeded workflow) (send_text_error generation) in
  match authorized.2 with
  | PrepareTransfer _ _ =>
      run! locked (publish_send_workflow generation authorized.1);
      fok authorized.1
  | _ => fail_with (send_failed_error generation (lit invalid))
  end.

(** The rest of [send] after its reservation. *)
Definition send_reserved (request : SendRequest) (reserved : SendReservation)
  : attempt SendResult :=
  let generation := sv_generation reserved in
  let config := sv_config reserved in
  await! opened := open_send (sr_force request) reserved in
  let account := opened.1 in
  let provider_time := as_sync_utime account in
  let workflow := opened.2 in
  run! check_balance generation (sr_intent request) account;
  await! seqno := fetch_seqno generation (sv_seqno_request reserved) account in
  let fresh := mkFreshSendAccount (as_status account) seqno in
  await! valid_until :=
    or_fail (resolve_send_expiration (si_expiration (sr_intent request)) provider_time
               (cfg_send_validity_seconds config))
      (fun error => send_failed_error generation (expiration_error_text error)) in
  await! authorized := authorize generation workflow fresh in
  await! secret := unlock_secret generation config authorized.2 in
  await! workflow :=
    begin_preparation generation authorized.1 "invalid send authorization transition" in
  await! prepared :=
    or_fail (prepare_transfer secret (cfg_record_id config) (cfg_address config)
               (cfg_network config) request fresh valid_until)
      (fun error => send_failed_error generation (lit "failed to prepare transfer: " ++ error)) in
  match sv_submit_request_id reserved with
  | Some submit_request_id =>
      submit_prepared_send generation config submit_request_id workflow prepared
  | None => fthrow StateUnavailable (* [start_send] always reserves it *)
  end.

Definition send (request : SendRequest) : attempt SendResult :=
  await! reserved := locked (start_send request) in
  send_reserved request reserved.

(** ** [send_boc] *)

Definition seqno_mismatch (requested current : N) : rstr :=
  lit "prepared BOC seqno " ++ u64_to_string requested
  ++ lit " does not match current wallet seqno " ++ u64_to_string current.

Definition send_boc_reserved (request : SendBocRequest) (reserved : SendReservation)
  : attempt SendResult :=
  let generation := sv_generation reserved in
  let config := sv_config reserved in
  await! opened := open_send (sb_force request) reserved in
  let account := opened.1 in
  let provider_time := as_sync_utime account in
  let workflow := opened.2 in
  await! seqno := fetch_seqno generation (sv_seqno_request reserved) account in
  if negb (seqno =? sb_seqno request)%N
  then fail_with (send_failed_error generation (seqno_mismatch (sb_seqno request) seqno))
  else
    run! or_fail (resolve_send_expiration (Expiration_Exact (sb_valid_until request))
                    provider_time (cfg_send_validity_seconds config))
           (fun error => send_failed_error generation (expiration_error_text error));
    await! loaded :=
      reduce (prepared_account_loaded (mkFreshSendAccount (as_status account) seqno) workflow)
        (send_workflow_error variant_name generation) in
    run! locked (publish_send_workflow generation loaded.1);
    await! prepared :=
      or_fail (prepare_signed_boc (cfg_record_id config) (cfg_address config) request)
        (fun error => send_failed_error generation (lit "invalid prepared BOC: " ++ error)) in
    match sv_submit_request_id reserved with
    | Some submit_request_id =>
        submit_prepared_send generation config submit_request_id loaded.1 prepared
    | None => fthrow StateUnavailable (* [start_send_boc] always reserves it *)
    end.

Definition send_boc (request : SendBocRequest) : attempt SendResult :=
  await! reserved :=
    locked (start_send_boc (sb_operation_id request) (sb_force request) (sb_valid_until request)) in
  send_boc_reserved request reserved.

(** ** [sign_message] *)

(** The durable hand-off of a message that is not submitted here. *)
Definition hand_off (generation : N) (operation_id : NonEmptyString) (workflow : SendWorkflow)
    (prepared : PreparedTransfer) : attempt SignMessageResult :=
  await! prepared := reduce (transfer_prepared prepared workflow) (send_text_error generation) in
  let workflow := prepared.1 in
  match prepared.2 with
  | PersistJournal mutation =>
      run! locked (publish_send_workflow generation workflow);
      run! locked (begin_send_commit generation);
      host! journal := compare_exchange_journal mutation in
      await! journal := or_fail journal (submission_unknown_error generation) in
      run! locked (ensure_current_send generation);
      await! persisted :=
        reduce (journal_persisted journal workflow)
          (acknowledgement_error generation (jcr_applied journal)) in
      match persisted.2 with
      | HandOff internal_boc valid_until =>
          let workflow := persisted.1 in
          let phase := ss_phase (workflow_snapshot workflow) in
          run! locked (complete_send generation workflow);
          fok (mkSignMessageResult operation_id internal_boc valid_until phase)
      | _ => fail_with (submission_unknown_error generation
               (lit "invalid internal-message handoff transition"))
      end
  | _ => fail_with (send_failed_error generation (lit "invalid persistence transition"))
  end.

Definition sign_message_reserved (request : SignMessageRequest) (reserved : SendReservation)
  : attempt SignMessageResult :=
  let send_request := mkSendRequest (sg_operation_id request) (sg_force request)
                        (sg_intent request) in
  let generation := sv_generation reserved in
  let config := sv_config reserved in
  await! opened := open_send (sr_force send_request) reserved in
  let account := opened.1 in
  let provider_time := as_sync_utime account in
  let workflow := opened.2 in
  run! (if is_ok (exact_value_total (sr_intent send_request)) then fok tt
        else fail_client_error generation InvalidSendRequest);
  await! seqno := fetch_seqno generation (sv_seqno_request reserved) account in
  let fresh := mkFreshSendAccount (as_status account) seqno in
  await! valid_until :=
    or_fail (resolve_send_expiration (si_expiration (sr_intent send_request)) provider_time
               (cfg_send_validity_seconds config))
      (fun error => send_failed_error generation (expiration_error_text error)) in
  await! authorized := authorize generation workflow fresh in
  await! secret := unlock_secret generation config authorized.2 in
  await! workflow :=
    begin_preparation generation authorized.1 "invalid authorization transition" in
  await! prepared :=
    or_fail (prepare_internal_signed_transfer secret (cfg_record_id config) (cfg_address config)
               (cfg_network config) send_request fresh valid_until)
      (fun error => send_failed_error generation
         (lit "failed to prepare internal signed message: " ++ error)) in
  hand_off generation (sg_operation_id request) workflow prepared.

Definition sign_message (request : SignMessageRequest) : attempt SignMessageResult :=
  let send_request := mkSendRequest (sg_operation_id request) (sg_force request)
                        (sg_intent request) in
  await! reserved := locked (start_sign_message send_request) in
  sign_message_reserved request reserved.
End Send.
