(* ===== verification/SendRuns.v ===== *)
(** * Runs of the send operations

    The events that runs of [send], [send_boc] and [sign_message] can show to the
    host, in any interleaving with other operations. *)

From stdpp Require Import base numbers list option strings gmap relations.
From S2P Require Import Prelude BoundaryTypes SendDomain SendWorkflow SendReducer.
From S2P Require Import Base64 ClientDomain Json ProviderRequest ProviderAnswers.
From S2P Require Import ClientState ClientCalls Futures Resolution ResolutionRuns SendEngine.

(** ** The reducer calls of a submission *)

Section Reducer.
Context `{JournalCodec} `{SerdeJson} `{BigUintText} `{Base64Engine}.

(** [w] is about to persist, or has persisted, the message [p] at [stage]. *)
Definition carries (w : SendWorkflow) (p : PreparedTransfer) (stage : SendStage) : Prop :=
  sw_prepared w = Some p /\ sw_stage w = stage.

(** The stored record holds exactly the message [p] at [stage]. *)
Definition stores (record : JournalRecord) (p : PreparedTransfer) (stage : SendStage) : Prop :=
  exists d, decode_durable_record record = Ok d /\ dr_signed_boc d = pt_signed_boc p /\
    dr_message_hash d = pt_message_hash p /\ dr_stage d = stage.

Lemma persist_stores w p stage m :
  carries w p stage -> resolver_stage stage = false ->
  persist_directive w = Ok (PersistJournal m) ->
  stores (jce_replacement m) p (durable_stage w).
Proof.
  intros [Hp Hs] Hr Hm. destruct (decode_persisted w m) as (d & Hd & Hdec); [by rewrite Hs|done|].
  exists d. split; [done|]. unfold journal_record, prepared_ref in Hd. rewrite Hp in Hd.
  by simplify_eq/=.
Qed.

Lemma transfer_prepared_persist p w w' m :
  transfer_prepared p w = (w', Ok (PersistJournal m)) ->
  carries w' p Stage_PersistingPrepared /\ persist_directive w' = Ok (PersistJournal m).
Proof.
  unfold_reducer. destruct (transition _ _) as [stage|] eqn:Ht; [|done].
  apply transition_inv in Ht. simpl in *. destruct_and?; subst.
  destruct (validate_prepared w p) as [[]|]; [|done]. simpl. intros; simplify_eq.
  split; [|done]. by split.
Qed.

Lemma journal_persisted_ok o w w' directive p :
  sw_prepared w = Some p -> sw_stage w = Stage_PersistingPrepared ->
  journal_persisted o w = (w', Ok directive) ->
  jcr_applied o = true /\ sw_prepared w' = Some p /\
  match sw_kind w with
  | Kind_External =>
      directive = Submit (pt_signed_boc p) (pt_message_hash p) /\
      sw_stage w' = Stage_ReadyToSubmit
  | Kind_Internal =>
      directive = HandOff (pt_signed_boc p) (pt_valid_until p) /\ sw_stage w' = Stage_HandedOff
  end.
Proof.
  intros Hp Hs. unfold_reducer. destruct (jcr_applied o); simpl.
  2: { destruct (transition _ _); done. }
  rewrite Hs. simpl. destruct (sw_kind w);
    destruct (next_journal_version _); simpl; try done;
    unfold prepared_ref, ok_or; cbv [update]; simpl; rewrite Hp; simpl;
    intros; simplify_eq/=; done.
Qed.

Lemma submission_started_ok p w w' r :
  sw_prepared w = Some p -> submission_started w = (w', Ok r) -> carries w' p Stage_Submitting.
Proof.
  intros Hp. unfold_reducer. destruct (transition _ _) as [stage|] eqn:Ht; [|done].
  apply transition_inv in Ht. simpl in *. destruct_and?; subst. intros; simplify_eq. by split.
Qed.

(** The terminal stage that a provider answer leads to. *)
Definition outcome_stage (answer : result DomainError bytes) : SendStage :=
  match rbind answer parse_send_response with
  | Ok Accepted => Stage_Submitted
  | Ok (Rejected _) => Stage_Failed
  | Err error => if is_explicit_send_rejection error then Stage_Failed else Stage_SubmissionUnknown
  end.

Lemma final_directive_persist p w w' answer m :
  sw_prepared w = Some p -> final_directive w answer = (w', Ok (PersistJournal m)) ->
  carries w' p (outcome_stage answer) /\ persist_directive w' = Ok (PersistJournal m).
Proof.
  intros Hp. unfold final_directive, outcome_stage.
  destruct (rbind answer parse_send_response) as [[|message]|error];
    [| |destruct (is_explicit_send_rejection error)]; unfold_reducer;
    (destruct (transition _ _) as [stage|] eqn:Ht; [|done]);
    apply transition_inv in Ht; simpl in *; destruct_and?; subst;
    intros; simplify_eq; (split; [by split|done]).
Qed.

Lemma outcome_stage_terminal answer :
  resolver_stage (outcome_stage answer) = false /\
  (forall w p, carries w p (outcome_stage answer) -> durable_stage w = outcome_stage answer).
Proof.
  unfold outcome_stage, durable_stage, carries.
  destruct (rbind answer parse_send_response) as [[|message]|error];
    [| |destruct (is_explicit_send_rejection error)]; (split; [done|]);
    intros w p [_ ->]; done.
Qed.

Lemma journal_persisted_final o w w' directive p answer :
  carries w p (outcome_stage answer) -> journal_persisted o w = (w', Ok directive) ->
  jcr_applied o = true /\ sw_stage w' = outcome_stage answer.
Proof.
  intros [Hp Hs]. unfold_reducer. destruct (jcr_applied o); simpl.
  2: { destruct (transition _ _); done. }
  rewrite Hs. unfold outcome_stage.
  destruct (rbind answer parse_send_response) as [[|message]|error];
    [| |destruct (is_explicit_send_rejection error)]; simpl;
    destruct (next_journal_version _); simpl; try done; intros; simplify_eq/=; done.
Qed.
End Reducer.

(** ** Runs of a submission *)

Section Submission.
Context `{JournalCodec} `{SerdeJson} `{BigUintText} `{Base64Engine} `{WalletSigner}.

(** The commit write of [p]. *)
Definition commits (m : JournalCompareExchange) (p : PreparedTransfer) : Prop :=
  stores (jce_replacement m) p Stage_ReadyToSubmit \/ stores (jce_replacement m) p Stage_HandedOff.

(** What a submission of [p] may do next, after [h0]. *)
Definition submit_event (h0 : list event) (config : WalletClientConfig) (id : HttpRequestId)
    (p : PreparedTransfer) (before : list event) (ev : event) : Prop :=
  match ev with
  | Exchanged m _ =>
      (before = h0 /\ commits m p) \/
      (exists m0 o0 request answer,
         before = h0 ++ [Exchanged m0 (Ok o0); Executed request answer] /\
         jcr_applied o0 = true /\ stores (jce_replacement m) p (outcome_stage answer))
  | Executed request _ =>
      build_send_boc_request config id (pt_signed_boc p) = Ok request /\
      exists m o, before = h0 ++ [Exchanged m (Ok o)] /\ jcr_applied o = true /\
        stores (jce_replacement m) p Stage_ReadyToSubmit
  | Journal_Loaded _ _ | Secret_Read _ _ => False
  end.

(** A returned result: both writes were applied, and the last one stores the
    message at the stage whose phase is returned. *)
Definition submit_result (h0 : list event) (p : PreparedTransfer) (h : list event)
    (result : SendResult) : Prop :=
  exists m o request answer m' o',
    h = h0 ++ [Exchanged m (Ok o); Executed request answer; Exchanged m' (Ok o')] /\
    jcr_applied o = true /\ jcr_applied o' = true /\
    stores (jce_replacement m') p (outcome_stage answer) /\
    result = mkSendResult (pt_operation_id p) (pt_message_hash p) (pt_signed_boc p)
               (public_phase (outcome_stage answer)).

Lemma always_tracked_send ok (P : list event -> result DomainError bytes -> Prop) h g request :
  (forall answer, ok h (Executed request answer)) ->
  (forall answer, P (h ++ [Executed request answer]) answer) ->
  always ok (returns P) h (execute_tracked_send_request g request).
Proof. apply (always_execute_resolution ok P h (Owner_Send g)). Qed.

Lemma always_reduce {A} ok (P : list event -> SendWorkflow * A -> Prop) h call critical :
  (forall w a, call = (w, Ok a) -> P h (w, a)) ->
  always ok (returns P) h (reduce call critical).
Proof.
  intros HP. apply returns_or_fail. destruct call as [w [a|e]]; simpl; [|done].
  intros ? [= <-]. by apply HP.
Qed.

Lemma always_submit_committed h0 config id p g request w m o :
  build_send_boc_request config id (pt_signed_boc p) = Ok request ->
  sw_prepared w = Some p -> jcr_applied o = true ->
  stores (jce_replacement m) p Stage_ReadyToSubmit ->
  always (submit_event h0 config id p) (returns (submit_result h0 p))
    (h0 ++ [Exchanged m (Ok o)])
    (submit_committed g (pt_operation_id p) (pt_signed_boc p) request w (pt_message_hash p)).
Proof.
  intros Hreq Hp Ho Hst. set (h := h0 ++ [Exchanged m (Ok o)]). unfold submit_committed.
  apply (returns_abind _ _ _ _ _ (fun h' x => h' = h /\ carries x.1 p Stage_Submitting)).
  { apply always_reduce. intros w1 r E. split; [done|]. by eapply submission_started_ok. }
  intros h' [w1 ?] [-> [Hp1 Hs1]]. cbn [fst snd] in *.
  apply (returns_abind _ _ _ _ _ (fun h' _ => h' = h)); [by apply returns_locked|].
  intros h' _ ->.
  apply (returns_abind _ _ _ _ _ (fun h' answer => h' = h ++ [Executed request answer])).
  { apply always_tracked_send; [|done]. intros answer. split; [done|]. by exists m, o. }
  intros h' answer ->.
  apply (returns_abind _ _ _ _ _ (fun h' x => h' = h ++ [Executed request answer] /\
    final_directive w1 answer = (x.1, Ok x.2))).
  { by apply always_reduce. }
  intros h' [w2 directive] [-> Hfinal]. cbn [fst snd] in *.
  destruct directive as [| | | |m'| | |]; try apply returns_fail_with.
  destruct (final_directive_persist p w1 w2 answer m' Hp1 Hfinal) as [Hc2 Hm'].
  destruct (outcome_stage_terminal answer) as [Hrs Hds].
  assert (stores (jce_replacement m') p (outcome_stage answer)) as Hst'.
  { rewrite <- (Hds w2 p Hc2). by eapply persist_stores. }
  apply (returns_abind _ _ _ _ _ (fun h' _ => h' = h ++ [Executed request answer]));
    [by apply returns_locked|]. intros h' _ ->.
  apply (returns_abind _ _ _ _ _ (fun h' _ => h' = h ++ [Executed request answer]));
    [by apply returns_locked|]. intros h' _ ->.
  apply always_exchange.
  { intros journal. right. exists m, o, request, answer. unfold h. by rewrite <- app_assoc. }
  intros journal.
  apply (returns_abind _ _ _ _ _ (fun h' o' =>
    h' = h ++ [Executed request answer; Exchanged m' (Ok o')])).
  { apply returns_or_fail. intros o' ->. by rewrite <- app_assoc. }
  intros h' o' ->.
  apply (returns_abind _ _ _ _ _ (fun h' _ =>
    h' = h ++ [Executed request answer; Exchanged m' (Ok o')])); [by apply returns_locked|].
  intros h' _ ->.
  apply (returns_abind _ _ _ _ _ (fun h' x =>
    h' = h ++ [Executed request answer; Exchanged m' (Ok o')] /\
    journal_persisted o' w2 = (x.1, Ok x.2))).
  { by apply always_reduce. }
  intros h' [w3 directive] [-> Hlast]. cbn [fst snd] in *.
  destruct (journal_persisted_final _ _ _ _ _ _ Hc2 Hlast) as [Ho' Hs3].
  apply (returns_abind _ _ _ _ _ (fun h' _ =>
    h' = h ++ [Executed request answer; Exchanged m' (Ok o')])); [by apply returns_locked|].
  intros h' _ ->. exists m, o, request, answer, m', o'. unfold h. rewrite <- app_assoc.
  split_and!; try done. f_equal. simpl. by rewrite Hs3.
Qed.

Lemma durable_stage_persisting w p :
  carries w p Stage_PersistingPrepared ->
  durable_stage w = match sw_kind w with
                    | Kind_External => Stage_ReadyToSubmit
                    | Kind_Internal => Stage_HandedOff
                    end.
Proof. unfold durable_stage. by intros [_ ->]. Qed.

Lemma persisting_commits w p m :
  carries w p Stage_PersistingPrepared -> persist_directive w = Ok (PersistJournal m) ->
  commits m p.
Proof.
  intros Hc Hm. pose proof (persist_stores _ _ _ _ Hc eq_refl Hm) as Hst.
  rewrite (durable_stage_persisting w p Hc) in Hst. unfold commits. destruct (sw_kind w); tauto.
Qed.

Lemma always_submit_prepared h0 config id p g w :
  always (submit_event h0 config id p) (returns (submit_result h0 p)) h0
    (submit_prepared_send g config id w p).
Proof.
  unfold submit_prepared_send.
  apply (returns_abind _ _ _ _ _ (fun h request => h = h0 /\
    build_send_boc_request config id (pt_signed_boc p) = Ok request)).
  { by apply returns_or_fail. }
  intros h request [-> Hreq].
  apply (returns_abind _ _ _ _ _ (fun h x => h = h0 /\ transfer_prepared p w = (x.1, Ok x.2))).
  { by apply always_reduce. }
  intros h [w1 directive] [-> Hprep]. cbn [fst snd] in *.
  destruct directive as [| | | |m| | |]; try apply returns_fail_with.
  destruct (transfer_prepared_persist _ _ _ _ Hprep) as [Hc1 Hm].
  apply (returns_abind _ _ _ _ _ (fun h _ => h = h0)); [by apply returns_locked|].
  intros h _ ->. apply (returns_abind _ _ _ _ _ (fun h _ => h = h0)); [by apply returns_locked|].
  intros h _ ->. apply always_exchange.
  { intros answer. left. split; [done|]. by eapply persisting_commits. }
  intros answer.
  apply (returns_abind _ _ _ _ _ (fun h o => h = h0 ++ [Exchanged m (Ok o)])).
  { apply returns_or_fail. by intros o ->. }
  intros h o ->.
  apply (returns_abind _ _ _ _ _ (fun h _ => h = h0 ++ [Exchanged m (Ok o)]));
    [by apply returns_locked|]. intros h _ ->.
  apply (returns_abind _ _ _ _ _ (fun h x => h = h0 ++ [Exchanged m (Ok o)] /\
    journal_persisted o w1 = (x.1, Ok x.2))).
  { by apply always_reduce. }
  intros h [w2 directive] [-> Hack]. cbn [fst snd] in *.
  pose proof Hc1 as [Hp1 Hs1].
  destruct (journal_persisted_ok _ _ _ _ _ Hp1 Hs1 Hack) as (Ho & Hp2 & Hkind).
  destruct (sw_kind w1) eqn:Hk; destruct Hkind as [-> Hs2]; [|apply returns_fail_with].
  apply always_submit_committed; try done.
  pose proof (persist_stores _ _ _ _ Hc1 eq_refl Hm) as Hst.
  by rewrite (durable_stage_persisting w1 p Hc1), Hk in Hst.
Qed.
End Submission.

(** ** Runs of the opening steps *)

Section Opening.
Context `{JournalCodec} `{SerdeJson} `{BigUintText} `{Base64Engine} `{WalletSigner}.

(** Nothing unresolved stands in the way of a new signature after [history]: the
    slot was empty or held a final record, or the caller overrode a complete
    signed message, or the journal host confirmed final evidence in this run. *)
Definition admitted (force : bool) (config : WalletClientConfig) (history : list event) : Prop :=
  exists key loaded rest,
    history = Journal_Loaded key (Ok loaded) :: rest /\
    match loaded with
    | None => True
    | Some record =>
        pending_send_record record (cfg_record_id config) (cfg_address config) = Ok None \/
        exists pending,
          pending_send_record record (cfg_record_id config) (cfg_address config)
            = Ok (Some pending) /\
          ((force = true /\ can_force_retry pending = true) \/
           exists confirmed_at later journal resolution,
             history = confirmed_at ++ later /\ observed_journal confirmed_at journal /\
             terminal_send_resolution journal (cfg_record_id config) (cfg_address config)
               = Ok (Some resolution))
    end.

Lemma admitted_app force config h later :
  admitted force config h -> admitted force config (h ++ later).
Proof.
  intros (key & loaded & rest & -> & Hl). exists key, loaded, (rest ++ later).
  split; [done|]. destruct loaded as [record|]; [|done].
  destruct Hl as [Hl|(pending & Hp & [Hf|(c & l & j & r & E & Ho & Ht)])]; [by left| |].
  - right. exists pending. split; [done|]. by left.
  - right. exists pending. split; [done|]. right. exists c, (l ++ later), j, r.
    split; [|done]. by rewrite app_assoc, <- E.
Qed.

(** What [open_send] may do next. *)
Definition open_event (reserved : SendReservation) (before : list event) (ev : event) : Prop :=
  let config := sv_config reserved in
  match ev with
  | Journal_Loaded key _ => before = [] /\ key = sv_journal_key reserved
  | Executed request _ =>
      request = sv_account_request reserved \/
      exists pending requests,
        resolution_requests_new config pending (sv_resolution_request_ids reserved)
          = Ok requests /\
        request ∈ [rr_executed requests; rr_pending requests; rr_wallet_state requests;
                   rr_executed_recheck requests]
  | Exchanged _ _ =>
      exists key record request body account pending requests rest,
        before = Journal_Loaded key (Ok (Some record)) :: Executed request (Ok body) :: rest /\
        parse_account body = Ok account /\
        pending_send_record record (cfg_record_id config) (cfg_address config)
          = Ok (Some pending) /\
        resolver_event config pending (as_sync_utime account) requests rest ev
  | Secret_Read _ _ => False
  end.

Lemma always_load_slot reserved :
  let config := sv_config reserved in
  always (open_event reserved)
    (returns (fun h slot => h = [Journal_Loaded (sv_journal_key reserved) (Ok slot.1)] /\
       match slot.1 with
       | None => slot.2 = None
       | Some record =>
           pending_send_record record (cfg_record_id config) (cfg_address config) = Ok slot.2
       end)) []
    (load_send_slot (sv_generation reserved) config (sv_journal_key reserved)).
Proof.
  intros config. unfold load_send_slot. apply always_load; [done|]. intros answer.
  set (key := sv_journal_key reserved).
  apply (returns_abind _ _ _ _ _ (fun h o => h = [Journal_Loaded key (Ok o)])).
  { apply returns_or_fail. by intros o ->. }
  intros h o ->.
  apply (returns_abind _ _ _ _ _ (fun h _ => h = [Journal_Loaded key (Ok o)]));
    [by apply returns_locked|]. intros h _ ->.
  destruct o as [record|]; [|done].
  apply (returns_abind _ _ _ _ _ (fun h pending => h = [Journal_Loaded key (Ok (Some record))] /\
    pending_send_record record (cfg_record_id config) (cfg_address config) = Ok pending)).
  { by apply returns_or_fail. }
  by intros h pending [-> Hp].
Qed.

(** [settle_earlier_send] after the account was fetched. *)
Lemma always_settle reserved force slot body account :
  let config := sv_config reserved in
  let h := [Journal_Loaded (sv_journal_key reserved) (Ok slot.1);
            Executed (sv_account_request reserved) (Ok body)] in
  parse_account body = Ok account ->
  match slot.1 with
  | None => slot.2 = None
  | Some record =>
      pending_send_record record (cfg_record_id config) (cfg_address config) = Ok slot.2
  end ->
  always (open_event reserved) (returns (fun h _ => admitted force config h)) h
    (settle_earlier_send (sv_generation reserved) config force
       (sv_resolution_request_ids reserved) (as_sync_utime account) slot).
Proof.
  intros config h Hbody Hslot. unfold settle_earlier_send. destruct slot as [loaded pending].
  cbn [fst snd] in *. destruct pending as [pending|].
  2: { exists (sv_journal_key reserved), loaded, [Executed (sv_account_request reserved) (Ok body)].
       split; [done|]. destruct loaded; [by left|done]. }
  destruct loaded as [record|]; [|done].
  destruct (force && can_force_retry pending) eqn:Hforce.
  { apply andb_true_iff in Hforce. eexists _, _, _. split; [done|]. right. exists pending.
    split; [done|]. by left. }
  apply (returns_abind _ _ _ _ _ (fun h' requests => h' = h /\
    resolution_requests_new config pending (sv_resolution_request_ids reserved) = Ok requests)).
  { by apply returns_or_fail. }
  intros h' requests [-> Hreq].
  apply (returns_abind _ _ _ _ _ (fun h' resolved => exists rest, h' = h ++ rest /\
    resolver_result record (cfg_record_id config) (cfg_address config) rest resolved)).
  { rewrite <- (app_nil_r h).
    eapply always_shift;
      [apply (always_resolve config pending (as_sync_utime account) requests record); [|done]
      | |intros h' [resolved|] Hr; [by exists h'|done]].
    { by apply parse_account_time in Hbody. }
    intros h' [request answer|key answer|m answer|read answer] Hev; simpl in Hev |- *; try done.
    - right. by exists pending, requests.
    - by eexists _, record, _, body, account, pending, requests, h'. }
  intros h' resolved (rest & -> & Hres).
  apply (returns_abind _ _ _ _ _ (fun h' _ => h' = h ++ rest)); [by apply returns_locked|].
  intros h' _ ->. unfold resolver_result in Hres.
  destruct (rp_resolution resolved) as [hash lt| | | |reason];
    [destruct Hres as [Hobs Hterm]..|].
  5: { apply (returns_abind _ _ _ _ _ (fun _ _ => True)); [by apply returns_locked|]. done. }
  all: eexists _, (Some record), _; split; [done|]; right; exists pending; split; [done|]; right.
  all: destruct Hobs as (b & m & o & -> & Hj).
  all: eexists (h ++ b ++ [Exchanged m (Ok o)]), [], _, _; split_and!; [by rewrite app_nil_r| |done].
  all: exists (h ++ b), m, o; split; [by rewrite app_assoc|done].
Qed.

Lemma always_open force reserved :
  always (open_event reserved)
    (returns (fun h _ => admitted force (sv_config reserved) h)) [] (open_send force reserved).
Proof.
  unfold open_send. eapply returns_abind; [apply always_load_slot|].
  intros h slot [-> Hslot]. cbn beta in Hslot.
  apply (returns_abind _ _ _ _ _ (fun h' account => exists body,
    h' = [Journal_Loaded (sv_journal_key reserved) (Ok slot.1);
          Executed (sv_account_request reserved) (Ok body)] /\ parse_account body = Ok account)).
  { unfold fetch_account.
    apply (returns_abind _ _ _ _ _ (fun h' answer =>
      h' = [Journal_Loaded (sv_journal_key reserved) (Ok slot.1);
            Executed (sv_account_request reserved) answer])).
    - apply always_tracked_send; [by left|done].
    - intros h' answer ->. apply returns_or_fail. destruct answer; [by eauto|done]. }
  intros h account (body & -> & Hbody). eapply returns_abind; [by apply always_settle|].
  intros h record Hadm. cbn beta in Hadm.
  apply (returns_abind _ _ _ _ _ (fun h' _ => h' = h)).
  { unfold admit_journal.
    apply (returns_abind _ _ _ _ _ (fun h' _ => h' = h)); [by apply always_reduce|].
    intros h' [w directive] ->. cbn [fst snd].
    destruct directive; try apply returns_fail_with.
    apply (returns_abind _ _ _ _ _ (fun h' _ => h' = h)); [by apply returns_locked|].
    by intros h' _ ->. }
  by intros h' w ->.
Qed.
End Opening.

(** ** Runs of the operations *)

Section Operations.
Context `{JournalCodec} `{SerdeJson} `{BigUintText} `{Base64Engine} `{WalletSigner}.

(** A secret that belongs to the configured wallet was read in [history]. *)
Definition own_secret (config : WalletClientConfig) (history : list event) (secret : bytes)
  : Prop :=
  (exists request, Secret_Read request (Ok secret) ∈ history) /\
  derive_source secret (cfg_network config) = Ok (tas_address (cfg_address config)).

(** What [send] and [sign_message] may do before the message is prepared. *)
Definition prepare_event (force : bool) (reserved : SendReservation) (before : list event)
    (ev : event) : Prop :=
  open_event reserved before ev \/
  match ev with
  | Executed request _ => request = sv_seqno_request reserved
  | Secret_Read _ _ => admitted force (sv_config reserved) before
  | _ => False
  end.

Lemma always_opened force reserved ok :
  (forall h ev, open_event reserved h ev -> ok h ev) ->
  always ok (returns (fun h _ => admitted force (sv_config reserved) h)) []
    (open_send force reserved).
Proof. intros Hok. apply (always_shift _ _ _ _ [] [] _ (always_open force reserved)); done. Qed.

Lemma parse_seqno_u32 body seqno : parse_seqno body = Ok seqno -> (seqno <= u32_max)%N.
Proof.
  unfold parse_seqno. intros (value & _ & Hs)%rbind_ok. destruct (value_get "error" value); [done|].
  apply rbind_ok in Hs as (first & _ & Hs). apply rbind_ok in Hs as (encoded & _ & Hs).
  destruct (strip_prefix _ encoded); apply map_err_ok, parse_uint_bound in Hs; done.
Qed.

Lemma always_fetch_seqno ok h g request account :
  (forall answer, ok h (Executed request answer)) ->
  always ok (returns (fun h' seqno => (exists later, h' = h ++ later) /\ (seqno <= u32_max)%N)) h
    (fetch_seqno g request account).
Proof.
  intros Hok. unfold fetch_seqno. case_bool_decide; [|split; [exists []; by rewrite app_nil_r|done]].
  apply (returns_abind _ _ _ _ _ (fun h' _ => exists later, h' = h ++ later)).
  - apply always_tracked_send; [done|by eauto].
  - intros h' answer Hh. apply returns_or_fail. intros seqno (body & _ & Hs)%rbind_ok.
    split; [done|by eapply parse_seqno_u32].
Qed.

Lemma always_authorize ok h g w fresh :
  always ok (returns (fun h' _ => h' = h)) h (authorize g w fresh).
Proof.
  unfold authorize. apply (returns_abind _ _ _ _ _ (fun h' _ => h' = h)); [by apply always_reduce|].
  intros h' [w' directive] ->. cbn [fst snd]. destruct directive; try apply returns_fail_with.
  apply (returns_abind _ _ _ _ _ (fun h' _ => h' = h)); [by apply returns_locked|].
  by intros h' _ ->.
Qed.

Lemma always_begin_preparation ok h g w invalid :
  always ok (returns (fun h' _ => h' = h)) h (begin_preparation g w invalid).
Proof.
  unfold begin_preparation.
  apply (returns_abind _ _ _ _ _ (fun h' _ => h' = h)); [by apply always_reduce|].
  intros h' [w' directive] ->. cbn [fst snd]. destruct directive; try apply returns_fail_with.
  apply (returns_abind _ _ _ _ _ (fun h' _ => h' = h)); [by apply returns_locked|].
  by intros h' _ ->.
Qed.

Lemma always_unlock ok h g config request :
  (forall answer, ok h (Secret_Read request answer)) ->
  always ok (returns (fun h' secret => (exists later, h' = h ++ later) /\ own_secret config h' secret))
    h (unlock_secret g config request).
Proof.
  intros Hok. unfold unlock_secret. apply always_secret; [done|]. intros answer.
  apply (returns_abind _ _ _ _ _ (fun h' secret => h' = h ++ [Secret_Read request (Ok secret)])).
  { apply returns_or_fail. by intros secret ->. }
  intros h' secret ->. set (h' := h ++ _).
  apply (returns_abind _ _ _ _ _ (fun h0 _ => h0 = h')); [by apply returns_locked|].
  intros h0 _ ->.
  apply (returns_abind _ _ _ _ _ (fun h0 source => h0 = h' /\
    derive_source secret (cfg_network config) = Ok source)); [by apply returns_or_fail|].
  intros h0 source [-> Hsource]. case_bool_decide as Hown; [|apply returns_fail_with].
  split; [by eexists|]. split; [|by rewrite <- Hown].
  exists request. unfold h'. set_solver.
Qed.

(** What [send] may do: open, fetch, unlock, and then submit the message prepared
    with the secret of this wallet. *)
Definition send_event (request : SendRequest) (reserved : SendReservation) (before : list event)
    (ev : event) : Prop :=
  prepare_event (sr_force request) reserved before ev \/
  exists h0 secret fresh valid_until p id,
    admitted (sr_force request) (sv_config reserved) h0 /\
    own_secret (sv_config reserved) h0 secret /\
    prepare_transfer secret (cfg_record_id (sv_config reserved))
      (cfg_address (sv_config reserved)) (cfg_network (sv_config reserved)) request fresh
      valid_until = Ok p /\
    (fa_seqno fresh <= u32_max)%N /\
    sv_submit_request_id reserved = Some id /\
    submit_event h0 (sv_config reserved) id p before ev.

Definition send_result (h : list event) (result : SendResult) : Prop :=
  exists h0 p, submit_result h0 p h result.

Lemma always_check_balance ok h g intent account :
  always ok (returns (fun h' _ => h' = h)) h (check_balance g intent account).
Proof.
  assert (forall error, always ok (returns (fun h' (_ : unit) => h' = h)) h
    (fail_client_error g error)) as Hfail.
  { intros error. apply (returns_abind _ _ _ _ _ (fun _ _ => True)); [by apply returns_locked|done]. }
  unfold check_balance. destruct (exact_value_total intent) as [[nanograms|]|]; [|done|apply Hfail].
  destruct (_ <? _)%N; [apply Hfail|done].
Qed.

Lemma always_send_reserved request reserved :
  always (send_event request reserved) (returns send_result) [] (send_reserved request reserved).
Proof.
  unfold send_reserved. eapply returns_abind.
  { apply (always_opened (sr_force request)). intros. by left; left. }
  intros h [account w] Hadm. cbn beta iota zeta in *. cbn [fst snd].
  eapply returns_abind; [apply always_check_balance|]. intros ? _ ->.
  eapply returns_abind; [apply always_fetch_seqno; intros; left; by right|].
  intros ? seqno [[l1 ->] Hseqno]. apply (admitted_app _ _ _ l1) in Hadm.
  apply (returns_abind _ _ _ _ _ (fun h' _ => h' = h ++ l1)); [by apply returns_or_fail|].
  intros ? valid_until ->. eapply returns_abind; [apply always_authorize|].
  intros ? authorized ->.
  eapply returns_abind; [apply always_unlock; intros; left; by right|].
  intros ? secret [[l2 ->] Hown]. apply (admitted_app _ _ _ l2) in Hadm.
  set (h0 := (h ++ l1) ++ l2) in *.
  eapply returns_abind; [apply always_begin_preparation|]. intros ? w' ->.
  apply (returns_abind _ _ _ _ _ (fun h' p => h' = h0 /\
    prepare_transfer secret (cfg_record_id (sv_config reserved))
      (cfg_address (sv_config reserved)) (cfg_network (sv_config reserved)) request
      (mkFreshSendAccount (as_status account) seqno) valid_until = Ok p)).
  { by apply returns_or_fail. }
  intros ? p [-> Hprep]. destruct (sv_submit_request_id reserved) as [id|] eqn:Hid; [|done].
  rewrite <- (app_nil_l h0).
  eapply (always_shift _ _ _ _ [] h0 _ (always_submit_prepared h0 (sv_config reserved) id p
    (sv_generation reserved) w')).
  - intros h' ev Hev. right.
    exists h0, secret, (mkFreshSendAccount (as_status account) seqno), valid_until, p, id.
    by split_and!.
  - intros h' [result|] Hr; [by exists h0, p|done].
Qed.

(** ** Prepared messages and hand-offs *)

(** What [send_boc] may do. *)
Definition send_boc_event (request : SendBocRequest) (reserved : SendReservation)
    (before : list event) (ev : event) : Prop :=
  open_event reserved before ev \/
  (exists answer, ev = Executed (sv_seqno_request reserved) answer) \/
  exists h0 p id,
    admitted (sb_force request) (sv_config reserved) h0 /\
    prepare_signed_boc (cfg_record_id (sv_config reserved)) (cfg_address (sv_config reserved))
      request = Ok p /\
    sv_submit_request_id reserved = Some id /\
    submit_event h0 (sv_config reserved) id p before ev.

Lemma always_send_boc_reserved request reserved :
  always (send_boc_event request reserved) (returns send_result) []
    (send_boc_reserved request reserved).
Proof.
  unfold send_boc_reserved. eapply returns_abind.
  { apply (always_opened (sb_force request)). intros. by left. }
  intros h [account w] Hadm. cbn beta iota zeta in *. cbn [fst snd].
  eapply returns_abind; [apply always_fetch_seqno; intros; right; left; by eauto|].
  intros ? seqno [[l1 ->] Hseqno]. apply (admitted_app _ _ _ l1) in Hadm. set (h0 := h ++ l1) in *.
  destruct (negb _); [apply returns_fail_with|].
  apply (returns_abind _ _ _ _ _ (fun h' _ => h' = h0)); [by apply returns_or_fail|].
  intros ? _ ->.
  apply (returns_abind _ _ _ _ _ (fun h' _ => h' = h0)); [by apply always_reduce|].
  intros ? [w' ?] ->.
  apply (returns_abind _ _ _ _ _ (fun h' _ => h' = h0)); [by apply returns_locked|].
  intros ? _ ->.
  apply (returns_abind _ _ _ _ _ (fun h' p => h' = h0 /\
    prepare_signed_boc (cfg_record_id (sv_config reserved)) (cfg_address (sv_config reserved))
      request = Ok p)); [by apply returns_or_fail|].
  intros ? p [-> Hprep]. destruct (sv_submit_request_id reserved) as [id|] eqn:Hid; [|done].
  eapply (always_shift _ _ _ _ [] h0 _ (always_submit_prepared h0 (sv_config reserved) id p
    (sv_generation reserved) w')).
  - intros h' ev Hev. right. right. exists h0, p, id. by split_and!.
  - intros h' [result|] Hr; [by exists h0, p|done].
Qed.

(** What [sign_message] may do: everything of the preparation, and one write that
    makes the signed message durable before it is handed out. *)
Definition sign_message_event (request : SignMessageRequest) (reserved : SendReservation)
    (before : list event) (ev : event) : Prop :=
  prepare_event (sg_force request) reserved before ev \/
  exists m answer p secret,
    ev = Exchanged m answer /\ commits m p /\
    admitted (sg_force request) (sv_config reserved) before /\
    own_secret (sv_config reserved) before secret.

Definition sign_message_result (h : list event) (result : SignMessageResult) : Prop :=
  exists h0 m outcome p,
    h = h0 ++ [Exchanged m (Ok outcome)] /\ jcr_applied outcome = true /\
    stores (jce_replacement m) p Stage_HandedOff /\
    sgr_internal_boc result = pt_signed_boc p /\ sgr_valid_until result = pt_valid_until p /\
    sgr_phase result = public_phase Stage_HandedOff.

Lemma always_hand_off ok h0 g operation_id w p :
  (forall m answer, commits m p -> ok h0 (Exchanged m answer)) ->
  always ok (returns sign_message_result) h0 (hand_off g operation_id w p).
Proof.
  intros Hok. unfold hand_off.
  apply (returns_abind _ _ _ _ _ (fun h x => h = h0 /\ transfer_prepared p w = (x.1, Ok x.2)));
    [by apply always_reduce|].
  intros h [w1 directive] [-> Hprep]. cbn [fst snd] in *.
  destruct directive as [| | | |m| | |]; try apply returns_fail_with.
  destruct (transfer_prepared_persist _ _ _ _ Hprep) as [Hc1 Hm].
  apply (returns_abind _ _ _ _ _ (fun h _ => h = h0)); [by apply returns_locked|].
  intros h _ ->. apply (returns_abind _ _ _ _ _ (fun h _ => h = h0)); [by apply returns_locked|].
  intros h _ ->. apply always_exchange; [intros; by eapply Hok, persisting_commits|].
  intros answer.
  apply (returns_abind _ _ _ _ _ (fun h o => h = h0 ++ [Exchanged m (Ok o)])).
  { apply returns_or_fail. by intros o ->. }
  intros h o ->.
  apply (returns_abind _ _ _ _ _ (fun h _ => h = h0 ++ [Exchanged m (Ok o)]));
    [by apply returns_locked|]. intros h _ ->.
  apply (returns_abind _ _ _ _ _ (fun h x => h = h0 ++ [Exchanged m (Ok o)] /\
    journal_persisted o w1 = (x.1, Ok x.2))); [by apply always_reduce|].
  intros h [w2 directive] [-> Hack]. cbn [fst snd] in *. pose proof Hc1 as [Hp1 Hs1].
  destruct (journal_persisted_ok _ _ _ _ _ Hp1 Hs1 Hack) as (Ho & Hp2 & Hkind).
  destruct (sw_kind w1) eqn:Hk; destruct Hkind as [-> Hs2]; [apply returns_fail_with|].
  apply (returns_abind _ _ _ _ _ (fun h _ => h = h0 ++ [Exchanged m (Ok o)]));
    [by apply returns_locked|]. intros h _ ->.
  pose proof (persist_stores _ _ _ _ Hc1 eq_refl Hm) as Hst.
  rewrite (durable_stage_persisting w1 p Hc1), Hk in Hst.
  exists h0, m, o, p. split_and!; try done. simpl. by rewrite Hs2.
Qed.

Lemma always_sign_message_reserved request reserved :
  always (sign_message_event request reserved) (returns sign_message_result) []
    (sign_message_reserved request reserved).
Proof.
  unfold sign_message_reserved. eapply returns_abind.
  { apply (always_opened (sg_force request)). intros. by left; left. }
  intros h [account w] Hadm. cbn beta iota zeta in *. cbn [fst snd sr_intent sr_force].
  apply (returns_abind _ _ _ _ _ (fun h' _ => h' = h)).
  { destruct (is_ok _); [done|].
    apply (returns_abind _ _ _ _ _ (fun _ _ => True)); [by apply returns_locked|done]. }
  intros ? _ ->.
  eapply returns_abind; [apply always_fetch_seqno; intros; left; by right|].
  intros ? seqno [[l1 ->] Hseqno]. apply (admitted_app _ _ _ l1) in Hadm.
  apply (returns_abind _ _ _ _ _ (fun h' _ => h' = h ++ l1)); [by apply returns_or_fail|].
  intros ? valid_until ->. eapply returns_abind; [apply always_authorize|].
  intros ? authorized ->.
  eapply returns_abind; [apply always_unlock; intros; left; by right|].
  intros ? secret [[l2 ->] Hown]. apply (admitted_app _ _ _ l2) in Hadm.
  set (h0 := (h ++ l1) ++ l2) in *.
  eapply returns_abind; [apply always_begin_preparation|]. intros ? w' ->.
  apply (returns_abind _ _ _ _ _ (fun h' _ => h' = h0)); [by apply returns_or_fail|].
  intros ? p ->. apply always_hand_off. intros m answer Hm. right.
  by exists m, answer, p, secret.
Qed.
End Operations.

(** ** Reserved identifiers *)

Section Reserved.
Context `{JournalCodec} `{SerdeJson}.

Lemma section_bind_ok {A B} (m : section A) (k : A -> section B) s s' b :
  mbind' m k s = (s', Ok b) -> exists s1 a, m s = (s1, Ok a) /\ k a s1 = (s', Ok b).
Proof. unfold mbind'. destruct (m s) as [s1 [a|e]]; [by eauto|done]. Qed.

Lemma section_lift_ok {A} (r : result WalletClientError A) s s' a :
  (mlift r : section A) s = (s', Ok a) -> s' = s /\ r = Ok a.
Proof. unfold mlift. destruct r; by intros; simplify_eq. Qed.

Lemma allocate_ok s s' id :
  allocate_request_id s = (s', Ok id) ->
  rid_value id = st_next_id s /\ st_next_id s' = (st_next_id s + 1)%N.
Proof.
  unfold allocate_request_id, mbind', mget, mlift, mupdate, mret, checked_add.
  destruct (_ <=? _)%N; simpl; [|done]. intros; by simplify_eq.
Qed.

Lemma built_v2_id config id path query request :
  build_toncenter_v2_request config id path query = Ok request -> hr_id request = id.
Proof. unfold build_toncenter_v2_request. intros (url & _ & Hr)%rbind_ok. by simplify_eq/=. Qed.

Lemma built_v3_id config id path query request :
  build_toncenter_v3_request config id path query = Ok request -> hr_id request = id.
Proof. unfold build_toncenter_v3_request. intros (url & _ & Hr)%rbind_ok. by simplify_eq/=. Qed.

Lemma built_rpc_id config id method params request :
  build_json_rpc_request config id method params = Ok request -> hr_id request = id.
Proof.
  unfold build_json_rpc_request. intros (body & _ & Hr)%rbind_ok.
  apply rbind_ok in Hr as (r & Hr & E). apply built_v2_id in Hr. by simplify_eq/=.
Qed.

Lemma allocate_four_ok s s' ids :
  allocate_four s = (s', Ok ids) ->
  map rid_value ids = [st_next_id s; st_next_id s + 1; st_next_id s + 2; st_next_id s + 3]%N /\
  st_next_id s' = (st_next_id s + 4)%N.
Proof.
  unfold allocate_four. intros H1.
  apply section_bind_ok in H1 as (s1 & a & [Ha Hs1]%allocate_ok & H1).
  apply section_bind_ok in H1 as (s2 & b & [Hb Hs2]%allocate_ok & H1).
  apply section_bind_ok in H1 as (s3 & c & [Hc Hs3]%allocate_ok & H1).
  apply section_bind_ok in H1 as (s4 & d & [Hd Hs4]%allocate_ok & H1).
  unfold mret in H1. simplify_eq/=. rewrite Ha, Hb, Hc, Hd. split; [|lia].
  repeat (f_equal; try lia).
Qed.

Definition reserved_ids (with_submit : bool) (reserved : SendReservation) : Prop :=
  exists n,
    rid_value (hr_id (sv_account_request reserved)) = n /\
    rid_value (hr_id (sv_seqno_request reserved)) = (n + 1)%N /\
    map rid_value (sv_resolution_request_ids reserved) = [n + 2; n + 3; n + 4; n + 5]%N /\
    rid_value <$> sv_submit_request_id reserved
      = (if with_submit then Some (n + 6)%N else None).

Lemma reserve_send_ids with_submit make s s' reserved :
  reserve_send with_submit make s = (s', Ok reserved) -> reserved_ids with_submit reserved.
Proof.
  unfold reserve_send. intros Hr. unfold mbind' at 1, mget at 1 in Hr.
  destruct (busy s); [done|].
  apply section_bind_ok in Hr as (s0 & g & _ & Hr).
  apply section_bind_ok in Hr as (s1 & account_id & [Ha Hs1]%allocate_ok & Hr).
  apply section_bind_ok in Hr as (s2 & account & [-> Hb]%section_lift_ok & Hr).
  apply section_bind_ok in Hr as (s3 & seqno_id & [Hq Hs3]%allocate_ok & Hr).
  apply section_bind_ok in Hr as (s4 & seqno & [-> Hc]%section_lift_ok & Hr).
  apply section_bind_ok in Hr as (s5 & ids & [Hids Hs5]%allocate_four_ok & Hr).
  apply section_bind_ok in Hr as (s6 & submit & Hsub & Hr).
  apply section_bind_ok in Hr as (s7 & directive & _ & Hr).
  apply built_v2_id in Hb. apply built_rpc_id in Hc.
  assert (rid_value <$> submit = if with_submit then Some (st_next_id s5) else None) as Hsubmit.
  { destruct with_submit; [|unfold mret in Hsub; by simplify_eq].
    apply section_bind_ok in Hsub as (s8 & id & [Hid _]%allocate_ok & Hsub).
    unfold mret in Hsub. simplify_eq/=. by rewrite Hid. }
  destruct directive; try done.
  do 4 (apply section_bind_ok in Hr as (? & ? & _ & Hr)).
  apply section_bind_ok in Hr as (? & ? & _ & Hr). unfold mret in Hr. simplify_eq/=.
  exists (rid_value (hr_id account)). unfold reserved_ids. simpl. split_and!; [done|lia| |].
  - rewrite Hids. repeat (f_equal; try lia).
  - rewrite Hsubmit. destruct with_submit; [f_equal; lia|done].
Qed.

Lemma start_send_ids request s reserved :
  (start_send request s).2 = Ok reserved -> reserved_ids true reserved.
Proof.
  destruct (start_send request s) as [s' r] eqn:E. simpl. intros ->. unfold start_send in E.
  apply section_bind_ok in E as (s1 & st & _ & E).
  apply section_bind_ok in E as (s2 & secret & _ & E). by eapply reserve_send_ids.
Qed.

Lemma resolution_request_ids config pending ids requests request :
  length ids = 4 -> resolution_requests_new config pending ids = Ok requests ->
  request ∈ [rr_executed requests; rr_pending requests; rr_wallet_state requests;
             rr_executed_recheck requests] ->
  hr_id request ∈ ids.
Proof.
  intros Hlen Hr Hin. unfold resolution_requests_new in Hr.
  apply rbind_ok in Hr as (r1 & E1 & Hr). apply rbind_ok in Hr as (r2 & E2 & Hr).
  apply rbind_ok in Hr as (r3 & E3 & Hr). apply rbind_ok in Hr as (r4 & E4 & Hr). simplify_eq/=.
  apply built_v3_id in E1, E2, E3, E4.
  destruct ids as [|a [|b [|c [|d []]]]]; try done. simpl in *. subst.
  repeat (apply elem_of_cons in Hin as [->|Hin]; [set_solver|]). by apply elem_of_nil in Hin.
Qed.
End Reserved.

(** ** Claims *)

Section Claims.
Context `{JournalCodec} `{SerdeJson} `{BigUintText} `{Base64Engine} `{WalletSigner}
  `{TonAddressText}.

(** Where a submission comes from: the message was prepared with the secret of this
    wallet and a sequence number of the provider, and is durable. *)
Lemma submission_origin request s0 reserved s events s' f before r answer after :
  (start_send request s0).2 = Ok reserved ->
  runs (send_reserved request reserved) s events s' f ->
  events = before ++ Executed r answer :: after ->
  sv_submit_request_id reserved = Some (hr_id r) ->
  exists h0 secret fresh valid_until p m outcome,
    own_secret (sv_config reserved) h0 secret /\
    prepare_transfer secret (cfg_record_id (sv_config reserved)) (cfg_address (sv_config reserved))
      (cfg_network (sv_config reserved)) request fresh valid_until = Ok p /\
    (fa_seqno fresh <= u32_max)%N /\
    before = h0 ++ [Exchanged m (Ok outcome)] /\ jcr_applied outcome = true /\
    stores (jce_replacement m) p Stage_ReadyToSubmit /\
    build_send_boc_request (sv_config reserved) (hr_id r) (pt_signed_boc p) = Ok r.
Proof.
  intros (n & Ha & Hq & Hids & Hsub)%start_send_ids Hrun Hsplit Hid.
  rewrite Hid in Hsub. injection Hsub as Hsub.
  pose proof (always_event _ _ _ _ _ _ _ _ _ _ (always_send_reserved request reserved) Hrun Hsplit)
    as [[Hopen|Hseq]|(h0 & secret & fresh & until & p & id & _ & Hown & Hprep & Hu & Hid' & Hreq & m & o & Hev)].
  - destruct Hopen as [->|(pending & requests & Hnew & Hin)]; [lia|].
    assert (length (sv_resolution_request_ids reserved) = 4) as Hlen
      by (by rewrite <- (length_map rid_value), Hids).
    pose proof (resolution_request_ids _ _ _ _ _ Hlen Hnew Hin) as Hr'.
    assert (rid_value (hr_id r) ∈ map rid_value (sv_resolution_request_ids reserved)) as Hr
      by (apply list_elem_of_fmap; by eauto).
    rewrite Hids in Hr. set_solver by lia.
  - simpl in Hseq. subst r. lia.
  - rewrite Hid in Hid'. injection Hid' as <-. destruct Hev as (-> & Ho & Hst).
    exists h0, secret, fresh, until, p, m, o. by split_and!.
Qed.

(** Nothing is submitted before it is durable.  In every run of [send], under
    any interleaving and any host answers, the reserved submission request is
    executed only directly after a journal write that the host acknowledged as
    applied, whose record decodes to the very message that the request carries,
    at the stage that blocks a replacement signature. *)
Theorem send_commits_before_submit request s0 reserved s events s' f before r answer after :
  (start_send request s0).2 = Ok reserved ->
  runs (send_reserved request reserved) s events s' f ->
  events = before ++ Executed r answer :: after ->
  sv_submit_request_id reserved = Some (hr_id r) ->
  exists h0 p m outcome,
    before = h0 ++ [Exchanged m (Ok outcome)] /\ jcr_applied outcome = true /\
    stores (jce_replacement m) p Stage_ReadyToSubmit /\
    build_send_boc_request (sv_config reserved) (hr_id r) (pt_signed_boc p) = Ok r.
Proof.
  intros Hstart Hrun Hsplit Hid.
  destruct (submission_origin _ _ _ _ _ _ _ _ _ _ _ Hstart Hrun Hsplit Hid)
    as (h0 & secret & fresh & until & p & m & o & _ & _ & _ & Hev).
  by exists h0, p, m, o.
Qed.

(** C14: no new signature while an earlier message may still execute.  In every run
    of [send] the protected secret is read only after the journal slot of this
    wallet was found empty or final, or the caller explicitly overrode a complete
    signed message, or the journal host confirmed final evidence about the earlier
    send in this run. *)
Theorem send_never_signs_over_unresolved request reserved s events s' f before read answer after :
  runs (send_reserved request reserved) s events s' f ->
  events = before ++ Secret_Read read answer :: after ->
  admitted (sr_force request) (sv_config reserved) before.
Proof.
  intros Hrun Hsplit.
  pose proof (always_event _ _ _ _ _ _ _ _ _ _ (always_send_reserved request reserved) Hrun Hsplit)
    as [[Hopen|Hadm]|(h0 & secret & fresh & until & p & id & _ & _ & _ & _ & _ & Hev)]; done.
Qed.

(** A successful [send] tells the truth: when it returns, both journal writes
    were acknowledged, the last one stores exactly the returned message, and the
    returned phase is that of the stored stage, which the provider's answer to the
    submission determines. *)
Theorem send_result_is_durable request reserved s events s' result :
  runs (send_reserved request reserved) s events s' (Done (Ok result)) ->
  send_result events result.
Proof.
  intros Hrun. exact (always_result _ _ _ _ _ _ _ (always_send_reserved request reserved) Hrun).
Qed.

(** A caller-signed message crosses the same boundary without any secret: in
    every run of [send_boc] no protected secret is read, every provider request
    and journal write is one of the opening steps, the sequence-number lookup, or
    a step of the durable submission of exactly the normalized message. *)
Theorem send_boc_events request reserved s events s' f before ev after :
  runs (send_boc_reserved request reserved) s events s' f -> events = before ++ ev :: after ->
  send_boc_event request reserved before ev /\ (forall read answer, ev <> Secret_Read read answer).
Proof.
  intros Hrun Hsplit.
  pose proof (always_event _ _ _ _ _ _ _ _ _ _ (always_send_boc_reserved request reserved) Hrun
    Hsplit) as Hev.
  split; [done|]. intros read answer ->.
  by destruct Hev as [Hopen|[[? ?]|(h0 & p & id & _ & _ & _ & Hsub)]].
Qed.

(** [sign_message] hands out a message only after the journal acknowledged it
    as handed off, with the same bytes and expiration, and never submits it: the
    only provider requests are the account, the sequence number and the resolver
    requests about an earlier send. *)
Theorem sign_message_hands_off_durably request reserved s events s' f :
  runs (sign_message_reserved request reserved) s events s' f ->
  (forall result, f = Done (Ok result) -> sign_message_result events result) /\
  (forall before ev after, events = before ++ ev :: after ->
     sign_message_event request reserved before ev).
Proof.
  intros Hrun. split.
  - intros result ->.
    exact (always_result _ _ _ _ _ _ _ (always_sign_message_reserved request reserved) Hrun).
  - intros before ev after Hsplit.
    exact (always_event _ _ _ _ _ _ _ _ _ _ (always_sign_message_reserved request reserved) Hrun
      Hsplit).
Qed.
End Claims.
