(* ===== verification/Transport.v ===== *)
(** * Provider transports

    What the two host callbacks return and how it becomes the answer of the provider
    (src/transport/http.rs, src/transport/statusless.rs), and the interface behind
    which the client uses either. *)

From stdpp Require Import base numbers list option strings.
From S2P Require Import Prelude BoundaryTypes SendDomain ClientDomain Base64 Json.
From S2P Require Import ProviderAnswers SendWorkflow SendReducer SendEngine.

(** ** Host failures *)

(** [host_error] of http.rs; [map_host_error] of statusless.rs builds the same
    record from a kind that [http_kind] translated. *)
Definition host_error (kind : HttpHostErrorKind) (message : rstr) : DomainError :=
  let cancelled := bool_decide (kind = Host_Cancelled) in
  let policy := bool_decide (kind = Host_PolicyViolation) in
  let too_large := bool_decide (kind = Host_ResponseTooLarge) in
  mkDomainError
    (if cancelled then Code_HostCancelled
     else if policy then Code_HostPolicyViolation
     else if too_large then Code_ResponseTooLarge
     else Code_TransportFailed)
    (if cancelled then Category_Cancellation
     else if policy || too_large then Category_HostPolicy
     else Category_Transport)
    (if cancelled || policy || too_large then Retry_None else Retry_Safe)
    (bounded_diagnostic message) None None (Some kind).

(** ** HTTP *)

Record HttpResponse := mkHttpResponse {
  hs_status : N;
  hs_headers : list HttpHeader;
  hs_body : bytes;
  hs_final_url : rstr;
}.

Inductive HttpHostError := HttpHost_Failed (kind : HttpHostErrorKind) (diagnostic : rstr).

Definition parse_retry_after_ms (headers : list HttpHeader) : option N :=
  header ← List.find (fun h => eq_ignore_ascii_case (hh_name h) "retry-after") headers;
  match parse_uint 10 u64_max (trim (hh_value header)) with
  | Ok seconds => checked_mul u64_max seconds 1000
  | Err _ => None
  end.

(** [find_map] over the names of members. *)
Fixpoint first_member {A} (pick : Value -> option A) (names : list string) (v : Value)
  : option A :=
  match names with
  | [] => None
  | name :: names =>
      match value_get name v ≫= pick with
      | Some a => Some a
      | None => first_member pick names v
      end
  end.

Section Http.
Context `{SerdeJson}.

Definition provider_message (body : bytes) : option rstr :=
  match value_from_slice body with
  | Ok value => bounded_diagnostic <$> first_member as_str ["error"; "description"; "message"] value
  | Err _ => None
  end.

Definition response_error (status : N) (headers : list HttpHeader) (body : bytes)
  : option DomainError :=
  if ((200 <=? status) && (status <? 300))%N then None
  else
    let developer_message :=
      default (lit "HTTP " ++ u64_to_string status) (provider_message body) in
    if (status =? 429)%N then
      let retry_after_ms := parse_retry_after_ms headers in
      Some (mkDomainError Code_RateLimited Category_RateLimit
              (match retry_after_ms with Some _ => Retry_AfterDelay | None => Retry_Safe end)
              developer_message (Some status) retry_after_ms None)
    else
      Some (mkDomainError Code_HttpRejected Category_ProviderProtocol
              (if (500 <=? status)%N then Retry_Safe else Retry_None)
              developer_message (Some status) None None).

Definition process_response (request : HttpRequest) (answer : result HttpHostError HttpResponse)
  : result DomainError bytes :=
  match answer with
  | Err (HttpHost_Failed kind diagnostic) => Err (host_error kind diagnostic)
  | Ok response =>
      if negb (bool_decide (hs_final_url response = hr_url request))
      then Err (host_error Host_PolicyViolation (lit "HTTP redirect or mismatched final URL"))
      else
        match response_error (hs_status response) (hs_headers response) (hs_body response) with
        | Some error => Err error
        | None => Ok (hs_body response)
        end
  end.
End Http.

(** ** Hosts without response metadata *)

Inductive StatuslessHostErrorKind :=
  | Statusless_Offline | Statusless_Timeout | Statusless_ConnectionLost
  | Statusless_PolicyViolation | Statusless_ResponseTooLarge | Statusless_Cancelled
  | Statusless_Other.

Inductive StatuslessHostError :=
  StatuslessHost_Failed (kind : StatuslessHostErrorKind) (diagnostic : rstr).

Definition http_kind (kind : StatuslessHostErrorKind) : HttpHostErrorKind :=
  match kind with
  | Statusless_Offline => Host_Offline
  | Statusless_Timeout => Host_Timeout
  | Statusless_ConnectionLost => Host_ConnectionLost
  | Statusless_PolicyViolation => Host_PolicyViolation
  | Statusless_ResponseTooLarge => Host_ResponseTooLarge
  | Statusless_Cancelled => Host_Cancelled
  | Statusless_Other => Host_Other
  end.

Definition map_host_error (error : StatuslessHostError) : DomainError :=
  match error with
  | StatuslessHost_Failed kind diagnostic => host_error (http_kind kind) diagnostic
  end.

Definition provider_error (developer_message : rstr) (provider_status : option N) : DomainError :=
  if bool_decide (provider_status = Some 429%N) then
    mkDomainError Code_RateLimited Category_RateLimit Retry_Safe
      (bounded_diagnostic developer_message) provider_status None None
  else
    mkDomainError Code_HttpRejected Category_ProviderProtocol
      (if match provider_status with Some status => (500 <=? status)%N | None => false end
       then Retry_Safe else Retry_None)
      (bounded_diagnostic developer_message) provider_status None None.

Section Statusless.
Context `{SerdeJson}.

(** [provider_code] and [value_message] of statusless.rs are those of provider.rs,
    letter by letter. *)
Definition naked_provider_error (body : bytes) : option DomainError :=
  match value_from_slice body with
  | Err _ => None
  | Ok value =>
      let provider_status := value_get "code" value ≫= provider_code in
      if bool_decide (value_get "ok" value ≫= as_bool = Some false)
         && bool_decide (is_Some provider_status)
      then
        let developer_message :=
          default (lit "provider rejected request")
            (first_member value_message ["error"; "description"; "result"] value) in
        Some (provider_error developer_message provider_status)
      else
        developer_message ← value_get "error" value ≫= value_message;
        Some (provider_error developer_message provider_status)
  end.

Definition execute_statusless (answer : result StatuslessHostError bytes)
  : result DomainError bytes :=
  let? body := map_err map_host_error answer in
  match naked_provider_error body with
  | Some error => Err error
  | None => Ok body
  end.
End Statusless.

(** * Transports and the outcome of a submission

    The interface [ProviderTransport] that the client uses, its two implementations,
    and what the send reducer concludes from an answer that came through either. *)

(** ** The interface *)

(** What a transport promises: it returns a body exactly when the provider delivered
    it, and an error with a status exactly when the provider refused with it.  Every
    other failure carries no status. *)
Class ProviderTransport := {
  host_answer : Type;
  transport_execute : HttpRequest -> host_answer -> result DomainError bytes;
  delivers : HttpRequest -> host_answer -> bytes -> Prop;
  refuses : HttpRequest -> host_answer -> N -> Prop;
  execute_delivers request answer body :
    transport_execute request answer = Ok body <-> delivers request answer body;
  execute_refuses request answer status :
    (exists error, transport_execute request answer = Err error
       /\ de_provider_status error = Some status) <-> refuses request answer status;
}.

(** ** The HTTP transport *)

Section Http.
Context `{SerdeJson}.

Definition success (status : N) : Prop := (200 <= status < 300)%N.

(** The response of the requested URL itself. *)
Definition responded (request : HttpRequest) (answer : result HttpHostError HttpResponse)
    (response : HttpResponse) : Prop :=
  answer = Ok response /\ hs_final_url response = hr_url request.

Lemma response_error_None status headers body :
  response_error status headers body = None <-> success status.
Proof.
  unfold response_error, success. destruct (N.leb_spec 200 status), (N.ltb_spec status 300);
    cbn [andb]; [split; [intros _; lia|done]|..]; (split; [by case_match|lia]).
Qed.

Lemma response_error_status status headers body error :
  response_error status headers body = Some error -> de_provider_status error = Some status.
Proof.
  unfold response_error. case_match; [done|]. case_match; intros [= <-]; [|done].
  by destruct (parse_retry_after_ms headers).
Qed.

#[export, refine] Instance HttpTransport : ProviderTransport := {
  host_answer := result HttpHostError HttpResponse;
  transport_execute := process_response;
  delivers request answer body :=
    exists response, responded request answer response /\ success (hs_status response)
      /\ hs_body response = body;
  refuses request answer status :=
    exists response, responded request answer response /\ ~ success (hs_status response)
      /\ hs_status response = status;
}.
Proof.
  - intros request [response|[kind diagnostic]] body; unfold responded; simpl; [|naive_solver].
    case_bool_decide as Hurl; cbn [negb]; [|naive_solver].
    pose proof (response_error_None (hs_status response) (hs_headers response) (hs_body response)).
    destruct (response_error _ _ _) as [error|]; naive_solver.
  - intros request [response|[kind diagnostic]] status; unfold responded; simpl; [|naive_solver].
    case_bool_decide as Hurl; cbn [negb]; [|naive_solver].
    pose proof (response_error_None (hs_status response) (hs_headers response) (hs_body response)).
    destruct (response_error _ _ _) as [error|] eqn:E; [|naive_solver].
    apply response_error_status in E. naive_solver.
Defined.
End Http.

(** ** The transport without metadata *)

Section Statusless.
Context `{SerdeJson}.

(** The body is an error document of the provider with this code. *)
Definition error_document (body : bytes) (code : option N) : Prop :=
  exists value, value_from_slice body = Ok value /\ value_get "code" value ≫= provider_code = code
    /\ ((value_get "ok" value ≫= as_bool = Some false /\ is_Some code)
        \/ is_Some (value_get "error" value ≫= value_message)).

Lemma provider_error_status message status : de_provider_status (provider_error message status) = status.
Proof. unfold provider_error. by case_bool_decide. Qed.

Lemma naked_provider_error_spec body :
  match naked_provider_error body with
  | Some error => error_document body (de_provider_status error)
  | None => forall code, ~ error_document body code
  end.
Proof.
  unfold naked_provider_error, error_document.
  destruct (value_from_slice body) as [value|e]; [|naive_solver].
  set (status := value_get "code" value ≫= provider_code).
  destruct (bool_decide (value_get "ok" value ≫= as_bool = Some false)
            && bool_decide (is_Some status)) eqn:E.
  - apply andb_true_iff in E as [?%bool_decide_eq_true ?%bool_decide_eq_true].
    rewrite provider_error_status. naive_solver.
  - apply andb_false_iff in E.
    destruct (value_get "error" value ≫= value_message) as [message|] eqn:Em; simpl.
    + rewrite provider_error_status. naive_solver.
    + intros code (v & [= <-] & <- & [[Hok Hs]|Hs]); [|rewrite Em in Hs; by destruct Hs].
      by destruct E as [E%bool_decide_eq_false|E%bool_decide_eq_false].
Qed.

#[export, refine] Instance StatuslessTransport : ProviderTransport := {
  host_answer := result StatuslessHostError bytes;
  transport_execute _ := execute_statusless;
  delivers _ answer body := answer = Ok body /\ forall code, ~ error_document body code;
  refuses _ answer status := exists body, answer = Ok body /\ error_document body (Some status);
}.
Proof.
  - intros request [body|[kind diagnostic]] data; unfold execute_statusless; simpl; [|naive_solver].
    pose proof (naked_provider_error_spec body). case_match; naive_solver.
  - intros request [body|[kind diagnostic]] status; unfold execute_statusless; simpl; [|naive_solver].
    pose proof (naked_provider_error_spec body) as Hspec. case_match; [|naive_solver].
    split.
    + intros (error & [= <-] & <-). by exists body.
    + intros (data & [= <-] & v & Hv & Hc & _). destruct Hspec as (v' & Hv' & Hc' & _).
      eexists. split; [done|]. congruence.
Defined.
End Statusless.

(** ** The outcome of a submission *)

Section Outcome.
Context `{JournalCodec} `{SerdeJson} `{ProviderTransport}.

(** Statuses that mean the provider did not take the message. *)
Definition explicit_rejection : list N := [400; 401; 403; 404; 405; 413; 422; 429]%N.

Lemma parse_send_response_status body error :
  parse_send_response body = Err error -> de_provider_status error = None.
Proof.
  unfold parse_send_response. destruct (value_from_slice body); simpl; [|by intros [= <-]].
  repeat case_match; intros [= <-]; done.
Qed.

Lemma is_explicit_send_rejection_spec error :
  is_explicit_send_rejection error = true <->
    exists status, de_provider_status error = Some status /\ status ∈ explicit_rejection.
Proof.
  unfold is_explicit_send_rejection. destruct (de_provider_status error) as [status|]; [|naive_solver].
  rewrite existsb_exists. setoid_rewrite N.eqb_eq. setoid_rewrite <- list_elem_of_In. naive_solver.
Qed.

(** The stage after an answer, whatever becomes of the journal write that follows. *)
Lemma final_directive_stage workflow answer :
  sw_stage workflow = Stage_Submitting ->
  sw_stage (final_directive workflow answer).1 =
    match rbind answer parse_send_response with
    | Ok Accepted => Stage_Submitted
    | Ok (Rejected _) => Stage_Failed
    | Err error =>
        if is_explicit_send_rejection error then Stage_Failed else Stage_SubmissionUnknown
    end.
Proof.
  intros Hs. unfold final_directive.
  unfold submission_succeeded, submission_rejected, submission_unknown, apply_event, next_stage.
  repeat case_match; cbv [mbind' mget mlift mupdate]; rewrite Hs; simpl; try case_match; done.
Qed.

(** C15: The outcome of a submission is what the provider said, whichever transport
    carried it.  A workflow that is submitting becomes submitted exactly when the
    provider delivered an acceptance, and failed, which allows a new signature,
    exactly when the provider delivered a rejection or refused with one of the
    statuses that rule out that it took the message.  After anything else (a
    timeout, a lost connection, a redirect, a server error, an unreadable body) the
    submission is unknown, and a replacement needs the explicit override. *)
Theorem submission_outcome_is_the_provider_verdict workflow request answer :
  sw_stage workflow = Stage_Submitting ->
  let stage := sw_stage (final_directive workflow (transport_execute request answer)).1 in
  (stage = Stage_Submitted <->
     exists body, delivers request answer body /\ parse_send_response body = Ok Accepted) /\
  (stage = Stage_Failed <->
     (exists body message, delivers request answer body
        /\ parse_send_response body = Ok (Rejected message)) \/
     (exists status, refuses request answer status /\ status ∈ explicit_rejection)) /\
  (stage <> Stage_Submitted -> stage <> Stage_Failed ->
     stage = Stage_SubmissionUnknown /\ permits_replacement stage = false).
Proof.
  intros Hs stage. subst stage. rewrite final_directive_stage by done.
  setoid_rewrite <- execute_delivers. setoid_rewrite <- execute_refuses.
  destruct (transport_execute request answer) as [body|error]; simpl.
  - destruct (parse_send_response body) as [[|message]|error] eqn:E.
    + split; [split; [by exists body|done]|]. split; [|done].
      split; [done|]. intros [(b & m & [= <-] & Hb)|(n & (e & ? & _) & _)]; congruence.
    + split; [split; [done|intros (b & [= <-] & Hb); congruence]|]. split; [|done].
      split; [|done]. intros _. left. by exists body, message.
    + apply parse_send_response_status in E as Hnone. unfold is_explicit_send_rejection.
      rewrite Hnone. split; [split; [done|intros (b & [= <-] & Hb); congruence]|].
      split; [|done]. split; [done|].
      intros [(b & m & [= <-] & Hb)|(n & (e & ? & _) & _)]; congruence.
  - split; [split; [by case_match|by intros (b & ? & _)]|].
    pose proof (is_explicit_send_rejection_spec error) as Hspec.
    destruct (is_explicit_send_rejection error).
    + split; [|done]. split; [|done]. intros _. right.
      destruct (proj1 Hspec eq_refl) as (n & Hn & Hin). exists n. split; [by exists error|done].
    + split; [|done]. split; [done|]. intros [(b & m & ? & _)|(n & (e & [= <-] & Hn) & Hin)]; [done|].
      assert (false = true) by (apply Hspec; by exists n). done.
Qed.
End Outcome.
