(* ===== verification/EngineWitnesses.v ===== *)
(** * Concrete runs of the operations

    A host with a journal, a provider and a signer, and the futures of the client
    executed against it; each witness applies a theorem to such a run. *)

From stdpp Require Import base numbers list option strings gmap relations.
From S2P Require Import Prelude BoundaryTypes SendDomain SendWorkflow SendReducer RefCodec.
From S2P Require Import Base64 ClientDomain Json ProviderRequest ProviderAnswers ClientState.
From S2P Require Import ClientCalls Futures Resolution ResolutionRuns SendEngine SendRuns.
From S2P Require Import SendWitnesses ClientWitnesses Transport.

(** ** Reference parameters *)

Definition sign (kind : SignedMessageKind) (rid : NonEmptyString) (source : TonAddressString)
    (request : SendRequest) (account : FreshSendAccount) (valid_until : N)
  : result rstr PreparedTransfer :=
  Ok (mkPreparedTransfer (sr_operation_id request) rid source kind
        (si_messages (sr_intent request)) (fa_seqno account) (needs_state_init account)
        valid_until (mkBoc [1; 2; 3]%N) (mkBase64Hash (lit "hash"))).

#[export] Instance RefSigner : WalletSigner := {
  derive_source _ _ := Ok (tas_address demo_source);
  prepare_transfer _ rid source _ := sign Kind_External rid source;
  prepare_internal_signed_transfer _ rid source _ := sign Kind_Internal rid source;
  prepare_signed_boc rid source request :=
    Ok (mkPreparedTransfer (sb_operation_id request) rid source Kind_External [] (sb_seqno request)
          false (sb_valid_until request) (sb_signed_boc request) (mkBase64Hash (lit "hash")));
}.

Definition body_of (v : Value) : result DomainError bytes := Ok (utf8 (json_text v)).

(** The provider answers by request identifier: the account, the sequence number,
    the wallet states, the submission, and no transactions to anything else. *)
Definition provider (seqno wallets submit : N) (request : HttpRequest)
  : result DomainError bytes :=
  let id := rid_value (hr_id request) in
  if (id =? 1)%N then body_of account_document
  else if (id =? seqno)%N then body_of seqno_document
  else if (id =? wallets)%N then body_of wallets_document
  else if (id =? submit)%N then body_of accepted_document
  else body_of no_transactions_document.

(** Every compare-and-swap is applied. *)
Definition demo_host (seqno wallets submit : N) (slot : option JournalRecord) : Host :=
  mkHost (provider seqno wallets submit) (fun _ => Ok slot)
    (fun m => Ok (mkJournalCompareExchangeResult true (Some (jce_replacement m))))
    (fun _ => Ok [1%N]).

(** The event at position [n], with what comes before and after it. *)
Fixpoint split_at (n : nat) (events : list event) : option (list event * event * list event) :=
  match events, n with
  | [], _ => None
  | ev :: rest, 0 => Some ([], ev, rest)
  | ev :: rest, S n =>
      match split_at n rest with
      | Some (before, ev', after) => Some (ev :: before, ev', after)
      | None => None
      end
  end.

Lemma split_at_spec n events before ev after :
  split_at n events = Some (before, ev, after) -> events = before ++ ev :: after.
Proof.
  revert n before. induction events as [|e events IH]; intros [|n] before; simpl; try done.
  - intros; by simplify_eq.
  - destruct (split_at n events) as [[[b e'] a]|] eqn:E; [|done].
    intros; simplify_eq. simpl. by rewrite <- (IH n b).
Qed.

Lemma run_with_result {A} host (f : future A) s :
  runs f s (run_with host f s).1.1 (run_with host f s).1.2 (Done (run_with host f s).2).
Proof.
  apply (run_with_runs host). by destruct (run_with host f s) as [[events s'] a].
Qed.

(** ** Sending *)

Definition no_reservation : SendReservation :=
  mkSendReservation 0 demo_config
    (mkHttpRequest (mkHttpRequestId 0) Get [] [] [] 0)
    (mkHttpRequest (mkHttpRequestId 0) Get [] [] [] 0) [] None (mkJournalKey [] "") demo_workflow.

(** A reservation, the state it leaves, and a run of what follows it. *)
Definition reserve (start : section SendReservation) : SendReservation :=
  match (start (demo [])).2 with Ok r => r | Err _ => no_reservation end.

Definition run_reserved {A} (start : section SendReservation) (f : SendReservation -> future A)
  : list event * State * A :=
  run_with (demo_host 2 5 7 None) (f (reserve start)) (start (demo [])).1.

Lemma run_reserved_runs {A} start (f : SendReservation -> future A) :
  runs (f (reserve start)) (start (demo [])).1 (run_reserved start f).1.1
    (run_reserved start f).1.2 (Done (run_reserved start f).2).
Proof. exact (run_with_result (demo_host 2 5 7 None) _ _). Qed.

Definition demo_start : section SendReservation := start_send demo_request.
Definition demo_send := run_reserved demo_start (send_reserved demo_request).

Lemma send_commits_before_submit_witness :
  exists before r answer after,
    split_at 5 demo_send.1.1 = Some (before, Executed r answer, after) /\
    exists h0 p m outcome,
      before = h0 ++ [Exchanged m (Ok outcome)] /\ jcr_applied outcome = true /\
      stores (jce_replacement m) p Stage_ReadyToSubmit /\
      build_send_boc_request demo_config (hr_id r) (pt_signed_boc p) = Ok r.
Proof.
  destruct (split_at 5 demo_send.1.1) as [[[before ev] after]|] eqn:E;
    [|vm_compute in E; discriminate].
  destruct ev as [r answer|?|?|?]; try (vm_compute in E; discriminate).
  exists before, r, answer, after. split; [reflexivity|].
  apply (send_commits_before_submit demo_request (demo []) (reserve demo_start)
    (demo_start (demo [])).1 demo_send.1.1 demo_send.1.2 (Done demo_send.2) before r answer after).
  - vm_compute. reflexivity.
  - exact (run_reserved_runs demo_start (send_reserved demo_request)).
  - exact (split_at_spec _ _ _ _ _ E).
  - vm_compute in E. injection E as <- <- <- <-. vm_compute. reflexivity.
Defined.

Lemma send_never_signs_over_unresolved_witness :
  exists before read answer after,
    split_at 3 demo_send.1.1 = Some (before, Secret_Read read answer, after) /\
    admitted false demo_config before.
Proof.
  destruct (split_at 3 demo_send.1.1) as [[[before ev] after]|] eqn:E;
    [|vm_compute in E; discriminate].
  destruct ev as [?|?|?|read answer]; try (vm_compute in E; discriminate).
  exists before, read, answer, after. split; [reflexivity|].
  apply (send_never_signs_over_unresolved demo_request (reserve demo_start)
    (demo_start (demo [])).1 demo_send.1.1 demo_send.1.2 (Done demo_send.2) before read answer after).
  - exact (run_reserved_runs demo_start (send_reserved demo_request)).
  - exact (split_at_spec _ _ _ _ _ E).
Defined.

Lemma send_result_is_durable_witness :
  exists result, demo_send.2 = Ok result /\ sres_phase result = Phase_Submitted /\
    send_result demo_send.1.1 result.
Proof.
  destruct demo_send.2 as [result|] eqn:E; [|vm_compute in E; discriminate].
  exists result. split; [reflexivity|]. split.
  - vm_compute in E. injection E as <-. reflexivity.
  - apply (send_result_is_durable demo_request (reserve demo_start) (demo_start (demo [])).1
      demo_send.1.1 demo_send.1.2).
    rewrite <- E. exact (run_reserved_runs demo_start (send_reserved demo_request)).
Defined.

(** ** A caller-signed message, and a signed message handed out *)

Definition demo_boc_request : SendBocRequest :=
  mkSendBocRequest (sr_operation_id demo_request) false (mkBoc [1; 2; 3]%N) 7 1050.
Definition demo_boc_start : section SendReservation :=
  start_send_boc (sr_operation_id demo_request) false 1050.
Definition demo_boc := run_reserved demo_boc_start (send_boc_reserved demo_boc_request).

Lemma send_boc_events_witness :
  exists before ev after, split_at 4 demo_boc.1.1 = Some (before, ev, after) /\
    send_boc_event demo_boc_request (reserve demo_boc_start) before ev.
Proof.
  destruct (split_at 4 demo_boc.1.1) as [[[before ev] after]|] eqn:E;
    [|vm_compute in E; discriminate].
  exists before, ev, after. split; [reflexivity|].
  apply (send_boc_events demo_boc_request (reserve demo_boc_start) (demo_boc_start (demo [])).1
    demo_boc.1.1 demo_boc.1.2 (Done demo_boc.2) before ev after).
  - exact (run_reserved_runs demo_boc_start (send_boc_reserved demo_boc_request)).
  - exact (split_at_spec _ _ _ _ _ E).
Defined.

Definition demo_sign_request : SignMessageRequest :=
  mkSignMessageRequest (sr_operation_id demo_request) false (sr_intent demo_request).
Definition demo_sign_start : section SendReservation := start_sign_message demo_request.
Definition demo_sign := run_reserved demo_sign_start (sign_message_reserved demo_sign_request).

Lemma sign_message_hands_off_durably_witness :
  exists result, demo_sign.2 = Ok result /\ sgr_phase result = Phase_HandedOff /\
    sign_message_result demo_sign.1.1 result.
Proof.
  destruct demo_sign.2 as [result|] eqn:E; [|vm_compute in E; discriminate].
  exists result. split; [reflexivity|]. split.
  - vm_compute in E. injection E as <-. reflexivity.
  - apply (sign_message_hands_off_durably demo_sign_request (reserve demo_sign_start)
      (demo_sign_start (demo [])).1 demo_sign.1.1 demo_sign.1.2 (Done (Ok result)));
      [|reflexivity].
    rewrite <- E. exact (run_reserved_runs demo_sign_start (sign_message_reserved demo_sign_request)).
Defined.

(** ** Resolution *)

(** The provider has seen a later sequence number and no trace of the message. *)
Definition demo_resolution_host : Host := demo_host 0 4 0 (Some demo_record).
Definition demo_resolve := run_with demo_resolution_host resolve_pending (demo []).

Lemma demo_resolve_runs :
  runs resolve_pending (demo []) demo_resolve.1.1 demo_resolve.1.2 (Done demo_resolve.2).
Proof. exact (run_with_result demo_resolution_host _ _). Qed.

Lemma resolve_pending_events_witness :
  exists before ev after config, split_at 6 demo_resolve.1.1 = Some (before, ev, after) /\
    is_exchange ev /\ standalone_event config before ev.
Proof.
  destruct (split_at 6 demo_resolve.1.1) as [[[before ev] after]|] eqn:E;
    [|vm_compute in E; discriminate].
  destruct (resolve_pending_events (demo []) demo_resolve.1.1 demo_resolve.1.2
    (Done demo_resolve.2) before ev after) as [config Hev].
  - apply demo_resolve_runs.
  - exact (split_at_spec _ _ _ _ _ E).
  - exists before, ev, after, config. split; [reflexivity|]. split; [|exact Hev].
    vm_compute in E. injection E as <- <- <-. exact I.
Defined.

Definition demo_resolving : State := demo [Do_start_resolve_pending].
Definition no_requests : ResolutionRequests :=
  let r := mkHttpRequest (mkHttpRequestId 0) Get [] [] [] 0 in mkResolutionRequests r r r r.
Definition demo_requests (pending : PendingSendRecord) : ResolutionRequests :=
  match resolution_requests_new demo_config pending (map mkHttpRequestId [2; 3; 4; 5]%N) with
  | Ok requests => requests
  | Err _ => no_requests
  end.
Definition demo_resolver (pending : PendingSendRecord) :=
  resolve_pending_with_owner (Owner_Standalone 1) demo_config pending 2000 (demo_requests pending).
Definition demo_resolved (pending : PendingSendRecord) :=
  run_with demo_resolution_host (demo_resolver pending) demo_resolving.

Lemma demo_resolved_runs pending :
  runs (demo_resolver pending) demo_resolving (demo_resolved pending).1.1
    (demo_resolved pending).1.2 (Done (demo_resolved pending).2).
Proof. exact (run_with_result demo_resolution_host _ _). Qed.

Lemma demo_pending_read pending :
  demo_pending = Some pending ->
  pending_send_record demo_record demo_record_id demo_source = Ok (Some pending).
Proof.
  unfold demo_pending. destruct (pending_send_record _ _ _); congruence.
Qed.

Lemma resolution_rests_on_evidence_witness :
  exists pending before ev after, demo_pending = Some pending /\
    split_at 4 (demo_resolved pending).1.1 = Some (before, ev, after) /\ is_exchange ev /\
    resolver_event demo_config pending 2000 (demo_requests pending) before ev.
Proof.
  destruct demo_pending as [pending|] eqn:Hp; [|vm_compute in Hp; discriminate].
  exists pending. destruct (split_at 4 (demo_resolved pending).1.1) as [[[before ev] after]|] eqn:E;
    [|vm_compute in Hp; injection Hp as <-; vm_compute in E; discriminate].
  exists before, ev, after. split; [reflexivity|]. split; [reflexivity|]. split.
  - vm_compute in Hp. injection Hp as <-. vm_compute in E. injection E as <- <- <-. exact I.
  - apply (resolution_rests_on_evidence (Owner_Standalone 1) demo_config pending 2000
      (demo_requests pending) demo_record demo_record_id demo_source demo_resolving
      (demo_resolved pending).1.1 (demo_resolved pending).1.2 (Done (demo_resolved pending).2)
      before ev after).
    + vm_compute. discriminate.
    + exact (demo_pending_read _ Hp).
    + exact (demo_resolved_runs pending).
    + exact (split_at_spec _ _ _ _ _ E).
Defined.

Lemma resolution_result_is_durable_witness :
  exists pending resolved, demo_pending = Some pending /\
    (demo_resolved pending).2 = Ok resolved /\
    resolver_result demo_record demo_record_id demo_source (demo_resolved pending).1.1 resolved.
Proof.
  destruct demo_pending as [pending|] eqn:Hp; [|vm_compute in Hp; discriminate].
  exists pending. destruct (demo_resolved pending).2 as [resolved|] eqn:E;
    [|vm_compute in Hp; injection Hp as <-; vm_compute in E; discriminate].
  exists resolved. split; [reflexivity|]. split; [reflexivity|].
  apply (resolution_result_is_durable (Owner_Standalone 1) demo_config pending 2000
    (demo_requests pending) demo_record demo_record_id demo_source demo_resolving
    (demo_resolved pending).1.1 (demo_resolved pending).1.2 resolved).
  - vm_compute. discriminate.
  - exact (demo_pending_read _ Hp).
  - rewrite <- E. exact (demo_resolved_runs pending).
Defined.

(** ** A submission through the HTTP transport *)

Definition demo_submitting : SendWorkflow :=
  drive [Call_journal_persisted applied; Call_submission_started] demo_persisting.

Definition demo_http_request : HttpRequest :=
  mkHttpRequest (mkHttpRequestId 1) Post (lit "https://toncenter.com/api/v2/jsonRPC") [] [] 15000.

Definition timed_out : result HttpHostError HttpResponse :=
  Err (HttpHost_Failed Host_Timeout (lit "deadline")).

Lemma submission_outcome_is_the_provider_verdict_witness :
  sw_stage (final_directive demo_submitting (process_response demo_http_request timed_out)).1
    = Stage_SubmissionUnknown.
Proof.
  refine (proj1 (proj2 (proj2 (submission_outcome_is_the_provider_verdict (H1 := HttpTransport)
    demo_submitting demo_http_request timed_out eq_refl)) _ _)).
  - vm_compute. discriminate.
  - vm_compute. discriminate.
Defined.
