(* ===== verification/CellBoc.v ===== *)
(** * Bag-of-cells envelopes

    The validator of untrusted BoC bytes (crates/ton-connect-core/src/cell_boc.rs)
    that runs before the ton_core crate sees them.  Bytes and machine integers are
    [N]; a [usize] has 64 bits.  CRC-32C comes from the crc crate and is the class
    [Crc32c]. *)

From stdpp Require Import base numbers list option.
From S2P Require Import Prelude.

Definition usize_max : N := u64_max.

Definition GENERIC_BOC_MAGIC : bytes := [181; 238; 156; 114]%N.
Definition MAX_CELL_DEPTH : N := 1024.

Definition PRUNED_BRANCH : N := 1.
Definition LIBRARY : N := 2.
Definition MERKLE_PROOF : N := 3.
Definition MERKLE_UPDATE : N := 4.
Definition TYPE_BYTES : N := 1.
Definition CELL_HASH_BYTES : N := 32.
Definition DEPTH_BYTES : N := 2.
Definition PRUNED_BRANCH_HEADER_BYTES : N := TYPE_BYTES + 1.
Definition LIBRARY_BYTES : N := TYPE_BYTES + CELL_HASH_BYTES.
Definition MERKLE_PROOF_BYTES : N := TYPE_BYTES + CELL_HASH_BYTES + DEPTH_BYTES.
Definition MERKLE_UPDATE_BYTES : N := TYPE_BYTES + 2 * (CELL_HASH_BYTES + DEPTH_BYTES).

(** The parameter [CRC_32C.checksum]: a [u32] of the covered bytes. *)
Class Crc32c := {
  crc32c : bytes -> N;
  crc32c_u32 data : (crc32c data <= u32_max)%N;
}.

(** The failures of the validator itself. *)
Inductive EnvelopeError := InvalidBoc.

(** [slice.len()]. *)
Definition len {A} (l : list A) : N := N.of_nat (length l).

(** [u8::count_ones]. *)
Fixpoint count_ones_pos (p : positive) : N :=
  match p with
  | xH => 1
  | xO p => count_ones_pos p
  | xI p => 1 + count_ones_pos p
  end.
Definition count_ones (n : N) : N :=
  match n with N0 => 0 | Npos p => count_ones_pos p end.

(** ** [BocReader] *)

Record BocReader := mkBocReader {
  br_bytes : bytes;
  br_position : N;
}.

Definition reader_new (data : bytes) : BocReader := mkBocReader data 0.

Definition reader_is_empty (r : BocReader) : bool := (br_position r =? len (br_bytes r))%N.

Definition reader_byte (r : BocReader) : option (N * BocReader) :=
  match br_bytes r !! N.to_nat (br_position r) with
  | Some value =>
      match checked_add usize_max (br_position r) 1 with
      | Some position => Some (value, mkBocReader (br_bytes r) position)
      | None => None
      end
  | None => None
  end.

Definition reader_take (length : N) (r : BocReader) : option (bytes * BocReader) :=
  match checked_add usize_max (br_position r) length with
  | Some position =>
      if (position <=? len (br_bytes r))%N
      then Some (take (N.to_nat length) (drop (N.to_nat (br_position r)) (br_bytes r)),
                 mkBocReader (br_bytes r) position)
      else None
  | None => None
  end.

(** The [try_fold] over big-endian bytes. *)
Fixpoint fold_unsigned (value : N) (data : bytes) : option N :=
  match data with
  | [] => Some value
  | byte :: rest =>
      match checked_mul usize_max value 256 with
      | Some value =>
          match checked_add usize_max value byte with
          | Some value => fold_unsigned value rest
          | None => None
          end
      | None => None
      end
  end.

Definition reader_unsigned (length : N) (r : BocReader) : option (N * BocReader) :=
  match reader_take length r with
  | Some (data, r) =>
      match fold_unsigned 0 data with Some value => Some (value, r) | None => None end
  | None => None
  end.

(** [.ok_or(CellBocError::InvalidBoc)?] on a reader method, and a guard. *)
Notation "'read!' x , r ':=' e 'in' k" :=
  (match e with Some (x, r) => k | None => Err InvalidBoc end)
  (at level 10, x name, r name, e at level 100, k at level 200) : rust_scope.
Notation "'invalid_if!' c ';' k" := (if c then Err InvalidBoc else k)
  (at level 10, c at level 100, k at level 200) : rust_scope.

(** ** Exotic cells *)

(** [depths.chunks_exact(2)] with [u16::from_be_bytes], all within the limit. *)
Fixpoint depths_are_valid (depths : bytes) : bool :=
  match depths with
  | high :: low :: rest => (256 * high + low <=? MAX_CELL_DEPTH)%N && depths_are_valid rest
  | _ => true
  end.

Definition pruned_branch_is_valid (level_mask : N) (data : bytes) : bool :=
  match data !! N.to_nat TYPE_BYTES with
  | None => false
  | Some mask =>
      if (mask =? 0)%N || negb (mask =? level_mask)%N then false
      else
        let levels := count_ones mask in
        let start := (levels * CELL_HASH_BYTES + PRUNED_BRANCH_HEADER_BYTES)%N in
        if (len data <? start)%N then false
        else
          let depths := drop (N.to_nat start) data in
          (levels * DEPTH_BYTES =? len depths)%N && depths_are_valid depths
  end.

Definition exotic_layout_is_valid (level_mask bits_descriptor : N) (data : bytes)
    (references : N) : bool :=
  if negb (N.land bits_descriptor 1 =? 0)%N then false
  else
    match head data with
    | None => false
    | Some kind =>
        if (kind =? PRUNED_BRANCH)%N && (references =? 0)%N
        then pruned_branch_is_valid level_mask data
        else if (kind =? LIBRARY)%N && (references =? 0)%N then (len data =? LIBRARY_BYTES)%N
        else if (kind =? MERKLE_PROOF)%N && (references =? 1)%N
        then (len data =? MERKLE_PROOF_BYTES)%N
        else if (kind =? MERKLE_UPDATE)%N && (references =? 2)%N
        then (len data =? MERKLE_UPDATE_BYTES)%N
        else false
    end.

(** ** Cells *)

(** The loop over the references of one cell. *)
Fixpoint validate_references (count : nat) (reference_bytes cells cell_index height : N)
    (heights : list N) (r : BocReader) : result EnvelopeError (list N * BocReader) :=
  match count with
  | 0 => Ok (heights, r)
  | S count =>
      read! reference, r := reader_unsigned reference_bytes r in
      invalid_if! (reference <=? cell_index)%N || (cells <=? reference)%N;
      match checked_add u16_max height 1 with
      | None => Err InvalidBoc
      | Some child =>
          invalid_if! negb (child <=? MAX_CELL_DEPTH)%N;
          match heights !! N.to_nat reference with
          | None => Err InvalidBoc
          | Some slot =>
              validate_references count reference_bytes cells cell_index height
                (<[N.to_nat reference := N.max slot child]> heights) r
          end
      end
  end.

(** The hashes and depths that a descriptor with bit 4 stores. *)
Definition hash_bytes (descriptor : N) : N :=
  if negb (N.land descriptor 16 =? 0)%N then (count_ones (N.shiftr descriptor 5) + 1) * 34 else 0.

Definition data_bytes (bits_descriptor : N) : N :=
  N.shiftr bits_descriptor 1 + N.land bits_descriptor 1.

(** [data.last().is_none_or(|byte| *byte == 0)]. *)
Definition missing_terminator (data : bytes) : bool :=
  match list.last data with None => true | Some byte => (byte =? 0)%N end.

(** One turn of the loop over the cells. *)
Definition validate_cell (reference_bytes cells cell_index : N)
    (expected_offsets : option (list N)) (heights : list N) (r : BocReader)
  : result EnvelopeError (list N * BocReader) :=
  read! descriptor, r := reader_byte r in
  read! bits_descriptor, r := reader_byte r in
  let references := N.land descriptor 7 in
  invalid_if! (4 <? references)%N;
  match heights !! N.to_nat cell_index with
  | None => Err InvalidBoc
  | Some height =>
      read! _hashes, r := reader_take (hash_bytes descriptor) r in
      read! data, r := reader_take (data_bytes bits_descriptor) r in
      invalid_if! negb (N.land bits_descriptor 1 =? 0)%N && missing_terminator data;
      invalid_if! negb (N.land descriptor 8 =? 0)%N
        && negb (exotic_layout_is_valid (N.shiftr descriptor 5) bits_descriptor data references);
      let? next := validate_references (N.to_nat references) reference_bytes cells cell_index
                     height heights r in
      let '(heights, r) := next in
      invalid_if! match expected_offsets with
                  | Some offsets =>
                      match offsets !! N.to_nat cell_index with
                      | Some expected => negb (expected =? br_position r)%N
                      | None => false
                      end
                  | None => false
                  end;
      Ok (heights, r)
  end.

Fixpoint validate_cells_loop (count : nat) (reference_bytes cells cell_index : N)
    (expected_offsets : option (list N)) (heights : list N) (r : BocReader)
  : result EnvelopeError BocReader :=
  match count with
  | 0 => Ok r
  | S count =>
      let? next := validate_cell reference_bytes cells cell_index expected_offsets heights r in
      validate_cells_loop count reference_bytes cells (cell_index + 1) expected_offsets next.1
        next.2
  end.

Definition validate_cells (data : bytes) (cells reference_bytes : N)
    (expected_offsets : option (list N)) : result EnvelopeError unit :=
  let? r := validate_cells_loop (N.to_nat cells) reference_bytes cells 0 expected_offsets
              (replicate (N.to_nat cells) 0%N) (reader_new data) in
  invalid_if! negb (reader_is_empty r);
  Ok tt.

(** ** The envelope *)

(** The loop that reads the index of [count] cells. *)
Fixpoint read_offsets (count : nat) (offset_bytes cell_bytes previous : N) (r : BocReader)
  : result EnvelopeError (list N * N * BocReader) :=
  match count with
  | 0 => Ok ([], previous, r)
  | S count =>
      read! offset, r := reader_unsigned offset_bytes r in
      invalid_if! (offset <=? previous)%N || (cell_bytes <? offset)%N;
      let? rest := read_offsets count offset_bytes cell_bytes offset r in
      let '(offsets, previous, r) := rest in
      Ok (offset :: offsets, previous, r)
  end.

Definition read_index (data : bytes) (has_index : bool) (cells offset_bytes cell_bytes : N)
    (r : BocReader) : result EnvelopeError (option (list N) * BocReader) :=
  if has_index then
    match checked_mul usize_max cells offset_bytes with
    | None => Err InvalidBoc
    | Some index_bytes =>
        match checked_add usize_max index_bytes cell_bytes with
        | None => Err InvalidBoc
        | Some needed =>
            invalid_if! (len data <? br_position r)%N;
            invalid_if! (len data - br_position r <? needed)%N;
            let? index := read_offsets (N.to_nat cells) offset_bytes cell_bytes 0 r in
            let '(offsets, previous, r) := index in
            invalid_if! negb (previous =? cell_bytes)%N;
            Ok (Some offsets, r)
        end
    end
  else Ok (None, r).

(** [u32::from_le_bytes]. *)
Fixpoint from_le_bytes (data : bytes) : N :=
  match data with [] => 0 | byte :: rest => byte + 256 * from_le_bytes rest end.

Definition check_crc `{Crc32c} (data : bytes) (has_crc32c : bool) (r : BocReader)
  : result EnvelopeError BocReader :=
  if has_crc32c then
    let checksum_start := br_position r in
    read! checksum, r := reader_take 4 r in
    invalid_if! negb (from_le_bytes checksum =? crc32c (take (N.to_nat checksum_start) data))%N;
    Ok r
  else Ok r.

(** From the index to the end of the input. *)
Definition validate_body `{Crc32c} (data : bytes) (has_index has_crc32c : bool)
    (cells reference_bytes offset_bytes cell_bytes : N) (r : BocReader)
  : result EnvelopeError unit :=
  let? index := read_index data has_index cells offset_bytes cell_bytes r in
  let '(expected_offsets, r) := index in
  read! serialized_cells, r := reader_take cell_bytes r in
  let? _ := validate_cells serialized_cells cells reference_bytes expected_offsets in
  let? r := check_crc data has_crc32c r in
  invalid_if! negb (reader_is_empty r);
  Ok tt.

Definition validate_single_root_boc `{Crc32c} (data : bytes) : result EnvelopeError unit :=
  let r := reader_new data in
  read! magic, r := reader_take (len GENERIC_BOC_MAGIC) r in
  invalid_if! negb (bool_decide (magic = GENERIC_BOC_MAGIC));
  read! header, r := reader_byte r in
  let has_index := negb (N.land header 128 =? 0)%N in
  let has_crc32c := negb (N.land header 64 =? 0)%N in
  let flags := N.land header 24 in
  let reference_bytes := N.land header 7 in
  invalid_if! negb (flags =? 0)%N || negb ((1 <=? reference_bytes) && (reference_bytes <=? 4))%N;
  read! offset_bytes, r := reader_byte r in
  invalid_if! negb ((1 <=? offset_bytes) && (offset_bytes <=? 8))%N;
  read! cells, r := reader_unsigned reference_bytes r in
  read! roots, r := reader_unsigned reference_bytes r in
  read! absent, r := reader_unsigned reference_bytes r in
  read! cell_bytes, r := reader_unsigned offset_bytes r in
  invalid_if! (cells =? 0)%N || negb (roots =? 1)%N || negb (absent =? 0)%N
              || (cell_bytes / 2 <? cells)%N;
  read! root, r := reader_unsigned reference_bytes r in
  invalid_if! (cells <=? root)%N;
  validate_body data has_index has_crc32c cells reference_bytes offset_bytes cell_bytes r.
