(* ===== verification/CellBocSpec.v ===== *)
(** * What the BoC validator accepts

    A serialization function for bags of cells, a well-formedness condition on
    them, and the theorem that the validator accepts exactly the serializations
    of well-formed bags: whole input, forward references in range, no reference
    path longer than the depth limit. *)

From stdpp Require Import base numbers list option relations.
From S2P Require Import Prelude CellBoc.

(** ** Readers as a split of the input *)

Definition u8s (data : bytes) : Prop := Forall (fun b => (b < 256)%N) data.

(** The reader that has consumed [pre] of [pre ++ post]. *)
Definition R (pre post : bytes) : BocReader := mkBocReader (pre ++ post) (len pre).

Lemma len_app {A} (a b : list A) : len (a ++ b) = (len a + len b)%N.
Proof. unfold len. rewrite length_app. lia. Qed.

Lemma len_nil {A} : len (@nil A) = 0%N.
Proof. done. Qed.

Lemma len_cons {A} (x : A) l : len (x :: l) = (1 + len l)%N.
Proof. unfold len. simpl. lia. Qed.

Lemma len_to_nat {A} (l : list A) : N.to_nat (len l) = length l.
Proof. unfold len. lia. Qed.

Create Rewrite HintDb boc.
#[export] Hint Rewrite @len_app @len_nil @len_cons @len_to_nat : boc.

Lemma reader_new_R data : reader_new data = R [] data.
Proof. done. Qed.

Lemma R_snoc pre x post : R pre (x ++ post) = mkBocReader ((pre ++ x) ++ post) (len pre).
Proof. unfold R. by rewrite app_assoc. Qed.

Lemma reader_byte_iff pre post b r :
  (len (pre ++ post) <= usize_max)%N ->
  reader_byte (R pre post) = Some (b, r) <->
  exists post', post = b :: post' /\ r = R (pre ++ [b]) post'.
Proof.
  intros Hmax. unfold reader_byte, R. cbn [br_bytes br_position].
  rewrite len_to_nat, lookup_app_r, Nat.sub_diag by lia.
  autorewrite with boc in Hmax.
  destruct post as [|b' post']; simpl; [naive_solver|].
  rewrite len_cons in Hmax. unfold checked_add.
  destruct (N.leb_spec (len pre + 1) usize_max); [|lia].
  split.
  - intros [= <- <-]. exists post'. split; [done|]. f_equal; [by rewrite <- app_assoc|].
    by rewrite len_app.
  - intros (? & [= <- <-] & ->). do 3 f_equal; [by rewrite <- app_assoc|by rewrite len_app].
Qed.

Lemma reader_take_iff n pre post x r :
  (len (pre ++ post) <= usize_max)%N ->
  reader_take n (R pre post) = Some (x, r) <->
  exists post', post = x ++ post' /\ len x = n /\ r = R (pre ++ x) post'.
Proof.
  intros Hmax. unfold reader_take, R. cbn [br_bytes br_position].
  autorewrite with boc in *. rewrite drop_app_length. unfold checked_add.
  destruct (N.leb_spec (len pre + n) usize_max) as [Hn|Hn].
  - destruct (N.leb_spec (len pre + n) (len pre + len post)) as [Hp|Hp]; split.
    + intros [= <- <-]. exists (drop (N.to_nat n) post).
      assert (len (take (N.to_nat n) post) = n) as Hl
        by (unfold len in *; rewrite length_take; lia).
      split; [by rewrite take_drop|]. split; [done|].
      f_equal; [by rewrite <- app_assoc, take_drop|lia].
    + intros (post' & -> & <- & ->). rewrite len_to_nat, take_app_length.
      by rewrite <- app_assoc.
    + done.
    + intros (post' & -> & <- & ->). rewrite len_app in Hp. lia.
  - split; [done|]. intros (post' & -> & <- & ->). rewrite len_app in Hmax. lia.
Qed.

Lemma reader_is_empty_R pre post : reader_is_empty (R pre post) = true <-> post = [].
Proof.
  unfold reader_is_empty, R. cbn [br_bytes br_position]. rewrite len_app, N.eqb_eq.
  split; [|intros ->; rewrite len_nil; lia].
  destruct post; [done|]. rewrite len_cons. lia.
Qed.

(** ** Big-endian numbers *)

Fixpoint be_bytes (n : nat) (v : N) : bytes :=
  match n with
  | 0 => []
  | S n => be_bytes n (v / 256) ++ [v mod 256]%N
  end.

Lemma length_be_bytes n v : length (be_bytes n v) = n.
Proof. revert v. induction n; intros v; simpl; [done|]. rewrite length_app, IHn. simpl. lia. Qed.

Lemma len_be_bytes n v : len (be_bytes (N.to_nat n) v) = n.
Proof. unfold len. rewrite length_be_bytes. lia. Qed.
#[export] Hint Rewrite @len_be_bytes : boc.

Definition be_value (data : bytes) : N := fold_left (fun v b => (256 * v + b)%N) data 0%N.

Lemma be_value_snoc data b : be_value (data ++ [b]) = (256 * be_value data + b)%N.
Proof. unfold be_value. by rewrite fold_left_app. Qed.

Lemma be_value_bytes n v : (v < 256 ^ N.of_nat n)%N -> be_value (be_bytes n v) = v.
Proof.
  revert v. induction n as [|n IH]; intros v Hv; [simpl in Hv; unfold be_value; simpl; lia|].
  simpl. rewrite be_value_snoc, IH; [pose proof (N.div_mod v 256); lia|].
  apply N.Div0.div_lt_upper_bound. rewrite <- N.pow_succ_r', <- Nat2N.inj_succ. done.
Qed.

Lemma be_bytes_value data :
  u8s data -> be_bytes (length data) (be_value data) = data /\
    (be_value data < 256 ^ N.of_nat (length data))%N.
Proof.
  induction data as [|b data IH] using rev_ind; intros Hu; [done|].
  apply Forall_app in Hu as [Hu Hb]. apply Forall_cons_1 in Hb as [Hb _].
  destruct (IH Hu) as [He Hl]. rewrite length_app, be_value_snoc. simpl length.
  rewrite Nat.add_1_r, Nat2N.inj_succ, N.pow_succ_r'. simpl be_bytes. split; [|nia].
  assert ((256 * be_value data + b) / 256 = be_value data)%N as ->
    by (symmetry; apply N.div_unique with b; lia).
  assert ((256 * be_value data + b) mod 256 = b)%N as ->
    by (symmetry; apply (N.mod_unique _ _ (be_value data)); lia).
  by rewrite He.
Qed.

Lemma fold_unsigned_value v data :
  u8s data -> ((v + 1) * 256 ^ N.of_nat (length data) <= usize_max + 1)%N ->
  fold_unsigned v data = Some (fold_left (fun v b => (256 * v + b)%N) data v).
Proof.
  revert v. induction data as [|b data IH]; intros v Hu Hv; [done|].
  apply Forall_cons_1 in Hu as [Hb Hu]. simpl fold_left. simpl length in Hv.
  rewrite Nat2N.inj_succ, N.pow_succ_r' in Hv.
  assert (1 <= 256 ^ N.of_nat (length data))%N by (apply N.lt_pred_le, N.neq_0_lt_0, N.pow_nonzero; lia).
  simpl. unfold checked_mul, checked_add.
  destruct (N.leb_spec (v * 256) usize_max); [|nia].
  destruct (N.leb_spec (v * 256 + b) usize_max); [|nia].
  rewrite IH; [by rewrite N.mul_comm|done|nia].
Qed.

Lemma reader_unsigned_iff n pre post v r :
  (len (pre ++ post) <= usize_max)%N -> u8s post -> (n <= 8)%N ->
  reader_unsigned n (R pre post) = Some (v, r) <->
  exists post', post = be_bytes (N.to_nat n) v ++ post' /\ (v < 256 ^ n)%N /\
    r = R (pre ++ be_bytes (N.to_nat n) v) post'.
Proof.
  intros Hmax Hu Hn. unfold reader_unsigned.
  assert (forall x, u8s x -> len x = n ->
    fold_unsigned 0 x = Some (be_value x) /\ be_bytes (N.to_nat n) (be_value x) = x /\
    (be_value x < 256 ^ n)%N) as Hx.
  { intros x Hux <-. destruct (be_bytes_value x Hux) as [H1 H2]. rewrite len_to_nat.
    split; [|done]. apply fold_unsigned_value; [done|]. unfold len in Hn.
    transitivity (256 ^ 8)%N; [|done]. rewrite N.mul_1_l. apply N.pow_le_mono_r; lia. }
  destruct (reader_take n (R pre post)) as [[x r0]|] eqn:E.
  - apply reader_take_iff in E as (post' & -> & Hl & ->); [|done].
    apply Forall_app in Hu as [Hux Hup]. destruct (Hx x Hux Hl) as (-> & Hb & Hv). split.
    + intros [= <- <-]. exists post'. by rewrite Hb.
    + intros (post'' & He & Hv' & ->).
      apply app_inj_1 in He as [He ->]; [|unfold len in Hl; rewrite length_be_bytes; lia].
      subst x. do 2 f_equal. apply be_value_bytes. by rewrite N2Nat.id.
  - split; [done|]. intros (post' & -> & Hv & ->). exfalso.
    assert (reader_take n (R pre (be_bytes (N.to_nat n) v ++ post')) =
      Some (be_bytes (N.to_nat n) v, R (pre ++ be_bytes (N.to_nat n) v) post')) as E'
      by (apply reader_take_iff; [done|]; eexists; split; [done|]; by rewrite len_be_bytes).
    congruence.
Qed.

(** ** Cells *)

Record RawCell := mkRawCell {
  rc_descriptor : N;
  rc_bits : N;
  rc_hashes : bytes;
  rc_data : bytes;
  rc_refs : list N;
}.

Definition serialize_refs (reference_bytes : N) (refs : list N) : bytes :=
  concat (map (be_bytes (N.to_nat reference_bytes)) refs).

Definition serialize_cell (reference_bytes : N) (c : RawCell) : bytes :=
  [rc_descriptor c; rc_bits c] ++ rc_hashes c ++ rc_data c
  ++ serialize_refs reference_bytes (rc_refs c).

Definition serialize_cells (reference_bytes : N) (cs : list RawCell) : bytes :=
  concat (map (serialize_cell reference_bytes) cs).

(** Cell [i] of [cells]: its parts have the sizes that its descriptors announce,
    and it refers to later cells only. *)
Record wf_cell (cells i : N) (c : RawCell) : Prop := {
  wf_count : N.land (rc_descriptor c) 7 = len (rc_refs c);
  wf_four : (len (rc_refs c) <= 4)%N;
  wf_hashes : len (rc_hashes c) = hash_bytes (rc_descriptor c);
  wf_data : len (rc_data c) = data_bytes (rc_bits c);
  wf_terminator : N.land (rc_bits c) 1 <> 0%N -> missing_terminator (rc_data c) = false;
  wf_exotic : N.land (rc_descriptor c) 8 <> 0%N ->
    exotic_layout_is_valid (N.shiftr (rc_descriptor c) 5) (rc_bits c) (rc_data c)
      (len (rc_refs c)) = true;
  wf_forward : Forall (fun r => (i < r < cells)%N) (rc_refs c);
}.

(** The reference loop on the height array. *)
Definition raise (height : N) (heights : list N) (reference : N) : list N :=
  match heights !! N.to_nat reference with
  | Some slot => <[N.to_nat reference := N.max slot (height + 1)]> heights
  | None => heights
  end.

Definition deep_enough (height : N) (refs : list N) : Prop :=
  refs = [] \/ (height + 1 <= MAX_CELL_DEPTH)%N.

Lemma raise_length h hs r : length (raise h hs r) = length hs.
Proof. unfold raise. case_match; [by rewrite length_insert|done]. Qed.

Lemma raises_length h hs refs : length (fold_left (raise h) refs hs) = length hs.
Proof.
  revert hs. induction refs as [|r refs IH]; intros hs; simpl; [done|].
  by rewrite IH, raise_length.
Qed.

Lemma read_ok {A E B} (e : option (A * BocReader)) (err : E) (k : A -> BocReader -> result E B) y :
  match e with Some (x, r) => k x r | None => Err err end = Ok y <->
  exists x r, e = Some (x, r) /\ k x r = Ok y.
Proof. destruct e as [[x r]|]; naive_solver. Qed.

Section References.
Context (reference_bytes cells i height : N).
Hypothesis Hrb : (reference_bytes <= 8)%N.
Hypothesis Hcells : (cells <= 256 ^ reference_bytes)%N.

Definition in_range (r : N) : Prop := (i < r < cells)%N.

Lemma validate_references_iff count heights pre post heights' r' :
  (len (pre ++ post) <= usize_max)%N -> u8s post -> len heights = cells ->
  validate_references count reference_bytes cells i height heights (R pre post)
    = Ok (heights', r') <->
  exists refs post', length refs = count /\
    post = serialize_refs reference_bytes refs ++ post' /\ Forall in_range refs /\
    deep_enough height refs /\ heights' = fold_left (raise height) refs heights /\
    r' = R (pre ++ serialize_refs reference_bytes refs) post'.
Proof.
  intros Hmax Hu Hlen. revert heights pre post Hmax Hu Hlen.
  induction count as [|count IH]; intros heights pre post Hmax Hu Hlen.
  { simpl. split.
    - intros [= <- <-]. exists [], post. rewrite app_nil_r. repeat split; by constructor.
    - intros (refs & post' & ->%nil_length_inv & -> & _ & _ & -> & ->). simpl.
      by rewrite app_nil_r. }
  simpl. rewrite read_ok. split.
  - intros (ref & r1 & (post1 & -> & Hv & ->)%reader_unsigned_iff & Hk); try done.
    apply if_err_ok in Hk as [Hg Hk].
    destruct (checked_add u16_max height 1) as [child|] eqn:Ec; [|done].
    apply checked_add_Some in Ec as [-> _].
    apply if_err_ok in Hk as [Hd Hk]. bool_to_prop.
    destruct (heights !! N.to_nat ref) as [slot|] eqn:El; [|done].
    apply IH in Hk as (refs & post' & Hc & -> & Hr & _ & -> & ->).
    + exists (ref :: refs), post'. unfold serialize_refs. simpl.
      rewrite <- !app_assoc. split; [by rewrite Hc|]. split; [done|].
      split; [constructor; [by split|done]|]. split; [by right|]. split; [|done].
      unfold raise at 3. by rewrite El.
    + by rewrite <- app_assoc.
    + by apply Forall_app in Hu as [_ Hu].
    + unfold len in *. by rewrite length_insert.
  - intros (refs & post' & Hc & -> & Hr & Hd & -> & ->).
    destruct refs as [|ref refs]; [done|]. injection Hc as Hc.
    apply Forall_cons_1 in Hr as [[Hi1 Hi2] Hr]. destruct Hd as [Hd|Hd]; [done|].
    unfold serialize_refs in *. cbn [map concat] in *. rewrite <- !app_assoc in *.
    eexists ref, _. split.
    { apply reader_unsigned_iff; [done..|]. eexists. split; [done|]. split; [lia|done]. }
    apply if_err_ok. split; [apply orb_false_iff; rewrite !N.leb_gt; lia|].
    assert (checked_add u16_max height 1 = Some (height + 1)%N) as ->
      by (apply checked_add_Some; split; [done|]; unfold MAX_CELL_DEPTH, u16_max in *; lia).
    apply if_err_ok. split; [by apply negb_false_iff, N.leb_le|].
    destruct (lookup_lt_is_Some_2 heights (N.to_nat ref)) as [slot El].
    { unfold len in Hlen. lia. }
    rewrite El. apply IH.
    + by rewrite <- app_assoc.
    + by apply Forall_app in Hu as [_ Hu].
    + unfold len in *. by rewrite length_insert.
    + exists refs, post'. split; [done|]. split; [done|]. split; [done|]. split; [by right|].
      split; [|by rewrite <- !app_assoc]. simpl. unfold raise at 2. by rewrite El.
Qed.
End References.

Definition offset_matches (expected_offsets : option (list N)) (i position : N) : Prop :=
  match expected_offsets with
  | Some offsets =>
      match offsets !! N.to_nat i with Some expected => expected = position | None => True end
  | None => True
  end.

(** What one cell does to the height array, and when it may. *)
Definition heights_step (i : N) (heights : list N) (c : RawCell) (heights' : list N) : Prop :=
  exists height, heights !! N.to_nat i = Some height /\ deep_enough height (rc_refs c) /\
    heights' = fold_left (raise height) (rc_refs c) heights.

Section Cell.
Context (reference_bytes cells : N) (expected_offsets : option (list N)).
Hypothesis Hrb : (reference_bytes <= 8)%N.
Hypothesis Hcells : (cells <= 256 ^ reference_bytes)%N.

Lemma offset_check_iff i position :
  match expected_offsets with
  | Some offsets =>
      match offsets !! N.to_nat i with
      | Some expected => negb (expected =? position)%N
      | None => false
      end
  | None => false
  end = false <-> offset_matches expected_offsets i position.
Proof.
  unfold offset_matches. destruct expected_offsets as [offsets|]; [|done].
  destruct (offsets !! N.to_nat i) as [expected|]; [|done].
  by rewrite negb_false_iff, N.eqb_eq.
Qed.

Lemma negb_land_iff a b (c : bool) :
  negb (N.land a b =? 0)%N && c = false <-> (N.land a b <> 0%N -> c = false).
Proof. destruct (N.eqb_spec (N.land a b) 0); destruct c; naive_solver. Qed.

Lemma validate_cell_sound i heights pre post heights' r' :
  (len (pre ++ post) <= usize_max)%N -> u8s post -> len heights = cells ->
  validate_cell reference_bytes cells i expected_offsets heights (R pre post)
    = Ok (heights', r') ->
  exists c post', post = serialize_cell reference_bytes c ++ post' /\ wf_cell cells i c /\
    heights_step i heights c heights' /\
    offset_matches expected_offsets i (len (pre ++ serialize_cell reference_bytes c)) /\
    r' = R (pre ++ serialize_cell reference_bytes c) post'.
Proof.
  intros Hmax Hu Hlen. unfold validate_cell.
  intros (d & ? & (post1 & -> & ->)%reader_byte_iff & Hk)%read_ok; [|done].
  apply read_ok in Hk as (b & ? & (post2 & -> & ->)%reader_byte_iff & Hk);
    [|by rewrite <- app_assoc].
  apply if_err_ok in Hk as [H4 Hk]. bool_to_prop.
  destruct (heights !! N.to_nat i) as [height|] eqn:Eh; [|done].
  apply read_ok in Hk as (hashes & ? & (post3 & -> & Hhl & ->)%reader_take_iff & Hk);
    [|by rewrite <- !app_assoc].
  apply read_ok in Hk as (data & ? & (post4 & -> & Hdl & ->)%reader_take_iff & Hk);
    [|by rewrite <- !app_assoc].
  apply if_err_ok in Hk as [Ht Hk]. apply if_err_ok in Hk as [Hx Hk].
  apply rbind_ok in Hk as ([heights1 r1] & Hrefs & Hk).
  apply (validate_references_iff reference_bytes cells i height Hrb Hcells) in Hrefs
    as (refs & post' & Hc & -> & Hr & Hd & -> & ->); [| |by repeat
      (apply Forall_cons_1 in Hu as [_ Hu] || apply Forall_app in Hu as [_ Hu])|done].
  2: { rewrite <- !app_assoc. done. }
  apply if_err_ok in Hk as [Ho Hk]. injection Hk as <- <-.
  exists (mkRawCell d b hashes data refs), post'. unfold serialize_cell. cbn [rc_descriptor
    rc_bits rc_hashes rc_data rc_refs].
  assert (N.land d 7 = len refs) as Hcount by (unfold len; rewrite Hc; lia).
  split; [by rewrite <- !app_assoc|]. split.
  { constructor; cbn [rc_descriptor rc_bits rc_hashes rc_data rc_refs]; [done|lia|done|done| |
      |done].
    - by apply negb_land_iff.
    - intros Hn. rewrite <- Hcount. apply negb_false_iff. by apply (negb_land_iff d 8). }
  split; [by exists height|]. unfold R in Ho. cbn [br_position] in Ho.
  rewrite <- !app_assoc in *. split; [|done]. by apply offset_check_iff in Ho.
Qed.

Lemma validate_cell_complete i heights heights' pre c post :
  (len (pre ++ serialize_cell reference_bytes c ++ post) <= usize_max)%N ->
  u8s (serialize_cell reference_bytes c ++ post) -> len heights = cells ->
  wf_cell cells i c -> heights_step i heights c heights' ->
  offset_matches expected_offsets i (len (pre ++ serialize_cell reference_bytes c)) ->
  validate_cell reference_bytes cells i expected_offsets heights
    (R pre (serialize_cell reference_bytes c ++ post))
    = Ok (heights', R (pre ++ serialize_cell reference_bytes c) post).
Proof.
  intros Hmax Hu Hlen [Hcount H4 Hhl Hdl Ht Hx Hr] (height & Eh & Hd & ->) Ho.
  destruct c as [d b hashes data refs]. unfold serialize_cell in *.
  cbn [rc_descriptor rc_bits rc_hashes rc_data rc_refs] in *.
  rewrite <- !app_assoc in *. cbn [app] in *. unfold validate_cell.
  apply read_ok. eexists d, _. split.
  { apply reader_byte_iff; [done|]. by eexists. }
  apply read_ok. eexists b, _. split.
  { apply reader_byte_iff; [by rewrite <- app_assoc|]. by eexists. }
  apply if_err_ok. split; [apply N.ltb_ge; lia|]. rewrite Eh.
  apply read_ok. eexists hashes, _. split.
  { apply reader_take_iff; [by rewrite <- !app_assoc|]. by eexists. }
  apply read_ok. eexists data, _. split.
  { apply reader_take_iff; [by rewrite <- !app_assoc|]. by eexists. }
  apply if_err_ok. split; [by apply negb_land_iff|].
  apply if_err_ok. split.
  { apply negb_land_iff. intros Hn. apply negb_false_iff. rewrite Hcount. by apply Hx. }
  apply rbind_ok. eexists (_, _). split.
  { apply (validate_references_iff reference_bytes cells i height Hrb Hcells).
    - by rewrite <- !app_assoc.
    - do 2 apply Forall_cons_1 in Hu as [_ Hu]. by do 2 apply Forall_app in Hu as [_ Hu].
    - done.
    - exists refs, post. split; [rewrite Hcount; unfold len; lia|]. by repeat split. }
  apply if_err_ok. split.
  - apply offset_check_iff. unfold R. cbn [br_position]. by rewrite <- !app_assoc.
  - by rewrite <- !app_assoc.
Qed.
End Cell.

(** ** All cells *)

(** Where each cell ends. *)
Fixpoint ends (reference_bytes position : N) (cs : list RawCell) : list N :=
  match cs with
  | [] => []
  | c :: cs =>
      let position := (position + len (serialize_cell reference_bytes c))%N in
      position :: ends reference_bytes position cs
  end.

Inductive heights_run : N -> list N -> list RawCell -> list N -> Prop :=
  | heights_done i heights : heights_run i heights [] heights
  | heights_next i heights c heights1 cs heights' :
      heights_step i heights c heights1 -> heights_run (i + 1) heights1 cs heights' ->
      heights_run i heights (c :: cs) heights'.

Fixpoint wf_from (cells i : N) (cs : list RawCell) : Prop :=
  match cs with
  | [] => True
  | c :: cs => wf_cell cells i c /\ wf_from cells (i + 1) cs
  end.

Fixpoint offsets_from (expected_offsets : option (list N)) (reference_bytes i position : N)
    (cs : list RawCell) : Prop :=
  match cs with
  | [] => True
  | c :: cs =>
      let position := (position + len (serialize_cell reference_bytes c))%N in
      offset_matches expected_offsets i position /\
      offsets_from expected_offsets reference_bytes (i + 1) position cs
  end.

Lemma heights_step_length i hs c hs' : heights_step i hs c hs' -> len hs' = len hs.
Proof. intros (h & _ & _ & ->). unfold len. by rewrite raises_length. Qed.

Section Cells.
Context (reference_bytes cells : N) (expected_offsets : option (list N)).
Hypothesis Hrb : (reference_bytes <= 8)%N.
Hypothesis Hcells : (cells <= 256 ^ reference_bytes)%N.

Lemma validate_cells_loop_iff count i heights pre post r' :
  (len (pre ++ post) <= usize_max)%N -> u8s post -> len heights = cells ->
  validate_cells_loop count reference_bytes cells i expected_offsets heights (R pre post)
    = Ok r' <->
  exists cs post' heights', length cs = count /\
    post = serialize_cells reference_bytes cs ++ post' /\ wf_from cells i cs /\
    heights_run i heights cs heights' /\
    offsets_from expected_offsets reference_bytes i (len pre) cs /\
    r' = R (pre ++ serialize_cells reference_bytes cs) post'.
Proof.
  revert i heights pre post. induction count as [|count IH];
    intros i heights pre post Hmax Hu Hlen.
  { simpl. split.
    - intros [= <-]. exists [], post, heights. simpl. rewrite app_nil_r.
      repeat split. constructor.
    - intros (cs & post' & heights' & ->%nil_length_inv & -> & _ & _ & _ & ->). simpl.
      by rewrite app_nil_r. }
  simpl. rewrite rbind_ok. split.
  - intros ([heights1 r1] & Hc & Hk).
    apply validate_cell_sound in Hc as (c & post1 & -> & Hwf & Hs & Ho & ->); [|done..].
    pose proof (heights_step_length _ _ _ _ Hs) as Hl.
    cbn [fst snd] in Hk. apply IH in Hk as (cs & post' & heights' & Hn & -> & Hw & Hh & Hos & ->);
      [|by rewrite <- app_assoc|by apply Forall_app in Hu as [_ Hu]|lia].
    exists (c :: cs), post', heights'. unfold serialize_cells in *. cbn [map concat length].
    rewrite <- !app_assoc. split; [by rewrite Hn|]. split; [done|]. split; [done|].
    split; [by econstructor|]. split; [|done]. simpl. rewrite <- len_app. done.
  - intros (cs & post' & heights' & Hn & -> & Hw & Hh & Ho & ->).
    destruct cs as [|c cs]; [done|]. injection Hn as Hn. destruct Hw as [Hwc Hw].
    inversion Hh as [|? ? ? heights1 ? ? Hs Hrest]; subst.
    unfold serialize_cells in *. cbn [map concat] in *. rewrite <- !app_assoc in *.
    cbn [offsets_from] in Ho. rewrite <- len_app in Ho. destruct Ho as [Hoc Ho].
    eexists (heights1, _). split; [by apply validate_cell_complete|]. cbn [fst snd].
    pose proof (heights_step_length _ _ _ _ Hs) as Hl.
    apply IH; [by rewrite <- app_assoc|by apply Forall_app in Hu as [_ Hu]|lia|].
    exists cs, post', heights'. by rewrite <- !app_assoc.
Qed.
End Cells.

(** ** Depth *)

Section Depth.
Context (cs : list RawCell).

Definition edge (i j : nat) : Prop := exists c, cs !! i = Some c /\ N.of_nat j ∈ rc_refs c.

(** References point to later cells of the bag. *)
Definition forward : Prop := forall i j, edge i j -> i < j < length cs.

Definition depth_bounded : Prop :=
  forall k i j, nsteps edge k i j -> k <= N.to_nat MAX_CELL_DEPTH.

(** The edges out of the first [m] cells. *)
Definition edge_below (m i j : nat) : Prop := edge i j /\ i < m.

Lemma edge_below_mono m m' k i j :
  m <= m' -> nsteps (edge_below m) k i j -> nsteps (edge_below m') k i j.
Proof.
  intros Hm. induction 1 as [|k x y z [He Hx] _ IH]; [constructor|].
  econstructor; [|done]. split; [done|lia].
Qed.

Lemma edge_below_edge m k i j : nsteps (edge_below m) k i j -> nsteps edge k i j.
Proof. induction 1 as [|k x y z [He Hx] _ IH]; econstructor; done. Qed.

Lemma path_below k i j : forward -> nsteps edge k i j -> nsteps (edge_below j) k i j.
Proof.
  intros Hf. revert j. induction k as [|k IH]; intros j Hp.
  - inversion Hp; subst. constructor.
  - apply nsteps_inv_r in Hp as (y & Hp & He). pose proof (Hf _ _ He).
    eapply nsteps_r; [|by split; [exact He|lia]].
    apply (edge_below_mono y); [lia|]. by apply IH.
Qed.

Definition heights_inv (m : nat) (heights : list N) : Prop :=
  length heights = length cs /\
  forall j h, heights !! j = Some h ->
    (exists i, nsteps (edge_below m) (N.to_nat h) i j) /\
    (forall k i, nsteps (edge_below m) k i j -> k <= N.to_nat h) /\
    (h <= MAX_CELL_DEPTH)%N.

Lemma raise_lookup h hs r j s :
  hs !! j = Some s ->
  raise h hs r !! j = Some (if bool_decide (N.of_nat j = r) then N.max s (h + 1) else s)%N.
Proof.
  intros Hj. unfold raise. case_bool_decide as E.
  - subst r. rewrite Nat2N.id, Hj. apply list_lookup_insert_eq. by eapply lookup_lt_Some.
  - destruct (hs !! N.to_nat r) eqn:Er; [|done].
    rewrite list_lookup_insert_ne; [done|]. intros <-. by rewrite N2Nat.id in E.
Qed.

Lemma raises_lookup h refs hs j s :
  hs !! j = Some s ->
  fold_left (raise h) refs hs !! j =
    Some (if bool_decide (N.of_nat j ∈ refs) then N.max s (h + 1) else s)%N.
Proof.
  revert hs s. induction refs as [|r refs IH]; intros hs s Hj.
  - rewrite bool_decide_eq_false_2; [done|]. by intros ?%elem_of_nil.
  - cbn [fold_left]. erewrite IH by (by apply raise_lookup).
    f_equal. repeat case_bool_decide; try lia; exfalso; set_solver.
Qed.

Lemma heights_inv_step m heights c heights' :
  forward -> cs !! m = Some c -> heights_inv m heights ->
  heights_step (N.of_nat m) heights c heights' -> heights_inv (S m) heights'.
Proof.
  intros Hf Hc [Hl Hinv] (h & Hh & Hd & ->). rewrite Nat2N.id in Hh.
  destruct (Hinv m h Hh) as ((i0 & Hp0) & Hb0 & Hle0).
  split; [by rewrite raises_length|]. intros j h' Hj.
  assert (exists s, heights !! j = Some s) as [s Hs].
  { apply lookup_lt_is_Some. rewrite <- (raises_length h heights (rc_refs c)).
    by eapply lookup_lt_Some. }
  rewrite (raises_lookup _ _ _ _ _ Hs) in Hj. injection Hj as <-.
  destruct (Hinv j s Hs) as ((i1 & Hp1) & Hb1 & Hle1).
  assert (forall k i, nsteps (edge_below (S m)) k i j ->
    k <= N.to_nat s \/ N.of_nat j ∈ rc_refs c /\ k <= N.to_nat h + 1) as Hcase.
  { intros k i Hp. destruct k as [|k]; [lia|].
    apply nsteps_inv_r in Hp as (y & Hp & [He Hy]). apply edge_below_edge in Hp.
    destruct (decide (y = m)) as [->|Hn].
    - right. destruct He as (c' & Hc' & He). assert (c' = c) as -> by congruence.
      split; [done|]. apply path_below in Hp; [|done]. apply Hb0 in Hp. lia.
    - left. apply (Hb1 (S k) i). eapply nsteps_r; [|by split; [exact He|lia]].
      apply (edge_below_mono y); [lia|]. by apply path_below. }
  case_bool_decide as Ein.
  - assert (h + 1 <= MAX_CELL_DEPTH)%N by (destruct Hd as [Hd|Hd]; [rewrite Hd in Ein; set_solver|done]).
    split; [|split; [intros k i Hp; destruct (Hcase k i Hp) as [?|[_ ?]]; lia|lia]].
    destruct (N.max_spec s (h + 1)) as [[_ ->]|[_ ->]].
    + exists i0. rewrite N.add_1_r, N2Nat.inj_succ. eapply nsteps_r.
      * apply (edge_below_mono m); [lia|done].
      * split; [by exists c|lia].
    + exists i1. by apply (edge_below_mono m); [lia|].
  - split; [exists i1; by apply (edge_below_mono m); [lia|]|].
    split; [intros k i Hp; by destruct (Hcase k i Hp) as [?|[? _]]|done].
Qed.

Lemma heights_inv_start : heights_inv 0 (replicate (length cs) 0%N).
Proof.
  split; [by rewrite length_replicate|]. intros j h Hj.
  apply lookup_replicate in Hj as [-> Hj]. split; [|split; [|done]].
  - exists j. constructor.
  - intros k i Hp. destruct k as [|k]; [done|].
    apply nsteps_inv_r in Hp as (y & _ & [_ Hy]). lia.
Qed.

Lemma heights_run_inv m heights heights' :
  forward -> heights_inv m heights -> m <= length cs ->
  heights_run (N.of_nat m) heights (drop m cs) heights' -> heights_inv (length cs) heights'.
Proof.
  intros Hf Hinv Hm Hrun. remember (drop m cs) as rest eqn:Hrest.
  remember (N.of_nat m) as i eqn:Hi. revert m Hrest Hi Hinv Hm.
  induction Hrun as [i heights|i heights c heights1 rest heights' Hs Hrun IH];
    intros m Hrest -> Hinv Hm.
  - assert (m = length cs) as -> by (apply (f_equal length) in Hrest;
      rewrite length_drop in Hrest; simpl in Hrest; lia). done.
  - assert (cs !! m = Some c) as Hc by (rewrite <- (Nat.add_0_r m), <- lookup_drop, <- Hrest; done).
    apply (IH (S m)); [| lia |by eapply heights_inv_step|by apply lookup_lt_Some in Hc].
    by rewrite <- Nat.add_1_r, <- drop_drop, <- Hrest.
Qed.

Lemma heights_run_exists m heights :
  forward -> depth_bounded -> heights_inv m heights -> m <= length cs ->
  exists heights', heights_run (N.of_nat m) heights (drop m cs) heights'.
Proof.
  intros Hf Hb. remember (length cs - m) as n eqn:Hn. revert m heights Hn.
  induction n as [|n IH]; intros m heights Hn Hinv Hm.
  - rewrite drop_ge by lia. eexists. constructor.
  - destruct (lookup_lt_is_Some_2 cs m) as [c Hc]; [lia|].
    destruct Hinv as [Hl Hinv'] eqn:E. clear E.
    destruct (lookup_lt_is_Some_2 heights m) as [h Hh]; [lia|].
    assert (heights_step (N.of_nat m) heights c (fold_left (raise h) (rc_refs c) heights)) as Hs.
    { exists h. rewrite Nat2N.id. split; [done|]. split; [|done].
      destruct (rc_refs c) as [|r refs] eqn:Er; [by left|right].
      destruct (Hinv' m h Hh) as ((i & Hp) & _ & _). apply edge_below_edge in Hp.
      assert (edge m (N.to_nat r)) as He
        by (exists c; split; [done|]; rewrite N2Nat.id, Er; by left).
      pose proof (Hb _ _ _ (nsteps_r _ _ _ _ Hp He)). lia. }
    destruct (IH (S m) (fold_left (raise h) (rc_refs c) heights)) as [heights' Hrun];
      [lia|by eapply heights_inv_step|lia|].
    exists heights'. rewrite (drop_S cs c m Hc). econstructor; [done|].
    by rewrite N.add_1_r, <- Nat2N.inj_succ.
Qed.

Lemma depth_check_iff :
  forward ->
  (exists heights', heights_run 0 (replicate (length cs) 0%N) cs heights') <-> depth_bounded.
Proof.
  intros Hf. split.
  - intros (heights' & Hrun).
    destruct (heights_run_inv 0 _ _ Hf heights_inv_start (Nat.le_0_l _) Hrun) as [Hl Hinv].
    intros k i j Hp.
    destruct k as [|k]; [lia|]. pose proof Hp as (y & _ & He)%nsteps_inv_r.
    destruct (lookup_lt_is_Some_2 heights' j) as [h Hh]; [rewrite Hl; apply Hf in He; lia|].
    destruct (Hinv j h Hh) as (_ & Hb & Hle).
    assert (S k <= N.to_nat h); [|lia]. apply (Hb _ i).
    apply (edge_below_mono j); [|by apply path_below].
    apply Hf in He. lia.
  - intros Hb. by apply (heights_run_exists 0); [..|apply heights_inv_start|lia].
Qed.

Lemma wf_from_lookup cells i rest k c :
  wf_from cells i rest -> rest !! k = Some c -> wf_cell cells (i + N.of_nat k) c.
Proof.
  revert i k. induction rest as [|c' rest IH]; intros i k; [done|].
  intros [Hc Hrest]. destruct k as [|k]; simpl.
  - intros [= <-]. by rewrite N.add_0_r.
  - intros Hk. specialize (IH _ k Hrest Hk).
    by replace (i + N.of_nat (S k))%N with (i + 1 + N.of_nat k)%N by lia.
Qed.

Lemma wf_from_forward : wf_from (len cs) 0 cs -> forward.
Proof.
  intros Hw i j (c & Hc & Hin). pose proof (wf_from_lookup _ _ _ _ _ Hw Hc) as Hcell.
  pose proof (wf_forward _ _ _ Hcell) as Hr. rewrite Forall_forall in Hr.
  specialize (Hr _ Hin). unfold len in Hr. lia.
Qed.
End Depth.

(** ** The cell section *)

Lemma length_ends rb position cs : length (ends rb position cs) = length cs.
Proof. revert position. induction cs as [|c cs IH]; intros position; simpl; [done|]. by rewrite IH. Qed.

Lemma offsets_from_iff offsets rb i position cs :
  len offsets = (i + len cs)%N ->
  offsets_from (Some offsets) rb i position cs <->
  drop (N.to_nat i) offsets = ends rb position cs.
Proof.
  revert i position. induction cs as [|c cs IH]; intros i position Hl.
  - simpl. rewrite drop_ge; [done|]. unfold len in Hl. simpl in Hl. lia.
  - rewrite len_cons in Hl.
    destruct (lookup_lt_is_Some_2 offsets (N.to_nat i)) as [o Ho]; [unfold len in Hl; lia|].
    cbn [offsets_from ends]. unfold offset_matches. rewrite Ho, (drop_S _ _ _ Ho).
    rewrite IH by lia. replace (N.to_nat (i + 1)) with (S (N.to_nat i)) by lia.
    split; [by intros [-> ->]|]. intros [= -> ->]. done.
Qed.

Definition wf_cells (cs : list RawCell) : Prop := wf_from (len cs) 0 cs /\ depth_bounded cs.

Definition index_matches (rb : N) (expected_offsets : option (list N)) (cs : list RawCell)
  : Prop :=
  match expected_offsets with Some offsets => offsets = ends rb 0 cs | None => True end.

Lemma validate_cells_iff data cells rb expected_offsets :
  (len data <= usize_max)%N -> u8s data -> (rb <= 8)%N -> (cells <= 256 ^ rb)%N ->
  (match expected_offsets with Some offsets => len offsets = cells | None => True end) ->
  validate_cells data cells rb expected_offsets = Ok tt <->
  exists cs, len cs = cells /\ data = serialize_cells rb cs /\ wf_cells cs /\
    index_matches rb expected_offsets cs.
Proof.
  intros Hmax Hu Hrb Hcells Hoff. unfold validate_cells. rewrite rbind_ok, reader_new_R.
  assert (forall cs, len cs = cells ->
    offsets_from expected_offsets rb 0 0 cs <-> index_matches rb expected_offsets cs) as Hidx.
  { intros cs Hl. destruct expected_offsets as [offsets|]; [|unfold offsets_from; simpl].
    - apply (offsets_from_iff offsets rb 0); lia.
    - split; [done|]. intros _. generalize 0%N at 1. generalize 0%N. clear.
      induction cs as [|c cs IH]; intros i position; simpl; [done|]. split; [done|apply IH]. }
  assert (len (replicate (N.to_nat cells) 0%N) = cells) as Hrep
    by (unfold len; rewrite length_replicate; lia).
  split.
  - intros (r & Hr & Hk). apply if_err_ok in Hk as [He _]. apply negb_false_iff in He.
    apply validate_cells_loop_iff in Hr
      as (cs & post & heights & Hn & -> & Hw & Hh & Ho & ->); [|done..].
    apply reader_is_empty_R in He. subst post. rewrite app_nil_r in *.
    assert (len cs = cells) as Hlen by (unfold len; lia).
    exists cs. split; [done|]. split; [done|]. split; [|by apply Hidx].
    rewrite <- Hlen in Hw. split; [done|].
    apply depth_check_iff; [by apply wf_from_forward|]. exists heights.
    by rewrite <- (Nat2N.id (length cs)); fold (len cs); rewrite Hlen.
  - intros (cs & Hlen & -> & [Hw Hb] & Hi).
    apply depth_check_iff in Hb as [heights Hh]; [|by apply wf_from_forward].
    exists (R (serialize_cells rb cs) []). split.
    + apply validate_cells_loop_iff; [done..|]. exists cs, [], heights.
      rewrite app_nil_r. split; [unfold len in Hlen; lia|]. split; [done|].
      split; [by rewrite <- Hlen|]. split; [|split; [by apply Hidx|done]].
      replace (N.to_nat cells) with (length cs) by (unfold len in Hlen; lia). done.
    + apply if_err_ok. split; [|done]. apply negb_false_iff. by apply reader_is_empty_R.
Qed.

(** ** The index *)

Definition serialize_index (offset_bytes : N) (offsets : list N) : bytes :=
  concat (map (be_bytes (N.to_nat offset_bytes)) offsets).

Fixpoint increasing (previous limit : N) (offsets : list N) : Prop :=
  match offsets with
  | [] => True
  | o :: offsets => (previous < o <= limit)%N /\ increasing o limit offsets
  end.

Definition last_offset (previous : N) (offsets : list N) : N :=
  fold_left (fun _ o => o) offsets previous.

Lemma read_offsets_iff count ob cb previous pre post offsets previous' r' :
  (len (pre ++ post) <= usize_max)%N -> u8s post -> (ob <= 8)%N -> (cb < 256 ^ ob)%N ->
  read_offsets count ob cb previous (R pre post) = Ok (offsets, previous', r') <->
  exists post', length offsets = count /\ post = serialize_index ob offsets ++ post' /\
    increasing previous cb offsets /\ previous' = last_offset previous offsets /\
    r' = R (pre ++ serialize_index ob offsets) post'.
Proof.
  intros Hmax Hu Hob Hcb. revert previous pre post offsets previous' r' Hmax Hu.
  induction count as [|count IH]; intros previous pre post offsets previous' r' Hmax Hu.
  { simpl. split.
    - intros [= <- <- <-]. exists post. simpl. by rewrite app_nil_r.
    - intros (post' & ->%nil_length_inv & -> & _ & -> & ->). simpl. by rewrite app_nil_r. }
  simpl. rewrite read_ok. split.
  - intros (o & r1 & (post1 & -> & Hv & ->)%reader_unsigned_iff & Hk); [|done..].
    apply if_err_ok in Hk as [Hg Hk]. bool_to_prop.
    apply rbind_ok in Hk as ([[os p] r2] & Hos & Hk). injection Hk as <- <- <-.
    apply IH in Hos as (post' & Hl & -> & Hi & -> & ->);
      [|by rewrite <- app_assoc|by apply Forall_app in Hu as [_ Hu]].
    exists post'. unfold serialize_index. cbn [map concat]. rewrite <- !app_assoc. simpl.
    by rewrite Hl.
  - intros (post' & Hl & -> & Hi & -> & ->). destruct offsets as [|o os]; [done|].
    injection Hl as Hl. destruct Hi as [Ho Hi].
    unfold serialize_index in *. cbn [map concat] in *. rewrite <- !app_assoc in *.
    eexists o, _. split.
    { apply reader_unsigned_iff; [done..|]. eexists. split; [done|]. split; [lia|done]. }
    apply if_err_ok. split; [apply orb_false_iff; rewrite N.leb_gt, N.ltb_ge; lia|].
    apply rbind_ok. eexists (os, _, _). split; [|done].
    apply IH; [by rewrite <- app_assoc|by apply Forall_app in Hu as [_ Hu]|].
    exists post'. unfold serialize_index. by rewrite <- !app_assoc.
Qed.

Lemma serialize_cell_size rb c : (2 <= len (serialize_cell rb c))%N.
Proof. unfold serialize_cell. rewrite len_app, !len_cons. lia. Qed.

Lemma serialize_cells_cons rb c cs :
  serialize_cells rb (c :: cs) = serialize_cell rb c ++ serialize_cells rb cs.
Proof. done. Qed.

Lemma ends_increasing rb position limit cs :
  (position + len (serialize_cells rb cs) <= limit)%N ->
  increasing position limit (ends rb position cs).
Proof.
  revert position. induction cs as [|c cs IH]; intros position Hl; [done|].
  rewrite serialize_cells_cons, len_app in Hl. pose proof (serialize_cell_size rb c).
  cbn [ends increasing]. split; [lia|]. apply IH. lia.
Qed.

Lemma ends_last rb position cs :
  last_offset position (ends rb position cs) = (position + len (serialize_cells rb cs))%N.
Proof.
  unfold last_offset. revert position. induction cs as [|c cs IH]; intros position.
  - simpl. unfold serialize_cells. simpl. rewrite len_nil. lia.
  - cbn [ends fold_left]. rewrite IH, serialize_cells_cons, len_app. lia.
Qed.

Lemma len_serialize_index ob offsets : len (serialize_index ob offsets) = (len offsets * ob)%N.
Proof.
  unfold serialize_index. induction offsets as [|o os IH]; [done|].
  cbn [map concat]. rewrite len_app, len_be_bytes, IH, len_cons. lia.
Qed.

Lemma cells_fit rb cs : (len cs <= len (serialize_cells rb cs) / 2)%N.
Proof.
  apply N.div_le_lower_bound; [done|]. induction cs as [|c cs IH]; [done|].
  rewrite serialize_cells_cons, len_cons, len_app. pose proof (serialize_cell_size rb c). lia.
Qed.

(** ** The whole envelope *)

Record Bag := mkBag {
  bag_header : N;
  bag_offset_bytes : N;
  bag_root : N;
  bag_cells : list RawCell;
}.

Definition reference_bytes_of (b : Bag) : N := N.land (bag_header b) 7.
Definition has_index_of (b : Bag) : bool := negb (N.land (bag_header b) 128 =? 0)%N.
Definition has_crc32c_of (b : Bag) : bool := negb (N.land (bag_header b) 64 =? 0)%N.
Definition cell_section (b : Bag) : bytes := serialize_cells (reference_bytes_of b) (bag_cells b).

Record wf_bag (b : Bag) : Prop := {
  wb_flags : N.land (bag_header b) 24 = 0%N;
  wb_reference_bytes : (1 <= reference_bytes_of b <= 4)%N;
  wb_offset_bytes : (1 <= bag_offset_bytes b <= 8)%N;
  wb_count : (0 < len (bag_cells b) < 256 ^ reference_bytes_of b)%N;
  wb_size : (len (cell_section b) < 256 ^ bag_offset_bytes b)%N;
  wb_root : (bag_root b < len (bag_cells b))%N;
  wb_cells : wf_cells (bag_cells b);
}.

Definition bag_index (b : Bag) : bytes :=
  if has_index_of b
  then serialize_index (bag_offset_bytes b) (ends (reference_bytes_of b) 0 (bag_cells b))
  else [].

(** Everything that the checksum covers. *)
Definition covered (b : Bag) : bytes :=
  let number := be_bytes (N.to_nat (reference_bytes_of b)) in
  GENERIC_BOC_MAGIC ++ [bag_header b; bag_offset_bytes b]
  ++ number (len (bag_cells b)) ++ number 1%N ++ number 0%N
  ++ be_bytes (N.to_nat (bag_offset_bytes b)) (len (cell_section b))
  ++ number (bag_root b) ++ bag_index b ++ cell_section b.

Fixpoint le_bytes (n : nat) (v : N) : bytes :=
  match n with 0 => [] | S n => (v mod 256)%N :: le_bytes n (v / 256) end.

Definition serialize_bag `{Crc32c} (b : Bag) : bytes :=
  covered b ++ if has_crc32c_of b then le_bytes 4 (crc32c (covered b)) else [].

Lemma from_le_bytes_inv n v : (v < 256 ^ N.of_nat n)%N -> from_le_bytes (le_bytes n v) = v.
Proof.
  revert v. induction n as [|n IH]; intros v Hv; [simpl in *; lia|].
  simpl. rewrite IH; [pose proof (N.div_mod v 256); lia|].
  apply N.Div0.div_lt_upper_bound. by rewrite <- N.pow_succ_r', <- Nat2N.inj_succ.
Qed.

Lemma le_bytes_inv data : u8s data -> le_bytes (length data) (from_le_bytes data) = data.
Proof.
  induction data as [|b data IH]; intros Hu; [done|]. apply Forall_cons_1 in Hu as [Hb Hu].
  simpl. f_equal.
  - symmetry. apply (N.mod_unique _ _ (from_le_bytes data)); lia.
  - assert ((b + 256 * from_le_bytes data) / 256 = from_le_bytes data)%N as ->; [|by apply IH].
    symmetry. apply N.div_unique with b; lia.
Qed.

Lemma check_crc_iff `{Crc32c} has_crc32c pre post :
  (len (pre ++ post) <= usize_max)%N -> u8s post ->
  (exists r, check_crc (pre ++ post) has_crc32c (R pre post) = Ok r /\ reader_is_empty r = true)
  <-> post = if has_crc32c then le_bytes 4 (crc32c pre) else [].
Proof.
  intros Hmax Hu. unfold check_crc.
  assert (crc32c pre < 256 ^ N.of_nat 4)%N as Hcrc
    by (pose proof (crc32c_u32 pre); unfold u32_max in *; simpl; lia).
  destruct has_crc32c.
  - cbv zeta. change (br_position (R pre post)) with (len pre).
    rewrite len_to_nat, take_app_length. split.
    + intros (r & (checksum & r1 & (post' & -> & Hl & ->)%reader_take_iff & Hk)%read_ok & He);
        [|done].
      apply if_err_ok in Hk as [Hc Hk]. injection Hk as <-. apply reader_is_empty_R in He.
      subst post'. apply negb_false_iff, N.eqb_eq in Hc. rewrite app_nil_r in *.
      rewrite <- Hc. replace 4 with (length checksum) by (unfold len in Hl; lia).
      by rewrite le_bytes_inv.
    + intros ->. exists (R (pre ++ le_bytes 4 (crc32c pre)) []).
      split; [|by apply reader_is_empty_R]. apply read_ok.
      exists (le_bytes 4 (crc32c pre)), (R (pre ++ le_bytes 4 (crc32c pre)) []). split.
      * apply reader_take_iff; [done|]. exists []. by rewrite app_nil_r.
      * apply if_err_ok. split; [|done].
        by rewrite from_le_bytes_inv, N.eqb_refl.
  - split.
    + intros (r & [= <-] & He). by apply reader_is_empty_R in He.
    + intros ->. eexists. split; [done|]. by apply reader_is_empty_R.
Qed.

Lemma read_index_sound has_index cells ob cb pre post expected_offsets r :
  (len (pre ++ post) <= usize_max)%N -> u8s post -> (ob <= 8)%N -> (cb < 256 ^ ob)%N ->
  read_index (pre ++ post) has_index cells ob cb (R pre post) = Ok (expected_offsets, r) ->
  exists post' index, post = index ++ post' /\ r = R (pre ++ index) post' /\
    match expected_offsets with
    | Some offsets => has_index = true /\ len offsets = cells /\ index = serialize_index ob offsets
    | None => has_index = false /\ index = []
    end.
Proof.
  intros Hmax Hu Hob Hcb. unfold read_index. destruct has_index.
  - destruct (checked_mul usize_max cells ob) as [ib|]; [|done].
    destruct (checked_add usize_max ib cb) as [needed|]; [|done].
    intros [_ [_ Hk]%if_err_ok]%if_err_ok.
    apply rbind_ok in Hk as ([[offsets previous] r1] & Hos & Hk).
    apply read_offsets_iff in Hos as (post' & Hl & -> & _ & _ & ->); [|done..].
    apply if_err_ok in Hk as [_ Hk]. injection Hk as <- <-.
    exists post', (serialize_index ob offsets). repeat split. unfold len. lia.
  - intros [= <- <-]. exists post, []. by rewrite app_nil_r.
Qed.

Lemma read_index_complete (has_index : bool) cells ob cb rb cs pre rest :
  let index := if has_index then serialize_index ob (ends rb 0 cs) else [] in
  (len (pre ++ index ++ rest) <= usize_max)%N -> u8s (index ++ rest) -> (ob <= 8)%N ->
  (cb < 256 ^ ob)%N -> len cs = cells -> cb = len (serialize_cells rb cs) -> (cb <= len rest)%N ->
  read_index (pre ++ index ++ rest) has_index cells ob cb (R pre (index ++ rest))
    = Ok (if has_index then Some (ends rb 0 cs) else None, R (pre ++ index) rest).
Proof.
  intros index Hmax Hu Hob Hcb Hn Hcb' Hrest. subst index. unfold read_index.
  destruct has_index; [|by rewrite app_nil_r].
  assert (len (serialize_index ob (ends rb 0 cs)) = cells * ob)%N as Hidx
    by (rewrite len_serialize_index; unfold len; rewrite length_ends; unfold len in Hn; lia).
  pose proof Hmax as Hmax'. rewrite !len_app in Hmax'.
  assert (checked_mul usize_max cells ob = Some (cells * ob)%N) as ->
    by (unfold checked_mul; destruct (N.leb_spec (cells * ob) usize_max); [done|lia]).
  assert (checked_add usize_max (cells * ob) cb = Some (cells * ob + cb)%N) as ->
    by (apply checked_add_Some; split; [done|lia]).
  change (br_position (R pre (serialize_index ob (ends rb 0 cs) ++ rest))) with (len pre).
  rewrite !len_app. apply if_err_ok. split; [apply N.ltb_ge; lia|].
  apply if_err_ok. split; [apply N.ltb_ge; lia|].
  apply rbind_ok. eexists (ends rb 0 cs, _, _). split.
  { apply read_offsets_iff; [done..|]. exists rest. split; [rewrite length_ends; unfold len in Hn; lia|].
    split; [done|]. split; [apply ends_increasing; lia|]. by split. }
  apply if_err_ok. split; [|done]. apply negb_false_iff, N.eqb_eq. rewrite ends_last. lia.
Qed.

Lemma u8s_app_r a b : u8s (a ++ b) -> u8s b.
Proof. by intros [_ ?]%Forall_app. Qed.

Lemma u8s_app_l a b : u8s (a ++ b) -> u8s a.
Proof. by intros [? _]%Forall_app. Qed.

Lemma u8s_cons_r x b : u8s (x :: b) -> u8s b.
Proof. by intros [_ ?]%Forall_cons_1. Qed.

Section Body.
Context `{Crc32c} (has_index has_crc32c : bool) (cells rb ob cb : N).
Hypothesis Hrb : (rb <= 8)%N.
Hypothesis Hcells : (cells < 256 ^ rb)%N.
Hypothesis Hob : (ob <= 8)%N.
Hypothesis Hcb : (cb < 256 ^ ob)%N.

(** What follows the header [pre] of a bag with the cells [cs]. *)
Definition body_of (pre : bytes) (cs : list RawCell) : bytes :=
  let index := if has_index then serialize_index ob (ends rb 0 cs) else [] in
  let section := index ++ serialize_cells rb cs in
  section ++ if has_crc32c then le_bytes 4 (crc32c (pre ++ section)) else [].

Lemma validate_body_iff pre post :
  (len (pre ++ post) <= usize_max)%N -> u8s post ->
  validate_body (pre ++ post) has_index has_crc32c cells rb ob cb (R pre post) = Ok tt <->
  exists cs, len cs = cells /\ len (serialize_cells rb cs) = cb /\ wf_cells cs /\
    post = body_of pre cs.
Proof.
  intros Hmax Hu. unfold validate_body, body_of. split.
  - intros ([expected r1] & Hindex & Hk)%rbind_ok.
    apply read_index_sound in Hindex as (post1 & index & -> & -> & Hexp); [|done..].
    apply read_ok in Hk as (section & ? & (post2 & -> & Hl & ->)%reader_take_iff & Hk);
      [|by rewrite <- app_assoc].
    apply rbind_ok in Hk as ([] & Hv & Hk). apply rbind_ok in Hk as (r2 & Hc & Hk).
    apply if_err_ok in Hk as [He _]. apply negb_false_iff in He.
    apply validate_cells_iff in Hv as (cs & Hn & -> & Hw & Hi);
      [|rewrite !len_app in Hmax; lia|by apply u8s_app_r, u8s_app_l in Hu|lia|lia|
       destruct expected; naive_solver].
    assert (index = if has_index then serialize_index ob (ends rb 0 cs) else []) as ->.
    { destruct expected as [offsets|]; [destruct Hexp as (-> & _ & ->)|by destruct Hexp as [-> ->]].
      by rewrite Hi. }
    exists cs. split; [done|]. split; [done|]. split; [done|].
    rewrite <- !app_assoc in *. do 2 f_equal.
    apply (check_crc_iff has_crc32c (pre ++ _ ++ serialize_cells rb cs));
      [by rewrite <- !app_assoc|by do 2 apply u8s_app_r in Hu|].
    exists r2. split; [|done]. by rewrite <- !app_assoc.
  - intros (cs & Hn & Hl & Hw & ->). rewrite <- !app_assoc in *.
    set (idx := if has_index then serialize_index ob (ends rb 0 cs) else []) in *.
    set (crc := if has_crc32c then le_bytes 4 (crc32c _) else []) in *.
    apply rbind_ok. eexists. split.
    { apply (read_index_complete has_index cells ob cb rb cs); try done. rewrite len_app. lia. }
    fold idx. apply read_ok. exists (serialize_cells rb cs),
      (R ((pre ++ idx) ++ serialize_cells rb cs) crc). split.
    { apply reader_take_iff; [by rewrite <- app_assoc|]. by exists crc. }
    apply rbind_ok. exists tt. split.
    { apply validate_cells_iff; [rewrite !len_app in Hmax; lia|by apply u8s_app_r, u8s_app_l in Hu|
        lia|lia| |].
      - destruct has_index; [|done]. unfold len. by rewrite length_ends.
      - exists cs. repeat (split; [done|]). by destruct has_index. }
    assert (exists r, check_crc (((pre ++ idx) ++ serialize_cells rb cs) ++ crc) has_crc32c
      (R ((pre ++ idx) ++ serialize_cells rb cs) crc) = Ok r /\ reader_is_empty r = true)
      as (r & Hr & He).
    { apply check_crc_iff; [by rewrite <- !app_assoc|by do 2 apply u8s_app_r in Hu|].
      unfold crc. by rewrite <- !app_assoc. }
    apply rbind_ok. exists r. split; [by rewrite <- Hr, <- !app_assoc|].
    apply if_err_ok. by rewrite He.
Qed.
End Body.

(** One read, and the hypotheses that the next read needs. *)
Ltac u8_tail :=
  first
    [ assumption
    | match goal with
      | H : u8s (_ ++ _) |- _ => apply u8s_app_r in H; u8_tail
      | H : u8s (_ :: _) |- _ => apply u8s_cons_r in H; u8_tail
      end ].
Ltac next_byte H b :=
  apply read_ok in H as (b & ? & (? & -> & ->)%reader_byte_iff & H);
    [|by rewrite <- ?app_assoc].
Ltac next_unsigned H v Hv :=
  apply read_ok in H as (v & ? & (? & -> & Hv & ->)%reader_unsigned_iff & H);
    [|by rewrite <- ?app_assoc|u8_tail|lia].

Section Envelope.
Context `{Crc32c}.

Definition header_of (b : Bag) : bytes :=
  let number := be_bytes (N.to_nat (reference_bytes_of b)) in
  GENERIC_BOC_MAGIC ++ [bag_header b; bag_offset_bytes b]
  ++ number (len (bag_cells b)) ++ number 1%N ++ number 0%N
  ++ be_bytes (N.to_nat (bag_offset_bytes b)) (len (cell_section b)) ++ number (bag_root b).

Lemma serialize_bag_split b :
  serialize_bag b = header_of b ++
    body_of (has_index_of b) (has_crc32c_of b) (reference_bytes_of b) (bag_offset_bytes b)
      (header_of b) (bag_cells b).
Proof.
  unfold serialize_bag, covered, header_of, body_of, bag_index, cell_section.
  by rewrite <- !app_assoc.
Qed.

Lemma validate_sound data :
  u8s data -> (len data <= usize_max)%N -> validate_single_root_boc data = Ok tt ->
  exists b, wf_bag b /\ data = serialize_bag b.
Proof.
  intros Hu Hmax Hk. unfold validate_single_root_boc in Hk. rewrite reader_new_R in Hk.
  apply read_ok in Hk as (magic & ? & (post & -> & _ & ->)%reader_take_iff & Hk); [|done].
  apply if_err_ok in Hk as [Hm Hk]. bool_to_prop. subst magic.
  next_byte Hk header. apply if_err_ok in Hk as [Hg Hk]. bool_to_prop.
  next_byte Hk ob. apply if_err_ok in Hk as [Hob Hk]. bool_to_prop.
  next_unsigned Hk cells Hcells. next_unsigned Hk roots Hroots. next_unsigned Hk absent Habsent.
  next_unsigned Hk cb Hcb. apply if_err_ok in Hk as [Hg2 Hk]. bool_to_prop. subst roots absent.
  next_unsigned Hk root Hroot. apply if_err_ok in Hk as [Hg3 Hk]. bool_to_prop.
  match type of Hk with validate_body ?data _ _ _ _ _ _ (R ?pre ?post) = _ =>
    assert (data = pre ++ post) as Hdata by (by rewrite <- !app_assoc);
    rewrite Hdata in Hk end.
  apply validate_body_iff in Hk as (cs & <- & <- & Hw & Hpost);
    [|lia|done|lia|done|by rewrite <- !app_assoc|u8_tail].
  exists (mkBag header ob root cs). split.
  { constructor; unfold cell_section, reference_bytes_of;
      cbn [bag_header bag_offset_bytes bag_root bag_cells]; try done; lia. }
  rewrite serialize_bag_split, Hdata, Hpost at 1. unfold header_of, cell_section.
  cbn [bag_header bag_offset_bytes bag_root bag_cells]. rewrite <- !app_assoc. done.
Qed.

Lemma validate_complete b :
  u8s (serialize_bag b) -> (len (serialize_bag b) <= usize_max)%N -> wf_bag b ->
  validate_single_root_boc (serialize_bag b) = Ok tt.
Proof.
  rewrite serialize_bag_split. intros Hu Hmax [Hf Hrb Hob Hn Hs Hr Hw].
  set (body := body_of _ _ _ _ _ _) in *.
  assert (validate_body (header_of b ++ body) (has_index_of b) (has_crc32c_of b)
    (len (bag_cells b)) (reference_bytes_of b) (bag_offset_bytes b) (len (cell_section b))
    (R (header_of b) body) = Ok tt) as Hbody.
  { apply validate_body_iff; [lia|lia|lia|lia|done|by apply u8s_app_r in Hu|].
    by exists (bag_cells b). }
  assert (1 < 256 ^ reference_bytes_of b)%N as Hone by (apply N.pow_gt_1; lia).
  unfold validate_single_root_boc, header_of in *. rewrite <- !app_assoc in *. cbn [app] in *.
  rewrite reader_new_R. apply read_ok. eexists GENERIC_BOC_MAGIC, _. split.
  { apply reader_take_iff; [done|]. by eexists. }
  apply if_err_ok. split; [by rewrite bool_decide_eq_true_2|].
  apply read_ok. eexists (bag_header b), _. split.
  { apply reader_byte_iff; [done|]. by eexists. }
  apply if_err_ok. unfold reference_bytes_of in *. split.
  { rewrite Hf. simpl. apply negb_false_iff, andb_true_iff. rewrite !N.leb_le. lia. }
  apply read_ok. eexists (bag_offset_bytes b), _. split.
  { apply reader_byte_iff; [done|]. by eexists. }
  apply if_err_ok. split; [apply negb_false_iff, andb_true_iff; rewrite !N.leb_le; lia|].
  do 4 (apply read_ok; eexists _, _; split;
    [apply reader_unsigned_iff; [by rewrite <- ?app_assoc|u8_tail|lia|];
     eexists; split; [done|]; split; [lia|done]|]).
  apply if_err_ok. split.
  { rewrite !N.eqb_refl. pose proof (cells_fit (reference_bytes_of b) (bag_cells b)).
    destruct (N.eqb_spec (len (bag_cells b)) 0); [lia|]. simpl. by apply N.ltb_ge. }
  apply read_ok; eexists _, _; split.
  { apply reader_unsigned_iff; [by rewrite <- ?app_assoc|u8_tail|lia|].
    eexists; split; [done|]; split; [lia|done]. }
  apply if_err_ok. split; [by apply N.leb_gt|].
  rewrite <- Hbody. rewrite <- !app_assoc. done.
Qed.

(** C27: the validator accepts exactly the serializations of well-formed bags of
    cells: the whole input is one bag with one root in range, every part has the
    size its descriptors announce, the optional index and checksum agree with the
    cells, exotic cells have their required layout, references point to later
    cells of the bag, and no reference path is longer than 1024. *)
Theorem validated_boc_is_well_formed data :
  u8s data -> (len data <= usize_max)%N ->
  validate_single_root_boc data = Ok tt <-> exists b, wf_bag b /\ data = serialize_bag b.
Proof.
  intros Hu Hmax. split; [by apply validate_sound|].
  intros (b & Hb & ->). by apply validate_complete.
Qed.

(** Accepted bytes cannot exhaust memory or the stack of the parser behind the
    validator: there are at most half as many cells as bytes, the reference graph
    has no cycle, and following references stops after at most 1024 steps from
    every cell, reachable from the root or not. *)
Theorem validated_boc_bounds data :
  u8s data -> (len data <= usize_max)%N -> validate_single_root_boc data = Ok tt ->
  exists b, data = serialize_bag b /\
    (2 * len (bag_cells b) <= len data)%N /\
    (forall i j, tc (edge (bag_cells b)) i j -> i < j < length (bag_cells b)) /\
    (forall k i j, nsteps (edge (bag_cells b)) k i j -> k <= 1024).
Proof.
  intros Hu Hmax Hk. destruct (validate_sound data Hu Hmax Hk) as (b & Hb & ->).
  exists b. split; [done|]. destruct (wb_cells b Hb) as [Hw Hd]. split; [|split; [|done]].
  - pose proof (cells_fit (reference_bytes_of b) (bag_cells b)) as Hfit.
    fold (cell_section b) in Hfit. unfold serialize_bag, covered. rewrite !len_app.
    pose proof (N.Div0.mul_div_le (len (cell_section b)) 2). lia.
  - intros i j Hp. apply wf_from_forward in Hw. induction Hp as [i j He|i j k He _ IH].
    + by apply Hw.
    + pose proof (Hw _ _ He). lia.
Qed.
End Envelope.
