(* ===== verification/ConnectSession.v ===== *)
(** * TON Connect sessions

    The session reducer of the wallet side, the event cursor of the dApp side and
    the binding of a durable session to its account
    (crates/ton-connect-core/src/session_state.rs and http_session.rs). *)

From stdpp Require Import base numbers list option strings sorting.
From S2P Require Import Prelude BoundaryTypes Json.

(** ** Request identifiers *)

Record RpcRequestId := mkRpcRequestId { rpc_str : rstr }.

Inductive SessionStateError :=
  | InvalidRequestId
  | RequestIdNotIncreasing
  | SessionNotConnected
  | InvalidEventTransition
  | EventIdExhausted.

(** [str::trim_start_matches('0')]. *)
Definition trim_zeroes (value : rstr) : rstr := drop_while (fun c => (c =? 48)%N) value.

Definition rpc_from_str (value : rstr) : result SessionStateError RpcRequestId :=
  if is_empty value || negb (forallb is_ascii_digit (utf8 value)) then Err InvalidRequestId
  else
    let without_zeroes := trim_zeroes value in
    Ok (mkRpcRequestId (if is_empty without_zeroes then lit "0" else without_zeroes)).

(** [str::cmp]: lexicographic on the bytes. *)
Fixpoint bytes_cmp (a b : bytes) : comparison :=
  match a, b with
  | [], [] => Eq
  | [], _ :: _ => Lt
  | _ :: _, [] => Gt
  | x :: a, y :: b =>
      match (x ?= y)%N with Eq => bytes_cmp a b | order => order end
  end.

(** [Ord for RpcRequestId]: by length in bytes, then lexicographic. *)
Definition rpc_cmp (a b : RpcRequestId) : comparison :=
  let a := utf8 (rpc_str a) in
  let b := utf8 (rpc_str b) in
  match Nat.compare (length a) (length b) with Eq => bytes_cmp a b | order => order end.

Definition rpc_le (a b : RpcRequestId) : bool :=
  match rpc_cmp a b with Gt => false | _ => true end.

(** ** The wallet side *)

Inductive WalletSessionPhase := PendingConnect | Connected | Disconnected.

#[export] Instance WalletSessionPhase_eq_dec : EqDecision WalletSessionPhase.
Proof. solve_decision. Defined.

Inductive WalletEventKind := Kind_Connect | Kind_ConnectError | Kind_Disconnect.

Record WalletSessionState := mkWalletSessionState {
  wss_phase : WalletSessionPhase;
  wss_last_request_id : option RpcRequestId;
  wss_last_event_id : option N;
}.

#[export] Instance eta_WalletSessionState : Eta WalletSessionState := fun s =>
  mkWalletSessionState (wss_phase s) (wss_last_request_id s) (wss_last_event_id s).

Definition pending_connect : WalletSessionState := mkWalletSessionState PendingConnect None None.

Record PreparedWalletEvent := mkPreparedWalletEvent {
  pwe_id : N;
  pwe_next_state : WalletSessionState;
}.

Record PreparedAppRequest := mkPreparedAppRequest {
  par_request_id : RpcRequestId;
  par_closes_session : bool;
  par_next_state : WalletSessionState;
}.

Record AppRequest := mkAppRequest {
  ar_method : rstr;
  ar_params : list rstr;
  ar_id : rstr;
}.

Definition next_phase (phase : WalletSessionPhase) (kind : WalletEventKind)
  : result SessionStateError WalletSessionPhase :=
  match phase, kind with
  | PendingConnect, Kind_Connect => Ok Connected
  | PendingConnect, Kind_ConnectError | Connected, Kind_Disconnect => Ok Disconnected
  | _, _ => Err InvalidEventTransition
  end.

Definition prepare_event (s : WalletSessionState) (kind : WalletEventKind)
  : result SessionStateError PreparedWalletEvent :=
  let? phase := next_phase (wss_phase s) kind in
  let? id :=
    match wss_last_event_id s with
    | Some previous => ok_or EventIdExhausted (checked_add u64_max previous 1)
    | None => Ok 0%N
    end in
  Ok (mkPreparedWalletEvent id (s <| wss_phase := phase |> <| wss_last_event_id := Some id |>)).

Definition prepare_request (s : WalletSessionState) (request : AppRequest)
  : result SessionStateError PreparedAppRequest :=
  if negb (bool_decide (wss_phase s = Connected)) then Err SessionNotConnected
  else
    let? request_id := rpc_from_str (ar_id request) in
    if match wss_last_request_id s with Some last => rpc_le request_id last | None => false end
    then Err RequestIdNotIncreasing
    else
      let closes_session :=
        bool_decide (ar_method request = lit "disconnect") && is_empty (ar_params request) in
      let next := s <| wss_last_request_id := Some request_id |> in
      Ok (mkPreparedAppRequest request_id closes_session
            (if closes_session then next <| wss_phase := Disconnected |> else next)).

(** ** The durable form *)

(** A unit variant: its name, or an object with the name and [null]. *)
Definition unit_variant (v : Value) : option rstr :=
  match v with
  | Str name | Object [(name, Null)] => Some name
  | _ => None
  end.

Definition phase_text (phase : WalletSessionPhase) : rstr :=
  match phase with
  | PendingConnect => lit "pending_connect"
  | Connected => lit "connected"
  | Disconnected => lit "disconnected"
  end.

Definition decode_phase (v : Value) : option WalletSessionPhase :=
  unit_variant v ≫= fun name =>
  List.find (fun phase => bool_decide (phase_text phase = name))
    [PendingConnect; Connected; Disconnected].

Definition decode_rpc_request_id (v : Value) : option RpcRequestId :=
  as_str v ≫= fun s => match rpc_from_str s with Ok id => Some id | Err _ => None end.

(** [#[serde(deny_unknown_fields)]]. *)
Definition known_members (names : list string) (v : Value) : bool :=
  match v with
  | Object fields => forallb (fun field => bool_decide (field.1 ∈ map lit names)) fields
  | _ => true
  end.

Definition session_fields : list string := ["phase"; "last_request_id"; "last_event_id"]%string.

(** [RawWalletSessionState]. *)
Definition decode_raw_session (v : Value) : option WalletSessionState :=
  if negb (known_members session_fields v) then None
  else
    match struct_members session_fields v with
    | Some (shape, [phase; last_request_id; last_event_id]) =>
        phase ← required decode_phase phase;
        last_request_id ← optional decode_rpc_request_id shape last_request_id;
        last_event_id ← optional as_u64 shape last_event_id;
        Some (mkWalletSessionState phase last_request_id last_event_id)
    | _ => None
    end.

Definition is_none {A} (o : option A) : bool := match o with None => true | Some _ => false end.

(** The lifecycle check of [Deserialize for WalletSessionState]. *)
Definition valid_session (raw : WalletSessionState) : bool :=
  match wss_phase raw with
  | PendingConnect => is_none (wss_last_request_id raw) && is_none (wss_last_event_id raw)
  | Connected | Disconnected => negb (is_none (wss_last_event_id raw))
  end.

Definition decode_session (v : Value) : option WalletSessionState :=
  raw ← decode_raw_session v; if valid_session raw then Some raw else None.

Definition nullable_to_value {A} (to_value : A -> Value) (o : option A) : Value :=
  match o with Some a => to_value a | None => Null end.

(** Derived [Serialize]. *)
Definition session_to_value (s : WalletSessionState) : Value :=
  object [("phase", Str (phase_text (wss_phase s)));
          ("last_request_id",
            nullable_to_value (fun id => Str (rpc_str id)) (wss_last_request_id s));
          ("last_event_id", nullable_to_value (fun n => Num (PosInt n)) (wss_last_event_id s))].

(** ** The dApp side *)

(** A wallet event; the payloads play no part in the cursor. *)
Inductive ConnectEvent (Payload Response Failure : Type) :=
  | Event_Connect (id : N) (payload : Payload) (response : option Response)
  | Event_ConnectError (id : N) (payload : Failure)
  | Event_Disconnect (id : N).
Arguments Event_Connect {_ _ _} id payload response.
Arguments Event_ConnectError {_ _ _} id payload.
Arguments Event_Disconnect {_ _ _} id.

Record WalletEventCursor := mkWalletEventCursor {
  wec_last_event_id : option N;
  wec_terminated : bool;
}.

Inductive WalletEventCursorError := EventIdNotIncreasing | SessionTerminated.

Section Cursor.
Context {Payload Response Failure : Type}.

Definition event_id (event : ConnectEvent Payload Response Failure) : N :=
  match event with
  | Event_Connect id _ _ | Event_ConnectError id _ | Event_Disconnect id => id
  end.

Definition terminates_session (event : ConnectEvent Payload Response Failure) : bool :=
  match event with Event_ConnectError _ _ | Event_Disconnect _ => true | _ => false end.

(** [WalletEventCursor::prepare_event]; the receipt is the event identifier and
    the next cursor. *)
Definition receive_event (cursor : WalletEventCursor)
    (event : ConnectEvent Payload Response Failure)
  : result WalletEventCursorError (N * WalletEventCursor) :=
  if wec_terminated cursor then Err SessionTerminated
  else
    let id := event_id event in
    if match wec_last_event_id cursor with Some last => (id <=? last)%N | None => false end
    then Err EventIdNotIncreasing
    else Ok (id, mkWalletEventCursor (Some id) (terminates_session event)).
End Cursor.

Definition cursor_default : WalletEventCursor := mkWalletEventCursor None false.

(** * What TON Connect sessions guarantee

    Request identifiers are compared as the numbers they denote; along every run of
    a session, requests are accepted at most once and in order, events are numbered
    from zero, and the life cycle is respected; the durable form restores every
    reachable state; the cursor of the dApp accepts exactly what the wallet emits. *)

(** ** Digit texts *)

Lemma lor_left_bound a b k : (2 ^ k <= a)%N -> (2 ^ k <= N.lor a b)%N.
Proof.
  intros Ha. assert (0 < 2 ^ k)%N by (apply N.neq_0_lt_0, N.pow_nonzero; lia).
  assert (N.lor a b <> 0)%N as Hn by (intros E%N.lor_eq_0_l; lia).
  apply N.log2_le_pow2; [lia|]. rewrite N.log2_lor.
  assert (k <= N.log2 a)%N by (apply N.log2_le_pow2; lia). lia.
Qed.

(** Only ASCII characters have ASCII bytes. *)
Section Ascii.
Context (p : N -> bool) (p_ascii : forall b, p b = true -> (b < 128)%N).

Lemma utf8_char_ascii c : forallb p (utf8_char c) = true -> utf8_char c = [c] /\ p c = true.
Proof.
  unfold utf8_char. destruct (N.ltb_spec c 128) as [Hc|Hc].
  - simpl. rewrite andb_true_r. done.
  - assert (forall a b rest, (128 <= a)%N -> forallb p (N.lor a b :: rest) = true -> False) as Hno.
    { intros a b rest Ha Hd. simpl in Hd. apply andb_true_iff in Hd as [Hd%p_ascii _].
      pose proof (lor_left_bound a b 7 Ha). simpl in *. lia. }
    destruct (c <? 2048)%N; [|destruct (c <? 65536)%N]; intros []%Hno; lia.
Qed.

Lemma utf8_of_ascii s : forallb p (utf8 s) = true -> utf8 s = s /\ forallb p s = true.
Proof.
  induction s as [|c s IH]; [done|]. unfold utf8 in *. cbn [flat_map]. rewrite forallb_app.
  intros [Hc Hs]%andb_true_iff. apply utf8_char_ascii in Hc as [-> Hc].
  destruct (IH Hs) as [-> Hd]. simpl. by rewrite Hc.
Qed.
End Ascii.

Lemma utf8_digits s :
  forallb is_ascii_digit (utf8 s) = true -> utf8 s = s /\ forallb is_ascii_digit s = true.
Proof. apply utf8_of_ascii. intros b Hb%is_ascii_digit_spec. lia. Qed.

Lemma digits_utf8 s : forallb is_ascii_digit s = true -> utf8 s = s.
Proof.
  induction s as [|c s IH]; [done|]. simpl. intros [Hc Hs]%andb_true_iff.
  rewrite (IH Hs). unfold utf8_char. apply is_ascii_digit_spec in Hc.
  destruct (N.ltb_spec c 128); [done|lia].
Qed.

Lemma dec_value_cons c s :
  dec_value (c :: s) = ((c - 48) * 10 ^ N.of_nat (length s) + dec_value s)%N.
Proof.
  induction s as [|d s IH] using rev_ind; [unfold dec_value; simpl; lia|].
  rewrite app_comm_cons, !dec_value_app, IH, length_app. simpl length.
  rewrite Nat.add_1_r, Nat2N.inj_succ, N.pow_succ_r'. lia.
Qed.

Lemma trim_zeroes_digits s :
  forallb is_ascii_digit s = true ->
  forallb is_ascii_digit (trim_zeroes s) = true /\ dec_value (trim_zeroes s) = dec_value s.
Proof.
  induction s as [|c s IH]; [done|]. simpl. intros [Hc Hs]%andb_true_iff.
  unfold trim_zeroes in *. simpl. destruct (N.eqb_spec c 48) as [->|Hn].
  - destruct (IH Hs) as [Hd ->]. split; [done|]. rewrite dec_value_cons. lia.
  - simpl. by rewrite Hc.
Qed.

(** What [from_str] accepts, and the canonical text it keeps. *)
Lemma rpc_from_str_spec value id :
  rpc_from_str value = Ok id <->
  value <> [] /\ forallb is_ascii_digit value = true /\
  is_canonical_unsigned_decimal (rpc_str id) = true /\ dec_value (rpc_str id) = dec_value value.
Proof.
  unfold rpc_from_str.
  assert (forall v, v <> [] -> forallb is_ascii_digit v = true ->
    let t := if is_empty (trim_zeroes v) then lit "0" else trim_zeroes v in
    is_canonical_unsigned_decimal t = true /\ dec_value t = dec_value v) as Hcanon.
  { intros v Hv Hd. destruct (trim_zeroes_digits v Hd) as [Ht Hval]. cbv zeta.
    destruct (trim_zeroes v) as [|c t] eqn:E; simpl is_empty; [by rewrite <- Hval|].
    split; [|done]. apply canonical_spec. split; [done|]. exists c, t. split; [done|].
    intros ->. apply drop_while_head in E. done. }
  split.
  - destruct value as [|c s] eqn:Ev; [done|]. simpl is_empty. rewrite orb_false_l, <- Ev.
    destruct (forallb is_ascii_digit (utf8 value)) eqn:Hd; [|done]. simpl. intros [= <-].
    apply utf8_digits in Hd as [_ Hd]. split; [by subst|]. split; [done|].
    apply Hcanon; [by subst|done].
  - intros (Hne & Hd & Hc & Hv). rewrite digits_utf8, Hd by done.
    destruct value as [|c s] eqn:Ev; [done|]. simpl is_empty. cbn [orb negb]. rewrite <- Ev in *.
    destruct (Hcanon value Hne Hd) as [Hc' Hv']. cbv zeta in *. f_equal. destruct id as [t].
    f_equal. apply canonical_value_inj; [done|done|]. by rewrite Hv'.
Qed.

Lemma bytes_cmp_digits a b :
  length a = length b -> forallb is_ascii_digit a = true -> forallb is_ascii_digit b = true ->
  bytes_cmp a b = (dec_value a ?= dec_value b)%N.
Proof.
  revert b. induction a as [|x a IH]; intros [|y b] Hl Ha Hb; try done.
  injection Hl as Hl. simpl in Ha, Hb. apply andb_true_iff in Ha as [Hx Ha], Hb as [Hy Hb].
  cbn [bytes_cmp]. rewrite (IH b Hl Ha Hb), !dec_value_cons, Hl.
  apply is_ascii_digit_spec in Hx, Hy.
  pose proof (dec_value_bound a Ha) as Ba. pose proof (dec_value_bound b Hb) as Bb.
  rewrite Hl in Ba. set (p := (10 ^ N.of_nat (length b))%N) in *.
  destruct (N.compare_spec x y) as [->|Hxy|Hxy].
  - symmetry. destruct (N.compare_spec (dec_value a) (dec_value b)) as [->|H|H].
    + apply N.compare_refl.
    + apply N.compare_lt_iff. lia.
    + apply N.compare_gt_iff. lia.
  - symmetry. apply N.compare_lt_iff. nia.
  - symmetry. apply N.compare_gt_iff. nia.
Qed.

Definition rpc_number (id : RpcRequestId) : N := dec_value (rpc_str id).

(** Order and number agree on canonical texts. *)
Lemma rpc_cmp_number a b :
  is_canonical_unsigned_decimal (rpc_str a) = true ->
  is_canonical_unsigned_decimal (rpc_str b) = true ->
  rpc_cmp a b = (rpc_number a ?= rpc_number b)%N.
Proof.
  unfold rpc_cmp, rpc_number. destruct a as [a], b as [b]. cbn [rpc_str].
  intros (Ha & x & a' & -> & Hx)%canonical_spec (Hb & y & b' & -> & Hy)%canonical_spec.
  rewrite !digits_utf8 by done.
  pose proof (dec_value_bound _ Ha) as Ba. pose proof (dec_value_bound _ Hb) as Bb.
  assert (forall c u (v : rstr), forallb is_ascii_digit (c :: u) = true -> (c = 48%N -> u = []) ->
    length v < length (c :: u) -> v <> [] ->
    (10 ^ N.of_nat (length v) <= dec_value (c :: u))%N) as Hlow.
  { intros c u v Hd Hc Hl Hv. destruct v as [|v0 v]; [done|]. simpl in Hl.
    assert (c <> 48%N) by (intros E; specialize (Hc E); subst u; simpl in Hl; lia).
    transitivity (10 ^ N.of_nat (length u))%N; [|by apply dec_value_lower].
    apply N.pow_le_mono_r; simpl; lia. }
  destruct (Nat.compare_spec (length (x :: a')) (length (y :: b'))) as [Hl|Hl|Hl].
  - by apply bytes_cmp_digits.
  - symmetry. apply N.compare_lt_iff.
    pose proof (Hlow y b' (x :: a') Hb Hy Hl (ltac:(done))). lia.
  - symmetry. apply N.compare_gt_iff.
    pose proof (Hlow x a' (y :: b') Ha Hx Hl (ltac:(done))). lia.
Qed.

(** ** Runs of a session *)

Inductive Label :=
  | Emitted (kind : WalletEventKind) (id : N)
  | Accepted (request : AppRequest) (number : N) (closes : bool).

(** One transition whose next state became durable. *)
Inductive session_step : WalletSessionState -> Label -> WalletSessionState -> Prop :=
  | step_event s kind prepared :
      prepare_event s kind = Ok prepared ->
      session_step s (Emitted kind (pwe_id prepared)) (pwe_next_state prepared)
  | step_request s request prepared :
      prepare_request s request = Ok prepared ->
      session_step s
        (Accepted request (rpc_number (par_request_id prepared)) (par_closes_session prepared))
        (par_next_state prepared).

Inductive session_run : list Label -> WalletSessionState -> Prop :=
  | run_start : session_run [] pending_connect
  | run_step labels s label s' :
      session_run labels s -> session_step s label s' -> session_run (labels ++ [label]) s'.

Definition request_numbers (labels : list Label) : list N :=
  flat_map (fun l => match l with Accepted _ n _ => [n] | Emitted _ _ => [] end) labels.

Definition event_ids (labels : list Label) : list N :=
  flat_map (fun l => match l with Emitted _ id => [id] | Accepted _ _ _ => [] end) labels.

Definition open_request (l : Label) : Prop :=
  exists request n, l = Accepted request n false.

(** The label that ends a connected session. *)
Definition closing (l : Label) : Prop :=
  l = Emitted Kind_Disconnect 1 \/ exists request n, l = Accepted request n true.

(** The labels of a session in each phase. *)
Definition lifecycle (phase : WalletSessionPhase) (labels : list Label) : Prop :=
  match phase with
  | PendingConnect => labels = []
  | Connected =>
      exists requests, labels = Emitted Kind_Connect 0 :: requests /\ Forall open_request requests
  | Disconnected =>
      labels = [Emitted Kind_ConnectError 0] \/
      exists requests l, labels = Emitted Kind_Connect 0 :: requests ++ [l] /\
        Forall open_request requests /\ closing l
  end.

Definition below (last : option RpcRequestId) (numbers : list N) : Prop :=
  match last with
  | Some id => exists before, numbers = before ++ [rpc_number id] /\
      is_canonical_unsigned_decimal (rpc_str id) = true
  | None => numbers = []
  end.

Record run_inv (labels : list Label) (s : WalletSessionState) : Prop := {
  ri_lifecycle : lifecycle (wss_phase s) labels;
  ri_last_request : below (wss_last_request_id s) (request_numbers labels);
  ri_sorted : StronglySorted N.lt (request_numbers labels);
  ri_last_event :
    wss_last_event_id s =
      match event_ids labels with [] => None | ids => Some (N.of_nat (length ids) - 1)%N end;
  ri_few_events : length (event_ids labels) <= 2;
}.

Lemma request_numbers_app a b : request_numbers (a ++ b) = request_numbers a ++ request_numbers b.
Proof. apply flat_map_app. Qed.

Lemma event_ids_app a b : event_ids (a ++ b) = event_ids a ++ event_ids b.
Proof. apply flat_map_app. Qed.

Lemma open_requests_no_events labels : Forall open_request labels -> event_ids labels = [].
Proof. induction 1 as [|l labels (r & n & ->) _ IH]; [done|exact IH]. Qed.

Lemma sorted_snoc (l : list N) x :
  StronglySorted N.lt l -> (forall y, list.last l = Some y -> (y < x)%N) ->
  StronglySorted N.lt (l ++ [x]).
Proof.
  intros Hl Hx. induction Hl as [|a l Hl IH Ha]; [repeat constructor|].
  simpl. constructor.
  - apply IH. intros y Hy. apply Hx. destruct l; [done|exact Hy].
  - apply Forall_app. split; [done|]. constructor; [|done].
    destruct (list.last l) as [y|] eqn:E.
    + assert (y < x)%N by (apply Hx; destruct l; [done|exact E]).
      apply last_Some in E as [l' ->]. apply Forall_app in Ha as [_ Ha].
      apply Forall_cons_1 in Ha as [Ha _]. lia.
    + apply last_None in E as ->. by apply Hx.
Qed.

Lemma run_inv_event labels s kind prepared :
  run_inv labels s -> prepare_event s kind = Ok prepared ->
  run_inv (labels ++ [Emitted kind (pwe_id prepared)]) (pwe_next_state prepared) /\
  pwe_id prepared = N.of_nat (length (event_ids labels)).
Proof.
  intros [Hlife Hlast Hsort Hev Hfew]. unfold prepare_event.
  intros (phase & Hphase & (id & Hid & [= <-])%rbind_ok)%rbind_ok. cbn [pwe_id pwe_next_state].
  assert (id = N.of_nat (length (event_ids labels))) as ->.
  { rewrite Hev in Hid. destruct (event_ids labels) as [|e ids]; [by injection Hid as <-|].
    apply ok_or_ok, checked_add_Some in Hid as [-> _]. simpl. lia. }
  split; [|done]. clear Hid Hev Hfew.
  constructor; cbn [wss_phase wss_last_request_id wss_last_event_id update eta_expand
    eta_WalletSessionState].
  - unfold next_phase in Hphase.
    destruct (wss_phase s), kind; simplify_eq; simpl in Hlife |- *; subst.
    + by exists [].
    + by left.
    + destruct Hlife as (requests & -> & Hr). right. exists requests, (Emitted Kind_Disconnect 1).
      simpl. rewrite open_requests_no_events by done. split; [done|]. split; [done|by left].
  - rewrite request_numbers_app. simpl. by rewrite app_nil_r.
  - rewrite request_numbers_app. simpl. by rewrite app_nil_r.
  - rewrite event_ids_app. destruct (event_ids labels) as [|e ids]; [done|].
    cbn [app event_ids flat_map]. f_equal. cbn [length]. rewrite length_app. simpl. lia.
  - rewrite event_ids_app, length_app. simpl.
    unfold next_phase in Hphase. destruct (wss_phase s), kind; simplify_eq; simpl in Hlife; subst;
      simpl; [lia|lia|].
    destruct Hlife as (requests & -> & Hr). simpl. rewrite open_requests_no_events by done.
    simpl. lia.
Qed.

Lemma run_inv_request labels s request prepared :
  run_inv labels s -> prepare_request s request = Ok prepared ->
  run_inv (labels ++ [Accepted request (rpc_number (par_request_id prepared))
                        (par_closes_session prepared)]) (par_next_state prepared).
Proof.
  intros [Hlife Hlast Hsort Hev Hfew]. unfold prepare_request.
  intros [Hphase Hk]%if_err_ok. apply negb_false_iff, bool_decide_eq_true in Hphase.
  apply rbind_ok in Hk as (id & Hid & Hk). apply if_err_ok in Hk as [Hnew [= <-]].
  cbn [par_request_id par_closes_session par_next_state].
  apply rpc_from_str_spec in Hid as (_ & _ & Hcanon & _).
  rewrite Hphase in Hlife. destruct Hlife as (requests & -> & Hopen).
  set (numbers := request_numbers (Emitted Kind_Connect 0 :: requests)) in *.
  assert (forall n closes, event_ids ((Emitted Kind_Connect 0 :: requests) ++ [Accepted request n closes])
    = [0%N]) as Hids by (intros; simpl; rewrite event_ids_app, open_requests_no_events by done; done).
  assert (StronglySorted N.lt (numbers ++ [rpc_number id])) as Hsort'.
  { apply sorted_snoc; [done|]. intros y Hy. unfold below in Hlast.
    destruct (wss_last_request_id s) as [last|]; [|by rewrite Hlast in Hy].
    destruct Hlast as (before & E & Hc). rewrite E, last_snoc in Hy. injection Hy as <-.
    unfold rpc_le in Hnew. rewrite rpc_cmp_number in Hnew by done.
    by destruct (N.compare_spec (rpc_number id) (rpc_number last)). }
  set (closes := bool_decide _ && _) in *.
  constructor.
  - destruct closes; cbn [wss_phase update eta_expand eta_WalletSessionState].
    + simpl. right. exists requests, (Accepted request (rpc_number id) true).
      split; [done|]. split; [done|]. right. by eexists _, _.
    + rewrite Hphase. simpl. eexists. split; [done|]. apply Forall_app. split; [done|].
      constructor; [by eexists _, _|done].
  - rewrite request_numbers_app. fold numbers.
    assert (below (Some id) (numbers ++ [rpc_number id])) as Hb by (by exists numbers).
    by destruct closes.
  - by rewrite request_numbers_app.
  - rewrite Hids. cbn [length]. assert (wss_last_event_id s = Some 0%N) as E.
    { rewrite Hev. simpl. by rewrite open_requests_no_events. }
    by destruct closes.
  - rewrite Hids. simpl. lia.
Qed.

Lemma session_run_inv labels s : session_run labels s -> run_inv labels s.
Proof.
  induction 1 as [|labels s label s' _ IH Hstep].
  - constructor; simpl; [done|done|constructor|done|lia].
  - destruct Hstep as [s kind prepared Hp|s request prepared Hp].
    + apply (run_inv_event _ _ _ _ IH Hp).
    + apply (run_inv_request _ _ _ _ IH Hp).
Qed.

(** ** The durable form *)

Lemma rpc_from_str_canonical id :
  is_canonical_unsigned_decimal (rpc_str id) = true -> rpc_from_str (rpc_str id) = Ok id.
Proof.
  intros Hc. apply rpc_from_str_spec.
  pose proof (proj1 (canonical_spec _) Hc) as (Hd & c & t & E & _).
  split; [by rewrite E|]. by split.
Qed.

(** The states that a document can restore. *)
Definition restorable (s : WalletSessionState) : Prop :=
  valid_session s = true /\
  (forall id, wss_last_request_id s = Some id ->
     is_canonical_unsigned_decimal (rpc_str id) = true) /\
  (forall n, wss_last_event_id s = Some n -> (n <= u64_max)%N).

Lemma session_members (p r e : Value) :
  let v := object [("phase", p); ("last_request_id", r); ("last_event_id", e)] in
  known_members session_fields v = true /\
  struct_members session_fields v = Some (FromMap, [Some p; Some r; Some e]).
Proof. split; vm_compute; reflexivity. Qed.

Lemma decode_session_to_value s :
  restorable s -> decode_session (session_to_value s) = Some s.
Proof.
  intros (Hv & Hid & Hn). destruct s as [phase last_request last_event].
  unfold decode_session, decode_raw_session, session_to_value.
  cbn [wss_phase wss_last_request_id wss_last_event_id] in *.
  set (r := nullable_to_value _ last_request). set (e := nullable_to_value _ last_event).
  assert (required decode_phase (Some (Str (phase_text phase))) = Some phase) as Hp
    by (destruct phase; reflexivity).
  assert (forall shape, optional decode_rpc_request_id shape (Some r) = Some last_request) as Hr.
  { intros shape. destruct last_request as [id|]; [|done]. unfold optional, nullable, r, decode_rpc_request_id.
    cbn [nullable_to_value is_null as_str mbind option_bind].
    by rewrite rpc_from_str_canonical by (by apply Hid). }
  assert (forall shape, optional as_u64 shape (Some e) = Some last_event) as He.
  { intros shape. destruct last_event as [n|]; [|done]. unfold optional, nullable, e, as_u64.
    cbn [nullable_to_value is_null].
    specialize (Hn n eq_refl). by destruct (N.leb_spec n u64_max); [|lia]. }
  destruct (session_members (Str (phase_text phase)) r e) as [-> ->]. cbn [negb].
  rewrite Hp. cbn [mbind option_bind]. rewrite Hr. cbn [mbind option_bind]. rewrite He.
  cbn [mbind option_bind]. by rewrite Hv.
Qed.

Lemma session_run_restorable labels s : session_run labels s -> restorable s.
Proof.
  intros [Hlife Hlast _ Hev Hfew]%session_run_inv. split; [|split].
  - unfold valid_session. destruct (wss_phase s); simpl in Hlife.
    + subst. unfold below in Hlast. simpl in *. rewrite Hev.
      by destruct (wss_last_request_id s) as [id|]; [destruct Hlast as ([] & ? & _)|].
    + destruct Hlife as (requests & -> & _). by rewrite Hev.
    + destruct Hlife as [->|(requests & l & -> & _)]; by rewrite Hev.
  - intros id E. rewrite E in Hlast. by destruct Hlast as (? & _ & ?).
  - intros n E. rewrite E in Hev. destruct (event_ids labels); [done|].
    injection Hev as ->. cbn [length] in *. unfold u64_max. lia.
Qed.

(** ** Claims *)

(** Request identifiers are compared as the unsigned numbers that their texts
    denote, of any size and with any leading zeroes: order and equality of the
    parsed identifiers are those of the numbers. *)
Theorem request_ids_compare_as_numbers a b ida idb :
  rpc_from_str a = Ok ida -> rpc_from_str b = Ok idb ->
  rpc_cmp ida idb = (dec_value a ?= dec_value b)%N /\
  (ida = idb <-> dec_value a = dec_value b).
Proof.
  intros (_ & _ & Ha & Va)%rpc_from_str_spec (_ & _ & Hb & Vb)%rpc_from_str_spec. split.
  - rewrite rpc_cmp_number by done. unfold rpc_number. by rewrite Va, Vb.
  - rewrite <- Va, <- Vb. split; [by intros ->|]. intros E.
    destruct ida as [sa], idb as [sb]. f_equal. by apply canonical_value_inj.
Qed.

(** Replay protection.  Along every run of a session from its connect request,
    the accepted requests carry strictly increasing numbers, events are numbered 0,
    1 without gaps, the session starts with exactly one connect result, accepts
    requests only between a successful connect and the first disconnect of either
    side, and does nothing after that. *)
Theorem session_runs_in_order labels s :
  session_run labels s ->
  lifecycle (wss_phase s) labels /\
  StronglySorted N.lt (request_numbers labels) /\
  (exists n, event_ids labels = map N.of_nat (seq 0 n)).
Proof.
  intros [Hlife _ Hsort _ _]%session_run_inv. split; [done|]. split; [done|].
  destruct (wss_phase s); simpl in Hlife.
  - subst. by exists 0.
  - destruct Hlife as (requests & -> & Hr). exists 1. simpl. by rewrite open_requests_no_events.
  - destruct Hlife as [->|(requests & l & -> & Hr & [->|(request & n & ->)])]; [by exists 1| |];
      simpl; rewrite event_ids_app, open_requests_no_events by done; [by exists 2|by exists 1].
Qed.

(** C29: a session never gets stuck: a pending one can finish with either connect
    result, a connected one accepts every request with a number above the accepted
    ones and can always emit its disconnect event, and a restart that reads the
    durable form back continues in the same state. *)
Theorem session_progress labels s :
  session_run labels s ->
  (wss_phase s = PendingConnect ->
   is_ok (prepare_event s Kind_Connect) = true /\
   is_ok (prepare_event s Kind_ConnectError) = true) /\
  (wss_phase s = Connected ->
   is_ok (prepare_event s Kind_Disconnect) = true /\
   forall request, ar_id request <> [] -> forallb is_ascii_digit (ar_id request) = true ->
     Forall (fun n => n < dec_value (ar_id request))%N (request_numbers labels) ->
     is_ok (prepare_request s request) = true) /\
  decode_session (session_to_value s) = Some s.
Proof.
  intros Hrun. split; [|split; [|by eapply decode_session_to_value, session_run_restorable]].
  - intros Hp. pose proof (session_run_inv _ _ Hrun) as [Hlife _ _ Hev _].
    rewrite Hp in Hlife. simpl in Hlife. subst. unfold prepare_event. by rewrite Hp, Hev.
  - intros Hp. pose proof (session_run_inv _ _ Hrun) as [Hlife Hlast _ Hev _]. split.
    + unfold prepare_event. rewrite Hp, Hev. rewrite Hp in Hlife.
      destruct Hlife as (requests & -> & Hr). simpl. by rewrite open_requests_no_events.
    + intros request Hne Hd Hall. unfold prepare_request.
      rewrite Hp, bool_decide_eq_true_2 by done. cbn [negb].
      destruct (rpc_from_str (ar_id request)) as [id|] eqn:E.
      * simpl. pose proof (proj1 (rpc_from_str_spec _ _) E) as (_ & _ & Hc & Hv).
        unfold below in Hlast. destruct (wss_last_request_id s) as [last|]; [|done].
        destruct Hlast as (before & Hn & Hcl). rewrite Hn in Hall.
        apply Forall_app in Hall as [_ Hall]. apply Forall_cons_1 in Hall as [Hlt _].
        unfold rpc_le. rewrite rpc_cmp_number by done. unfold rpc_number in *. rewrite Hv.
        by rewrite (proj2 (N.compare_gt_iff _ _) Hlt).
      * unfold rpc_from_str in E. rewrite digits_utf8, Hd in E by done. by destruct (ar_id request).
Qed.

(** The events of the wallet side as the dApp receives them. *)
Definition matches {Payload Response Failure} (l : Label)
    (event : ConnectEvent Payload Response Failure) : Prop :=
  match l, event with
  | Emitted Kind_Connect id, Event_Connect id' _ _
  | Emitted Kind_ConnectError id, Event_ConnectError id' _
  | Emitted Kind_Disconnect id, Event_Disconnect id' => id = id'
  | _, _ => False
  end.

Definition is_event (l : Label) : bool := match l with Emitted _ _ => true | _ => false end.

(** Events delivered in order to a fresh cursor. *)
Fixpoint deliver {Payload Response Failure} (cursor : WalletEventCursor)
    (events : list (ConnectEvent Payload Response Failure))
  : result WalletEventCursorError WalletEventCursor :=
  match events with
  | [] => Ok cursor
  | event :: events => let? received := receive_event cursor event in deliver received.2 events
  end.

Lemma open_requests_filtered labels :
  Forall open_request labels -> List.filter is_event labels = [].
Proof. induction 1 as [|l labels (r & n & ->) _ IH]; [done|exact IH]. Qed.

Lemma session_events requests tail :
  Forall open_request requests ->
  List.filter is_event (Emitted Kind_Connect 0 :: requests ++ tail) =
    Emitted Kind_Connect 0 :: List.filter is_event tail.
Proof. intros Hr. simpl. by rewrite List.filter_app, open_requests_filtered. Qed.

Section Deliver.
Context {Payload Response Failure : Type}.
Implicit Types event : ConnectEvent Payload Response Failure.

Lemma matches_event kind id event :
  matches (Emitted kind id) event ->
  event_id event = id /\
  terminates_session event = match kind with Kind_Connect => false | _ => true end.
Proof. by destruct kind, event; simpl; intros Hm; subst. Qed.

(** The four sequences of events that a session can emit. *)
Lemma session_emits labels s (events : list (ConnectEvent Payload Response Failure)) :
  session_run labels s -> Forall2 matches (List.filter is_event labels) events ->
  events = [] \/
  (exists e1 terminal, events = [e1] /\ event_id e1 = 0%N /\ terminates_session e1 = terminal) \/
  (exists e1 e2, events = [e1; e2] /\ event_id e1 = 0%N /\ terminates_session e1 = false /\
    event_id e2 = 1%N /\ terminates_session e2 = true).
Proof.
  intros [Hlife _ _ _ _]%session_run_inv Hm.
  assert (forall kind, List.filter is_event labels = [Emitted kind 0] ->
    exists e1 terminal, events = [e1] /\ event_id e1 = 0%N /\ terminates_session e1 = terminal)
    as Hone.
  { intros kind E. rewrite E in Hm. inversion Hm as [|? e1 ? ? He1 Hrest]; subst.
    inversion Hrest; subst. apply matches_event in He1 as [Hi Ht]. by exists e1, (terminates_session e1). }
  destruct (wss_phase s); simpl in Hlife.
  - subst. inversion Hm; subst. by left.
  - destruct Hlife as (requests & E & Hr). right. left. apply (Hone Kind_Connect).
    rewrite E, <- (app_nil_r requests). by rewrite session_events.
  - destruct Hlife as [E|(requests & l & E & Hr & [->|(request & n & ->)])].
    + right. left. apply (Hone Kind_ConnectError). by rewrite E.
    + right. right. rewrite E, session_events in Hm by done. simpl in Hm.
      inversion Hm as [|? e1 ? ? He1 Hrest]; subst. inversion Hrest as [|? e2 ? ? He2 Hnil]; subst.
      inversion Hnil; subst. apply matches_event in He1 as [? ?], He2 as [? ?]. by exists e1, e2.
    + right. left. apply (Hone Kind_Connect). rewrite E. by rewrite session_events.
Qed.

(** Both sides agree on events: what the wallet emits along any run, delivered
    in order to a fresh cursor of the dApp, is accepted completely, and every event
    delivered a second time is rejected. *)
Theorem dapp_accepts_wallet_events labels s
    (events : list (ConnectEvent Payload Response Failure)) :
  session_run labels s -> Forall2 matches (List.filter is_event labels) events ->
  exists cursor, deliver cursor_default events = Ok cursor /\
    Forall (fun event => is_ok (receive_event cursor event) = false) events.
Proof.
  intros Hrun Hm. unfold deliver, receive_event, cursor_default.
  destruct (session_emits _ _ _ Hrun Hm)
    as [->|[(e1 & terminal & -> & Hi & Ht)|(e1 & e2 & -> & Hi & Ht & Hi2 & Ht2)]].
  - by eexists.
  - simpl. rewrite Hi, Ht. eexists. split; [done|]. constructor; [|done]. simpl. rewrite Hi.
    by destruct terminal.
  - simpl. rewrite Hi, Ht. simpl. rewrite Hi2, Ht2. eexists. split; [done|].
    by repeat constructor.
Qed.
End Deliver.
