(* ===== verification/ConnectValues.v ===== *)
(** * TON Connect wire values

    The validated scalars of crates/ton-connect-core/src/value.rs.  The hex crate
    and the url crate are the classes [HexCrate] and [UrlCrate]; Base64 is the class
    of Base64.v. *)

From stdpp Require Import base numbers list option strings.
From S2P Require Import Prelude BoundaryTypes SendDomain Base64 Json CellBoc.

(** ** [String::from_utf8] *)

Definition continuation (byte : N) : bool := ((128 <=? byte) && (byte <=? 191))%N.

Definition within (low high byte : N) : bool := ((low <=? byte) && (byte <=? high))%N.

Fixpoint from_utf8 (data : bytes) : option rstr :=
  match data with
  | [] => Some []
  | b0 :: rest =>
      if (b0 <? 128)%N then cons b0 <$> from_utf8 rest
      else
        match rest with
        | b1 :: rest1 =>
            if within 194 223 b0 && continuation b1 then
              cons ((b0 - 192) * 64 + (b1 - 128))%N <$> from_utf8 rest1
            else
              match rest1 with
              | b2 :: rest2 =>
                  if within 224 239 b0 && continuation b2
                     && within (if b0 =? 224 then 160 else 128)%N
                               (if b0 =? 237 then 159 else 191)%N b1
                  then
                    cons ((b0 - 224) * 4096 + (b1 - 128) * 64 + (b2 - 128))%N
                      <$> from_utf8 rest2
                  else
                    match rest2 with
                    | b3 :: rest3 =>
                        if within 240 244 b0 && continuation b2 && continuation b3
                           && within (if b0 =? 240 then 144 else 128)%N
                                     (if b0 =? 244 then 143 else 191)%N b1
                        then
                          cons ((b0 - 240) * 262144 + (b1 - 128) * 4096 + (b2 - 128) * 64
                                + (b3 - 128))%N <$> from_utf8 rest3
                        else None
                    | [] => None
                    end
              | [] => None
              end
        | [] => None
        end
  end.

(** ** Errors *)

Inductive ValueError :=
  | InvalidClientId
  | InvalidNetworkId
  | InvalidDecimalString
  | InvalidUint64String
  | InvalidBase64
  | InvalidTraceId
  | InvalidHttpsUrl
  | EmptyArray.

Definition is_lower_hex (byte : N) : bool :=
  is_ascii_digit byte || ((97 <=? byte) && (byte <=? 102))%N.

(** [u8::is_ascii_hexdigit]. *)
Definition is_ascii_hexdigit (byte : N) : bool :=
  is_lower_hex byte || ((65 <=? byte) && (byte <=? 70))%N.

(** hex::encode writes two lowercase digits per byte; hex::decode_to_slice of 64
    digits fills 32 bytes. *)
Class HexCrate := {
  hex_encode : bytes -> rstr;
  hex_decode : rstr -> option bytes;
  hex_encode_length data : length (hex_encode data) = 2 * length data;
  hex_encode_lower data :
    Forall (fun b => b < 256)%N data -> forallb is_lower_hex (hex_encode data) = true;
  hex_decode_encode data :
    Forall (fun b => b < 256)%N data -> hex_decode (hex_encode data) = Some data;
  hex_encode_decode s data :
    forallb is_lower_hex s = true -> hex_decode s = Some data -> hex_encode data = s;
  hex_decode_bytes s data :
    hex_decode s = Some data ->
    length s = 2 * length data /\ Forall (fun b => b < 256)%N data;
}.

(** ** Client identifiers *)

Record ClientId := mkClientId { cid_bytes : bytes }.

#[export] Instance ClientId_eq_dec : EqDecision ClientId.
Proof. solve_decision. Defined.

Definition client_id_to_string `{HexCrate} (id : ClientId) : rstr := hex_encode (cid_bytes id).

Definition client_id_from_str `{HexCrate} (value : rstr) : result ValueError ClientId :=
  if negb (length (utf8 value) =? 64)%nat || negb (forallb is_lower_hex (utf8 value))
  then Err InvalidClientId
  else rmap mkClientId (ok_or InvalidClientId (hex_decode value)).

(** ** Validated strings *)

(** [value.strip_prefix('-').unwrap_or(value)]. *)
Definition valid_network_id (value : rstr) : bool :=
  let digits := default value (strip_prefix (lit "-") value) in
  negb (is_empty digits) && forallb is_ascii_digit (utf8 digits).

Definition valid_decimal (value : rstr) : bool :=
  negb (is_empty value) && forallb is_ascii_digit (utf8 value).

Definition ends_with (c : char) (value : rstr) : bool :=
  match list.last value with Some x => (x =? c)%N | None => false end.

Definition decode_base64 `{Base64Engine} (value : rstr) : result ValueError bytes :=
  let has_standard := contains 43%N (utf8 value) || contains 47%N (utf8 value) in
  let has_url_safe := contains 45%N (utf8 value) || contains 95%N (utf8 value) in
  if has_standard && has_url_safe then Err InvalidBase64
  else
    let padded := ends_with 61%N value in
    ok_or InvalidBase64
      match has_url_safe, padded with
      | true, true => url_safe_decode value
      | true, false => url_safe_no_pad_decode value
      | false, true => standard_decode value
      | false, false => standard_no_pad_decode value
      end.

Definition valid_base64 `{Base64Engine} (value : rstr) : bool := is_ok (decode_base64 value).

Definition valid_trace_part (expected : nat) (part : rstr) : bool :=
  (length (utf8 part) =? expected)%nat && forallb is_ascii_hexdigit (utf8 part).

Definition valid_trace_id (value : rstr) : bool :=
  match split_on 45%N value with
  | [a; b; c; d; e] =>
      valid_trace_part 8 a && valid_trace_part 4 b && valid_trace_part 4 c
      && valid_trace_part 4 d && valid_trace_part 12 e
  | _ => false
  end.

(** What the code asks of url::Url. *)
Class UrlCrate := {
  Url : Type;
  url_parse : rstr -> option Url;
  url_scheme : Url -> rstr;
  url_has_host : Url -> bool;
  url_host_str : Url -> option rstr;
  url_username : Url -> rstr;
  url_password : Url -> option rstr;
  url_port : Url -> option N;
  url_fragment : Url -> option rstr;
}.

Definition valid_https_url `{UrlCrate} (value : rstr) : bool :=
  match url_parse value with
  | Some url => bool_decide (url_scheme url = lit "https") && url_has_host url
  | None => false
  end.

(** [validated_string!]: the text itself, once the validator accepts it. *)
Definition validated_string (validator : rstr -> bool) (error : ValueError) (value : rstr)
  : result ValueError rstr :=
  if validator value then Ok value else Err error.

Definition network_id_try_from : rstr -> result ValueError rstr :=
  validated_string valid_network_id InvalidNetworkId.
Definition decimal_string_try_from : rstr -> result ValueError rstr :=
  validated_string valid_decimal InvalidDecimalString.
Definition base64_value_try_from `{Base64Engine} : rstr -> result ValueError rstr :=
  validated_string valid_base64 InvalidBase64.
Definition trace_id_try_from : rstr -> result ValueError rstr :=
  validated_string valid_trace_id InvalidTraceId.
Definition https_url_try_from `{UrlCrate} : rstr -> result ValueError rstr :=
  validated_string valid_https_url InvalidHttpsUrl.

(** ** Unsigned 64-bit decimal strings *)

Definition uint64_string_try_from (value : rstr) : result ValueError N :=
  match parse_uint 10 u64_max value with
  | Ok parsed =>
      if negb (bool_decide (u64_to_string parsed = value)) then Err InvalidUint64String
      else Ok parsed
  | Err _ => Err InvalidUint64String
  end.

(** [deserialize_u64_number_or_string]. *)
Definition decode_u64_number_or_string (v : Value) : option N :=
  match v with
  | Str s => match uint64_string_try_from s with Ok n => Some n | Err _ => None end
  | v => as_u64 v
  end.

(** ** Arrays with at least one element *)

Definition non_empty_vec_try_from {T} (values : list T) : result ValueError (list T) :=
  if is_empty values then Err EmptyArray else Ok values.

(** A field that can be absent but not [null]. *)
Definition optional_non_null {A} (decode : Value -> option A) (field : option Value)
  : option (option A) :=
  match field with Some v => Some <$> decode v | None => Some None end.

Definition result_ok {E A} (r : result E A) : option A :=
  match r with Ok a => Some a | Err _ => None end.

Definition decode_client_id `{HexCrate} (v : Value) : option ClientId :=
  as_str v ≫= fun s => result_ok (client_id_from_str s).

Definition decode_validated (try_from : rstr -> result ValueError rstr) (v : Value)
  : option rstr :=
  as_str v ≫= fun s => result_ok (try_from s).

(** ** Cells in Base64 (cell_boc.rs) *)

Inductive CellBocError := CellBoc_Base64 (error : ValueError) | CellBoc_InvalidBoc.

Record CellBoc := mkCellBoc { cb_encoded : rstr; cb_bytes : bytes }.

(** The parser of the ton_core crate, behind the validator. *)
Class TonCoreBoc := { ton_core_accepts : bytes -> bool }.

Definition parse_single_root `{Crc32c} `{TonCoreBoc} (data : bytes) : result CellBocError unit :=
  let? _ := map_err (fun _ => CellBoc_InvalidBoc) (validate_single_root_boc data) in
  if ton_core_accepts data then Ok tt else Err CellBoc_InvalidBoc.

Definition cell_boc_from_value `{Crc32c} `{TonCoreBoc} `{Base64Engine} (encoded : rstr)
  : result CellBocError CellBoc :=
  let? data := map_err CellBoc_Base64 (decode_base64 encoded) in
  let? _ := parse_single_root data in
  Ok (mkCellBoc encoded data).

Definition cell_boc_try_from `{Crc32c} `{TonCoreBoc} `{Base64Engine} (value : rstr)
  : result CellBocError CellBoc :=
  let? encoded := map_err CellBoc_Base64 (base64_value_try_from value) in
  cell_boc_from_value encoded.

(** ** Signed messages (src/types/boc.rs) *)

Inductive BocError := Boc_Base64 | Boc_Envelope (error : EnvelopeError) | Boc_Ton.

Definition boc_try_from_bytes `{Crc32c} `{TonCoreBoc} (data : bytes) : result BocError Boc :=
  let? _ := map_err Boc_Envelope (validate_single_root_boc data) in
  if ton_core_accepts data then Ok (mkBoc data) else Err Boc_Ton.

Definition boc_try_from `{Crc32c} `{TonCoreBoc} `{Base64Engine} (value : rstr)
  : result BocError Boc :=
  let? data := ok_or Boc_Base64 (standard_decode value) in
  boc_try_from_bytes data.
