(* ===== verification/ConnectBridge.v ===== *)
(** * The TON Connect bridge stream

    Encrypted envelopes (crates/ton-connect-core/src/bridge.rs) and the incremental
    decoder of the bridge's event stream (http_bridge.rs, [BridgeSseDecoder]). *)

From stdpp Require Import base numbers list option strings.
From S2P Require Import Prelude BoundaryTypes SendDomain Base64 Json CellBoc ConnectValues.
From S2P Require Import CellBocSpec.

(** ** Envelopes *)

(** The extensions are a map: the last of repeated members counts. *)
Record BridgeMessage := mkBridgeMessage {
  bm_from : ClientId;
  bm_message : rstr;
  bm_trace_id : option rstr;
  bm_extensions : list (rstr * Value);
}.

Definition wire_fields : list string := ["from"; "message"; "trace_id"]%string.

(** [BridgeMessageWire] with flattened extensions, and the check of
    [Deserialize for BridgeMessage]. *)
Definition decode_BridgeMessage `{HexCrate} `{Base64Engine} (v : Value) : option BridgeMessage :=
  match v with
  | Object fields =>
      if forallb (fun name => (occurrences (lit name) fields <=? 1)%nat) wire_fields then
        let extensions :=
          last_wins (map (fun '(k, v) => (k, as_value v))
            (List.filter (fun field => negb (bool_decide (field.1 ∈ map lit wire_fields)))
               fields)) in
        from ← required decode_client_id (assoc_get (lit "from") fields);
        message ← required (decode_validated base64_value_try_from)
                    (assoc_get (lit "message") fields);
        trace_id ← optional_non_null (decode_validated trace_id_try_from)
                     (assoc_get (lit "trace_id") fields);
        if is_empty message then None
        else Some (mkBridgeMessage from message trace_id extensions)
      else None
  | _ => None
  end.

Record BridgeSseMessage := mkBridgeSseMessage {
  bs_event_id : option rstr;
  bs_message : BridgeMessage;
}.

Inductive HttpBridgeError :=
  | Bridge_InvalidUrl
  | EmptySubscription
  | EventTooLarge
  | InvalidSseUtf8
  | InvalidMessage (error : rstr).

(** ** The decoder *)

Record BridgeSseDecoder := mkBridgeSseDecoder {
  sse_pending : bytes;
  sse_event_type : option rstr;
  sse_data_lines : list rstr;
  sse_last_event_id : option rstr;
  sse_current_event_bytes : N;
  sse_max_event_bytes : N;
}.

#[export] Instance eta_BridgeSseDecoder : Eta BridgeSseDecoder := fun d =>
  mkBridgeSseDecoder (sse_pending d) (sse_event_type d) (sse_data_lines d) (sse_last_event_id d)
    (sse_current_event_bytes d) (sse_max_event_bytes d).

Definition decoder_new (max_event_bytes : N) : BridgeSseDecoder :=
  mkBridgeSseDecoder [] None [] None 0 max_event_bytes.

Definition ensure_size_bound (pending_bytes : N) (d : BridgeSseDecoder)
  : result HttpBridgeError unit :=
  if (sse_max_event_bytes d
      <? saturating_add usize_max (sse_current_event_bytes d) pending_bytes)%N
  then Err EventTooLarge else Ok tt.

(** [line.last() == Some(&b'\r')] then [pop]. *)
Definition strip_cr (line : bytes) : bytes :=
  if bool_decide (list.last line = Some 13%N) then take (length line - 1) line else line.

Definition process_line (line : rstr) (d : BridgeSseDecoder) : BridgeSseDecoder :=
  if bool_decide (head line = Some 58%N) then d
  else
    let '(field, value) :=
      match split_once 58%N line with
      | Some (field, value) => (field, default value (strip_prefix (lit " ") value))
      | None => (line, [])
      end in
    if bool_decide (field = lit "event") then d <| sse_event_type := Some value |>
    else if bool_decide (field = lit "data")
    then d <| sse_data_lines := sse_data_lines d ++ [value] |>
    else if bool_decide (field = lit "id") && negb (contains 0%N value)
    then d <| sse_last_event_id := Some value |>
    else d.

(** [join] on strings. *)
Fixpoint join (separator : rstr) (parts : list rstr) : rstr :=
  match parts with
  | [] => []
  | [part] => part
  | part :: rest => part ++ separator ++ join separator rest
  end.

Section Decoder.
Context `{SerdeJson} `{HexCrate} `{Base64Engine}.

Definition dispatch : method BridgeSseDecoder HttpBridgeError (option BridgeSseMessage) :=
  fun d =>
    let event_type := default (lit "message") (sse_event_type d) in
    let data := join [10%N] (sse_data_lines d) in
    let d := d <| sse_event_type := None |> <| sse_data_lines := [] |> in
    if bool_decide (event_type = lit "heartbeat") || is_empty data
       || bool_decide (data = lit "heartbeat")
    then (d, Ok None)
    else if negb (bool_decide (event_type = lit "message")) then (d, Ok None)
    else
      match decode_slice decode_BridgeMessage (utf8 data) with
      | Ok message => (d, Ok (Some (mkBridgeSseMessage (sse_last_event_id d) message)))
      | Err error => (d, Err (InvalidMessage error))
      end.

(** One turn of the loop of [push]: the line is already out of [pending]. *)
Definition take_line (line : bytes)
  : method BridgeSseDecoder HttpBridgeError (list BridgeSseMessage) :=
  let line := strip_cr line in
  do! mupdate (fun d =>
        d <| sse_current_event_bytes :=
               saturating_add usize_max
                 (saturating_add usize_max (sse_current_event_bytes d) (len line)) 1 |>);
  let! d := mget in
  do! mlift (ensure_size_bound 0 d);
  let! line := mlift (ok_or InvalidSseUtf8 (from_utf8 line)) in
  if is_empty line then
    let! message := dispatch in
    do! mupdate (fun d => d <| sse_current_event_bytes := 0%N |>);
    mret (match message with Some message => [message] | None => [] end)
  else
    do! mupdate (process_line line);
    mret [].

(** The loop; the fuel bounds the number of lines. *)
Fixpoint push_loop (fuel : nat) : method BridgeSseDecoder HttpBridgeError (list BridgeSseMessage) :=
  fun d =>
    match split_once 10%N (sse_pending d) with
    | None => mret [] d
    | Some (line, rest) =>
        match fuel with
        | 0 => mret [] d
        | S fuel =>
            mbind' (take_line line)
              (fun messages => mbind' (push_loop fuel) (fun later => mret (messages ++ later)))
              (d <| sse_pending := rest |>)
        end
    end.

Definition push (chunk : bytes)
  : method BridgeSseDecoder HttpBridgeError (list BridgeSseMessage) :=
  do! mupdate (fun d => d <| sse_pending := sse_pending d ++ chunk |>);
  let! d := mget in
  let! messages := push_loop (length (sse_pending d)) in
  let! d := mget in
  do! mlift (ensure_size_bound (len (sse_pending d)) d);
  mret messages.
End Decoder.

(** * What the stream decoder guarantees

    The decoder does not depend on how the network cuts the stream into chunks, and
    what it stores between chunks stays within the configured bound. *)

Section Runs.
Context `{SerdeJson} `{HexCrate} `{Base64Engine}.
Implicit Types d : BridgeSseDecoder.

Definition set_pending (p : bytes) (d : BridgeSseDecoder) : BridgeSseDecoder :=
  d <| sse_pending := p |>.

(** ** Lines do not look at the buffer *)

Lemma process_line_pending line p d :
  process_line line (set_pending p d) = set_pending p (process_line line d).
Proof.
  unfold process_line. case_bool_decide; [done|].
  destruct (split_once 58%N line) as [[field value]|]; cbv beta iota;
    by repeat case_bool_decide; simpl; try destruct (negb _).
Qed.

Lemma dispatch_pending p d :
  dispatch (set_pending p d) = (set_pending p (dispatch d).1, (dispatch d).2).
Proof.
  unfold dispatch.
  cbn [set_pending update eta_expand eta_BridgeSseDecoder sse_event_type sse_data_lines
       sse_last_event_id].
  by repeat case_match.
Qed.

Lemma take_line_pending line p d :
  take_line line (set_pending p d) = (set_pending p (take_line line d).1, (take_line line d).2).
Proof.
  unfold take_line. cbn zeta. monad_unfold. cbn beta iota zeta.
  set (d1 := update sse_current_event_bytes _ (set_pending p d)).
  set (d2 := update sse_current_event_bytes _ d).
  assert (d1 = set_pending p d2) as -> by done.
  assert (ensure_size_bound 0 (set_pending p d2) = ensure_size_bound 0 d2) as -> by done.
  destruct (ensure_size_bound 0 d2); [|done].
  destruct (from_utf8 (strip_cr line)) as [text|]; [|done]. cbn beta iota zeta.
  destruct (is_empty text).
  - rewrite dispatch_pending. destruct (dispatch d2) as [d3 [m|e]]; done.
  - by rewrite process_line_pending.
Qed.

Lemma process_line_keeps line d : sse_pending (process_line line d) = sse_pending d.
Proof.
  replace d with (set_pending (sse_pending d) d) at 1 by (by destruct d).
  by rewrite process_line_pending.
Qed.

Lemma take_line_keeps line d : sse_pending (take_line line d).1 = sse_pending d.
Proof.
  replace d with (set_pending (sse_pending d) d) at 1 by (by destruct d).
  by rewrite take_line_pending.
Qed.

(** ** The loop without fuel *)

Inductive loop : BridgeSseDecoder ->
    BridgeSseDecoder * result HttpBridgeError (list BridgeSseMessage) -> Prop :=
  | loop_done d : split_once 10%N (sse_pending d) = None -> loop d (d, Ok [])
  | loop_line d line rest d1 messages d2 r :
      split_once 10%N (sse_pending d) = Some (line, rest) ->
      take_line line (set_pending rest d) = (d1, Ok messages) ->
      loop d1 (d2, r) -> loop d (d2, rmap (app messages) r)
  | loop_err d line rest d1 e :
      split_once 10%N (sse_pending d) = Some (line, rest) ->
      take_line line (set_pending rest d) = (d1, Err e) -> loop d (d1, Err e).

Lemma push_loop_loop fuel d :
  length (sse_pending d) <= fuel -> loop d (push_loop fuel d).
Proof.
  revert d. induction fuel as [|fuel IH]; intros d Hf.
  - destruct d as [pending et dl li cur mx]. simpl in Hf.
    destruct pending; [|simpl in Hf; lia]. simpl. by apply loop_done.
  - simpl. destruct (split_once 10%N (sse_pending d)) as [[line rest]|] eqn:E; [|by constructor].
    unfold mbind'. change (update sse_pending (fun _ => rest) d) with (set_pending rest d).
    destruct (take_line line (set_pending rest d)) as [d1 [messages|e]] eqn:Et;
      [|by eapply loop_err].
    assert (length (sse_pending d1) <= fuel) as Hl.
    { pose proof (take_line_keeps line (set_pending rest d)) as Hk. rewrite Et in Hk.
      simpl in Hk. rewrite Hk. apply split_once_Some in E as [E _]. rewrite E in Hf.
      rewrite length_app in Hf. simpl in *. lia. }
    specialize (IH d1 Hl). destruct (push_loop fuel d1) as [d2 r] eqn:Ep.
    pose proof (loop_line d line rest d1 messages d2 r E Et IH) as Hloop.
    by destruct r.
Qed.

Lemma loop_deterministic d out1 out2 : loop d out1 -> loop d out2 -> out1 = out2.
Proof.
  intros Hl1. revert out2.
  induction Hl1 as [d E|d line rest d1 ms d2 r E Et Hl IH|d line rest d1 e E Et];
    intros out2 Hl2; inversion Hl2 as [|? line' rest' d1' ms' d2' r' E' Et' Hl'|]; subst;
    try congruence.
  assert (line' = line /\ rest' = rest) as [-> ->] by (split; congruence).
  rewrite Et in Et'. simplify_eq. specialize (IH _ Hl'). by simplify_eq.
Qed.

Lemma loop_no_newline d d' messages :
  loop d (d', Ok messages) -> contains 10%N (sse_pending d') = false.
Proof.
  intros Hl. remember (d', Ok messages) as out eqn:E. revert messages E.
  induction Hl as [d Hs|d line rest d1 ms d2 r Hs Et Hl IH|]; intros messages E; simplify_eq.
  - by apply split_once_None.
  - destruct r as [later|]; simplify_eq/=. by eapply IH.
Qed.

Definition add (c : bytes) (d : BridgeSseDecoder) : BridgeSseDecoder :=
  set_pending (sse_pending d ++ c) d.

(** One line with more input behind it. *)
Lemma take_line_add c line rest d d1 r :
  split_once 10%N (sse_pending d) = Some (line, rest) ->
  take_line line (set_pending rest d) = (d1, r) ->
  split_once 10%N (sse_pending (add c d)) = Some (line, rest ++ c) /\
  take_line line (set_pending (rest ++ c) (add c d)) = (add c d1, r).
Proof.
  intros Hs Et. split.
  - apply split_once_Some in Hs as [Hs Hn]. unfold add. simpl. rewrite Hs, <- app_assoc.
    by apply split_once_app.
  - change (set_pending (rest ++ c) (add c d)) with (set_pending (rest ++ c) (set_pending rest d)).
    rewrite take_line_pending, Et. unfold add. simpl.
    pose proof (take_line_keeps line (set_pending rest d)) as Hk. rewrite Et in Hk.
    simpl in Hk. by rewrite Hk.
Qed.

Lemma loop_add c d d1 messages out :
  loop d (d1, Ok messages) -> loop (add c d1) out ->
  loop (add c d) (out.1, rmap (app messages) out.2).
Proof.
  intros Hl. remember (d1, Ok messages) as mid eqn:E. revert messages E.
  induction Hl as [d Hs|d line rest d0 ms d2 r Hs Et Hl IH|]; intros messages E Hout; simplify_eq.
  - destruct out as [d' [m|e]]; done.
  - destruct r as [later|]; simplify_eq/=. specialize (IH later eq_refl Hout).
    destruct (take_line_add c _ _ _ _ _ Hs Et) as [Hs' Et'].
    pose proof (loop_line _ _ _ _ _ _ _ Hs' Et' IH) as Hl'.
    destruct out as [d' [m|e]]; simpl in *; by rewrite ?app_assoc in Hl'.
Qed.

Lemma loop_add_err c d d1 e : loop d (d1, Err e) -> loop (add c d) (add c d1, Err e).
Proof.
  intros Hl. remember (d1, Err e) as mid eqn:E. revert d1 e E.
  induction Hl as [d Hs|d line rest d0 ms d2 r Hs Et Hl IH|d line rest d0 e0 Hs Et];
    intros d1 e E; simplify_eq.
  - destruct r as [later|e']; simplify_eq/=. destruct (take_line_add c _ _ _ _ _ Hs Et) as [Hs' Et'].
    exact (loop_line _ _ _ _ _ _ _ Hs' Et' (IH _ _ eq_refl)).
  - destruct (take_line_add c _ _ _ _ _ Hs Et) as [Hs' Et']. by eapply loop_err.
Qed.

(** ** Chunks *)

Definition fits (d : BridgeSseDecoder) : Prop :=
  (saturating_add usize_max (sse_current_event_bytes d) (len (sse_pending d))
   <= sse_max_event_bytes d)%N.

Lemma ensure_size_bound_ok n d :
  ensure_size_bound n d = Ok tt <->
  (saturating_add usize_max (sse_current_event_bytes d) n <= sse_max_event_bytes d)%N.
Proof. unfold ensure_size_bound. rewrite if_err_ok, N.ltb_ge. naive_solver. Qed.

Lemma push_ok chunk d d' messages :
  push chunk d = (d', Ok messages) <-> loop (add chunk d) (d', Ok messages) /\ fits d'.
Proof.
  unfold push. monad_unfold. cbn beta iota zeta.
  change (update sse_pending (fun _ => sse_pending d ++ chunk) d) with (add chunk d).
  assert (loop (add chunk d) (push_loop (length (sse_pending (add chunk d))) (add chunk d))) as Hl
    by (by apply push_loop_loop).
  destruct (push_loop _ _) as [d1 [ms|e]].
  - split.
    + destruct (ensure_size_bound (len (sse_pending d1)) d1) as [[]|] eqn:Eb; [|done].
      intros [= <- <-]. split; [done|]. by apply ensure_size_bound_ok.
    + intros [Hl' Hf]. pose proof (loop_deterministic _ _ _ Hl Hl') as [= -> ->].
      apply ensure_size_bound_ok in Hf. by rewrite Hf.
  - split; [done|]. intros [Hl' _]. by pose proof (loop_deterministic _ _ _ Hl Hl').
Qed.

Lemma loop_total d : exists out, loop d out.
Proof. eexists. by apply (push_loop_loop (length (sse_pending d))). Qed.

Lemma strip_cr_length line : (len line <= len (strip_cr line) + 1)%N.
Proof.
  unfold strip_cr, len. case_bool_decide; [|lia]. rewrite length_take. lia.
Qed.

(** A completed line is charged at least the bytes of the part that was pending. *)
Lemma take_line_charged line d d1 messages :
  take_line line d = (d1, Ok messages) ->
  (saturating_add usize_max (sse_current_event_bytes d) (len line) <= sse_max_event_bytes d)%N.
Proof.
  unfold take_line. cbn zeta. monad_unfold. cbn beta iota zeta.
  destruct (ensure_size_bound 0 _) as [[]|] eqn:Eb; [|done]. intros _.
  apply ensure_size_bound_ok in Eb. simpl in Eb. unfold saturating_add in *.
  pose proof (strip_cr_length line). lia.
Qed.

(** The first line of what follows holds all that was pending. *)
Lemma first_line_covers c d1 line rest :
  contains 10%N (sse_pending d1) = false -> split_once 10%N (sse_pending (add c d1)) = Some (line, rest) ->
  (saturating_add usize_max (sse_current_event_bytes d1) (len line) <= sse_max_event_bytes d1)%N -> fits d1.
Proof.
  intros Hn [Hs Hnl]%split_once_Some Et. unfold fits. simpl in Hs.
  assert (len (sse_pending d1) <= len line)%N; [|unfold saturating_add in *; lia].
  unfold len. destruct (Nat.le_gt_cases (length (sse_pending d1)) (length line)) as [|Hlt]; [lia|].
  exfalso. apply (f_equal (take (S (length line)))) in Hs.
  rewrite take_app_le, (take_app_ge line) in Hs by lia.
  replace (S (length line) - length line) with 1 in Hs by lia. simpl in Hs.
  assert (contains 10%N (take (S (length line)) (sse_pending d1)) = true) as Hc.
  { rewrite Hs, contains_app. simpl. by rewrite orb_true_r. }
  rewrite <- (take_drop (S (length line)) (sse_pending d1)), contains_app, Hc in Hn. done.
Qed.

(** If more input behind [d1] goes through, then [d1] itself was within bounds. *)
Lemma fits_before c d1 d2 messages :
  contains 10%N (sse_pending d1) = false ->
  loop (add c d1) (d2, Ok messages) -> fits d2 -> fits d1.
Proof.
  intros Hn Hl Hf. inversion Hl as [? Hs|? line rest d0 ms ? r Hs Et _|]; subst.
  - unfold fits in *. simpl in Hf. rewrite len_app in Hf. unfold saturating_add in *. lia.
  - apply take_line_charged in Et. by apply (first_line_covers c _ line rest).
Qed.

(** ** Memory *)

Lemma from_utf8_size_aux n data text :
  length data <= n -> from_utf8 data = Some text -> length (utf8 text) = length data.
Proof.
  revert data text. induction n as [|n IH]; intros data text Hn Hd.
  { destruct data; [by injection Hd as <-|simpl in Hn; lia]. }
  assert (forall c rest text, length rest <= n -> cons c <$> from_utf8 rest = Some text ->
    length (utf8 text) = length (utf8_char c) + length rest) as Hcons.
  { intros c rest t Hr Ht. apply fmap_Some in Ht as (t' & Ht & ->). unfold utf8. simpl.
    rewrite length_app. f_equal. by apply (IH rest). }
  destruct data as [|b0 rest]; [by injection Hd as <-|]. simpl in Hd, Hn.
  destruct (N.ltb_spec b0 128).
  { apply Hcons in Hd; [|lia]. rewrite Hd. unfold utf8_char.
    by destruct (N.ltb_spec b0 128); [|lia]. }
  destruct rest as [|b1 rest]; [done|]. simpl in Hn. unfold continuation, within in Hd.
  destruct (_ && _) eqn:E1 in Hd.
  { apply Hcons in Hd; [|lia]. rewrite Hd. bool_to_prop. unfold utf8_char.
    destruct (N.ltb_spec ((b0 - 192) * 64 + (b1 - 128)) 128); [lia|].
    by destruct (N.ltb_spec ((b0 - 192) * 64 + (b1 - 128)) 2048); [|lia]. }
  clear E1. destruct rest as [|b2 rest]; [done|]. simpl in Hn. destruct (_ && _) eqn:E1 in Hd.
  { apply Hcons in Hd; [|lia]. rewrite Hd. bool_to_prop. unfold utf8_char.
    set (c := ((b0 - 224) * 4096 + (b1 - 128) * 64 + (b2 - 128))%N).
    assert (2048 <= c < 65536)%N by (unfold c; repeat case_match; bool_to_prop; lia).
    destruct (N.ltb_spec c 128); [lia|]. destruct (N.ltb_spec c 2048); [lia|].
    by destruct (N.ltb_spec c 65536); [|lia]. }
  clear E1. destruct rest as [|b3 rest]; [done|]. simpl in Hn.
  destruct (_ && _) eqn:E1 in Hd; [|done]. apply Hcons in Hd; [|lia]. rewrite Hd.
  bool_to_prop. unfold utf8_char.
  set (c := ((b0 - 240) * 262144 + (b1 - 128) * 4096 + (b2 - 128) * 64 + (b3 - 128))%N).
  assert (65536 <= c)%N by (unfold c; repeat case_match; bool_to_prop; lia).
  destruct (N.ltb_spec c 128); [lia|]. destruct (N.ltb_spec c 2048); [lia|].
  by destruct (N.ltb_spec c 65536); [lia|].
Qed.

Lemma from_utf8_size data text : from_utf8 data = Some text -> len (utf8 text) = len data.
Proof. intros Hd. unfold len. by rewrite (from_utf8_size_aux (length data) data). Qed.

Definition text_size (s : rstr) : N := len (utf8 s).

Lemma text_size_app a b : text_size (a ++ b) = (text_size a + text_size b)%N.
Proof. unfold text_size, utf8. by rewrite flat_map_app, len_app. Qed.

(** The bytes of text that the decoder holds for the current event. *)
Definition retained (d : BridgeSseDecoder) : N :=
  foldr (fun line n => text_size line + n)%N 0%N (sse_data_lines d)
  + from_option text_size 0%N (sse_event_type d).

Record bounded (d : BridgeSseDecoder) : Prop := {
  bd_retained : (retained d <= sse_current_event_bytes d)%N;
  bd_current : (sse_current_event_bytes d <= sse_max_event_bytes d)%N;
  bd_cursor : (from_option text_size 0%N (sse_last_event_id d) <= sse_max_event_bytes d)%N;
}.

Lemma retained_snoc lines value :
  foldr (fun line n => text_size line + n)%N 0%N (lines ++ [value]) =
  (foldr (fun line n => text_size line + n)%N 0%N lines + text_size value)%N.
Proof. induction lines as [|l lines IH]; simpl; [lia|]. rewrite IH. lia. Qed.

(** A line stores at most its own bytes. *)
Lemma process_line_bounded line d :
  let d' := process_line line d in
  (retained d' <= retained d + text_size line)%N /\
  (from_option text_size 0%N (sse_last_event_id d') <=
   N.max (from_option text_size 0%N (sse_last_event_id d)) (text_size line))%N /\
  sse_current_event_bytes d' = sse_current_event_bytes d /\
  sse_max_event_bytes d' = sse_max_event_bytes d.
Proof.
  unfold process_line. case_bool_decide; [cbv zeta; lia|].
  set (fv := match split_once 58%N line with Some _ => _ | None => _ end).
  assert (text_size fv.2 <= text_size line)%N as Hv.
  { unfold fv. destruct (split_once 58%N line) as [[field value]|] eqn:E;
      [|cbn [snd]; change (text_size []) with 0%N; lia].
    apply split_once_Some in E as [-> _]. rewrite text_size_app.
    change (58%N :: value) with ([58%N] ++ value). rewrite text_size_app. cbn [snd].
    destruct (strip_prefix (lit " ") value) as [v|] eqn:Ep; [|simpl; lia].
    apply strip_prefix_Some in Ep as ->. rewrite text_size_app. simpl. lia. }
  destruct fv as [field value]. cbn [snd] in Hv.
  unfold retained. repeat case_bool_decide;
    cbn [update eta_expand eta_BridgeSseDecoder sse_data_lines sse_event_type sse_last_event_id
         sse_current_event_bytes sse_max_event_bytes from_option];
    try (destruct (negb _); cbn [andb update eta_expand eta_BridgeSseDecoder sse_data_lines
           sse_event_type sse_last_event_id sse_current_event_bytes sse_max_event_bytes
           from_option]);
    rewrite ?retained_snoc; lia.
Qed.
Lemma dispatch_fields d :
  let d' := (dispatch d).1 in
  retained d' = 0%N /\ sse_last_event_id d' = sse_last_event_id d /\
  sse_max_event_bytes d' = sse_max_event_bytes d.
Proof. unfold dispatch. cbv zeta. by repeat case_match. Qed.

Lemma take_line_bounded line d d' messages :
  (sse_max_event_bytes d < usize_max)%N -> bounded d -> take_line line d = (d', Ok messages) ->
  bounded d' /\ sse_max_event_bytes d' = sse_max_event_bytes d.
Proof.
  intros Hmax [Hr Hc Hi]. unfold take_line. cbn zeta. monad_unfold. cbn beta iota zeta.
  set (d1 := update sse_current_event_bytes _ d).
  destruct (ensure_size_bound 0 d1) as [[]|] eqn:Eb; [|done].
  apply ensure_size_bound_ok in Eb.
  assert (sse_max_event_bytes d1 = sse_max_event_bytes d) as Hm1 by done.
  assert (sse_current_event_bytes d1 = sse_current_event_bytes d + len (strip_cr line) + 1)%N as Hc1
    by (rewrite Hm1 in Eb; revert Eb; unfold d1, saturating_add; simpl; lia).
  assert (sse_current_event_bytes d1 <= sse_max_event_bytes d1)%N as Hle
    by (unfold saturating_add in Eb; lia).
  assert (retained d1 = retained d) as Hr1 by done.
  destruct (from_utf8 (strip_cr line)) as [text|] eqn:Et; [|done].
  apply from_utf8_size in Et. cbn beta iota zeta. destruct (is_empty text).
  - pose proof (dispatch_fields d1) as (Hd1 & Hd2 & Hd3).
    destruct (dispatch d1) as [d2 [m|e]]; [|done]. cbn [fst] in *. intros [= <- <-].
    split; [|exact Hd3]. constructor; simpl.
    + change (retained d2 <= 0)%N. lia.
    + lia.
    + rewrite Hd2, Hd3. done.
  - intros [= <- <-]. pose proof (process_line_bounded text d1) as (Hp1 & Hp2 & Hp3 & Hp4).
    unfold text_size at 1 in Hp1. unfold text_size at 3 in Hp2. rewrite Et in Hp1, Hp2.
    split; [|by rewrite Hp4]. constructor; rewrite ?Hp3, ?Hp4.
    + lia.
    + done.
    + assert (sse_last_event_id d1 = sse_last_event_id d) as Hid by done.
      rewrite Hid in Hp2. lia.
Qed.

Lemma loop_bounded d out messages :
  (sse_max_event_bytes d < usize_max)%N -> bounded d -> loop d out -> out.2 = Ok messages ->
  bounded out.1 /\ sse_max_event_bytes out.1 = sse_max_event_bytes d.
Proof.
  intros Hmax Hb Hl. revert messages.
  induction Hl as [d Hs|d line rest d1 ms d2 r Hs Et Hl IH|]; intros messages Hok; [done| |done].
  assert (bounded (set_pending rest d)) as Hb' by (by destruct Hb; constructor).
  destruct (take_line_bounded line (set_pending rest d) d1 ms Hmax Hb' Et) as [Hb1 Hm1].
  simpl in Hm1. destruct r as [later|]; [|done]. cbn [fst snd] in *.
  rewrite <- Hm1. by apply (IH ltac:(by rewrite Hm1) Hb1 later).
Qed.

(** Chunks pushed one after another, each of them accepted. *)
Inductive accepts : BridgeSseDecoder -> list bytes -> BridgeSseDecoder -> Prop :=
  | accepts_none d : accepts d [] d
  | accepts_chunk d chunk chunks d1 messages d2 :
      push chunk d = (d1, Ok messages) -> accepts d1 chunks d2 ->
      accepts d (chunk :: chunks) d2.

(** C31: the memory of the decoder is bounded by the configured event size, whatever
    the bridge sends: as long as chunks are accepted, the unfinished line together
    with the text kept for the current event, and also the stored cursor, never
    exceed the bound. *)
Theorem decoder_memory_bounded max chunks d :
  (max < usize_max)%N -> accepts (decoder_new max) chunks d ->
  (retained d + len (sse_pending d) <= max)%N /\
  (from_option text_size 0 (sse_last_event_id d) <= max)%N.
Proof.
  intros Hmax. assert (forall d0 d, accepts d0 chunks d -> bounded d0 -> fits d0 ->
    sse_max_event_bytes d0 = max -> bounded d /\ fits d /\ sse_max_event_bytes d = max) as Hgen.
  { induction 1 as [|d0 chunk rest d1 ms d2 [Hl Hf1]%push_ok _ IH]; intros Hb Hf Hm; [done|].
    assert (bounded (add chunk d0)) as Hb' by (by destruct Hb; constructor).
    destruct (loop_bounded (add chunk d0) _ ms ltac:(by simpl; rewrite Hm) Hb' Hl eq_refl)
      as [Hb1 Hm1].
    apply IH; [done..|]. simpl in Hm1. by rewrite Hm1. }
  intros Hacc. destruct (Hgen _ _ Hacc) as ([Hr _ Hi] & Hf & Hm); [| |done|].
  - constructor; unfold retained; simpl; lia.
  - unfold fits. cbn [decoder_new sse_current_event_bytes sse_pending sse_max_event_bytes].
    change (len (@nil N)) with 0%N. unfold saturating_add. lia.
  - unfold fits, saturating_add in Hf. rewrite Hm in *. lia.
Qed.

(** ** Cuts *)

(** A line that exceeds the bound is refused before it is read. *)
Lemma take_line_too_large line d :
  ~ (saturating_add usize_max (sse_current_event_bytes d) (len line) <= sse_max_event_bytes d)%N ->
  exists d', take_line line d = (d', Err EventTooLarge).
Proof.
  intros Hn. unfold take_line. cbn zeta. monad_unfold. cbn beta iota zeta. set (d1 := update _ _ d).
  destruct (ensure_size_bound 0 d1) as [[]|[]] eqn:Eb; try (unfold ensure_size_bound in Eb; by case_match).
  - exfalso. apply Hn. apply ensure_size_bound_ok in Eb. revert Eb. unfold d1. simpl.
    unfold saturating_add. pose proof (strip_cr_length line). lia.
  - by eexists.
Qed.

Lemma push_outcome chunk d d1 r :
  loop (add chunk d) (d1, r) ->
  push chunk d =
    (d1, match r with
         | Ok messages => if decide (fits d1) then Ok messages else Err EventTooLarge
         | Err e => Err e
         end).
Proof.
  intros Hl. unfold push. monad_unfold. cbn beta iota zeta.
  change (update sse_pending (fun _ => sse_pending d ++ chunk) d) with (add chunk d).
  assert (loop (add chunk d) (push_loop (length (sse_pending (add chunk d))) (add chunk d))) as Hl'
    by (by apply push_loop_loop).
  rewrite (loop_deterministic _ _ _ Hl' Hl). destruct r as [messages|e]; [|done].
  destruct (decide (fits d1)) as [Hf|Hf].
  - apply ensure_size_bound_ok in Hf. by rewrite Hf.
  - unfold fits in Hf. unfold ensure_size_bound. by rewrite (proj2 (N.ltb_lt _ _)) by lia.
Qed.

(** A decoder that holds too much already refuses whatever follows. *)
Lemma full_decoder_refuses c d1 out :
  contains 10%N (sse_pending d1) = false -> ~ fits d1 -> loop (add c d1) out ->
  (exists d2 messages, out = (d2, Ok messages) /\ ~ fits d2) \/ exists d2, out = (d2, Err EventTooLarge).
Proof.
  intros Hn Hf Hl. destruct out as [d2 [messages|e]].
  - left. exists d2, messages. split; [done|]. intros Hf2. by apply Hf, (fits_before c d1 d2 messages).
  - right. exists d2. inversion Hl as [|? line rest d0 ms ? r Hs Et _|? line rest d0 ? Hs Et]; subst.
    + exfalso. apply take_line_charged in Et. by apply Hf, (first_line_covers c _ line rest).
    + destruct (take_line_too_large line (set_pending rest (add c d1))) as [d' Hd'].
      { intros Hle. by apply Hf, (first_line_covers c _ line rest). }
      rewrite Hd' in Et. by simplify_eq.
Qed.

(** A stream cut once. *)
Lemma push_cut a b d :
  match push a d with
  | (d1, Ok first) =>
      (push (a ++ b) d).2 = rmap (app first) (push b d1).2 /\
      (forall messages, (push b d1).2 = Ok messages -> (push (a ++ b) d).1 = (push b d1).1)
  | (_, Err e) => (push (a ++ b) d).2 = Err e
  end.
Proof.
  assert (add (a ++ b) d = add b (add a d)) as Hadd by (unfold add; simpl; by rewrite app_assoc).
  destruct (loop_total (add a d)) as [[d1 [first|e]] Hl1]; rewrite (push_outcome _ _ _ _ Hl1).
  - destruct (loop_total (add b d1)) as [[d2 r] Hl2]. pose proof (loop_add b _ _ _ _ Hl1 Hl2) as Hl.
    rewrite <- Hadd in Hl. apply push_outcome in Hl. rewrite Hl. cbn [fst snd].
    destruct (decide (fits d1)) as [Hf|Hf].
    + rewrite (push_outcome _ _ _ _ Hl2). destruct r as [second|e]; cbn; [|done]. by destruct (decide (fits d2)).
    + destruct (full_decoder_refuses b d1 _ (loop_no_newline _ _ _ Hl1) Hf Hl2) as [(d' & ms & [= -> ->] & Hf')|[d' [= -> ->]]];
        cbn; [|done]. by rewrite decide_False.
  - apply (loop_add_err b) in Hl1. rewrite <- Hadd in Hl1. by rewrite (push_outcome _ _ _ _ Hl1).
Qed.

(** Chunks pushed one after another, up to the first that fails. *)
Fixpoint push_all (chunks : list bytes) : method BridgeSseDecoder HttpBridgeError (list BridgeSseMessage) :=
  match chunks with
  | [] => mret []
  | chunk :: rest =>
      let! first := push chunk in
      let! later := push_all rest in
      mret (first ++ later)
  end.

(** C30: whether a stream is decoded, and what it decodes to, does not depend on how it is
    cut into chunks.  However it is cut, the chunks are all accepted exactly when the
    stream is accepted in one piece; then they return together the same messages in the
    same order and leave the same decoder; and otherwise the first chunk that fails fails
    with the error of the whole stream.  Only what was returned before an error depends on
    the cut: the chunks before the failing one have returned their messages, the whole
    stream returns none. *)
Theorem decoding_ignores_chunk_boundaries chunk chunks d :
  match push (concat (chunk :: chunks)) d with
  | (d', Ok messages) => push_all (chunk :: chunks) d = (d', Ok messages)
  | (_, Err e) => (push_all (chunk :: chunks) d).2 = Err e
  end.
Proof.
  revert chunk d. induction chunks as [|b rest IH]; intros a d.
  - cbn [push_all concat]. rewrite app_nil_r. monad_unfold. destruct (push a d) as [d1 [first|e]]; cbn; [|done].
    by rewrite app_nil_r.
  - pose proof (push_cut a (concat (b :: rest)) d) as Hcut. cbn [concat] in Hcut |- *.
    change (push_all (a :: b :: rest)) with
      (let! first := push a in let! later := push_all (b :: rest) in mret (first ++ later)).
    monad_unfold. specialize (IH b). cbn [concat] in IH. destruct (push (a ++ b ++ concat rest) d) as [d4 r4].
    destruct (push a d) as [d1 [first|e]]; cbn [fst snd] in Hcut; [|by rewrite Hcut].
    destruct Hcut as [-> Hd]. specialize (IH d1).
    destruct (push (b ++ concat rest) d1) as [d3 [later|e]]; cbn [fst snd rmap] in *.
    + by rewrite IH, (Hd later eq_refl).
    + by destruct (push_all (b :: rest) d1) as [d2 [?|?]]; simplify_eq/=.
Qed.
End Runs.
