(* ===== verification/Addresses.v ===== *)
(** * TON account addresses

    Raw addresses (crates/ton-connect-core/src/signing.rs), TEP-2 friendly addresses
    (friendly_address.rs), either of them (account_address.rs), and the address values
    of the engine boundary (src/types/address.rs).  The crc crate's CRC-16, the
    URL-safe Base64 encoder and the address parser of ton_core are classes. *)

From stdpp Require Import base numbers list option strings.
From S2P Require Import Prelude BoundaryTypes SendDomain Base64 ClientDomain Json CellBoc.
From S2P Require Import ConnectValues CellBocSpec ConnectSession.

(** ** Raw addresses *)

Record RawAccountAddress := mkRawAccountAddress {
  raa_workchain : Z;
  raa_hash : bytes;
}.

Inductive AddressError := InvalidAddress.

(** [str::parse::<i32>]: an optional sign and digits, within the range. *)
Definition parse_i32 (s : rstr) : option Z :=
  let '(negative, digits) :=
    match s with
    | c :: t => if (c =? 45)%N then (true, t) else if (c =? 43)%N then (false, t) else (false, s)
    | [] => (false, [])
    end in
  if is_empty digits || negb (forallb is_ascii_digit digits) then None
  else
    let magnitude := Z.of_N (dec_value digits) in
    let n := if negative then (- magnitude)%Z else magnitude in
    if ((-2147483648 <=? n) && (n <=? 2147483647))%Z then Some n else None.

Section Raw.
Context `{HexCrate}.

Definition raw_to_string (a : RawAccountAddress) : rstr :=
  i64_to_string (raa_workchain a) ++ lit ":" ++ hex_encode (raa_hash a).

Definition raw_from_str (value : rstr) : result AddressError RawAccountAddress :=
  match split_once 58%N value with
  | None => Err InvalidAddress
  | Some (workchain, hash) =>
      if negb (length (utf8 hash) =? 64)%nat || negb (forallb is_ascii_hexdigit (utf8 hash))
      then Err InvalidAddress
      else
        let? parsed_workchain := ok_or InvalidAddress (parse_i32 workchain) in
        if negb (bool_decide (i64_to_string parsed_workchain = workchain)) then Err InvalidAddress
        else
          let? parsed_hash := ok_or InvalidAddress (hex_decode hash) in
          Ok (mkRawAccountAddress parsed_workchain parsed_hash)
  end.
End Raw.

(** ** Friendly addresses *)

Definition FRIENDLY_ADDRESS_BYTES : nat := 36.
Definition BOUNCEABLE_TAG : N := 17.
Definition NON_BOUNCEABLE_TAG : N := 81.
Definition TEST_ONLY_TAG : N := 128.

Record FriendlyAddress := mkFriendlyAddress {
  fa_encoded : rstr;
  fa_raw : RawAccountAddress;
  fa_bounceable : bool;
  fa_test_only : bool;
}.

Inductive FriendlyAddressError := InvalidFriendlyAddress.

(** [Crc::<u16>::new(&CRC_16_XMODEM).checksum]. *)
Class Crc16 := {
  crc16 : bytes -> N;
  crc16_u16 data : (crc16 data <= u16_max)%N;
}.

(** The characters of URL-safe Base64. *)
Definition is_url_safe (c : char) : bool :=
  (((65 <=? c) && (c <=? 90)) || ((97 <=? c) && (c <=? 122)) || ((48 <=? c) && (c <=? 57))
   || (c =? 45) || (c =? 95))%N.

(** [URL_SAFE_NO_PAD.encode], beside the decoder of [Base64Engine]. *)
Class UrlSafeBase64 `{Base64Engine} := {
  url_safe_no_pad_encode : bytes -> rstr;
  url_safe_decode_encode data :
    Forall (fun b => b < 256)%N data ->
    url_safe_no_pad_decode (url_safe_no_pad_encode data) = Some data;
  url_safe_encode_no_pad data : contains 61%N (url_safe_no_pad_encode data) = false;
  url_safe_encode_nil data : url_safe_no_pad_encode data = [] -> data = [];
  url_safe_encode_alphabet data : forallb is_url_safe (url_safe_no_pad_encode data) = true;
}.

Lemma url_safe_encode_ascii `{UrlSafeBase64} data :
  Forall (fun c => c < 128)%N (url_safe_no_pad_encode data).
Proof.
  apply Forall_forall. intros c Hc%list_elem_of_In. pose proof (url_safe_encode_alphabet data) as Ha.
  rewrite forallb_forall in Ha. specialize (Ha c Hc). unfold is_url_safe in Ha.
  rewrite !orb_true_iff, !andb_true_iff, !N.leb_le, !N.eqb_eq in Ha. lia.
Qed.

(** [u16::to_be_bytes]. *)
Definition u16_be_bytes (n : N) : bytes := [n / 256; n mod 256]%N.

(** [i8::to_be_bytes] and [i8::from_be_bytes] as bytes. *)
Definition i8_byte (n : Z) : N := Z.to_N (n mod 256).
Definition byte_i8 (b : N) : Z := if (b <? 128)%N then Z.of_N b else (Z.of_N b - 256)%Z.

Section Friendly.
Context `{Crc16} `{UrlSafeBase64}.

Definition friendly_from_raw (raw : RawAccountAddress) (bounceable test_only : bool)
  : result FriendlyAddressError FriendlyAddress :=
  let workchain := raa_workchain raw in
  if negb ((-128 <=? workchain) && (workchain <=? 127))%Z then Err InvalidFriendlyAddress
  else if negb ((workchain =? -1) || (workchain =? 0))%Z then Err InvalidFriendlyAddress
  else
    let tag := if bounceable then BOUNCEABLE_TAG else NON_BOUNCEABLE_TAG in
    let tag := if test_only then N.lor tag TEST_ONLY_TAG else tag in
    let payload := tag :: i8_byte workchain :: raa_hash raw in
    let data := payload ++ u16_be_bytes (crc16 payload) in
    Ok (mkFriendlyAddress (url_safe_no_pad_encode data) raw bounceable test_only).

(** [slice.get(a..b)]. *)
Definition get_range (a b : nat) (data : bytes) : option bytes :=
  if (b <=? length data)%nat then Some (take (b - a) (drop a data)) else None.

Definition friendly_try_from (value : rstr) : result FriendlyAddressError FriendlyAddress :=
  if contains 61%N value then Err InvalidFriendlyAddress
  else
    let? data := ok_or InvalidFriendlyAddress (url_safe_no_pad_decode value) in
    if negb (length data =? FRIENDLY_ADDRESS_BYTES)%nat
       || negb (bool_decide (url_safe_no_pad_encode data = value))
    then Err InvalidFriendlyAddress
    else
      let? payload := ok_or InvalidFriendlyAddress (get_range 0 34 data) in
      let? checksum := ok_or InvalidFriendlyAddress (get_range 34 (length data) data) in
      if negb (bool_decide (u16_be_bytes (crc16 payload) = checksum))
      then Err InvalidFriendlyAddress
      else
        let? tag := ok_or InvalidFriendlyAddress (head data) in
        let test_only := negb (N.land tag TEST_ONLY_TAG =? 0)%N in
        let? bounceable :=
          (let kind := N.land tag 127 in
           if (kind =? BOUNCEABLE_TAG)%N then Ok true
           else if (kind =? NON_BOUNCEABLE_TAG)%N then Ok false
           else Err InvalidFriendlyAddress) in
        let? byte := ok_or InvalidFriendlyAddress (data !! 1) in
        let workchain := byte_i8 byte in
        if negb ((workchain =? -1) || (workchain =? 0))%Z then Err InvalidFriendlyAddress
        else
          let? hash := ok_or InvalidFriendlyAddress (get_range 2 34 data) in
          Ok (mkFriendlyAddress value (mkRawAccountAddress workchain hash) bounceable test_only).
End Friendly.

(** ** Either form *)

Inductive AccountAddress :=
  | Address_Raw (address : RawAccountAddress)
  | Address_Friendly (address : FriendlyAddress).

Definition account_raw_address (a : AccountAddress) : RawAccountAddress :=
  match a with Address_Raw raw => raw | Address_Friendly friendly => fa_raw friendly end.

Definition account_address_try_from `{HexCrate} `{Crc16} `{UrlSafeBase64} (value : rstr)
  : result AddressError AccountAddress :=
  match raw_from_str value with
  | Ok address => Ok (Address_Raw address)
  | Err _ => map_err (fun _ => InvalidAddress) (rmap Address_Friendly (friendly_try_from value))
  end.

Definition account_address_to_string `{HexCrate} (a : AccountAddress) : rstr :=
  match a with
  | Address_Raw raw => raw_to_string raw
  | Address_Friendly friendly => fa_encoded friendly
  end.

(** ** The engine boundary *)

Inductive TonAddressFormat :=
  | Format_Raw
  | Format_UserFriendly (bounceable testnet : bool).

Record TonAddressInfo := mkTonAddressInfo {
  tai_raw : rstr;
  tai_workchain : Z;
  tai_format : TonAddressFormat;
}.

Inductive TonAddressError := TonAddress_InvalidAddress | UnsupportedWorkchain.

(** [TonAddress::from_str] of the ton_core crate. *)
Class TonAddressParser := { ton_address_from_str : rstr -> option TonAddress }.

Record ParsedTonAddressParts := mkParsedTonAddressParts {
  pta_address : TonAddress;
  pta_raw : RawAccountAddress;
  pta_format : TonAddressFormat;
}.

Definition raw_account_address (address : TonAddress) : result TonAddressError RawAccountAddress :=
  if (length (ta_hash address) =? 32)%nat
  then Ok (mkRawAccountAddress (ta_workchain address) (ta_hash address))
  else Err TonAddress_InvalidAddress.

Definition canonical_user_friendly (value : rstr) : result TonAddressError rstr :=
  let uses_standard_alphabet := contains 43%N (utf8 value) || contains 47%N (utf8 value) in
  let uses_url_safe_alphabet := contains 45%N (utf8 value) || contains 95%N (utf8 value) in
  if uses_standard_alphabet && uses_url_safe_alphabet then Err TonAddress_InvalidAddress
  else if uses_standard_alphabet
  then Ok (map (fun c => if (c =? 43)%N then 45%N else if (c =? 47)%N then 95%N else c) value)
  else Ok value.

Section Boundary.
Context `{HexCrate} `{Crc16} `{UrlSafeBase64} `{TonAddressParser}.

Definition parse_ton_address_parts (value : rstr) : result TonAddressError ParsedTonAddressParts :=
  if contains 58%N value then
    let? address := ok_or TonAddress_InvalidAddress (ton_address_from_str value) in
    let? raw := raw_account_address address in
    Ok (mkParsedTonAddressParts address raw Format_Raw)
  else
    let? canonical := canonical_user_friendly value in
    let? friendly := map_err (fun _ => TonAddress_InvalidAddress) (friendly_try_from canonical) in
    let? address := ok_or TonAddress_InvalidAddress (ton_address_from_str value) in
    Ok (mkParsedTonAddressParts address (fa_raw friendly)
          (Format_UserFriendly (fa_bounceable friendly) (fa_test_only friendly))).

Definition info (p : ParsedTonAddressParts) : TonAddressInfo :=
  mkTonAddressInfo (raw_to_string (pta_raw p)) (raa_workchain (pta_raw p)) (pta_format p).

Definition parse_ton_address (value : rstr) : result TonAddressError TonAddressInfo :=
  rmap info (parse_ton_address_parts value).

Definition is_valid_ton_address (value : rstr) : bool := is_ok (parse_ton_address_parts value).

Definition convert_ton_address (value : rstr) (format : TonAddressFormat)
  : result TonAddressError rstr :=
  let? parsed := parse_ton_address_parts value in
  match format with
  | Format_Raw => Ok (raw_to_string (pta_raw parsed))
  | Format_UserFriendly bounceable testnet =>
      map_err (fun _ => UnsupportedWorkchain)
        (rmap fa_encoded (friendly_from_raw (pta_raw parsed) bounceable testnet))
  end.

Definition ton_address_string_try_from (value : rstr) : option TonAddressString :=
  match parse_ton_address_parts value with
  | Ok parsed => Some (mkTonAddressString value (pta_address parsed))
  | Err _ => None
  end.
End Boundary.

(** * Addresses are read back as they were written

    Raw text, friendly text and the conversions between them. *)

(** The addresses of the Rust types: an [i32] and 32 bytes. *)
Definition well_typed (a : RawAccountAddress) : Prop :=
  (-2147483648 <= raa_workchain a <= 2147483647)%Z /\ length (raa_hash a) = 32 /\
  u8s (raa_hash a).

(** ** Raw text *)

Lemma u64_to_string_digits n :
  forallb is_ascii_digit (u64_to_string n) = true /\ u64_to_string n <> [] /\
  dec_value (u64_to_string n) = n.
Proof.
  pose proof (ref_to_str_spec n) as (Hd & Hv & c & s & Hs & _). split; [done|].
  split; [|done]. unfold u64_to_string. by rewrite Hs.
Qed.

Lemma parse_i32_to_string n :
  (-2147483648 <= n <= 2147483647)%Z -> parse_i32 (i64_to_string n) = Some n.
Proof.
  intros Hn. unfold i64_to_string. destruct (Z.ltb_spec n 0) as [Hneg|Hpos].
  - destruct (u64_to_string_digits (Z.abs_N n)) as (Hd & Hne & Hv).
    unfold parse_i32. rewrite N.eqb_refl. cbv beta iota.
    destruct (u64_to_string (Z.abs_N n)) as [|c s] eqn:E; [done|]. rewrite <- E in *.
    replace (is_empty (u64_to_string (Z.abs_N n))) with false by (by rewrite E).
    rewrite Hd, Hv. simpl negb. cbv beta iota zeta. simpl orb.
    replace (- Z.of_N (Z.abs_N n))%Z with n by lia.
    destruct (Z.leb_spec (-2147483648) n), (Z.leb_spec n 2147483647); done || lia.
  - destruct (u64_to_string_digits (Z.to_N n)) as (Hd & Hne & Hv).
    unfold parse_i32. destruct (u64_to_string (Z.to_N n)) as [|c s] eqn:E; [done|].
    assert (is_ascii_digit c = true) as Hc by (simpl in Hd; by apply andb_true_iff in Hd as [? _]).
    apply is_ascii_digit_spec in Hc.
    destruct (N.eqb_spec c 45); [lia|]. destruct (N.eqb_spec c 43); [lia|]. cbv beta iota.
    rewrite Hd, Hv. simpl is_empty. simpl orb. cbv beta iota zeta.
    replace (Z.of_N (Z.to_N n)) with n by lia.
    destruct (Z.leb_spec (-2147483648) n), (Z.leb_spec n 2147483647); done || lia.
Qed.

Lemma i64_to_string_no_colon n : contains 58%N (i64_to_string n) = false.
Proof.
  assert (forall s, forallb is_ascii_digit s = true -> contains 58%N s = false) as Hdig.
  { induction s as [|c s IH]; [done|]. unfold contains in *. cbn [existsb forallb].
    intros [Hc Hs]%andb_true_iff. rewrite (IH Hs), orb_false_r.
    apply is_ascii_digit_spec in Hc. apply N.eqb_neq. lia. }
  unfold i64_to_string. destruct (n <? 0)%Z; simpl; apply Hdig, u64_to_string_digits.
Qed.

Section Text.
Context `{HexCrate}.

Lemma lower_hex_ascii s : forallb is_lower_hex s = true ->
  utf8 s = s /\ forallb is_ascii_hexdigit s = true.
Proof.
  induction s as [|c s IH]; [done|]. simpl. intros [Hc Hs]%andb_true_iff.
  destruct (IH Hs) as [-> ->]. unfold is_ascii_hexdigit. rewrite Hc. split; [|done].
  unfold utf8_char. destruct (N.ltb_spec c 128); [done|]. exfalso. unfold is_lower_hex in Hc.
  apply orb_true_iff in Hc as [Hc%is_ascii_digit_spec|Hc]; [lia|]. bool_to_prop. lia.
Qed.

Lemma raw_roundtrip a : well_typed a -> raw_from_str (raw_to_string a) = Ok a.
Proof.
  intros (Hw & Hl & Hu). unfold raw_from_str, raw_to_string.
  change (lit ":" ++ hex_encode (raa_hash a)) with (58%N :: hex_encode (raa_hash a)).
  rewrite split_once_app by apply i64_to_string_no_colon.
  destruct (lower_hex_ascii _ (hex_encode_lower _ Hu)) as [-> ->].
  rewrite hex_encode_length, Hl. simpl. rewrite parse_i32_to_string by done. simpl.
  rewrite bool_decide_eq_true_2 by done. simpl. rewrite hex_decode_encode by done.
  by destruct a.
Qed.

Lemma parse_i32_bounds s n :
  parse_i32 s = Some n -> (-2147483648 <= n <= 2147483647)%Z.
Proof.
  unfold parse_i32. destruct (match s with [] => _ | _ :: _ => _ end) as [negative digits].
  destruct (is_empty digits || _); [done|]. cbv zeta.
  destruct (_ && _)%Z eqn:Hr; [|done]. intros [= <-]. apply andb_true_iff in Hr. lia.
Qed.

Lemma hexdigit_ascii b : is_ascii_hexdigit b = true -> (b < 128)%N.
Proof.
  unfold is_ascii_hexdigit, is_lower_hex. rewrite !orb_true_iff, !andb_true_iff, !N.leb_le.
  intros [[Hb%is_ascii_digit_spec|Hb]|Hb]; lia.
Qed.

Lemma raw_from_str_well_typed value a : raw_from_str value = Ok a -> well_typed a.
Proof.
  unfold raw_from_str. destruct (split_once _ _) as [[workchain hash]|]; [|done].
  intros [Hg Ha]%if_err_ok. apply orb_false_iff in Hg as [Hl Hh]. bool_to_prop.
  apply rbind_ok in Ha as (w & Hw & Ha). apply if_err_ok in Ha as [_ Ha].
  apply rbind_ok in Ha as (data & Hd & [= <-]). apply ok_or_ok in Hw, Hd.
  apply parse_i32_bounds in Hw. apply hex_decode_bytes in Hd as [Hlen Hu].
  apply (utf8_of_ascii _ hexdigit_ascii) in Hh as [E _]. rewrite E in Hl.
  apply Nat.eqb_eq in Hl. split; [done|]. cbn [raa_hash]. split; [lia|done].
Qed.
End Text.

(** ** Friendly text *)

Section Friendly.
Context `{Crc16} `{UrlSafeBase64}.

Definition tag_of (bounceable test_only : bool) : N :=
  let tag := if bounceable then BOUNCEABLE_TAG else NON_BOUNCEABLE_TAG in
  if test_only then N.lor tag TEST_ONLY_TAG else tag.

(** The flags are exactly the tag byte. *)
Definition tag_flags (tag : N) : option (bool * bool) :=
  let kind := N.land tag 127 in
  let test_only := negb (N.land tag TEST_ONLY_TAG =? 0)%N in
  if (kind =? BOUNCEABLE_TAG)%N then Some (true, test_only)
  else if (kind =? NON_BOUNCEABLE_TAG)%N then Some (false, test_only)
  else None.

Lemma tag_flags_of b t : tag_flags (tag_of b t) = Some (b, t).
Proof. by destruct b, t. Qed.

Lemma tag_of_flags tag b t : (tag < 256)%N -> tag_flags tag = Some (b, t) -> tag = tag_of b t.
Proof.
  intros Ht. assert (forallb (fun n => match tag_flags (N.of_nat n) with
    | Some (b, t) => (N.of_nat n =? tag_of b t)%N | None => true end) (seq 0 256) = true) as Hall
    by (vm_compute; reflexivity).
  rewrite forallb_forall in Hall. specialize (Hall (N.to_nat tag)).
  rewrite N2Nat.id in Hall. intros E. rewrite E in Hall. apply N.eqb_eq, Hall, in_seq. lia.
Qed.

Lemma u16_be_bytes_u8 n : (n <= u16_max)%N -> u8s (u16_be_bytes n).
Proof.
  intros Hn. unfold u16_be_bytes. repeat constructor.
  - apply N.Div0.div_lt_upper_bound. unfold u16_max in Hn. lia.
  - apply N.mod_lt. done.
Qed.

(** The decoder on a text with known bytes. *)
Lemma friendly_try_from_bytes value tag byte hash checksum :
  url_safe_no_pad_decode value = Some (tag :: byte :: hash ++ checksum) ->
  url_safe_no_pad_encode (tag :: byte :: hash ++ checksum) = value ->
  length hash = 32 -> length checksum = 2 ->
  friendly_try_from value =
    if negb (bool_decide (u16_be_bytes (crc16 (tag :: byte :: hash)) = checksum))
    then Err InvalidFriendlyAddress
    else
      match tag_flags tag with
      | Some (bounceable, test_only) =>
          if negb ((byte_i8 byte =? -1) || (byte_i8 byte =? 0))%Z then Err InvalidFriendlyAddress
          else Ok (mkFriendlyAddress value (mkRawAccountAddress (byte_i8 byte) hash)
                     bounceable test_only)
      | None => Err InvalidFriendlyAddress
      end.
Proof.
  intros Hd He Hh Hc. unfold friendly_try_from.
  assert (contains 61%N value = false) as -> by (rewrite <- He; apply url_safe_encode_no_pad).
  rewrite Hd. cbn [ok_or rbind]. rewrite He, bool_decide_eq_true_2 by done.
  assert (length (tag :: byte :: hash ++ checksum) = 36) as Hl
    by (simpl; rewrite length_app, Hh, Hc; done).
  rewrite Hl. unfold get_range. rewrite Hl. simpl Nat.eqb. simpl Nat.leb. cbn [negb orb].
  assert (take (34 - 0) (drop 0 (tag :: byte :: hash ++ checksum)) = tag :: byte :: hash) as ->
    by (simpl; do 2 f_equal; rewrite <- Hh; apply take_app_length).
  assert (take (36 - 34) (drop 34 (tag :: byte :: hash ++ checksum)) = checksum) as ->
    by (simpl; rewrite <- Hh, drop_app_length; by apply take_ge; rewrite Hc).
  assert (take (34 - 2) (drop 2 (tag :: byte :: hash ++ checksum)) = hash) as ->
    by (simpl; rewrite <- Hh; apply take_app_length).
  cbn [ok_or rbind]. destruct (bool_decide _); [|done]. cbn [negb head lookup list_lookup ok_or rbind].
  unfold tag_flags. destruct (N.land tag 127 =? BOUNCEABLE_TAG)%N; [done|].
  by destruct (N.land tag 127 =? NON_BOUNCEABLE_TAG)%N.
Qed.

Lemma workchain_byte w : (w = -1 \/ w = 0)%Z -> byte_i8 (i8_byte w) = w /\ (i8_byte w < 256)%N.
Proof. by intros [-> | ->]. Qed.

Lemma byte_workchain b : (b < 256)%N -> (byte_i8 b = -1 \/ byte_i8 b = 0)%Z -> i8_byte (byte_i8 b) = b.
Proof.
  intros Hb Hw. unfold i8_byte. destruct Hw as [Hw|Hw]; rewrite Hw;
    unfold byte_i8 in Hw; destruct (N.ltb_spec b 128); simpl; lia.
Qed.

Lemma friendly_from_raw_ok raw b t f :
  friendly_from_raw raw b t = Ok f <->
  (raa_workchain raw = -1 \/ raa_workchain raw = 0)%Z /\
  let payload := tag_of b t :: i8_byte (raa_workchain raw) :: raa_hash raw in
  f = mkFriendlyAddress (url_safe_no_pad_encode (payload ++ u16_be_bytes (crc16 payload))) raw b t.
Proof.
  unfold friendly_from_raw. rewrite !if_err_ok. cbv zeta.
  assert (forall w, negb ((w =? -1) || (w =? 0))%Z = false <-> (w = -1 \/ w = 0)%Z) as Hw
    by (intros w; rewrite negb_false_iff, orb_true_iff, !Z.eqb_eq; done).
  rewrite Hw, negb_false_iff, andb_true_iff, !Z.leb_le. unfold tag_of. split.
  - intros (_ & Hwc & [= <-]). done.
  - intros [Hwc ->]. split; [lia|done].
Qed.

(** ** Claims *)

Definition friendly_ok (f : FriendlyAddress) : Prop := well_typed (fa_raw f).

Lemma friendly_written raw b t f :
  well_typed raw -> friendly_from_raw raw b t = Ok f -> friendly_try_from (fa_encoded f) = Ok f.
Proof.
  intros (_ & Hl & Hu) [Hw ->]%friendly_from_raw_ok. cbn [fa_encoded].
  destruct (workchain_byte _ Hw) as [Hb Hb8].
  set (payload := tag_of b t :: i8_byte (raa_workchain raw) :: raa_hash raw).
  assert (u8s (payload ++ u16_be_bytes (crc16 payload))) as Hu8.
  { apply Forall_app. split; [|apply u16_be_bytes_u8, crc16_u16].
    constructor; [by destruct b, t|]. by constructor. }
  rewrite (friendly_try_from_bytes _ (tag_of b t) (i8_byte (raa_workchain raw)) (raa_hash raw)
    (u16_be_bytes (crc16 payload))); [|by apply url_safe_decode_encode|done|done|done].
  rewrite bool_decide_eq_true_2 by done. rewrite tag_flags_of, Hb. cbn [negb].
  destruct raw as [w hash]. cbn [raa_workchain raa_hash] in *. by destruct Hw as [-> | ->].
Qed.

Lemma friendly_read value f :
  friendly_try_from value = Ok f ->
  fa_encoded f = value /\ length (raa_hash (fa_raw f)) = 32 /\
  friendly_from_raw (fa_raw f) (fa_bounceable f) (fa_test_only f) = Ok f.
Proof.
  intros Hf. pose proof Hf as Hf'. unfold friendly_try_from in Hf.
  apply if_err_ok in Hf as [_ Hf]. apply rbind_ok in Hf as (data & Hd & Hf).
  apply ok_or_ok in Hd. apply if_err_ok in Hf as [Hg _].
  apply orb_false_iff in Hg as [Hlen He]. bool_to_prop.
  apply Nat.eqb_eq in Hlen. pose proof (decode_bytes value data ltac:(tauto)) as Hu.
  destruct data as [|tag [|byte rest]]; [done|done|]. injection Hlen as Hrest.
  rewrite <- (take_drop 32 rest) in Hd, He, Hu.
  assert (length (take 32 rest) = 32) as Hh by (rewrite length_take; lia).
  assert (length (drop 32 rest) = 2) as Hc by (rewrite length_drop; lia).
  set (hash := take 32 rest) in *. set (checksum := drop 32 rest) in *.
  rewrite (friendly_try_from_bytes value tag byte hash checksum Hd He Hh Hc) in Hf'.
  apply if_err_ok in Hf' as [Hcrc Hf]. bool_to_prop.
  destruct (tag_flags tag) as [[b t]|] eqn:Et; [|done]. apply if_err_ok in Hf as [Hw [= <-]].
  apply Forall_cons_1 in Hu as [Ht Hu]. apply Forall_cons_1 in Hu as [Hb Hu].
  apply negb_false_iff, orb_true_iff in Hw. rewrite !Z.eqb_eq in Hw.
  apply (tag_of_flags _ _ _ Ht) in Et. cbn [fa_encoded fa_raw fa_bounceable fa_test_only raa_hash].
  split; [done|]. split; [done|]. apply friendly_from_raw_ok. cbn [raa_workchain raa_hash].
  split; [done|]. cbv zeta. rewrite byte_workchain, <- Et, Hcrc by done. by rewrite <- He.
Qed.
End Friendly.

Section Claims.
Context `{HexCrate} `{Crc16} `{UrlSafeBase64}.

(** Addresses survive their text: a raw address prints to text that reads back
    as itself; a friendly address made from a raw address and flags reads back with
    the same account and the same flags; and friendly text that is accepted is the
    canonical text of the account and flags read from it, so no two texts name the
    same account with the same flags. *)
Theorem address_text_roundtrip :
  (forall a, well_typed a -> raw_from_str (raw_to_string a) = Ok a) /\
  (forall raw b t f, well_typed raw -> friendly_from_raw raw b t = Ok f ->
     friendly_try_from (fa_encoded f) = Ok f) /\
  (forall value f, friendly_try_from value = Ok f ->
     fa_encoded f = value /\
     friendly_from_raw (fa_raw f) (fa_bounceable f) (fa_test_only f) = Ok f).
Proof.
  split; [exact raw_roundtrip|]. split; [exact friendly_written|].
  intros value f (He & _ & Hf)%friendly_read. done.
Qed.
End Claims.
