(* ===== verification/TransferLink.v ===== *)
(** * Transfer links

    The strict parser of [ton://transfer/] links (src/domain/ton_transfer_link.rs). *)

From stdpp Require Import base numbers list option strings.
From S2P Require Import Prelude BoundaryTypes SendDomain Base64 ClientDomain Json CellBoc.
From S2P Require Import ConnectValues Addresses.

Inductive TonTransferAsset :=
  | Asset_Gram
  | Asset_Jetton (master : TonAddressString).

Inductive TonTransferPayload :=
  | Payload_None
  | Payload_Text (text : rstr)
  | Payload_Boc (boc : Boc).

Record ParsedTonTransferLink := mkParsedTonTransferLink {
  ptl_recipient : TonAddressString;
  ptl_asset : TonTransferAsset;
  ptl_amount : option UnsignedDecimalString;
  ptl_payload : TonTransferPayload;
  ptl_expiration : SendExpiration;
}.

Inductive TonTransferLinkError :=
  | NotTonTransfer
  | Link_InvalidUrl
  | MissingRecipient
  | InvalidRecipient
  | DuplicateParameter (name : rstr)
  | UnsupportedParameter (name : rstr)
  | InvalidAmount
  | InvalidExpiration
  | InvalidJettonMaster
  | InvalidBinaryPayload
  | ConflictingPayloads
  | BinaryJettonConflict.

(** ** Percent escapes *)

Definition hex_value (byte : N) : option N :=
  if ((48 <=? byte) && (byte <=? 57))%N then Some (byte - 48)%N
  else if ((97 <=? byte) && (byte <=? 102))%N then Some (byte - 97 + 10)%N
  else if ((65 <=? byte) && (byte <=? 70))%N then Some (byte - 65 + 10)%N
  else None.

Fixpoint unescape (input : bytes) : option bytes :=
  match input with
  | [] => Some []
  | byte :: rest =>
      if negb (byte =? 37)%N then cons byte <$> unescape rest
      else
        match rest with
        | high :: low :: rest =>
            match hex_value high, hex_value low with
            | Some high, Some low => cons (high * 16 + low)%N <$> unescape rest
            | _, _ => None
            end
        | _ => None
        end
  end.

Definition percent_decode_once (value : rstr) : result TonTransferLinkError rstr :=
  ok_or Link_InvalidUrl (unescape (utf8 value) ≫= from_utf8).

(** ** Components *)

(** [str::find] with a set of characters, then [split_at]. *)
Fixpoint split_before (p : char -> bool) (s : rstr) : rstr * rstr :=
  match s with
  | [] => ([], [])
  | c :: rest =>
      if p c then ([], s) else let '(before, after) := split_before p rest in (c :: before, after)
  end.

Definition raw_transfer_components (value : rstr)
  : result TonTransferLinkError (rstr * option rstr) :=
  match split_once 58%N value with
  | None => Err Link_InvalidUrl
  | Some (scheme, after_scheme) =>
      if negb (eq_ignore_ascii_case scheme "ton") then Err Link_InvalidUrl
      else
        match strip_prefix (lit "//") after_scheme with
        | None => Err Link_InvalidUrl
        | Some authority_and_rest =>
            let '(authority, path_and_query) :=
              split_before (fun c => (c =? 47) || (c =? 63) || (c =? 35))%N authority_and_rest in
            if contains 64%N (utf8 authority) || contains 58%N (utf8 authority)
            then Err Link_InvalidUrl
            else
              let '(raw_path, raw_query) :=
                match split_once 63%N path_and_query with
                | Some (path, query) => (path, Some query)
                | None => (path_and_query, None)
                end in
              if contains 32%N (utf8 raw_path) then Err Link_InvalidUrl
              else Ok (raw_path, raw_query)
        end
  end.

Definition is_canonical_raw_address `{HexCrate} (value : rstr) : bool :=
  if negb (contains 58%N value) then true
  else
    match raw_from_str value with
    | Ok address => bool_decide (raw_to_string address = value)
    | Err _ => false
    end.

(** ** Parameters *)

Record RawParameters := mkRawParameters {
  rp_amount : option rstr;
  rp_text : option rstr;
  rp_exp : option rstr;
  rp_jetton : option rstr;
  rp_binary : option rstr;
}.

#[export] Instance eta_RawParameters : Eta RawParameters := fun p =>
  mkRawParameters (rp_amount p) (rp_text p) (rp_exp p) (rp_jetton p) (rp_binary p).

Definition no_parameters : RawParameters := mkRawParameters None None None None None.

Definition set_once (slot : option rstr) (name value : rstr)
  : result TonTransferLinkError (option rstr) :=
  match slot with
  | Some _ => Err (DuplicateParameter name)
  | None => Ok (Some value)
  end.

Definition set_parameter (p : RawParameters) (name value : rstr)
  : result TonTransferLinkError RawParameters :=
  if bool_decide (name = lit "amount") then
    rmap (fun slot => p <| rp_amount := slot |>) (set_once (rp_amount p) name value)
  else if bool_decide (name = lit "text") then
    rmap (fun slot => p <| rp_text := slot |>) (set_once (rp_text p) name value)
  else if bool_decide (name = lit "exp") then
    rmap (fun slot => p <| rp_exp := slot |>) (set_once (rp_exp p) name value)
  else if bool_decide (name = lit "jetton") then
    rmap (fun slot => p <| rp_jetton := slot |>) (set_once (rp_jetton p) name value)
  else if bool_decide (name = lit "bin") then
    rmap (fun slot => p <| rp_binary := slot |>) (set_once (rp_binary p) name value)
  else Err (UnsupportedParameter name).

Definition decode_pair (text : rstr) : result TonTransferLinkError (rstr * rstr) :=
  let '(raw_name, raw_value) := default (text, []) (split_once 61%N text) in
  let? name := percent_decode_once raw_name in
  let? value := percent_decode_once raw_value in
  Ok (name, value).

Fixpoint parse_pairs (pairs : list rstr) (p : RawParameters)
  : result TonTransferLinkError RawParameters :=
  match pairs with
  | [] => Ok p
  | text :: rest =>
      let? decoded := decode_pair text in
      let? p := set_parameter p decoded.1 decoded.2 in
      parse_pairs rest p
  end.

Definition parse_parameters (raw_query : option rstr) : result TonTransferLinkError RawParameters :=
  match raw_query with
  | Some (c :: q) => parse_pairs (split_on 38%N (c :: q)) no_parameters
  | _ => Ok no_parameters
  end.

(** [Option::map(f).transpose()] with an error of its own. *)
Definition transpose_with {A B E} (f : A -> result E B) (o : option A) : result E (option B) :=
  match o with
  | Some a => rmap Some (f a)
  | None => Ok None
  end.

Definition parse_expiration `{BigUintText} (value : option rstr)
  : result TonTransferLinkError SendExpiration :=
  match value with
  | None => Ok Expiration_EngineDefault
  | Some value =>
      let? canonical := map_err (fun _ => InvalidExpiration) (uds_try_from value) in
      let? unix_timestamp := ok_or InvalidExpiration (uds_try_to_u64 canonical) in
      Ok (Expiration_Exact unix_timestamp)
  end.

(** ** The parser *)

(** [u8::is_ascii_control]. *)
Definition is_ascii_control (byte : N) : bool := (byte <? 32)%N || (byte =? 127)%N.

Section Parser.
Context `{BigUintText} `{Crc32c} `{TonCoreBoc} `{HexCrate} `{Crc16} `{UrlSafeBase64}
  `{TonAddressParser} `{UrlCrate}.

Definition parse_address (error : TonTransferLinkError) (value : rstr)
  : result TonTransferLinkError TonAddressString :=
  if negb (is_canonical_raw_address value) then Err error
  else ok_or error (ton_address_string_try_from value).

(** The checks on the URL as the url crate sees it. *)
Definition check_url (value : rstr) : result TonTransferLinkError unit :=
  if existsb is_ascii_control (utf8 value) then Err Link_InvalidUrl
  else
    let? url := ok_or Link_InvalidUrl (url_parse value) in
    if negb (eq_ignore_ascii_case (url_scheme url) "ton")
       || negb match url_host_str url with
               | Some host => eq_ignore_ascii_case host "transfer"
               | None => false
               end
    then Err NotTonTransfer
    else if negb (is_empty (url_username url)) || negb (bool_decide (url_password url = None))
            || negb (bool_decide (url_port url = None))
            || negb (bool_decide (url_fragment url = None))
    then Err Link_InvalidUrl
    else Ok tt.

(** The single path segment that names the recipient. *)
Definition parse_recipient (raw_path : rstr) : result TonTransferLinkError TonAddressString :=
  if is_empty raw_path || bool_decide (raw_path = lit "/") then Err MissingRecipient
  else
    match strip_prefix (lit "/") raw_path with
    | Some path =>
        if is_empty path || contains 47%N path then Err Link_InvalidUrl
        else
          let? recipient_text := percent_decode_once path in
          parse_address InvalidRecipient recipient_text
    | None => Err Link_InvalidUrl
    end.

Definition parse_ton_transfer_link (value : rstr)
  : result TonTransferLinkError ParsedTonTransferLink :=
  let? _ := check_url value in
  let? components := raw_transfer_components value in
  let '(raw_path, raw_query) := components in
  let? recipient := parse_recipient raw_path in
  let? parameters := parse_parameters raw_query in
  let? amount :=
    transpose_with (fun text => map_err (fun _ => InvalidAmount) (uds_try_from text))
      (rp_amount parameters) in
  let? expiration := parse_expiration (rp_exp parameters) in
  let? jetton := transpose_with (parse_address InvalidJettonMaster) (rp_jetton parameters) in
  let? binary :=
    transpose_with (fun text => map_err (fun _ => InvalidBinaryPayload) (boc_try_from text))
      (rp_binary parameters) in
  if negb (bool_decide (rp_text parameters = None)) && negb (is_empty (option_list binary))
  then Err ConflictingPayloads
  else if negb (is_empty (option_list jetton)) && negb (is_empty (option_list binary))
  then Err BinaryJettonConflict
  else
    let asset := match jetton with Some master => Asset_Jetton master | None => Asset_Gram end in
    let payload :=
      match rp_text parameters, binary with
      | _, Some boc => Payload_Boc boc
      | Some text, None => Payload_Text text
      | None, None => Payload_None
      end in
    Ok (mkParsedTonTransferLink recipient asset amount payload expiration).
End Parser.

(** * What a transfer link says

    Percent escapes decode to the text they were written for, and the parser of
    TransferLink.v accepts exactly the links whose query names known parameters, each
    at most once, and reports for every field what its parameter says. *)

(** ** UTF-8 *)

Lemma lor_tag (tag size x : N) :
  (x < size)%N ->
  forallb (fun k => N.lor tag (N.of_nat k) =? tag + N.of_nat k)%N (seq 0 (N.to_nat size)) = true ->
  N.lor tag x = (tag + x)%N.
Proof.
  intros Hx Hall. rewrite forallb_forall in Hall.
  specialize (Hall (N.to_nat x)). rewrite N2Nat.id in Hall. apply N.eqb_eq, Hall, in_seq. lia.
Qed.

Lemma land_mask c k w : N.land (N.shiftr c k) (N.ones w) = ((c / 2 ^ k) mod 2 ^ w)%N.
Proof. by rewrite N.land_ones, N.shiftr_div_pow2. Qed.

Lemma continuation_byte c k :
  N.lor 128 (N.land (N.shiftr c k) 63) = (128 + (c / 2 ^ k) mod 64)%N.
Proof.
  change 63%N with (N.ones 6). rewrite land_mask. change (2 ^ 6)%N with 64%N.
  apply (lor_tag 128 64); [by apply N.mod_lt|reflexivity].
Qed.

Lemma lead_byte tag w c k :
  forallb (fun n => N.lor tag (N.of_nat n) =? tag + N.of_nat n)%N (seq 0 (N.to_nat (2 ^ w))) = true ->
  N.lor tag (N.land (N.shiftr c k) (N.ones w)) = (tag + (c / 2 ^ k) mod 2 ^ w)%N.
Proof.
  intros Hall. rewrite land_mask. apply (lor_tag tag (2 ^ w)); [|exact Hall].
  apply N.mod_lt, N.pow_nonzero. done.
Qed.

(** Encoding as divisions instead of bit operations. *)
Definition utf8_arith (c : char) : bytes :=
  (if c <? 128 then [c]
   else if c <? 2048 then [192 + c / 64 mod 32; 128 + c mod 64]
   else if c <? 65536 then [224 + c / 4096 mod 16; 128 + c / 64 mod 64; 128 + c mod 64]
   else [240 + c / 262144 mod 8; 128 + c / 4096 mod 64; 128 + c / 64 mod 64; 128 + c mod 64])%N.

Lemma utf8_char_arith c : utf8_char c = utf8_arith c.
Proof.
  unfold utf8_char, utf8_arith. rewrite !continuation_byte, N.div_1_r.
  change 31%N with (N.ones 5) at 1. change 15%N with (N.ones 4) at 1.
  change 7%N with (N.ones 3) at 1.
  rewrite (lead_byte 192 5), (lead_byte 224 4), (lead_byte 240 3); reflexivity.
Qed.

Lemma decode_two b0 b1 rest c :
  (c = (b0 - 192) * 64 + (b1 - 128) /\ 194 <= b0 <= 223 /\ 128 <= b1 <= 191)%N ->
  from_utf8 (b0 :: b1 :: rest) = cons c <$> from_utf8 rest.
Proof.
  intros (-> & H0 & H1). simpl. unfold within, continuation.
  destruct (N.ltb_spec b0 128); [lia|].
  rewrite !(proj2 (N.leb_le _ _)) by lia. done.
Qed.

Lemma decode_three b0 b1 b2 rest c :
  (c = (b0 - 224) * 4096 + (b1 - 128) * 64 + (b2 - 128) /\ 224 <= b0 <= 239 /\ 128 <= b2 <= 191
   /\ 128 <= b1 <= 191 /\ (b0 = 224 -> 160 <= b1) /\ (b0 = 237 -> b1 <= 159))%N ->
  from_utf8 (b0 :: b1 :: b2 :: rest) = cons c <$> from_utf8 rest.
Proof.
  intros (-> & H0 & H1 & H2 & H3 & H4). simpl. unfold within, continuation.
  destruct (N.ltb_spec b0 128); [lia|]. destruct (N.leb_spec b0 223); [lia|].
  rewrite andb_false_r. simpl.
  destruct (N.eqb_spec b0 224), (N.eqb_spec b0 237);
    rewrite !(proj2 (N.leb_le _ _)) by lia; done.
Qed.

Lemma decode_four b0 b1 b2 b3 rest c :
  (c = (b0 - 240) * 262144 + (b1 - 128) * 4096 + (b2 - 128) * 64 + (b3 - 128)
   /\ 240 <= b0 <= 244 /\ 128 <= b2 <= 191 /\ 128 <= b3 <= 191
   /\ 128 <= b1 <= 191 /\ (b0 = 240 -> 144 <= b1) /\ (b0 = 244 -> b1 <= 143))%N ->
  from_utf8 (b0 :: b1 :: b2 :: b3 :: rest) = cons c <$> from_utf8 rest.
Proof.
  intros (-> & H0 & H1 & H2 & H3 & H4 & H5). simpl. unfold within, continuation.
  destruct (N.ltb_spec b0 128); [lia|]. destruct (N.leb_spec b0 223); [lia|].
  destruct (N.leb_spec b0 239); [lia|]. rewrite !andb_false_r. simpl.
  destruct (N.eqb_spec b0 240), (N.eqb_spec b0 244);
    rewrite !(proj2 (N.leb_le _ _)) by lia; done.
Qed.

(** The digits base 64 of a scalar value. *)
Lemma base64_digits c :
  exists d3 d2 d1 d0,
    (c = d3 * 262144 + d2 * 4096 + d1 * 64 + d0 /\ d2 < 64 /\ d1 < 64 /\ d0 < 64
     /\ c / 262144 = d3 /\ c / 4096 = d3 * 64 + d2 /\ c / 64 = d3 * 4096 + d2 * 64 + d1
     /\ c mod 64 = d0 /\ c / 64 mod 64 = d1 /\ c / 4096 mod 64 = d2)%N.
Proof.
  exists (c / 262144)%N, (c / 4096 mod 64)%N, (c / 64 mod 64)%N, (c mod 64)%N.
  pose proof (N.mod_lt c 64). pose proof (N.mod_lt (c / 64) 64). pose proof (N.mod_lt (c / 4096) 64).
  pose proof (N.div_mod c 64). pose proof (N.div_mod (c / 64) 64).
  pose proof (N.div_mod (c / 4096) 64).
  assert (c / 4096 = c / 64 / 64)%N by (rewrite N.Div0.div_div; done).
  assert (c / 262144 = c / 4096 / 64)%N by (rewrite N.Div0.div_div; done).
  repeat split; lia.
Qed.

Lemma from_utf8_char c rest : scalar c -> from_utf8 (utf8_char c ++ rest) = cons c <$> from_utf8 rest.
Proof.
  rewrite utf8_char_arith. unfold utf8_arith, scalar. intros Hc.
  destruct (N.ltb_spec c 128) as [Hs|Hs]; [simpl; by rewrite (proj2 (N.ltb_lt _ _) Hs)|].
  destruct (base64_digits c) as (d3 & d2 & d1 & d0 & Hd & H2 & H1 & H0 & E3 & E2 & E1 & E).
  destruct E as (-> & -> & ->). rewrite E1, E2, E3.
  destruct (N.ltb_spec c 2048); [|destruct (N.ltb_spec c 65536)]; simpl.
  - rewrite N.mod_small by lia. apply decode_two. lia.
  - rewrite N.mod_small by lia. apply decode_three. lia.
  - rewrite N.mod_small by lia. apply decode_four. lia.
Qed.

Lemma from_utf8_utf8 s : Forall scalar s -> from_utf8 (utf8 s) = Some s.
Proof.
  induction 1 as [|c s Hc _ IH]; [done|]. change (utf8 (c :: s)) with (utf8_char c ++ utf8 s).
  by rewrite from_utf8_char, IH.
Qed.

(** A byte below 128 occurs in the encoding exactly where the character does. *)
Lemma contains_utf8 b s : (b < 128)%N -> contains b (utf8 s) = contains b s.
Proof.
  intros Hb. induction s as [|c s IH]; [done|].
  change (utf8 (c :: s)) with (utf8_char c ++ utf8 s). rewrite contains_app, IH.
  change (contains b (c :: s)) with ((b =? c)%N || contains b s). f_equal.
  rewrite utf8_char_arith. unfold utf8_arith.
  destruct (N.ltb_spec c 128); [simpl; apply orb_false_r|].
  destruct (N.eqb_spec b c) as [->|]; [lia|]. unfold contains.
  assert (Hhigh : forall x, (128 <= x)%N -> (b =? x)%N = false) by (intros; apply N.eqb_neq; lia).
  destruct (c <? 2048)%N; [|destruct (c <? 65536)%N]; cbn [existsb];
    rewrite !Hhigh by (apply N.le_trans with (2 := N.le_add_r _ _); done); done.
Qed.

(** ** Escaping, as any writer of links may do it *)

Definition hex_upper (digit : N) : N := if (digit <? 10)%N then (48 + digit)%N else (55 + digit)%N.

(** A writer may leave an ASCII byte other than the percent sign as it is. *)
Definition escape_byte (keep : N -> bool) (byte : N) : rstr :=
  if keep byte && (byte <? 128)%N && negb (byte =? 37)%N then [byte]
  else [37; hex_upper (byte / 16); hex_upper (byte mod 16)]%N.

Definition percent_encode (keep : N -> bool) (text : rstr) : rstr :=
  flat_map (escape_byte keep) (utf8 text).

Lemma hex_value_upper digit : (digit < 16)%N -> hex_value (hex_upper digit) = Some digit.
Proof.
  intros Hd. unfold hex_value, hex_upper. destruct (N.ltb_spec digit 10).
  - rewrite !(proj2 (N.leb_le _ _)) by lia. f_equal. lia.
  - destruct (N.leb_spec (55 + digit) 57); [lia|]. rewrite andb_false_r.
    destruct (N.leb_spec 97 (55 + digit)); [lia|]. simpl.
    rewrite !(proj2 (N.leb_le _ _)) by lia. f_equal. lia.
Qed.

Lemma utf8_ascii s : Forall (fun c => (c < 128)%N) s -> utf8 s = s.
Proof.
  induction 1 as [|c s Hc _ IH]; [done|]. change (utf8 (c :: s)) with (utf8_char c ++ utf8 s).
  rewrite IH. unfold utf8_char. by rewrite (proj2 (N.ltb_lt _ _) Hc).
Qed.

Lemma escape_byte_ascii keep byte :
  (byte < 256)%N -> Forall (fun c => (c < 128)%N) (escape_byte keep byte).
Proof.
  intros Hb. assert (byte / 16 < 16)%N by (apply N.Div0.div_lt_upper_bound; lia).
  pose proof (N.mod_lt byte 16). unfold escape_byte, hex_upper.
  destruct (keep byte && (byte <? 128)%N && negb (byte =? 37)%N) eqn:E.
  - bool_to_prop. by repeat constructor.
  - destruct (byte / 16 <? 10)%N, (byte mod 16 <? 10)%N; repeat constructor; lia.
Qed.

Lemma unescape_byte keep byte rest :
  (byte < 256)%N ->
  unescape (escape_byte keep byte ++ rest) = cons byte <$> unescape rest.
Proof.
  intros Hb. assert (byte / 16 < 16)%N by (apply N.Div0.div_lt_upper_bound; lia).
  pose proof (N.mod_lt byte 16). pose proof (N.div_mod byte 16). unfold escape_byte.
  destruct (keep byte && (byte <? 128)%N && negb (byte =? 37)%N) eqn:E; cbn [app unescape].
  - bool_to_prop. by rewrite (proj2 (N.eqb_neq byte 37)).
  - cbn [N.eqb Pos.eqb negb]. rewrite !hex_value_upper by lia. do 2 f_equal. lia.
Qed.

Lemma unescape_escape keep data :
  Forall (fun b => (b < 256)%N) data -> unescape (flat_map (escape_byte keep) data) = Some data.
Proof.
  induction 1 as [|b data Hb _ IH]; [done|]. cbn [flat_map]. by rewrite unescape_byte, IH.
Qed.

Lemma percent_encode_ascii keep text :
  Forall (fun c => (c < 128)%N) (percent_encode keep text).
Proof.
  unfold percent_encode. induction (utf8_bytes text) as [|b data Hb _ IH]; [constructor|].
  apply Forall_app. split; [by apply escape_byte_ascii|exact IH].
Qed.

(** Percent escapes are decoded exactly once and lose nothing.  Whatever text a
    link carries, and whichever bytes of its UTF-8 form the writer leaves
    unescaped (any ASCII byte but the percent sign itself, a plus sign for
    instance), decoding the written form gives the text back. *)
Theorem percent_escapes_roundtrip keep text :
  Forall scalar text -> percent_decode_once (percent_encode keep text) = Ok text.
Proof.
  intros Hs. unfold percent_decode_once. rewrite utf8_ascii by apply percent_encode_ascii.
  unfold percent_encode. rewrite unescape_escape by apply utf8_bytes. simpl.
  by rewrite from_utf8_utf8.
Qed.

(** ** The text of a link *)

Definition delimiter (c : char) : bool := ((c =? 47) || (c =? 63) || (c =? 35))%N.

Lemma split_before_spec p s before after :
  split_before p s = (before, after) <->
    s = before ++ after /\ forallb (fun c => negb (p c)) before = true
    /\ match after with c :: _ => p c = true | [] => True end.
Proof.
  revert before after. induction s as [|c s IH]; intros before after; simpl.
  - split; [intros [= <- <-]; done|]. intros (Hs & _). destruct before, after; done.
  - destruct (p c) eqn:E.
    + split; [intros [= <- <-]; done|]. intros (Hs & Hb & Ha).
      destruct before as [|b before]; [by simplify_eq/=|]. simplify_eq/=. by rewrite E in Hb.
    + destruct (split_before p s) as [b' a'] eqn:Es. split.
      * intros [= <- <-]. destruct (proj1 (IH b' a') eq_refl) as (-> & Hb & Ha).
        simpl. by rewrite E, Hb.
      * intros (Hs & Hb & Ha). destruct before as [|b before]; simplify_eq/=.
        -- congruence.
        -- rewrite E in Hb. simpl in Hb. pose proof (proj2 (IH before after)) as H.
           by injection (H (conj eq_refl (conj Hb Ha))) as <- <-.
Qed.

Definition query_text (query : option rstr) : rstr :=
  match query with Some q => 63%N :: q | None => [] end.

(** A link with one non-empty path is its scheme, its authority, the path and the
    query, each free of the characters that delimit it. *)
Definition link_layout (value segment : rstr) (query : option rstr) : Prop :=
  exists scheme authority,
    value = scheme ++ lit "://" ++ authority ++ lit "/" ++ segment ++ query_text query
    /\ map to_ascii_lowercase scheme = lit "ton" /\ contains 58%N scheme = false
    /\ forallb (fun c => negb (delimiter c)) authority = true
    /\ contains 64%N authority = false /\ contains 58%N authority = false
    /\ contains 63%N segment = false /\ contains 32%N segment = false.

Lemma query_split value path query :
  (match split_once 63%N value with Some (p, q) => (p, Some q) | None => (value, None) end)
    = (path, query)
  <-> value = path ++ query_text query /\ contains 63%N path = false.
Proof.
  destruct (split_once 63%N value) as [[p q]|] eqn:E.
  - apply split_once_Some in E as [-> Hp]. split; [by intros [= <- <-]|].
    intros [Hv Hc]. destruct query as [q'|]; simpl in Hv.
    + pose proof (split_once_app 63%N p q Hp) as E. rewrite Hv, split_once_app in E by done.
      by simplify_eq.
    + rewrite app_nil_r in Hv. subst path. rewrite contains_app in Hc. simpl in Hc.
      by rewrite orb_true_r in Hc.
  - apply split_once_None in E. split; [intros [= <- <-]; by rewrite app_nil_r|].
    intros [-> Hc]. destruct query as [q'|]; simpl in *.
    + rewrite contains_app in E. simpl in E. by rewrite orb_true_r in E.
    + by rewrite app_nil_r.
Qed.

Lemma raw_transfer_components_layout value segment query :
  raw_transfer_components value = Ok (47%N :: segment, query) <-> link_layout value segment query.
Proof.
  unfold raw_transfer_components, link_layout. split.
  - destruct (split_once 58%N value) as [[scheme after]|] eqn:Es; [|done].
    apply split_once_Some in Es as [-> Hscheme].
    destruct (eq_ignore_ascii_case scheme "ton") eqn:Eton; [|done].
    apply bool_decide_eq_true in Eton.
    destruct (strip_prefix (lit "//") after) as [rest|] eqn:Ep; [|done].
    apply strip_prefix_Some in Ep as ->.
    destruct (split_before _ rest) as [authority tail] eqn:Eb.
    apply split_before_spec in Eb as (-> & Hauth & _).
    cbn [negb]. destruct (contains 64%N (utf8 authority) || _) eqn:Ea; [done|].
    rewrite !contains_utf8 in Ea by done. apply orb_false_iff in Ea as [Hat Hcolon].
    destruct (match split_once 63%N tail with Some _ => _ | None => _ end) as [path q] eqn:Eq.
    apply query_split in Eq as [-> Hpath]. rewrite contains_utf8 by done.
    destruct (contains 32%N path) eqn:Esp; [done|]. intros [= -> ->].
    exists scheme, authority. simpl in Hpath, Esp. repeat split; try done.
  - intros (scheme & authority & -> & Hton & Hscheme & Hauth & Hat & Hcolon & Hq & Hsp).
    change (lit "://") with (58%N :: lit "//"). rewrite <- app_comm_cons.
    rewrite split_once_app by done. unfold eq_ignore_ascii_case.
    rewrite bool_decide_eq_true_2 by done. cbn [negb].
    rewrite (proj2 (strip_prefix_Some _ _ _) eq_refl).
    rewrite (proj2 (split_before_spec _ _ authority (47%N :: segment ++ query_text query))) by done.
    rewrite !contains_utf8, Hat, Hcolon by done. cbn [orb].
    rewrite (proj2 (query_split _ (47%N :: segment) query)) by done.
    rewrite contains_utf8 by done. simpl. by rewrite Hsp.
Qed.

(** ** The parameters of a query *)

Inductive LinkParameter := P_amount | P_text | P_exp | P_jetton | P_bin.

#[export] Instance LinkParameter_eq_dec : EqDecision LinkParameter.
Proof. solve_decision. Defined.

Definition parameter_name (n : LinkParameter) : rstr :=
  match n with
  | P_amount => lit "amount"
  | P_text => lit "text"
  | P_exp => lit "exp"
  | P_jetton => lit "jetton"
  | P_bin => lit "bin"
  end.

Definition slot_of (n : LinkParameter) (p : RawParameters) : option rstr :=
  match n with
  | P_amount => rp_amount p
  | P_text => rp_text p
  | P_exp => rp_exp p
  | P_jetton => rp_jetton p
  | P_bin => rp_binary p
  end.

(** The decoded pairs of a query, and the value a pair list gives a name. *)
Fixpoint decode_pairs (texts : list rstr) : result TonTransferLinkError (list (rstr * rstr)) :=
  match texts with
  | [] => Ok []
  | text :: rest =>
      let? p := decode_pair text in
      let? ps := decode_pairs rest in
      Ok (p :: ps)
  end.

Definition query_pairs (query : option rstr) : result TonTransferLinkError (list (rstr * rstr)) :=
  match query with
  | Some (c :: q) => decode_pairs (split_on 38%N (c :: q))
  | _ => Ok []
  end.

Fixpoint value_of (n : LinkParameter) (pairs : list (rstr * rstr)) : option rstr :=
  match pairs with
  | [] => None
  | (name, value) :: rest =>
      if bool_decide (name = parameter_name n) then Some value else value_of n rest
  end.

Definition known (name : rstr) : Prop := exists n, name = parameter_name n.

#[export] Instance parameter_name_inj : Inj eq eq parameter_name.
Proof. intros [] []; vm_compute; congruence. Qed.

Lemma slots_ext p q : (forall n, slot_of n p = slot_of n q) -> p = q.
Proof.
  destruct p, q. intros H.
  pose proof (H P_amount). pose proof (H P_text). pose proof (H P_exp). pose proof (H P_jetton).
  pose proof (H P_bin). simpl in *. congruence.
Qed.

(** The parameters with one slot filled. *)
Definition with_slot (n : LinkParameter) (value : rstr) (p : RawParameters) : RawParameters :=
  match n with
  | P_amount => p <| rp_amount := Some value |>
  | P_text => p <| rp_text := Some value |>
  | P_exp => p <| rp_exp := Some value |>
  | P_jetton => p <| rp_jetton := Some value |>
  | P_bin => p <| rp_binary := Some value |>
  end.

Lemma slot_with_slot m n value p :
  slot_of m (with_slot n value p) = if bool_decide (m = n) then Some value else slot_of m p.
Proof. by destruct n, m. Qed.

Lemma set_parameter_known p n value :
  set_parameter p (parameter_name n) value =
    match slot_of n p with
    | Some _ => Err (DuplicateParameter (parameter_name n))
    | None => Ok (with_slot n value p)
    end.
Proof. unfold set_parameter, set_once. destruct n; simpl; by case_match. Qed.

Lemma set_parameter_ok p name value p' :
  set_parameter p name value = Ok p' <->
    exists n, name = parameter_name n /\ slot_of n p = None /\ p' = with_slot n value p.
Proof.
  split.
  - intros H.
    assert (exists n, name = parameter_name n) as [n ->].
    { unfold set_parameter in H. repeat (case_bool_decide; [subst name|]); try done.
      - by exists P_amount.
      - by exists P_text.
      - by exists P_exp.
      - by exists P_jetton.
      - by exists P_bin. }
    rewrite set_parameter_known in H. exists n. by destruct (slot_of n p); simplify_eq.
  - intros (n & -> & Hn & ->). by rewrite set_parameter_known, Hn.
Qed.

Lemma value_of_None n pairs : value_of n pairs = None <-> parameter_name n ∉ pairs.*1.
Proof.
  induction pairs as [|[name value] pairs IH]; simpl; [split; [intros _; apply not_elem_of_nil|done]|].
  rewrite not_elem_of_cons. case_bool_decide as E; [naive_solver|].
  rewrite IH. naive_solver.
Qed.

(** What a run over pairs with distinct names makes of the slots. *)
Definition overlay (pairs : list (rstr * rstr)) (p p' : RawParameters) : Prop :=
  (forall n, parameter_name n ∈ pairs.*1 -> slot_of n p = None)
  /\ forall n, slot_of n p' = match value_of n pairs with Some v => Some v | None => slot_of n p end.

Lemma overlay_nil p p' : overlay [] p p' <-> p' = p.
Proof.
  split; [intros [_ H]; apply slots_ext, H|]. intros ->. split; [|done].
  intros n Hn. by apply elem_of_nil in Hn.
Qed.

Lemma overlay_cons n value pairs p p' :
  parameter_name n ∉ pairs.*1 ->
  overlay ((parameter_name n, value) :: pairs) p p' <->
    slot_of n p = None /\ overlay pairs (with_slot n value p) p'.
Proof.
  intros Hnew. unfold overlay. cbn [fmap list_fmap fst value_of].
  assert (Hn : value_of n pairs = None) by by apply value_of_None.
  setoid_rewrite elem_of_cons. split.
  - intros [Hfree Ho]. split; [by apply Hfree; left|]. split.
    + intros m Hin. rewrite slot_with_slot, bool_decide_eq_false_2 by (intros ->; done). apply Hfree. by right.
    + intros m. rewrite (Ho m), slot_with_slot. destruct (decide (m = n)) as [->|Hm].
      * rewrite Hn. repeat case_bool_decide; done.
      * rewrite (bool_decide_eq_false_2 (m = n)) by done. rewrite bool_decide_eq_false_2; [done|].
        intros Heq. by apply (inj parameter_name) in Heq.
  - intros (Hs & Hfree & Ho). split.
    + intros m [Heq|Hin]; [by apply (inj parameter_name) in Heq as ->|].
      pose proof (Hfree m Hin) as Hf. rewrite slot_with_slot in Hf. by case_bool_decide.
    + intros m. rewrite (Ho m), slot_with_slot. destruct (decide (m = n)) as [->|Hm].
      * rewrite Hn. repeat case_bool_decide; done.
      * rewrite (bool_decide_eq_false_2 (m = n)) by done. rewrite bool_decide_eq_false_2; [done|].
        intros Heq. by apply (inj parameter_name) in Heq.
Qed.

Lemma parse_pairs_ok texts p p' :
  parse_pairs texts p = Ok p' <->
    exists pairs, decode_pairs texts = Ok pairs /\ NoDup pairs.*1 /\ Forall known pairs.*1
      /\ overlay pairs p p'.
Proof.
  revert p. induction texts as [|text texts IH]; intros p; cbn [parse_pairs decode_pairs].
  - split.
    + intros [= <-]. exists []. rewrite overlay_nil. repeat split; constructor.
    + intros (pairs & [= <-] & _ & _ & ->%overlay_nil). done.
  - rewrite rbind_ok. split.
    + intros ([name value] & Hd & (q & Hset & Hrest)%rbind_ok).
      cbn [fst snd] in Hset. apply set_parameter_ok in Hset as (n & -> & Hn & ->).
      apply IH in Hrest as (pairs & Hp & Hdup & Hk & Ho).
      exists ((parameter_name n, value) :: pairs). rewrite Hd, Hp.
      assert (Hnew : parameter_name n ∉ pairs.*1).
      { intros Hin. apply (proj1 Ho) in Hin. rewrite slot_with_slot in Hin. by case_bool_decide. }
      rewrite overlay_cons by done. split; [done|]. split; [by constructor|].
      split; [|done]. constructor; [by exists n|done].
    + intros (pairs & Hd & Hdup & Hk & Ho).
      apply rbind_ok in Hd as ([name value] & Hd & (ps & Hps & [= <-])%rbind_ok).
      exists (name, value). split; [done|]. cbn [fst snd fmap list_fmap] in *.
      apply NoDup_cons in Hdup as [Hnew Hdup]. apply Forall_cons in Hk as [[n ->] Hk].
      apply overlay_cons in Ho as [Hs Ho]; [|done].
      apply rbind_ok. exists (with_slot n value p). rewrite set_parameter_ok. split; [by exists n|].
      apply IH. by exists ps.
Qed.

Lemma parse_parameters_ok query p :
  parse_parameters query = Ok p <->
    exists pairs, query_pairs query = Ok pairs /\ NoDup pairs.*1 /\ Forall known pairs.*1
      /\ forall n, slot_of n p = value_of n pairs.
Proof.
  assert (Hov : forall pairs q, overlay pairs no_parameters q <->
            forall n, slot_of n q = value_of n pairs).
  { intros pairs q. unfold overlay. split.
    - intros [_ Ho] n. rewrite (Ho n). by destruct (value_of n pairs), n.
    - intros Ho. split; [by intros []|]. intros n. rewrite (Ho n). by destruct (value_of n pairs), n. }
  unfold parse_parameters, query_pairs.
  setoid_rewrite <- Hov. destruct query as [[|c q]|]; [|apply parse_pairs_ok|].
  all: split; [intros [= <-]; exists []; rewrite overlay_nil; repeat split; constructor|].
  all: by intros (pairs & [= <-] & _ & _ & ->%overlay_nil).
Qed.

(** ** The parser *)

Section Parser.
Context `{BigUintText} `{Crc32c} `{TonCoreBoc} `{HexCrate} `{Crc16} `{UrlSafeBase64}
  `{TonAddressParser} `{UrlCrate}.

(** A text that names an account: a raw address is in its one canonical spelling. *)
Definition names_account (text : rstr) (address : TonAddressString) : Prop :=
  is_canonical_raw_address text = true /\ ton_address_string_try_from text = Some address.

(** What the decoded pairs of a query say of each field of a link. *)
Definition asset_said (pairs : list (rstr * rstr)) (asset : TonTransferAsset) : Prop :=
  match value_of P_jetton pairs with
  | None => asset = Asset_Gram
  | Some text => exists master, names_account text master /\ asset = Asset_Jetton master
  end.

Definition expiration_said (pairs : list (rstr * rstr)) (expiration : SendExpiration) : Prop :=
  match value_of P_exp pairs with
  | None => expiration = Expiration_EngineDefault
  | Some text =>
      exists canonical seconds, uds_try_from text = Ok canonical
        /\ uds_try_to_u64 canonical = Some seconds /\ expiration = Expiration_Exact seconds
  end.

Definition payload_said (pairs : list (rstr * rstr)) (payload : TonTransferPayload) : Prop :=
  match value_of P_text pairs, value_of P_bin pairs with
  | None, None => payload = Payload_None
  | Some text, None => payload = Payload_Text text
  | None, Some text =>
      value_of P_jetton pairs = None
      /\ exists boc, boc_try_from text = Ok boc /\ payload = Payload_Boc boc
  | Some _, Some _ => False
  end.

Definition amount_said (pairs : list (rstr * rstr)) (amount : option UnsignedDecimalString) : Prop :=
  match value_of P_amount pairs with
  | None => amount = None
  | Some text => exists canonical, uds_try_from text = Ok canonical /\ amount = Some canonical
  end.

Record link_said (value : rstr) (link : ParsedTonTransferLink) : Prop := {
  said_url : check_url value = Ok tt;
  said_parts : exists segment query recipient pairs,
    link_layout value segment query
    /\ segment <> [] /\ contains 47%N segment = false
    /\ percent_decode_once segment = Ok recipient
    /\ names_account recipient (ptl_recipient link)
    /\ query_pairs query = Ok pairs /\ NoDup pairs.*1 /\ Forall known pairs.*1
    /\ amount_said pairs (ptl_amount link) /\ expiration_said pairs (ptl_expiration link)
    /\ asset_said pairs (ptl_asset link) /\ payload_said pairs (ptl_payload link);
}.

Lemma parse_address_ok error text address :
  parse_address error text = Ok address <-> names_account text address.
Proof.
  unfold parse_address, names_account. rewrite if_err_ok, ok_or_ok, negb_false_iff. done.
Qed.

Lemma transpose_with_ok {A B E} (f : A -> result E B) o r :
  transpose_with f o = Ok r <->
    match o with None => r = None | Some a => exists b, f a = Ok b /\ r = Some b end.
Proof.
  destruct o as [a|]; simpl; [|naive_solver]. unfold rmap. rewrite rbind_ok. naive_solver.
Qed.

Lemma transpose_map_err_ok {A B E F} (f : A -> result E B) (error : E -> F) o r :
  transpose_with (fun a => map_err error (f a)) o = Ok r <->
    match o with None => r = None | Some a => exists b, f a = Ok b /\ r = Some b end.
Proof. rewrite transpose_with_ok. destruct o; [|done]. by setoid_rewrite map_err_ok. Qed.

Lemma transpose_parse_address_ok error o r :
  transpose_with (parse_address error) o = Ok r <->
    match o with None => r = None | Some a => exists b, names_account a b /\ r = Some b end.
Proof. rewrite transpose_with_ok. destruct o; [|done]. by setoid_rewrite parse_address_ok. Qed.

Lemma parse_expiration_ok text expiration :
  parse_expiration text = Ok expiration <->
    match text with
    | None => expiration = Expiration_EngineDefault
    | Some text =>
        exists canonical seconds, uds_try_from text = Ok canonical
          /\ uds_try_to_u64 canonical = Some seconds /\ expiration = Expiration_Exact seconds
    end.
Proof.
  destruct text as [text|]; simpl; [|naive_solver]. rewrite rbind_ok.
  setoid_rewrite map_err_ok. setoid_rewrite rbind_ok. setoid_rewrite ok_or_ok. naive_solver.
Qed.

Lemma parse_recipient_ok path recipient :
  parse_recipient path = Ok recipient <->
    exists segment text, path = 47%N :: segment /\ segment <> [] /\ contains 47%N segment = false
      /\ percent_decode_once segment = Ok text /\ names_account text recipient.
Proof.
  unfold parse_recipient. rewrite if_err_ok. split.
  - intros [_ H']. destruct (strip_prefix (lit "/") path) as [segment|] eqn:E; [|done].
    apply strip_prefix_Some in E as ->. apply if_err_ok in H' as [[Hne Hs]%orb_false_iff H'].
    apply rbind_ok in H' as (text & Ht & Ha%parse_address_ok). exists segment, text.
    by destruct segment.
  - intros (segment & text & -> & Hne & Hs & Ht & Ha). destruct segment as [|c segment]; [done|].
    split; [by case_bool_decide|]. change (strip_prefix (lit "/") _) with (Some (c :: segment)).
    cbn beta iota. apply if_err_ok. split; [exact Hs|]. rewrite Ht. by apply parse_address_ok.
Qed.

Lemma parse_link_sound value link :
  parse_ton_transfer_link value = Ok link -> link_said value link.
Proof.
  unfold parse_ton_transfer_link. rewrite rbind_ok.
  intros ([] & Hurl & ([path query] & Hraw & Hk)%rbind_ok). split; [exact Hurl|].
  apply rbind_ok in Hk as (recipient & (segment & text & -> & Hrec)%parse_recipient_ok & Hk).
  apply raw_transfer_components_layout in Hraw.
  apply rbind_ok in Hk as (parameters & (pairs & Hq & Hdup & Hkn & Hs)%parse_parameters_ok & Hk).
  apply rbind_ok in Hk as (amount & Hamount%transpose_map_err_ok & Hk).
  apply rbind_ok in Hk as (expiration & Hexp%parse_expiration_ok & Hk).
  apply rbind_ok in Hk as (jetton & Hjetton%transpose_parse_address_ok & Hk).
  apply rbind_ok in Hk as (binary & Hbinary%transpose_map_err_ok & Hk).
  apply if_err_ok in Hk as [Htb Hk]. apply if_err_ok in Hk as [Hjb [= <-]].
  exists segment, query, text, pairs. cbn [ptl_recipient ptl_amount ptl_expiration ptl_asset ptl_payload].
  unfold amount_said, expiration_said, asset_said, payload_said. rewrite <- !Hs.
  cbn [slot_of]. destruct Hrec as (Hne & Hsl & Hdec & Hacc).
  repeat (split; [done|]). split; [by destruct (rp_jetton parameters); naive_solver|].
  destruct (rp_text parameters), (rp_binary parameters), (rp_jetton parameters); naive_solver.
Qed.

Lemma parse_link_complete value link :
  link_said value link -> parse_ton_transfer_link value = Ok link.
Proof.
  unfold parse_ton_transfer_link. rewrite rbind_ok.
  intros [Hurl (segment & query & text & pairs & Hlay & Hne & Hsl & Hdec & Hacc & Hq & Hdup & Hkn
    & Hamount & Hexp & Hasset & Hpayload)].
  exists tt. split; [done|]. apply raw_transfer_components_layout in Hlay. rewrite Hlay.
  cbn [rbind]. apply rbind_ok. exists (ptl_recipient link).
  split; [apply parse_recipient_ok; by exists segment, text|].
  set (p := mkRawParameters (value_of P_amount pairs) (value_of P_text pairs) (value_of P_exp pairs)
              (value_of P_jetton pairs) (value_of P_bin pairs)).
  apply rbind_ok. exists p. split; [apply parse_parameters_ok; exists pairs; repeat split; try done; by intros []|].
  apply rbind_ok. exists (ptl_amount link).
  split; [by apply transpose_map_err_ok|].
  apply rbind_ok. exists (ptl_expiration link). split; [by apply parse_expiration_ok|].
  unfold asset_said in Hasset. unfold payload_said in Hpayload.
  apply rbind_ok. exists (match ptl_asset link with Asset_Jetton m => Some m | Asset_Gram => None end).
  split.
  { apply transpose_parse_address_ok. cbn [rp_jetton p].
    destruct (value_of P_jetton pairs); [destruct Hasset as (m & Hm & ->); by exists m|by rewrite Hasset]. }
  apply rbind_ok. exists (match ptl_payload link with Payload_Boc b => Some b | _ => None end).
  split.
  { apply transpose_map_err_ok. cbn [rp_binary p].
    destruct (value_of P_text pairs), (value_of P_bin pairs); try (by rewrite Hpayload); [done|].
    destruct Hpayload as (_ & boc & Hboc & ->). by exists boc. }
  destruct link as [recipient asset amount payload expiration]. cbn in *.
  destruct (value_of P_text pairs), (value_of P_bin pairs), (value_of P_jetton pairs);
    naive_solver.
Qed.

(** C28: The link parser is sound and complete.  [parse_ton_transfer_link] returns a
    link exactly when the URL is an acceptable [ton://transfer] URL whose text is
    scheme, authority, one non-empty path segment and an optional query; the
    segment names the recipient; every pair of the query has a known name and no
    name occurs twice; and then the amount, expiration, asset and payload are
    exactly what the parameters amount, exp, jetton, text and bin say, where bin is
    accompanied by neither text nor jetton.  No parameter is ignored, and an absent
    one leaves the documented default. *)
Theorem transfer_link_sound_and_complete value link :
  parse_ton_transfer_link value = Ok link <-> link_said value link.
Proof. split; [apply parse_link_sound|apply parse_link_complete]. Qed.
End Parser.
