(* ===== verification/ConnectRpc.v ===== *)
(** * TON Connect requests and responses

    crates/ton-connect-core/src/rpc.rs and capability.rs, with the feature types of
    connect.rs: the typed requests of a dApp, their JSON form in both directions, the
    checks against the session and against the capabilities of the wallet, and the
    correlation of responses.

    A type with [Serialize] has a function to [Value], a type with [Deserialize] one
    from [Value].  Fields that can be absent but not [null] are [optional_non_null]. *)

From stdpp Require Import base numbers list option strings.
From S2P Require Import Prelude BoundaryTypes SendDomain Base64 Json CellBoc ConnectSession.
From S2P Require Import ConnectValues Addresses.

(** ** Serde *)

(** A struct with [deny_unknown_fields]: the declared members, in order. *)
Definition strict_members (names : list string) (v : Value) : option (list (option Value)) :=
  if known_members names v then snd <$> struct_members names v else None.

(** [#[serde(tag = "...")]]: the name of the variant and the rest of the content.  A
    sequence carries the tag as its first item. *)
Definition tagged_content (tag : string) (v : Value) : option (rstr * Value) :=
  match v with
  | Object fields =>
      if (occurrences (lit tag) fields =? 1)%nat then
        name ← assoc_get (lit tag) fields ≫= as_str;
        Some (name, Object (List.filter (fun field => negb (bool_decide (field.1 = lit tag))) fields))
      else None
  | Array (Str name :: rest) => Some (name, Array rest)
  | _ => None
  end.

(** [skip_serializing_if = "Option::is_none"]: the members that are present. *)
Fixpoint present (fields : list (string * option Value)) : list (rstr * Value) :=
  match fields with
  | [] => []
  | (name, Some v) :: rest => (lit name, v) :: present rest
  | (_, None) :: rest => present rest
  end.

(** ** Extra currencies *)

(** A [BTreeMap<u32, DecimalString>], sorted by currency. *)
Record ExtraCurrencies := mkExtraCurrencies { ec_entries : list (N * rstr) }.

(** [BTreeMap::insert] of a key that must be new. *)
Fixpoint insert_currency (id : N) (amount : rstr) (entries : list (N * rstr))
  : option (list (N * rstr)) :=
  match entries with
  | [] => Some [(id, amount)]
  | (id', amount') :: rest =>
      match (id ?= id')%N with
      | Lt => Some ((id, amount) :: entries)
      | Eq => None
      | Gt => cons (id', amount') <$> insert_currency id amount rest
      end
  end.

Fixpoint decode_currencies (fields : list (rstr * Value)) : option (list (N * rstr)) :=
  match fields with
  | [] => Some []
  | (currency_id, v) :: rest =>
      values ← decode_currencies rest;
      amount ← decode_validated decimal_string_try_from v;
      parsed ← result_ok (parse_uint 10 u32_max currency_id);
      if negb (bool_decide (u64_to_string parsed = currency_id)) then None
      else insert_currency parsed amount values
  end.

(** The wire map keeps the last of repeated keys; every rejection is the same, so the
    order in which the keys are visited has no influence. *)
Definition decode_ExtraCurrencies (v : Value) : option ExtraCurrencies :=
  match v with
  | Object fields => mkExtraCurrencies <$> decode_currencies (last_wins fields)
  | _ => None
  end.

Definition extra_currencies_to_value (c : ExtraCurrencies) : Value :=
  Object (map (fun '(id, amount) => (u64_to_string id, Str amount)) (ec_entries c)).

Definition currencies_is_empty (c : ExtraCurrencies) : bool := is_empty (ec_entries c).

(** ** Payloads *)

Record RawMessage := mkRawMessage {
  rm_address : FriendlyAddress;
  rm_amount : rstr;
  rm_payload : option CellBoc;
  rm_state_init : option CellBoc;
  rm_extra_currency : option ExtraCurrencies;
}.

Inductive StructuredItem :=
  | Item_Ton (address : FriendlyAddress) (amount : rstr) (payload state_init : option CellBoc)
      (extra_currency : option ExtraCurrencies)
  | Item_Jetton (master destination : AccountAddress) (amount : rstr)
      (attach_amount query_id : option rstr) (response_destination : option AccountAddress)
      (custom_payload : option CellBoc) (forward_amount : option rstr)
      (forward_payload : option CellBoc)
  | Item_Nft (nft_address new_owner : AccountAddress)
      (attach_amount query_id : option rstr) (response_destination : option AccountAddress)
      (custom_payload : option CellBoc) (forward_amount : option rstr)
      (forward_payload : option CellBoc).

(** [RawTransactionPayload] and [StructuredTransactionPayload] share these fields. *)
Record TransactionContext := mkTransactionContext {
  tc_valid_until : option N;
  tc_network : option rstr;
  tc_from : option AccountAddress;
}.

Inductive TransactionPayload :=
  | Payload_Raw (context : TransactionContext) (messages : list RawMessage)
  | Payload_Structured (context : TransactionContext) (items : list StructuredItem).

Inductive SignDataPayload :=
  | SignData_Text (text : rstr) (network : option rstr) (from : option AccountAddress)
  | SignData_Binary (data : rstr) (network : option rstr) (from : option AccountAddress)
  | SignData_Cell (schema : rstr) (cell : CellBoc) (network : option rstr)
      (from : option AccountAddress).

Inductive StructuredItemType := ItemType_Ton | ItemType_Jetton | ItemType_Nft.
Inductive SignDataType := DataType_Text | DataType_Binary | DataType_Cell.

#[export] Instance StructuredItemType_eq_dec : EqDecision StructuredItemType.
Proof. solve_decision. Defined.
#[export] Instance SignDataType_eq_dec : EqDecision SignDataType.
Proof. solve_decision. Defined.
#[export] Instance RawAccountAddress_eq_dec : EqDecision RawAccountAddress.
Proof. solve_decision. Defined.
#[export] Instance FriendlyAddress_eq_dec : EqDecision FriendlyAddress.
Proof. solve_decision. Defined.
#[export] Instance AccountAddress_eq_dec : EqDecision AccountAddress.
Proof. solve_decision. Defined.
#[export] Instance CellBoc_eq_dec : EqDecision CellBoc.
Proof. solve_decision. Defined.
#[export] Instance SignDataPayload_eq_dec : EqDecision SignDataPayload.
Proof. solve_decision. Defined.

Definition raw_message_fields : list string :=
  ["address"; "amount"; "payload"; "stateInit"; "extra_currency"]%string.
Definition jetton_fields : list string :=
  ["master"; "destination"; "amount"; "attachAmount"; "queryId"; "responseDestination";
   "customPayload"; "forwardAmount"; "forwardPayload"]%string.
Definition nft_fields : list string :=
  ["nftAddress"; "newOwner"; "attachAmount"; "queryId"; "responseDestination"; "customPayload";
   "forwardAmount"; "forwardPayload"]%string.
Definition raw_payload_fields : list string :=
  ["valid_until"; "network"; "from"; "messages"]%string.
Definition structured_payload_fields : list string :=
  ["valid_until"; "network"; "from"; "items"]%string.

Section Codec.
Context `{Crc32c} `{TonCoreBoc} `{HexCrate} `{Crc16} `{UrlSafeBase64}.

(** *** Scalars *)

Definition decode_friendly (v : Value) : option FriendlyAddress :=
  as_str v ≫= fun s => result_ok (friendly_try_from s).
Definition decode_account (v : Value) : option AccountAddress :=
  as_str v ≫= fun s => result_ok (account_address_try_from s).
Definition decode_raw_address (v : Value) : option RawAccountAddress :=
  as_str v ≫= fun s => result_ok (raw_from_str s).
Definition decode_cell (v : Value) : option CellBoc :=
  as_str v ≫= fun s => result_ok (cell_boc_try_from s).
Definition decode_decimal : Value -> option rstr := decode_validated decimal_string_try_from.
Definition decode_network : Value -> option rstr := decode_validated network_id_try_from.
Definition decode_non_empty {T} (decode : Value -> option T) (v : Value) : option (list T) :=
  decode_vec decode v ≫= fun values => result_ok (non_empty_vec_try_from values).

Definition friendly_to_value (a : FriendlyAddress) : Value := Str (fa_encoded a).
Definition account_to_value (a : AccountAddress) : Value := Str (account_address_to_string a).
Definition cell_to_value (c : CellBoc) : Value := Str (cb_encoded c).
Definition u64_to_value (n : N) : Value := Num (PosInt n).
Definition vec_to_value {T} (to_value : T -> Value) (values : list T) : Value :=
  Array (map to_value values).

(** *** Messages and items *)

Definition decode_RawMessage (v : Value) : option RawMessage :=
  match strict_members raw_message_fields v with
  | Some [address; amount; payload; state_init; extra_currency] =>
      address ← required decode_friendly address;
      amount ← required decode_decimal amount;
      payload ← optional_non_null decode_cell payload;
      state_init ← optional_non_null decode_cell state_init;
      extra_currency ← optional_non_null decode_ExtraCurrencies extra_currency;
      Some (mkRawMessage address amount payload state_init extra_currency)
  | _ => None
  end.

Definition raw_message_to_value (m : RawMessage) : Value :=
  Object (present (zip raw_message_fields
    [Some (friendly_to_value (rm_address m)); Some (Str (rm_amount m));
     cell_to_value <$> rm_payload m; cell_to_value <$> rm_state_init m;
     extra_currencies_to_value <$> rm_extra_currency m])).

Definition decode_StructuredItem (v : Value) : option StructuredItem :=
  content ← tagged_content "type" v;
  let '(name, content) := content in
  if bool_decide (name = lit "ton") then
    match strict_members raw_message_fields content with
    | Some [address; amount; payload; state_init; extra_currency] =>
        address ← required decode_friendly address;
        amount ← required decode_decimal amount;
        payload ← optional_non_null decode_cell payload;
        state_init ← optional_non_null decode_cell state_init;
        extra_currency ← optional_non_null decode_ExtraCurrencies extra_currency;
        Some (Item_Ton address amount payload state_init extra_currency)
    | _ => None
    end
  else if bool_decide (name = lit "jetton") then
    match strict_members jetton_fields content with
    | Some [master; destination; amount; attach; query; response; custom; forward; payload] =>
        master ← required decode_account master;
        destination ← required decode_account destination;
        amount ← required decode_decimal amount;
        attach ← optional_non_null decode_decimal attach;
        query ← optional_non_null as_str query;
        response ← optional_non_null decode_account response;
        custom ← optional_non_null decode_cell custom;
        forward ← optional_non_null decode_decimal forward;
        payload ← optional_non_null decode_cell payload;
        Some (Item_Jetton master destination amount attach query response custom forward payload)
    | _ => None
    end
  else if bool_decide (name = lit "nft") then
    match strict_members nft_fields content with
    | Some [nft; owner; attach; query; response; custom; forward; payload] =>
        nft ← required decode_account nft;
        owner ← required decode_account owner;
        attach ← optional_non_null decode_decimal attach;
        query ← optional_non_null as_str query;
        response ← optional_non_null decode_account response;
        custom ← optional_non_null decode_cell custom;
        forward ← optional_non_null decode_decimal forward;
        payload ← optional_non_null decode_cell payload;
        Some (Item_Nft nft owner attach query response custom forward payload)
    | _ => None
    end
  else None.

(** An internally tagged variant: the tag first, then the members. *)
Definition tagged_to_value (tag name : string) (fields : list (string * option Value)) : Value :=
  Object ((lit tag, Str (lit name)) :: present fields).

Definition structured_item_to_value (item : StructuredItem) : Value :=
  match item with
  | Item_Ton address amount payload state_init extra_currency =>
      tagged_to_value "type" "ton" (zip raw_message_fields
        [Some (friendly_to_value address); Some (Str amount); cell_to_value <$> payload;
         cell_to_value <$> state_init; extra_currencies_to_value <$> extra_currency])
  | Item_Jetton master destination amount attach query response custom forward payload =>
      tagged_to_value "type" "jetton" (zip jetton_fields
        [Some (account_to_value master); Some (account_to_value destination); Some (Str amount);
         Str <$> attach; Str <$> query; account_to_value <$> response; cell_to_value <$> custom;
         Str <$> forward; cell_to_value <$> payload])
  | Item_Nft nft owner attach query response custom forward payload =>
      tagged_to_value "type" "nft" (zip nft_fields
        [Some (account_to_value nft); Some (account_to_value owner); Str <$> attach;
         Str <$> query; account_to_value <$> response; cell_to_value <$> custom;
         Str <$> forward; cell_to_value <$> payload])
  end.

(** *** Transactions *)

Definition decode_context (valid_until network from : option Value) : option TransactionContext :=
  valid_until ← optional_non_null as_u64 valid_until;
  network ← optional_non_null decode_network network;
  from ← optional_non_null decode_account from;
  Some (mkTransactionContext valid_until network from).

Definition contains_key (key : string) (fields : list (rstr * Value)) : bool :=
  bool_decide (is_Some (assoc_get (lit key) fields)).

Definition decode_TransactionPayload (document : Value) : option TransactionPayload :=
  match as_value document with
  | Object fields =>
      match contains_key "messages" fields, contains_key "items" fields with
      | true, false =>
          match strict_members raw_payload_fields (Object fields) with
          | Some [valid_until; network; from; messages] =>
              context ← decode_context valid_until network from;
              messages ← required (decode_non_empty decode_RawMessage) messages;
              Some (Payload_Raw context messages)
          | _ => None
          end
      | false, true =>
          match strict_members structured_payload_fields (Object fields) with
          | Some [valid_until; network; from; items] =>
              context ← decode_context valid_until network from;
              items ← required (decode_non_empty decode_StructuredItem) items;
              Some (Payload_Structured context items)
          | _ => None
          end
      | _, _ => None
      end
  | _ => None
  end.

Definition context_values (c : TransactionContext) : list (option Value) :=
  [u64_to_value <$> tc_valid_until c; Str <$> tc_network c;
   account_to_value <$> tc_from c].

Definition transaction_payload_to_value (payload : TransactionPayload) : Value :=
  match payload with
  | Payload_Raw context messages =>
      Object (present (zip raw_payload_fields
        (context_values context ++ [Some (vec_to_value raw_message_to_value messages)])))
  | Payload_Structured context items =>
      Object (present (zip structured_payload_fields
        (context_values context ++ [Some (vec_to_value structured_item_to_value items)])))
  end.

(** *** Data to sign *)

Definition decode_SignDataPayload (v : Value) : option SignDataPayload :=
  content ← tagged_content "type" v;
  let '(name, content) := content in
  if bool_decide (name = lit "text") then
    match strict_members ["text"; "network"; "from"] content with
    | Some [text; network; from] =>
        text ← required as_str text;
        network ← optional_non_null decode_network network;
        from ← optional_non_null decode_account from;
        Some (SignData_Text text network from)
    | _ => None
    end
  else if bool_decide (name = lit "binary") then
    match strict_members ["bytes"; "network"; "from"] content with
    | Some [data; network; from] =>
        data ← required (decode_validated base64_value_try_from) data;
        network ← optional_non_null decode_network network;
        from ← optional_non_null decode_account from;
        Some (SignData_Binary data network from)
    | _ => None
    end
  else if bool_decide (name = lit "cell") then
    match strict_members ["schema"; "cell"; "network"; "from"] content with
    | Some [schema; cell; network; from] =>
        schema ← required as_str schema;
        cell ← required decode_cell cell;
        network ← optional_non_null decode_network network;
        from ← optional_non_null decode_account from;
        Some (SignData_Cell schema cell network from)
    | _ => None
    end
  else None.

Definition sign_data_to_value (payload : SignDataPayload) : Value :=
  match payload with
  | SignData_Text text network from =>
      tagged_to_value "type" "text" (zip ["text"; "network"; "from"]%string
        [Some (Str text); Str <$> network; account_to_value <$> from])
  | SignData_Binary data network from =>
      tagged_to_value "type" "binary" (zip ["bytes"; "network"; "from"]%string
        [Some (Str data); Str <$> network; account_to_value <$> from])
  | SignData_Cell schema cell network from =>
      tagged_to_value "type" "cell" (zip ["schema"; "cell"; "network"; "from"]%string
        [Some (Str schema); Some (cell_to_value cell); Str <$> network; account_to_value <$> from])
  end.

(** ** Requests *)

Inductive KnownAppRequest :=
  | Request_SendTransaction (id : rstr) (payload : TransactionPayload)
  | Request_SignMessage (id : rstr) (payload : TransactionPayload)
  | Request_SignData (id : rstr) (payload : SignDataPayload)
  | Request_Disconnect (id : rstr).

Definition request_id (request : KnownAppRequest) : rstr :=
  match request with
  | Request_SendTransaction id _ | Request_SignMessage id _ | Request_SignData id _
  | Request_Disconnect id => id
  end.

Inductive RpcMethod :=
  | Method_SendTransaction | Method_SignMessage | Method_SignData | Method_Disconnect.

Definition rpc_method (request : KnownAppRequest) : RpcMethod :=
  match request with
  | Request_SendTransaction _ _ => Method_SendTransaction
  | Request_SignMessage _ _ => Method_SignMessage
  | Request_SignData _ _ => Method_SignData
  | Request_Disconnect _ => Method_Disconnect
  end.

Definition method_as_str (method : RpcMethod) : rstr :=
  match method with
  | Method_SendTransaction => lit "sendTransaction"
  | Method_SignMessage => lit "signMessage"
  | Method_SignData => lit "signData"
  | Method_Disconnect => lit "disconnect"
  end.

(** [RpcMethod::from_str]. *)
Definition method_from_str (value : rstr) : option RpcMethod :=
  if bool_decide (value = lit "sendTransaction") then Some Method_SendTransaction
  else if bool_decide (value = lit "signMessage") then Some Method_SignMessage
  else if bool_decide (value = lit "signData") then Some Method_SignData
  else if bool_decide (value = lit "disconnect") then Some Method_Disconnect
  else None.

Inductive RpcError :=
  | Rpc_UnsupportedMethod (method : rstr)
  | Rpc_InvalidParameterCount (method : string) (expected actual : nat)
  | Rpc_InvalidPayload (error : rstr).

Context `{SerdeJson}.

Definition parse_single_parameter {T} (decode : Value -> option T) (method : string)
    (params : list rstr) : result RpcError T :=
  match params with
  | [payload] => map_err Rpc_InvalidPayload (decode_slice decode (utf8 payload))
  | _ => Err (Rpc_InvalidParameterCount method 1 (length params))
  end.

Definition app_request_decode (request : AppRequest) : result RpcError KnownAppRequest :=
  if bool_decide (ar_method request = lit "sendTransaction") then
    rmap (Request_SendTransaction (ar_id request))
      (parse_single_parameter decode_TransactionPayload "sendTransaction" (ar_params request))
  else if bool_decide (ar_method request = lit "signMessage") then
    rmap (Request_SignMessage (ar_id request))
      (parse_single_parameter decode_TransactionPayload "signMessage" (ar_params request))
  else if bool_decide (ar_method request = lit "signData") then
    rmap (Request_SignData (ar_id request))
      (parse_single_parameter decode_SignDataPayload "signData" (ar_params request))
  else if bool_decide (ar_method request = lit "disconnect") then
    if is_empty (ar_params request) then Ok (Request_Disconnect (ar_id request))
    else Err (Rpc_InvalidParameterCount "disconnect" 0 (length (ar_params request)))
  else Err (Rpc_UnsupportedMethod (ar_method request)).

(** The JSON value whose text is the parameter. *)
Definition request_parameter (request : KnownAppRequest) : option Value :=
  match request with
  | Request_SendTransaction _ payload | Request_SignMessage _ payload =>
      Some (transaction_payload_to_value payload)
  | Request_SignData _ payload => Some (sign_data_to_value payload)
  | Request_Disconnect _ => None
  end.

Definition app_request_encode (request : KnownAppRequest) : AppRequest :=
  mkAppRequest (method_as_str (rpc_method request))
    (option_list (value_to_string <$> request_parameter request)) (request_id request).

(** ** Responses *)

Inductive RpcErrorCode :=
  | RpcCode_Unknown | RpcCode_BadRequest | RpcCode_UnknownApp | RpcCode_UserDeclined
  | RpcCode_MethodNotSupported.

#[export] Instance RpcErrorCode_eq_dec : EqDecision RpcErrorCode.
Proof. solve_decision. Defined.

Inductive WalletResult :=
  | Result_String (text : rstr)
  | Result_Object (fields : list (rstr * Value)).

Record WalletResponseError := mkWalletResponseError {
  wre_code : RpcErrorCode;
  wre_message : rstr;
  wre_data : option Value;
}.

Inductive WalletResponse :=
  | Response_Success (result : WalletResult) (id : rstr)
  | Response_Error (error : WalletResponseError) (id : rstr).

Record Ed25519Signature := mkEd25519Signature { sig_bytes : bytes }.

Definition signature_to_string (s : Ed25519Signature) : rstr := standard_encode (sig_bytes s).

Definition signature_from_str (value : rstr) : option Ed25519Signature :=
  data ← standard_decode value;
  if negb (length data =? 64)%nat then None
  else if negb (bool_decide (standard_encode data = value)) then None
  else Some (mkEd25519Signature data).

Record SignDataResult := mkSignDataResult {
  sdr_signature : Ed25519Signature;
  sdr_address : RawAccountAddress;
  sdr_timestamp : N;
  sdr_domain : rstr;
  sdr_payload : SignDataPayload;
}.

Definition decode_SignMessageResult (v : Value) : option CellBoc :=
  match strict_members ["internalBoc"] v with
  | Some [internal_boc] => required decode_cell internal_boc
  | _ => None
  end.

Definition decode_SignDataResult (v : Value) : option SignDataResult :=
  match strict_members ["signature"; "address"; "timestamp"; "domain"; "payload"] v with
  | Some [signature; address; timestamp; domain; payload] =>
      signature ← required (fun v => as_str v ≫= signature_from_str) signature;
      address ← required decode_raw_address address;
      timestamp ← required as_u64 timestamp;
      domain ← required as_str domain;
      payload ← required decode_SignDataPayload payload;
      Some (mkSignDataResult signature address timestamp domain payload)
  | _ => None
  end.

Inductive KnownWalletResponse :=
  | Known_SendTransaction (boc : CellBoc)
  | Known_SignMessage (internal_boc : CellBoc)
  | Known_SignData (result : SignDataResult)
  | Known_Disconnect
  | Known_Error (error : WalletResponseError).

Inductive ResponseValidationError :=
  | RequestIdMismatch | InvalidResult | EmptyResult | SignDataPayloadMismatch | InvalidErrorCode.

Definition validate_success_result (result : WalletResult) (request : KnownAppRequest)
  : Prelude.result ResponseValidationError KnownWalletResponse :=
  match request, result with
  | Request_SendTransaction _ _, Result_String text =>
      let? boc := map_err (fun _ => InvalidResult) (cell_boc_try_from text) in
      if is_empty (cb_encoded boc) then Err EmptyResult else Ok (Known_SendTransaction boc)
  | Request_SignMessage _ _, Result_Object fields =>
      let? internal_boc := ok_or InvalidResult (decode_SignMessageResult (Object fields)) in
      if is_empty (cb_encoded internal_boc) then Err EmptyResult
      else Ok (Known_SignMessage internal_boc)
  | Request_SignData _ payload, Result_Object fields =>
      let? parsed := ok_or InvalidResult (decode_SignDataResult (Object fields)) in
      if negb (bool_decide (sdr_payload parsed = payload)) then Err SignDataPayloadMismatch
      else Ok (Known_SignData parsed)
  | Request_Disconnect _, Result_Object fields =>
      if is_empty fields then Ok Known_Disconnect else Err InvalidResult
  | _, _ => Err InvalidResult
  end.

Definition validate_for (response : WalletResponse) (request : KnownAppRequest)
  : Prelude.result ResponseValidationError KnownWalletResponse :=
  let response_id := match response with Response_Success _ id | Response_Error _ id => id end in
  if negb (bool_decide (response_id = request_id request)) then Err RequestIdMismatch
  else
    match response with
    | Response_Error error _ =>
        if match request with Request_Disconnect _ => true | _ => false end
           && bool_decide (wre_code error = RpcCode_UserDeclined)
        then Err InvalidErrorCode
        else Ok (Known_Error error)
    | Response_Success result _ => validate_success_result result request
    end.
End Codec.

(** ** Checks against the session *)

Inductive RequestContextError := Context_Expired | NetworkMismatch | AccountMismatch.

Definition validate_network_and_account (network : option rstr) (from : option AccountAddress)
    (active_network : rstr) (active_account : RawAccountAddress)
  : result RequestContextError unit :=
  if match network with Some n => negb (bool_decide (n = active_network)) | None => false end
  then Err NetworkMismatch
  else if match from with
          | Some a => negb (bool_decide (account_raw_address a = active_account))
          | None => false
          end
  then Err AccountMismatch
  else Ok tt.

Definition payload_context (payload : TransactionPayload) : TransactionContext :=
  match payload with Payload_Raw context _ | Payload_Structured context _ => context end.

Definition transaction_validate_context (payload : TransactionPayload) (now : N)
    (active_network : rstr) (active_account : RawAccountAddress)
  : result RequestContextError unit :=
  let context := payload_context payload in
  if match tc_valid_until context with Some t => (t <? now)%N | None => false end
  then Err Context_Expired
  else validate_network_and_account (tc_network context) (tc_from context) active_network
         active_account.

Definition sign_data_constraints (payload : SignDataPayload)
  : option rstr * option AccountAddress :=
  match payload with
  | SignData_Text _ network from | SignData_Binary _ network from
  | SignData_Cell _ _ network from => (network, from)
  end.

Definition sign_data_validate_context (payload : SignDataPayload) (active_network : rstr)
    (active_account : RawAccountAddress) : result RequestContextError unit :=
  validate_network_and_account (sign_data_constraints payload).1 (sign_data_constraints payload).2
    active_network active_account.

(** ** What a payload needs *)

Definition message_count (payload : TransactionPayload) : nat :=
  match payload with
  | Payload_Raw _ messages => length messages
  | Payload_Structured _ items => length items
  end.

Definition non_empty_currencies (c : option ExtraCurrencies) : bool :=
  match c with Some c => negb (currencies_is_empty c) | None => false end.

Definition uses_extra_currency (payload : TransactionPayload) : bool :=
  match payload with
  | Payload_Raw _ messages => existsb (fun m => non_empty_currencies (rm_extra_currency m)) messages
  | Payload_Structured _ items =>
      existsb (fun item => match item with
                           | Item_Ton _ _ _ _ c => non_empty_currencies c
                           | _ => false
                           end) items
  end.

Definition item_type (item : StructuredItem) : StructuredItemType :=
  match item with
  | Item_Ton _ _ _ _ _ => ItemType_Ton
  | Item_Jetton _ _ _ _ _ _ _ _ _ => ItemType_Jetton
  | Item_Nft _ _ _ _ _ _ _ _ => ItemType_Nft
  end.

Definition structured_item_types (payload : TransactionPayload) : option (list StructuredItemType) :=
  match payload with
  | Payload_Raw _ _ => None
  | Payload_Structured _ items => Some (map item_type items)
  end.

Definition data_type (payload : SignDataPayload) : SignDataType :=
  match payload with
  | SignData_Text _ _ _ => DataType_Text
  | SignData_Binary _ _ _ => DataType_Binary
  | SignData_Cell _ _ _ _ => DataType_Cell
  end.

(** ** What a wallet advertises (connect.rs) *)

(** [SendTransactionFeature] and [SignMessageFeature] have the same fields. *)
Record MessageFeature := mkMessageFeature {
  mf_max_messages : N;
  mf_extra_currency_supported : option bool;
  mf_item_types : option (list StructuredItemType);
}.

Inductive Feature :=
  | Feature_LegacySendTransaction
  | Feature_SendTransaction (feature : MessageFeature)
  | Feature_SignData (types : list SignDataType)
  | Feature_SignMessage (feature : MessageFeature)
  | Feature_EmbeddedRequest.

(** [values[index + 1..]] holds no copy of [values[index]]. *)
Fixpoint all_unique {T} `{EqDecision T} (values : list T) : bool :=
  match values with
  | [] => true
  | value :: rest => forallb (fun other => negb (bool_decide (other = value))) rest && all_unique rest
  end.

Inductive FeatureValidationError := InvalidFeature.

Definition validate_message_feature (max_messages : N) (item_types : option (list StructuredItemType))
  : result FeatureValidationError unit :=
  if (max_messages =? 0)%N
     || match item_types with
        | Some values => is_empty values || negb (all_unique values)
        | None => false
        end
  then Err InvalidFeature else Ok tt.

Definition message_feature_new (max_messages : N) (extra_currency_supported : option bool)
    (item_types : option (list StructuredItemType)) : result FeatureValidationError MessageFeature :=
  let? _ := validate_message_feature max_messages item_types in
  Ok (mkMessageFeature max_messages extra_currency_supported item_types).

Definition sign_data_feature_new (types : list SignDataType)
  : result FeatureValidationError (list SignDataType) :=
  if is_empty types || negb (all_unique types) then Err InvalidFeature else Ok types.

Inductive DevicePlatform :=
  | Platform_Iphone | Platform_Ipad | Platform_Android | Platform_Windows | Platform_Mac
  | Platform_Linux | Platform_Browser.

Record DeviceInfo := mkDeviceInfo {
  di_platform : DevicePlatform;
  di_app_name : rstr;
  di_app_version : rstr;
  di_max_protocol_version : N;
  di_features : list Feature;
}.

Inductive DeviceInfoValidationError := EmptyIdentity | UnsupportedProtocolVersion | DuplicateFeature.

(** The loop over the features: the legacy and the detailed entry of sendTransaction
    have a flag each, the others their name. *)
Fixpoint validate_features (legacy detailed : bool) (names : list string) (features : list Feature)
  : result DeviceInfoValidationError unit :=
  match features with
  | [] => Ok tt
  | feature :: rest =>
      let named (name : string) :=
        if bool_decide (name ∈ names) then Err DuplicateFeature
        else validate_features legacy detailed (name :: names) rest in
      match feature with
      | Feature_LegacySendTransaction =>
          if legacy then Err DuplicateFeature else validate_features true detailed names rest
      | Feature_SendTransaction _ =>
          if detailed then Err DuplicateFeature else validate_features legacy true names rest
      | Feature_SignData _ => named "SignData"%string
      | Feature_SignMessage _ => named "SignMessage"%string
      | Feature_EmbeddedRequest => named "EmbeddedRequest"%string
      end
  end.

Definition PROTOCOL_VERSION : N := 2%N.

Definition device_info_validate (d : DeviceInfo) : result DeviceInfoValidationError unit :=
  if is_empty (di_app_name d) || is_empty (di_app_version d) then Err EmptyIdentity
  else if (di_max_protocol_version d <? PROTOCOL_VERSION)%N then Err UnsupportedProtocolVersion
  else validate_features false false [] (di_features d).

Definition device_info_new (platform : DevicePlatform) (app_name app_version : rstr)
    (max_protocol_version : N) (features : list Feature)
  : result DeviceInfoValidationError DeviceInfo :=
  let value := mkDeviceInfo platform app_name app_version max_protocol_version features in
  let? _ := device_info_validate value in
  Ok value.

(** ** Capability checks (capability.rs) *)

Inductive CapabilityError :=
  | MethodNotSupported (method : string)
  | MessageLimitExceeded (max_messages : N) (actual : nat)
  | ExtraCurrencyNotSupported
  | StructuredItemsNotSupported
  | StructuredItemTypeNotSupported (kind : StructuredItemType)
  | SignDataTypeNotSupported (kind : SignDataType)
  | EmbeddedRequestNotSupported.

Definition detailed_feature (sign_only : bool) (feature : Feature) : option MessageFeature :=
  match feature with
  | Feature_SendTransaction feature => if sign_only then None else Some feature
  | Feature_SignMessage feature => if sign_only then Some feature else None
  | _ => None
  end.

Definition is_legacy (feature : Feature) : bool :=
  match feature with Feature_LegacySendTransaction => true | _ => false end.
Definition is_embedded (feature : Feature) : bool :=
  match feature with Feature_EmbeddedRequest => true | _ => false end.

Fixpoint find_map {A B} (f : A -> option B) (l : list A) : option B :=
  match l with
  | [] => None
  | x :: rest => match f x with Some b => Some b | None => find_map f rest end
  end.

Definition validate_transaction (d : DeviceInfo) (method : string) (payload : TransactionPayload)
    (sign_only : bool) : result CapabilityError unit :=
  match find_map (detailed_feature sign_only) (di_features d) with
  | None =>
      let legacy_send :=
        negb sign_only
        && existsb is_legacy (di_features d) in
      if negb legacy_send then Err (MethodNotSupported method)
      else if bool_decide (is_Some (structured_item_types payload))
      then Err StructuredItemsNotSupported
      else if uses_extra_currency payload then Err ExtraCurrencyNotSupported
      else Ok tt
  | Some feature =>
      if (mf_max_messages feature <? N.of_nat (message_count payload))%N
      then Err (MessageLimitExceeded (mf_max_messages feature) (message_count payload))
      else if uses_extra_currency payload
              && negb (bool_decide (mf_extra_currency_supported feature = Some true))
      then Err ExtraCurrencyNotSupported
      else
        match structured_item_types payload with
        | None => Ok tt
        | Some required_types =>
            match mf_item_types feature with
            | None => Err StructuredItemsNotSupported
            | Some supported_types =>
                match List.find (fun required => negb (bool_decide (required ∈ supported_types)))
                        required_types with
                | Some unsupported => Err (StructuredItemTypeNotSupported unsupported)
                | None => Ok tt
                end
            end
        end
  end.

Definition validate_sign_data (d : DeviceInfo) (payload : SignDataPayload)
  : result CapabilityError unit :=
  match find_map (fun f => match f with Feature_SignData types => Some types | _ => None end)
          (di_features d) with
  | None => Err (MethodNotSupported "signData")
  | Some supported =>
      if negb (bool_decide (data_type payload ∈ supported))
      then Err (SignDataTypeNotSupported (data_type payload))
      else Ok tt
  end.

Definition validate_request (d : DeviceInfo) (request : KnownAppRequest)
  : result CapabilityError unit :=
  match request with
  | Request_SendTransaction _ payload => validate_transaction d "sendTransaction" payload false
  | Request_SignMessage _ payload => validate_transaction d "signMessage" payload true
  | Request_SignData _ payload => validate_sign_data d payload
  | Request_Disconnect _ => Ok tt
  end.

Inductive EmbeddedRequest :=
  | Embedded_SendTransaction (payload : TransactionPayload)
  | Embedded_SignMessage (payload : TransactionPayload)
  | Embedded_SignData (payload : SignDataPayload).

Definition validate_embedded_request (d : DeviceInfo) (request : EmbeddedRequest)
  : result CapabilityError unit :=
  if negb (existsb is_embedded (di_features d))
  then Err EmbeddedRequestNotSupported
  else
    match request with
    | Embedded_SendTransaction payload => validate_transaction d "sendTransaction" payload false
    | Embedded_SignMessage payload => validate_transaction d "signMessage" payload true
    | Embedded_SignData payload => validate_sign_data d payload
    end.
