(* ===== verification/ConnectRpcSpec.v ===== *)
(** * Requests are read back as they were written

    The JSON codecs of ConnectRpc.v as instances of two classes, one for what was
    written and one for what is accepted, and the round trip of whole requests; then what
    the checks between requests, features and responses mean. *)

From Stdlib Require Import Sorted.
From stdpp Require Import base numbers list option strings.
From S2P Require Import Prelude BoundaryTypes SendDomain Base64 Json CellBoc ConnectSession.
From S2P Require Import ConnectValues Addresses ConnectRpc.

(** ** Objects *)

Lemma assoc_get_None {A} key (fields : list (rstr * A)) :
  key ∉ map fst fields -> assoc_get key fields = None.
Proof.
  induction fields as [|[k v] fields IH]; [done|]. simpl. rewrite not_elem_of_cons.
  intros [Hk Hf]. rewrite bool_decide_eq_false_2 by done. auto.
Qed.

Lemma occurrences_none key fields : key ∉ map fst fields -> occurrences key fields = 0.
Proof.
  unfold occurrences. induction fields as [|[k v] fields IH]; [done|]. simpl.
  rewrite not_elem_of_cons. intros [Hk Hf]. rewrite filter_cons_False by (simpl; congruence). auto.
Qed.

Lemma occurrences_distinct key fields : NoDup (map fst fields) -> occurrences key fields <= 1.
Proof.
  induction fields as [|[k v] fields IH]; [unfold occurrences; simpl; lia|].
  simpl. rewrite NoDup_cons. intros [Hk Hf]. destruct (decide (k = key)) as [->|Hne].
  - pose proof (occurrences_none key fields Hk) as E. unfold occurrences in *.
    rewrite filter_cons_True by done. simpl. lia.
  - unfold occurrences in *. rewrite filter_cons_False by done. auto.
Qed.

Lemma last_wins_distinct {A} (fields : list (rstr * A)) :
  NoDup (map fst fields) -> last_wins fields = fields.
Proof.
  induction fields as [|[k v] fields IH]; [done|]. simpl. rewrite NoDup_cons. intros [Hk Hf].
  rewrite bool_decide_eq_false_2 by done. by rewrite IH.
Qed.

Section Present.
Implicit Types (names : list string) (members : list (option Value)).

Lemma present_keys names members key :
  key ∈ map fst (present (zip names members)) -> key ∈ map lit names.
Proof.
  revert members. induction names as [|name names IH]; intros [|[v|] members]; simpl;
    rewrite ?elem_of_cons; intros Hk; try (by apply not_elem_of_nil in Hk); naive_solver.
Qed.

Lemma present_distinct names members :
  NoDup (map lit names) -> NoDup (map fst (present (zip names members))).
Proof.
  revert members. induction names as [|name names IH]; intros [|[v|] members] Hd; simpl in *;
    try apply NoDup_nil_2; apply NoDup_cons in Hd as [Hn Hd]; [|auto].
  apply NoDup_cons. split; [|auto]. by intros ?%present_keys.
Qed.

Lemma present_get names members :
  NoDup (map lit names) -> length names = length members ->
  map (fun name => assoc_get (lit name) (present (zip names members))) names = members.
Proof.
  revert members. induction names as [|name names IH]; intros [|v members] Hd Hl; try done.
  apply NoDup_cons in Hd as [Hn Hd]. injection Hl as Hl. cbn [zip zip_with map].
  change (zip_with pair names members) with (zip names members).
  assert (assoc_get (lit name) (present (zip names members)) = None) as Hnone
    by (apply assoc_get_None; by intros ?%present_keys).
  assert (map (fun n => assoc_get (lit n) (present ((name, v) :: zip names members))) names
          = members) as ->.
  { transitivity (map (fun n => assoc_get (lit n) (present (zip names members))) names);
      [|by apply IH].
    apply map_ext_in. intros other Hother. destruct v; [|done].
    simpl. rewrite bool_decide_eq_false_2; [done|]. intros E. apply Hn. rewrite E.
    by apply list_elem_of_fmap_2, list_elem_of_In. }
  f_equal. destruct v; [|done]. simpl. by rewrite bool_decide_eq_true_2.
Qed.

(** A struct with unknown fields denied reads the members it wrote. *)
Lemma strict_members_present names members :
  NoDup (map lit names) -> length names = length members ->
  strict_members names (Object (present (zip names members))) = Some members.
Proof.
  intros Hd Hl. unfold strict_members. cbn [known_members struct_members].
  assert (forallb (fun field : rstr * Value => bool_decide (field.1 ∈ map lit names))
            (present (zip names members)) = true) as ->.
  { apply forallb_forall. intros field Hf. apply bool_decide_eq_true_2, (present_keys _ members).
    by apply list_elem_of_fmap_2, list_elem_of_In. }
  assert (forallb (fun name => (occurrences (lit name) (present (zip names members)) <=? 1)%nat)
            names = true) as ->.
  { apply forallb_forall. intros name _. by apply Nat.leb_le, occurrences_distinct, present_distinct. }
  simpl. by rewrite present_get.
Qed.

Lemma tagged_content_present tag name names members :
  lit tag ∉ map lit names ->
  tagged_content tag (tagged_to_value tag name (zip names members))
  = Some (lit name, Object (present (zip names members))).
Proof.
  intros Ht. unfold tagged_content, tagged_to_value.
  assert (lit tag ∉ map fst (present (zip names members))) as Hp by (by intros ?%present_keys).
  assert (occurrences (lit tag) ((lit tag, Str (lit name)) :: present (zip names members)) = 1)
    as ->.
  { pose proof (occurrences_none _ _ Hp) as E. unfold occurrences in *.
    rewrite filter_cons_True by done. simpl. by rewrite E. }
  cbn [assoc_get Nat.eqb]. rewrite bool_decide_eq_true_2 by done. cbn [as_str mbind option_bind].
  do 3 f_equal. cbn [List.filter fst]. rewrite bool_decide_eq_true_2 by done. cbn [negb].
  clear -Hp. induction (present (zip names members)) as [|[k v] l IH]; [done|].
  apply not_elem_of_cons in Hp as [Hk Hp]. cbn [List.filter fst].
  rewrite bool_decide_eq_false_2 by done. cbn [negb]. f_equal. auto.
Qed.

(** Values that reading into a [Value] leaves alone. *)
Definition plain (v : Value) : Prop := as_value v = v.

Lemma plain_object fields :
  NoDup (map fst fields) -> Forall (fun field => plain field.2) fields -> plain (Object fields).
Proof.
  intros Hd Hp. unfold plain. cbn [as_value].
  assert (map (fun '(k, v) => (k, as_value v)) fields = fields) as ->
    by (clear Hd; induction Hp as [|[k v] l Hv _ IH]; simpl in *; [done|]; by rewrite IH, Hv).
  by rewrite last_wins_distinct.
Qed.

Lemma present_plain names members :
  Forall (from_option plain True) members ->
  Forall (fun field => plain field.2) (present (zip names members)).
Proof.
  intros Hm. revert names. induction Hm as [|[v|] members Hv Hm IH]; intros [|name names];
    simpl; auto.
Qed.

Lemma plain_struct names members :
  NoDup (map lit names) -> Forall (from_option plain True) members ->
  plain (Object (present (zip names members))).
Proof. intros. apply plain_object; [by apply present_distinct|by apply present_plain]. Qed.

Lemma plain_tagged tag name names members :
  NoDup (map lit (tag :: names)) -> Forall (from_option plain True) members ->
  plain (tagged_to_value tag name (zip names members)).
Proof.
  intros [Ht Hd]%NoDup_cons Hm. apply plain_object; simpl.
  - apply NoDup_cons. split; [by intros ?%present_keys|by apply present_distinct].
  - constructor; [done|by apply present_plain].
Qed.

Lemma plain_array values : Forall plain values -> plain (Array values).
Proof.
  intros Hv. unfold plain. cbn [as_value]. f_equal. induction Hv as [|v l Hv _ IH]; [done|].
  simpl. by rewrite IH, Hv.
Qed.
End Present.

(** ** One class for the codecs *)

(** What [decode] makes of the value [encode] wrote, for the values of the Rust type. *)
Class Wire {A} (decode : Value -> option A) (encode : A -> Value) (valid : A -> Prop) : Prop := {
  wire_decode a : valid a -> decode (encode a) = Some a;
  wire_plain a : valid a -> plain (encode a);
}.

(** A decoder only produces valid values. *)
Class Checked {A} (decode : Value -> option A) (valid : A -> Prop) : Prop :=
  checked v a : decode v = Some a -> valid a.

Section CheckedFields.
Context `{Checked A decode valid}.

Lemma required_checked field a : required decode field = Some a -> valid a.
Proof. destruct field as [v|]; [|done]. simpl. intros Ha. by apply checked in Ha. Qed.

Lemma optional_checked field o :
  optional_non_null decode field = Some o -> from_option valid True o.
Proof.
  destruct field as [v|]; simpl; [|by intros [= <-]].
  intros (a & Ha & ->)%fmap_Some. by apply checked in Ha.
Qed.

#[export] Instance non_empty_checked :
  Checked (decode_non_empty decode) (fun values => values <> [] /\ Forall valid values).
Proof.
  intros v values (all & Hall & Hv)%bind_Some. unfold non_empty_vec_try_from in Hv.
  destruct all as [|a all]; [done|]. injection Hv as <-. split; [done|].
  apply bind_Some in Hall as (items & _ & Hall%mapM_Some_1). clear v.
  induction Hall as [|item a' items all' Ha _ IH]; constructor; [by apply checked in Ha|done].
Qed.
End CheckedFields.

(** The fields of a decoded struct, one hypothesis each. *)
Ltac decoded_fields H :=
  repeat match type of H with
    | _ ≫= _ = Some _ =>
        let x := fresh "field" in let Hx := fresh in
        apply bind_Some in H as (x & Hx & H);
        first [apply required_checked in Hx | apply optional_checked in Hx | idtac]
    end.

Section Fields.
Context `{Wire A decode encode valid}.

Lemma wire_required a : valid a -> required decode (Some (encode a)) = Some a.
Proof. intros Ha. simpl. by apply wire_decode. Qed.

Lemma wire_optional o :
  from_option valid True o -> optional_non_null decode (encode <$> o) = Some o.
Proof. destruct o; simpl; [|done]. intros Ho. by rewrite wire_decode. Qed.

Lemma wire_plain_optional o : from_option valid True o -> from_option plain True (encode <$> o).
Proof. destruct o; simpl; [|done]. intros Ho. by apply wire_plain. Qed.

Lemma wire_plain_required a : valid a -> from_option plain True (Some (encode a)).
Proof. intros Ha. simpl. by apply wire_plain. Qed.

(** [NonEmptyVec]. *)
#[export] Instance non_empty_wire :
  Wire (decode_non_empty decode) (vec_to_value encode)
    (fun values => values <> [] /\ Forall valid values).
Proof.
  split.
  - intros values [Hne Hv]. unfold decode_non_empty, decode_vec, vec_to_value. cbn [as_array mbind option_bind].
    assert (mapM decode (map encode values) = Some values) as ->.
    { clear Hne. induction Hv as [|a values Ha _ IH]; [done|].
      simpl. rewrite wire_decode by done. simpl. by rewrite IH. }
    cbn [mbind option_bind]. unfold non_empty_vec_try_from. by destruct values.
  - intros values [_ Hv]. apply plain_array. rewrite Forall_map.
    apply (Forall_impl _ _ _ Hv), wire_plain.
Qed.
End Fields.

#[export] Instance text_wire : Wire as_str Str (fun _ => True).
Proof. done. Qed.

#[export] Instance validated_wire validator error :
  Wire (decode_validated (validated_string validator error)) Str (fun s => validator s = true).
Proof.
  split; [|done]. intros s Hs. unfold decode_validated, validated_string. simpl. by rewrite Hs.
Qed.

#[export] Instance u64_wire :
  Wire as_u64 u64_to_value (fun n => (n <= u64_max)%N).
Proof. split; [|done]. intros n Hn. unfold u64_to_value. cbn [as_u64]. by rewrite (proj2 (N.leb_le _ _) Hn). Qed.

#[export] Instance text_checked : Checked as_str (fun _ => True).
Proof. done. Qed.

#[export] Instance validated_checked validator error :
  Checked (decode_validated (validated_string validator error)) (fun s => validator s = true).
Proof.
  intros v s (text & _ & Hs)%bind_Some. unfold validated_string in Hs.
  by destruct (validator text) eqn:E; simplify_eq/=.
Qed.

#[export] Instance u64_checked : Checked as_u64 (fun n => (n <= u64_max)%N).
Proof.
  intros v n. destruct v as [| |[n'| |]| | |]; try done. simpl.
  destruct (N.leb_spec n' u64_max); [|done]. by intros [= <-].
Qed.

(** ** Proof steps of the codecs *)

Lemma text_optional o : optional_non_null as_str (Str <$> o) = Some o.
Proof. by apply (wire_optional (valid := fun _ => True)); destruct o. Qed.

(** Field by field. *)
Ltac wire_fields :=
  repeat first
    [ rewrite wire_required by done | rewrite wire_optional by done | rewrite text_optional
    | progress cbn [mbind option_bind] ].

Ltac distinct_names := apply (bool_decide_eq_true_1 _); vm_compute; reflexivity.

Lemma scalar_plain {A} (encode : A -> Value) (o : option A) :
  (forall a, plain (encode a)) -> from_option plain True (encode <$> o).
Proof. destruct o; simpl; auto. Qed.

(** The members of an object that was written are plain. *)
Ltac plain_fields :=
  repeat (apply Forall_cons_2;
          [first [exact eq_refl | by apply scalar_plain | by eapply wire_plain_required
                 | by eapply wire_plain_optional ]|]);
  apply Forall_nil_2.

Lemma strict_decode_items names (members : list (option Value)) :
  NoDup (map lit names) -> length names = length members ->
  forall tag, lit tag ∉ map lit names -> forall name,
  tagged_content tag (tagged_to_value tag name (zip names members))
  = Some (lit name, Object (present (zip names members))) /\
  strict_members names (Object (present (zip names members))) = Some members.
Proof.
  intros Hd Hl tag Ht name. split; [by apply tagged_content_present|by apply strict_members_present].
Qed.

(** A tagged variant is read by its own branch. *)
Ltac tagged_branch :=
  match goal with
  | |- context [tagged_to_value ?tag ?name (zip ?names ?members)] =>
      let E := fresh in let F := fresh in
      destruct (strict_decode_items names members ltac:(distinct_names) eq_refl tag
                  ltac:(distinct_names) name) as [E F];
      rewrite E; cbn [mbind option_bind]; rewrite F; clear E F
  end.

(** ** Currencies *)

Lemma parse_digits_value max s acc :
  forallb is_ascii_digit s = true ->
  (acc * 10 ^ N.of_nat (length s) + dec_value s <= max)%N ->
  parse_digits 10 max acc s = Ok (acc * 10 ^ N.of_nat (length s) + dec_value s)%N.
Proof.
  revert acc. induction s as [|c s IH]; intros acc Hs Hm.
  - cbn in *. f_equal. unfold dec_value. simpl. lia.
  - rewrite dec_value_cons in *. cbn [length] in *. rewrite Nat2N.inj_succ, N.pow_succ_r' in *.
    cbn [forallb] in Hs. apply andb_true_iff in Hs as [Hc Hs]. apply is_ascii_digit_spec in Hc.
    set (power := (10 ^ N.of_nat (length s))%N) in *.
    assert (1 <= power)%N by (subst power; pose proof (N.pow_nonzero 10 (N.of_nat (length s))); lia).
    cbn [parse_digits]. unfold to_digit.
    rewrite !(proj2 (N.leb_le _ _)) by lia. cbn [andb].
    rewrite (proj2 (N.ltb_lt _ _)) by lia. rewrite (proj2 (N.leb_le _ _)) by nia.
    rewrite IH by (done || fold power; nia). f_equal. fold power. nia.
Qed.

Lemma parse_uint_to_string max n : (n <= max)%N -> parse_uint 10 max (u64_to_string n) = Ok n.
Proof.
  intros Hn. destruct (u64_to_string_digits n) as (Hd & Hne & Hv).
  assert (parse_digits 10 max 0 (u64_to_string n) = Ok n) as Hp
    by (rewrite parse_digits_value; rewrite ?Hv; done || f_equal; lia).
  destruct (u64_to_string n) as [|c s] eqn:E; [done|].
  assert (c <> 43%N) as Hc.
  { cbn in Hd. apply andb_true_iff in Hd as [Hc _]. apply is_ascii_digit_spec in Hc. lia. }
  unfold parse_uint. clear -Hp Hc. repeat (case_match; try done).
Qed.

Lemma u64_to_string_inj a b : u64_to_string a = u64_to_string b -> a = b.
Proof.
  intros E. apply (f_equal dec_value) in E.
  by rewrite (proj2 (proj2 (u64_to_string_digits a))), (proj2 (proj2 (u64_to_string_digits b))) in E.
Qed.

(** The values of [BTreeMap<u32, DecimalString>]. *)
Definition valid_currencies (c : ExtraCurrencies) : Prop :=
  StronglySorted N.lt (map fst (ec_entries c)) /\
  Forall (fun entry => (entry.1 <= u32_max)%N /\ valid_decimal entry.2 = true) (ec_entries c).

Definition currency_member (entry : N * rstr) : rstr * Value :=
  (u64_to_string entry.1, Str entry.2).

Lemma extra_currencies_members c :
  extra_currencies_to_value c = Object (map currency_member (ec_entries c)).
Proof. unfold extra_currencies_to_value. f_equal. apply map_ext. by intros []. Qed.

Lemma currency_members_distinct entries :
  StronglySorted N.lt (map fst entries) -> NoDup (map fst (map currency_member entries)).
Proof.
  induction entries as [|[id amount] entries IH]; [constructor|].
  cbn [map fst]. inversion 1 as [|? ? Hs Hlt]; subst. apply NoDup_cons. split; [|auto].
  rewrite map_map, list_elem_of_In, in_map_iff. intros (entry & E & Hin).
  apply u64_to_string_inj in E. rewrite Forall_map, Forall_forall in Hlt.
  apply list_elem_of_In, Hlt in Hin. simpl in *. lia.
Qed.

Lemma insert_currency_first id amount entries :
  Forall (N.lt id) (map fst entries) ->
  insert_currency id amount entries = Some ((id, amount) :: entries).
Proof.
  destruct entries as [|[id' amount'] entries]; [done|]. cbn [map fst].
  intros [Hlt _]%Forall_cons_1. cbn [insert_currency]. by rewrite (proj2 (N.compare_lt_iff _ _) Hlt).
Qed.

Lemma decode_currencies_members entries :
  StronglySorted N.lt (map fst entries) ->
  Forall (fun entry => (entry.1 <= u32_max)%N /\ valid_decimal entry.2 = true) entries ->
  decode_currencies (map currency_member entries) = Some entries.
Proof.
  induction entries as [|[id amount] entries IH]; [done|]. cbn [map fst].
  inversion 1 as [|? ? Hs Hlt]; subst. intros [[Hid Ha] Hv]%Forall_cons_1. cbn [fst snd] in *.
  cbn [decode_currencies currency_member fst snd]. rewrite IH by done. cbn [mbind option_bind].
  unfold decimal_string_try_from. rewrite wire_decode by done. cbn [mbind option_bind].
  rewrite parse_uint_to_string by done. cbn [result_ok mbind option_bind].
  rewrite bool_decide_eq_true_2 by done. by apply insert_currency_first.
Qed.

#[export] Instance currencies_wire :
  Wire decode_ExtraCurrencies extra_currencies_to_value valid_currencies.
Proof.
  split; intros c [Hs Hv]; rewrite extra_currencies_members.
  - cbn [decode_ExtraCurrencies]. rewrite last_wins_distinct by by apply currency_members_distinct.
    rewrite decode_currencies_members by done. by destruct c.
  - apply plain_object; [by apply currency_members_distinct|]. rewrite Forall_map.
    apply Forall_true. done.
Qed.

Lemma insert_currency_keys id amount entries entries' :
  insert_currency id amount entries = Some entries' ->
  forall entry, entry ∈ entries' <-> entry = (id, amount) \/ entry ∈ entries.
Proof.
  revert entries'. induction entries as [|[id' amount'] entries IH]; intros entries'; simpl.
  - intros [= <-] entry. by rewrite !elem_of_cons.
  - destruct (id ?= id')%N; [done|by intros [= <-] entry; rewrite !elem_of_cons|].
    intros (rest & Hr & ->)%fmap_Some entry. rewrite !elem_of_cons, (IH _ Hr). naive_solver.
Qed.

Lemma insert_currency_sorted id amount entries entries' :
  insert_currency id amount entries = Some entries' ->
  StronglySorted N.lt (map fst entries) -> StronglySorted N.lt (map fst entries').
Proof.
  revert entries'. induction entries as [|[id' amount'] entries IH]; intros entries'; simpl.
  - intros [= <-] _. by repeat constructor.
  - destruct (N.compare_spec id id') as [?|Hlt|Hgt]; [done| |].
    + intros [= <-] Hs. constructor; [done|]. inversion Hs as [|? ? _ Hf]; subst. constructor; [done|].
      eapply Forall_impl; [exact Hf|]. simpl. lia.
    + intros (rest & Hr & ->)%fmap_Some Hs. inversion Hs as [|? ? Hs' Hf]; subst.
      simpl. constructor; [by apply (IH _ Hr)|]. rewrite Forall_map, Forall_forall in Hf |- *.
      intros entry [->|Hin]%(insert_currency_keys _ _ _ _ Hr); [done|by apply Hf].
Qed.

#[export] Instance currencies_checked : Checked decode_ExtraCurrencies valid_currencies.
Proof.
  intros v c. destruct v as [| | | | |fields]; try done. simpl.
  intros (entries & Hd & ->)%fmap_Some. unfold valid_currencies. cbn [ec_entries].
  revert entries Hd. induction (last_wins fields) as [|[key v] rest IH]; intros entries Hd; simpl in Hd.
  - injection Hd as <-. split; constructor.
  - apply bind_Some in Hd as (tail & Ht & Hd). apply bind_Some in Hd as (amount & Ha & Hd).
    apply bind_Some in Hd as (id & Hi & Hd). destruct (negb _); [done|].
    destruct (IH _ Ht) as [Hs Hv]. split; [by apply (insert_currency_sorted _ _ _ _ Hd)|].
    rewrite Forall_forall in Hv |- *. intros entry [->|Hin]%(insert_currency_keys _ _ _ _ Hd);
      [|by apply Hv]. cbn [fst snd]. split; [|by apply checked in Ha].
    destruct (parse_uint 10 u32_max key) as [n|] eqn:Hn; [|done]. injection Hi as <-.
    by apply parse_uint_bound in Hn.
Qed.

(** ** Requests *)

Section Requests.
Context `{Crc32c} `{TonCoreBoc} `{HexCrate} `{Crc16} `{UrlSafeBase64}.

(** A cell and a friendly address are only made from their text. *)
Definition valid_cell (c : CellBoc) : Prop := exists text, cell_boc_try_from text = Ok c.
Definition valid_friendly (f : FriendlyAddress) : Prop :=
  exists text, friendly_try_from text = Ok f.

(** A raw address is any [i32] and 32 bytes; friendly text holds no colon. *)
Definition valid_account (a : AccountAddress) : Prop :=
  match a with
  | Address_Raw raw => well_typed raw
  | Address_Friendly _ => exists text, account_address_try_from text = Ok a
  end.

Lemma cell_boc_text text c : cell_boc_try_from text = Ok c -> cb_encoded c = text.
Proof.
  unfold cell_boc_try_from, cell_boc_from_value, base64_value_try_from, validated_string.
  intros (encoded & Hv & Hc)%rbind_ok. apply map_err_ok in Hv.
  apply rbind_ok in Hc as (data & _ & Hc). apply rbind_ok in Hc as (? & _ & Hc).
  by destruct (valid_base64 text); simplify_eq/=.
Qed.

#[export] Instance cell_wire : Wire decode_cell cell_to_value valid_cell.
Proof.
  split; [|done]. intros c [text Hc]. unfold decode_cell, cell_to_value.
  rewrite (cell_boc_text _ _ Hc). simpl. by rewrite Hc.
Qed.

#[export] Instance friendly_wire :
  Wire decode_friendly friendly_to_value valid_friendly.
Proof.
  split; [|done]. intros f [text Hf]. unfold decode_friendly, friendly_to_value.
  rewrite (proj1 (friendly_read _ _ Hf)). simpl. by rewrite Hf.
Qed.

#[export] Instance account_wire : Wire decode_account account_to_value valid_account.
Proof.
  split; [|done]. intros [raw|f] Ha; unfold decode_account, account_to_value; simpl.
  - unfold account_address_try_from. by rewrite raw_roundtrip.
  - destruct Ha as [text Ha]. pose proof Ha as Hf. unfold account_address_try_from in Hf.
    destruct (raw_from_str text); [done|]. destruct (friendly_try_from text) as [f'|] eqn:E; [|done].
    simplify_eq/=. rewrite (proj1 (friendly_read _ _ E)), Ha. done.
Qed.

Definition valid_message (m : RawMessage) : Prop :=
  valid_friendly (rm_address m) /\ valid_decimal (rm_amount m) = true /\
  from_option valid_cell True (rm_payload m) /\ from_option valid_cell True (rm_state_init m) /\
  from_option valid_currencies True (rm_extra_currency m).

Definition valid_optional_decimal (o : option rstr) : Prop :=
  from_option (fun s => valid_decimal s = true) True o.

Definition valid_item (item : StructuredItem) : Prop :=
  match item with
  | Item_Ton address amount payload state_init extra_currency =>
      valid_message (mkRawMessage address amount payload state_init extra_currency)
  | Item_Jetton master destination amount attach _ response custom forward payload =>
      valid_account master /\ valid_account destination /\ valid_decimal amount = true /\
      valid_optional_decimal attach /\ from_option valid_account True response /\
      from_option valid_cell True custom /\ valid_optional_decimal forward /\
      from_option valid_cell True payload
  | Item_Nft nft owner attach _ response custom forward payload =>
      valid_account nft /\ valid_account owner /\ valid_optional_decimal attach /\
      from_option valid_account True response /\ from_option valid_cell True custom /\
      valid_optional_decimal forward /\ from_option valid_cell True payload
  end.

Definition valid_context (c : TransactionContext) : Prop :=
  from_option (fun t => (t <= u64_max)%N) True (tc_valid_until c) /\
  from_option (fun n => valid_network_id n = true) True (tc_network c) /\
  from_option valid_account True (tc_from c).

Definition valid_payload (payload : TransactionPayload) : Prop :=
  match payload with
  | Payload_Raw context messages =>
      valid_context context /\ messages <> [] /\ Forall valid_message messages
  | Payload_Structured context items =>
      valid_context context /\ items <> [] /\ Forall valid_item items
  end.

Definition valid_sign_data (payload : SignDataPayload) : Prop :=
  from_option (fun n => valid_network_id n = true) True (sign_data_constraints payload).1 /\
  from_option valid_account True (sign_data_constraints payload).2 /\
  match payload with
  | SignData_Text _ _ _ => True
  | SignData_Binary data _ _ => valid_base64 data = true
  | SignData_Cell _ cell _ _ => valid_cell cell
  end.

#[export] Instance message_wire : Wire decode_RawMessage raw_message_to_value valid_message.
Proof.
  split; intros [address amount payload state_init currency] (Ha & Hm & Hp & Hs & Hc);
    cbn [rm_address rm_amount rm_payload rm_state_init rm_extra_currency] in *;
    unfold raw_message_to_value;
    cbn [rm_address rm_amount rm_payload rm_state_init rm_extra_currency].
  - unfold decode_RawMessage. rewrite strict_members_present; [|distinct_names|done].
    unfold decode_decimal, decimal_string_try_from. wire_fields. done.
  - apply plain_struct; [distinct_names|]. plain_fields.
Qed.

#[export] Instance item_wire : Wire decode_StructuredItem structured_item_to_value valid_item.
Proof.
  split.
  - intros item Hi. unfold decode_StructuredItem.
    destruct item; cbn [valid_item structured_item_to_value] in *;
      unfold valid_message, valid_optional_decimal in *;
      cbn [rm_address rm_amount rm_payload rm_state_init rm_extra_currency] in *;
      destruct_and?; tagged_branch;
      unfold decode_decimal, decimal_string_try_from; wire_fields; done.
  - intros item Hi.
    destruct item; cbn [valid_item structured_item_to_value] in *;
      unfold valid_message, valid_optional_decimal in *;
      cbn [rm_address rm_amount rm_payload rm_state_init rm_extra_currency] in *;
      destruct_and?; (apply plain_tagged; [distinct_names|plain_fields]).
Qed.

Lemma decode_context_values context :
  valid_context context ->
  exists valid_until network from,
    context_values context = [valid_until; network; from] /\
    decode_context valid_until network from = Some context /\
    Forall (from_option plain True) (context_values context).
Proof.
  destruct context as [valid_until network from]. intros (Ht & Hn & Hf). do 3 eexists.
  split; [done|]. cbn [tc_valid_until tc_network tc_from] in *. split.
  - unfold decode_context, decode_network, network_id_try_from. wire_fields. done.
  - unfold context_values. cbn [tc_valid_until tc_network tc_from]. plain_fields.
Qed.

#[export] Instance payload_wire :
  Wire decode_TransactionPayload transaction_payload_to_value valid_payload.
Proof.
  assert (forall payload, valid_payload payload -> plain (transaction_payload_to_value payload))
    as Hplain.
  { intros [context messages|context items] [Hc Hm]; cbn [transaction_payload_to_value];
      destruct (decode_context_values _ Hc) as (? & ? & ? & _ & _ & Hp);
      (apply plain_struct; [distinct_names|]; apply Forall_app; split; [done|]; plain_fields). }
  split; [|done]. intros payload Hv. unfold decode_TransactionPayload. rewrite Hplain by done.
  destruct payload as [context messages|context items]; destruct Hv as [Hc Hm];
    cbn [transaction_payload_to_value];
    destruct (decode_context_values _ Hc) as (valid_until & network & from & -> & Hd & _);
    cbn [app].
  - assert (forall v, let fields := present (zip raw_payload_fields
      [valid_until; network; from; Some v]) in
      contains_key "messages" fields = true /\ contains_key "items" fields = false) as Hk
      by (by destruct valid_until, network, from).
    destruct (Hk (vec_to_value raw_message_to_value messages)) as [-> ->].
    rewrite strict_members_present; [|distinct_names|done]. rewrite Hd. wire_fields. done.
  - assert (forall v, let fields := present (zip structured_payload_fields
      [valid_until; network; from; Some v]) in
      contains_key "messages" fields = false /\ contains_key "items" fields = true) as Hk
      by (by destruct valid_until, network, from).
    destruct (Hk (vec_to_value structured_item_to_value items)) as [-> ->].
    rewrite strict_members_present; [|distinct_names|done]. rewrite Hd. wire_fields. done.
Qed.

#[export] Instance sign_data_wire :
  Wire decode_SignDataPayload sign_data_to_value valid_sign_data.
Proof.
  split.
  - intros payload (Hn & Hf & Hp). unfold decode_SignDataPayload.
    destruct payload; cbn [sign_data_to_value sign_data_constraints fst snd] in *; tagged_branch;
      unfold decode_network, network_id_try_from, base64_value_try_from; wire_fields; done.
  - intros payload (Hn & Hf & Hp).
    destruct payload; cbn [sign_data_to_value sign_data_constraints fst snd] in *;
      (apply plain_tagged; [distinct_names|plain_fields]).
Qed.

(** *** Decoded values are valid *)

#[export] Instance cell_checked : Checked decode_cell valid_cell.
Proof.
  intros v c (text & _ & Hc)%bind_Some. exists text. by destruct (cell_boc_try_from text); simplify_eq/=.
Qed.

#[export] Instance friendly_checked : Checked decode_friendly valid_friendly.
Proof.
  intros v f (text & _ & Hf)%bind_Some. exists text. by destruct (friendly_try_from text); simplify_eq/=.
Qed.

#[export] Instance account_checked : Checked decode_account valid_account.
Proof.
  intros v a (text & _ & Ha)%bind_Some.
  destruct (account_address_try_from text) as [a'|] eqn:E; [|done]. injection Ha as ->.
  destruct a as [raw|f]; [|by exists text]. unfold account_address_try_from in E.
  destruct (raw_from_str text) as [raw'|] eqn:Er; [|by destruct (friendly_try_from text)].
  simplify_eq/=. by apply raw_from_str_well_typed in Er.
Qed.

#[export] Instance message_checked : Checked decode_RawMessage valid_message.
Proof.
  intros v m Hm. unfold decode_RawMessage, decode_decimal, decimal_string_try_from in Hm.
  destruct (strict_members _ v) as [members|]; [|done]. repeat (destruct members; try done).
  decoded_fields Hm. injection Hm as <-. done.
Qed.

#[export] Instance item_checked : Checked decode_StructuredItem valid_item.
Proof.
  intros v item Hi. unfold decode_StructuredItem, decode_decimal, decimal_string_try_from in Hi.
  apply bind_Some in Hi as ([name content] & _ & Hi).
  destruct (bool_decide _); [|destruct (bool_decide _); [|destruct (bool_decide _); [|done]]];
    (destruct (strict_members _ content) as [members|]; [|done]); repeat (destruct members; try done);
    decoded_fields Hi; injection Hi as <-; done.
Qed.

Lemma context_checked valid_until network from context :
  decode_context valid_until network from = Some context -> valid_context context.
Proof.
  unfold decode_context, decode_network, network_id_try_from. intros Hc. decoded_fields Hc.
  by injection Hc as <-.
Qed.

#[export] Instance payload_checked : Checked decode_TransactionPayload valid_payload.
Proof.
  intros v payload Hp. unfold decode_TransactionPayload in Hp.
  destruct (as_value v) as [| | | | |fields]; try done.
  destruct (contains_key "messages" fields), (contains_key "items" fields); try done;
    (destruct (strict_members _ _) as [members|]; [|done]); repeat (destruct members; try done);
    apply bind_Some in Hp as (context & Hc%context_checked & Hp); decoded_fields Hp;
    injection Hp as <-; done.
Qed.

#[export] Instance sign_data_checked : Checked decode_SignDataPayload valid_sign_data.
Proof.
  intros v payload Hp. unfold decode_SignDataPayload, decode_network, network_id_try_from,
    base64_value_try_from in Hp.
  apply bind_Some in Hp as ([name content] & _ & Hp).
  destruct (bool_decide _); [|destruct (bool_decide _); [|destruct (bool_decide _); [|done]]];
    (destruct (strict_members _ content) as [members|]; [|done]); repeat (destruct members; try done);
    decoded_fields Hp; injection Hp as <-; done.
Qed.

(** *** Claims *)

Context `{SerdeJson}.

Definition valid_request (request : KnownAppRequest) : Prop :=
  match request with
  | Request_SendTransaction _ payload | Request_SignMessage _ payload => valid_payload payload
  | Request_SignData _ payload => valid_sign_data payload
  | Request_Disconnect _ => True
  end.

(** serde_json reads the text it prints for the value. *)
Definition reads_back (v : Value) : Prop := document_from_slice (utf8 (value_to_string v)) = Ok v.

Lemma single_parameter_roundtrip `{Wire A decode encode valid} method a :
  valid a -> reads_back (encode a) ->
  parse_single_parameter decode method [value_to_string (encode a)] = Ok a.
Proof.
  intros Ha Hr. unfold parse_single_parameter, decode_slice. rewrite Hr. simpl.
  by rewrite wire_decode.
Qed.

Lemma single_parameter_checked `{Checked A decode valid} method params a :
  parse_single_parameter decode method params = Ok a -> valid a.
Proof.
  unfold parse_single_parameter, decode_slice. destruct params as [|payload [|]]; try done.
  intros (document & _ & Ha%ok_or_ok)%map_err_ok%rbind_ok. by apply checked in Ha.
Qed.

(** A request keeps its meaning on the wire: for every request whose values the
    wire types can hold, the generic request that [encode] builds decodes to the same
    request, provided serde_json reads back the text it prints for the parameter.
    Every message, item, currency, address, cell and constraint of the payload is
    restored, in order. *)
Theorem rpc_request_roundtrip request :
  valid_request request ->
  (forall v, request_parameter request = Some v -> reads_back v) ->
  app_request_decode (app_request_encode request) = Ok request.
Proof.
  intros Hv Hr. destruct request as [id payload|id payload|id payload|id]; [| | |done];
    specialize (Hr _ eq_refl).
  - change (rmap (Request_SendTransaction id)
      (parse_single_parameter decode_TransactionPayload "sendTransaction"
         [value_to_string (transaction_payload_to_value payload)]) =
      Ok (Request_SendTransaction id payload)).
    by rewrite single_parameter_roundtrip.
  - change (rmap (Request_SignMessage id)
      (parse_single_parameter decode_TransactionPayload "signMessage"
         [value_to_string (transaction_payload_to_value payload)]) =
      Ok (Request_SignMessage id payload)).
    by rewrite single_parameter_roundtrip.
  - change (rmap (Request_SignData id)
      (parse_single_parameter decode_SignDataPayload "signData"
         [value_to_string (sign_data_to_value payload)]) = Ok (Request_SignData id payload)).
    by rewrite single_parameter_roundtrip.
Qed.

(** A decoded request is well formed: it keeps the method and the identifier of the
    generic request; its amounts are decimal numbers, its networks identifiers, its
    cells and friendly addresses values their constructors accept, its raw addresses an
    [i32] with 32 bytes, its currency tables sorted without repetition, and its message
    and item lists not empty. *)
Theorem rpc_decoded_request_valid request known :
  app_request_decode request = Ok known ->
  valid_request known /\ request_id known = ar_id request /\
  method_as_str (rpc_method known) = ar_method request.
Proof.
  unfold app_request_decode. intros Hd.
  repeat match type of Hd with
    | (if bool_decide ?P then _ else _) = _ =>
        let E := fresh "E" in destruct (bool_decide_reflect P) as [E|_]; [rewrite E; clear E|]
    end; try done.
  1-3: destruct (parse_single_parameter _ _ _) as [payload|] eqn:Hp; [|done]; simplify_eq/=;
    by apply single_parameter_checked in Hp.
  destruct (is_empty _); [|done]. by simplify_eq/=.
Qed.
End Requests.

(** * Requests and responses are checked exactly

    The capability check of ConnectRpc.v against a declarative reading of the features
    that a wallet advertises, and what an accepted response says about its request. *)

(** ** Capabilities *)

(** The kind of a feature. *)
Inductive FeatureName :=
  | Name_Legacy | Name_SendTransaction | Name_SignData | Name_SignMessage | Name_EmbeddedRequest.

#[export] Instance FeatureName_eq_dec : EqDecision FeatureName.
Proof. solve_decision. Defined.

Definition feature_name (feature : Feature) : FeatureName :=
  match feature with
  | Feature_LegacySendTransaction => Name_Legacy
  | Feature_SendTransaction _ => Name_SendTransaction
  | Feature_SignData _ => Name_SignData
  | Feature_SignMessage _ => Name_SignMessage
  | Feature_EmbeddedRequest => Name_EmbeddedRequest
  end.

(** What the flags and names of the loop have seen. *)
Definition seen (legacy detailed : bool) (names : list string) (name : FeatureName) : Prop :=
  match name with
  | Name_Legacy => legacy = true
  | Name_SendTransaction => detailed = true
  | Name_SignData => "SignData"%string ∈ names
  | Name_SignMessage => "SignMessage"%string ∈ names
  | Name_EmbeddedRequest => "EmbeddedRequest"%string ∈ names
  end.

Lemma validate_features_step legacy detailed names f features :
  validate_features legacy detailed names (f :: features) = Ok tt ->
  ~ seen legacy detailed names (feature_name f) /\
  exists legacy' detailed' names',
    validate_features legacy' detailed' names' features = Ok tt /\
    forall n, seen legacy' detailed' names' n <->
              n = feature_name f \/ seen legacy detailed names n.
Proof.
  destruct f; simpl; intros [Hs Hv]%if_err_ok; bool_to_prop; (split; [by subst|]);
    do 3 eexists; (split; [exact Hv|]); intros []; simpl; rewrite ?elem_of_cons; naive_solver.
Qed.

Lemma validate_features_distinct legacy detailed names features :
  validate_features legacy detailed names features = Ok tt ->
  NoDup (map feature_name features) /\
  forall n, n ∈ map feature_name features -> ~ seen legacy detailed names n.
Proof.
  revert legacy detailed names.
  induction features as [|f features IH]; intros legacy detailed names Hv.
  - split; [constructor|by intros n ?%not_elem_of_nil].
  - apply validate_features_step in Hv as (Hn & legacy' & detailed' & names' & Hv & Hs).
    apply IH in Hv as [Hd Hf]. simpl. split.
    + apply NoDup_cons. split; [|done]. intros Hin. apply (Hf _ Hin), Hs. by left.
    + intros n [->|Hin]%elem_of_cons; [done|]. intros Hin'. apply (Hf _ Hin), Hs. by right.
Qed.

Lemma feature_unique d f g :
  device_info_validate d = Ok tt -> f ∈ di_features d -> g ∈ di_features d ->
  feature_name f = feature_name g -> f = g.
Proof.
  unfold device_info_validate. intros [_ [_ [Hd _]%validate_features_distinct]%if_err_ok]%if_err_ok.
  induction (di_features d) as [|x l IH]; [by intros ?%not_elem_of_nil|].
  apply NoDup_cons in Hd as [Hx Hd].
  assert (forall y, y ∈ l -> feature_name y = feature_name x -> False) as Hno.
  { intros y Hy E. apply Hx. rewrite <- E. by apply list_elem_of_fmap_2. }
  intros [->|Hf]%elem_of_cons [->|Hg]%elem_of_cons E; [done| | |by apply IH].
  - by destruct (Hno _ Hg).
  - by destruct (Hno _ Hf).
Qed.

Lemma find_map_Some {A B} (f : A -> option B) l b :
  find_map f l = Some b -> exists a, a ∈ l /\ f a = Some b.
Proof.
  induction l as [|a l IH]; [done|]. simpl. destruct (f a) eqn:E.
  - intros [= <-]. exists a. split; [apply list_elem_of_here|done].
  - intros (a' & Hin & Ha)%IH. exists a'. split; [by right|done].
Qed.

Lemma find_map_None {A B} (f : A -> option B) l a :
  find_map f l = None -> a ∈ l -> f a = None.
Proof.
  induction l as [|a' l IH]; [by intros _ ?%not_elem_of_nil|]. simpl.
  destruct (f a') eqn:E; [done|]. intros Hl [->|Hin]%elem_of_cons; auto.
Qed.

(** The first feature of a kind is the one that is advertised. *)
Lemma find_map_feature {B} (select : Feature -> option B) (build : B -> Feature) d :
  device_info_validate d = Ok tt ->
  (forall f b, select f = Some b <-> f = build b) ->
  (forall b b', feature_name (build b) = feature_name (build b')) ->
  forall o, find_map select (di_features d) = o ->
  forall b, build b ∈ di_features d <-> o = Some b.
Proof.
  intros Hd Hs Hn o Ho b. split.
  - intros Hin. destruct o as [b'|].
    + apply find_map_Some in Ho as (f & Hf & ->%Hs).
      assert (build b' = build b) as E by (apply (feature_unique d); auto).
      symmetry in E. apply Hs in E. rewrite (proj2 (Hs (build b) b) eq_refl) in E.
      by symmetry.
    + apply (find_map_None _ _ _ Ho) in Hin. by rewrite (proj2 (Hs (build b) b) eq_refl) in Hin.
  - intros ->. apply find_map_Some in Ho as (f & Hf & ->%Hs). done.
Qed.

(** *** What is supported *)

(** Some message transfers an extra currency. *)
Definition transfers_currency (payload : TransactionPayload) : Prop :=
  exists c, ec_entries c <> [] /\
    match payload with
    | Payload_Raw _ messages => exists m, m ∈ messages /\ rm_extra_currency m = Some c
    | Payload_Structured _ items =>
        exists address amount body state_init, Item_Ton address amount body state_init (Some c) ∈ items
    end.

(** A feature covers a payload. *)
Definition covers (feature : MessageFeature) (payload : TransactionPayload) : Prop :=
  (N.of_nat (message_count payload) <= mf_max_messages feature)%N /\
  (transfers_currency payload -> mf_extra_currency_supported feature = Some true) /\
  match payload with
  | Payload_Raw _ _ => True
  | Payload_Structured _ items =>
      exists types, mf_item_types feature = Some types /\ forall item, item ∈ items -> item_type item ∈ types
  end.

(** What the deprecated entry covers. *)
Definition basic (payload : TransactionPayload) : Prop :=
  match payload with
  | Payload_Raw _ _ => ~ transfers_currency payload
  | Payload_Structured _ _ => False
  end.

Definition supports_send (d : DeviceInfo) (payload : TransactionPayload) : Prop :=
  (exists feature, Feature_SendTransaction feature ∈ di_features d /\ covers feature payload) \/
  ((forall feature, Feature_SendTransaction feature ∉ di_features d) /\
   Feature_LegacySendTransaction ∈ di_features d /\ basic payload).

Definition supports_sign_message (d : DeviceInfo) (payload : TransactionPayload) : Prop :=
  exists feature, Feature_SignMessage feature ∈ di_features d /\ covers feature payload.

Definition supports_sign_data (d : DeviceInfo) (payload : SignDataPayload) : Prop :=
  exists types, Feature_SignData types ∈ di_features d /\ data_type payload ∈ types.

Definition supports_request (d : DeviceInfo) (request : KnownAppRequest) : Prop :=
  match request with
  | Request_SendTransaction _ payload => supports_send d payload
  | Request_SignMessage _ payload => supports_sign_message d payload
  | Request_SignData _ payload => supports_sign_data d payload
  | Request_Disconnect _ => True
  end.

Definition supports_embedded (d : DeviceInfo) (request : EmbeddedRequest) : Prop :=
  Feature_EmbeddedRequest ∈ di_features d /\
  match request with
  | Embedded_SendTransaction payload => supports_send d payload
  | Embedded_SignMessage payload => supports_sign_message d payload
  | Embedded_SignData payload => supports_sign_data d payload
  end.

Lemma non_empty_currencies_spec o :
  non_empty_currencies o = true <-> exists c, o = Some c /\ ec_entries c <> [].
Proof.
  destruct o as [[[|e l]]|]; simpl; split; try done.
  - intros (? & [= <-] & ?). done.
  - intros _. by eexists.
  - by intros (? & ? & _).
Qed.

Lemma uses_extra_currency_spec payload :
  uses_extra_currency payload = true <-> transfers_currency payload.
Proof.
  unfold transfers_currency. destruct payload as [context messages|context items];
    cbn [uses_extra_currency]; rewrite existsb_exists; split.
  - intros (m & Hm%list_elem_of_In & (c & E & Hc)%non_empty_currencies_spec). by exists c; eauto.
  - intros (c & Hc & m & Hm%list_elem_of_In & E). exists m. rewrite non_empty_currencies_spec. eauto.
  - intros (item & Hi%list_elem_of_In & Hc). destruct item; try done.
    apply non_empty_currencies_spec in Hc as (c & -> & Hc). by exists c; split; [|do 4 eexists].
  - intros (c & Hc & address & amount & body & state_init & Hi%list_elem_of_In). eexists. split; [done|].
    apply non_empty_currencies_spec. eauto.
Qed.

(** The checks of a detailed feature. *)
Lemma covers_check feature payload :
  (if (mf_max_messages feature <? N.of_nat (message_count payload))%N
   then Err (MessageLimitExceeded (mf_max_messages feature) (message_count payload))
   else if uses_extra_currency payload
           && negb (bool_decide (mf_extra_currency_supported feature = Some true))
   then Err ExtraCurrencyNotSupported
   else
     match structured_item_types payload with
     | None => Ok tt
     | Some required_types =>
         match mf_item_types feature with
         | None => Err StructuredItemsNotSupported
         | Some supported_types =>
             match List.find (fun required => negb (bool_decide (required ∈ supported_types)))
                     required_types with
             | Some unsupported => Err (StructuredItemTypeNotSupported unsupported)
             | None => Ok tt
             end
         end
     end) = Ok tt <-> covers feature payload.
Proof.
  unfold covers. rewrite !if_err_ok, N.ltb_ge, andb_false_iff, negb_false_iff, bool_decide_eq_true.
  apply and_iff_compat_l, Morphisms_Prop.and_iff_morphism.
  - rewrite <- uses_extra_currency_spec. destruct (uses_extra_currency payload); naive_solver.
  - destruct payload as [context messages|context items]; cbn [structured_item_types]; [done|].
    destruct (mf_item_types feature) as [types|]; [|by split; [|intros (? & ? & _)]].
    destruct (List.find _ _) as [kind|] eqn:E.
    + split; [done|]. intros (? & [= <-] & Hall). apply find_some in E as [Hin Hno].
      apply in_map_iff in Hin as (item & <- & Hin%list_elem_of_In).
      by rewrite bool_decide_eq_true_2 in Hno by auto.
    + split; [|done]. intros _. exists types. split; [done|]. intros item Hin.
      pose proof (find_none _ _ E (item_type item)) as Hn.
      rewrite negb_false_iff, bool_decide_eq_true in Hn. apply Hn, in_map. by apply list_elem_of_In.
Qed.

Section Exact.
Context (d : DeviceInfo) (d_valid : device_info_validate d = Ok tt).

Lemma validate_send_exact payload :
  validate_transaction d "sendTransaction" payload false = Ok tt <-> supports_send d payload.
Proof.
  unfold validate_transaction, supports_send.
  pose proof (find_map_feature (detailed_feature false) Feature_SendTransaction d d_valid
    ltac:(intros [] ?; simpl; naive_solver) ltac:(done) _ eq_refl) as Hf.
  destruct (find_map _ _) as [feature|].
  - rewrite covers_check. split.
    + intros Hc. left. exists feature. by rewrite Hf.
    + intros [(feature' & Hin & Hc)|[Hno _]].
      * apply Hf in Hin. by injection Hin as <-.
      * destruct (Hno feature). by rewrite Hf.
  - rewrite !if_err_ok, negb_false_iff, bool_decide_eq_false. cbn [negb andb]. split.
    + intros ((f & Hin & Hn)%existsb_exists & Hs & Hc & _). right.
      split; [intros feature Hin'; by apply Hf in Hin'|]. bool_to_prop.
      split; [apply list_elem_of_In in Hin; by destruct f|].
      destruct payload; simpl in *; [|by destruct Hs].
      rewrite <- uses_extra_currency_spec. cbn [uses_extra_currency]. by rewrite Hc.
    + intros [(feature & Hin & _)|(_ & Hl & Hb)]; [by apply Hf in Hin|].
      split; [|].
      * apply existsb_exists. exists Feature_LegacySendTransaction. by rewrite <- list_elem_of_In.
      * destruct payload; [|done]. split; [by intros []|]. split; [|done].
        apply not_true_iff_false. by rewrite uses_extra_currency_spec.
Qed.

Lemma validate_sign_message_exact payload :
  validate_transaction d "signMessage" payload true = Ok tt <-> supports_sign_message d payload.
Proof.
  unfold validate_transaction, supports_sign_message.
  pose proof (find_map_feature (detailed_feature true) Feature_SignMessage d d_valid
    ltac:(intros [] ?; simpl; naive_solver) ltac:(done) _ eq_refl) as Hf.
  destruct (find_map _ _) as [feature|].
  - rewrite covers_check. split.
    + intros Hc. exists feature. by rewrite Hf.
    + intros (feature' & Hin & Hc). apply Hf in Hin. by injection Hin as <-.
  - split; [done|]. intros (feature & Hin & _). by apply Hf in Hin.
Qed.

Lemma validate_sign_data_exact payload :
  validate_sign_data d payload = Ok tt <-> supports_sign_data d payload.
Proof.
  unfold validate_sign_data, supports_sign_data.
  pose proof (find_map_feature (fun f => match f with Feature_SignData types => Some types | _ => None end)
    Feature_SignData d d_valid ltac:(intros [] ?; simpl; naive_solver) ltac:(done) _ eq_refl) as Hf.
  destruct (find_map _ _) as [types|].
  - rewrite if_err_ok, negb_false_iff, bool_decide_eq_true. split.
    + intros [Ht _]. exists types. by rewrite Hf.
    + intros (types' & Hin & Ht). apply Hf in Hin. by injection Hin as <-.
  - split; [done|]. intros (types & Hin & _). by apply Hf in Hin.
Qed.
End Exact.

(** For a wallet description that validates, the capability check of a request
    accepts exactly what the advertised features cover, whatever their order: the
    message limit, extra currencies only with explicit support, structured items only of
    the listed types; a wallet with only the deprecated entry gets plain raw transfers;
    data is signed only of the listed types, and a request embedded in a link also
    needs the feature for it. *)
Theorem capability_check_exact d :
  device_info_validate d = Ok tt ->
  (forall request, validate_request d request = Ok tt <-> supports_request d request) /\
  (forall request, validate_embedded_request d request = Ok tt <-> supports_embedded d request).
Proof.
  intros Hd. split.
  - intros [id payload|id payload|id payload|id]; simpl;
      [by apply validate_send_exact|by apply validate_sign_message_exact
      |by apply validate_sign_data_exact|done].
  - intros request. unfold validate_embedded_request, supports_embedded.
    rewrite if_err_ok, negb_false_iff. apply Morphisms_Prop.and_iff_morphism.
    + rewrite existsb_exists. split.
      * intros (f & Hin%list_elem_of_In & Hn). bool_to_prop. by destruct f.
      * intros Hin. exists Feature_EmbeddedRequest. by rewrite <- list_elem_of_In.
    + destruct request; [by apply validate_send_exact|by apply validate_sign_message_exact
        |by apply validate_sign_data_exact].
Qed.

(** ** Responses *)

Section Responses.
Context `{Crc32c} `{TonCoreBoc} `{HexCrate} `{Crc16} `{UrlSafeBase64}.

Definition response_id (response : WalletResponse) : rstr :=
  match response with Response_Success _ id | Response_Error _ id => id end.

(** What a validated response says about the request it answers. *)
Definition answers (response : WalletResponse) (request : KnownAppRequest)
    (known : KnownWalletResponse) : Prop :=
  match known with
  | Known_SendTransaction boc =>
      rpc_method request = Method_SendTransaction /\ valid_cell boc /\ cb_encoded boc <> [] /\
      response = Response_Success (Result_String (cb_encoded boc)) (request_id request)
  | Known_SignMessage boc =>
      rpc_method request = Method_SignMessage /\ valid_cell boc /\ cb_encoded boc <> []
  | Known_SignData data =>
      request = Request_SignData (request_id request) (sdr_payload data) /\
      length (sig_bytes (sdr_signature data)) = 64 /\ well_typed (sdr_address data) /\
      (sdr_timestamp data <= u64_max)%N
  | Known_Disconnect =>
      rpc_method request = Method_Disconnect /\
      response = Response_Success (Result_Object []) (request_id request)
  | Known_Error error =>
      response = Response_Error error (request_id request) /\
      (rpc_method request = Method_Disconnect -> wre_code error <> RpcCode_UserDeclined)
  end.

Lemma signature_from_str_length value s : signature_from_str value = Some s -> length (sig_bytes s) = 64.
Proof.
  intros (data & _ & Hs)%bind_Some. destruct (Nat.eqb_spec (length data) 64) as [Hl|]; [|done].
  simpl in Hs. destruct (negb _); [done|]. by injection Hs as <-.
Qed.

#[export] Instance signature_checked :
  Checked (fun v => as_str v ≫= signature_from_str) (fun s => length (sig_bytes s) = 64).
Proof. intros v s (text & _ & Hs)%bind_Some. by apply signature_from_str_length in Hs. Qed.

#[export] Instance raw_address_checked : Checked decode_raw_address well_typed.
Proof.
  intros v a (text & _ & Ha)%bind_Some. destruct (raw_from_str text) as [a'|] eqn:E; [|done].
  injection Ha as <-. by apply raw_from_str_well_typed in E.
Qed.

Lemma sign_data_result_checked v data :
  decode_SignDataResult v = Some data ->
  length (sig_bytes (sdr_signature data)) = 64 /\ well_typed (sdr_address data) /\
  (sdr_timestamp data <= u64_max)%N.
Proof.
  unfold decode_SignDataResult. intros Hd.
  destruct (strict_members _ v) as [members|]; [|done]. repeat (destruct members; try done).
  decoded_fields Hd. by injection Hd as <-.
Qed.

Lemma is_empty_false {A} (l : list A) : is_empty l = false -> l <> [].
Proof. by destruct l. Qed.

Lemma success_answers result request known :
  validate_success_result result request = Ok known ->
  answers (Response_Success result (request_id request)) request known.
Proof.
  unfold validate_success_result.
  destruct request as [id payload|id payload|id payload|id], result as [text|fields]; try done.
  - intros (boc & Hb%map_err_ok & Hk)%rbind_ok. apply if_err_ok in Hk as [He%is_empty_false [= <-]].
    cbn [answers]. rewrite (cell_boc_text _ _ Hb) in *. split; [done|]. split; [by exists text|done].
  - intros (boc & Hb%ok_or_ok & Hk)%rbind_ok. apply if_err_ok in Hk as [He%is_empty_false [= <-]].
    split; [done|]. split; [|done]. unfold decode_SignMessageResult in Hb.
    destruct (strict_members _ _) as [members|]; [|done]. repeat (destruct members; try done).
    by apply required_checked in Hb.
  - intros (data & Hd%ok_or_ok & Hk)%rbind_ok. apply if_err_ok in Hk as [He [= <-]]. bool_to_prop.
    split; [by rewrite He|]. by apply sign_data_result_checked in Hd.
  - destruct fields; [|done]. by intros [= <-].
Qed.

(** An accepted response answers the request it is checked against: the identifiers
    agree, a success carries the result of the method that was asked for (a non-empty
    well-formed cell, a 64-byte signature over the very payload of the request, or the
    empty object of a disconnect), an error is passed on unchanged, and a disconnect
    cannot be declined. *)
Theorem accepted_response_answers response request known :
  validate_for response request = Ok known ->
  response_id response = request_id request /\ answers response request known.
Proof.
  unfold validate_for. fold (response_id response). intros [Hid Hk]%if_err_ok. bool_to_prop.
  split; [done|]. destruct response as [result id|error id]; simpl in Hid; subst id.
  - by apply success_answers.
  - apply if_err_ok in Hk as [Hc [= <-]]. split; [done|]. intros Hm E.
    rewrite bool_decide_eq_true_2 in Hc by done. by destruct request.
Qed.
End Responses.
