(* ===== verification/ConnectEmbedded.v ===== *)
(** * Requests embedded in a connect link

    crates/ton-connect-core/src/embedded.rs: the compact JSON form of a request, its
    Base64 parameter, and the response that a connect event carries. *)

From stdpp Require Import base numbers list option strings.
From S2P Require Import Prelude BoundaryTypes SendDomain Base64 Json CellBoc ConnectSession.
From S2P Require Import ConnectValues Addresses ConnectRpc ConnectRpcSpec.

(** ** Compact data *)

Record WireMessage := mkWireMessage {
  wm_a : FriendlyAddress;
  wm_am : rstr;
  wm_p : option CellBoc;
  wm_si : option CellBoc;
  wm_ec : option ExtraCurrencies;
}.

Inductive WireItem :=
  | WireItem_Ton (a : FriendlyAddress) (am : rstr) (p si : option CellBoc)
      (ec : option ExtraCurrencies)
  | WireItem_Jetton (ma d : AccountAddress) (am : rstr) (aa qi : option rstr)
      (rd : option AccountAddress) (cp : option CellBoc) (fa : option rstr) (fp : option CellBoc)
  | WireItem_Nft (na no : AccountAddress) (aa qi : option rstr) (rd : option AccountAddress)
      (cp : option CellBoc) (fa : option rstr) (fp : option CellBoc).

(** [WireRawTransaction] and [WireStructuredTransaction] share these fields. *)
Record WireContext := mkWireContext {
  wc_f : option AccountAddress;
  wc_n : option rstr;
  wc_vu : option N;
}.

Inductive WireTransactionPayload :=
  | WirePayload_Raw (context : WireContext) (ms : list WireMessage)
  | WirePayload_Structured (context : WireContext) (i : list WireItem).

Inductive WireTransactionMethod := WireMethod_SendTransaction | WireMethod_SignMessage.

Inductive WireSignDataPayload :=
  | WireData_Text (tx : rstr)
  | WireData_Binary (b : rstr)
  | WireData_Cell (s : rstr) (c : CellBoc).

Inductive WireEmbeddedRequest :=
  | Wire_Transaction (m : WireTransactionMethod) (payload : WireTransactionPayload)
  | Wire_SignData (n : option rstr) (f : option AccountAddress) (payload : WireSignDataPayload).

(** ** Conversions *)

Definition message_of_wire (message : WireMessage) : RawMessage :=
  mkRawMessage (wm_a message) (wm_am message) (wm_p message) (wm_si message) (wm_ec message).

Definition message_to_wire (message : RawMessage) : WireMessage :=
  mkWireMessage (rm_address message) (rm_amount message) (rm_payload message)
    (rm_state_init message) (rm_extra_currency message).

Definition item_of_wire (item : WireItem) : StructuredItem :=
  match item with
  | WireItem_Ton a am p si ec => Item_Ton a am p si ec
  | WireItem_Jetton ma d am aa qi rd cp fa fp => Item_Jetton ma d am aa qi rd cp fa fp
  | WireItem_Nft na no aa qi rd cp fa fp => Item_Nft na no aa qi rd cp fa fp
  end.

Definition item_to_wire (item : StructuredItem) : WireItem :=
  match item with
  | Item_Ton address amount payload state_init extra_currency =>
      WireItem_Ton address amount payload state_init extra_currency
  | Item_Jetton master destination amount attach query response custom forward payload =>
      WireItem_Jetton master destination amount attach query response custom forward payload
  | Item_Nft nft owner attach query response custom forward payload =>
      WireItem_Nft nft owner attach query response custom forward payload
  end.

Definition context_of_wire (c : WireContext) : TransactionContext :=
  mkTransactionContext (wc_vu c) (wc_n c) (wc_f c).

Definition context_to_wire (c : TransactionContext) : WireContext :=
  mkWireContext (tc_from c) (tc_network c) (tc_valid_until c).

Definition payload_of_wire (payload : WireTransactionPayload) : TransactionPayload :=
  match payload with
  | WirePayload_Raw context ms => Payload_Raw (context_of_wire context) (map message_of_wire ms)
  | WirePayload_Structured context i =>
      Payload_Structured (context_of_wire context) (map item_of_wire i)
  end.

Definition payload_to_wire (payload : TransactionPayload) : WireTransactionPayload :=
  match payload with
  | Payload_Raw context messages =>
      WirePayload_Raw (context_to_wire context) (map message_to_wire messages)
  | Payload_Structured context items =>
      WirePayload_Structured (context_to_wire context) (map item_to_wire items)
  end.

Definition request_of_wire (request : WireEmbeddedRequest) : EmbeddedRequest :=
  match request with
  | Wire_Transaction WireMethod_SendTransaction payload =>
      Embedded_SendTransaction (payload_of_wire payload)
  | Wire_Transaction WireMethod_SignMessage payload =>
      Embedded_SignMessage (payload_of_wire payload)
  | Wire_SignData n f (WireData_Text tx) => Embedded_SignData (SignData_Text tx n f)
  | Wire_SignData n f (WireData_Binary b) => Embedded_SignData (SignData_Binary b n f)
  | Wire_SignData n f (WireData_Cell s c) => Embedded_SignData (SignData_Cell s c n f)
  end.

Definition request_to_wire (request : EmbeddedRequest) : WireEmbeddedRequest :=
  match request with
  | Embedded_SendTransaction payload =>
      Wire_Transaction WireMethod_SendTransaction (payload_to_wire payload)
  | Embedded_SignMessage payload =>
      Wire_Transaction WireMethod_SignMessage (payload_to_wire payload)
  | Embedded_SignData (SignData_Text text network from) =>
      Wire_SignData network from (WireData_Text text)
  | Embedded_SignData (SignData_Binary data network from) =>
      Wire_SignData network from (WireData_Binary data)
  | Embedded_SignData (SignData_Cell schema cell network from) =>
      Wire_SignData network from (WireData_Cell schema cell)
  end.

Definition wire_message_fields : list string := ["a"; "am"; "p"; "si"; "ec"]%string.
Definition wire_jetton_fields : list string :=
  ["ma"; "d"; "am"; "aa"; "qi"; "rd"; "cp"; "fa"; "fp"]%string.
Definition wire_nft_fields : list string :=
  ["na"; "no"; "aa"; "qi"; "rd"; "cp"; "fa"; "fp"]%string.
Definition wire_raw_fields : list string := ["f"; "n"; "vu"; "ms"]%string.
Definition wire_structured_fields : list string := ["f"; "n"; "vu"; "i"]%string.

(** ** JSON *)

Section Embedded.
Context `{Crc32c} `{TonCoreBoc} `{HexCrate} `{Crc16} `{UrlSafeBase64}.

Definition decode_WireMessage (v : Value) : option WireMessage :=
  match strict_members wire_message_fields v with
  | Some [a; am; p; si; ec] =>
      a ← required decode_friendly a;
      am ← required decode_decimal am;
      p ← optional_non_null decode_cell p;
      si ← optional_non_null decode_cell si;
      ec ← optional_non_null decode_ExtraCurrencies ec;
      Some (mkWireMessage a am p si ec)
  | _ => None
  end.

Definition wire_message_to_value (m : WireMessage) : Value :=
  Object (present (zip wire_message_fields
    [Some (friendly_to_value (wm_a m)); Some (Str (wm_am m)); cell_to_value <$> wm_p m;
     cell_to_value <$> wm_si m; extra_currencies_to_value <$> wm_ec m])).

Definition decode_WireItem (v : Value) : option WireItem :=
  content ← tagged_content "t" v;
  let '(name, content) := content in
  if bool_decide (name = lit "ton") then
    match strict_members wire_message_fields content with
    | Some [a; am; p; si; ec] =>
        a ← required decode_friendly a;
        am ← required decode_decimal am;
        p ← optional_non_null decode_cell p;
        si ← optional_non_null decode_cell si;
        ec ← optional_non_null decode_ExtraCurrencies ec;
        Some (WireItem_Ton a am p si ec)
    | _ => None
    end
  else if bool_decide (name = lit "jetton") then
    match strict_members wire_jetton_fields content with
    | Some [ma; d; am; aa; qi; rd; cp; fa; fp] =>
        ma ← required decode_account ma;
        d ← required decode_account d;
        am ← required decode_decimal am;
        aa ← optional_non_null decode_decimal aa;
        qi ← optional_non_null as_str qi;
        rd ← optional_non_null decode_account rd;
        cp ← optional_non_null decode_cell cp;
        fa ← optional_non_null decode_decimal fa;
        fp ← optional_non_null decode_cell fp;
        Some (WireItem_Jetton ma d am aa qi rd cp fa fp)
    | _ => None
    end
  else if bool_decide (name = lit "nft") then
    match strict_members wire_nft_fields content with
    | Some [na; no; aa; qi; rd; cp; fa; fp] =>
        na ← required decode_account na;
        no ← required decode_account no;
        aa ← optional_non_null decode_decimal aa;
        qi ← optional_non_null as_str qi;
        rd ← optional_non_null decode_account rd;
        cp ← optional_non_null decode_cell cp;
        fa ← optional_non_null decode_decimal fa;
        fp ← optional_non_null decode_cell fp;
        Some (WireItem_Nft na no aa qi rd cp fa fp)
    | _ => None
    end
  else None.

Definition wire_item_to_value (item : WireItem) : Value :=
  match item with
  | WireItem_Ton a am p si ec =>
      tagged_to_value "t" "ton" (zip wire_message_fields
        [Some (friendly_to_value a); Some (Str am); cell_to_value <$> p; cell_to_value <$> si;
         extra_currencies_to_value <$> ec])
  | WireItem_Jetton ma d am aa qi rd cp fa fp =>
      tagged_to_value "t" "jetton" (zip wire_jetton_fields
        [Some (account_to_value ma); Some (account_to_value d); Some (Str am); Str <$> aa;
         Str <$> qi; account_to_value <$> rd; cell_to_value <$> cp; Str <$> fa;
         cell_to_value <$> fp])
  | WireItem_Nft na no aa qi rd cp fa fp =>
      tagged_to_value "t" "nft" (zip wire_nft_fields
        [Some (account_to_value na); Some (account_to_value no); Str <$> aa; Str <$> qi;
         account_to_value <$> rd; cell_to_value <$> cp; Str <$> fa; cell_to_value <$> fp])
  end.

Definition decode_wire_context (f n vu : option Value) : option WireContext :=
  f ← optional_non_null decode_account f;
  n ← optional_non_null decode_network n;
  vu ← optional_non_null as_u64 vu;
  Some (mkWireContext f n vu).

Definition wire_context_values (c : WireContext) : list (option Value) :=
  [account_to_value <$> wc_f c; Str <$> wc_n c; u64_to_value <$> wc_vu c].

Definition decode_WireTransactionPayload (document : Value) : option WireTransactionPayload :=
  match as_value document with
  | Object fields =>
      match contains_key "ms" fields, contains_key "i" fields with
      | true, false =>
          match strict_members wire_raw_fields (Object fields) with
          | Some [f; n; vu; ms] =>
              context ← decode_wire_context f n vu;
              ms ← required (decode_non_empty decode_WireMessage) ms;
              Some (WirePayload_Raw context ms)
          | _ => None
          end
      | false, true =>
          match strict_members wire_structured_fields (Object fields) with
          | Some [f; n; vu; i] =>
              context ← decode_wire_context f n vu;
              i ← required (decode_non_empty decode_WireItem) i;
              Some (WirePayload_Structured context i)
          | _ => None
          end
      | _, _ => None
      end
  | _ => None
  end.

Definition wire_payload_members (payload : WireTransactionPayload) : list (rstr * Value) :=
  match payload with
  | WirePayload_Raw context ms =>
      present (zip wire_raw_fields
        (wire_context_values context ++ [Some (vec_to_value wire_message_to_value ms)]))
  | WirePayload_Structured context i =>
      present (zip wire_structured_fields
        (wire_context_values context ++ [Some (vec_to_value wire_item_to_value i)]))
  end.

(** A unit variant read from buffered content: its name, or an object with the name as
    its only key and [null] in it. *)
Definition buffered_variant (v : Value) : option rstr :=
  match v with
  | Str name => Some name
  | Object [(name, Null)] => Some name
  | _ => None
  end.

Definition decode_transaction_method (v : Value) : option WireTransactionMethod :=
  name ← buffered_variant v;
  if bool_decide (name = lit "st") then Some WireMethod_SendTransaction
  else if bool_decide (name = lit "sm") then Some WireMethod_SignMessage
  else None.

Definition decode_sign_data_method (v : Value) : option unit :=
  name ← buffered_variant v;
  if bool_decide (name = lit "sd") then Some tt else None.

(** What [#[serde(flatten)]] leaves to the flattened field. *)
Definition without (names : list string) (fields : list (rstr * Value)) : list (rstr * Value) :=
  List.filter (fun field => negb (bool_decide (field.1 ∈ map lit names))) fields.

(** The declared members of a struct with a flattened field: an object, none twice. *)
Definition flattened_members (names : list string) (v : Value)
  : option (list (option Value) * list (rstr * Value)) :=
  match v with
  | Object fields =>
      if forallb (fun name => (occurrences (lit name) fields <=? 1)%nat) names
      then Some (map (fun name => assoc_get (lit name) fields) names, without names fields)
      else None
  | _ => None
  end.

Definition decode_WireTransactionRequest (v : Value) : option WireEmbeddedRequest :=
  members ← flattened_members ["m"] v;
  match members with
  | ([m], rest) =>
      m ← required decode_transaction_method m;
      payload ← decode_WireTransactionPayload (Object rest);
      Some (Wire_Transaction m payload)
  | _ => None
  end.

(** The tag of a flattened variant can also be its index. *)
Definition data_tag (v : Value) : option rstr :=
  match v with
  | Str name => Some name
  | Num (PosInt index) => [lit "text"; lit "binary"; lit "cell"] !! N.to_nat index
  | _ => None
  end.

Definition decode_WireSignDataPayload (fields : list (rstr * Value)) : option WireSignDataPayload :=
  if negb (occurrences (lit "t") fields =? 1)%nat then None
  else
    name ← assoc_get (lit "t") fields ≫= data_tag;
    let content := Object (without ["t"] fields) in
    if bool_decide (name = lit "text") then
      match strict_members ["tx"] content with
      | Some [tx] => WireData_Text <$> required as_str tx
      | _ => None
      end
    else if bool_decide (name = lit "binary") then
      match strict_members ["b"] content with
      | Some [b] => WireData_Binary <$> required (decode_validated base64_value_try_from) b
      | _ => None
      end
    else if bool_decide (name = lit "cell") then
      match strict_members ["s"; "c"] content with
      | Some [s; c] =>
          s ← required as_str s;
          c ← required decode_cell c;
          Some (WireData_Cell s c)
      | _ => None
      end
    else None.

Definition wire_data_members (payload : WireSignDataPayload) : list (rstr * Value) :=
  match payload with
  | WireData_Text tx => [(lit "t", Str (lit "text")); (lit "tx", Str tx)]
  | WireData_Binary b => [(lit "t", Str (lit "binary")); (lit "b", Str b)]
  | WireData_Cell s c =>
      [(lit "t", Str (lit "cell")); (lit "s", Str s); (lit "c", cell_to_value c)]
  end.

Definition decode_WireSignDataRequest (v : Value) : option WireEmbeddedRequest :=
  members ← flattened_members ["m"; "n"; "f"] v;
  match members with
  | ([m; n; f], rest) =>
      _ ← required decode_sign_data_method m;
      n ← optional_non_null decode_network n;
      f ← optional_non_null decode_account f;
      payload ← decode_WireSignDataPayload rest;
      Some (Wire_SignData n f payload)
  | _ => None
  end.

(** [#[serde(untagged)]]: the first shape that fits. *)
Definition decode_WireEmbeddedRequest (v : Value) : option WireEmbeddedRequest :=
  match decode_WireTransactionRequest v with
  | Some request => Some request
  | None => decode_WireSignDataRequest v
  end.

Definition wire_request_to_value (request : WireEmbeddedRequest) : Value :=
  match request with
  | Wire_Transaction m payload =>
      let name := match m with WireMethod_SendTransaction => "st" | WireMethod_SignMessage => "sm" end in
      Object (present (zip ["m"]%string [Some (Str (lit name))]) ++ wire_payload_members payload)
  | Wire_SignData n f payload =>
      Object (present (zip ["m"; "n"; "f"]%string
                [Some (Str (lit "sd")); Str <$> n; account_to_value <$> f])
              ++ wire_data_members payload)
  end.

(** ** The parameter *)

Inductive EmbeddedRequestError := Embedded_InvalidBase64 | Embedded_InvalidJson (error : rstr).

Context `{SerdeJson}.

Definition decode_embedded_request_param (parameter : rstr)
  : result EmbeddedRequestError EmbeddedRequest :=
  if is_empty parameter || contains 61%N parameter then Err Embedded_InvalidBase64
  else
    let? json := ok_or Embedded_InvalidBase64 (url_safe_no_pad_decode parameter) in
    let? wire := map_err Embedded_InvalidJson (decode_slice decode_WireEmbeddedRequest json) in
    Ok (request_of_wire wire).

Definition encode_embedded_request_param (request : EmbeddedRequest)
  : result EmbeddedRequestError rstr :=
  let? json :=
    map_err Embedded_InvalidJson (value_to_vec (wire_request_to_value (request_to_wire request))) in
  Ok (url_safe_no_pad_encode json).

(** ** Responses *)

Inductive EmbeddedResponse :=
  | EmbeddedResponse_Success (result : WalletResult)
  | EmbeddedResponse_Error (error : WalletResponseError).

Definition embedded_validate_for (response : EmbeddedResponse) (request : EmbeddedRequest)
  : result ResponseValidationError KnownWalletResponse :=
  let request :=
    match request with
    | Embedded_SendTransaction payload => Request_SendTransaction [] payload
    | Embedded_SignMessage payload => Request_SignMessage [] payload
    | Embedded_SignData payload => Request_SignData [] payload
    end in
  let response :=
    match response with
    | EmbeddedResponse_Success result => Response_Success result []
    | EmbeddedResponse_Error error => Response_Error error []
    end in
  validate_for response request.
End Embedded.

(** * Embedded requests survive the link

    The compact JSON codecs are instances of the classes of ConnectRpcSpec.v; the
    parameter of a connect link decodes to the request it was made for. *)

Section Embedded.
Context `{Crc32c} `{TonCoreBoc} `{HexCrate} `{Crc16} `{UrlSafeBase64}.

(** ** Conversions are inverse *)

Lemma message_wire_inverse m : message_of_wire (message_to_wire m) = m.
Proof. by destruct m. Qed.

Lemma item_wire_inverse i : item_of_wire (item_to_wire i) = i.
Proof. by destruct i. Qed.

Lemma payload_wire_inverse p : payload_of_wire (payload_to_wire p) = p.
Proof.
  destruct p as [[vu n f] l|[vu n f] l]; cbn [payload_to_wire payload_of_wire]; f_equal;
    rewrite map_map; (etransitivity; [|apply map_id]); apply map_ext.
  - exact message_wire_inverse.
  - exact item_wire_inverse.
Qed.

Lemma request_wire_inverse r : request_of_wire (request_to_wire r) = r.
Proof.
  destruct r as [p|p|[]]; cbn [request_to_wire request_of_wire]; by rewrite ?payload_wire_inverse.
Qed.

(** ** Codecs *)

Definition valid_wire_message (m : WireMessage) : Prop := valid_message (message_of_wire m).
Definition valid_wire_item (i : WireItem) : Prop := valid_item (item_of_wire i).
Definition valid_wire_payload (p : WireTransactionPayload) : Prop := valid_payload (payload_of_wire p).

Definition valid_embedded (r : EmbeddedRequest) : Prop :=
  match r with
  | Embedded_SendTransaction payload | Embedded_SignMessage payload => valid_payload payload
  | Embedded_SignData payload => valid_sign_data payload
  end.

#[export] Instance wire_message_wire :
  Wire decode_WireMessage wire_message_to_value valid_wire_message.
Proof.
  split; intros [a am p si ec] (Ha & Hm & Hp & Hs & Hc);
    unfold message_of_wire, wire_message_to_value in *;
    cbn [rm_address rm_amount rm_payload rm_state_init rm_extra_currency wm_a wm_am wm_p wm_si wm_ec] in *.
  - unfold decode_WireMessage. rewrite strict_members_present; [|distinct_names|done].
    unfold decode_decimal, decimal_string_try_from. wire_fields. done.
  - apply plain_struct; [distinct_names|]. plain_fields.
Qed.

#[export] Instance wire_message_checked : Checked decode_WireMessage valid_wire_message.
Proof.
  intros v m Hm. unfold decode_WireMessage, decode_decimal, decimal_string_try_from in Hm.
  destruct (strict_members _ v) as [members|]; [|done]. repeat (destruct members; try done).
  decoded_fields Hm. injection Hm as <-. done.
Qed.

#[export] Instance wire_item_wire : Wire decode_WireItem wire_item_to_value valid_wire_item.
Proof.
  split.
  - intros item Hi. unfold decode_WireItem, valid_wire_item in *.
    destruct item; cbn [item_of_wire valid_item wire_item_to_value] in *;
      unfold valid_message, valid_optional_decimal in *;
      cbn [rm_address rm_amount rm_payload rm_state_init rm_extra_currency] in *;
      destruct_and?; tagged_branch;
      unfold decode_decimal, decimal_string_try_from; wire_fields; done.
  - intros item Hi. unfold valid_wire_item in *.
    destruct item; cbn [item_of_wire valid_item wire_item_to_value] in *;
      unfold valid_message, valid_optional_decimal in *;
      cbn [rm_address rm_amount rm_payload rm_state_init rm_extra_currency] in *;
      destruct_and?; (apply plain_tagged; [distinct_names|plain_fields]).
Qed.

#[export] Instance wire_item_checked : Checked decode_WireItem valid_wire_item.
Proof.
  intros v item Hi. unfold decode_WireItem, decode_decimal, decimal_string_try_from in Hi.
  apply bind_Some in Hi as ([name content] & _ & Hi).
  destruct (bool_decide _); [|destruct (bool_decide _); [|destruct (bool_decide _); [|done]]];
    (destruct (strict_members _ content) as [members|]; [|done]); repeat (destruct members; try done);
    decoded_fields Hi; injection Hi as <-; done.
Qed.

Lemma wire_context_values_ok context :
  valid_context (context_of_wire context) ->
  exists f n vu,
    wire_context_values context = [f; n; vu] /\ decode_wire_context f n vu = Some context /\
    Forall (from_option plain True) (wire_context_values context).
Proof.
  destruct context as [f n vu]. intros (Ht & Hn & Hf). do 3 eexists. split; [done|].
  cbn [tc_valid_until tc_network tc_from context_of_wire wc_f wc_n wc_vu] in *. split.
  - unfold decode_wire_context, decode_network, network_id_try_from. wire_fields. done.
  - unfold wire_context_values. cbn [wc_f wc_n wc_vu]. plain_fields.
Qed.

Lemma wire_context_checked f n vu context :
  decode_wire_context f n vu = Some context -> valid_context (context_of_wire context).
Proof.
  unfold decode_wire_context, decode_network, network_id_try_from. intros Hc. decoded_fields Hc.
  by injection Hc as <-.
Qed.

Lemma map_valid {A B} (f : A -> B) (valid : B -> Prop) (l : list A) :
  map f l <> [] /\ Forall valid (map f l) <-> l <> [] /\ Forall (fun a => valid (f a)) l.
Proof. rewrite Forall_map. destruct l; naive_solver. Qed.

Definition wire_payload_to_value (p : WireTransactionPayload) : Value := Object (wire_payload_members p).

Lemma wire_payload_plain p : valid_wire_payload p -> plain (wire_payload_to_value p).
Proof.
  intros Hv. destruct p as [context l|context l]; destruct Hv as [Hc Hl%(proj1 (map_valid _ _ _))];
    destruct (wire_context_values_ok _ Hc) as (? & ? & ? & _ & _ & Hp);
    (apply plain_struct; [distinct_names|]; apply Forall_app; split; [done|]; plain_fields).
Qed.

#[export] Instance wire_payload_wire :
  Wire decode_WireTransactionPayload wire_payload_to_value valid_wire_payload.
Proof.
  split; [|exact wire_payload_plain]. intros payload Hv. unfold decode_WireTransactionPayload.
  rewrite wire_payload_plain by done. unfold wire_payload_to_value.
  destruct payload as [context l|context l]; destruct Hv as [Hc Hl%(proj1 (map_valid _ _ _))];
    cbn [wire_payload_members];
    destruct (wire_context_values_ok _ Hc) as (f & n & vu & -> & Hd & _); cbn [app].
  - assert (forall v, let fields := present (zip wire_raw_fields [f; n; vu; Some v]) in
      contains_key "ms" fields = true /\ contains_key "i" fields = false) as Hk
      by (by destruct f, n, vu).
    destruct (Hk (vec_to_value wire_message_to_value l)) as [-> ->].
    rewrite strict_members_present; [|distinct_names|done]. rewrite Hd. wire_fields. done.
  - assert (forall v, let fields := present (zip wire_structured_fields [f; n; vu; Some v]) in
      contains_key "ms" fields = false /\ contains_key "i" fields = true) as Hk
      by (by destruct f, n, vu).
    destruct (Hk (vec_to_value wire_item_to_value l)) as [-> ->].
    rewrite strict_members_present; [|distinct_names|done]. rewrite Hd. wire_fields. done.
Qed.

#[export] Instance wire_payload_checked : Checked decode_WireTransactionPayload valid_wire_payload.
Proof.
  intros v payload Hp. unfold decode_WireTransactionPayload in Hp.
  destruct (as_value v) as [| | | | |fields]; try done.
  destruct (contains_key "ms" fields), (contains_key "i" fields); try done;
    (destruct (strict_members _ _) as [members|]; [|done]); repeat (destruct members; try done);
    apply bind_Some in Hp as (context & Hc%wire_context_checked & Hp); decoded_fields Hp;
    injection Hp as <-; (split; [done|]); by apply (proj2 (map_valid _ _ _)).
Qed.

(** ** Flattened members *)

Lemma without_none names fields :
  (forall key, key ∈ map lit names -> key ∉ map fst fields) -> without names fields = fields.
Proof.
  unfold without. intros Hn. induction fields as [|[k v] fields IH]; [done|]. cbn [List.filter fst].
  rewrite bool_decide_eq_false_2.
  - cbn [negb]. f_equal. apply IH. intros key Hk Hin. apply (Hn key Hk). by right.
  - intros Hk. apply (Hn k Hk). left.
Qed.

Lemma without_app names a b : without names (a ++ b) = without names a ++ without names b.
Proof. apply List.filter_app. Qed.

Lemma without_all names fields :
  (forall key, key ∈ map fst fields -> key ∈ map lit names) -> without names fields = [].
Proof.
  unfold without. intros Hn. induction fields as [|[k v] fields IH]; [done|]. cbn [List.filter fst].
  rewrite bool_decide_eq_true_2 by (apply Hn; left). cbn [negb]. apply IH.
  intros key Hk. apply Hn. by right.
Qed.

Lemma assoc_get_app {A} key (a b : list (rstr * A)) :
  assoc_get key (a ++ b) = match assoc_get key a with Some v => Some v | None => assoc_get key b end.
Proof.
  induction a as [|[k v] a IH]; [done|]. simpl. destruct (bool_decide (k = key)); [done|exact IH].
Qed.

(** Declared members first, the flattened field's members after them. *)
Lemma flattened_members_present names members rest :
  NoDup (map lit names) -> length names = length members ->
  NoDup (map fst rest) -> (forall key, key ∈ map lit names -> key ∉ map fst rest) ->
  flattened_members names (Object (present (zip names members) ++ rest)) = Some (members, rest).
Proof.
  intros Hd Hl Hr Hn. unfold flattened_members.
  assert (NoDup (map fst (present (zip names members) ++ rest))) as Hnd.
  { rewrite map_app. apply NoDup_app. split; [by apply present_distinct|]. split; [|done].
    intros key Hk%present_keys. by apply Hn. }
  assert (forallb (fun name => (occurrences (lit name) (present (zip names members) ++ rest) <=? 1)%nat)
            names = true) as ->.
  { apply forallb_forall. intros name _. by apply Nat.leb_le, occurrences_distinct. }
  rewrite without_app, (without_none names rest Hn), without_all by (intros key; apply present_keys).
  cbn [app]. do 2 f_equal. etransitivity; [|exact (present_get names members Hd Hl)].
  apply map_ext_in. intros name Hin. rewrite assoc_get_app.
  destruct (assoc_get (lit name) (present _)); [done|]. apply assoc_get_None, Hn.
  by apply list_elem_of_fmap_2, list_elem_of_In.
Qed.

(** ** Requests *)

Definition valid_wire_data (payload : WireSignDataPayload) : Prop :=
  match payload with
  | WireData_Text _ => True
  | WireData_Binary b => valid_base64 b = true
  | WireData_Cell _ c => valid_cell c
  end.

Lemma data_members_roundtrip payload :
  valid_wire_data payload -> decode_WireSignDataPayload (wire_data_members payload) = Some payload.
Proof.
  destruct payload as [tx|b|s c]; intros Hv; [done| |].
  - change (WireData_Binary <$> required (decode_validated base64_value_try_from) (Some (Str b))
            = Some (WireData_Binary b)).
    unfold base64_value_try_from. by rewrite wire_required.
  - change (required decode_cell (Some (cell_to_value c)) ≫= (fun c => Some (WireData_Cell s c))
            = Some (WireData_Cell s c)).
    by rewrite wire_required.
Qed.

Lemma data_members_keys payload key :
  key ∈ map fst (wire_data_members payload) ->
  key ∈ [lit "t"; lit "tx"; lit "b"; lit "s"; lit "c"].
Proof.
  destruct payload; cbn [wire_data_members map fst]; rewrite !elem_of_cons, ?elem_of_nil; tauto.
Qed.

Lemma decode_sign_data_request n f payload :
  from_option (fun n => valid_network_id n = true) True n -> from_option valid_account True f ->
  valid_wire_data payload ->
  decode_WireEmbeddedRequest (wire_request_to_value (Wire_SignData n f payload))
  = Some (Wire_SignData n f payload).
Proof.
  intros Hn Hf Hp. unfold decode_WireEmbeddedRequest.
  assert (decode_WireTransactionRequest (wire_request_to_value (Wire_SignData n f payload)) = None)
    as ->.
  { unfold decode_WireTransactionRequest. destruct (flattened_members _ _) as [[ms rest]|] eqn:E; [|done].
    unfold flattened_members in E. cbn [wire_request_to_value] in E.
    destruct (forallb _ _); [|done]. injection E as <- <-. done. }
  unfold decode_WireSignDataRequest. cbn [wire_request_to_value].
  rewrite (flattened_members_present ["m"; "n"; "f"]%string
    [Some (Str (lit "sd")); Str <$> n; account_to_value <$> f] (wire_data_members payload)).
  - cbn [mbind option_bind]. change (required decode_sign_data_method (Some (Str (lit "sd")))) with (Some tt).
    cbn [mbind option_bind]. unfold decode_network, network_id_try_from. wire_fields.
    by rewrite data_members_roundtrip.
  - distinct_names.
  - done.
  - destruct payload; distinct_names.
  - assert (Forall (fun key => key ∉ [lit "t"; lit "tx"; lit "b"; lit "s"; lit "c"])
      (map lit ["m"; "n"; "f"]%string)) as Hall by distinct_names.
    rewrite Forall_forall in Hall. intros key Hk Hin%data_members_keys. exact (Hall key Hk Hin).
Qed.

Lemma payload_members_keys p key :
  key ∈ map fst (wire_payload_members p) -> key <> lit "m".
Proof.
  assert (forall names members, lit "m" ∉ map lit names ->
    lit "m" ∉ map fst (present (zip names members))) as Hno
    by (intros names members Hm; by intros ?%present_keys).
  intros Hin ->. revert Hin. destruct p; apply Hno; distinct_names.
Qed.

Lemma decode_transaction_request m payload :
  valid_wire_payload payload ->
  decode_WireEmbeddedRequest (wire_request_to_value (Wire_Transaction m payload))
  = Some (Wire_Transaction m payload).
Proof.
  intros Hp. unfold decode_WireEmbeddedRequest, decode_WireTransactionRequest.
  cbn [wire_request_to_value].
  set (name := match m with WireMethod_SendTransaction => _ | WireMethod_SignMessage => _ end).
  rewrite (flattened_members_present ["m"]%string [Some (Str (lit name))] (wire_payload_members payload)).
  - cbn [mbind option_bind].
    replace (required decode_transaction_method (Some (Str (lit name)))) with (Some m) by (by destruct m).
    cbn [mbind option_bind]. fold (wire_payload_to_value payload). by rewrite wire_decode.
  - distinct_names.
  - done.
  - destruct payload; apply present_distinct; distinct_names.
  - intros key Hk Hin%payload_members_keys. by apply list_elem_of_singleton in Hk.
Qed.

Lemma embedded_wire_decode r :
  valid_embedded r ->
  decode_WireEmbeddedRequest (wire_request_to_value (request_to_wire r)) = Some (request_to_wire r).
Proof.
  intros Hv. destruct r as [p|p|p]; cbn [valid_embedded request_to_wire] in *.
  1-2: apply decode_transaction_request; unfold valid_wire_payload; by rewrite payload_wire_inverse.
  destruct Hv as (Hn & Hf & Hp).
  destruct p; cbn [sign_data_constraints fst snd] in *; by apply decode_sign_data_request.
Qed.

Lemma decoded_embedded_valid v wire :
  decode_WireEmbeddedRequest v = Some wire -> valid_embedded (request_of_wire wire).
Proof.
  unfold decode_WireEmbeddedRequest. destruct (decode_WireTransactionRequest v) as [r|] eqn:E.
  - intros [= <-]. unfold decode_WireTransactionRequest in E.
    apply bind_Some in E as ([members rest] & _ & E). repeat (destruct members; try done).
    apply bind_Some in E as (m & _ & E). apply bind_Some in E as (payload & Hp & [= <-]).
    apply checked in Hp. by destruct m.
  - clear E. unfold decode_WireSignDataRequest, decode_network, network_id_try_from. intros E.
    apply bind_Some in E as ([members rest] & _ & E). repeat (destruct members; try done).
    apply bind_Some in E as (? & _ & E). decoded_fields E. injection E as <-.
    match goal with H : decode_WireSignDataPayload rest = Some _ |- _ => rename H into Hd end.
    unfold decode_WireSignDataPayload in Hd. destruct (negb _); [done|].
    apply bind_Some in Hd as (name & _ & Hd).
    destruct (bool_decide _); [|destruct (bool_decide _); [|destruct (bool_decide _); [|done]]];
      (destruct (strict_members _ _) as [members|]; [|done]); repeat (destruct members; try done).
    + apply fmap_Some in Hd as (tx & _ & ->). done.
    + apply fmap_Some in Hd as (b & Hb & ->). unfold base64_value_try_from in Hb.
      by apply required_checked in Hb.
    + decoded_fields Hd. by injection Hd as <-.
Qed.

(** ** Claim *)

Context `{SerdeJson}.

(** serde_json writes these bytes for the value and reads them back. *)
Definition writes (v : Value) (body : bytes) : Prop :=
  value_to_vec v = Ok body /\ document_from_slice body = Ok v /\ body <> [] /\
  Forall (fun b => b < 256)%N body.

Lemma embedded_param_roundtrip request body :
  valid_embedded request -> writes (wire_request_to_value (request_to_wire request)) body ->
  encode_embedded_request_param request = Ok (url_safe_no_pad_encode body) /\
  decode_embedded_request_param (url_safe_no_pad_encode body) = Ok request.
Proof.
  intros Hv (Hb & Hd & Hne & Hu8). split.
  - unfold encode_embedded_request_param. by rewrite Hb.
  - unfold decode_embedded_request_param.
    assert (is_empty (url_safe_no_pad_encode body) = false) as ->.
    { destruct (url_safe_no_pad_encode body) eqn:E; [by apply url_safe_encode_nil in E|done]. }
    rewrite url_safe_encode_no_pad, url_safe_decode_encode by done. cbn [orb ok_or rbind].
    unfold decode_slice. rewrite Hd. cbn [rbind]. rewrite embedded_wire_decode by done.
    cbn [ok_or map_err rbind]. by rewrite request_wire_inverse.
Qed.

(** An embedded request survives its link parameter: when serde_json prints its
    compact form as bytes that it reads back, the Base64 parameter decodes to the same
    request, with every message, item, currency, constraint and the method; and every
    parameter that decodes gives a request with valid values only. *)
Theorem embedded_request_roundtrip :
  (forall request body,
     valid_embedded request -> writes (wire_request_to_value (request_to_wire request)) body ->
     exists parameter,
       encode_embedded_request_param request = Ok parameter /\
       decode_embedded_request_param parameter = Ok request) /\
  (forall parameter request,
     decode_embedded_request_param parameter = Ok request -> valid_embedded request).
Proof.
  split; [intros request body Hv Hw; eexists; by apply embedded_param_roundtrip|].
  intros parameter request Hd. unfold decode_embedded_request_param in Hd.
  apply if_err_ok in Hd as [_ Hd]. apply rbind_ok in Hd as (json & _ & Hd).
  apply rbind_ok in Hd as (wire & Hw & [= <-]). apply map_err_ok in Hw.
  apply rbind_ok in Hw as (document & _ & Hw%ok_or_ok). by apply decoded_embedded_valid in Hw.
Qed.
End Embedded.
