(* ===== verification/ConnectSigning.v ===== *)
(** * What a wallet signs, and which key an account has

    crates/ton-connect-core/src/signing.rs: the messages behind the signatures of
    ton_proof and signData; wallet_state.rs: the binding of a public key to an account
    through the state it was deployed with.  Hashes, Ed25519, cells and host names are
    third-party code: the classes [Sha256], [Ed25519], [Crc32Iso], [TonCells] and
    [HostParser]. *)

From stdpp Require Import base numbers list option strings.
From S2P Require Import Prelude BoundaryTypes SendDomain Base64 Json CellBoc CellBocSpec.
From S2P Require Import ConnectSession ConnectValues Addresses ConnectRpc.

(** ** Third-party code *)

Class Sha256 := {
  sha256 : bytes -> bytes;
  sha256_length data : length (sha256 data) = 32;
  sha256_u8s data : Forall (fun b => b < 256)%N (sha256 data);
}.

(** [VerifyingKey::from_bytes] fails on bytes that are not a key; [verify_strict]. *)
Class Ed25519 := { verify_strict : bytes -> bytes -> bytes -> option bool }.

(** [Crc::<u32>::new(&CRC_32_ISO_HDLC).checksum]. *)
Class Crc32Iso := {
  crc32_iso : bytes -> N;
  crc32_iso_u32 data : (crc32_iso data <= u32_max)%N;
}.

Inductive Host := Host_Domain (domain : rstr) | Host_Ipv4 | Host_Ipv6.

(** [url::Host::parse]. *)
Class HostParser := { host_parse : rstr -> option Host }.

(** [MsgAddressInt] without anycast. *)
Inductive MsgAddressInt :=
  | Address_Std (workchain : Z) (address : bytes)
  | Address_Var (bits_len : N) (workchain : Z) (address : bytes).

(** The cells of ton_core: the kind, the bits and the references of a cell, its hash, the
    builder, and the root that the parser finds. *)
Class TonCells `{TonCoreBoc} := {
  Cell : Type;
  cell_ordinary : Cell -> bool;
  cell_bits : Cell -> list bool;
  cell_refs : Cell -> list Cell;
  cell_hash : Cell -> option bytes;
  build_cell : list bool -> list Cell -> option Cell;
  msg_address_bits : MsgAddressInt -> option (list bool);
  ton_core_root : bytes -> option Cell;
  ton_core_root_accepts data :
    ton_core_accepts data = true <-> exists c, ton_core_root data = Some c;
  build_cell_content bits refs c :
    build_cell bits refs = Some c -> cell_bits c = bits /\ cell_refs c = refs;
}.

(** ** Constants *)

Definition TON_PROOF_ITEM_PREFIX : bytes := lit "ton-proof-item-v2/".
Definition TON_CONNECT_PREFIX : bytes := lit "ton-connect".
Definition SIGN_DATA_PREFIX : bytes := lit "ton-connect/sign-data/".
Definition SIGN_DATA_CELL_MAGIC : N := 1968607266%N.
Definition DNS_SNAKE_CELL_BYTES : nat := 127.

Inductive SigningError :=
  | InvalidPublicKey
  | LengthOverflow
  | InvalidDomain
  | InvalidCell
  | InvalidBase64Payload
  | InvalidVerificationKey.

(** ** Public keys *)

Record Ed25519PublicKey := mkEd25519PublicKey { pk_bytes : bytes }.

#[export] Instance Ed25519PublicKey_eq_dec : EqDecision Ed25519PublicKey.
Proof. solve_decision. Defined.

Definition public_key_to_string `{HexCrate} (key : Ed25519PublicKey) : rstr :=
  hex_encode (pk_bytes key).

Definition public_key_from_str `{HexCrate} (value : rstr) : result SigningError Ed25519PublicKey :=
  if negb (length (utf8 value) =? 64)%nat || negb (forallb is_ascii_hexdigit (utf8 value))
  then Err InvalidPublicKey
  else rmap mkEd25519PublicKey (ok_or InvalidPublicKey (hex_decode value)).

(** ** Messages *)

(** [i32::to_be_bytes]. *)
Definition i32_be_bytes (n : Z) : bytes := be_bytes 4 (Z.to_N (n mod 2 ^ 32)).

(** [u32::try_from] of a length. *)
Definition u32_length (data : bytes) : result SigningError N :=
  if (N.of_nat (length data) <=? u32_max)%N then Ok (N.of_nat (length data)) else Err LengthOverflow.

Section Messages.
Context `{Sha256}.

Definition ton_proof_message (address : RawAccountAddress) (domain : rstr) (timestamp : N)
    (payload : rstr) : result SigningError bytes :=
  let? domain_length := u32_length (utf8 domain) in
  Ok (TON_PROOF_ITEM_PREFIX ++ i32_be_bytes (raa_workchain address) ++ raa_hash address
      ++ le_bytes 4 domain_length ++ utf8 domain ++ le_bytes 8 timestamp ++ utf8 payload).

Definition wrap_proof (message_hash : bytes) : bytes :=
  [255; 255]%N ++ TON_CONNECT_PREFIX ++ message_hash.

Definition ton_proof_signing_hash (address : RawAccountAddress) (domain : rstr) (timestamp : N)
    (payload : rstr) : result SigningError bytes :=
  let? message := ton_proof_message address domain timestamp payload in
  Ok (sha256 (wrap_proof (sha256 message))).

Definition text_or_binary_message (address : RawAccountAddress) (domain : rstr) (timestamp : N)
    (discriminator payload : bytes) : result SigningError bytes :=
  let? domain_length := u32_length (utf8 domain) in
  let? payload_length := u32_length payload in
  Ok ([255; 255]%N ++ SIGN_DATA_PREFIX ++ i32_be_bytes (raa_workchain address) ++ raa_hash address
      ++ be_bytes 4 domain_length ++ utf8 domain ++ be_bytes 8 timestamp ++ discriminator
      ++ be_bytes 4 payload_length ++ payload).

Definition text_or_binary_signing_hash (address : RawAccountAddress) (domain : rstr)
    (timestamp : N) (discriminator payload : bytes) : result SigningError bytes :=
  rmap sha256 (text_or_binary_message address domain timestamp discriminator payload).
End Messages.

(** ** Domains as cells *)

Definition strip_dot (domain : rstr) : rstr :=
  if ends_with 46%N domain then take (length domain - 1) domain else domain.

Fixpoint encode_labels (labels : list rstr) : option bytes :=
  match labels with
  | [] => Some []
  | label :: rest =>
      if is_empty label || (63 <? length (utf8 label))%nat then None
      else (fun tail => utf8 label ++ [0%N] ++ tail) <$> encode_labels rest
  end.

Definition tep81_domain `{HostParser} (domain : rstr) : result SigningError bytes :=
  if is_empty domain then Err InvalidDomain
  else if bool_decide (domain = lit ".") then Ok [0%N]
  else
    match host_parse (strip_dot domain) with
    | Some (Host_Domain ascii) =>
        let? encoded := ok_or InvalidDomain (encode_labels (rev (split_on 46%N ascii))) in
        if (126 <? length encoded)%nat then Err InvalidDomain else Ok encoded
    | _ => Err InvalidDomain
    end.

(** [slice::rchunks]: pieces from the end, the last one may be shorter. *)
Fixpoint chunk_from (size room : nat) (acc : bytes) (data : bytes) : list bytes :=
  match data with
  | [] => if is_empty acc then [] else [rev acc]
  | byte :: rest =>
      match room with
      | 0 => rev acc :: chunk_from size (size - 1) [byte] rest
      | S room => chunk_from size room (byte :: acc) rest
      end
  end.

Definition rchunks (size : nat) (data : bytes) : list bytes :=
  map (@rev N) (chunk_from size size [] (rev data)).

Definition byte_bits (byte : N) : list bool :=
  map (fun i => N.testbit byte (N.of_nat (7 - i))) (seq 0 8).

Definition bytes_bits (data : bytes) : list bool := flat_map byte_bits data.

Section Cells.
Context `{Sha256} `{Ed25519} `{Crc32Iso} `{HostParser} `{Crc32c} `{TonCells} `{HexCrate}.
Context `{Base64Engine}.

Fixpoint snake_cells (next : option Cell) (chunks : list bytes) : option (option Cell) :=
  match chunks with
  | [] => Some next
  | chunk :: rest =>
      cell ← build_cell (bytes_bits chunk) (option_list next);
      snake_cells (Some cell) rest
  end.

Definition snake_cell (data : bytes) : result SigningError Cell :=
  let? next := ok_or InvalidCell (snake_cells None (rchunks DNS_SNAKE_CELL_BYTES data)) in
  ok_or InvalidDomain next.

(** The single root of a bag of cells: [parse_single_root] returning it. *)
Definition parse_root_cell (boc : bytes) : option Cell :=
  match parse_single_root boc with
  | Ok _ => ton_core_root boc
  | Err _ => None
  end.

Definition signed_address (address : RawAccountAddress) : MsgAddressInt :=
  if ((-128 <=? raa_workchain address) && (raa_workchain address <=? 127))%Z
  then Address_Std (raa_workchain address) (raa_hash address)
  else Address_Var 256 (raa_workchain address) (raa_hash address).

Definition cell_message (address : RawAccountAddress) (domain : rstr) (timestamp : N)
    (schema : rstr) (boc : bytes) : result SigningError Cell :=
  let? payload_cell := ok_or InvalidCell (parse_root_cell boc) in
  let? encoded := tep81_domain domain in
  let? domain_cell := snake_cell encoded in
  ok_or InvalidCell
    (address_bits ← msg_address_bits (signed_address address);
     build_cell
       (bytes_bits (be_bytes 4 SIGN_DATA_CELL_MAGIC)
        ++ bytes_bits (be_bytes 4 (crc32_iso (utf8 schema)))
        ++ bytes_bits (be_bytes 8 timestamp) ++ address_bits)
       [domain_cell; payload_cell]).

(** [hash()] and the conversion to 32 bytes. *)
Definition hash32 (cell : Cell) : option bytes :=
  hash ← cell_hash cell;
  if (length hash =? 32)%nat then Some hash else None.

Definition cell_signing_hash (address : RawAccountAddress) (domain : rstr) (timestamp : N)
    (schema : rstr) (boc : bytes) : result SigningError bytes :=
  let? message := cell_message address domain timestamp schema boc in
  ok_or InvalidCell (hash32 message).

Inductive SignDataSigningPayload :=
  | Signing_Text (text : rstr)
  | Signing_Binary (data : bytes)
  | Signing_Cell (schema : rstr) (boc : bytes).

Definition sign_data_signing_hash (address : RawAccountAddress) (domain : rstr) (timestamp : N)
    (payload : SignDataSigningPayload) : result SigningError bytes :=
  match payload with
  | Signing_Text text =>
      text_or_binary_signing_hash address domain timestamp (lit "txt") (utf8 text)
  | Signing_Binary data => text_or_binary_signing_hash address domain timestamp (lit "bin") data
  | Signing_Cell schema boc => cell_signing_hash address domain timestamp schema boc
  end.

(** [SignDataPayload::signing_hash]. *)
Definition payload_signing_hash (payload : SignDataPayload) (address : RawAccountAddress)
    (domain : rstr) (timestamp : N) : result SigningError bytes :=
  match payload with
  | SignData_Text text _ _ => sign_data_signing_hash address domain timestamp (Signing_Text text)
  | SignData_Binary data _ _ =>
      let? decoded := map_err (fun _ => InvalidBase64Payload) (decode_base64 data) in
      sign_data_signing_hash address domain timestamp (Signing_Binary decoded)
  | SignData_Cell schema cell _ _ =>
      sign_data_signing_hash address domain timestamp (Signing_Cell schema (cb_bytes cell))
  end.

Definition verify_signature (hash : bytes) (signature : Ed25519Signature) (key : Ed25519PublicKey)
  : result SigningError bool :=
  ok_or InvalidVerificationKey (verify_strict (pk_bytes key) hash (sig_bytes signature)).

(** [SignDataResult::verify]. *)
Definition sign_data_verify (result : SignDataResult) (key : Ed25519PublicKey)
  : Prelude.result SigningError bool :=
  let? hash := payload_signing_hash (sdr_payload result) (sdr_address result) (sdr_domain result)
                 (sdr_timestamp result) in
  verify_signature hash (sdr_signature result) key.
End Cells.
