(* ===== verification/ConnectWalletState.v ===== *)
(** * The state a wallet was deployed with

    crates/ton-connect-core/src/wallet_state.rs: walletStateInit values, the parser of
    their root cell, and the check that binds an account to a public key. *)

From stdpp Require Import base numbers list option strings.
From S2P Require Import Prelude BoundaryTypes SendDomain Base64 Json CellBoc CellBocSpec.
From S2P Require Import ConnectSession ConnectValues Addresses ConnectRpc ConnectSigning.

Record WalletStateInit := mkWalletStateInit { wsi_encoded : rstr; wsi_boc : bytes }.

Inductive WalletStateError :=
  | WalletState_InvalidBase64
  | WalletState_InvalidBoc
  | InvalidStateInit
  | MissingCode
  | MissingData
  | UnsupportedWalletCode
  | InvalidWalletData
  | AddressMismatch
  | PublicKeyMismatch.

Inductive StandardWalletVersion :=
  | V1R1 | V1R2 | V1R3 | V2R1 | V2R2 | V3R1 | V3R2 | V4R1 | V4R2 | V5R1 | Wallet.

#[export] Instance StandardWalletVersion_eq_dec : EqDecision StandardWalletVersion.
Proof. solve_decision. Defined.

Record StandardWalletState := mkStandardWalletState {
  sws_version : StandardWalletVersion;
  sws_public_key : Ed25519PublicKey;
}.

Definition code_hashes : list (string * StandardWalletVersion) :=
  [("a0cfc2c48aee16a271f2cfc0b7382d81756cecb1017d077faaab3bb602f6868c", V1R1);
   ("d4902fcc9fad74698fa8e353220a68da0dcf72e32bcb2eb9ee04217c17d3062c", V1R2);
   ("587cc789eff1c84f46ec3797e45fc809a14ff5ae24f1e0c7a6a99cc9dc9061ff", V1R3);
   ("5c9a5e68c108e18721a07c42f9956bfb39ad77ec6d624b60c576ec88eee65329", V2R1);
   ("fe9530d3243853083ef2ef0b4c2908c0abf6fa1c31ea243aacaa5bf8c7d753f1", V2R2);
   ("b61041a58a7980b946e8fb9e198e3c904d24799ffa36574ea4251c41a566f581", V3R1);
   ("84dafa449f98a6987789ba232358072bc0f76dc4524002a5d0918b9a75d2d599", V3R2);
   ("64dd54805522c5be8a9db59cea0105ccf0d08786ca79beb8cb79e880a8d7322d", V4R1);
   ("feb5ff6820e2ff0d9483e7e0d62c817d846789fb4ae580c878866d959dabd5c0", V4R2);
   ("20834b7b72b112147e1b2fb457b84e74d1a30f04f737d4f62a668e9552d2b72f", V5R1);
   ("9149ae51c1e4689710cebf7830297b16acfbadb363a920a537893e7ffeeca768", Wallet)]%string.

(** The number of bits before the key in the data cell. *)
Definition prefix_bits (version : StandardWalletVersion) : nat :=
  match version with
  | V1R1 | V1R2 | V1R3 | V2R1 | V2R2 => 32
  | V3R1 | V3R2 | V4R1 | V4R2 => 64
  | V5R1 => 65
  | Wallet => 72
  end.

Definition has_dictionary (version : StandardWalletVersion) : bool :=
  match version with V4R1 | V4R2 | V5R1 => true | _ => false end.

(** Eight bits to a byte, most significant first. *)
Fixpoint bits_value (acc : N) (bits : list bool) : N :=
  match bits with
  | [] => acc
  | b :: rest => bits_value (2 * acc + if b then 1 else 0)%N rest
  end.

Fixpoint bits_bytes (count : nat) (bits : list bool) : bytes :=
  match count with
  | 0 => []
  | S count => bits_value 0 (take 8 bits) :: bits_bytes count (drop 8 bits)
  end.

Section WalletState.
Context `{TonCells} `{Crc32c} `{HexCrate} `{Base64Engine}.

(** [CellParser]: the bits and references that are left. *)
Record CellParser := mkCellParser { cp_bits : list bool; cp_refs : list Cell }.

Definition parser (cell : Cell) : CellParser := mkCellParser (cell_bits cell) (cell_refs cell).

Definition read_bit (p : CellParser) : option (bool * CellParser) :=
  match cp_bits p with
  | b :: bits => Some (b, mkCellParser bits (cp_refs p))
  | [] => None
  end.

Definition read_bits (count : nat) (p : CellParser) : option (list bool * CellParser) :=
  if (count <=? length (cp_bits p))%nat
  then Some (take count (cp_bits p), mkCellParser (drop count (cp_bits p)) (cp_refs p))
  else None.

Definition read_next_ref (p : CellParser) : option (Cell * CellParser) :=
  match cp_refs p with
  | c :: refs => Some (c, mkCellParser (cp_bits p) refs)
  | [] => None
  end.

Definition ensure_empty (p : CellParser) : option unit :=
  if is_empty (cp_bits p) && is_empty (cp_refs p) then Some tt else None.

Definition skip_if_set (count : nat) (p : CellParser) : option CellParser :=
  read ← read_bit p;
  if read.1 : bool then snd <$> read_bits count read.2 else Some read.2.

Definition read_optional_ref (p : CellParser) : option (option Cell * CellParser) :=
  read ← read_bit p;
  if read.1 : bool
  then (fun next : Cell * CellParser => (Some next.1, next.2)) <$> read_next_ref read.2
  else Some (None, read.2).

Record ParsedStateInit := mkParsedStateInit { psi_code : option Cell; psi_data : option Cell }.

Definition read_state_init (root : Cell) : option ParsedStateInit :=
  p ← skip_if_set 5 (parser root);
  p ← skip_if_set 2 p;
  code ← read_optional_ref p;
  data ← read_optional_ref code.2;
  library ← read_optional_ref data.2;
  _ ← ensure_empty library.2;
  Some (mkParsedStateInit code.1 data.1).

Definition parse_state_init (root : Cell) : result WalletStateError ParsedStateInit :=
  if negb (cell_ordinary root) then Err InvalidStateInit
  else ok_or InvalidStateInit (read_state_init root).

Definition version_from_code (code : Cell)
  : result WalletStateError (option StandardWalletVersion) :=
  let? hash := ok_or InvalidStateInit (cell_hash code) in
  Ok (snd <$> List.find (fun entry => bool_decide (hex_encode hash = lit entry.1)) code_hashes).

Definition read_public_key (version : StandardWalletVersion) (data : Cell) : option bytes :=
  prefix ← read_bits (prefix_bits version) (parser data);
  key ← read_bits 256 prefix.2;
  p ← (if has_dictionary version then snd <$> read_optional_ref key.2 else Some key.2);
  _ ← ensure_empty p;
  Some (bits_bytes 32 key.1).

Definition extract_public_key (data : Cell) (version : StandardWalletVersion)
  : result WalletStateError Ed25519PublicKey :=
  if negb (cell_ordinary data) then Err InvalidWalletData
  else rmap mkEd25519PublicKey (ok_or InvalidWalletData (read_public_key version data)).

Definition parse_root (boc : bytes) : result WalletStateError Cell :=
  ok_or WalletState_InvalidBoc (parse_root_cell boc).

(** ** Operations *)

Definition wallet_state_from_boc (boc : bytes) : result WalletStateError WalletStateInit :=
  let? root := parse_root boc in
  let? _ := parse_state_init root in
  Ok (mkWalletStateInit (standard_encode boc) boc).

Definition wallet_state_try_from (encoded : rstr) : result WalletStateError WalletStateInit :=
  let? boc := ok_or WalletState_InvalidBase64 (standard_decode encoded) in
  if negb (bool_decide (standard_encode boc = encoded)) then Err WalletState_InvalidBase64
  else
    let? root := parse_root boc in
    let? _ := parse_state_init root in
    Ok (mkWalletStateInit encoded boc).

Definition derive_address (s : WalletStateInit) (workchain : Z)
  : result WalletStateError RawAccountAddress :=
  let? root := parse_root (wsi_boc s) in
  let? hash := ok_or WalletState_InvalidBoc (hash32 root) in
  Ok (mkRawAccountAddress workchain hash).

Definition extract_standard_public_key (s : WalletStateInit)
  : result WalletStateError (option StandardWalletState) :=
  let? root := parse_root (wsi_boc s) in
  let? state := parse_state_init root in
  let? code := ok_or MissingCode (psi_code state) in
  let? data := ok_or MissingData (psi_data state) in
  let? version := version_from_code code in
  match version with
  | None => Ok None
  | Some version =>
      rmap (fun key => Some (mkStandardWalletState version key)) (extract_public_key data version)
  end.

Definition verify_standard_wallet (s : WalletStateInit) (address : RawAccountAddress)
    (advertised : Ed25519PublicKey) : result WalletStateError StandardWalletState :=
  let? derived := derive_address s (raa_workchain address) in
  if negb (bool_decide (derived = address)) then Err AddressMismatch
  else
    let? state := extract_standard_public_key s in
    let? state := ok_or UnsupportedWalletCode state in
    if negb (bool_decide (sws_public_key state = advertised)) then Err PublicKeyMismatch
    else Ok state.
End WalletState.
