(* ===== verification/ConnectSigningSpec.v ===== *)
(** * Signatures and keys are bound to what they are for

    The bytes that are signed determine the account, the domain, the time and the
    payload, and keep proofs apart from signed data; an account is bound to the key in
    the data cell of the state that its address is the hash of. *)

From stdpp Require Import base numbers list option strings.
From S2P Require Import Prelude BoundaryTypes SendDomain Base64 ClientDomain Json CellBoc.
From S2P Require Import CellBocSpec ConnectSession ConnectValues Addresses TransferLink.
From S2P Require Import ConnectRpc ConnectSigning ConnectWalletState.

(** ** Fixed-width numbers *)

Lemma be_bytes_inj k a b :
  (a < 256 ^ N.of_nat k)%N -> (b < 256 ^ N.of_nat k)%N -> be_bytes k a = be_bytes k b -> a = b.
Proof. intros Ha Hb E%(f_equal be_value). by rewrite !be_value_bytes in E. Qed.

Lemma le_bytes_inj k a b :
  (a < 256 ^ N.of_nat k)%N -> (b < 256 ^ N.of_nat k)%N -> le_bytes k a = le_bytes k b -> a = b.
Proof. intros Ha Hb E%(f_equal from_le_bytes). by rewrite !from_le_bytes_inv in E. Qed.

Lemma length_le_bytes k v : length (le_bytes k v) = k.
Proof. revert v. induction k as [|k IH]; intros v; [done|]. simpl. by rewrite IH. Qed.

Lemma i32_be_bytes_inj a b :
  (-2147483648 <= a <= 2147483647)%Z -> (-2147483648 <= b <= 2147483647)%Z ->
  i32_be_bytes a = i32_be_bytes b -> a = b.
Proof.
  intros Ha Hb E. unfold i32_be_bytes in E.
  assert (0 <= a mod 2 ^ 32 < 2 ^ 32)%Z by (apply Z.mod_pos_bound; lia).
  assert (0 <= b mod 2 ^ 32 < 2 ^ 32)%Z by (apply Z.mod_pos_bound; lia).
  apply be_bytes_inj in E; [|simpl; lia..].
  pose proof (Z.div_mod a (2 ^ 32)). pose proof (Z.div_mod b (2 ^ 32)). lia.
Qed.

Lemma utf8_inj a b : Forall scalar a -> Forall scalar b -> utf8 a = utf8 b -> a = b.
Proof. intros Ha Hb E%(f_equal from_utf8). rewrite !from_utf8_utf8 in E by done. by injection E. Qed.

(** ** Messages *)

(** What a signature is made for. *)
Definition signable (address : RawAccountAddress) (domain : rstr) (timestamp : N) : Prop :=
  well_typed address /\ Forall scalar domain /\ (timestamp <= u64_max)%N.

Lemma u32_length_ok data n :
  u32_length data = Ok n -> n = N.of_nat (length data) /\ (n < 256 ^ N.of_nat 4)%N.
Proof.
  unfold u32_length. destruct (N.leb_spec (N.of_nat (length data)) u32_max) as [Hle|]; [|done].
  intros [= <-]. split; [done|]. unfold u32_max in Hle. simpl. lia.
Qed.

Lemma ok_inj {E A} (a b : A) : (Ok a : result E A) = Ok b -> a = b.
Proof. by intros [=]. Qed.

(** A field of known length splits off both sides. *)
Ltac split_field E :=
  let F := fresh "F" in
  apply app_inj_1 in E as [F E];
  [|rewrite ?length_be_bytes, ?length_le_bytes; first [done | congruence | lia]].

Lemma sized_text_inj k (write : nat -> N -> bytes) a b rest rest' na nb :
  (forall v, length (write k v) = k) ->
  (forall v w, (v < 256 ^ N.of_nat k)%N -> (w < 256 ^ N.of_nat k)%N -> write k v = write k w -> v = w) ->
  na = N.of_nat (length a) -> nb = N.of_nat (length b) ->
  (na < 256 ^ N.of_nat k)%N -> (nb < 256 ^ N.of_nat k)%N ->
  write k na ++ a ++ rest = write k nb ++ b ++ rest' -> a = b /\ rest = rest'.
Proof.
  intros Hl Hi Ea Eb Ha Hb E. apply app_inj_1 in E as [E F]; [|by rewrite !Hl].
  apply Hi in E; [|done..]. apply app_inj_1 in F as [-> ->]; [done|lia].
Qed.

Section Hashes.
Context `{Sha256}.

Lemma ton_proof_message_inj a d t p a' d' t' p' m :
  signable a d t -> signable a' d' t' -> Forall scalar p -> Forall scalar p' ->
  ton_proof_message a d t p = Ok m -> ton_proof_message a' d' t' p' = Ok m ->
  a = a' /\ d = d' /\ t = t' /\ p = p'.
Proof.
  intros ((Hw & Hl & _) & Hd & Ht) ((Hw' & Hl' & _) & Hd' & Ht') Hp Hp'. unfold ton_proof_message.
  intros (n & [Hn Hn4]%u32_length_ok & <-%ok_inj)%rbind_ok.
  intros (n' & [Hn' Hn4']%u32_length_ok & E%ok_inj)%rbind_ok. symmetry in E.
  apply app_inv_head in E. split_field E. split_field E.
  apply (sized_text_inj 4 le_bytes _ _ _ _ _ _ (length_le_bytes 4) (le_bytes_inj 4) Hn Hn' Hn4 Hn4')
    in E as [Ed E].
  split_field E. apply utf8_inj in Ed, E; [|done..]. apply le_bytes_inj in F1;
    [|unfold u64_max in *; simpl; lia..]. apply i32_be_bytes_inj in F; [|done..].
  destruct a, a'; simpl in *. by subst.
Qed.

Lemma text_or_binary_message_inj a d t c p a' d' t' c' p' m :
  signable a d t -> signable a' d' t' -> length c = length c' ->
  text_or_binary_message a d t c p = Ok m -> text_or_binary_message a' d' t' c' p' = Ok m ->
  a = a' /\ d = d' /\ t = t' /\ c = c' /\ p = p'.
Proof.
  intros ((Hw & Hl & _) & Hd & Ht) ((Hw' & Hl' & _) & Hd' & Ht') Hc. unfold text_or_binary_message.
  intros (n & [Hn Hn4]%u32_length_ok & (k & [Hk Hk4]%u32_length_ok & <-%ok_inj)%rbind_ok)%rbind_ok.
  intros (n' & [Hn' Hn4']%u32_length_ok & (k' & [Hk' Hk4']%u32_length_ok & E%ok_inj)%rbind_ok)%rbind_ok.
  symmetry in E. do 2 apply app_inv_head in E. split_field E. split_field E.
  apply (sized_text_inj 4 be_bytes _ _ _ _ _ _ (length_be_bytes 4) (be_bytes_inj 4) Hn Hn' Hn4 Hn4')
    in E as [Ed E].
  split_field E. split_field E.
  rewrite <- (app_nil_r p), <- (app_nil_r p') in E.
  apply (sized_text_inj 4 be_bytes _ _ _ _ _ _ (length_be_bytes 4) (be_bytes_inj 4) Hk Hk' Hk4 Hk4')
    in E as [Ep _].
  apply utf8_inj in Ed; [|done..]. apply be_bytes_inj in F1; [|unfold u64_max in *; simpl; lia..].
  apply i32_be_bytes_inj in F; [|done..]. destruct a, a'; simpl in *. by subst.
Qed.

(** A proof is shorter than any signed data. *)
Lemma proof_is_not_data a d t c p m h :
  length (raa_hash a) = 32 -> text_or_binary_message a d t c p = Ok m -> length h = 32 ->
  wrap_proof h <> m.
Proof.
  intros Hl. unfold text_or_binary_message.
  intros (n & _ & (k & _ & <-%ok_inj)%rbind_ok)%rbind_ok Hh E.
  apply (f_equal length) in E. unfold wrap_proof in E. rewrite !length_app, Hh, Hl in E.
  unfold i32_be_bytes in E. rewrite !length_be_bytes in E.
  change (length SIGN_DATA_PREFIX) with 22 in E. change (length TON_CONNECT_PREFIX) with 11 in E.
  simpl length in E. lia.
Qed.

(** Two different byte strings of the given ones with the same SHA-256. *)
Definition collide (xs ys : list bytes) : Prop :=
  exists x y, x ∈ xs /\ y ∈ ys /\ x <> y /\ sha256 x = sha256 y.

Lemma hash_inj xs ys x y :
  x ∈ xs -> y ∈ ys -> sha256 x = sha256 y -> x = y \/ collide xs ys.
Proof.
  intros Hx Hy E. destruct (decide (x = y)) as [|Hne]; [by left|]. right. by exists x, y.
Qed.

(** What a proof hashes: its message and the wrapped digest. *)
Definition proof_hashed (a : RawAccountAddress) (d : rstr) (t : N) (p : rstr) : list bytes :=
  match ton_proof_message a d t p with
  | Ok m => [m; wrap_proof (sha256 m)]
  | Err _ => []
  end.
End Hashes.

(** ** Claims *)

Section Claims.
Context `{Sha256} `{Crc32Iso} `{HostParser} `{Crc32c} `{TonCells}.

(** Text and bytes, which are signed directly. *)
Definition direct (payload : SignDataSigningPayload) : Prop :=
  match payload with
  | Signing_Text text => Forall scalar text
  | Signing_Binary _ => True
  | Signing_Cell _ _ => False
  end.

Definition direct_bytes (payload : SignDataSigningPayload) : bytes * bytes :=
  match payload with
  | Signing_Text text => (lit "txt", utf8 text)
  | Signing_Binary data => (lit "bin", data)
  | Signing_Cell _ _ => ([], [])
  end.

Lemma direct_message a d t p h :
  direct p -> sign_data_signing_hash a d t p = Ok h ->
  exists m, text_or_binary_message a d t (direct_bytes p).1 (direct_bytes p).2 = Ok m /\ sha256 m = h.
Proof.
  destruct p; [intros _|intros _|done]; cbn [sign_data_signing_hash direct_bytes fst snd];
    unfold text_or_binary_signing_hash; destruct (text_or_binary_message _ _ _ _ _) as [m|]; try done;
    intros [= <-]; by exists m.
Qed.

Lemma direct_bytes_inj p p' :
  direct p -> direct p' -> direct_bytes p = direct_bytes p' -> p = p'.
Proof.
  destruct p, p'; try done; cbn [direct direct_bytes]; intros Hp Hp' E.
  - injection E as E. by rewrite (utf8_inj _ _ Hp Hp' E).
  - by injection E as ->.
Qed.

(** What signed text or bytes hash. *)
Definition data_hashed (a : RawAccountAddress) (d : rstr) (t : N) (p : SignDataSigningPayload)
  : list bytes :=
  match text_or_binary_message a d t (direct_bytes p).1 (direct_bytes p).2 with
  | Ok m => [m]
  | Err _ => []
  end.

(** C33: a signature is bound to what it was made for: equal digests of two ownership
    proofs, or of two signed texts or byte strings, mean equal accounts, domains, times
    and payloads (and the same kind of payload), and a proof digest is never the digest
    of signed data, unless two different ones of the few byte strings that these
    computations hash have the same SHA-256. *)
Theorem signatures_bind_their_inputs :
  (forall a d t p a' d' t' p' h,
     signable a d t -> signable a' d' t' -> Forall scalar p -> Forall scalar p' ->
     ton_proof_signing_hash a d t p = Ok h -> ton_proof_signing_hash a' d' t' p' = Ok h ->
     (a = a' /\ d = d' /\ t = t' /\ p = p') \/
     collide (proof_hashed a d t p) (proof_hashed a' d' t' p')) /\
  (forall a d t p a' d' t' p' h,
     signable a d t -> signable a' d' t' -> direct p -> direct p' ->
     sign_data_signing_hash a d t p = Ok h -> sign_data_signing_hash a' d' t' p' = Ok h ->
     (a = a' /\ d = d' /\ t = t' /\ p = p') \/
     collide (data_hashed a d t p) (data_hashed a' d' t' p')) /\
  (forall a d t p a' d' t' p' h,
     signable a d t -> signable a' d' t' -> direct p' ->
     ton_proof_signing_hash a d t p = Ok h -> sign_data_signing_hash a' d' t' p' = Ok h ->
     collide (proof_hashed a d t p) (data_hashed a' d' t' p')).
Proof.
  unfold proof_hashed, data_hashed. split; [|split].
  - intros a d t p a' d' t' p' h Ha Ha' Hp Hp'. unfold ton_proof_signing_hash.
    intros (m & Hm & <-%ok_inj)%rbind_ok (m' & Hm' & E%ok_inj)%rbind_ok. rewrite Hm, Hm'.
    symmetry in E. apply (hash_inj [m; wrap_proof (sha256 m)] [m'; wrap_proof (sha256 m')])
      in E as [E|]; [|by right|right; left|right; left]. do 2 apply app_inv_head in E.
    apply (hash_inj [m; wrap_proof (sha256 m)] [m'; wrap_proof (sha256 m')])
      in E as [<-|]; [|by right|left|left]. left. by apply (ton_proof_message_inj _ _ _ _ _ _ _ _ m).
  - intros a d t p a' d' t' p' h Ha Ha' Hp Hp' (m & Hm & <-)%direct_message (m' & Hm' & E)%direct_message;
      [|done..]. rewrite Hm, Hm'. symmetry in E.
    apply (hash_inj [m] [m']) in E as [<-|]; [|by right|left|left]. left.
    assert (length (direct_bytes p).1 = length (direct_bytes p').1) as Hc by (by destruct p, p').
    destruct (text_or_binary_message_inj _ _ _ _ _ _ _ _ _ _ _ Ha Ha' Hc Hm Hm')
      as (-> & -> & -> & E1 & E2). repeat split; try done. apply direct_bytes_inj; [done..|].
    destruct (direct_bytes p), (direct_bytes p'); simpl in *; by subst.
  - intros a d t p a' d' t' p' h _ Ha' Hp' Hm (m' & Hm' & E)%direct_message; [|done]. rewrite Hm'.
    unfold ton_proof_signing_hash in Hm. apply rbind_ok in Hm as (m & -> & <-%ok_inj).
    symmetry in E. apply (hash_inj [m; wrap_proof (sha256 m)] [m']) in E as [E|];
      [|done|right; left|left]. destruct Ha' as ((_ & Hl & _) & _).
    destruct (proof_is_not_data _ _ _ _ _ _ (sha256 m) Hl Hm' (sha256_length m) E).
Qed.
End Claims.

(** ** Bits of a key *)

Lemma bits_value_byte b : (b < 256)%N -> bits_value 0 (byte_bits b) = b.
Proof.
  intros Hb. assert (forallb (fun n => bits_value 0 (byte_bits (N.of_nat n)) =? N.of_nat n)%N
    (seq 0 256) = true) as Hall by (vm_compute; reflexivity).
  rewrite forallb_forall in Hall. specialize (Hall (N.to_nat b)). rewrite N2Nat.id in Hall.
  apply N.eqb_eq, Hall, in_seq. lia.
Qed.

Lemma byte_bits_value bits :
  length bits = 8 -> byte_bits (bits_value 0 bits) = bits /\ (bits_value 0 bits < 256)%N.
Proof.
  intros Hl. do 8 (destruct bits as [|[] bits]; [done|..]); (destruct bits; [|done]);
    vm_compute; done.
Qed.

Lemma bits_bytes_of data : u8s data -> bits_bytes (length data) (bytes_bits data) = data.
Proof.
  induction 1 as [|b data Hb _ IH]; [done|]. cbn [length bits_bytes bytes_bits flat_map].
  rewrite (take_app_length' (byte_bits b)), (drop_app_length' (byte_bits b)) by done.
  unfold bytes_bits in IH. by rewrite IH, bits_value_byte.
Qed.

Lemma bytes_bits_of n bits :
  length bits = 8 * n ->
  bytes_bits (bits_bytes n bits) = bits /\ length (bits_bytes n bits) = n /\ u8s (bits_bytes n bits).
Proof.
  revert bits. induction n as [|n IH]; intros bits Hl.
  - destruct bits; [|simpl in Hl; lia]. split; [done|]. split; [done|]. apply Forall_nil_2.
  - cbn [bits_bytes].
    destruct (byte_bits_value (take 8 bits)) as [Hb Hv]; [rewrite length_take; lia|].
    destruct (IH (drop 8 bits)) as (Hd & Hn & Hu); [rewrite length_drop; lia|].
    split; [|split; [cbn [length]; by rewrite Hn|by apply Forall_cons_2]].
    unfold bytes_bits in *. cbn [flat_map]. by rewrite Hb, Hd, take_drop.
Qed.

Section KeyBinding.
Context `{TonCells} `{Crc32c} `{HexCrate} `{Base64Engine}.

(** One presence bit, and the reference it announces. *)
Definition optional_ref (bits : list bool) (refs : list Cell) (o : option Cell) : Prop :=
  match o with Some c => bits = [true] /\ refs = [c] | None => bits = [false] /\ refs = [] end.

Lemma read_optional_ref_iff p o p' :
  read_optional_ref p = Some (o, p') <->
  exists bits refs, optional_ref bits refs o /\ cp_bits p = bits ++ cp_bits p' /\
                    cp_refs p = refs ++ cp_refs p'.
Proof.
  destruct p as [bits refs], p' as [bits' refs']. unfold read_optional_ref, read_bit, read_next_ref.
  cbn [cp_bits cp_refs]. destruct bits as [|[] bits]; cbn [mbind option_bind fst snd fmap option_fmap option_map cp_bits cp_refs].
  - split; [done|]. intros (b & r & Ho & E & _). by destruct o; destruct Ho as [-> ->].
  - destruct refs as [|c refs]; cbn; (split; [|]).
    + done.
    + intros (b & r & Ho & E & F). by destruct o; destruct Ho as [-> ->].
    + intros [= <- <- <-]. by exists [true], [c].
    + intros (b & r & Ho & E & F). destruct o; destruct Ho as [-> ->]; [|done]. by simplify_eq/=.
  - split.
    + intros [= <- <- <-]. by exists [false], [].
    + intros (b & r & Ho & E & F). destruct o; destruct Ho as [-> ->]; [done|]. by simplify_eq/=.
Qed.

Lemma read_bits_iff n p bits p' :
  read_bits n p = Some (bits, p') <->
  length bits = n /\ cp_bits p = bits ++ cp_bits p' /\ cp_refs p = cp_refs p'.
Proof.
  destruct p as [all refs], p' as [rest refs']. unfold read_bits. cbn [cp_bits cp_refs].
  destruct (Nat.leb_spec n (length all)); split.
  - intros [= <- <- <-]. rewrite take_drop, length_take. split; [lia|done].
  - intros (Hl & -> & ->). by rewrite take_app_length', drop_app_length'.
  - done.
  - intros (Hl & -> & _). rewrite length_app in *. lia.
Qed.

(** The layout of the data cell of a version. *)
Definition data_layout (version : StandardWalletVersion) (data : Cell) (key : bytes) : Prop :=
  exists prefix dictionary,
    length prefix = prefix_bits version /\ length key = 32 /\ u8s key /\
    cell_bits data = prefix ++ bytes_bits key ++ dictionary /\
    if has_dictionary version then exists root, optional_ref dictionary (cell_refs data) root
    else dictionary = [] /\ cell_refs data = [].

Lemma ensure_empty_iff p : ensure_empty p = Some tt <-> p = mkCellParser [] [].
Proof. destruct p as [[|] [|]]; unfold ensure_empty; simpl; naive_solver. Qed.

Lemma bytes_bits_length data : length (bytes_bits data) = 8 * length data.
Proof.
  unfold bytes_bits. induction data as [|b data IH]; [done|]. cbn [flat_map]. rewrite length_app, IH.
  simpl. lia.
Qed.

Lemma read_public_key_iff version data key :
  read_public_key version data = Some key <-> data_layout version data key.
Proof.
  unfold read_public_key, data_layout, parser. split.
  - intros ([prefix p1] & (Hl & Eb & Er)%read_bits_iff & Hk)%bind_Some.
    apply bind_Some in Hk as ([bits p2] & (Hl2 & Eb2 & Er2)%read_bits_iff & Hk).
    apply bind_Some in Hk as (p3 & Hd & Hk). apply bind_Some in Hk as ([] & ->%ensure_empty_iff & Hk).
    cbn [fst] in Hk. assert (key = bits_bytes 32 bits) as -> by congruence. clear Hk.
    cbn [fst snd cp_bits cp_refs] in *. destruct (bytes_bits_of 32 bits Hl2) as (Hb & Hn & Hu).
    rewrite Eb2 in Eb. rewrite Er2 in Er. destruct (has_dictionary version).
    + apply fmap_Some in Hd as ([o p] & (db & dr & Ho & E & F)%read_optional_ref_iff & Ep).
      cbn [snd] in Ep. subst p. cbn [cp_bits cp_refs] in *. rewrite app_nil_r in E, F.
      exists prefix, db. rewrite Hb, Eb, E, Er, F. repeat split; try done. by exists o.
    + injection Hd as ->. cbn [cp_bits cp_refs] in *. exists prefix, [].
      rewrite Hb, Eb, Er. repeat split; done.
  - intros (prefix & dictionary & Hl & Hk & Hu & Eb & Hd).
    assert (read_bits (prefix_bits version) (mkCellParser (cell_bits data) (cell_refs data))
            = Some (prefix, mkCellParser (bytes_bits key ++ dictionary) (cell_refs data))) as ->
      by (by apply read_bits_iff).
    cbn [mbind option_bind snd].
    assert (read_bits 256 (mkCellParser (bytes_bits key ++ dictionary) (cell_refs data))
            = Some (bytes_bits key, mkCellParser dictionary (cell_refs data))) as ->
      by (apply read_bits_iff; rewrite bytes_bits_length, Hk; done).
    cbn [mbind option_bind fst snd].
    assert ((if has_dictionary version
             then snd <$> read_optional_ref (mkCellParser dictionary (cell_refs data))
             else Some (mkCellParser dictionary (cell_refs data))) = Some (mkCellParser [] [])) as ->.
    { destruct (has_dictionary version).
      - destruct Hd as [o Ho]. apply fmap_Some. exists (o, mkCellParser [] []). split; [|done].
        apply read_optional_ref_iff. exists dictionary, (cell_refs data). by rewrite !app_nil_r.
      - by destruct Hd as [-> ->]. }
    change (Some (bits_bytes 32 (bytes_bits key)) = Some key). f_equal.
    pose proof (bits_bytes_of key Hu) as E. by rewrite Hk in E.
Qed.

(** The layout of a root cell with both code and data: two optional headers, the two
    references, and an optional library. *)
Definition optional_header (size : nat) (bits : list bool) : Prop :=
  bits = [false] \/ exists value, length value = size /\ bits = true :: value.

Definition state_layout (root code data : Cell) : Prop :=
  exists depth special library_bits library_refs library,
    optional_header 5 depth /\ optional_header 2 special /\
    optional_ref library_bits library_refs library /\
    cell_bits root = depth ++ special ++ [true; true] ++ library_bits /\
    cell_refs root = code :: data :: library_refs.

Lemma skip_if_set_iff size p p' :
  skip_if_set size p = Some p' <->
  exists bits, optional_header size bits /\ cp_bits p = bits ++ cp_bits p' /\ cp_refs p = cp_refs p'.
Proof.
  destruct p as [bits refs], p' as [bits' refs']. unfold skip_if_set, read_bit. cbn [cp_bits cp_refs].
  destruct bits as [|[] bits]; cbn [mbind option_bind fst snd].
  - split; [done|]. intros (b & [->|(v & _ & ->)] & E & _); done.
  - rewrite fmap_Some. split.
    + intros ([v p] & (Hl & E & F)%read_bits_iff & Ep). cbn [snd cp_bits cp_refs] in *. subst p.
      exists (true :: v). split; [right; by exists v|]. cbn [app cp_bits cp_refs] in *. by rewrite E, F.
    + intros (b & [->|(v & Hl & ->)] & E & F); [done|]. exists (v, mkCellParser bits' refs').
      split; [|done]. apply read_bits_iff. by simplify_eq/=.
  - split.
    + intros [= <- <-]. exists [false]. split; [by left|done].
    + intros (b & [->|(v & _ & ->)] & E & F); [|done]. by simplify_eq/=.
Qed.

Lemma read_state_init_iff root code data :
  read_state_init root = Some (mkParsedStateInit (Some code) (Some data)) <->
  state_layout root code data.
Proof.
  unfold read_state_init, state_layout, parser. split.
  - intros (p1 & (depth & Hd & E1 & F1)%skip_if_set_iff & Hk)%bind_Some.
    apply bind_Some in Hk as (p2 & (special & Hs & E2 & F2)%skip_if_set_iff & Hk).
    apply bind_Some in Hk as ([oc p3] & (bc & rc & Hc & E3 & F3)%read_optional_ref_iff & Hk).
    apply bind_Some in Hk as ([od p4] & (bd & rd & Hda & E4 & F4)%read_optional_ref_iff & Hk).
    apply bind_Some in Hk as ([ol p5] & (bl & rl & Hlib & E5 & F5)%read_optional_ref_iff & Hk).
    apply bind_Some in Hk as ([] & Hp%ensure_empty_iff & Hk). cbn [fst snd] in *. subst p5.
    injection Hk as -> ->. destruct Hc as [-> ->], Hda as [-> ->]. cbn [cp_bits cp_refs] in *.
    exists depth, special, bl, rl, ol. rewrite app_nil_r in E5, F5.
    rewrite E1, E2, E3, E4, E5, F1, F2, F3, F4, F5. done.
  - intros (depth & special & bl & rl & ol & Hd & Hs & Hl & Eb & Er).
    assert (skip_if_set 5 (mkCellParser (cell_bits root) (cell_refs root))
            = Some (mkCellParser (special ++ [true; true] ++ bl) (cell_refs root))) as ->
      by (apply skip_if_set_iff; by exists depth).
    cbn [mbind option_bind].
    assert (skip_if_set 2 (mkCellParser (special ++ [true; true] ++ bl) (cell_refs root))
            = Some (mkCellParser ([true; true] ++ bl) (cell_refs root))) as ->
      by (apply skip_if_set_iff; by exists special).
    cbn [mbind option_bind app]. rewrite Er.
    change (read_optional_ref (mkCellParser (true :: true :: bl) (code :: data :: rl)))
      with (Some (Some code, mkCellParser (true :: bl) (data :: rl))).
    cbn [mbind option_bind fst snd].
    change (read_optional_ref (mkCellParser (true :: bl) (data :: rl)))
      with (Some (Some data, mkCellParser bl rl)).
    cbn [mbind option_bind fst snd].
    assert (read_optional_ref (mkCellParser bl rl) = Some (ol, mkCellParser [] [])) as ->
      by (apply read_optional_ref_iff; exists bl, rl; by rewrite !app_nil_r).
    done.
Qed.

(** The state [boc] names a standard wallet of this version with this key, and its root
    has this hash. *)
Definition deployed_with (boc hash : bytes) (version : StandardWalletVersion) (key : bytes) : Prop :=
  exists root code data code_hash text,
    parse_root_cell boc = Some root /\ cell_ordinary root = true /\
    cell_hash root = Some hash /\ length hash = 32 /\ state_layout root code data /\
    cell_hash code = Some code_hash /\ (text, version) ∈ code_hashes /\
    hex_encode code_hash = lit text /\
    cell_ordinary data = true /\ data_layout version data key.

Lemma code_hashes_distinct : NoDup (map (fun entry => lit entry.1) code_hashes).
Proof. apply (bool_decide_eq_true_1 _). vm_compute. reflexivity. Qed.

Lemma find_distinct {A B} `{EqDecision B} (f : A -> B) (l : list A) (x : A) :
  NoDup (map f l) -> x ∈ l -> List.find (fun y => bool_decide (f x = f y)) l = Some x.
Proof.
  induction l as [|y l IH]; [by intros _ ?%not_elem_of_nil|]. cbn [map List.find].
  intros [Hy Hd]%NoDup_cons [->|Hin]%elem_of_cons; [by rewrite bool_decide_eq_true_2|].
  rewrite bool_decide_eq_false_2; [by apply IH|]. intros E. apply Hy. rewrite <- E.
  by apply list_elem_of_fmap_2.
Qed.

Lemma version_from_code_iff code version :
  version_from_code code = Ok (Some version) <->
  exists hash text, cell_hash code = Some hash /\ (text, version) ∈ code_hashes /\
                    hex_encode hash = lit text.
Proof.
  unfold version_from_code. split.
  - intros (hash & Hh%ok_or_ok & E)%rbind_ok.
    assert (snd <$> List.find (fun entry => bool_decide (hex_encode hash = lit entry.1)) code_hashes
            = Some version) as Hf by congruence.
    apply fmap_Some in Hf as ([text v] & [Hin Ht]%find_some & ->). bool_to_prop.
    exists hash, text. split; [done|]. split; [by apply list_elem_of_In|done].
  - intros (hash & text & -> & Hin & Ht). cbn [ok_or rbind]. do 2 f_equal. rewrite Ht.
    change (lit text) with ((fun entry => lit entry.1) (text, version)).
    by rewrite (find_distinct (fun entry => lit entry.1) code_hashes (text, version) code_hashes_distinct Hin).
Qed.

Lemma rmap_ok {E A B} (f : A -> B) (r : result E A) b :
  rmap f r = Ok b <-> exists a, r = Ok a /\ f a = b.
Proof. destruct r; simpl; naive_solver. Qed.

Lemma hash32_iff cell hash : hash32 cell = Some hash <-> cell_hash cell = Some hash /\ length hash = 32.
Proof.
  unfold hash32. destruct (cell_hash cell) as [h|]; cbn [mbind option_bind]; [|naive_solver].
  destruct (Nat.eqb_spec (length h) 32); naive_solver.
Qed.

Lemma parse_state_init_iff root code data :
  parse_state_init root = Ok (mkParsedStateInit (Some code) (Some data)) <->
  cell_ordinary root = true /\ state_layout root code data.
Proof.
  unfold parse_state_init. by rewrite if_err_ok, negb_false_iff, ok_or_ok, read_state_init_iff.
Qed.

Lemma extract_public_key_iff data version key :
  extract_public_key data version = Ok key <->
  cell_ordinary data = true /\ data_layout version data (pk_bytes key).
Proof.
  unfold extract_public_key. rewrite if_err_ok, negb_false_iff, rmap_ok.
  apply and_iff_compat_l. split.
  - intros (b & Hb%ok_or_ok%read_public_key_iff & <-). done.
  - intros Hl. exists (pk_bytes key). rewrite ok_or_ok, read_public_key_iff. by destruct key.
Qed.

Lemma extract_standard_public_key_iff s state :
  extract_standard_public_key s = Ok (Some state) <->
  exists root code data,
    parse_root_cell (wsi_boc s) = Some root /\ cell_ordinary root = true /\
    state_layout root code data /\ version_from_code code = Ok (Some (sws_version state)) /\
    cell_ordinary data = true /\ data_layout (sws_version state) data (pk_bytes (sws_public_key state)).
Proof.
  unfold extract_standard_public_key, parse_root. split.
  - intros (root & Hr%ok_or_ok & Hk)%rbind_ok. apply rbind_ok in Hk as ([oc od] & Hs & Hk).
    apply rbind_ok in Hk as (code & Hc%ok_or_ok & Hk). apply rbind_ok in Hk as (data & Hd%ok_or_ok & Hk).
    cbn [psi_code psi_data] in *. subst oc od. apply parse_state_init_iff in Hs as [Ho Hl].
    apply rbind_ok in Hk as ([version|] & Hv & Hk); [|done].
    apply rmap_ok in Hk as (key & Hkey%extract_public_key_iff & [= <-]).
    exists root, code, data. tauto.
  - intros (root & code & data & -> & Ho & Hl & Hv & Hk). cbn [ok_or rbind].
    rewrite (proj2 (parse_state_init_iff root code data) (conj Ho Hl)). cbn [rbind psi_code psi_data ok_or].
    rewrite Hv. cbn [rbind]. rewrite (proj2 (extract_public_key_iff _ _ _) Hk). by destruct state.
Qed.

(** A state that was deployed with this hash and key is accepted. *)
Lemma deployed_wallet_verifies s address key state :
  sws_public_key state = key ->
  deployed_with (wsi_boc s) (raa_hash address) (sws_version state) (pk_bytes key) ->
  verify_standard_wallet s address key = Ok state.
Proof.
  intros Hkey (root & code & data & h & text & Hr & Ho & Hh & Hl & Hlay & Hc & Hin & Ht & Hd).
  unfold verify_standard_wallet, derive_address, parse_root. rewrite Hr. cbn [ok_or rbind].
  rewrite (proj2 (hash32_iff root (raa_hash address)) (conj Hh Hl)).
  cbn [ok_or rbind]. rewrite bool_decide_eq_true_2 by (by destruct address). cbn [negb].
  assert (extract_standard_public_key s = Ok (Some state)) as ->.
  { apply extract_standard_public_key_iff. exists root, code, data. rewrite Hkey, version_from_code_iff.
    repeat (split; [done|]). split; [|done]. by exists h, text. }
  cbn [ok_or rbind]. by rewrite bool_decide_eq_true_2.
Qed.

(** C32: an account is accepted with a public key exactly when its address is the hash of
    the root cell of the state, that root is a complete state with code and data, the code
    is that of a known wallet version, and the data cell has the layout of this version
    with exactly this key at its place and nothing left over: an advertised key is never
    trusted on its own. *)
Theorem standard_wallet_binds_key s address key state :
  verify_standard_wallet s address key = Ok state <->
  sws_public_key state = key /\
  deployed_with (wsi_boc s) (raa_hash address) (sws_version state) (pk_bytes key).
Proof.
  split.
  - unfold verify_standard_wallet, derive_address, parse_root, deployed_with.
    intros (derived & Hd & Hk)%rbind_ok. apply rbind_ok in Hd as (root & Hr%ok_or_ok & Hd).
    apply rbind_ok in Hd as (hash & [Hh Hl]%ok_or_ok%hash32_iff & <-%ok_inj).
    apply if_err_ok in Hk as [Ha Hk]. bool_to_prop.
    apply rbind_ok in Hk as (o & He & Hk). apply rbind_ok in Hk as (state' & ->%ok_or_ok & Hk).
    apply if_err_ok in Hk as [Hkey <-%ok_inj]. bool_to_prop.
    apply extract_standard_public_key_iff in He as (root' & code & data & Hr' & Ho & Hlay & Hv & Hdata).
    assert (root' = root) as -> by congruence. apply version_from_code_iff in Hv as (h & text & Hv).
    split; [done|]. exists root, code, data, h, text. rewrite <- Ha, <- Hkey. cbn [raa_hash]. tauto.
  - intros [Hkey Hd]. by apply deployed_wallet_verifies.
Qed.
End KeyBinding.
