(* ===== verification/ConnectHandshake.v ===== *)
(** * Connecting a wallet

    crates/ton-connect-core/src/connect.rs: the items a dApp asks for, the replies of the
    wallet and the check of a connect event against its request; manifest.rs: the checks of
    a dApp manifest; js_bridge.rs: the descriptor of an injected bridge. *)

From stdpp Require Import base numbers list option strings sorting.
From S2P Require Import Prelude BoundaryTypes SendDomain Base64 ClientDomain Json CellBoc.
From S2P Require Import ConnectSession ConnectValues Addresses ConnectRpc ConnectEmbedded.
From S2P Require Import ConnectSigning ConnectWalletState ConnectRpcSpec.

(** ** Maps *)

(** [BTreeMap::insert]: members sorted by name, one per name. *)
Fixpoint map_insert {A} (key : rstr) (v : A) (entries : list (rstr * A)) : list (rstr * A) :=
  match entries with
  | [] => [(key, v)]
  | (k, w) :: rest =>
      match str_cmp key k with
      | Lt => (key, v) :: entries
      | Eq => (key, v) :: rest
      | Gt => (k, w) :: map_insert key v rest
      end
  end.

(** [FromIterator] and [Extend]. *)
Definition map_extend {A} (entries more : list (rstr * A)) : list (rstr * A) :=
  fold_left (fun entries entry => map_insert entry.1 entry.2 entries) more entries.

(** ** Items *)

Inductive ConnectItem :=
  | Item_TonAddr (network : option rstr)
  | Item_TonProof (payload : rstr)
  | Item_Unsupported (name : rstr) (fields : list (rstr * Value)).

Definition item_name (item : ConnectItem) : rstr :=
  match item with
  | Item_TonAddr _ => lit "ton_addr"
  | Item_TonProof _ => lit "ton_proof"
  | Item_Unsupported name _ => name
  end.

Inductive UnsupportedConnectItemError := UnsupportedConnectItem.

Definition item_unsupported (name : rstr) (fields : list (rstr * Value))
  : result UnsupportedConnectItemError ConnectItem :=
  if is_empty name || contains_key "name" fields then Err UnsupportedConnectItem
  else Ok (Item_Unsupported name fields).

Definition connect_item_to_value (item : ConnectItem) : Value :=
  let object := map_insert (lit "name") (Str (item_name item)) [] in
  Object
    match item with
    | Item_TonAddr (Some network) => map_insert (lit "network") (Str network) object
    | Item_TonAddr None => object
    | Item_TonProof payload => map_insert (lit "payload") (Str payload) object
    | Item_Unsupported _ fields => map_extend object fields
    end.

Definition decode_ConnectItem (document : Value) : option ConnectItem :=
  match as_value document with
  | Object object =>
      name ← assoc_get (lit "name") object ≫= as_str;
      if is_empty name then None
      else
        let fields := map_extend [] (without ["name"] object) in
        if bool_decide (name = lit "ton_addr") then
          match strict_members ["network"] (Object fields) with
          | Some [network] => Item_TonAddr <$> optional_non_null decode_network network
          | _ => None
          end
        else if bool_decide (name = lit "ton_proof") then
          match strict_members ["payload"] (Object fields) with
          | Some [payload] => Item_TonProof <$> required as_str payload
          | _ => None
          end
        else Some (Item_Unsupported name fields)
  | _ => None
  end.

Record ConnectRequest := mkConnectRequest {
  cr_manifest_url : rstr;
  cr_items : list ConnectItem;
}.

Definition connect_request_fields : list string := ["manifestUrl"; "items"]%string.

Definition connect_request_to_value (request : ConnectRequest) : Value :=
  Object (present (zip connect_request_fields
    [Some (Str (cr_manifest_url request)); Some (vec_to_value connect_item_to_value (cr_items request))])).

Definition decode_ConnectRequest `{UrlCrate} (v : Value) : option ConnectRequest :=
  match strict_members connect_request_fields v with
  | Some [manifest_url; items] =>
      manifest_url ← required (decode_validated https_url_try_from) manifest_url;
      items ← required (decode_non_empty decode_ConnectItem) items;
      Some (mkConnectRequest manifest_url items)
  | _ => None
  end.

(** ** Replies *)

Record TonAddressItemReply := mkTonAddressItemReply {
  tar_address : RawAccountAddress;
  tar_network : rstr;
  tar_wallet_state_init : WalletStateInit;
  tar_public_key : Ed25519PublicKey;
}.

Record TonProofDomain := mkTonProofDomain { tpd_length_bytes : N; tpd_value : rstr }.

Definition ton_proof_domain_new (value : rstr) : result SigningError TonProofDomain :=
  let? length_bytes := u32_length (utf8 value) in
  Ok (mkTonProofDomain length_bytes value).

Definition decode_TonProofDomain (v : Value) : option TonProofDomain :=
  match strict_members ["lengthBytes"; "value"] v with
  | Some [length_bytes; value] =>
      length_bytes ← required as_u64 length_bytes;
      value ← required as_str value;
      if (u32_max <? length_bytes)%N then None
      else
        actual ← result_ok (u32_length (utf8 value));
        if negb (actual =? length_bytes)%N then None
        else Some (mkTonProofDomain length_bytes value)
  | _ => None
  end.

Record TonProof := mkTonProof {
  tp_timestamp : N;
  tp_domain : TonProofDomain;
  tp_payload : rstr;
  tp_signature : Ed25519Signature;
}.

Inductive ConnectItemErrorCode := ItemError_Unknown | ItemError_MethodNotSupported.

Record ConnectItemError := mkConnectItemError {
  cie_name : rstr;
  cie_code : ConnectItemErrorCode;
  cie_message : option rstr;
}.

Inductive ConnectItemReply :=
  | Reply_TonAddress (reply : TonAddressItemReply)
  | Reply_TonProof (proof : TonProof)
  | Reply_Error (error : ConnectItemError).

Definition reply_name (reply : ConnectItemReply) : rstr :=
  match reply with
  | Reply_TonAddress _ => lit "ton_addr"
  | Reply_TonProof _ => lit "ton_proof"
  | Reply_Error error => cie_name error
  end.

Definition reply_unsupported (item : ConnectItem) (message : option rstr) : ConnectItemReply :=
  Reply_Error (mkConnectItemError (item_name item) ItemError_MethodNotSupported message).

Record ConnectEventPayload := mkConnectEventPayload {
  cep_items : list ConnectItemReply;
  cep_device : DeviceInfo;
}.

Inductive ConnectEventErrorCode :=
  | EventError_Unknown | EventError_BadRequest | EventError_ManifestNotFound
  | EventError_ManifestContent | EventError_UnknownApp | EventError_UserDeclined
  | EventError_MethodNotSupported.

Record ConnectEventError := mkConnectEventError {
  cee_code : ConnectEventErrorCode;
  cee_message : rstr;
}.

(** ** Signatures of an account *)

Inductive AccountVerificationError :=
  | Account_WalletState (error : WalletStateError)
  | Account_Signing (error : SigningError)
  | ResponseAddressMismatch.

Section Verification.
Context `{Sha256} `{Ed25519} `{Crc32Iso} `{HostParser} `{Crc32c} `{TonCells} `{HexCrate}.
Context `{Base64Engine}.

Definition reply_verify_standard_wallet (reply : TonAddressItemReply)
  : result WalletStateError StandardWalletState :=
  verify_standard_wallet (tar_wallet_state_init reply) (tar_address reply) (tar_public_key reply).

Definition proof_signing_hash (proof : TonProof) (address : RawAccountAddress)
  : result SigningError bytes :=
  ton_proof_signing_hash address (tpd_value (tp_domain proof)) (tp_timestamp proof) (tp_payload proof).

Definition proof_verify (proof : TonProof) (address : RawAccountAddress) (key : Ed25519PublicKey)
  : result SigningError bool :=
  let? hash := proof_signing_hash proof address in
  verify_signature hash (tp_signature proof) key.

Definition proof_verify_with_account (proof : TonProof) (account : TonAddressItemReply)
  : result AccountVerificationError bool :=
  let? wallet := map_err Account_WalletState (reply_verify_standard_wallet account) in
  map_err Account_Signing (proof_verify proof (tar_address account) (sws_public_key wallet)).

Definition data_verify_with_account (data : SignDataResult) (account : TonAddressItemReply)
  : result AccountVerificationError bool :=
  if negb (bool_decide (sdr_address data = tar_address account)) then Err ResponseAddressMismatch
  else
    let? wallet := map_err Account_WalletState (reply_verify_standard_wallet account) in
    map_err Account_Signing (sign_data_verify data (sws_public_key wallet)).
End Verification.

(** ** The check of a connect event *)

Inductive ConnectValidationError :=
  | NotAConnectResponse
  | InvalidTonAddressRequest
  | ItemReplyMismatch
  | MissingTonAddressReply
  | MultipleTonAddressReplies
  | Connect_NetworkMismatch
  | ProofPayloadMismatch
  | UnexpectedEmbeddedResponse
  | MissingEmbeddedResponse
  | InvalidDeviceInfo (error : DeviceInfoValidationError)
  | InvalidEmbeddedResponse (error : ResponseValidationError).

Definition is_ton_addr (item : ConnectItem) : bool :=
  match item with Item_TonAddr _ => true | _ => false end.

Definition count {A} (p : A -> bool) (l : list A) : nat := length (List.filter p l).

Definition account_reply (reply : ConnectItemReply) : option TonAddressItemReply :=
  match reply with Reply_TonAddress account => Some account | _ => None end.

Definition requested_network (item : ConnectItem) : option rstr :=
  match item with Item_TonAddr network => network | _ => None end.

Definition proof_reply (reply : ConnectItemReply) : option TonProof :=
  match reply with Reply_TonProof proof => Some proof | _ => None end.

Definition names_mismatch (requested : list ConnectItem) (replies : list ConnectItemReply) : bool :=
  existsb (fun item =>
    negb (count (fun candidate => bool_decide (item_name candidate = item_name item)) requested
          =? count (fun reply => bool_decide (reply_name reply = item_name item)) replies)%nat)
    requested.

Definition echoes_request (requested : list ConnectItem) (proof : TonProof) : bool :=
  existsb (fun item => match item with
                       | Item_TonProof payload => bool_decide (payload = tp_payload proof)
                       | _ => false
                       end) requested.

Section Validation.
Context `{Crc32c} `{TonCoreBoc} `{HexCrate} `{Crc16} `{UrlSafeBase64}.

Definition validate_embedded (embedded_request : option EmbeddedRequest)
    (response : option EmbeddedResponse) (supports_embedded : bool)
  : result ConnectValidationError unit :=
  match embedded_request, response, supports_embedded with
  | None, None, _ | Some _, None, false => Ok tt
  | None, Some _, _ | Some _, Some _, false => Err UnexpectedEmbeddedResponse
  | Some _, None, true => Err MissingEmbeddedResponse
  | Some request, Some response, true =>
      let? _ := map_err InvalidEmbeddedResponse (embedded_validate_for response request) in
      Ok tt
  end.

Definition validate_connect (payload : ConnectEventPayload) (response : option EmbeddedResponse)
    (request : ConnectRequest) (embedded_request : option EmbeddedRequest)
  : result ConnectValidationError unit :=
  let? _ := map_err InvalidDeviceInfo (device_info_validate (cep_device payload)) in
  let requested := cr_items request in
  let replies := cep_items payload in
  if negb (count is_ton_addr requested =? 1)%nat then Err InvalidTonAddressRequest
  else if negb (length requested =? length replies)%nat || names_mismatch requested replies
  then Err ItemReplyMismatch
  else
    match omap account_reply replies with
    | [] => Err MissingTonAddressReply
    | _ :: _ :: _ => Err MultipleTonAddressReplies
    | [account] =>
        if match find_map requested_network requested with
           | Some network => negb (bool_decide (network = tar_network account))
           | None => false
           end
        then Err Connect_NetworkMismatch
        else if negb (forallb (echoes_request requested) (omap proof_reply replies))
        then Err ProofPayloadMismatch
        else
          validate_embedded embedded_request response
            (existsb is_embedded (di_features (cep_device payload)))
    end.

Definition validate_for_connect
    (event : ConnectEvent ConnectEventPayload EmbeddedResponse ConnectEventError)
    (request : ConnectRequest) (embedded_request : option EmbeddedRequest)
  : result ConnectValidationError unit :=
  match event with
  | Event_Connect _ payload response => validate_connect payload response request embedded_request
  | Event_ConnectError _ _ => Ok tt
  | Event_Disconnect _ => Err NotAConnectResponse
  end.
End Validation.

(** ** Manifests *)

(** More of [url::Url]. *)
Class UrlParts `{UrlCrate} := {
  url_host : Url -> option Host;
  url_path : Url -> rstr;
}.

Inductive ManifestError := EmptyName | InvalidAppDomain | SvgIcon | ReservedVersion | InvalidUrl.

Record AppManifest := mkAppManifest {
  am_url : rstr;
  am_name : rstr;
  am_icon_url : rstr;
  am_terms_of_use_url : option rstr;
  am_privacy_policy_url : option rstr;
  am_extensions : list (rstr * Value);
}.

Section Manifest.
Context `{UrlParts}.

(** At least two labels, none empty. *)
Definition dotted_domain (host : option Host) : bool :=
  match host with
  | Some (Host_Domain domain) =>
      match split_on 46%N domain with
      | first :: second :: rest =>
          negb (is_empty first) && negb (is_empty second)
          && forallb (fun label => negb (is_empty label)) rest
      | _ => false
      end
  | _ => false
  end.

Definition ends_with_text (suffix value : rstr) : bool :=
  bool_decide (is_Some (strip_prefix (reverse suffix) (reverse value))).

Definition manifest_validate (m : AppManifest) : result ManifestError unit :=
  if is_empty (am_name m) then Err EmptyName
  else if contains_key "version" (am_extensions m) then Err ReservedVersion
  else
    let? app_url := ok_or InvalidUrl (url_parse (am_url m)) in
    if negb (dotted_domain (url_host app_url)) then Err InvalidAppDomain
    else
      let? icon_url := ok_or InvalidUrl (url_parse (am_icon_url m)) in
      if ends_with_text (lit ".svg") (map to_ascii_lowercase (url_path icon_url)) then Err SvgIcon
      else Ok tt.

Definition app_domain (m : AppManifest) : result ManifestError rstr :=
  let? url := ok_or InvalidUrl (url_parse (am_url m)) in
  match url_host url with
  | Some (Host_Domain domain) => Ok domain
  | Some Host_Ipv4 | Some Host_Ipv6 | None => Err InvalidAppDomain
  end.
End Manifest.

(** ** Injected bridges *)

Inductive JsBridgeContractError :=
  | InvalidWalletInfo
  | ProtocolVersionMismatch
  | Js_InvalidDeviceInfo (error : DeviceInfoValidationError).

Record InjectedWalletInfo := mkInjectedWalletInfo {
  iwi_name : rstr;
  iwi_image : rstr;
  iwi_tondns : option rstr;
  iwi_about_url : rstr;
}.

Definition injected_wallet_info_new (name image : rstr) (tondns : option rstr) (about_url : rstr)
  : result JsBridgeContractError InjectedWalletInfo :=
  if is_empty name
     || match tondns with
        | Some value => bool_decide (value = lit ".ton") || negb (ends_with_text (lit ".ton") value)
        | None => false
        end
  then Err InvalidWalletInfo
  else Ok (mkInjectedWalletInfo name image tondns about_url).

Record JsBridgeDescriptor := mkJsBridgeDescriptor {
  jbd_device_info : DeviceInfo;
  jbd_wallet_info : option InjectedWalletInfo;
  jbd_protocol_version : N;
  jbd_is_wallet_browser : bool;
}.

Definition js_bridge_descriptor_new (device_info : DeviceInfo)
    (wallet_info : option InjectedWalletInfo) (protocol_version : N) (is_wallet_browser : bool)
  : result JsBridgeContractError JsBridgeDescriptor :=
  let? _ := map_err Js_InvalidDeviceInfo (device_info_validate device_info) in
  if (protocol_version =? 0)%N || negb (protocol_version =? di_max_protocol_version device_info)%N
  then Err ProtocolVersionMismatch
  else Ok (mkJsBridgeDescriptor device_info wallet_info protocol_version is_wallet_browser).

Definition js_bridge_supports (d : JsBridgeDescriptor) (requested_version : N) : bool :=
  ((0 <? requested_version) && (requested_version <=? jbd_protocol_version d))%N.

(** * Connect requests and events

    Connect requests are read back as they were written, unknown items included, and a
    connect event is accepted exactly when it answers its request. *)

(** ** Sorted members *)

Definition key_lt {A} (a b : rstr * A) : Prop := str_cmp a.1 b.1 = Lt.

Lemma str_cmp_lt_trans a b c : str_cmp a b = Lt -> str_cmp b c = Lt -> str_cmp a c = Lt.
Proof.
  intros Hab Hbc. destruct (str_cmp a c) eqn:E; [|done|].
  - apply str_cmp_eq in E as ->. rewrite str_cmp_antisym, Hbc in Hab. done.
  - destruct (str_cmp_le_trans a b c); [by rewrite Hab|by rewrite Hbc|done].
Qed.

#[export] Instance key_lt_trans {A} : Transitive (@key_lt A).
Proof. intros a b c. apply str_cmp_lt_trans. Qed.

#[export] Instance key_lt_antisymm {A} : AntiSymm eq (@key_lt A).
Proof. intros a b Ha Hb. unfold key_lt in *. rewrite str_cmp_antisym, Ha in Hb. done. Qed.

Lemma map_insert_fresh {A} key v (entries : list (rstr * A)) :
  key ∉ map fst entries -> map_insert key v entries ≡ₚ (key, v) :: entries.
Proof.
  induction entries as [|[k w] entries IH]; [done|]. cbn [map fst map_insert].
  intros [Hk He]%not_elem_of_cons. destruct (str_cmp key k) eqn:E; [|done|].
  - by apply str_cmp_eq in E.
  - rewrite (IH He). apply Permutation_swap.
Qed.

Lemma map_insert_sorted {A} key v (entries : list (rstr * A)) :
  key ∉ map fst entries -> StronglySorted key_lt entries ->
  StronglySorted key_lt (map_insert key v entries).
Proof.
  induction entries as [|[k w] entries IH]; [by repeat constructor|]. cbn [map fst map_insert].
  intros [Hk He]%not_elem_of_cons Hs. destruct (str_cmp key k) eqn:E.
  - by apply str_cmp_eq in E.
  - constructor; [done|]. inversion Hs as [|? ? _ Hf]; subst. constructor; [done|].
    eapply Forall_impl; [exact Hf|]. intros x Hx. exact (str_cmp_lt_trans key k x.1 E Hx).
  - inversion Hs as [|? ? Hs' Hf]; subst. constructor; [by apply IH|].
    rewrite (map_insert_fresh key v entries He). constructor; [|done].
    unfold key_lt. cbn [fst]. by rewrite str_cmp_antisym, E.
Qed.

Lemma map_extend_fresh {A} (more entries : list (rstr * A)) :
  NoDup (map fst (more ++ entries)) -> StronglySorted key_lt entries ->
  map_extend entries more ≡ₚ more ++ entries /\ StronglySorted key_lt (map_extend entries more).
Proof.
  unfold map_extend. revert entries. induction more as [|[k v] more IH]; intros entries Hd Hs; [by split|].
  cbn [fold_left fst snd app map] in *. apply NoDup_cons in Hd as [Hk Hd].
  rewrite map_app, elem_of_app in Hk.
  assert (k ∉ map fst entries) as Hke by tauto.
  pose proof (map_insert_fresh k v entries Hke) as Hp.
  destruct (IH (map_insert k v entries)) as [HP HS].
  - assert (map fst (more ++ map_insert k v entries) ≡ₚ k :: map fst (more ++ entries)) as ->.
    { rewrite Hp, !map_app. cbn [map fst]. by rewrite Permutation_middle. }
    apply NoDup_cons. split; [by rewrite map_app, elem_of_app|done].
  - by apply map_insert_sorted.
  - split; [|done]. rewrite HP, Hp. by rewrite Permutation_middle.
Qed.

Lemma sorted_distinct {A} (entries : list (rstr * A)) :
  StronglySorted key_lt entries -> NoDup (map fst entries).
Proof.
  induction 1 as [|[k v] entries _ IH Hf]; [constructor|]. cbn [map fst]. apply NoDup_cons.
  split; [|done]. intros (entry & E & Hin)%list_elem_of_fmap. rewrite Forall_forall in Hf.
  specialize (Hf entry Hin). unfold key_lt in Hf. cbn [fst] in Hf. by rewrite E, str_cmp_refl in Hf.
Qed.

(** Removing members does not depend on their order. *)
#[export] Instance without_permutation names : Proper ((≡ₚ) ==> (≡ₚ)) (without names).
Proof.
  intros l l' Hp. unfold without. induction Hp as [|x l l' _ IH|x y l|l l' l'' _ IH _ IH']; simpl.
  - done.
  - destruct (negb _); [by rewrite IH|done].
  - destruct (negb _), (negb _); try done. apply Permutation_swap.
  - by rewrite IH.
Qed.

(** ** Items *)

Definition valid_connect_item (item : ConnectItem) : Prop :=
  match item with
  | Item_TonAddr network => (from_option (fun n => valid_network_id n = true) True network)
  | Item_TonProof _ => True
  | Item_Unsupported name fields =>
      name <> [] /\ name <> lit "ton_addr" /\ name <> lit "ton_proof" /\
      StronglySorted key_lt fields /\ (lit "name" ∉ map fst fields) /\
      Forall (fun field => plain field.2) fields
  end.

(** The object of an item: its name and, sorted with it, the fields. *)
Lemma item_object name fields :
  StronglySorted key_lt fields -> lit "name" ∉ map fst fields ->
  Forall (fun field => plain field.2) fields ->
  let object := map_extend (map_insert (lit "name") (Str name) []) fields in
  plain (Object object) /\ assoc_get (lit "name") object = Some (Str name) /\
  map_extend [] (without ["name"] object) = fields.
Proof.
  intros Hs Hn Hp object. subst object. cbn [map_insert].
  assert (NoDup (map fst (fields ++ [(lit "name", Str name)]))) as Hd.
  { rewrite map_app. apply NoDup_app. split; [by apply sorted_distinct|]. split; [|apply NoDup_singleton].
    intros key Hk ->%list_elem_of_singleton. done. }
  destruct (map_extend_fresh fields [(lit "name", Str name)] Hd) as [HP HS]; [by repeat constructor|].
  set (object := map_extend _ _) in *.
  assert (NoDup (map fst object)) as Hdo by (by apply sorted_distinct).
  split; [|split].
  - apply plain_object; [done|]. rewrite HP. apply Forall_app. split; [done|]. by repeat constructor.
  - assert ((lit "name", Str name) ∈ object) as Hin
      by (rewrite HP, elem_of_app; right; left). clear -Hin Hdo.
    induction object as [|[k v] object IH]; [by apply not_elem_of_nil in Hin|].
    cbn [map fst assoc_get] in *. apply NoDup_cons in Hdo as [Hk Hdo].
    apply elem_of_cons in Hin as [[= <- <-]|Hin]; [by rewrite bool_decide_eq_true_2|].
    rewrite bool_decide_eq_false_2; [by apply IH|]. intros ->. apply Hk.
    by apply (list_elem_of_fmap_2 fst _ (lit "name", Str name)).
  - assert (without ["name"%string] object ≡ₚ fields) as HW.
    { rewrite HP, without_app, without_none by (intros key ->%list_elem_of_singleton; done).
      change (without ["name"%string] [(lit "name", Str name)]) with (@nil (rstr * Value)).
      by rewrite app_nil_r. }
    destruct (map_extend_fresh (without ["name"%string] object) []) as [HPe HSe].
    + rewrite app_nil_r, HW. by apply sorted_distinct.
    + constructor.
    + apply (StronglySorted_unique key_lt); [done..|]. etransitivity; [exact HPe|].
      by rewrite app_nil_r.
Qed.

(** The members besides the name. *)
Definition item_fields (item : ConnectItem) : list (rstr * Value) :=
  match item with
  | Item_TonAddr network => present (zip ["network"%string] [Str <$> network])
  | Item_TonProof payload => [(lit "payload", Str payload)]
  | Item_Unsupported _ fields => fields
  end.

Lemma connect_item_members item :
  connect_item_to_value item
  = Object (map_extend (map_insert (lit "name") (Str (item_name item)) []) (item_fields item)).
Proof. by destruct item as [[network|]|payload|name fields]. Qed.

Lemma item_fields_valid item :
  valid_connect_item item ->
  StronglySorted key_lt (item_fields item) /\ (lit "name" ∉ map fst (item_fields item)) /\
  Forall (fun field => plain field.2) (item_fields item) /\ item_name item <> [].
Proof.
  destruct item as [[network|]|payload|name fields]; cbn [valid_connect_item item_name item_fields];
    [intros _..|tauto]; (split; [by repeat constructor|]); (split; [|split; [by repeat constructor|done]]);
    cbn [present zip zip_with fmap option_fmap option_map map fst]; distinct_names.
Qed.

#[export] Instance connect_item_wire :
  Wire decode_ConnectItem connect_item_to_value valid_connect_item.
Proof.
  split; intros item Hv; rewrite connect_item_members;
    destruct (item_fields_valid item Hv) as (Hs & Hn & Hp & Hne);
    destruct (item_object (item_name item) (item_fields item) Hs Hn Hp) as (Hplain & Hget & Hrest);
    [|done].
  unfold decode_ConnectItem. rewrite Hplain, Hget. cbn [as_str mbind option_bind].
  destruct (item_name item) as [|c s] eqn:Ename; [done|]. cbn [is_empty]. rewrite Hrest. rewrite <- Ename.
  destruct item as [network|payload|name fields']; cbn [item_name item_fields valid_connect_item] in *.
  - rewrite bool_decide_eq_true_2 by done.
    rewrite (strict_members_present ["network"%string] [Str <$> network]); [|distinct_names|done].
    unfold decode_network, network_id_try_from. by rewrite wire_optional.
  - done.
  - destruct Hv as (_ & Ha & Hpr & _). by rewrite !bool_decide_eq_false_2.
Qed.

(** Unknown items are only made from objects, so their fields are plain and sorted. *)
Definition valid_connect_request `{UrlCrate} (request : ConnectRequest) : Prop :=
  valid_https_url (cr_manifest_url request) = true /\
  cr_items request <> [] /\ Forall valid_connect_item (cr_items request).

#[export] Instance connect_request_wire `{UrlCrate} :
  Wire decode_ConnectRequest connect_request_to_value valid_connect_request.
Proof.
  split; intros [url items] (Hu & Hi); unfold connect_request_to_value;
    cbn [cr_manifest_url cr_items] in *.
  - unfold decode_ConnectRequest. rewrite strict_members_present; [|distinct_names|done].
    unfold https_url_try_from. wire_fields. done.
  - apply plain_struct; [distinct_names|]. plain_fields.
Qed.

(** ** Events *)

Lemma count_occurs {A} `{EqDecision B} (f : A -> B) (x : B) (l : list A) :
  count (fun a => bool_decide (f a = x)) l = count_occ (fun a b => decide (a = b)) (map f l) x.
Proof.
  unfold count. induction l as [|a l IH]; [done|]. cbn [List.filter map count_occ].
  destruct (decide (f a = x)) as [E|E].
  - rewrite bool_decide_eq_true_2 by done. cbn [length]. by rewrite IH.
  - by rewrite bool_decide_eq_false_2.
Qed.

(** Equal numbers of every element of one list, and equal lengths, are a permutation. *)
Lemma counts_permutation `{EqDecision B} (l l' : list B) :
  length l = length l' ->
  (forall x, x ∈ l -> count_occ (fun a b => decide (a = b)) l x
                      = count_occ (fun a b => decide (a = b)) l' x) ->
  l ≡ₚ l'.
Proof.
  revert l'. induction l as [|a l IH]; intros l' Hl Hc; [by destruct l'|].
  assert (a ∈ l') as Hin.
  { apply list_elem_of_In, (count_occ_In (fun a b => decide (a = b))).
    rewrite <- Hc by (by left). cbn [count_occ]. destruct (decide (a = a)); [lia|done]. }
  apply elem_of_Permutation in Hin as [rest Hr]. rewrite Hr. f_equiv. apply IH.
  - rewrite Hr in Hl. cbn [length] in Hl. lia.
  - intros x Hx. specialize (Hc x ltac:(by right)). cbn [count_occ] in Hc.
    rewrite (proj1 (Permutation_count_occ _ l' (a :: rest)) Hr x) in Hc. cbn [count_occ] in Hc.
    destruct (decide (a = x)); lia.
Qed.

Lemma names_match requested replies :
  negb (length requested =? length replies)%nat || names_mismatch requested replies = false <->
  map item_name requested ≡ₚ map reply_name replies.
Proof.
  rewrite orb_false_iff, negb_false_iff, Nat.eqb_eq. unfold names_mismatch. split.
  - intros [Hl Hn]. apply counts_permutation; [by rewrite !length_map|].
    intros name (item & -> & Hin)%list_elem_of_fmap. rewrite <- !count_occurs.
    destruct (Nat.eqb_spec (count (fun c => bool_decide (item_name c = item_name item)) requested)
                (count (fun r => bool_decide (reply_name r = item_name item)) replies)); [done|].
    exfalso. apply not_true_iff_false in Hn. apply Hn, existsb_exists. exists item.
    split; [by apply list_elem_of_In|]. by apply negb_true_iff, Nat.eqb_neq.
  - intros Hp. split; [apply Permutation_length in Hp; by rewrite !length_map in Hp|].
    apply not_true_iff_false. intros (item & _ & Hn)%existsb_exists. bool_to_prop.
    apply Nat.eqb_neq in Hn. apply Hn. rewrite !count_occurs. by apply Permutation_count_occ.
Qed.

Section Events.
Context `{Crc32c} `{TonCoreBoc} `{HexCrate} `{Crc16} `{UrlSafeBase64}.

(** The embedded action is answered when the wallet supports it, and only then. *)
Definition embedded_answered (embedded_request : option EmbeddedRequest)
    (response : option EmbeddedResponse) (supported : Prop) : Prop :=
  match embedded_request with
  | None => response = None
  | Some request =>
      (supported /\ exists answer known,
         response = Some answer /\ embedded_validate_for answer request = Ok known) \/
      (~ supported /\ response = None)
  end.

Definition connect_answers (payload : ConnectEventPayload) (response : option EmbeddedResponse)
    (request : ConnectRequest) (embedded_request : option EmbeddedRequest) : Prop :=
  device_info_validate (cep_device payload) = Ok tt /\
  map item_name (cr_items request) ≡ₚ map reply_name (cep_items payload) /\
  (exists network account,
     List.filter is_ton_addr (cr_items request) = [Item_TonAddr network] /\
     omap account_reply (cep_items payload) = [account] /\
     (forall n, network = Some n -> tar_network account = n)) /\
  (forall proof, Reply_TonProof proof ∈ cep_items payload ->
     Item_TonProof (tp_payload proof) ∈ cr_items request) /\
  embedded_answered embedded_request response
    (Feature_EmbeddedRequest ∈ di_features (cep_device payload)).

Lemma requested_network_found items network :
  List.filter is_ton_addr items = [Item_TonAddr network] ->
  find_map requested_network items = network.
Proof.
  induction items as [|item items IH]; [done|]. cbn [List.filter find_map].
  destruct item as [n|p|name fields]; cbn [is_ton_addr requested_network]; [|exact IH..].
  intros [= -> Hrest]. destruct network; [done|]. clear IH.
  induction items as [|[n|p|name fields] items IH]; simpl in *; auto; done.
Qed.

Lemma one_ton_addr items :
  count is_ton_addr items = 1 <-> exists network, List.filter is_ton_addr items = [Item_TonAddr network].
Proof.
  unfold count. split.
  - destruct (List.filter is_ton_addr items) as [|item [|]] eqn:E; try done. intros _.
    assert (In item (List.filter is_ton_addr items)) as [_ Hi]%filter_In by (rewrite E; by left).
    destruct item; try done. by eexists.
  - by intros [network ->].
Qed.

Lemma proofs_echoed requested replies :
  forallb (echoes_request requested) (omap proof_reply replies) = true <->
  forall proof, Reply_TonProof proof ∈ replies -> Item_TonProof (tp_payload proof) ∈ requested.
Proof.
  rewrite forallb_forall. split.
  - intros Hall proof Hin.
    assert (In proof (omap proof_reply replies)) as (item & Hi & He)%Hall%existsb_exists
      by (apply list_elem_of_In, list_elem_of_omap; by exists (Reply_TonProof proof)).
    destruct item; try done. bool_to_prop. subst. by apply list_elem_of_In.
  - intros Hall proof (reply & Hr & Hp)%list_elem_of_In%list_elem_of_omap.
    destruct reply; try done. simplify_eq/=. apply existsb_exists.
    exists (Item_TonProof (tp_payload proof)). split; [by apply list_elem_of_In, Hall|].
    by apply bool_decide_eq_true_2.
Qed.

Lemma is_embedded_spec features :
  existsb is_embedded features = true <-> Feature_EmbeddedRequest ∈ features.
Proof.
  rewrite existsb_exists. split.
  - intros (f & Hf%list_elem_of_In & He). by destruct f.
  - intros Hf. exists Feature_EmbeddedRequest. by rewrite <- list_elem_of_In.
Qed.

Lemma validate_embedded_iff embedded_request response supports (supported : Prop) :
  (supports = true <-> supported) ->
  validate_embedded embedded_request response supports = Ok tt <->
  embedded_answered embedded_request response supported.
Proof.
  intros Hs. destruct embedded_request as [request|], response as [answer|], supports;
    cbn [validate_embedded embedded_answered]; split; try done.
  - intros (known & Hk%map_err_ok & _)%rbind_ok. left. split; [by apply Hs|]. by exists answer, known.
  - intros [(_ & a & known & [= <-] & Hk)|[_ ?]]; [|done]. apply rbind_ok. exists known.
    split; [by apply map_err_ok|done].
  - intros [(Hsup & _)|[_ ?]]; [by apply Hs in Hsup|done].
  - intros [(_ & ? & ? & ? & _)|[Hno _]]; [done|]. destruct Hno. by apply Hs.
  - intros _. right. split; [|done]. intros Hsup%Hs. done.
Qed.

(** A connect event is accepted for a request exactly when it answers it: the wallet
    description is valid; the replies are for the requested items, each as often as asked,
    in any order; one account was requested and one is given, on the requested network;
    every ownership proof repeats a challenge of the request; and the embedded action has
    a response of its method exactly when the wallet supports embedded requests.  A connect
    error always answers, a disconnect never. *)
Theorem connect_event_accepted_exactly event request embedded_request :
  validate_for_connect event request embedded_request = Ok tt <->
  match event with
  | Event_Connect _ payload response => connect_answers payload response request embedded_request
  | Event_ConnectError _ _ => True
  | Event_Disconnect _ => False
  end.
Proof.
  destruct event as [id payload response|id error|id]; cbn [validate_for_connect]; [|done..].
  unfold validate_connect, connect_answers. rewrite rbind_ok. split.
  - intros ([] & Hd%map_err_ok & Hk). split; [done|].
    apply if_err_ok in Hk as [Hone Hk].
    apply negb_false_iff, Nat.eqb_eq, one_ton_addr in Hone as [network Hn].
    apply if_err_ok in Hk as [Hm%names_match Hk]. split; [done|].
    destruct (omap account_reply (cep_items payload)) as [|account [|]] eqn:Ha; [done| |done].
    apply if_err_ok in Hk as [Hnet Hk]. apply if_err_ok in Hk as [Hp Hk].
    apply negb_false_iff in Hp. rewrite proofs_echoed in Hp. rewrite (requested_network_found _ _ Hn) in Hnet.
    split; [|split; [done|]].
    + exists network, account. split; [done|]. split; [done|]. intros n ->. bool_to_prop. done.
    + by apply (validate_embedded_iff _ _ _ _ (is_embedded_spec _)) in Hk.
  - intros (Hd & Hm & (network & account & Hn & Ha & Hnet) & Hp & He). exists tt.
    split; [by apply map_err_ok|]. rewrite !if_err_ok.
    split; [apply negb_false_iff, Nat.eqb_eq, one_ton_addr; by exists network|].
    split; [by apply names_match|]. rewrite Ha, !if_err_ok, (requested_network_found _ _ Hn).
    split; [|split; [apply negb_false_iff; by rewrite proofs_echoed|]].
    + destruct network as [n|]; [|done]. by rewrite (Hnet n eq_refl), bool_decide_eq_true_2.
    + by apply (validate_embedded_iff _ _ _ _ (is_embedded_spec _)).
Qed.
End Events.
