(* ===== verification/ConnectLink.v ===== *)
(** * Connect links

    crates/ton-connect-core/src/deep_link.rs: links that carry a connect request, an
    embedded request and a return strategy, and the substitutions of Telegram's start
    parameter. *)

From stdpp Require Import base numbers list option strings.
From S2P Require Import Prelude BoundaryTypes SendDomain Base64 ClientDomain Json CellBoc.
From S2P Require Import ConnectSession ConnectValues Addresses ConnectRpc ConnectEmbedded.
From S2P Require Import ConnectSigning ConnectWalletState ConnectHandshake ConnectRpcSpec.

(** ** Telegram's start parameter *)

(** [str::replace] with a character and with a text, which is searched from the left and
    does not overlap itself. *)
Definition replace_char (from : char) (to : rstr) (s : rstr) : rstr :=
  flat_map (fun c => if (c =? from)%N then to else [c]) s.

Fixpoint replace_from (skip : nat) (from to : rstr) (s : rstr) : rstr :=
  match s with
  | [] => []
  | c :: rest =>
      match skip with
      | S skip => replace_from skip from to rest
      | 0 =>
          if bool_decide (is_Some (strip_prefix from s))
          then to ++ replace_from (length from - 1) from to rest
          else c :: replace_from 0 from to rest
      end
  end.

Definition replace_text (from to : string) (s : rstr) : rstr := replace_from 0 (lit from) (lit to) s.

Definition encode_telegram_url_parameters (parameters : rstr) : rstr :=
  replace_char 37%N (lit "--")
    (replace_char 61%N (lit "__")
      (replace_char 38%N (lit "-")
        (replace_char 95%N (lit "%5F")
          (replace_char 45%N (lit "%2D")
            (replace_char 46%N (lit "%2E") parameters))))).

Definition decode_telegram_url_parameters (parameters : rstr) : rstr :=
  replace_text "%2E" "."
    (replace_text "%2D" "-"
      (replace_text "%5F" "_"
        (replace_char 45%N (lit "&")
          (replace_text "__" "="
            (replace_text "--" "%" parameters))))).

(** ** Links *)

Inductive ReturnStrategy :=
  | Return_Back
  | Return_None
  | Return_Custom (url : rstr).

Record ConnectLink := mkConnectLink {
  cl_client_id : ClientId;
  cl_request : option ConnectRequest;
  cl_return_strategy : ReturnStrategy;
  cl_embedded_request : option EmbeddedRequest;
  cl_trace_id : option rstr;
  cl_extensions : list (rstr * rstr);
}.

Definition link_connect (client_id : ClientId) (request : ConnectRequest)
    (return_strategy : ReturnStrategy) (embedded_request : option EmbeddedRequest)
    (trace_id : option rstr) : ConnectLink :=
  mkConnectLink client_id (Some request) return_strategy embedded_request trace_id [].

Definition link_reduced (client_id : ClientId) (return_strategy : ReturnStrategy)
    (trace_id : option rstr) : ConnectLink :=
  mkConnectLink client_id None return_strategy None trace_id [].

Inductive ConnectLinkError :=
  | InvalidBaseUrl (error : rstr)
  | BaseUrlContainsQueryOrFragment
  | Link_InvalidUrl (error : rstr)
  | MissingParameter (name : string)
  | Link_DuplicateParameter (name : rstr)
  | UnsupportedVersion (version : rstr)
  | EmbeddedRequestWithoutConnect
  | InvalidReturnStrategy (value : rstr)
  | InvalidValue (error : ValueError)
  | InvalidConnectRequest (error : rstr)
  | InvalidEmbeddedRequest (error : EmbeddedRequestError).

(** The query of a [url::Url]: its decoded pairs, and [query_pairs_mut] with
    [append_pair]; the text of a [url::ParseError]. *)
Class UrlQuery `{UrlCrate} := {
  url_parse_error : rstr -> rstr;
  url_has_query : Url -> bool;
  url_query_pairs : Url -> list (rstr * rstr);
  url_append_pairs : Url -> list (rstr * rstr) -> Url;
  url_as_str : Url -> rstr;
  url_append_pairs_query u pairs :
    url_has_query u = false -> url_fragment u = None ->
    Forall (fun pair => Forall scalar pair.1 /\ Forall scalar pair.2) pairs ->
    url_query_pairs (url_append_pairs u pairs) = pairs;
  url_append_pairs_text u pairs text :
    url_parse text = Some u ->
    url_parse (url_as_str (url_append_pairs u pairs)) = Some (url_append_pairs u pairs);
}.

Definition LINK_PROTOCOL_VERSION : rstr := lit "2".

Definition known_parameters : list rstr :=
  map lit ["v"; "id"; "r"; "ret"; "e"; "trace_id"]%string.

(** The loop over the pairs: singleton parameters and the rest. *)
Fixpoint collect_parameters (known extensions pairs : list (rstr * rstr))
  : result ConnectLinkError (list (rstr * rstr) * list (rstr * rstr)) :=
  match pairs with
  | [] => Ok (known, extensions)
  | (name, value) :: rest =>
      if bool_decide (name ∈ known_parameters) then
        if bool_decide (is_Some (assoc_get name known)) then Err (Link_DuplicateParameter name)
        else collect_parameters (known ++ [(name, value)]) extensions rest
      else collect_parameters known (extensions ++ [(name, value)]) rest
  end.

Section Links.
Context `{UrlQuery} `{SerdeJson}.
Context `{Crc32c} `{TonCoreBoc} `{HexCrate} `{Crc16} `{UrlSafeBase64}.

Definition check_return_url (value : rstr) : result ConnectLinkError unit :=
  let? parsed := ok_or (InvalidReturnStrategy value) (url_parse value) in
  if is_empty (url_scheme parsed) then Err (InvalidReturnStrategy value) else Ok tt.

Definition parse_return_strategy (value : option rstr) : result ConnectLinkError ReturnStrategy :=
  match value with
  | None => Ok Return_Back
  | Some value =>
      if bool_decide (value = lit "back") then Ok Return_Back
      else if bool_decide (value = lit "none") then Ok Return_None
      else
        let? _ := check_return_url value in
        Ok (Return_Custom value)
  end.

Definition link_parse (value : rstr) : result ConnectLinkError ConnectLink :=
  let? url := ok_or (Link_InvalidUrl (url_parse_error value)) (url_parse value) in
  let? collected := collect_parameters [] [] (url_query_pairs url) in
  let '(known, extensions) := collected in
  let? id := ok_or (MissingParameter "id") (assoc_get (lit "id") known) in
  let? client_id := map_err InvalidValue (client_id_from_str id) in
  let? request :=
    match assoc_get (lit "r") known with
    | Some request =>
        rmap Some (map_err InvalidConnectRequest (decode_slice decode_ConnectRequest (utf8 request)))
    | None => Ok None
    end in
  let? _ :=
    match assoc_get (lit "v") known with
    | Some version =>
        if negb (bool_decide (version = LINK_PROTOCOL_VERSION)) then Err (UnsupportedVersion version)
        else Ok tt
    | None =>
        if bool_decide (is_Some request) then Err (MissingParameter "v") else Ok tt
    end in
  let embedded_request :=
    assoc_get (lit "e") known ≫= fun parameter =>
      result_ok (decode_embedded_request_param parameter) in
  if bool_decide (is_Some embedded_request) && negb (bool_decide (is_Some request))
  then Err EmbeddedRequestWithoutConnect
  else
    let? return_strategy := parse_return_strategy (assoc_get (lit "ret") known) in
    let? trace_id :=
      match assoc_get (lit "trace_id") known with
      | Some trace_id => rmap Some (map_err InvalidValue (trace_id_try_from trace_id))
      | None => Ok None
      end in
    Ok (mkConnectLink client_id request return_strategy embedded_request trace_id extensions).

Definition return_text (strategy : ReturnStrategy) : result ConnectLinkError rstr :=
  match strategy with
  | Return_Back => Ok (lit "back")
  | Return_None => Ok (lit "none")
  | Return_Custom value =>
      let? _ := check_return_url value in
      Ok value
  end.

(** A parameter that is there. *)
Definition parameter (name : string) (value : option rstr) : list (rstr * rstr) :=
  match value with Some value => [(lit name, value)] | None => [] end.

Definition link_to_url (link : ConnectLink) (base_url : rstr) : result ConnectLinkError Url :=
  let? url := ok_or (InvalidBaseUrl (url_parse_error base_url)) (url_parse base_url) in
  if url_has_query url || bool_decide (is_Some (url_fragment url))
  then Err BaseUrlContainsQueryOrFragment
  else
    let request := (fun r => value_to_string (connect_request_to_value r)) <$> cl_request link in
    let? embedded :=
      match cl_embedded_request link with
      | Some embedded =>
          rmap Some (map_err InvalidEmbeddedRequest (encode_embedded_request_param embedded))
      | None => Ok None
      end in
    if bool_decide (is_Some embedded) && negb (bool_decide (is_Some request))
    then Err EmbeddedRequestWithoutConnect
    else
      let? return_strategy := return_text (cl_return_strategy link) in
      Ok (url_append_pairs url
            (parameter "v" ((fun _ => LINK_PROTOCOL_VERSION) <$> request)
             ++ parameter "id" (Some (client_id_to_string (cl_client_id link)))
             ++ parameter "r" request
             ++ parameter "ret" (Some return_strategy)
             ++ parameter "trace_id" (cl_trace_id link)
             ++ parameter "e" embedded
             ++ cl_extensions link)).
End Links.

(** * Connect links are read back as they were written

    A link survives the URL it is written to, and Telegram's substitutions can be undone
    for the queries that the links have. *)

(** ** Parameters *)

Lemma collect_parameters_ok extensions pairs known acc :
  NoDup (map fst (known ++ pairs)) ->
  Forall (fun pair => pair.1 ∈ known_parameters) pairs ->
  Forall (fun pair => pair.1 ∉ known_parameters) extensions ->
  collect_parameters known acc (pairs ++ extensions) = Ok (known ++ pairs, acc ++ extensions).
Proof.
  revert known acc. induction pairs as [|[name value] pairs IH]; intros known acc Hd Hk He.
  - rewrite app_nil_r. cbn [app]. clear Hd Hk. revert acc.
    induction He as [|[name value] extensions Hn _ IH]; intros acc; cbn [collect_parameters];
      [by rewrite app_nil_r|]. rewrite bool_decide_eq_false_2 by done. rewrite IH.
    by rewrite <- app_assoc.
  - apply Forall_cons_1 in Hk as [Hn Hk]. cbn [app collect_parameters].
    rewrite bool_decide_eq_true_2 by done.
    assert (name ∉ map fst known) as Hfresh.
    { rewrite map_app in Hd. apply NoDup_app in Hd as (_ & Hd & _). intros Hin.
      apply (Hd _ Hin). left. }
    rewrite bool_decide_eq_false_2 by (rewrite assoc_get_None by done; by intros []).
    rewrite IH; rewrite <- ?app_assoc; done.
Qed.

Section Links.
Context `{UrlQuery} `{SerdeJson}.
Context `{Crc32c} `{TonCoreBoc} `{HexCrate} `{Crc16} `{UrlSafeBase64}.

(** A link whose parts are values of their types, none of which the URL confuses. *)
Record valid_link (link : ConnectLink) : Prop := {
  link_client_id : length (cid_bytes (cl_client_id link)) = 32 /\
                   Forall (fun b => b < 256)%N (cid_bytes (cl_client_id link));
  link_request : forall request, cl_request link = Some request ->
    valid_connect_request request /\ reads_back (connect_request_to_value request) /\
    Forall scalar (value_to_string (connect_request_to_value request));
  link_embedded : forall embedded, cl_embedded_request link = Some embedded ->
    is_Some (cl_request link) /\ valid_embedded embedded /\
    exists body, writes (wire_request_to_value (request_to_wire embedded)) body;
  link_return : forall value, cl_return_strategy link = Return_Custom value ->
    check_return_url value = Ok tt /\ value <> lit "back" /\ value <> lit "none" /\
    Forall scalar value;
  link_trace : forall trace, cl_trace_id link = Some trace ->
    valid_trace_id trace = true /\ Forall scalar trace;
  link_extensions : Forall (fun pair => pair.1 ∉ known_parameters) (cl_extensions link);
  link_extensions_text :
    Forall (fun pair => Forall scalar pair.1 /\ Forall scalar pair.2) (cl_extensions link);
}.

Lemma client_id_roundtrip id :
  length (cid_bytes id) = 32 -> Forall (fun b => b < 256)%N (cid_bytes id) ->
  client_id_from_str (client_id_to_string id) = Ok id.
Proof.
  intros Hl Hu. unfold client_id_from_str, client_id_to_string.
  destruct (lower_hex_ascii _ (hex_encode_lower _ Hu)) as [-> _].
  rewrite hex_encode_length, Hl, (hex_encode_lower _ Hu). simpl. rewrite hex_decode_encode by done.
  by destruct id.
Qed.

Lemma ascii_scalar text : Forall (fun c => c < 128)%N text -> Forall scalar text.
Proof. intros Ht. eapply Forall_impl; [exact Ht|]. intros c Hc. cbn beta in Hc. unfold scalar. lia. Qed.

Lemma return_roundtrip strategy text :
  (forall value, strategy = Return_Custom value ->
     check_return_url value = Ok tt /\ value <> lit "back" /\ value <> lit "none" /\
     Forall scalar value) ->
  return_text strategy = Ok text -> parse_return_strategy (Some text) = Ok strategy.
Proof.
  intros Hc. destruct strategy as [| |value]; cbn [return_text].
  - by intros [= <-].
  - by intros [= <-].
  - destruct (Hc value eq_refl) as (Hu & Hb & Hn & _). rewrite Hu. intros [= <-].
    unfold parse_return_strategy. rewrite !bool_decide_eq_false_2 by done. by rewrite Hu.
Qed.

Lemma return_text_total strategy :
  (forall value, strategy = Return_Custom value ->
     check_return_url value = Ok tt /\ value <> lit "back" /\ value <> lit "none" /\
     Forall scalar value) ->
  exists text, return_text strategy = Ok text /\ Forall scalar text.
Proof.
  intros Hc. destruct strategy as [| |value]; cbn [return_text];
    [eexists; split; [done|apply ascii_scalar; by repeat constructor]..|].
  destruct (Hc value eq_refl) as (-> & _ & _ & Hs). by exists value.
Qed.

(** The singleton parameters of a link. *)
Definition link_parameters (id : rstr) (request ret trace embedded : option rstr)
  : list (rstr * rstr) :=
  parameter "v" ((fun _ => LINK_PROTOCOL_VERSION) <$> request) ++ parameter "id" (Some id)
  ++ parameter "r" request ++ parameter "ret" ret ++ parameter "trace_id" trace
  ++ parameter "e" embedded.

Lemma link_parameters_get id request ret trace embedded :
  let pairs := link_parameters id request ret trace embedded in
  assoc_get (lit "id") pairs = Some id /\ assoc_get (lit "r") pairs = request /\
  assoc_get (lit "v") pairs = ((fun _ => LINK_PROTOCOL_VERSION) <$> request) /\
  assoc_get (lit "ret") pairs = ret /\ assoc_get (lit "trace_id") pairs = trace /\
  assoc_get (lit "e") pairs = embedded /\
  NoDup (map fst pairs) /\ Forall (fun pair => pair.1 ∈ known_parameters) pairs.
Proof.
  destruct request, ret, trace, embedded; repeat (split; [reflexivity|]);
    (split; [distinct_names|]); repeat (apply Forall_cons_2; [distinct_names|]); apply Forall_nil_2.
Qed.

Definition request_text (link : ConnectLink) : option rstr :=
  (fun r => value_to_string (connect_request_to_value r)) <$> cl_request link.

(** The embedded parameter of a valid link decodes to its request. *)
Lemma embedded_written link :
  valid_link link ->
  exists embedded,
    match cl_embedded_request link with
    | Some e => rmap Some (map_err InvalidEmbeddedRequest (encode_embedded_request_param e))
    | None => Ok None
    end = Ok embedded /\
    bool_decide (is_Some embedded) && negb (bool_decide (is_Some (request_text link))) = false /\
    (embedded ≫= fun parameter => result_ok (decode_embedded_request_param parameter))
      = cl_embedded_request link /\
    bool_decide (is_Some (cl_embedded_request link))
      && negb (bool_decide (is_Some (cl_request link))) = false /\
    from_option (Forall scalar) True embedded.
Proof.
  intros [_ _ Hemb _ _ _ _]. unfold request_text.
  destruct (cl_embedded_request link) as [e|]; [|by exists None].
  destruct (Hemb e eq_refl) as ([r ->] & Hv & body & Hw).
  destruct (embedded_param_roundtrip e body Hv Hw) as [-> Hd].
  exists (Some (url_safe_no_pad_encode body)). cbn. rewrite Hd. repeat (split; [done|]).
  apply ascii_scalar, url_safe_encode_ascii.
Qed.

Lemma request_read link :
  valid_link link ->
  match request_text link with
  | Some request =>
      rmap Some (map_err InvalidConnectRequest (decode_slice decode_ConnectRequest (utf8 request)))
  | None => Ok None
  end = Ok (cl_request link).
Proof.
  intros [_ Hreq _ _ _ _ _]. unfold request_text. destruct (cl_request link) as [r|]; [|done].
  destruct (Hreq r eq_refl) as (Hv & Hr & _). cbn [fmap option_fmap option_map].
  unfold decode_slice. rewrite Hr. cbn [rbind]. by rewrite wire_decode.
Qed.

Lemma trace_read link :
  valid_link link ->
  match cl_trace_id link with
  | Some trace => rmap Some (map_err InvalidValue (trace_id_try_from trace))
  | None => Ok None
  end = Ok (cl_trace_id link).
Proof.
  intros [_ _ _ _ Htrace _ _]. destruct (cl_trace_id link) as [trace|]; [|done].
  unfold trace_id_try_from, validated_string. by rewrite (proj1 (Htrace trace eq_refl)).
Qed.

(** The parser on the parameters that a valid link writes. *)
Lemma link_parse_parameters link text url ret embedded :
  valid_link link -> url_parse text = Some url ->
  url_query_pairs url
  = link_parameters (client_id_to_string (cl_client_id link)) (request_text link) (Some ret)
      (cl_trace_id link) embedded ++ cl_extensions link ->
  return_text (cl_return_strategy link) = Ok ret ->
  (embedded ≫= fun parameter => result_ok (decode_embedded_request_param parameter))
    = cl_embedded_request link ->
  bool_decide (is_Some (cl_embedded_request link))
    && negb (bool_decide (is_Some (cl_request link))) = false ->
  link_parse text = Ok link.
Proof.
  intros Hv Hu Hpairs Eret Hdec Hno. unfold link_parse. rewrite Hu. cbn [ok_or rbind]. rewrite Hpairs.
  set (pairs := link_parameters _ _ _ _ _).
  destruct (link_parameters_get (client_id_to_string (cl_client_id link)) (request_text link) (Some ret)
    (cl_trace_id link) embedded) as (Gid & Gr & Gv & Gret & Gt & Ge & Hd & Hk).
  fold pairs in Gid, Gr, Gv, Gret, Gt, Ge, Hd, Hk.
  rewrite (collect_parameters_ok (cl_extensions link) pairs [] [] Hd Hk (link_extensions _ Hv)).
  cbn [app rbind]. rewrite Gid. cbn [ok_or rbind].
  rewrite client_id_roundtrip by apply (link_client_id _ Hv). cbn [map_err rbind].
  rewrite Gr, Gv, Ge, Gret, Gt, Hdec, (return_roundtrip _ _ (link_return _ Hv) Eret), request_read by done.
  cbn [rbind].
  assert (match (fun _ : rstr => LINK_PROTOCOL_VERSION) <$> request_text link with
          | Some version => if negb (bool_decide (version = LINK_PROTOCOL_VERSION))
                            then Err (UnsupportedVersion version) else Ok tt
          | None => if bool_decide (is_Some (cl_request link)) then Err (MissingParameter "v") else Ok tt
          end = (Ok tt : result ConnectLinkError unit)) as ->
    by (unfold request_text; by destruct (cl_request link)).
  cbn [rbind]. rewrite Hno, trace_read by done. by destruct link.
Qed.

Lemma parameter_text name value :
  Forall scalar (lit name) -> from_option (Forall scalar) True value ->
  Forall (fun pair => Forall scalar pair.1 /\ Forall scalar pair.2) (parameter name value).
Proof. destruct value; simpl; repeat constructor; done. Qed.

Lemma link_parameters_text id request ret trace embedded :
  Forall scalar id -> from_option (Forall scalar) True request ->
  from_option (Forall scalar) True ret -> from_option (Forall scalar) True trace ->
  from_option (Forall scalar) True embedded ->
  Forall (fun pair => Forall scalar pair.1 /\ Forall scalar pair.2)
    (link_parameters id request ret trace embedded).
Proof.
  intros Hid Hr Hret Ht He. unfold link_parameters.
  assert (forall name, forallb (fun c => c <? 128)%N (lit name) = true -> Forall scalar (lit name)) as Hlit.
  { intros name Hn. apply ascii_scalar, Forall_forall. intros c Hc.
    rewrite forallb_forall in Hn. by apply N.ltb_lt, Hn, list_elem_of_In. }
  rewrite !Forall_app. repeat split; apply parameter_text; try done; try (by apply Hlit).
  destruct request; [by apply Hlit|done].
Qed.

Lemma client_id_text id :
  Forall (fun b => b < 256)%N (cid_bytes id) -> Forall scalar (client_id_to_string id).
Proof.
  intros Hu. unfold client_id_to_string. pose proof (hex_encode_lower _ Hu) as Hl.
  apply ascii_scalar, Forall_forall. intros c Hc. rewrite forallb_forall in Hl.
  apply hexdigit_ascii. unfold is_ascii_hexdigit. by rewrite (Hl c) by by apply list_elem_of_In.
Qed.

(** C34: connect links survive their URL: for a link whose parts are valid, written to a
    base URL without query and fragment, [to_url] succeeds and parsing the result gives
    the same link: client, connect request with all its items, return strategy, trace
    identifier, embedded request and unknown parameters in order. *)
Theorem connect_link_roundtrip link base_url base :
  valid_link link -> url_parse base_url = Some base -> url_has_query base = false ->
  url_fragment base = None ->
  exists url, link_to_url link base_url = Ok url /\ link_parse (url_as_str url) = Ok link.
Proof.
  intros Hv Hb Hq Hf. destruct (return_text_total _ (link_return _ Hv)) as (ret & Eret & Hret).
  destruct (embedded_written link Hv) as (embedded & He & Hno & Hdec & Hno' & Hemb).
  pose (pairs := link_parameters (client_id_to_string (cl_client_id link)) (request_text link) (Some ret)
                   (cl_trace_id link) embedded).
  exists (url_append_pairs base (pairs ++ cl_extensions link)). split.
  - unfold link_to_url. rewrite Hb. cbn [ok_or rbind]. rewrite Hq, Hf. cbn [orb].
    rewrite bool_decide_eq_false_2 by (by intros []). rewrite He. cbn [rbind]. fold (request_text link).
    rewrite Hno, Eret. cbn [rbind]. do 2 f_equal. unfold pairs, link_parameters.
    by rewrite <- !app_assoc.
  - eapply link_parse_parameters; [done|by apply (url_append_pairs_text base _ base_url)| |done..].
    apply url_append_pairs_query; [done..|]. apply Forall_app. split; [|apply (link_extensions_text _ Hv)].
    apply link_parameters_text; [apply client_id_text, (link_client_id _ Hv)| |done| |done].
    + unfold request_text. pose proof (link_request _ Hv) as Hr.
      destruct (cl_request link) as [r|]; [apply (Hr r eq_refl)|done].
    + pose proof (link_trace _ Hv) as Ht. destruct (cl_trace_id link) as [t|]; [apply (Ht t eq_refl)|done].
Qed.
End Links.

(** ** Telegram's substitutions *)

Fixpoint occurs (pattern s : rstr) : bool :=
  bool_decide (is_Some (strip_prefix pattern s))
  || match s with [] => false | _ :: rest => occurs pattern rest end.

(** No [&] stands before a character that is written with a dash. *)
Fixpoint separators_clear (s : rstr) : bool :=
  match s with
  | c :: (d :: _) as rest =>
      negb ((c =? 38)%N && bool_decide (d ∈ [38; 37; 45; 46; 95]%N)) && separators_clear rest
  | _ => true
  end.

Lemma replace_skip from to a rest :
  replace_from (length a) from to (a ++ rest) = replace_from 0 from to rest.
Proof. induction a as [|c a IH]; [by destruct rest|]. simpl. exact IH. Qed.

Lemma replace_match from to rest :
  from <> [] -> replace_from 0 from to (from ++ rest) = to ++ replace_from 0 from to rest.
Proof.
  intros Hf. destruct from as [|c from]; [done|]. cbn [app replace_from].
  rewrite bool_decide_eq_true_2 by (exists rest; by apply strip_prefix_Some).
  f_equal. cbn [length]. rewrite Nat.sub_succ, Nat.sub_0_r. apply replace_skip.
Qed.

Lemma replace_other from to c rest :
  strip_prefix from (c :: rest) = None ->
  replace_from 0 from to (c :: rest) = c :: replace_from 0 from to rest.
Proof.
  intros Hn. cbn [replace_from]. rewrite bool_decide_eq_false_2; [done|]. rewrite Hn. by intros [].
Qed.

(** *** Undoing the escapes *)

Section Unescape.
Context (f : char -> rstr) (p : rstr) (x : char).
Context (f_x : f x = 37%N :: p) (p_plain : Forall (fun c => c <> 37%N) p).
Context (f_other : forall c, c <> x -> f c = [c] \/
  exists t, f c = 37%N :: t /\ length t = length p /\ t <> p /\ Forall (fun c => c <> 37%N) t).

Lemma escaped_prefix t q :
  Forall (fun c => c <> 37%N) t -> is_Some (strip_prefix t (flat_map f q)) -> is_Some (strip_prefix t q).
Proof.
  assert (forall c, f c = [c] \/ exists u, f c = 37%N :: u) as Hf.
  { intros c. destruct (decide (c = x)) as [->|Hc]; [right; by exists p|].
    destruct (f_other c Hc) as [|(u & -> & _)]; [by left|right; by exists u]. }
  intros Ht. revert q. induction Ht as [|a t Ha _ IH]; intros q; [by exists q|].
  destruct q as [|c q]; [by intros [? ?]|]. cbn [flat_map]. destruct (Hf c) as [->|[u ->]]; cbn [app strip_prefix].
  - destruct (N.eqb_spec a c) as [->|]; [apply IH|by intros [? ?]].
  - destruct (N.eqb_spec a 37); [done|by intros [? ?]].
Qed.

Lemma replace_plain from to t rest :
  Forall (fun c => c <> 37%N) t ->
  replace_from 0 (37%N :: from) to (t ++ rest) = t ++ replace_from 0 (37%N :: from) to rest.
Proof.
  induction 1 as [|c t Hc _ IH]; [done|]. cbn [app]. rewrite replace_other; [by rewrite IH|].
  cbn [strip_prefix]. destruct (N.eqb_spec 37 c); congruence.
Qed.

Lemma same_length_prefix (a b rest : rstr) :
  length a = length b -> a <> b -> strip_prefix b (a ++ rest) = None.
Proof.
  intros Hl Hne. destruct (strip_prefix b (a ++ rest)) as [r|] eqn:E; [|done].
  apply strip_prefix_Some, app_inj_1 in E as [-> _]; done.
Qed.

Lemma unescape_step q :
  occurs (37%N :: p) q = false ->
  replace_from 0 (37%N :: p) [x] (flat_map f q) = flat_map (fun c => if (c =? x)%N then [x] else f c) q.
Proof.
  induction q as [|c q IH]; [done|]. cbn [occurs]. intros [Hp Hq]%orb_false_iff.
  specialize (IH Hq). cbn [flat_map]. destruct (N.eqb_spec c x) as [->|Hc].
  - rewrite f_x, replace_match by done. by rewrite IH.
  - destruct (f_other c Hc) as [->|(t & -> & Hl & Hne & Ht)]; cbn [app].
    + rewrite replace_other; [by rewrite IH|]. cbn [strip_prefix].
      destruct (N.eqb_spec 37 c) as [<-|]; [|done].
      destruct (strip_prefix p (flat_map f q)) eqn:E; [|done].
      apply bool_decide_eq_false in Hp. destruct Hp. cbn [strip_prefix].
      rewrite N.eqb_refl. apply escaped_prefix; [done|by rewrite E].
    + rewrite replace_other; [|cbn [strip_prefix]; by rewrite N.eqb_refl, same_length_prefix].
      rewrite replace_plain, IH by done. done.
Qed.
End Unescape.

(** The escapes of the first three substitutions. *)
Definition escape_char (c : char) : rstr :=
  if (c =? 46)%N then lit "%2E" else if (c =? 45)%N then lit "%2D"
  else if (c =? 95)%N then lit "%5F" else [c].

Lemma unescape_escaped q :
  occurs (lit "%5F") q = false -> occurs (lit "%2D") q = false -> occurs (lit "%2E") q = false ->
  replace_text "%2E" "." (replace_text "%2D" "-" (replace_text "%5F" "_" (flat_map escape_char q))) = q.
Proof.
  intros H5 HD HE. unfold replace_text.
  assert (forall c d, (c =? d)%N = false -> c <> d) as Hneq by (intros c d; apply N.eqb_neq).
  rewrite (unescape_step escape_char (lit "5F") 95%N); [|done|by repeat constructor| |done].
  2: { intros c Hc. unfold escape_char. destruct (c =? 46)%N; [right; by eexists; repeat constructor|].
       destruct (c =? 45)%N; [right; by eexists; repeat constructor|].
       rewrite (proj2 (N.eqb_neq _ _) Hc). by left. }
  rewrite (unescape_step (fun c => if (c =? 95)%N then [95%N] else escape_char c) (lit "2D") 45%N);
    [|done|by repeat constructor| |done].
  2: { intros c Hc. unfold escape_char. destruct (N.eqb_spec c 95) as [->|]; [by left|].
       destruct (c =? 46)%N; [right; by eexists; repeat constructor|].
       rewrite (proj2 (N.eqb_neq _ _) Hc). by left. }
  rewrite (unescape_step (fun c => if (c =? 45)%N then [45%N] else if (c =? 95)%N then [95%N]
    else escape_char c) (lit "2E") 46%N); [|done|by repeat constructor| |done].
  2: { intros c Hc. unfold escape_char. destruct (N.eqb_spec c 45) as [->|]; [by left|].
       destruct (N.eqb_spec c 95) as [->|]; [by left|].
       rewrite (proj2 (N.eqb_neq _ _) Hc). by left. }
  clear H5 HD HE. induction q as [|c q IH]; [done|]. cbn [flat_map]. rewrite IH. unfold escape_char.
  destruct (N.eqb_spec c 46) as [->|]; [done|]. destruct (N.eqb_spec c 45) as [->|]; [done|].
  by destruct (N.eqb_spec c 95) as [->|].
Qed.

(** *** Undoing the separators *)

Definition separator_char (c : char) : rstr :=
  if (c =? 38)%N then lit "-" else if (c =? 61)%N then lit "__"
  else if (c =? 37)%N then lit "--" else [c].

Definition escaped_text (s : rstr) : Prop := Forall (fun c => c <> 45%N /\ c <> 95%N) s.

(** No [&] stands before [&] or [%]. *)
Fixpoint ampersands_clear (s : rstr) : bool :=
  match s with
  | c :: (d :: _) as rest =>
      negb ((c =? 38)%N && ((d =? 38)%N || (d =? 37)%N)) && ampersands_clear rest
  | _ => true
  end.

Lemma separator_head d rest :
  d <> 45%N -> d <> 38%N -> d <> 37%N -> strip_prefix (lit "-") (separator_char d ++ rest) = None.
Proof.
  intros H1 H2 H3. unfold separator_char. rewrite (proj2 (N.eqb_neq _ _) H2), (proj2 (N.eqb_neq _ _) H3).
  destruct (d =? 61)%N; [done|]. cbn [app lit]. change (lit "-") with [45%N]. cbn [strip_prefix].
  by destruct (N.eqb_spec 45 d).
Qed.

Lemma undo_percent s :
  escaped_text s -> ampersands_clear s = true ->
  replace_text "--" "%" (flat_map separator_char s)
  = flat_map (fun c => if (c =? 37)%N then lit "%" else separator_char c) s.
Proof.
  unfold replace_text. change (lit "--") with [45%N; 45%N].
  induction 1 as [|c s [Hc _] Hs IH]; [done|]. intros Hclear.
  assert (ampersands_clear s = true) as Hclear'.
  { destruct s; [done|]. cbn [ampersands_clear] in Hclear. by apply andb_true_iff in Hclear as [_ ?]. }
  specialize (IH Hclear'). cbn [flat_map]. unfold separator_char at 1 3.
  destruct (N.eqb_spec c 38) as [->|H38].
  - cbn [app lit]. change (lit "-") with [45%N]. cbn [app]. rewrite replace_other; [by rewrite IH|].
    cbn [strip_prefix]. rewrite N.eqb_refl. destruct s as [|d s]; [done|].
    cbn [ampersands_clear] in Hclear. apply andb_true_iff in Hclear as [Hd _]. bool_to_prop.
    rewrite N.eqb_refl in Hd. cbn [andb] in Hd. apply orb_false_iff in Hd as [Hd1 Hd2].
    apply N.eqb_neq in Hd1, Hd2. apply Forall_cons_1 in Hs as [[Hd3 _] _].
    exact (separator_head d (flat_map separator_char s) Hd3 Hd1 Hd2).
  - destruct (N.eqb_spec c 61) as [->|H61].
    + change (lit "__" ++ flat_map separator_char s) with (95%N :: 95%N :: flat_map separator_char s).
      rewrite !replace_other by done. by rewrite IH.
    + destruct (N.eqb_spec c 37) as [->|H37].
      * change (lit "--") with [45%N; 45%N]. rewrite replace_match by done. by rewrite IH.
      * cbn [app]. rewrite replace_other; [by rewrite IH|]. cbn [strip_prefix].
        by destruct (N.eqb_spec 45 c).
Qed.

Lemma undo_equals s :
  escaped_text s ->
  replace_text "__" "=" (flat_map (fun c => if (c =? 37)%N then lit "%" else separator_char c) s)
  = flat_map (fun c => if (c =? 38)%N then lit "-" else [c]) s.
Proof.
  unfold replace_text. change (lit "__") with [95%N; 95%N]. change (lit "%") with [37%N].
  change (lit "-") with [45%N]. induction 1 as [|c s [_ Hc] _ IH]; [done|].
  cbn [flat_map]. destruct (N.eqb_spec c 37) as [->|H37].
  - cbn [app]. rewrite replace_other by done. by rewrite IH.
  - remember (separator_char c) as w eqn:Ew. unfold separator_char in Ew.
    destruct (N.eqb_spec c 38) as [->|H38].
    + subst w. cbn [app lit]. change (lit "-") with [45%N]. cbn [app]. rewrite replace_other by done. by rewrite IH.
    + destruct (N.eqb_spec c 61) as [->|H61].
      * subst w. change (lit "__") with [95%N; 95%N]. rewrite replace_match by done. by rewrite IH.
      * rewrite (proj2 (N.eqb_neq _ _) H37) in Ew. subst w. cbn [app].
        rewrite replace_other; [by rewrite IH|]. cbn [strip_prefix]. by destruct (N.eqb_spec 95 c).
Qed.

Lemma undo_ampersand s :
  escaped_text s ->
  replace_char 45%N (lit "&") (flat_map (fun c => if (c =? 38)%N then lit "-" else [c]) s) = s.
Proof.
  unfold replace_char. induction 1 as [|c s [Hc _] _ IH]; [done|]. cbn [flat_map].
  rewrite flat_map_app, IH. destruct (N.eqb_spec c 38) as [->|]; [done|]. cbn [flat_map app].
  by rewrite (proj2 (N.eqb_neq _ _) Hc).
Qed.

Lemma escape_text_clear q :
  separators_clear q = true ->
  escaped_text (flat_map escape_char q) /\ ampersands_clear (flat_map escape_char q) = true.
Proof.
  induction q as [|c q IH]; [intros _; split; [apply Forall_nil_2|done]|]. intros Hq.
  assert (separators_clear q = true) as Hq'.
  { destruct q; [done|]. cbn [separators_clear] in Hq. by apply andb_true_iff in Hq as [_ ?]. }
  destruct (IH Hq') as [He Ha]. cbn [flat_map].
  destruct (N.eqb_spec c 46) as [->|H46];
    [split; [by repeat constructor|]; cbn; by destruct (flat_map escape_char q)|].
  destruct (N.eqb_spec c 45) as [->|H45];
    [split; [by repeat constructor|]; cbn; by destruct (flat_map escape_char q)|].
  destruct (N.eqb_spec c 95) as [->|H95];
    [split; [by repeat constructor|]; cbn; by destruct (flat_map escape_char q)|].
  assert (escape_char c = [c]) as ->.
  { unfold escape_char. by rewrite !(proj2 (N.eqb_neq _ _)). }
  cbn [app]. split; [by constructor|].
  destruct q as [|d q]; [done|]. cbn [separators_clear] in Hq. apply andb_true_iff in Hq as [Hd _].
  cbn [flat_map] in *. destruct (escape_char d ++ flat_map escape_char q) as [|e rest] eqn:E; [done|].
  change (negb ((c =? 38)%N && ((e =? 38)%N || (e =? 37)%N)) && ampersands_clear (e :: rest) = true).
  rewrite Ha, andb_true_r. apply negb_true_iff in Hd. apply negb_true_iff.
  destruct (N.eqb_spec c 38); [|done]. cbn [andb] in *. apply bool_decide_eq_false in Hd.
  rewrite !not_elem_of_cons in Hd. destruct Hd as (D1 & D2 & D3 & D4 & D5 & _).
  unfold escape_char in E. rewrite !(proj2 (N.eqb_neq _ _)) in E by done. injection E as <- _.
  by rewrite !(proj2 (N.eqb_neq _ _)).
Qed.

Lemma encode_telegram_spec q :
  encode_telegram_url_parameters q = flat_map separator_char (flat_map escape_char q).
Proof.
  induction q as [|c q IH]; [done|]. cbn [flat_map]. rewrite flat_map_app, <- IH.
  unfold encode_telegram_url_parameters, replace_char. cbn [flat_map]. rewrite !flat_map_app. f_equal.
  unfold escape_char. destruct (N.eqb_spec c 46) as [->|H46]; [done|]. cbn [flat_map app].
  destruct (N.eqb_spec c 45) as [->|H45]; [done|]. cbn [flat_map app].
  destruct (N.eqb_spec c 95) as [->|H95]; [done|]. cbn [flat_map app]. unfold separator_char.
  destruct (N.eqb_spec c 38) as [->|H38]; [done|]. cbn [flat_map app].
  destruct (N.eqb_spec c 61) as [->|H61]; [done|]. cbn [flat_map app].
  by destruct (N.eqb_spec c 37) as [->|].
Qed.

(** Telegram's substitutions can be undone for every query in which no escape of a
    dot, dash or underscore is spelled out and no parameter name starts with a dot, dash,
    underscore, percent sign or separator; a query such as [a&_b] does not come back. *)
Theorem telegram_parameters_roundtrip :
  (forall q, separators_clear q = true -> occurs (lit "%5F") q = false ->
     occurs (lit "%2D") q = false -> occurs (lit "%2E") q = false ->
     decode_telegram_url_parameters (encode_telegram_url_parameters q) = q) /\
  decode_telegram_url_parameters (encode_telegram_url_parameters (lit "a&_b")) = lit "a%&5Fb".
Proof.
  split; [|reflexivity]. intros q Hc H5 HD HE. unfold decode_telegram_url_parameters.
  destruct (escape_text_clear q Hc) as [He Ha].
  rewrite encode_telegram_spec, undo_percent, undo_equals, undo_ampersand by done.
  by apply unescape_escaped.
Qed.
