(* ===== verification/Mnemonic.v ===== *)
(** * Recovery phrases and the keys behind them

    src/wallet/mnemonic.rs: the words of a BIP-39 half and their entropy, rotation
    phrases of one or two halves and the two foreign schemes that are only recognised;
    src/wallet/slip_0010.rs: Ed25519 key derivation; src/wallet/mnemonic_scheme.rs:
    scheme detection.  Hashes and curves are the classes [Sha256], [Sha512] and
    [Ed25519Keys]. *)

From Stdlib Require Import Sorted.
From stdpp Require Import base numbers list option strings.
From S2P Require Import Prelude BoundaryTypes SendDomain CellBocSpec ConnectSigning WordList.

(** ** Third-party code *)

(** SHA-512, HMAC and PBKDF2 over it. *)
Class Sha512 := {
  sha512 : bytes -> bytes;
  hmac_of_sha512 : bytes -> bytes -> bytes;
  pbkdf2_hmac_sha512 : bytes -> bytes -> N -> nat -> bytes;
  sha512_length data : length (sha512 data) = 64;
  hmac_sha512_length key data : length (hmac_of_sha512 key data) = 64;
  hmac_sha512_u8s key data : Forall (fun b => b < 256)%N (hmac_of_sha512 key data);
  pbkdf2_length password salt rounds size :
    length (pbkdf2_hmac_sha512 password salt rounds size) = size;
}.

(** [SigningKey]: the public key of a 32-byte secret, and its signatures. *)
Class Ed25519Keys `{Ed25519} := {
  verifying_key : bytes -> bytes;
  ed25519_sign : bytes -> bytes -> bytes;
  verifying_key_length secret : length (verifying_key secret) = 32;
  verifying_key_u8s secret : Forall (fun b => b < 256)%N (verifying_key secret);
  ed25519_sign_length secret message : length (ed25519_sign secret message) = 64;
  ed25519_sign_u8s secret message : Forall (fun b => b < 256)%N (ed25519_sign secret message);
  verify_sign secret message :
    verify_strict (verifying_key secret) message (ed25519_sign secret message) = Some true;
}.

(** ** Constants *)

Definition HALF_WORD_COUNT : nat := 12.
Definition ROTATION_WORD_COUNT : nat := HALF_WORD_COUNT * 2.
Definition ENTROPY_LEN : nat := 16.
Definition BIP39_24_WORD_COUNT : nat := 24.
Definition BIP39_24_ENTROPY_LEN : nat := 32.
Definition BITS_PER_WORD : nat := 11.
Definition CHECKSUM_BITS : N := 4.
(** [!(0xff_u8 >> CHECKSUM_BITS)]. *)
Definition CHECKSUM_MASK : N := N.lxor 255 (N.shiftr 255 CHECKSUM_BITS).
Definition SEED_LEN : nat := 64.
Definition SEED_ROUNDS : N := 2048.
Definition SEED_SALT_PREFIX : rstr := lit "mnemonic".

Inductive MnemonicError :=
  | WordCount (expected got : nat)
  | UnknownWord
  | Checksum
  | RotationWordCount (got : nat)
  | WordListError.

(** ** Words *)

Fixpoint position (word : rstr) (words : list rstr) : option nat :=
  match words with
  | [] => None
  | first :: rest =>
      if bool_decide (first = word) then Some 0 else S <$> position word rest
  end.

(** [binary_search] of the ascending list, as a [u16]. *)
Definition word_index (word : rstr) : option N := N.of_nat <$> position word WORDLIST.

(** [str::to_lowercase] as far as a word of the list can tell: the letters and the
    Kelvin sign are the only characters whose lowercase form is ASCII. *)
Definition lowercase_char (c : char) : char :=
  if (c =? 8490)%N then 107%N else to_ascii_lowercase c.

Definition to_lowercase (s : rstr) : rstr := map lowercase_char s.

Definition normalize_word (word : rstr) : rstr := to_lowercase (trim word).

(** [str::split_whitespace]. *)
Fixpoint split_whitespace_from (word : rstr) (s : rstr) : list rstr :=
  let flush := if is_empty word then [] else [reverse word] in
  match s with
  | [] => flush
  | c :: rest =>
      if is_whitespace c then flush ++ split_whitespace_from [] rest
      else split_whitespace_from (c :: word) rest
  end.

Definition split_whitespace (s : rstr) : list rstr := split_whitespace_from [] s.

(** [words.join(" ")]. *)
Fixpoint join_words (words : list rstr) : rstr :=
  match words with
  | [] => []
  | [word] => word
  | word :: rest => word ++ 32%N :: join_words rest
  end.

(** ** Packing

    Words are written eleven bits at a time, most significant first. *)

Definition set_bit (buf : bytes) (offset : nat) : bytes :=
  alter (fun byte => N.lor byte (N.shiftl 1 (7 - N.of_nat (offset mod 8)))) (offset / 8) buf.

Definition write_word (buf : bytes) (offset : nat) (value : N) : bytes :=
  foldl (fun buf bit =>
           if N.testbit value (N.of_nat (BITS_PER_WORD - 1 - bit)) then set_bit buf (offset + bit)
           else buf)
    buf (seq 0 BITS_PER_WORD).

Definition get_bit (buf : bytes) (offset : nat) : bool :=
  match buf !! (offset / 8) with
  | Some byte => N.testbit byte (7 - N.of_nat (offset mod 8))
  | None => false
  end.

Definition read_word (buf : bytes) (offset : nat) : N :=
  foldl (fun value bit => N.lor (N.shiftl value 1) (if get_bit buf (offset + bit) then 1 else 0))%N
    0%N (seq 0 BITS_PER_WORD).

(** The loop over the words of a phrase. *)
Fixpoint pack_words (buf : bytes) (index : nat) (words : list rstr) : option bytes :=
  match words with
  | [] => Some buf
  | word :: rest =>
      value ← word_index word;
      pack_words (write_word buf (index * BITS_PER_WORD) value) (S index) rest
  end.

Record Bip39Half := mkBip39Half { half_words : list rstr }.

Section Halves.
Context `{Sha256} `{Sha512}.

Definition checksum_byte (entropy : bytes) : N := default 0%N (head (sha256 entropy)).

Definition to_entropy (half : Bip39Half) : result MnemonicError bytes :=
  let? packed := ok_or UnknownWord (pack_words (repeat 0%N (ENTROPY_LEN + 1)) 0 (half_words half)) in
  let entropy := take ENTROPY_LEN packed in
  let actual := default 0%N (head (drop ENTROPY_LEN packed)) in
  if negb (N.land actual CHECKSUM_MASK =? N.land (checksum_byte entropy) CHECKSUM_MASK)%N
  then Err Checksum
  else Ok entropy.

Definition from_entropy (entropy : bytes) : result MnemonicError Bip39Half :=
  let packed := entropy ++ [N.land (checksum_byte entropy) CHECKSUM_MASK] in
  rmap mkBip39Half
    (ok_or WordListError
       (mapM (fun index => WORDLIST !! N.to_nat (read_word packed (index * BITS_PER_WORD)))
          (seq 0 HALF_WORD_COUNT))).

Definition half_new (words : list rstr) : result MnemonicError Bip39Half :=
  if negb (length words =? HALF_WORD_COUNT)%nat
  then Err (WordCount HALF_WORD_COUNT (length words))
  else
    let normalized := map normalize_word words in
    if existsb (fun word => bool_decide (word_index word = None)) normalized then Err UnknownWord
    else
      let half := mkBip39Half normalized in
      let? _ := to_entropy half in
      Ok half.

Definition to_phrase (half : Bip39Half) : rstr := join_words (half_words half).

Definition to_seed (half : Bip39Half) (passphrase : rstr) : bytes :=
  pbkdf2_hmac_sha512 (utf8 (to_phrase half)) (utf8 (SEED_SALT_PREFIX ++ passphrase)) SEED_ROUNDS
    SEED_LEN.

(** ** Rotation phrases *)

Record RotationMnemonic := mkRotationMnemonic { rm_anchor : Bip39Half; rm_signing : Bip39Half }.

Definition from_single_half (half : Bip39Half) : RotationMnemonic :=
  mkRotationMnemonic half (mkBip39Half (half_words half)).

Definition rotation_new (words : list rstr) : result MnemonicError RotationMnemonic :=
  if (length words =? HALF_WORD_COUNT)%nat then rmap from_single_half (half_new words)
  else if (length words =? ROTATION_WORD_COUNT)%nat
  then
    let? anchor := half_new (take HALF_WORD_COUNT words) in
    let? signing := half_new (drop HALF_WORD_COUNT words) in
    Ok (mkRotationMnemonic anchor signing)
  else Err (RotationWordCount (length words)).

Definition rotation_parse (phrase : rstr) : result MnemonicError RotationMnemonic :=
  rotation_new (split_whitespace phrase).

(** ** Foreign schemes *)

Definition is_bip39_24_phrase (words : list rstr) : bool :=
  if negb (length words =? BIP39_24_WORD_COUNT)%nat then false
  else
    match pack_words (repeat 0%N (BIP39_24_ENTROPY_LEN + 1)) 0 (map normalize_word words) with
    | None => false
    | Some packed =>
        bool_decide (head (drop BIP39_24_ENTROPY_LEN packed)
                     = Some (checksum_byte (take BIP39_24_ENTROPY_LEN packed)))
    end.

(** The legacy mnemonics of the vendored crate (vendor/ton/src/ton_wallet/mnemonic.rs). *)
Definition TON_PBKDF_ITERATIONS : N := 100000.

Definition mnemonic_hmac_key (words : list rstr) : bytes :=
  let phrase := utf8 (join_words words) in
  let key := if (128 <? length phrase)%nat then sha512 phrase else phrase in
  key ++ repeat 0%N (128 - length key).

Definition is_ton_mnemonic (words : list rstr) : bool :=
  let words := map normalize_word words in
  (length words =? 24)%nat
  && forallb (fun word => bool_decide (word ∈ mnemonic_wordlist)) words
  && bool_decide
       (head (pbkdf2_hmac_sha512 (hmac_of_sha512 (mnemonic_hmac_key words) [])
                (lit "TON seed version") (N.max 1 (TON_PBKDF_ITERATIONS / 256)) 64) = Some 0%N).

Inductive MnemonicScheme := Scheme_Rotation | Scheme_Ton | Scheme_Bip39.

#[export] Instance MnemonicScheme_eq_dec : EqDecision MnemonicScheme.
Proof. solve_decision. Defined.

Definition detect_mnemonic_schemes (words : list rstr) : list MnemonicScheme :=
  (match rotation_new words with Ok _ => [Scheme_Rotation] | Err _ => [] end)
  ++ (if is_ton_mnemonic words then [Scheme_Ton] else [])
  ++ (if is_bip39_24_phrase words then [Scheme_Bip39] else []).
End Halves.

(** ** SLIP-0010 *)

Definition PRIVATE_KEY_LEN : nat := 32.
Definition MASTER_KEY : bytes := lit "ed25519 seed".
Definition HARDENED_OFFSET : N := 2147483648.
Definition TON_ACCOUNT_PATH : list N := [44; 607; 0]%N.

Record ExtendedKey := mkExtendedKey { ek_private_key : bytes; ek_chain_code : bytes }.

(** [SigningKey]: its 32 secret bytes. *)
Record SigningKey := mkSigningKey { sk_bytes : bytes }.

Section Derivation.
Context `{Sha256} `{Sha512} `{Ed25519Keys}.

Definition hmac_sha512 (key : bytes) (parts : list bytes) : bytes :=
  hmac_of_sha512 key (concat parts).

Definition hmac_node (key : bytes) (parts : list bytes) : ExtendedKey :=
  let output := hmac_sha512 key parts in
  mkExtendedKey (take PRIVATE_KEY_LEN output) (drop PRIVATE_KEY_LEN output).

Definition master_key (seed : bytes) : ExtendedKey := hmac_node MASTER_KEY [seed].

Definition derive_hardened_child (parent : ExtendedKey) (index : N) : ExtendedKey :=
  hmac_node (ek_chain_code parent)
    [[0%N]; ek_private_key parent; be_bytes 4 (N.lor index HARDENED_OFFSET)].

Definition derive_path (seed : bytes) (path : list N) : ExtendedKey :=
  foldl derive_hardened_child (master_key seed) path.

Definition signing_key (extended : ExtendedKey) : SigningKey := mkSigningKey (ek_private_key extended).

(** crypto.rs: [derive_half_key]. *)
Definition derive_half_key (half : Bip39Half) : SigningKey :=
  signing_key (derive_path (to_seed half []) TON_ACCOUNT_PATH).
End Derivation.

(** * Recovery phrases and entropy determine each other *)

(** ** Bits of a buffer *)

Lemma offset_split p : p = 8 * (p / 8) + p mod 8 /\ p mod 8 < 8.
Proof. split; [apply Nat.div_mod_eq|by apply Nat.mod_upper_bound]. Qed.

Lemma length_set_bit buf o : length (set_bit buf o) = length buf.
Proof. apply length_alter. Qed.

Lemma get_set_bit buf o p :
  o < 8 * length buf -> get_bit (set_bit buf o) p = get_bit buf p || (p =? o)%nat.
Proof.
  intros Ho. destruct (offset_split p) as [Ep Hp], (offset_split o) as [Eo Hm].
  unfold get_bit, set_bit. destruct (decide (p / 8 = o / 8)) as [E|E].
  - destruct (lookup_lt_is_Some_2 buf (o / 8)) as [byte Hb]; [lia|].
    rewrite E, list_lookup_alter_eq, Hb. cbn [fmap option_fmap option_map].
    rewrite N.lor_spec. f_equal. rewrite N.shiftl_1_l, N.pow2_bits_eqb.
    destruct (Nat.eqb_spec p o) as [->|Hne]; [apply N.eqb_refl|]. apply N.eqb_neq. lia.
  - rewrite list_lookup_alter_ne by done. destruct (Nat.eqb_spec p o) as [->|]; [done|].
    by rewrite orb_false_r.
Qed.

Lemma length_write_word buf o v : length (write_word buf o v) = length buf.
Proof.
  unfold write_word. generalize (seq 0 BITS_PER_WORD). intros l. revert buf.
  induction l as [|i l IH]; intros buf; [done|]. cbn [foldl]. rewrite IH.
  destruct (N.testbit _ _); [apply length_set_bit|done].
Qed.

Definition in_word (o p : nat) : bool := ((o <=? p) && (p <? o + BITS_PER_WORD))%nat.

Lemma get_write_bits buf o v l p :
  (forall i, i ∈ l -> o + i < 8 * length buf) ->
  get_bit (foldl (fun buf bit =>
      if N.testbit v (N.of_nat (BITS_PER_WORD - 1 - bit)) then set_bit buf (o + bit) else buf) buf l) p
  = get_bit buf p
    || existsb (fun bit => N.testbit v (N.of_nat (BITS_PER_WORD - 1 - bit)) && (p =? o + bit)%nat) l.
Proof.
  revert buf. induction l as [|i l IH]; intros buf Hl; [by rewrite orb_false_r|].
  cbn [foldl existsb]. assert (o + i < 8 * length buf) by (apply Hl; left).
  destruct (N.testbit v (N.of_nat (BITS_PER_WORD - 1 - i))).
  - rewrite IH; [|intros j Hj; rewrite length_set_bit; apply Hl; by right].
    rewrite get_set_bit by done. by rewrite <- orb_assoc.
  - rewrite IH; [done|]. intros j Hj. apply Hl. by right.
Qed.

Lemma get_write_word buf o v p :
  o + BITS_PER_WORD <= 8 * length buf ->
  get_bit (write_word buf o v) p
  = get_bit buf p || (in_word o p && N.testbit v (N.of_nat (BITS_PER_WORD - 1 - (p - o)))).
Proof.
  intros Ho. unfold write_word. rewrite get_write_bits.
  2: { intros i Hi%elem_of_seq. lia. }
  f_equal. apply eq_bool_prop_intro. rewrite !Is_true_true, existsb_exists, andb_true_iff.
  unfold in_word. rewrite andb_true_iff, Nat.leb_le, Nat.ltb_lt. split.
  - intros (i & Hi%in_seq & [Hv Hp%Nat.eqb_eq]%andb_true_iff). subst p.
    split; [lia|]. by replace (o + i - o) with i by lia.
  - intros [Hp Hv]. exists (p - o). rewrite in_seq, andb_true_iff, Nat.eqb_eq. repeat split; [lia..|done|lia].
Qed.

(** Eleven bits make a number. *)
Lemma read_bits_testbit (f : nat -> bool) n i :
  N.testbit (foldl (fun value bit => N.lor (N.shiftl value 1) (if f bit then 1 else 0))%N 0%N (seq 0 n))
    (N.of_nat i) = (i <? n)%nat && f (n - 1 - i).
Proof.
  revert i. induction n as [|n IH]; intros i; [apply N.bits_0|].
  rewrite seq_S, foldl_app. cbn [foldl]. rewrite N.lor_spec. destruct i as [|i].
  - rewrite N.shiftl_spec_low by lia. cbn [orb Nat.ltb Nat.leb andb].
    replace (S n - 1 - 0) with n by lia. replace (0 + n) with n by lia. by destruct (f n).
  - rewrite N.shiftl_spec_high' by lia. replace (N.of_nat (S i) - 1)%N with (N.of_nat i) by lia.
    rewrite IH. replace (N.testbit (if f (0 + n) then 1 else 0) (N.of_nat (S i))) with false
      by (destruct (f (0 + n)); [by rewrite N.pow2_bits_false with (n := 0%N) by lia|by rewrite N.bits_0]).
    rewrite orb_false_r. change (S i <? S n)%nat with (i <? n)%nat. by replace (S n - 1 - S i) with (n - 1 - i) by lia.
Qed.

Lemma testbit_ext (a b : N) : (forall i, N.testbit a (N.of_nat i) = N.testbit b (N.of_nat i)) -> a = b.
Proof.
  intros Hb. apply N.bits_inj. intros i. specialize (Hb (N.to_nat i)). by rewrite N2Nat.id in Hb.
Qed.

Lemma testbit_small (a : N) n : (a < 2 ^ N.of_nat n)%N <-> (forall i, n <= i -> N.testbit a (N.of_nat i) = false).
Proof.
  split.
  - intros Ha i Hi. destruct (N.eq_0_gt_0_cases a) as [->|Hpos]; [apply N.bits_0|].
    apply N.bits_above_log2. apply N.log2_lt_pow2 in Ha; lia.
  - intros Hb. destruct (N.eq_0_gt_0_cases a) as [->|Hpos]; [apply N.neq_0_lt_0, N.pow_nonzero; lia|].
    apply N.log2_lt_pow2; [done|]. destruct (N.lt_ge_cases (N.log2 a) (N.of_nat n)) as [|Hge]; [done|].
    specialize (Hb (N.to_nat (N.log2 a)) ltac:(lia)). rewrite N2Nat.id, N.bit_log2 in Hb; [done|lia].
Qed.

Lemma read_word_testbit buf o i :
  N.testbit (read_word buf o) (N.of_nat i) = (i <? BITS_PER_WORD)%nat && get_bit buf (o + (BITS_PER_WORD - 1 - i)).
Proof. unfold read_word. by rewrite (read_bits_testbit (fun bit => get_bit buf (o + bit))). Qed.

Lemma read_word_small buf o : (read_word buf o < 2048)%N.
Proof.
  change 2048%N with (2 ^ N.of_nat BITS_PER_WORD)%N. apply testbit_small. intros i Hi.
  rewrite read_word_testbit. by rewrite (proj2 (Nat.ltb_ge _ _) Hi).
Qed.

(** Bytes are determined by their bits. *)
Lemma bytes_ext a b :
  length a = length b -> Forall (fun x => x < 256)%N a -> Forall (fun x => x < 256)%N b ->
  (forall p, p < 8 * length a -> get_bit a p = get_bit b p) -> a = b.
Proof.
  intros Hl Ha Hb Hp. apply list_eq_same_length with (n := length a); [done..|].
  intros i x y Hi Hx Hy. pose proof (Forall_lookup_1 _ _ _ _ Ha Hx) as Hsx.
  pose proof (Forall_lookup_1 _ _ _ _ Hb Hy) as Hsy. cbn beta in Hsx, Hsy.
  apply testbit_ext. intros k. destruct (decide (k < 8)) as [Hk|Hk].
  - specialize (Hp (8 * i + (7 - k)) ltac:(lia)). unfold get_bit in Hp.
    rewrite Nat.mul_comm, Nat.div_add_l, Nat.div_small, Nat.add_0_r, Hx, Hy in Hp by lia.
    rewrite Nat.add_comm, Nat.Div0.mod_add, Nat.mod_small in Hp by lia.
    by replace (7 - N.of_nat (7 - k))%N with (N.of_nat k) in Hp by lia.
  - change 256%N with (2 ^ N.of_nat 8)%N in Hsx, Hsy.
    rewrite (proj1 (testbit_small x 8) Hsx), (proj1 (testbit_small y 8) Hsy) by lia. done.
Qed.

Lemma set_bit_u8s buf o : Forall (fun x => x < 256)%N buf -> Forall (fun x => x < 256)%N (set_bit buf o).
Proof.
  intros Hb. apply Forall_alter; [done|]. intros x _ Hx. change 256%N with (2 ^ N.of_nat 8)%N in *.
  apply testbit_small. intros i Hi. rewrite N.lor_spec, N.shiftl_1_l, N.pow2_bits_eqb.
  rewrite (proj1 (testbit_small x 8) Hx i Hi). cbn [orb]. apply N.eqb_neq.
  pose proof (Nat.mod_upper_bound o 8). lia.
Qed.

Lemma write_word_u8s buf o v :
  Forall (fun x => x < 256)%N buf -> Forall (fun x => x < 256)%N (write_word buf o v).
Proof.
  unfold write_word. generalize (seq 0 BITS_PER_WORD). intros l. revert buf.
  induction l as [|i l IH]; intros buf Hb; [done|]. cbn [foldl]. apply IH.
  destruct (N.testbit _ _); [by apply set_bit_u8s|done].
Qed.

(** ** Words *)

Lemma position_Some word words i :
  position word words = Some i -> words !! i = Some word.
Proof.
  revert i. induction words as [|first words IH]; intros i; [done|]. cbn [position].
  destruct (bool_decide_reflect (first = word)) as [->|]; [by intros [= <-]|].
  intros (j & Hj & ->)%fmap_Some. by apply IH.
Qed.

Lemma position_lookup word words i :
  NoDup words -> words !! i = Some word -> position word words = Some i.
Proof.
  intros Hd. revert i. induction Hd as [|first words Hn _ IH]; intros i; [done|]. cbn [position].
  destruct i as [|i]; cbn [lookup list_lookup].
  - intros [= ->]. by rewrite bool_decide_eq_true_2.
  - intros Hi. rewrite bool_decide_eq_false_2, (IH i Hi); [done|]. intros ->.
    apply Hn. by apply list_elem_of_lookup_2 in Hi.
Qed.

Lemma wordlist_NoDup : NoDup WORDLIST.
Proof.
  pose proof wordlist_sorted as Hs. induction Hs as [|word words _ IH Hall]; [constructor|].
  constructor; [|done]. intros Hin. rewrite Forall_forall in Hall. exact (str_lt_irrefl word (Hall _ Hin)).
Qed.

Lemma word_index_Some word v :
  word_index word = Some v <-> WORDLIST !! N.to_nat v = Some word.
Proof.
  unfold word_index. rewrite fmap_Some. split.
  - intros (i & Hi%position_Some & ->). by rewrite Nat2N.id.
  - intros Hv%position_lookup; [|exact wordlist_NoDup]. exists (N.to_nat v). by rewrite N2Nat.id.
Qed.

Lemma word_index_small word v : word_index word = Some v -> (v < 2048)%N.
Proof.
  intros Hv%word_index_Some%lookup_lt_Some. rewrite wordlist_length in Hv. unfold WORDLIST_LEN in Hv. lia.
Qed.

Lemma wordlist_read (v : N) : (v < 2048)%N -> exists word, WORDLIST !! N.to_nat v = Some word.
Proof. intros Hv. apply lookup_lt_is_Some_2. rewrite wordlist_length. unfold WORDLIST_LEN. lia. Qed.

(** Words of the list are their own normal form. *)
Lemma normalize_listed word : word ∈ WORDLIST -> normalize_word word = word.
Proof.
  intros [_ Hl]%wordlist_letters. rewrite forallb_forall in Hl.
  assert (forall c, c ∈ word -> (97 <= c <= 122)%N) as Hc.
  { intros c Hc%list_elem_of_In%Hl. unfold is_lowercase_letter in Hc. bool_to_prop. lia. }
  assert (forall c, c ∈ word -> is_whitespace c = false) as Hw.
  { intros c Hin%Hc. unfold is_whitespace. repeat (apply orb_false_iff; split);
      first [apply N.eqb_neq; lia | apply andb_false_iff; rewrite !N.leb_gt; lia]. }
  unfold normalize_word, to_lowercase. rewrite trim_fixed.
  2: { intros c t ->. apply Hw. left. }
  2: { intros c t ->. apply Hw, elem_of_app. right. by left. }
  rewrite <- (map_id word) at 2. apply map_ext_in. intros c Hin%list_elem_of_In%Hc.
  unfold lowercase_char, to_ascii_lowercase. rewrite (proj2 (N.eqb_neq _ _)) by lia.
  by rewrite (proj2 (N.leb_gt c 90)) by lia; rewrite andb_false_r.
Qed.

(** Only the lemmas above look into the list. *)
#[local] Opaque WORDLIST word_index.

(** ** Packed phrases *)

Definition word_bit (words : list rstr) (p : nat) : bool :=
  match words !! (p / BITS_PER_WORD) ≫= word_index with
  | Some v => N.testbit v (N.of_nat (BITS_PER_WORD - 1 - p mod BITS_PER_WORD))
  | None => false
  end.

Lemma word_bit_cons word words v p :
  word_index word = Some v ->
  word_bit (word :: words) p
  = if (p <? BITS_PER_WORD)%nat then N.testbit v (N.of_nat (BITS_PER_WORD - 1 - p))
    else word_bit words (p - BITS_PER_WORD).
Proof.
  intros Hv. unfold word_bit. destruct (Nat.ltb_spec p BITS_PER_WORD) as [Hp|Hp].
  - rewrite Nat.div_small, Nat.mod_small by done. cbn [lookup list_lookup mbind option_bind]. by rewrite Hv.
  - assert (p = p - BITS_PER_WORD + 1 * BITS_PER_WORD) as Ep by (unfold BITS_PER_WORD in *; lia).
    remember (p - BITS_PER_WORD) as q eqn:Eq. clear Eq. subst p.
    rewrite Nat.div_add, Nat.Div0.mod_add by done. by rewrite Nat.add_1_r.
Qed.

Lemma pack_words_spec words buf index packed :
  pack_words buf index words = Some packed ->
  (index + length words) * BITS_PER_WORD <= 8 * length buf ->
  Forall (fun x => x < 256)%N buf ->
  length packed = length buf /\ Forall (fun x => x < 256)%N packed /\
  forall p, get_bit packed p
            = get_bit buf p || ((index * BITS_PER_WORD <=? p)%nat && word_bit words (p - index * BITS_PER_WORD)).
Proof.
  revert buf index. induction words as [|word words IH]; intros buf index; cbn [pack_words length].
  - intros [= <-] _ Hb. split; [done|]. split; [done|]. intros p. unfold word_bit.
    by rewrite lookup_nil, andb_false_r, orb_false_r.
  - intros (v & Hv & Hk)%bind_Some Hl Hb.
    destruct (IH _ _ Hk) as (Hlen & Hu & Hbits); [rewrite length_write_word; lia|by apply write_word_u8s|].
    rewrite length_write_word in Hlen. split; [done|]. split; [done|]. intros p.
    rewrite Hbits, get_write_word by lia. rewrite <- orb_assoc. f_equal.
    rewrite (word_bit_cons _ _ v) by done. unfold in_word.
    destruct (Nat.leb_spec (index * BITS_PER_WORD) p), (Nat.leb_spec (S index * BITS_PER_WORD) p),
      (Nat.ltb_spec p (index * BITS_PER_WORD + BITS_PER_WORD)),
      (Nat.ltb_spec (p - index * BITS_PER_WORD) BITS_PER_WORD); cbn [andb orb]; try lia; try done.
    + f_equal. lia.
    + by rewrite orb_false_r.
Qed.

Lemma pack_words_known words buf index :
  Forall (fun word => is_Some (word_index word)) words -> is_Some (pack_words buf index words).
Proof.
  intros Hw. revert buf index. induction Hw as [|word words [v Hv] _ IH]; intros buf index; [by eexists|].
  cbn [pack_words]. rewrite Hv. apply IH.
Qed.

Lemma pack_words_only_known words buf index packed :
  pack_words buf index words = Some packed -> Forall (fun word => is_Some (word_index word)) words.
Proof.
  revert buf index. induction words as [|word words IH]; intros buf index Hw; [constructor|].
  cbn [pack_words] in Hw. apply bind_Some in Hw as (v & Hv & Hw).
  constructor; [by exists v|exact (IH _ _ Hw)].
Qed.

Lemma zero_bit n p : get_bit (repeat 0%N n) p = false.
Proof.
  unfold get_bit. destruct (repeat 0%N n !! (p / 8)) as [b|] eqn:E; [|done].
  apply list_elem_of_lookup_2, list_elem_of_In, repeat_spec in E as ->. apply N.bits_0.
Qed.

(** What packing the twelve words of a half gives. *)
Lemma pack_half words packed :
  length words = HALF_WORD_COUNT -> pack_words (repeat 0%N (ENTROPY_LEN + 1)) 0 words = Some packed ->
  length packed = 17 /\ Forall (fun x => x < 256)%N packed /\ forall p, get_bit packed p = word_bit words p.
Proof.
  intros Hl Hp. destruct (pack_words_spec _ _ _ _ Hp) as (Hlen & Hu & Hb);
    [rewrite Hl, repeat_length; cbv; lia|by repeat constructor|].
  rewrite repeat_length in Hlen. split; [done|]. split; [done|]. intros p.
  rewrite Hb, zero_bit. cbn [orb Nat.mul Nat.leb andb]. by rewrite Nat.sub_0_r.
Qed.

Lemma mask_bit (c : N) i :
  (c < 256)%N -> i < 8 -> N.testbit (N.land c CHECKSUM_MASK) (N.of_nat i) = N.testbit c (N.of_nat i) && (4 <=? i)%nat.
Proof.
  intros _ Hi. rewrite N.land_spec. f_equal. do 8 (destruct i as [|i]; [reflexivity|]). lia.
Qed.

Section Entropy.
Context `{Sha256}.

Definition is_entropy (e : bytes) : Prop :=
  length e = ENTROPY_LEN /\ Forall (fun b => b < 256)%N e.

Lemma checksum_byte_u8 e : (checksum_byte e < 256)%N.
Proof.
  unfold checksum_byte. pose proof (sha256_u8s e) as Hu. destruct (sha256 e) as [|b rest]; [done|].
  by apply Forall_cons_1 in Hu as [? _].
Qed.

(** The bytes that the words of some entropy encode. *)
Definition packed_entropy (e : bytes) : bytes := e ++ [N.land (checksum_byte e) CHECKSUM_MASK].

Lemma packed_entropy_facts e :
  is_entropy e ->
  length (packed_entropy e) = 17 /\ Forall (fun b => b < 256)%N (packed_entropy e) /\
  forall p, 132 <= p < 136 -> get_bit (packed_entropy e) p = false.
Proof.
  intros [Hl Hu]. unfold packed_entropy. rewrite length_app, Hl. split; [done|]. split.
  - apply Forall_app. split; [done|]. constructor; [|constructor].
    change 256%N with (2 ^ N.of_nat 8)%N. apply testbit_small. intros i Hi. rewrite N.land_spec.
    rewrite (proj1 (testbit_small (checksum_byte e) 8) (checksum_byte_u8 e) i Hi). done.
  - intros p Hp. unfold get_bit. assert (p / 8 = 16) as -> by (symmetry; apply (Nat.div_unique p 8 16 (p - 128)); lia).
    rewrite (lookup_app_r e) by (rewrite Hl; cbv; lia). rewrite Hl. change (16 - ENTROPY_LEN) with 0. cbn [lookup list_lookup].
    assert (p mod 8 = p - 128) as -> by (symmetry; apply (Nat.mod_unique p 8 16 (p - 128)); lia).
    replace (7 - N.of_nat (p - 128))%N with (N.of_nat (135 - p)) by lia.
    rewrite mask_bit by (first [apply checksum_byte_u8|lia]).
    rewrite (proj2 (Nat.leb_gt 4 (135 - p))) by lia. apply andb_false_r.
Qed.

Lemma masked_again e : is_entropy e ->
  N.land (N.land (checksum_byte e) CHECKSUM_MASK) CHECKSUM_MASK = N.land (checksum_byte e) CHECKSUM_MASK.
Proof. intros _. by rewrite <- N.land_assoc, N.land_diag. Qed.

(** The bits of words read from a buffer are the bits of the buffer. *)
Lemma read_words_bit buf words p :
  length words = HALF_WORD_COUNT ->
  (forall i word, words !! i = Some word ->
     word_index word = Some (read_word buf (i * BITS_PER_WORD))) ->
  p < 132 -> word_bit words p = get_bit buf p.
Proof.
  intros Hl Hw Hp. unfold word_bit.
  assert (p / BITS_PER_WORD < 12) as Hd by (apply Nat.Div0.div_lt_upper_bound; cbv [BITS_PER_WORD]; lia).
  destruct (lookup_lt_is_Some_2 words (p / BITS_PER_WORD)) as [word Hword]; [by rewrite Hl|].
  rewrite Hword. cbn [mbind option_bind]. rewrite (Hw _ _ Hword), read_word_testbit.
  pose proof (Nat.mod_upper_bound p BITS_PER_WORD ltac:(done)) as Hm.
  rewrite (proj2 (Nat.ltb_lt _ _)) by lia. cbn [andb]. f_equal.
  pose proof (Nat.div_mod_eq p BITS_PER_WORD). lia.
Qed.

Lemma half_encoded e : is_entropy e ->
  exists half, from_entropy e = Ok half /\ length (half_words half) = HALF_WORD_COUNT /\
    Forall (fun word => word ∈ WORDLIST) (half_words half) /\
    pack_words (repeat 0%N (ENTROPY_LEN + 1)) 0 (half_words half) = Some (packed_entropy e).
Proof.
  intros He. unfold from_entropy. fold (packed_entropy e).
  destruct (mapM (fun index => WORDLIST !! N.to_nat (read_word (packed_entropy e) (index * BITS_PER_WORD)))
    (seq 0 HALF_WORD_COUNT)) as [words|] eqn:Em.
  2: { exfalso. apply mapM_None_1, Exists_exists in Em as (i & _ & Hi).
       destruct (wordlist_read (read_word (packed_entropy e) (i * BITS_PER_WORD)) (read_word_small _ _))
         as [word Hw]. congruence. }
  apply mapM_Some_1 in Em. assert (length words = HALF_WORD_COUNT) as Hl
    by (apply Forall2_length in Em; by rewrite <- Em).
  assert (forall i word, words !! i = Some word ->
    WORDLIST !! N.to_nat (read_word (packed_entropy e) (i * BITS_PER_WORD)) = Some word) as Hw.
  { intros i word Hi. destruct (Forall2_lookup_r _ _ _ _ _ Em Hi) as (j & Hj & Hjw).
    apply lookup_seq in Hj as [-> _]. done. }
  exists (mkBip39Half words). split; [done|]. split; [done|]. cbn [half_words]. split.
  { apply Forall_forall. intros word (i & Hi)%list_elem_of_lookup_1.
    by apply Hw, list_elem_of_lookup_2 in Hi. }
  destruct (pack_words_known words (repeat 0%N (ENTROPY_LEN + 1)) 0) as [packed Hp].
  { apply Forall_forall. intros word (i & Hi)%list_elem_of_lookup_1. eexists.
    apply word_index_Some. by apply Hw. }
  rewrite Hp. f_equal. destruct (pack_half _ _ Hl Hp) as (Hpl & Hpu & Hpb).
  destruct (packed_entropy_facts e He) as (Hel & Heu & Hez).
  apply bytes_ext; [by rewrite Hel|done..|]. intros p Hlt. rewrite Hpb.
  destruct (decide (p < 132)) as [Hlow|Hhigh].
  - apply read_words_bit; [done| |done]. intros i word Hi. by apply word_index_Some, Hw.
  - rewrite Hez by lia. unfold word_bit.
    rewrite lookup_ge_None_2; [done|]. rewrite Hl. apply Nat.div_le_lower_bound; cbv [BITS_PER_WORD HALF_WORD_COUNT]; lia.
Qed.

Lemma packed_entropy_split e : is_entropy e ->
  take ENTROPY_LEN (packed_entropy e) = e /\
  default 0%N (head (drop ENTROPY_LEN (packed_entropy e))) = N.land (checksum_byte e) CHECKSUM_MASK.
Proof.
  intros [Hl _]. unfold packed_entropy. rewrite <- Hl. by rewrite take_app_length, drop_app_length.
Qed.

Lemma entropy_decoded e half : is_entropy e ->
  pack_words (repeat 0%N (ENTROPY_LEN + 1)) 0 (half_words half) = Some (packed_entropy e) ->
  to_entropy half = Ok e.
Proof.
  intros He Hp. unfold to_entropy. rewrite Hp. cbn [ok_or rbind].
  destruct (packed_entropy_split e He) as [-> ->]. by rewrite masked_again, N.eqb_refl.
Qed.

(** A half that decodes comes from its entropy. *)
Lemma decoded_entropy half e :
  length (half_words half) = HALF_WORD_COUNT -> to_entropy half = Ok e ->
  is_entropy e /\ pack_words (repeat 0%N (ENTROPY_LEN + 1)) 0 (half_words half) = Some (packed_entropy e).
Proof.
  intros Hl Hd. unfold to_entropy in Hd. apply rbind_ok in Hd as (packed & Hp%ok_or_ok & Hd).
  apply if_err_ok in Hd as [Hc [= <-]]. bool_to_prop.
  destruct (pack_half _ _ Hl Hp) as (Hpl & Hpu & Hpb).
  assert (is_entropy (take ENTROPY_LEN packed)) as He.
  { split; [rewrite length_take, Hpl; done|by apply Forall_take]. }
  split; [done|]. rewrite Hp. f_equal. destruct (packed_entropy_facts _ He) as (Hel & Heu & Hez).
  unfold packed_entropy. rewrite <- Hc. rewrite <- (take_drop ENTROPY_LEN packed) at 1. f_equal.
  destruct (drop ENTROPY_LEN packed) as [|last rest] eqn:Ed;
    [apply (f_equal length) in Ed; rewrite length_drop, Hpl in Ed; done|].
  destruct rest; [|apply (f_equal length) in Ed; rewrite length_drop, Hpl in Ed; done].
  cbn [head from_option id]. f_equal. assert (packed !! 16 = Some last) as Hlast.
  { rewrite <- (Nat.add_0_r 16), <- lookup_drop. change 16 with ENTROPY_LEN. by rewrite Ed. }
  pose proof (Forall_lookup_1 _ _ _ _ Hpu Hlast) as Hsmall. cbn beta in Hsmall.
  apply testbit_ext. intros i. destruct (decide (i < 8)) as [Hi|Hi].
  - rewrite mask_bit by done. destruct (Nat.leb_spec 4 i) as [|Hlow]; [by rewrite andb_true_r|].
    rewrite andb_false_r. specialize (Hpb (128 + (7 - i))). unfold get_bit in Hpb.
    assert ((128 + (7 - i)) / 8 = 16) as E8 by (symmetry; apply (Nat.div_unique _ 8 16 (7 - i)); lia).
    assert ((128 + (7 - i)) mod 8 = 7 - i) as Em8 by (symmetry; apply (Nat.mod_unique _ 8 16 (7 - i)); lia).
    rewrite E8, Em8, Hlast in Hpb. replace (7 - N.of_nat (7 - i))%N with (N.of_nat i) in Hpb by lia.
    rewrite Hpb. unfold word_bit. rewrite lookup_ge_None_2; [done|]. rewrite Hl.
    apply Nat.div_le_lower_bound; cbv [BITS_PER_WORD HALF_WORD_COUNT]; lia.
  - change 256%N with (2 ^ N.of_nat 8)%N in Hsmall. rewrite N.land_spec.
    by rewrite (proj1 (testbit_small last 8) Hsmall) by lia.
Qed.

Lemma half_decoded half e :
  length (half_words half) = HALF_WORD_COUNT -> to_entropy half = Ok e -> from_entropy e = Ok half.
Proof.
  intros Hl Hd. destruct (decoded_entropy half e Hl Hd) as [He Hp].
  destruct (half_encoded e He) as (half' & Hf & Hl' & Hin & Hp'). rewrite Hf. f_equal.
  destruct half as [words], half' as [words']. cbn [half_words] in *. f_equal.
  destruct (pack_half _ _ Hl Hp) as (_ & _ & Hb), (pack_half _ _ Hl' Hp') as (_ & _ & Hb').
  symmetry. apply list_eq_same_length with (n := HALF_WORD_COUNT); [done..|].
  intros i word word' Hi Hw Hw'.
  destruct (Forall_lookup_1 _ _ _ _ (pack_words_only_known _ _ _ _ Hp) Hw) as [v Hv].
  destruct (Forall_lookup_1 _ _ _ _ (pack_words_only_known _ _ _ _ Hp') Hw') as [v' Hv'].
  assert (v = v') as ->; [|apply word_index_Some in Hv, Hv'; congruence].
  apply testbit_ext. intros k. destruct (decide (k < BITS_PER_WORD)) as [Hk|Hk].
  - specialize (Hb (i * BITS_PER_WORD + (BITS_PER_WORD - 1 - k))).
    specialize (Hb' (i * BITS_PER_WORD + (BITS_PER_WORD - 1 - k))).
    rewrite Hb in Hb'. unfold word_bit in Hb'.
    rewrite Nat.div_add_l, Nat.div_small, Nat.add_0_r in Hb' by (cbv [BITS_PER_WORD] in *; lia).
    rewrite Hw, Hw' in Hb'. cbn [mbind option_bind] in Hb'. rewrite Hv, Hv' in Hb'.
    rewrite Nat.add_comm, Nat.Div0.mod_add, Nat.mod_small in Hb' by (cbv [BITS_PER_WORD] in *; lia).
    by replace (BITS_PER_WORD - 1 - (BITS_PER_WORD - 1 - k)) with k in Hb' by lia.
  - apply word_index_small in Hv, Hv'. change 2048%N with (2 ^ N.of_nat BITS_PER_WORD)%N in Hv, Hv'.
    rewrite (proj1 (testbit_small v _) Hv), (proj1 (testbit_small v' _) Hv') by lia. done.
Qed.

Lemma listed_index word : word ∈ WORDLIST -> word_index word <> None.
Proof.
  intros (i & Hi)%list_elem_of_lookup_1 Hn. rewrite <- (Nat2N.id i) in Hi.
  apply word_index_Some in Hi. congruence.
Qed.

Lemma half_new_spec words half :
  half_new words = Ok half <->
  length words = HALF_WORD_COUNT /\ half_words half = map normalize_word words /\
  Forall (fun word => word ∈ WORDLIST) (half_words half) /\ exists e, to_entropy half = Ok e.
Proof.
  unfold half_new. split.
  - intros [Hl Hk]%if_err_ok. bool_to_prop. apply Nat.eqb_eq in Hl. apply if_err_ok in Hk as [Hk Hd].
    apply rbind_ok in Hd as (e & He & [= <-]). split; [done|]. split; [done|]. split; [|by exists e].
    apply Forall_forall. intros word Hw.
    destruct (word_index word) as [v|] eqn:Ev; [by apply word_index_Some, list_elem_of_lookup_2 in Ev|].
    exfalso. apply not_true_iff_false in Hk. apply Hk, existsb_exists. exists word.
    split; [by apply list_elem_of_In|]. by apply bool_decide_eq_true_2.
  - intros (Hl & Hn & Hin & e & He). rewrite Hl. cbn [Nat.eqb HALF_WORD_COUNT negb].
    destruct (existsb _ (map normalize_word words)) eqn:Ex.
    + apply existsb_exists in Ex as (word & Hw & Hb%bool_decide_eq_true). exfalso.
      apply (listed_index word); [|done]. rewrite Forall_forall in Hin. apply Hin.
      rewrite Hn. by apply list_elem_of_In.
    + rewrite <- Hn. destruct half as [ws]. cbn [half_words] in *. by rewrite He.
Qed.

(** The words of some entropy are accepted as entered. *)
Lemma encoded_half_accepted e : is_entropy e ->
  exists half, from_entropy e = Ok half /\ half_new (half_words half) = Ok half /\ to_entropy half = Ok e.
Proof.
  intros He. destruct (half_encoded e He) as (half & Hf & Hl & Hin & Hp). exists half.
  pose proof (entropy_decoded e half He Hp) as Hd. split; [done|]. split; [|done].
  apply half_new_spec. split; [done|]. split; [|split; [done|by exists e]].
  rewrite <- (map_id (half_words half)) at 1. apply map_ext_in. intros word Hw%list_elem_of_In.
  rewrite Forall_forall in Hin. by rewrite normalize_listed by by apply Hin.
Qed.

(** C25: recovery phrases and entropy determine each other: every 128-bit entropy encodes
    to a half that is accepted as entered and decodes to that entropy, and every accepted
    half is the encoding of its own entropy; its words, and only they, decide the key. *)
Theorem phrase_entropy_bijection :
  (forall e, is_entropy e ->
     exists half, from_entropy e = Ok half /\ half_new (half_words half) = Ok half /\ to_entropy half = Ok e) /\
  (forall words half, half_new words = Ok half ->
     exists e, is_entropy e /\ to_entropy half = Ok e /\ from_entropy e = Ok half).
Proof.
  split; [exact encoded_half_accepted|].
  intros words half (Hl & Hn & _ & e & He)%half_new_spec.
  assert (length (half_words half) = HALF_WORD_COUNT) as Hl' by (by rewrite Hn, length_map).
  exists e. split; [by apply (decoded_entropy half)|]. split; [done|by apply half_decoded].
Qed.
End Entropy.
