(* ===== verification/WalletContract.v ===== *)
(** * The wallet contract on the wire

    The cells that the engine exchanges with Wallet rev00: its storage and initial
    state, the signed requests with one message or a linked array of messages, and the
    messages around them (vendor/ton/src/ton_wallet).  Cells are the class [TonCells];
    states and messages of the ton crate are [TonStates] and [TonMessages]. *)

From stdpp Require Import base numbers list option strings.
From S2P Require Import Prelude BoundaryTypes SendDomain ClientDomain CellBoc CellBocSpec.
From S2P Require Import ConnectValues ConnectSigning ConnectWalletState ConnectSigningSpec.

(** ** Third-party code *)

(** Bags of cells and [StateInit] values; a new state has code and data and nothing
    else. *)
Class TonStates `{TonCells} `{Crc32c} `{HexCrate} := {
  StateInit : Type;
  state_init_new : Cell -> Cell -> StateInit;
  state_init_to_cell : StateInit -> option Cell;
  state_init_from_boc : bytes -> option StateInit;
  cell_to_boc : Cell -> option bytes;
  wallet_code : Cell;
  state_init_new_cell code data :
    state_init_to_cell (state_init_new code data)
    = build_cell [false; false; true; true; false] [code; data];
  build_cell_ordinary bits refs c : build_cell bits refs = Some c -> cell_ordinary c = true;
  cell_hash_length c hash : cell_hash c = Some hash -> length hash = 32;
  cell_hash_u8s c hash : cell_hash c = Some hash -> Forall (fun b => b < 256)%N hash;
  cell_to_boc_u8s c data : cell_to_boc c = Some data -> Forall (fun b => b < 256)%N data;
  cell_to_boc_root c data : cell_to_boc c = Some data -> parse_root_cell data = Some c;
  wallet_code_hash : exists hash, cell_hash wallet_code = Some hash /\
    hex_encode hash = lit "9149ae51c1e4689710cebf7830297b16acfbadb363a920a537893e7ffeeca768";
}.

(** [CommonMsgInfo]: an incoming external message, an internal message, or another one.
    Addresses with an anycast prefix are [None]. *)
Inductive CommonMsgInfo :=
  | Info_ExtIn (dst : option MsgAddressInt)
  | Info_Int (dst : option MsgAddressInt) (value : N) (bounce : bool)
  | Info_Other.

Record Msg `{TonStates} := mkMsg {
  msg_info : CommonMsgInfo;
  msg_init : option StateInit;
  msg_body : Cell;
}.

Arguments mkMsg {_ _ _ _ _} msg_info msg_init msg_body.

(** [Msg::to_cell] and [Msg::from_cell], the hash of a normalized message, the conversion
    of addresses and the empty cell. *)
Class TonMessages `{TonStates} := {
  to_msg_address_int : TonAddress -> MsgAddressInt;
  msg_to_cell : Msg -> option Cell;
  msg_from_cell : Cell -> option Msg;
  cell_hash_normalized : Msg -> option bytes;
  empty_cell_of : Cell;
  msg_from_to m c : msg_to_cell m = Some c -> msg_from_cell c = Some m;
}.

(** ** Storage and state *)

Definition WALLET_SUBWALLET_ID_DEFAULT : Z := 2147450641.
Definition WALLET_SUBWALLET_ID_DEFAULT_TESTNET : Z := 2147450877.

Definition wallet_contract_id (network : Network) : Z :=
  match network with
  | Mainnet => WALLET_SUBWALLET_ID_DEFAULT
  | Testnet => WALLET_SUBWALLET_ID_DEFAULT_TESTNET
  end.

Definition u32_bits (v : N) : list bool := bytes_bits (be_bytes 4 v).

(** [u32::from_be_bytes(id.to_be_bytes())] in 32 bits. *)
Definition wallet_id_bits (wallet_id : Z) : list bool := bytes_bits (i32_be_bytes wallet_id).

Section Contract.
Context `{TonStates}.

(** [WalletData::new] and its cell: revision, sequence number, identifier and key. *)
Definition wallet_data_cell (wallet_id : Z) (public_key : bytes) : option Cell :=
  build_cell (byte_bits 0 ++ u32_bits 0 ++ wallet_id_bits wallet_id ++ bytes_bits public_key) [].

(** [StateInit::derive_address]. *)
Definition state_init_address (state : StateInit) (workchain : Z) : option TonAddress :=
  cell ← state_init_to_cell state;
  mkTonAddress workchain <$> cell_hash cell.

(** ** Requests *)

Definition SEND_ONE_INTERNAL_OPCODE : N := 1669951092.
Definition SEND_ONE_EXTERNAL_OPCODE : N := 1669951093.
Definition SEND_BULK_INTERNAL_OPCODE : N := 1938386548.
Definition SEND_BULK_EXTERNAL_OPCODE : N := 1938386549.

Definition request_opcode (external : bool) (count : nat) : N :=
  match external, count with
  | true, 1 => SEND_ONE_EXTERNAL_OPCODE
  | false, 1 => SEND_ONE_INTERNAL_OPCODE
  | true, _ => SEND_BULK_EXTERNAL_OPCODE
  | false, _ => SEND_BULK_INTERNAL_OPCODE
  end.

(** One link of the array: the next link first, then modes and messages. *)
Definition message_chunk (next : option Cell) (items : list (N * Cell)) : option Cell :=
  build_cell (bool_decide (is_Some next) :: flat_map (fun item => byte_bits item.1) items)
    (option_list next ++ map snd items).

(** The loop from the end of the array, three items a link; the items are last first. *)
Fixpoint message_chunks (next : option Cell) (items : list (N * Cell)) : option (option Cell) :=
  match items with
  | [] => Some next
  | c :: b :: a :: rest =>
      cell ← message_chunk next [a; b; c];
      message_chunks (Some cell) rest
  | _ =>
      cell ← message_chunk next (rev items);
      Some (Some cell)
  end.

Definition build_request (wallet_id : Z) (valid_until msg_seqno : N) (msgs : list Cell)
    (msgs_modes : list N) (external : bool) : option Cell :=
  if (255 <? length msgs)%nat || negb (length msgs_modes =? length msgs)%nat then None
  else if is_empty msgs then None
  else
    let header := u32_bits (request_opcode external (length msgs)) ++ wallet_id_bits wallet_id
                    ++ u32_bits valid_until ++ u32_bits msg_seqno in
    match zip msgs_modes msgs with
    | [(mode, msg)] => build_cell (header ++ byte_bits mode) [msg]
    | items =>
        next ← message_chunks None (rev items);
        head ← next;
        build_cell (header ++ byte_bits (N.of_nat (length msgs)) ++ [true]) [head]
    end.
End Contract.

(** * Requests carry what they were built from

    The reader of requests, as the contract and the vendored [read_request] have it, and
    the round trip of every request of one to 255 messages. *)

(** ** Numbers in bits *)

Lemma bits_value_app acc a b : bits_value acc (a ++ b) = bits_value (bits_value acc a) b.
Proof. revert acc. induction a as [|x a IH]; intros acc; [done|]. simpl. apply IH. Qed.

Lemma bits_value_acc acc bits :
  bits_value acc bits = (acc * 2 ^ N.of_nat (length bits) + bits_value 0 bits)%N.
Proof.
  revert acc. induction bits as [|b bits IH]; intros acc; [simpl; lia|].
  cbn [bits_value length]. rewrite IH, (IH (2 * 0 + (if b then 1 else 0))%N).
  rewrite Nat2N.inj_succ, N.pow_succ_r'. destruct b; lia.
Qed.

Lemma bits_value_bytes data :
  Forall (fun b => b < 256)%N data -> bits_value 0 (bytes_bits data) = be_value data.
Proof.
  intros Hu. induction data as [|b data IH] using rev_ind; [done|].
  apply Forall_app in Hu as [Hu [Hb _]%Forall_cons_1]. unfold bytes_bits in *.
  rewrite flat_map_app. cbn [flat_map]. rewrite app_nil_r, bits_value_app, IH by done.
  rewrite bits_value_acc, bits_value_byte by done. change (length (byte_bits b)) with 8.
  change (2 ^ N.of_nat 8)%N with 256%N. rewrite be_value_snoc. lia.
Qed.

Lemma be_bytes_u8s n v : Forall (fun b => b < 256)%N (be_bytes n v).
Proof.
  revert v. induction n as [|n IH]; intros v; [constructor|]. cbn [be_bytes]. apply Forall_app.
  split; [apply IH|]. constructor; [by apply N.mod_lt|constructor].
Qed.

Lemma u32_bits_value v : (v <= u32_max)%N -> bits_value 0 (u32_bits v) = v /\ length (u32_bits v) = 32.
Proof.
  intros Hv. unfold u32_bits. rewrite bits_value_bytes by apply be_bytes_u8s.
  rewrite be_value_bytes by (unfold u32_max in Hv; simpl; lia).
  by rewrite bytes_bits_length, length_be_bytes.
Qed.

Lemma wallet_id_bits_value id :
  (-2147483648 <= id <= 2147483647)%Z ->
  bits_value 0 (wallet_id_bits id) = Z.to_N (id mod 2 ^ 32) /\ length (wallet_id_bits id) = 32.
Proof.
  intros Hid. apply u32_bits_value. pose proof (Z.mod_pos_bound id (2 ^ 32)). unfold u32_max. lia.
Qed.

(** ** Reading a request *)

Record ParsedRequest `{TonCells} := mkParsedRequest {
  pr_wallet_id : Z;
  pr_valid_until : N;
  pr_msg_seqno : N;
  pr_items : list (N * Cell);
}.

Arguments mkParsedRequest {_ _} pr_wallet_id pr_valid_until pr_msg_seqno pr_items.

(** [i32::from_be_bytes] of an unsigned number. *)
Definition i32_of_u32 (v : N) : Z :=
  if (v <? 2147483648)%N then Z.of_N v else (Z.of_N v - 4294967296)%Z.

Section Reader.
Context `{TonStates}.

Definition read_num (size : nat) (p : CellParser) : option (N * CellParser) :=
  (fun read : list bool * CellParser => (bits_value 0 read.1, read.2)) <$> read_bits size p.

(** The messages of one link: a mode and a reference each, and no other bits. *)
Fixpoint chunk_items (refs : list Cell) (p : list bool) : option (list (N * Cell)) :=
  match refs with
  | [] => if is_empty p then Some [] else None
  | msg :: refs =>
      mode ← read_num 8 (mkCellParser p []);
      cons (mode.1, msg) <$> chunk_items refs (cp_bits mode.2)
  end.

Fixpoint read_chunks (room : nat) (chunk : Cell) : option (list (N * Cell)) :=
  match room with
  | 0 => None
  | S room =>
      flag ← read_bit (parser chunk);
      if flag.1 : bool
      then
        next ← read_next_ref flag.2;
        items ← chunk_items (cp_refs next.2) (cp_bits next.2);
        app items <$> read_chunks room next.1
      else chunk_items (cp_refs flag.2) (cp_bits flag.2)
  end.

(** The request of the given delivery, with at most [room] links of the array. *)
Definition read_request (room : nat) (external : bool) (p : CellParser) : option ParsedRequest :=
  opcode ← read_num 32 p;
  id ← read_num 32 opcode.2;
  valid_until ← read_num 32 id.2;
  seqno ← read_num 32 valid_until.2;
  items ←
    (if (opcode.1 =? request_opcode external 1)%N then
       mode ← read_num 8 seqno.2;
       msg ← read_next_ref mode.2;
       _ ← ensure_empty msg.2;
       Some [(mode.1, msg.1)]
     else if (opcode.1 =? request_opcode external 2)%N then
       count ← read_num 8 seqno.2;
       flag ← read_bit count.2;
       if flag.1 : bool then
         head ← read_next_ref flag.2;
         _ ← ensure_empty head.2;
         items ← read_chunks room head.1;
         if negb (is_empty items) && (N.of_nat (length items) =? count.1)%N then Some items else None
       else None
     else None);
  Some (mkParsedRequest (i32_of_u32 id.1) valid_until.1 seqno.1 items).

(** [read_signed]: the signature first. *)
Definition read_signed (room : nat) (external : bool) (p : CellParser) : option (ParsedRequest * bytes) :=
  signature ← read_bits 512 p;
  request ← read_request room external signature.2;
  Some (request, bits_bytes 64 signature.1).

Lemma read_num_app size bits rest refs :
  length bits = size ->
  read_num size (mkCellParser (bits ++ rest) refs) = Some (bits_value 0 bits, mkCellParser rest refs).
Proof.
  intros <-. unfold read_num, read_bits. cbn [cp_bits cp_refs].
  rewrite length_app, (proj2 (Nat.leb_le _ _)) by lia. by rewrite take_app_length, drop_app_length.
Qed.

Lemma read_u32 v rest refs :
  (v <= u32_max)%N ->
  read_num 32 (mkCellParser (u32_bits v ++ rest) refs) = Some (v, mkCellParser rest refs).
Proof. intros Hv. destruct (u32_bits_value v Hv) as [E El]. rewrite read_num_app by done. by rewrite E. Qed.

Lemma read_u8 v rest refs :
  (v < 256)%N -> read_num 8 (mkCellParser (byte_bits v ++ rest) refs) = Some (v, mkCellParser rest refs).
Proof. intros Hv. rewrite read_num_app by done. by rewrite bits_value_byte. Qed.

Lemma chunk_items_written items :
  Forall (fun item => item.1 < 256)%N items ->
  chunk_items (map snd items) (flat_map (fun item => byte_bits item.1) items) = Some items.
Proof.
  induction 1 as [|[mode msg] items Hm _ IH]; [done|]. cbn [map snd flat_map fst chunk_items].
  rewrite read_u8 by done. cbn [mbind option_bind fst snd cp_bits]. by rewrite IH.
Qed.

(** Links that can be read with any room that is large enough. *)
Definition reads (next : option Cell) (tail : list (N * Cell)) : Prop :=
  match next with
  | None => tail = []
  | Some c => tail <> [] /\ forall room, length tail <= room -> read_chunks room c = Some tail
  end.

Lemma message_chunk_reads next tail items c :
  items <> [] -> Forall (fun item => item.1 < 256)%N items -> reads next tail ->
  message_chunk next items = Some c -> reads (Some c) (items ++ tail).
Proof.
  intros Hne Hm Hr Hb. unfold message_chunk in Hb. apply build_cell_content in Hb as [Eb Er].
  split; [by destruct items|]. intros room Hroom. rewrite length_app in Hroom.
  destruct room as [|room]; [destruct items; [done|simpl in Hroom; lia]|].
  cbn [read_chunks]. unfold parser, read_bit. rewrite Eb, Er. cbn [cp_bits cp_refs mbind option_bind fst snd].
  destruct next as [next|].
  - rewrite bool_decide_eq_true_2 by done. unfold read_next_ref.
    change (option_list (Some next) ++ map snd items) with (next :: map snd items).
    cbn [cp_refs cp_bits mbind option_bind fst snd]. rewrite chunk_items_written by done. cbn [mbind option_bind]. destruct Hr as [_ Hr].
    rewrite Hr; [done|]. destruct items; [done|simpl in Hroom; lia].
  - rewrite bool_decide_eq_false_2 by by intros [].
    change (option_list None ++ map snd items) with (map snd items). rewrite chunk_items_written by done.
    cbn [reads] in Hr. subst tail. by rewrite app_nil_r.
Qed.

Lemma message_chunks_reads items next tail head :
  Forall (fun item => item.1 < 256)%N items -> reads next tail ->
  message_chunks next items = Some head -> reads head (rev items ++ tail).
Proof.
  remember (length items) as n eqn:En. revert items next tail En.
  induction n as [n IH] using lt_wf_ind. intros items next tail -> Hm Hr Hc.
  destruct items as [|c [|b [|a rest]]].
  - injection Hc as <-. done.
  - cbn [message_chunks] in Hc. apply bind_Some in Hc as (cell & Hcell & [= <-]).
    by eapply message_chunk_reads.
  - cbn [message_chunks] in Hc. apply bind_Some in Hc as (cell & Hcell & [= <-]).
    eapply message_chunk_reads; [done|by apply Forall_rev|done..].
  - cbn [message_chunks] in Hc. apply bind_Some in Hc as (cell & Hcell & Hc).
    apply Forall_cons_1 in Hm as [Hmc Hm]. apply Forall_cons_1 in Hm as [Hmb Hm].
    apply Forall_cons_1 in Hm as [Hma Hm].
    replace (rev (c :: b :: a :: rest) ++ tail) with (rev rest ++ [a; b; c] ++ tail)
      by (cbn [rev]; by rewrite <- !app_assoc).
    apply (IH (length rest) ltac:(simpl; lia) rest (Some cell) ([a; b; c] ++ tail)); [done..| |done].
    eapply message_chunk_reads; [done|by repeat constructor|done..].
Qed.

Lemma i32_roundtrip id : (-2147483648 <= id <= 2147483647)%Z -> i32_of_u32 (Z.to_N (id mod 2 ^ 32)) = id.
Proof.
  intros Hid. unfold i32_of_u32. change (2 ^ 32)%Z with 4294967296%Z.
  destruct (Z.leb_spec 0 id).
  - rewrite Z.mod_small by lia. destruct (N.ltb_spec (Z.to_N id) 2147483648); lia.
  - replace (id mod 4294967296)%Z with (id + 4294967296)%Z
      by (apply (Z.mod_unique id 4294967296 (-1)); lia).
    destruct (N.ltb_spec (Z.to_N (id + 4294967296)) 2147483648); lia.
Qed.

Lemma read_wallet_id id rest refs :
  (-2147483648 <= id <= 2147483647)%Z ->
  read_num 32 (mkCellParser (wallet_id_bits id ++ rest) refs)
  = Some (Z.to_N (id mod 2 ^ 32), mkCellParser rest refs).
Proof.
  intros Hid. destruct (wallet_id_bits_value id Hid) as [E El]. rewrite read_num_app by done. by rewrite E.
Qed.

Definition request_header (external : bool) (count : nat) (wallet_id : Z) (valid_until seqno : N) : list bool :=
  u32_bits (request_opcode external count) ++ wallet_id_bits wallet_id
  ++ u32_bits valid_until ++ u32_bits seqno.

(** What [build_request] writes: a single message, or the array and its length. *)
Lemma build_request_shape wallet_id valid_until seqno msgs modes external cell :
  build_request wallet_id valid_until seqno msgs modes external = Some cell ->
  length modes = length msgs /\ length msgs <= 255 /\
  ((exists mode msg, modes = [mode] /\ msgs = [msg] /\
      cell_bits cell = request_header external 1 wallet_id valid_until seqno ++ byte_bits mode /\
      cell_refs cell = [msg]) \/
   (exists head, 2 <= length msgs /\ message_chunks None (rev (zip modes msgs)) = Some (Some head) /\
      cell_bits cell = request_header external 2 wallet_id valid_until seqno
                         ++ byte_bits (N.of_nat (length msgs)) ++ [true] /\
      cell_refs cell = [head])).
Proof.
  unfold build_request. destruct (_ || _) eqn:Hc; [done|]. apply orb_false_iff in Hc as [Hl Hm].
  apply Nat.ltb_ge in Hl. apply negb_false_iff, Nat.eqb_eq in Hm. destruct (is_empty msgs) eqn:He; [done|].
  intros Hb. split; [done|]. split; [done|]. destruct msgs as [|m1 [|m2 msgs]]; [done| |].
  - left. destruct modes as [|mode [|]]; try done. cbn [zip zip_with] in Hb.
    apply build_cell_content in Hb as [Hbits Hrefs]. exists mode, m1.
    unfold request_header. rewrite <- !app_assoc in *. done.
  - right. destruct modes as [|d1 [|d2 modes]]; try done.
    change (zip (d1 :: d2 :: modes) (m1 :: m2 :: msgs)) with ((d1, m1) :: (d2, m2) :: zip modes msgs) in *.
    cbn [mbind option_bind] in Hb. destruct (message_chunks None _) as [[head|]|] eqn:Eh; try done.
    cbn [mbind option_bind] in Hb. apply build_cell_content in Hb as [Hbits Hrefs]. exists head.
    split; [simpl; lia|]. split; [done|]. split; [|done]. rewrite Hbits. unfold request_header.
    rewrite <- !app_assoc. by destruct external.
Qed.

Lemma request_opcode_u32 external count : (request_opcode external count <= u32_max)%N.
Proof. unfold u32_max. destruct external, count as [|[|]]; cbv; done. Qed.

Lemma request_roundtrip wallet_id valid_until seqno msgs modes external cell room :
  build_request wallet_id valid_until seqno msgs modes external = Some cell ->
  (-2147483648 <= wallet_id <= 2147483647)%Z -> (valid_until <= u32_max)%N -> (seqno <= u32_max)%N ->
  Forall (fun mode => mode < 256)%N modes -> length msgs <= room ->
  read_request room external (parser cell)
  = Some (mkParsedRequest wallet_id valid_until seqno (zip modes msgs)).
Proof.
  intros Hb Hid Hu Hs Hm Hroom. apply build_request_shape in Hb as (Hl & Hmax & Hcase).
  assert (forall count bits refs, cell_bits cell = request_header external count wallet_id valid_until seqno ++ bits ->
    cell_refs cell = refs ->
    parser cell = mkCellParser (u32_bits (request_opcode external count) ++ wallet_id_bits wallet_id
      ++ u32_bits valid_until ++ u32_bits seqno ++ bits) refs) as Hparser.
  { intros count bits refs Eb Er. unfold parser. rewrite Eb, Er. unfold request_header. by rewrite <- !app_assoc. }
  unfold read_request.
  destruct Hcase as [(mode & msg & -> & -> & Hbits & Hrefs)|(head & Hlen & Hhead & Hbits & Hrefs)];
    rewrite (Hparser _ _ _ Hbits Hrefs), read_u32 by apply request_opcode_u32;
    cbn [mbind option_bind fst snd]; rewrite read_wallet_id by done; cbn [mbind option_bind fst snd];
    rewrite read_u32 by done; cbn [mbind option_bind fst snd]; rewrite read_u32 by done;
    cbn [mbind option_bind fst snd].
  - rewrite N.eqb_refl. apply Forall_cons_1 in Hm as [Hm _].
    rewrite <- (app_nil_r (byte_bits mode)), read_u8 by done.
    cbn. by rewrite i32_roundtrip.
  - assert ((request_opcode external 2 =? request_opcode external 1)%N = false) as -> by by destruct external.
    rewrite N.eqb_refl, read_u8 by lia. cbn [mbind option_bind fst snd read_bit cp_bits].
    unfold read_next_ref. cbn [cp_refs cp_bits mbind option_bind fst snd ensure_empty is_empty andb].
    assert (Forall (fun item => item.1 < 256)%N (rev (zip modes msgs))) as Hm'.
    { apply Forall_rev. clear -Hm. revert msgs. induction Hm as [|mode modes Hm _ IH]; intros [|msg msgs];
        cbn [zip zip_with]; constructor; [done|apply IH]. }
    apply (message_chunks_reads _ None [] _ Hm' eq_refl) in Hhead as [_ Hr].
    rewrite rev_involutive, app_nil_r in Hr.
    assert (length (zip modes msgs) = length msgs) as Hz by (rewrite length_zip_with; lia).
    rewrite Hr by lia. cbn [mbind option_bind]. rewrite Hz, N.eqb_refl.
    destruct (zip modes msgs) eqn:Ez; [simpl in Hz; lia|]. cbn [is_empty negb andb mbind option_bind].
    by rewrite i32_roundtrip.
Qed.
End Reader.
