(* ===== verification/WalletKeys.v ===== *)
(** * Wallets and their keys

    src/wallet/crypto.rs: protected recovery phrases, the anchor and signing keys, the
    wallet that they derive and its signed requests; src/wallet/key_history.rs: the chain
    of replaced signing keys. *)

From stdpp Require Import base numbers list option strings gmap.
From S2P Require Import Prelude BoundaryTypes SendDomain ClientDomain ClientState CellBoc.
From S2P Require Import CellBocSpec ConnectValues TransferLink ConnectSigning ConnectWalletState.
From S2P Require Import WordList Mnemonic WalletContract.

Inductive WalletCryptoError := RandomGeneration | InvalidMnemonic | WalletConstruction.

(** ** Protected phrases *)

Record SensitiveMnemonic := mkSensitiveMnemonic { sm_bytes : bytes }.

Section Phrases.
Context `{Sha256}.

Definition mnemonic_as_str (mnemonic : SensitiveMnemonic) : result WalletCryptoError rstr :=
  ok_or InvalidMnemonic (from_utf8 (sm_bytes mnemonic)).

Definition mnemonic_validate (mnemonic : SensitiveMnemonic) : result WalletCryptoError unit :=
  let? phrase := mnemonic_as_str mnemonic in
  rmap (fun _ => tt) (map_err (fun _ => InvalidMnemonic) (rotation_parse phrase)).

Definition mnemonic_from_bytes (data : bytes) : result WalletCryptoError SensitiveMnemonic :=
  let candidate := mkSensitiveMnemonic data in
  let? _ := mnemonic_validate candidate in
  Ok candidate.

(** The words as bytes with one space between them. *)
Definition mnemonic_from_words (words : list rstr) : result WalletCryptoError SensitiveMnemonic :=
  mnemonic_from_bytes (join_words (map utf8 words)).

(** [generate_mnemonic] on the bytes of the random generator, if it has any. *)
Definition generate_mnemonic (random : option bytes) : result WalletCryptoError SensitiveMnemonic :=
  let? entropy := ok_or RandomGeneration random in
  let? half := map_err (fun _ => InvalidMnemonic) (from_entropy entropy) in
  mnemonic_from_bytes (utf8 (to_phrase half)).
End Phrases.

(** ** Keys *)

Record RotationKeys := mkRotationKeys { rk_anchor : SigningKey; rk_signing : SigningKey }.

Definition TON_CONNECT_SESSION_LABEL : bytes := lit "tonconnect/session/v1".

Record KeyPair := mkKeyPair { kp_public_key : bytes; kp_secret_key : bytes }.

(** [TonWallet] of version Wallet. *)
Record TonWallet := mkTonWallet {
  tw_key_pair : KeyPair;
  tw_address : TonAddress;
  tw_wallet_id : Z;
}.

Record SensitiveWallet := mkSensitiveWallet { sw_wallet : TonWallet; sw_signing : SigningKey }.

(** [*first &= 0xf8] and [*last &= 0x7f; *last |= 0x40]. *)
Definition clamp (secret : bytes) : bytes :=
  let secret := alter (fun first => N.land first 248) 0 secret in
  alter (fun last => N.lor (N.land last 127) 64) (length secret - 1) secret.

Section Keys.
Context `{Sha256} `{Sha512} `{Ed25519Keys}.

Definition public_key (key : SigningKey) : bytes := verifying_key (sk_bytes key).

Definition derive_rotation_keys (mnemonic : RotationMnemonic) : RotationKeys :=
  mkRotationKeys (derive_half_key (rm_anchor mnemonic)) (derive_half_key (rm_signing mnemonic)).

Definition derive_ton_connect_session_secret (seed dapp_client_id nonce : bytes) : bytes :=
  let prk := hmac_sha512 seed [TON_CONNECT_SESSION_LABEL] in
  let okm := hmac_sha512 prk [dapp_client_id; nonce] in
  clamp (take 32 okm).

Definition ton_key_pair (key : SigningKey) : KeyPair :=
  mkKeyPair (public_key key) (sk_bytes key ++ public_key key).

Definition sign_ton_connect_digest (wallet : SensitiveWallet) (digest : bytes) : bytes :=
  ed25519_sign (sk_bytes (sw_signing wallet)) digest.

Definition signing_public_key (wallet : SensitiveWallet) : bytes := public_key (sw_signing wallet).

Definition is_pre_rotation (wallet : SensitiveWallet) : bool :=
  bool_decide (kp_public_key (tw_key_pair (sw_wallet wallet)) = signing_public_key wallet).

Definition ton_connect_session_secret (wallet : SensitiveWallet) (dapp_client_id nonce : bytes) : bytes :=
  derive_ton_connect_session_secret (sk_bytes (sw_signing wallet)) dapp_client_id nonce.

(** ** Wallets *)

Context `{TonStates}.

(** [TonHash::from_slice] accepts 32 bytes. *)
Definition ton_hash (data : bytes) : option bytes :=
  if (length data =? 32)%nat then Some data else None.

(** [TonWallet::new_with_params] for version Wallet. *)
Definition ton_wallet_new (key_pair : KeyPair) (workchain wallet_id : Z) : option TonWallet :=
  key ← ton_hash (kp_public_key key_pair);
  data ← wallet_data_cell wallet_id key;
  address ← state_init_address (state_init_new wallet_code data) workchain;
  Some (mkTonWallet key_pair address wallet_id).

Definition derive_wallet (mnemonic : rstr) (network : Network)
  : result WalletCryptoError SensitiveWallet :=
  let? mnemonic := map_err (fun _ => InvalidMnemonic) (rotation_parse mnemonic) in
  let keys := derive_rotation_keys mnemonic in
  let contract_wallet_id := wallet_contract_id network in
  let? wallet := ok_or WalletConstruction
                   (ton_wallet_new (ton_key_pair (rk_anchor keys)) 0 contract_wallet_id) in
  Ok (mkSensitiveWallet wallet (rk_signing keys)).

Definition derive_wallet_public_state (public_key : bytes) (network : Network)
  : result WalletCryptoError (TonAddress * StateInit) :=
  let? public_key := ok_or WalletConstruction (ton_hash public_key) in
  let wallet_id := wallet_contract_id network in
  let? data := ok_or WalletConstruction (wallet_data_cell wallet_id public_key) in
  let state_init := state_init_new wallet_code data in
  let? address := ok_or WalletConstruction (state_init_address state_init 0) in
  Ok (address, state_init).

(** ** Signed requests *)

Context `{!TonMessages}.

(** [write_bits(signature, 512)] and [write_cell(body)]. *)
Definition sign_with (key : SigningKey) (body : Cell) : option Cell :=
  hash ← cell_hash body;
  build_cell (bytes_bits (ed25519_sign (sk_bytes key) hash) ++ cell_bits body) (cell_refs body).

Definition sign_wallet_body (wallet : SensitiveWallet) (body : Cell) : option Cell :=
  sign_with (sw_signing wallet) body.

(** The deployment state of a wallet: [get_code] and [get_default_data]. *)
Definition wallet_state_init (wallet : TonWallet) : option StateInit :=
  key ← ton_hash (kp_public_key (tw_key_pair wallet));
  state_init_new wallet_code <$> wallet_data_cell (tw_wallet_id wallet) key.

Definition with_state_init (wallet : TonWallet) (add_state_init : bool) : option (option StateInit) :=
  if add_state_init then Some <$> wallet_state_init wallet else Some None.

Definition create_ext_in_msg_from_body (wallet : TonWallet) (signed_body : Cell)
    (add_state_init : bool) : option Cell :=
  init ← with_state_init wallet add_state_init;
  msg_to_cell (mkMsg (Info_ExtIn (Some (to_msg_address_int (tw_address wallet)))) init signed_body).

Definition create_internal_signed_msg_from_body (wallet : TonWallet) (signed_body : Cell)
    (add_state_init : bool) : option Cell :=
  init ← with_state_init wallet add_state_init;
  msg_to_cell (mkMsg (Info_Int (Some (to_msg_address_int (tw_address wallet))) 0 false) init signed_body).

Definition create_ext_in_msg_with_modes (wallet : SensitiveWallet) (int_msgs : list Cell)
    (int_msg_modes : list N) (seqno expire_at : N) (add_state_init : bool) : option Cell :=
  body ← build_request (tw_wallet_id (sw_wallet wallet)) expire_at seqno int_msgs int_msg_modes true;
  signed ← sign_wallet_body wallet body;
  create_ext_in_msg_from_body (sw_wallet wallet) signed add_state_init.

Definition create_internal_signed_msg_with_modes (wallet : SensitiveWallet) (int_msgs : list Cell)
    (int_msg_modes : list N) (seqno expire_at : N) (add_state_init : bool) : option Cell :=
  body ← build_request (tw_wallet_id (sw_wallet wallet)) expire_at seqno int_msgs int_msg_modes false;
  signed ← sign_wallet_body wallet body;
  create_internal_signed_msg_from_body (sw_wallet wallet) signed add_state_init.

(** ** Replaced signing keys *)

Definition KEY_CHANGE_SALT : bytes := lit "keyChangeSaltV1".

Definition xor_with_mask (value : bytes) (new_key : SigningKey) : bytes :=
  zip_with N.lxor value (sha256 (sk_bytes new_key ++ KEY_CHANGE_SALT)).

Definition encrypt_old_private_key (old_key new_key : SigningKey) : bytes :=
  xor_with_mask (sk_bytes old_key) new_key.

Definition decrypt_old_private_key (encrypted : bytes) (new_key : SigningKey) : SigningKey :=
  mkSigningKey (xor_with_mask encrypted new_key).

(** The map from installed keys to encrypted old keys; a later entry replaces. *)
Definition installed_by (changes : list KeyChange) : gmap bytes bytes :=
  foldl (fun m change => <[kc_new_public_key change := kc_encrypted_old_private_key change]> m) ∅ changes.

(** The loop, at most [room] turns. *)
Fixpoint recover_from (room : nat) (anchor_public_key : bytes) (newest : SigningKey)
    (installed : gmap bytes bytes) : list SigningKey :=
  match room with
  | 0 => []
  | S room =>
      match installed !! public_key newest with
      | None => []
      | Some encrypted =>
          let older := decrypt_old_private_key encrypted newest in
          if bool_decide (public_key older = anchor_public_key) then []
          else older :: recover_from room anchor_public_key older installed
      end
  end.

Definition recover_signing_keys (anchor_public_key : bytes) (current : SigningKey)
    (changes : list KeyChange) : list SigningKey :=
  let installed := installed_by changes in
  recover_from (size installed) anchor_public_key current installed.
End Keys.

(** * Phrases, keys and the history of keys

    What import accepts against what scheme detection reports; the chain of replaced
    signing keys can be walked back; the wallet and its public state agree. *)

(** ** Splitting and joining words *)

Definition blank (s : rstr) : Prop := Forall (fun c => is_whitespace c = true) s.
Definition solid (s : rstr) : Prop := s <> [] /\ Forall (fun c => is_whitespace c = false) s.

Lemma split_solid acc t rest :
  Forall (fun c => is_whitespace c = false) t ->
  split_whitespace_from acc (t ++ rest) = split_whitespace_from (reverse t ++ acc) rest.
Proof.
  intros Ht. revert acc. induction Ht as [|c t Hc _ IH]; intros acc; [done|].
  cbn [app split_whitespace_from]. rewrite Hc, IH. by rewrite reverse_cons, <- app_assoc.
Qed.

Lemma split_blank pre rest : blank pre -> split_whitespace (pre ++ rest) = split_whitespace rest.
Proof.
  unfold split_whitespace. induction 1 as [|c pre Hc _ IH]; [done|].
  cbn [app split_whitespace_from]. by rewrite Hc.
Qed.

Lemma split_flush acc pre :
  blank pre -> split_whitespace_from acc pre = if is_empty acc then [] else [reverse acc].
Proof.
  intros Hp. destruct Hp as [|c pre Hc Hp]; [done|]. cbn [split_whitespace_from]. rewrite Hc.
  pose proof (split_blank pre [] Hp) as E. rewrite app_nil_r in E. unfold split_whitespace in E.
  rewrite E. by rewrite app_nil_r.
Qed.

(** A text is blank, or a word between blanks and the rest after a blank. *)
Lemma first_word s :
  (blank s) \/
  exists pre t rest, s = pre ++ t ++ rest /\ blank pre /\ solid t /\
    match rest with [] => True | c :: _ => is_whitespace c = true end.
Proof.
  induction s as [|c s IH]; [left; constructor|]. destruct (is_whitespace c) eqn:Hc.
  - destruct IH as [Hb|(pre & t & rest & -> & Hp & Ht & Hr)]; [left; by constructor|].
    right. exists (c :: pre), t, rest. split; [done|]. split; [by constructor|done].
  - right. destruct IH as [Hb|(pre & t & rest & -> & Hp & [Hne Ht] & Hr)].
    + exists [], [c], s. split; [done|]. split; [constructor|]. split; [split; [done|by constructor]|].
      destruct Hb; done.
    + destruct pre as [|d pre].
      * exists [], (c :: t), rest. split; [done|]. split; [constructor|].
        split; [split; [done|by constructor]|done].
      * exists [], [c], ((d :: pre) ++ t ++ rest). split; [done|]. split; [constructor|].
        split; [split; [done|by constructor]|]. by apply Forall_cons_1 in Hp as [? _].
Qed.

Lemma split_word pre t rest :
  blank pre -> solid t -> match rest with [] => True | c :: _ => is_whitespace c = true end ->
  split_whitespace (pre ++ t ++ rest) = t :: split_whitespace rest.
Proof.
  intros Hp [Hne Ht] Hr. rewrite split_blank by done. unfold split_whitespace.
  rewrite split_solid, app_nil_r by done.
  assert (is_empty (reverse t) = false) as He.
  { destruct t as [|c t]; [done|]. rewrite reverse_cons. by destruct (reverse t). }
  destruct rest as [|c rest]; cbn [split_whitespace_from].
  - by rewrite He, reverse_involutive.
  - rewrite Hr, He. cbn [is_empty app]. by rewrite reverse_involutive.
Qed.

Lemma drop_blank pre t rest :
  blank pre -> solid t -> drop_while is_whitespace (pre ++ t ++ rest) = t ++ rest.
Proof.
  intros Hp [Hne Ht]. induction Hp as [|c pre Hc _ IH]; cbn [app drop_while]; [|by rewrite Hc].
  destruct Ht as [|c t Hc _]; [done|]. cbn [app drop_while]. by rewrite Hc.
Qed.

Lemma solid_reverse t : solid t -> solid (reverse t).
Proof.
  intros [Hne Ht]. split; [|by apply Forall_reverse].
  intros E. apply (f_equal length) in E. rewrite length_reverse in E. by destruct t.
Qed.

(** Trimming keeps the first word and drops a blank end. *)
Lemma trim_word pre t rest :
  blank pre -> solid t ->
  exists u q, rest = u ++ q /\ blank q /\ trim (pre ++ t ++ rest) = t ++ u.
Proof.
  intros Hp Ht. unfold trim, trim_start, trim_end. rewrite drop_blank by done.
  induction rest as [|c rest IH] using rev_ind.
  - exists [], []. split; [done|]. split; [constructor|]. rewrite !app_nil_r.
    pose proof (drop_blank [] (reverse t) [] ltac:(constructor) (solid_reverse t Ht)) as E.
    cbn [app] in E. rewrite app_nil_r in E. rewrite E. apply reverse_involutive.
  - rewrite app_assoc, reverse_snoc. cbn [drop_while]. destruct (is_whitespace c) eqn:Hc.
    + destruct IH as (u & q & -> & Hq & E). exists u, (q ++ [c]). rewrite app_assoc.
      split; [done|]. split; [|done]. apply Forall_app. split; [done|by constructor].
    + exists (rest ++ [c]), []. rewrite app_nil_r. split; [done|]. split; [constructor|].
      by rewrite <- reverse_snoc, reverse_involutive, <- app_assoc.
Qed.

Lemma trim_between pre t post : blank pre -> solid t -> blank post -> trim (pre ++ t ++ post) = t.
Proof.
  intros Hp Ht Hq. unfold trim, trim_start, trim_end. rewrite drop_blank, reverse_app by done.
  pose proof (drop_blank (reverse post) (reverse t) [] ltac:(by apply Forall_reverse)
    (solid_reverse t Ht)) as E. rewrite !app_nil_r in E. rewrite E. apply reverse_involutive.
Qed.

(** A text with one word is that word between blanks. *)
Lemma single_word s t :
  split_whitespace s = [t] -> trim s = t /\ solid t.
Proof.
  destruct (first_word s) as [Hb|(pre & u & rest & -> & Hp & Hu & Hr)].
  - unfold split_whitespace. by rewrite split_flush.
  - rewrite split_word by done. intros [= -> Hs]. split; [|done]. apply trim_between; [done..|].
    destruct (first_word rest) as [Hb|(pre' & u' & rest' & -> & Hp' & Hu' & Hr')]; [done|].
    by rewrite split_word in Hs.
Qed.

Lemma blank_not_letter c : is_whitespace c = true -> is_lowercase_letter (lowercase_char c) = false.
Proof.
  unfold is_whitespace, lowercase_char, to_ascii_lowercase, is_lowercase_letter.
  rewrite !orb_true_iff, !andb_true_iff, !N.leb_le, !N.eqb_eq. intros Hc.
  destruct (N.eqb_spec c 8490); [lia|]. apply andb_false_iff. rewrite !N.leb_gt.
  destruct (N.leb_spec 65 c), (N.leb_spec c 90); cbn [andb]; lia.
Qed.

(** A word with a listed normal form is one word between blanks. *)
Lemma listed_word s : normalize_word s ∈ WORDLIST -> split_whitespace s = [trim s].
Proof.
  intros Hin. destruct (wordlist_letters _ Hin) as [Hne Hl].
  destruct (first_word s) as [Hb|(pre & t & rest & -> & Hp & Ht & Hr)].
  - exfalso. apply Hne. unfold normalize_word, to_lowercase.
    assert (trim s = []) as ->; [|done]. pose proof (trim_sublist _ s Hb) as Hw.
    destruct (trim_ends s) as [Hh _]. destruct (trim s) as [|c u]; [done|].
    apply Forall_cons_1 in Hw as [Hc _]. rewrite (Hh c u eq_refl) in Hc. done.
  - assert (blank rest) as Hrest; [|rewrite trim_between, split_word by done; unfold split_whitespace;
      by rewrite split_flush].
    destruct (trim_word pre t rest Hp Ht) as (u & q & -> & Hq & Eu).
    apply Forall_app. split; [|done]. destruct u as [|c u]; [constructor|]. exfalso.
    unfold normalize_word, to_lowercase in Hl. rewrite Eu in Hl. rewrite forallb_forall in Hl.
    cbn [app] in Hr. assert (In (lowercase_char c) (map lowercase_char (t ++ c :: u))) as Hc%Hl
      by (apply in_map, in_or_app; right; by left).
    by rewrite blank_not_letter in Hc.
Qed.

Lemma split_whitespace_app a b :
  split_whitespace (a ++ 32%N :: b) = split_whitespace a ++ split_whitespace b.
Proof.
  remember (length a) as n eqn:En. revert a En. induction n as [n IH] using lt_wf_ind.
  intros a ->. destruct (first_word a) as [Hb|(pre & t & rest & -> & Hp & Ht & Hr)].
  - assert (split_whitespace a = []) as -> by (unfold split_whitespace; by rewrite split_flush).
    rewrite (split_blank a) by done. done.
  - rewrite (split_word pre t rest) by done. rewrite <- !app_assoc.
    rewrite (split_word pre t (rest ++ 32%N :: b)) by (first [done|by destruct rest]).
    cbn [app]. f_equal. eapply IH; [|done]. rewrite !length_app. destruct Ht as [Hne _].
    destruct t; [done|]. simpl. lia.
Qed.

Lemma split_join words : split_whitespace (join_words words) = flat_map split_whitespace words.
Proof.
  induction words as [|a [|b words] IH]; [done|by cbn [join_words flat_map]; rewrite app_nil_r|].
  change (join_words (a :: b :: words)) with (a ++ 32%N :: join_words (b :: words)).
  by rewrite split_whitespace_app, IH.
Qed.

Lemma utf8_join words : join_words (map utf8 words) = utf8 (join_words words).
Proof.
  induction words as [|a [|b words] IH]; [done|done|].
  change (utf8 a ++ 32%N :: join_words (map utf8 (b :: words)) = utf8 (a ++ 32%N :: join_words (b :: words))).
  rewrite IH. unfold utf8. by rewrite flat_map_app.
Qed.

Lemma join_scalar words : Forall (Forall scalar) words -> Forall scalar (join_words words).
Proof.
  induction 1 as [|a words Ha Hw IH]; [constructor|]. destruct words as [|b words]; [done|].
  cbn [join_words]. apply Forall_app. split; [done|]. constructor; [unfold scalar; lia|done].
Qed.

Section PhraseImport.
Context `{Sha256} `{Sha512}.

Lemma rotation_new_listed words m :
  rotation_new words = Ok m -> Forall (fun word => normalize_word word ∈ WORDLIST) words.
Proof.
  assert (forall ws h, half_new ws = Ok h -> Forall (fun word => normalize_word word ∈ WORDLIST) ws) as Hh.
  { intros ws h (_ & Hn & Hin & _)%half_new_spec. rewrite Hn in Hin. by apply Forall_fmap in Hin. }
  unfold rotation_new. destruct (_ =? HALF_WORD_COUNT)%nat.
  - destruct (half_new words) as [h|] eqn:E; [|done]. intros _. by apply (Hh _ h).
  - destruct (_ =? ROTATION_WORD_COUNT)%nat; [|done]. intros (a & Ha & Hk)%rbind_ok.
    apply rbind_ok in Hk as (s & Hs & _). rewrite <- (take_drop HALF_WORD_COUNT words).
    apply Forall_app. split; by eapply Hh.
Qed.

(** Only the normal forms of the words matter. *)
Lemma half_new_normal ws ws' :
  map normalize_word ws = map normalize_word ws' -> half_new ws = half_new ws'.
Proof.
  intros E. unfold half_new. assert (length ws = length ws') as ->
    by (apply (f_equal length) in E; by rewrite !length_map in E). by rewrite E.
Qed.

Lemma rotation_new_normal ws ws' :
  map normalize_word ws = map normalize_word ws' -> rotation_new ws = rotation_new ws'.
Proof.
  intros E. unfold rotation_new. assert (length ws = length ws') as ->
    by (apply (f_equal length) in E; by rewrite !length_map in E).
  rewrite (half_new_normal ws ws') by done.
  rewrite (half_new_normal (take HALF_WORD_COUNT ws) (take HALF_WORD_COUNT ws'))
    by (by rewrite <- !firstn_map, E).
  by rewrite (half_new_normal (drop HALF_WORD_COUNT ws) (drop HALF_WORD_COUNT ws'))
    by (by rewrite <- !skipn_map, E).
Qed.

Lemma from_words_parse words :
  Forall (Forall scalar) words ->
  (exists m, mnemonic_from_words words = Ok m) <->
  exists m, rotation_new (flat_map split_whitespace words) = Ok m.
Proof.
  intros Hs. unfold mnemonic_from_words, mnemonic_from_bytes, mnemonic_validate, mnemonic_as_str.
  cbn [sm_bytes]. rewrite utf8_join, from_utf8_utf8 by by apply join_scalar. cbn [ok_or rbind].
  unfold rotation_parse. rewrite split_join.
  destruct (rotation_new (flat_map split_whitespace words)); cbn [map_err rmap rbind];
    split; intros [m Hm]; first [discriminate Hm | by eexists].
Qed.

(** Words without inner blanks are the words of their phrase. *)
Lemma split_single words :
  Forall (fun word => split_whitespace word = [trim word]) words ->
  map normalize_word (flat_map split_whitespace words) = map normalize_word words.
Proof.
  induction 1 as [|word words Hw _ IH]; [done|]. cbn [flat_map]. rewrite Hw. cbn [app map].
  rewrite IH. f_equal. unfold normalize_word. f_equal.
  destruct (single_word word _ Hw) as [_ Ht].
  pose proof (trim_between [] (trim word) [] ltac:(constructor) Ht ltac:(constructor)) as E.
  by rewrite app_nil_r in E.
Qed.

Lemma detects_rotation words :
  Scheme_Rotation ∈ detect_mnemonic_schemes words <-> exists m, rotation_new words = Ok m.
Proof.
  unfold detect_mnemonic_schemes. rewrite !elem_of_app. split.
  - intros [Hr|[Ht|Hb]].
    + destruct (rotation_new words) as [m|]; [by exists m|]. by apply not_elem_of_nil in Hr.
    + destruct (is_ton_mnemonic words); [|by apply not_elem_of_nil in Ht].
      by apply list_elem_of_singleton in Ht.
    + destruct (is_bip39_24_phrase words); [|by apply not_elem_of_nil in Hb].
      by apply list_elem_of_singleton in Hb.
  - intros [m ->]. left. left.
Qed.

(** C26: words that scheme detection reports as a rotation phrase can be imported, and for
    words without inner blanks import accepts nothing else; a whole phrase passed as one
    element is imported although detection does not report it. *)
Theorem import_matches_detection :
  (forall words, Forall (Forall scalar) words -> Scheme_Rotation ∈ detect_mnemonic_schemes words ->
     exists m, mnemonic_from_words words = Ok m) /\
  (forall words, Forall (Forall scalar) words ->
     Forall (fun word => exists inner, split_whitespace word = [inner]) words ->
     (exists m, mnemonic_from_words words = Ok m) -> Scheme_Rotation ∈ detect_mnemonic_schemes words) /\
  (forall words, Forall (Forall scalar) words -> Scheme_Rotation ∈ detect_mnemonic_schemes words ->
     (exists m, mnemonic_from_words [join_words words] = Ok m) /\
     Scheme_Rotation ∉ detect_mnemonic_schemes [join_words words]).
Proof.
  assert (forall words m, rotation_new words = Ok m ->
    rotation_new (flat_map split_whitespace words) = Ok m) as Hsplit.
  { intros words m Hm. rewrite (rotation_new_normal _ words); [done|]. apply split_single.
    eapply Forall_impl; [by eapply rotation_new_listed|]. intros word. apply listed_word. }
  split; [|split].
  - intros words Hs [m Hm]%detects_rotation. apply from_words_parse; [done|]. exists m. by apply Hsplit.
  - intros words Hs Hone Hm. apply detects_rotation. apply from_words_parse in Hm as [m Hm]; [|done].
    exists m. rewrite <- Hm. apply rotation_new_normal. symmetry. apply split_single.
    eapply Forall_impl; [exact Hone|]. intros word [inner Hi].
    by rewrite (proj1 (single_word word inner Hi)).
  - intros words Hs [m Hm]%detects_rotation. split.
    + apply from_words_parse; [constructor; [by apply join_scalar|constructor]|].
      cbn [flat_map]. rewrite app_nil_r, split_join. exists m. by apply Hsplit.
    + rewrite detects_rotation. intros [m' Hm']. done.
Qed.
End PhraseImport.

(** ** The history of signing keys *)

Section History.
Context `{Sha256} `{Sha512} `{Ed25519Keys}.

Definition valid_key (key : SigningKey) : Prop :=
  length (sk_bytes key) = 32 /\ Forall (fun b => b < 256)%N (sk_bytes key).

Lemma xor_cancel (a m : bytes) : length a = length m -> zip_with N.lxor (zip_with N.lxor a m) m = a.
Proof.
  revert m. induction a as [|x a IH]; intros [|y m] Hl; try done. cbn [zip_with].
  rewrite IH by (by injection Hl). by rewrite N.lxor_assoc, N.lxor_nilpotent, N.lxor_0_r.
Qed.

(** The new key opens the old one. *)
Lemma decrypt_encrypted old new :
  length (sk_bytes old) = 32 -> decrypt_old_private_key (encrypt_old_private_key old new) new = old.
Proof.
  intros Hl. unfold decrypt_old_private_key, encrypt_old_private_key, xor_with_mask.
  rewrite xor_cancel; [by destruct old|]. by rewrite sha256_length.
Qed.

(** The rotations that install the keys of a chain, one after another. *)
Fixpoint rotations (older : SigningKey) (chain : list SigningKey) : list KeyChange :=
  match chain with
  | [] => []
  | key :: rest =>
      mkKeyChange (public_key key) (encrypt_old_private_key older key) :: rotations key rest
  end.

Lemma rotations_keys older chain :
  map kc_new_public_key (rotations older chain) = map public_key chain.
Proof. revert older. induction chain as [|key chain IH]; intros older; [done|]. simpl. by rewrite IH. Qed.

Lemma installed_snoc changes change :
  installed_by (changes ++ [change])
  = <[kc_new_public_key change := kc_encrypted_old_private_key change]> (installed_by changes).
Proof. unfold installed_by. by rewrite foldl_snoc. Qed.

Lemma installed_lookup changes :
  NoDup (map kc_new_public_key changes) ->
  size (installed_by changes) = length changes /\
  forall change, change ∈ changes ->
    installed_by changes !! kc_new_public_key change = Some (kc_encrypted_old_private_key change).
Proof.
  induction changes as [|last changes IH] using rev_ind; intros Hd.
  - split; [done|]. by intros change Hc%not_elem_of_nil.
  - rewrite map_app in Hd. apply NoDup_app in Hd as (Hd & Hn & _). destruct (IH Hd) as [Hs Hl].
    assert (installed_by changes !! kc_new_public_key last = None) as Hnone.
    { destruct (installed_by changes !! kc_new_public_key last) as [e|] eqn:E; [|done].
      assert (forall l k (v : bytes), installed_by l !! k = Some v -> k ∈ map kc_new_public_key l) as Hin.
      { induction l as [|c l IHl] using rev_ind; intros k v Hk; [done|]. rewrite installed_snoc in Hk.
        rewrite map_app, elem_of_app. destruct (decide (kc_new_public_key c = k)) as [<-|Hne];
          [right; by left|]. left. rewrite lookup_insert_ne in Hk by done. by apply IHl in Hk. }
      destruct (Hn _ (Hin _ _ _ E)). by left. }
    rewrite installed_snoc, length_app, map_size_insert_None, Hs by done. split; [simpl; lia|].
    intros change [Hc|Hc%list_elem_of_singleton]%elem_of_app; [|by subst; rewrite lookup_insert_eq].
    rewrite lookup_insert_ne; [by apply Hl|]. intros E. apply (Hn (kc_new_public_key change));
      [by apply list_elem_of_fmap_2|]. rewrite <- E. by left.
Qed.

Lemma recover_walk anchor chain newest installed room :
  Forall valid_key (anchor :: chain) -> NoDup (map public_key (anchor :: chain ++ [newest])) ->
  (forall change, change ∈ rotations anchor (chain ++ [newest]) ->
     installed !! kc_new_public_key change = Some (kc_encrypted_old_private_key change)) ->
  length chain < room ->
  recover_from room (public_key anchor) newest installed = reverse chain.
Proof.
  revert newest room. induction chain as [|key chain IH] using rev_ind; intros newest room Hv Hd Hi Hr.
  - destruct room as [|room]; [lia|]. cbn [recover_from].
    assert (installed !! public_key newest = Some (encrypt_old_private_key anchor newest)) as ->
      by (apply (Hi (mkKeyChange _ (encrypt_old_private_key anchor newest))); left).
    rewrite decrypt_encrypted by by apply Forall_cons_1 in Hv as [[? _] _].
    by rewrite bool_decide_eq_true_2.
  - assert (forall older, rotations older ((chain ++ [key]) ++ [newest])
      = rotations older (chain ++ [key]) ++ [mkKeyChange (public_key newest) (encrypt_old_private_key key newest)])
      as Hsnoc.
    { clear. induction chain as [|k chain IHc]; intros older; [done|]. simpl. by rewrite IHc. }
    rewrite length_app in Hr. simpl in Hr. destruct room as [|room]; [lia|]. cbn [recover_from].
    assert (installed !! public_key newest = Some (encrypt_old_private_key key newest)) as ->
      by (apply (Hi (mkKeyChange _ (encrypt_old_private_key key newest))); rewrite Hsnoc;
          apply elem_of_app; right; by left).
    apply Forall_cons_1 in Hv as [Hva Hv].
    apply Forall_app in Hv as [Hvc [Hvk _]%Forall_cons_1]. rewrite decrypt_encrypted by apply Hvk.
    rewrite map_cons, !map_app in Hd. cbn [map] in Hd. rewrite bool_decide_eq_false_2.
    2: { intros E. apply NoDup_cons in Hd as [Hd _]. apply Hd. rewrite <- E, !elem_of_app.
         left. right. by left. }
    rewrite IH, reverse_snoc; [done|by constructor| |intros change Hc; apply Hi; rewrite Hsnoc; apply elem_of_app; by left|lia].
    rewrite map_cons, map_app. rewrite app_comm_cons in Hd. by apply NoDup_app in Hd as (Hd & _).
Qed.

(** No signing key is lost by rotation: whatever order the rotations of a wallet are
    listed in, walking back from the current key recovers exactly the keys between the
    anchor and the current one, newest first. *)
Theorem key_history_recovered anchor chain current changes :
  Forall valid_key (anchor :: chain) -> NoDup (map public_key (anchor :: chain ++ [current])) ->
  changes ≡ₚ rotations anchor (chain ++ [current]) ->
  recover_signing_keys (public_key anchor) current changes = reverse chain.
Proof.
  intros Hv Hd Hp. unfold recover_signing_keys.
  assert (NoDup (map kc_new_public_key changes)) as Hnd.
  { rewrite Hp, rotations_keys. rewrite map_cons in Hd. by apply NoDup_cons in Hd as [_ ?]. }
  destruct (installed_lookup changes Hnd) as [Hs Hl]. apply recover_walk; [done..| |].
  - intros change Hc. apply Hl. by rewrite Hp.
  - rewrite Hs, Hp. rewrite <- (length_map kc_new_public_key), rotations_keys, length_map, length_app. simpl. lia.
Qed.
End History.
