(* ===== verification/SnakeData.v ===== *)
(** * Snake data

    vendor/ton/src/tep/snake_data.rs: bytes that continue in the first reference of each
    cell, written as comments and read back. *)

From stdpp Require Import base numbers list option strings.
From S2P Require Import Prelude BoundaryTypes SendDomain ClientDomain CellBocSpec.
From S2P Require Import ConnectSigning ConnectWalletState ConnectSigningSpec.

(** The bits of a cell. *)
Definition MAX_DATA_BITS : nat := 1023.

Section Snake.
Context `{TonCells}.

(** [write_chunk] for data without chunk lengths, into a builder that holds [used] bits:
    the bits and references it adds. *)
Fixpoint write_chunk (room used : nat) (data : bytes) : option (list bool * list Cell) :=
  let bytes_to_write := Nat.min (length data) ((MAX_DATA_BITS - used) / 8) in
  if (bytes_to_write =? length data)%nat then Some (bytes_bits data, [])
  else
    match room with
    | 0 => None
    | S room =>
        child ← write_chunk room 0 (drop bytes_to_write data);
        cell ← build_cell child.1 child.2;
        Some (bytes_bits (take bytes_to_write data), [cell])
    end.

(** [write_definition] after [used] bits; every link but the first takes 127 bytes. *)
Definition write_snake (used : nat) (data : bytes) : option (list bool * list Cell) :=
  write_chunk (length data) used data.

(** [read_chunk]: whole bytes only. *)
Definition read_chunk (p : CellParser) : option bytes :=
  let bits := cp_bits p in
  if (length bits mod 8 =? 0)%nat then Some (bits_bytes (length bits / 8) bits) else None.

(** [read_definition], with at most [room] links. *)
Fixpoint read_snake (room : nat) (p : CellParser) : option bytes :=
  data ← read_chunk p;
  match cp_refs p with
  | [] => Some data
  | next :: _ =>
      match room with
      | 0 => None
      | S room => app data <$> read_snake room (parser next)
      end
  end.

(** ** Properties *)

Lemma read_chunk_bytes data refs : u8s data -> read_chunk (mkCellParser (bytes_bits data) refs) = Some data.
Proof.
  intros Hu. unfold read_chunk. cbn [cp_bits]. rewrite bytes_bits_length, Nat.mul_comm.
  rewrite Nat.Div0.mod_mul, Nat.div_mul by done. cbn. by rewrite bits_bytes_of.
Qed.

(** What was written is read back. *)
Lemma snake_roundtrip room used data bits refs reader :
  u8s data -> write_chunk room used data = Some (bits, refs) -> room <= reader ->
  read_snake reader (mkCellParser bits refs) = Some data.
Proof.
  revert used data bits refs reader. induction room as [|room IH]; intros used data bits refs reader Hu Hw Hr;
    cbn [write_chunk] in Hw; destruct (Nat.eqb_spec (Nat.min (length data) ((MAX_DATA_BITS - used) / 8)) (length data)).
  1, 3: injection Hw as <- <-; destruct reader; cbn [read_snake]; by rewrite read_chunk_bytes.
  - done.
  - set (size := Nat.min _ _) in *. apply bind_Some in Hw as ([cb cr] & Hc & Hw).
    apply bind_Some in Hw as (cell & Hb & [= <- <-]). cbn [fst snd] in Hb.
    destruct reader as [|reader]; [lia|]. cbn [read_snake].
    rewrite read_chunk_bytes by (by apply Forall_take). cbn [mbind option_bind cp_refs].
    apply build_cell_content in Hb as [Hbits Hrefs]. unfold parser. rewrite Hbits, Hrefs.
    rewrite (IH _ _ _ _ _ (Forall_drop _ size _ Hu) Hc) by lia. cbn. by rewrite take_drop.
Qed.

(** The writer always has room: only the builder can refuse. *)
Lemma snake_written used data :
  (forall bits refs, length bits <= MAX_DATA_BITS -> length refs <= 4 -> is_Some (build_cell bits refs)) ->
  used + 8 <= MAX_DATA_BITS -> is_Some (write_snake used data).
Proof.
  intros Hbuild. unfold write_snake.
  assert (forall room used data, length data <= room -> used + 8 <= MAX_DATA_BITS ->
    exists bits refs, write_chunk room used data = Some (bits, refs) /\
      length bits <= MAX_DATA_BITS - used /\ length refs <= 1) as Hall.
  { clear used data. induction room as [|room IH]; intros used data Hl Hu; cbn [write_chunk];
      (destruct (Nat.eqb_spec (Nat.min (length data) ((MAX_DATA_BITS - used) / 8)) (length data)) as [Hm|Hm];
       [do 2 eexists; split; [done|]; rewrite bytes_bits_length; pose proof (Nat.Div0.mul_div_le (MAX_DATA_BITS - used) 8);
        cbn [length]; lia|]).
    - assert (1 <= (MAX_DATA_BITS - used) / 8) by (apply Nat.div_le_lower_bound; lia). lia.
    - assert (1 <= (MAX_DATA_BITS - used) / 8) by (apply Nat.div_le_lower_bound; lia).
      set (n := Nat.min _ _) in *.
      destruct (IH 0 (drop n data)) as (cb & cr & Hc & Hcb & Hcr); [rewrite length_drop; lia|unfold MAX_DATA_BITS; lia|].
      rewrite Hc. cbn [mbind option_bind fst snd].
      destruct (Hbuild cb cr) as [cell Hcell]; [lia|lia|]. rewrite Hcell. cbn [mbind option_bind].
      do 2 eexists. split; [done|]. rewrite bytes_bits_length, length_take.
      pose proof (Nat.Div0.mul_div_le (MAX_DATA_BITS - used) 8). cbn [length]. lia. }
  intros Hu. destruct (Hall (length data) used data) as (bits & refs & -> & _); [lia|done|by eexists].
Qed.
End Snake.
