(* ===== verification/Transfer.v ===== *)
(** * Building and signing transfers

    src/wallet/transfer.rs: the messages of an intent as cells, the signed request around
    them, and the durable material of a send. *)

From stdpp Require Import base numbers list option strings.
From S2P Require Import Prelude BoundaryTypes SendDomain Base64 ClientDomain CellBoc CellBocSpec.
From S2P Require Import SendWorkflow ClientState SendEngine ConnectValues ConnectSigning.
From S2P Require Import ConnectWalletState SnakeData WordList Mnemonic WalletContract WalletKeys.
From S2P Require Import Json ProviderRequest ClientCalls Futures Resolution SendRuns.
From S2P Require Import ConnectSigningSpec.

Definition u128_max : N := 340282366920938463463374607431768211455.

Definition SEND_MODE_PAY_FEES_SEPARATELY : N := 1.
Definition SEND_MODE_IGNORE_ERRORS : N := 2.
Definition SEND_MODE_CARRY_ALL_BALANCE : N := 128.
Definition EXACT_AMOUNT_SEND_MODE : N := N.lor SEND_MODE_PAY_FEES_SEPARATELY SEND_MODE_IGNORE_ERRORS.
Definition ALL_BALANCE_SEND_MODE : N := N.lor SEND_MODE_CARRY_ALL_BALANCE SEND_MODE_IGNORE_ERRORS.

(** The sources of the errors of the ton crates are not part of the texts. *)
Inductive TransferError :=
  | Transfer_MnemonicEncoding
  | Transfer_WalletDerivation (error : WalletCryptoError)
  | Transfer_AmountOutOfRange
  | Transfer_InvalidIntent (error : SendIntentError)
  | Transfer_ExpirationOutOfRange
  | Transfer_PublicKeyMismatch
  | Transfer_RotatedWalletRequiresActiveAccount
  | Transfer_InternalMessage
  | Transfer_ExternalMessage
  | Transfer_MessageNormalization
  | Transfer_MessageHash
  | Transfer_InvalidMessageHash
  | Transfer_BocEncoding
  | Transfer_InvalidBoc (error : BocError)
  | Transfer_PreparedMessageNotExternal
  | Transfer_PreparedMessageDestinationMismatch.

Definition intent_error_text (error : SendIntentError) : rstr :=
  match error with
  | InvalidMessageCount => lit "wallet message batch must contain between 1 and 255 messages"
  | WholeBalanceInBatch => lit "whole-balance transfer must be the only message in its batch"
  end.

Definition transfer_error_text (error : TransferError) : rstr :=
  match error with
  | Transfer_MnemonicEncoding => lit "mnemonic is not valid UTF-8"
  | Transfer_WalletDerivation _ => lit "wallet derivation failed"
  | Transfer_AmountOutOfRange => lit "transfer amount exceeds the TON coin representation"
  | Transfer_InvalidIntent error => intent_error_text error
  | Transfer_ExpirationOutOfRange =>
      lit "transfer expiration timestamp exceeds the wallet uint32 field"
  | Transfer_PublicKeyMismatch =>
      lit "wallet public key does not derive the configured source address"
  | Transfer_RotatedWalletRequiresActiveAccount =>
      lit "a rotated recovery phrase requires an already deployed wallet"
  | Transfer_InternalMessage => lit "internal message construction failed"
  | Transfer_ExternalMessage => lit "external message signing failed"
  | Transfer_MessageNormalization => lit "signed message normalization failed"
  | Transfer_MessageHash => lit "normalized message hash calculation failed"
  | Transfer_InvalidMessageHash => lit "normalized message hash has an invalid size"
  | Transfer_BocEncoding => lit "signed BOC encoding failed"
  | Transfer_InvalidBoc _ => lit "signed BOC validation failed"
  | Transfer_PreparedMessageNotExternal => lit "prepared BOC is not an incoming external message"
  | Transfer_PreparedMessageDestinationMismatch =>
      lit "prepared BOC destination does not match the configured wallet"
  end.

#[export] Instance MsgAddressInt_eq_dec : EqDecision MsgAddressInt.
Proof. solve_decision. Defined.

Module Signer.
Section Transfer.
Context `{Sha256} `{Sha512} `{Ed25519Keys} `{TonMessages} `{Base64Engine}.

(** ** Messages *)

(** Four zero bytes and the text. *)
Definition build_comment_body (comment : rstr) : result TransferError Cell :=
  let opcode := bytes_bits [0; 0; 0; 0]%N in
  let? data := ok_or Transfer_InternalMessage (write_snake (length opcode) (utf8 comment)) in
  ok_or Transfer_InternalMessage (build_cell (opcode ++ data.1) data.2).

(** The value of a message and its send mode. *)
Definition message_value (amount : SendAmount) : result TransferError (N * N) :=
  match amount with
  | Amount_Exact nanograms =>
      if (uds_value nanograms <=? u128_max)%N then Ok (uds_value nanograms, EXACT_AMOUNT_SEND_MODE)
      else Err Transfer_AmountOutOfRange
  | Amount_All => Ok (0%N, ALL_BALANCE_SEND_MODE)
  end.

Definition message_body (body : SendMessageBody) : result TransferError Cell :=
  match body with
  | Body_Empty => Ok empty_cell_of
  | Body_Comment text => build_comment_body text
  | Body_RawPayload boc => ok_or Transfer_InternalMessage (ton_core_root (boc_bytes boc))
  end.

Definition message_init (state_init : option Boc) : result TransferError (option StateInit) :=
  match state_init with
  | None => Ok None
  | Some boc => rmap Some (ok_or Transfer_InternalMessage (state_init_from_boc (boc_bytes boc)))
  end.

Definition build_internal_message (message : SendMessage) : result TransferError (Cell * N) :=
  let? value := message_value (sm_amount message) in
  let? body := message_body (sm_body message) in
  let? init := message_init (sm_state_init message) in
  let? cell := ok_or Transfer_InternalMessage
    (msg_to_cell (mkMsg (Info_Int (Some (to_msg_address_int (tas_address (sm_destination message))))
                           value.1 (sm_bounce message)) init body)) in
  Ok (cell, value.2).

Fixpoint build_internal_messages (messages : list SendMessage)
  : result TransferError (list Cell * list N) :=
  match messages with
  | [] => Ok ([], [])
  | message :: rest =>
      let? built := build_internal_message message in
      let? rest := build_internal_messages rest in
      Ok (built.1 :: rest.1, built.2 :: rest.2)
  end.

(** ** Transfers *)

(** [u32::try_from]. *)
Definition wallet_valid_until (valid_until : N) : result TransferError N :=
  if (valid_until <=? u32_max)%N then Ok valid_until else Err Transfer_ExpirationOutOfRange.

Definition message_hash_of (hash : option bytes) : result TransferError Base64Hash :=
  let? data := ok_or Transfer_MessageHash hash in
  ok_or Transfer_InvalidMessageHash (base64_hash_from_bytes data).

Definition signed_boc_of (cell : Cell) : result TransferError Boc :=
  let? data := ok_or Transfer_BocEncoding (cell_to_boc cell) in
  map_err Transfer_InvalidBoc (boc_try_from_bytes data).

Definition prepare_signed_boc (record_id : NonEmptyString) (source : TonAddressString)
    (request : SendBocRequest) : result TransferError PreparedTransfer :=
  let? _ := wallet_valid_until (sb_valid_until request) in
  let? root := ok_or Transfer_MessageNormalization (ton_core_root (boc_bytes (sb_signed_boc request))) in
  let? normalized := ok_or Transfer_MessageNormalization (msg_from_cell root) in
  match msg_info normalized with
  | Info_ExtIn destination =>
      if negb (bool_decide (destination = Some (to_msg_address_int (tas_address source))))
      then Err Transfer_PreparedMessageDestinationMismatch
      else
        let? message_hash := message_hash_of (cell_hash_normalized normalized) in
        Ok (mkPreparedTransfer (sb_operation_id request) record_id source Kind_External []
              (sb_seqno request) (bool_decide (is_Some (msg_init normalized)))
              (sb_valid_until request) (sb_signed_boc request) message_hash)
  | _ => Err Transfer_PreparedMessageNotExternal
  end.

Definition prepare_transfer (mnemonic_bytes : bytes) (record_id : NonEmptyString)
    (source : TonAddressString) (network : Network) (request : SendRequest)
    (account : FreshSendAccount) (valid_until : N) : result TransferError PreparedTransfer :=
  let? mnemonic := ok_or Transfer_MnemonicEncoding (from_utf8 mnemonic_bytes) in
  let? wallet := map_err Transfer_WalletDerivation (derive_wallet mnemonic network) in
  if needs_state_init account && negb (is_pre_rotation wallet)
  then Err Transfer_RotatedWalletRequiresActiveAccount
  else
    let? _ := map_err Transfer_InvalidIntent (exact_value_total (sr_intent request)) in
    let messages := si_messages (sr_intent request) in
    let? built := build_internal_messages messages in
    let? expiry := wallet_valid_until valid_until in
    let? external := ok_or Transfer_ExternalMessage
      (create_ext_in_msg_with_modes wallet built.1 built.2 (fa_seqno account) expiry
         (needs_state_init account)) in
    let? normalized := ok_or Transfer_MessageNormalization (msg_from_cell external) in
    let? message_hash := message_hash_of (cell_hash_normalized normalized) in
    let? signed_boc := signed_boc_of external in
    Ok (mkPreparedTransfer (sr_operation_id request) record_id source Kind_External messages
          (fa_seqno account) (needs_state_init account) valid_until signed_boc message_hash).

Definition prepare_internal_signed_transfer (mnemonic_bytes : bytes) (record_id : NonEmptyString)
    (source : TonAddressString) (network : Network) (request : SendRequest)
    (account : FreshSendAccount) (valid_until : N) : result TransferError PreparedTransfer :=
  let? mnemonic := ok_or Transfer_MnemonicEncoding (from_utf8 mnemonic_bytes) in
  let? wallet := map_err Transfer_WalletDerivation (derive_wallet mnemonic network) in
  if needs_state_init account && negb (is_pre_rotation wallet)
  then Err Transfer_RotatedWalletRequiresActiveAccount
  else
    let? _ := map_err Transfer_InvalidIntent (exact_value_total (sr_intent request)) in
    let messages := si_messages (sr_intent request) in
    let? built := build_internal_messages messages in
    let? expiry := wallet_valid_until valid_until in
    let? signed := ok_or Transfer_ExternalMessage
      (create_internal_signed_msg_with_modes wallet built.1 built.2 (fa_seqno account) expiry
         (needs_state_init account)) in
    let? message := ok_or Transfer_MessageNormalization (msg_from_cell signed) in
    let? message_hash := message_hash_of (cell ← msg_to_cell message; cell_hash cell) in
    let? signed_boc := signed_boc_of signed in
    Ok (mkPreparedTransfer (sr_operation_id request) record_id source Kind_Internal messages
          (fa_seqno account) (needs_state_init account) valid_until signed_boc message_hash).

Definition prepare_transfer_pair (mnemonic_bytes : bytes) (record_id : NonEmptyString)
    (source : TonAddressString) (network : Network) (request : SendRequest)
    (account : FreshSendAccount) (valid_until : N)
  : result TransferError (PreparedTransfer * PreparedTransfer) :=
  let? external := prepare_transfer mnemonic_bytes record_id source network request account valid_until in
  let? internal := prepare_internal_signed_transfer mnemonic_bytes record_id source network request
                     account valid_until in
  Ok (external, internal).

(** The preview: zero bytes in the place of the signature. *)
Definition prepare_transfer_emulation (source : TonAddressString) (public_key : bytes)
    (network : Network) (intent : SendIntent) (account : FreshSendAccount) (valid_until : N)
  : result TransferError Boc :=
  let? _ := map_err Transfer_InvalidIntent (exact_value_total intent) in
  let? built := build_internal_messages (si_messages intent) in
  let? expiry := wallet_valid_until valid_until in
  let? body := ok_or Transfer_ExternalMessage
    (build_request (wallet_contract_id network) expiry (fa_seqno account) built.1 built.2 true) in
  let? signed := ok_or Transfer_InternalMessage
    (build_cell (bytes_bits (repeat 0%N 64) ++ cell_bits body) (cell_refs body)) in
  let? init :=
    if needs_state_init account then
      let? derived := map_err Transfer_WalletDerivation (derive_wallet_public_state public_key network) in
      if negb (bool_decide (derived.1 = tas_address source)) then Err Transfer_PublicKeyMismatch
      else Ok (Some derived.2)
    else Ok None in
  let? external := ok_or Transfer_InternalMessage
    (msg_to_cell (mkMsg (Info_ExtIn (Some (to_msg_address_int (tas_address source)))) init signed)) in
  signed_boc_of external.

Definition derive_source (mnemonic_bytes : bytes) (network : Network) : result TransferError TonAddress :=
  let? mnemonic := ok_or Transfer_MnemonicEncoding (from_utf8 mnemonic_bytes) in
  let? wallet := map_err Transfer_WalletDerivation (derive_wallet mnemonic network) in
  Ok (tw_address (sw_wallet wallet)).
End Transfer.
End Signer.

(** * What a signed transfer means

    The message that the engine signs decodes, the way the wallet contract reads it, to
    exactly the intent it was built from; the preview differs from it in the signature
    only; and what [send] submits is such a message. *)
Import Transfer.Signer.

Section Spec.
Context `{Sha256} `{Sha512} `{Ed25519Keys} `{TonMessages} `{Base64Engine}.

(** ** Messages *)

(** The body that a message asks for; a comment is the text behind four zero bytes. *)
Definition says (body : SendMessageBody) (cell : Cell) : Prop :=
  match body with
  | Body_Empty => cell = empty_cell_of
  | Body_Comment text =>
      exists rest, read_bits 32 (parser cell) = Some (repeat false 32, rest) /\
        read_snake (length (utf8 text)) rest = Some (utf8 text)
  | Body_RawPayload boc => ton_core_root (boc_bytes boc) = Some cell
  end.

Definition installs (state_init : option Boc) (init : option StateInit) : Prop :=
  match state_init with
  | None => init = None
  | Some boc => init = state_init_from_boc (boc_bytes boc) /\ is_Some init
  end.

Definition sends (amount : SendAmount) (value mode : N) : Prop :=
  match amount with
  | Amount_Exact nanograms => value = uds_value nanograms /\ mode = 3%N
  | Amount_All => value = 0%N /\ mode = 130%N
  end.

(** The item of a request that carries a message. *)
Definition carried (message : SendMessage) (item : N * Cell) : Prop :=
  exists value init body,
    msg_from_cell item.2
    = Some (mkMsg (Info_Int (Some (to_msg_address_int (tas_address (sm_destination message)))) value
                     (sm_bounce message)) init body) /\
    sends (sm_amount message) value item.1 /\ says (sm_body message) body /\
    installs (sm_state_init message) init.

Lemma comment_says text cell : build_comment_body text = Ok cell -> says (Body_Comment text) cell.
Proof.
  unfold build_comment_body. intros ([bits refs] & Hw%ok_or_ok & Hb%ok_or_ok)%rbind_ok.
  apply build_cell_content in Hb as [Hbits Hrefs]. cbn [fst snd] in *.
  exists (mkCellParser bits refs). split.
  - unfold read_bits, parser. cbn [cp_bits cp_refs]. rewrite Hbits, Hrefs, length_app, bytes_bits_length.
    rewrite (proj2 (Nat.leb_le _ _)) by (simpl; lia). done.
  - eapply snake_roundtrip; [apply utf8_bytes|exact Hw|done].
Qed.

Lemma message_carried message built :
  build_internal_message message = Ok built -> carried message (built.2, built.1).
Proof.
  unfold build_internal_message. intros ([value mode] & Hv & Hm)%rbind_ok.
  apply rbind_ok in Hm as (body & Hb & Hm). apply rbind_ok in Hm as (init & Hi & Hm).
  apply rbind_ok in Hm as (cell & Hc%ok_or_ok & [= <-]). cbn [fst snd] in *.
  exists value, init, body. split; [by apply msg_from_to|]. split; [|split].
  - unfold message_value in Hv. destruct (sm_amount message) as [nanograms|]; [|by injection Hv as <- <-].
    destruct (_ <=? _)%N; [|done]. by injection Hv as <- <-.
  - unfold message_body in Hb. destruct (sm_body message) as [|text|boc]; cbn [says].
    + by injection Hb as <-.
    + by apply comment_says.
    + by apply ok_or_ok in Hb.
  - unfold message_init in Hi. destruct (sm_state_init message) as [boc|]; cbn [installs]; [|by injection Hi as <-].
    destruct (state_init_from_boc (boc_bytes boc)); [|done]. injection Hi as <-. by split.
Qed.

Lemma messages_carried messages built :
  build_internal_messages messages = Ok built ->
  length built.1 = length messages /\ length built.2 = length messages /\
  Forall2 carried messages (zip built.2 built.1) /\ Forall (fun mode => mode < 256)%N built.2.
Proof.
  revert built. induction messages as [|message messages IH]; intros built; cbn [build_internal_messages].
  - by intros [= <-].
  - intros (one & Hone & Hb)%rbind_ok. apply rbind_ok in Hb as (rest & Hrest & [= <-]).
    destruct (IH _ Hrest) as (Hl & Hl' & Hf & Hm). cbn [fst snd length zip zip_with].
    apply message_carried in Hone as Hc. repeat split; [lia|lia|by constructor|constructor; [|done]].
    destruct Hc as (value & init & body & _ & Hs & _). cbn [fst] in Hs. unfold sends in Hs.
    destruct (sm_amount message); destruct Hs as [_ ->]; lia.
Qed.

(** ** Requests *)

(** The body of a signed message: the signature of the wallet's signing key over a
    request that carries the messages. *)
Definition authorizes (key : bytes) (external : bool) (wallet_id : Z) (seqno valid_until : N)
    (messages : list SendMessage) (body : Cell) : Prop :=
  exists request hash signature items,
    cell_hash request = Some hash /\ verify_strict key hash signature = Some true /\
    cell_bits body = bytes_bits signature ++ cell_bits request /\ cell_refs body = cell_refs request /\
    read_signed 255 external (parser body)
    = Some (mkParsedRequest wallet_id valid_until seqno items, signature) /\
    Forall2 carried messages items.

(** A request behind 512 bits reads back. *)
Lemma signed_request_read signature body signed external wallet_id valid_until seqno msgs modes :
  length signature = 64 -> u8s signature ->
  build_cell (bytes_bits signature ++ cell_bits body) (cell_refs body) = Some signed ->
  build_request wallet_id valid_until seqno msgs modes external = Some body ->
  (-2147483648 <= wallet_id <= 2147483647)%Z -> (valid_until <= u32_max)%N -> (seqno <= u32_max)%N ->
  Forall (fun mode => mode < 256)%N modes -> length msgs <= 255 ->
  cell_bits signed = bytes_bits signature ++ cell_bits body /\ cell_refs signed = cell_refs body /\
  read_signed 255 external (parser signed)
  = Some (mkParsedRequest wallet_id valid_until seqno (zip modes msgs), signature).
Proof.
  intros Hl Hu [Hbits Hrefs]%build_cell_content Hb Hid Hv Hs Hm Hlen. split; [done|]. split; [done|].
  unfold read_signed, read_bits, parser. cbn [cp_bits cp_refs]. rewrite Hbits, Hrefs, length_app, bytes_bits_length, Hl.
  rewrite (proj2 (Nat.leb_le _ _)) by lia. cbn [mbind option_bind fst snd].
  assert (length (bytes_bits signature) = 512) as H512 by (rewrite bytes_bits_length, Hl; done).
  rewrite take_app_length', drop_app_length' by done.
  change (mkCellParser (cell_bits body) (cell_refs body)) with (parser body).
  rewrite (request_roundtrip _ _ _ _ _ _ _ 255 Hb) by done. cbn [mbind option_bind].
  by rewrite <- Hl, bits_bytes_of.
Qed.

Lemma contract_id_i32 network : (-2147483648 <= wallet_contract_id network <= 2147483647)%Z.
Proof. by destruct network; vm_compute. Qed.

(** The wallet of a phrase has the identifier of its network. *)
Lemma derived_wallet_id phrase network wallet :
  derive_wallet phrase network = Ok wallet ->
  tw_wallet_id (sw_wallet wallet) = wallet_contract_id network /\
  (forall state, wallet_state_init (sw_wallet wallet) = Some state ->
     state_init_address state 0 = Some (tw_address (sw_wallet wallet))).
Proof.
  unfold derive_wallet. intros (mnemonic & _ & Hw)%rbind_ok.
  apply rbind_ok in Hw as (w & Hw%ok_or_ok & [= <-]). cbn [sw_wallet].
  unfold ton_wallet_new in Hw. apply bind_Some in Hw as (key & Hk & Hw).
  apply bind_Some in Hw as (data & Hd & Hw). apply bind_Some in Hw as (address & Ha & [= <-]).
  split; [done|]. intros state Hs. unfold wallet_state_init in Hs. apply bind_Some in Hs as (key' & Hk' & Hs).
  assert (key' = key) as -> by (cbn in Hk', Hk; congruence).
  apply fmap_Some in Hs as (data' & Hd' & ->). cbn [tw_wallet_id tw_address] in *.
  assert (data' = data) as -> by congruence. done.
Qed.

(** The public state of the anchor key is the deployment state of the wallet. *)
Lemma wallet_public_state phrase network wallet address state :
  derive_wallet phrase network = Ok wallet ->
  derive_wallet_public_state (kp_public_key (tw_key_pair (sw_wallet wallet))) network = Ok (address, state) ->
  wallet_state_init (sw_wallet wallet) = Some state.
Proof.
  intros [Hid _]%derived_wallet_id. unfold derive_wallet_public_state, wallet_state_init. rewrite Hid.
  intros (key & Hk%ok_or_ok & Hd)%rbind_ok. rewrite Hk. cbn [mbind option_bind].
  apply rbind_ok in Hd as (data & Hd'%ok_or_ok & Hd). rewrite Hd'.
  by apply rbind_ok in Hd as (a & _ & [= _ <-]).
Qed.

Lemma request_authorized key body signed messages built external network seqno expiry :
  build_internal_messages messages = Ok built ->
  build_request (wallet_contract_id network) expiry seqno built.1 built.2 external = Some body ->
  sign_with key body = Some signed -> (expiry <= u32_max)%N -> (seqno <= u32_max)%N ->
  authorizes (public_key key) external (wallet_contract_id network) seqno expiry messages signed.
Proof.
  intros Hm Hb Hs He Hq. destruct (messages_carried _ _ Hm) as (Hl & _ & Hf & Hmodes).
  apply bind_Some in Hs as (hash & Hh & Hs).
  pose proof (build_request_shape _ _ _ _ _ _ _ Hb) as (_ & Hmax & _).
  destruct (signed_request_read _ _ _ _ _ _ _ _ _ (ed25519_sign_length (sk_bytes key) hash)
    (ed25519_sign_u8s (sk_bytes key) hash) Hs Hb (contract_id_i32 network) He Hq Hmodes Hmax) as (Hbits & Hrefs & Hr).
  exists body, hash, (ed25519_sign (sk_bytes key) hash), (zip built.2 built.1).
  split; [done|]. split; [apply verify_sign|]. split; [done|]. split; [done|]. split; [exact Hr|done].
Qed.

(** ** Transfers *)

Definition is_external (kind : SignedMessageKind) : bool :=
  match kind with Kind_External => true | Kind_Internal => false end.

(** The envelope of a signed message. *)
Definition addressed_to (kind : SignedMessageKind) (address : TonAddress) : CommonMsgInfo :=
  match kind with
  | Kind_External => Info_ExtIn (Some (to_msg_address_int address))
  | Kind_Internal => Info_Int (Some (to_msg_address_int address)) 0 false
  end.

(** The state is sent exactly when the account needs it; it then belongs to the address
    and holds the key that signed. *)
Definition deploys (wallet : SensitiveWallet) (needed : bool) (init : option StateInit) : Prop :=
  if needed then
    exists state, init = Some state /\ wallet_state_init (sw_wallet wallet) = Some state /\
      state_init_address state 0 = Some (tw_address (sw_wallet wallet)) /\
      kp_public_key (tw_key_pair (sw_wallet wallet)) = signing_public_key wallet
  else init = None.

(** The signed bytes are a message of the wallet behind the secret that authorizes
    exactly the messages of the request. *)
Definition executes_intent (kind : SignedMessageKind) (secret : bytes) (network : Network)
    (request : SendRequest) (account : FreshSendAccount) (valid_until : N) (boc : Boc) : Prop :=
  exists phrase wallet root init body,
    from_utf8 secret = Some phrase /\ derive_wallet phrase network = Ok wallet /\
    parse_root_cell (boc_bytes boc) = Some root /\
    msg_from_cell root = Some (mkMsg (addressed_to kind (tw_address (sw_wallet wallet))) init body) /\
    deploys wallet (needs_state_init account) init /\
    authorizes (signing_public_key wallet) (is_external kind) (wallet_contract_id network)
      (fa_seqno account) valid_until (si_messages (sr_intent request)) body.

Definition prepare (kind : SignedMessageKind) :=
  match kind with
  | Kind_External => prepare_transfer
  | Kind_Internal => prepare_internal_signed_transfer
  end.

(** What was built for a wallet, with the steps that both channels share. *)
Lemma built_message kind wallet network phrase messages built account expiry (cell : Cell) :
  derive_wallet phrase network = Ok wallet -> build_internal_messages messages = Ok built ->
  needs_state_init account && negb (is_pre_rotation wallet) = false ->
  (match kind with
   | Kind_External => create_ext_in_msg_with_modes
   | Kind_Internal => create_internal_signed_msg_with_modes
   end) wallet built.1 built.2 (fa_seqno account) expiry (needs_state_init account) = Some cell ->
  (expiry <= u32_max)%N -> (fa_seqno account <= u32_max)%N ->
  exists init body,
    msg_from_cell cell = Some (mkMsg (addressed_to kind (tw_address (sw_wallet wallet))) init body) /\
    deploys wallet (needs_state_init account) init /\
    authorizes (signing_public_key wallet) (is_external kind) (wallet_contract_id network)
      (fa_seqno account) expiry messages body.
Proof.
  intros Hw Hm Hrot Hc He Hs. destruct (derived_wallet_id _ _ _ Hw) as [Hid Hstate].
  assert (exists body signed init,
    build_request (wallet_contract_id network) expiry (fa_seqno account) built.1 built.2 (is_external kind) = Some body /\
    sign_with (sw_signing wallet) body = Some signed /\
    with_state_init (sw_wallet wallet) (needs_state_init account) = Some init /\
    msg_to_cell (mkMsg (addressed_to kind (tw_address (sw_wallet wallet))) init signed) = Some cell)
    as (body & signed & init & Hb & Hsig & Hinit & Hmsg).
  { rewrite <- Hid. destruct kind; cbn [is_external addressed_to];
      apply bind_Some in Hc as (body & Hb & Hc); apply bind_Some in Hc as (signed & Hsig & Hc);
      apply bind_Some in Hc as (init & Hinit & Hc); by exists body, signed, init. }
  exists init, signed. split; [by apply msg_from_to|]. split.
  - unfold with_state_init in Hinit. unfold deploys. destruct (needs_state_init account); [|by injection Hinit as <-].
    apply fmap_Some in Hinit as (state & Hst & ->). exists state. split; [done|]. split; [done|].
    split; [by apply Hstate|]. cbn [andb] in Hrot. apply negb_false_iff in Hrot. unfold is_pre_rotation in Hrot.
    by apply bool_decide_eq_true in Hrot.
  - by eapply request_authorized.
Qed.

Lemma signed_boc_parsed cell boc : signed_boc_of cell = Ok boc -> parse_root_cell (boc_bytes boc) = Some cell.
Proof.
  unfold signed_boc_of. intros (data & Hd%ok_or_ok & Hb%map_err_ok)%rbind_ok.
  unfold boc_try_from_bytes in Hb. apply rbind_ok in Hb as (u & _ & Hb).
  destruct (ton_core_accepts data); [|done]. injection Hb as <-. by apply cell_to_boc_root.
Qed.

Lemma prepared_executes kind secret record_id source network request account valid_until prepared :
  prepare kind secret record_id source network request account valid_until = Ok prepared ->
  (fa_seqno account <= u32_max)%N ->
  executes_intent kind secret network request account valid_until (pt_signed_boc prepared) /\
  pt_messages prepared = si_messages (sr_intent request) /\ pt_kind prepared = kind /\
  pt_operation_id prepared = sr_operation_id request /\ pt_seqno prepared = fa_seqno account /\
  pt_valid_until prepared = valid_until.
Proof.
  intros Hp Hs. unfold prepare in Hp.
  assert (exists phrase wallet built cell, from_utf8 secret = Some phrase /\
    derive_wallet phrase network = Ok wallet /\
    needs_state_init account && negb (is_pre_rotation wallet) = false /\
    build_internal_messages (si_messages (sr_intent request)) = Ok built /\ (valid_until <= u32_max)%N /\
    (match kind with
     | Kind_External => create_ext_in_msg_with_modes
     | Kind_Internal => create_internal_signed_msg_with_modes
     end) wallet built.1 built.2 (fa_seqno account) valid_until (needs_state_init account) = Some cell /\
    exists hash boc, signed_boc_of cell = Ok boc /\
    prepared = mkPreparedTransfer (sr_operation_id request) record_id source kind
                 (si_messages (sr_intent request)) (fa_seqno account) (needs_state_init account) valid_until boc hash)
    as (phrase & wallet & built & cell & Hphrase & Hw & Hrot & Hm & Hv & Hc & hash & boc & Hboc & ->).
  { destruct kind; apply rbind_ok in Hp as (phrase & Hphrase%ok_or_ok & Hp);
      apply rbind_ok in Hp as (wallet & Hw%map_err_ok & [Hrot Hp]%if_err_ok);
      apply rbind_ok in Hp as (total & _ & Hp); apply rbind_ok in Hp as (built & Hm & Hp);
      apply rbind_ok in Hp as (expiry & Hv & Hp); unfold wallet_valid_until in Hv;
      (destruct (N.leb_spec valid_until u32_max) as [Hle|]; [|done]); injection Hv as <-;
      apply rbind_ok in Hp as (cell & Hc%ok_or_ok & Hp); apply rbind_ok in Hp as (message & _ & Hp);
      apply rbind_ok in Hp as (hash & _ & Hp); apply rbind_ok in Hp as (boc & Hboc & [= <-]);
      exists phrase, wallet, built, cell; do 6 (split; [done|]); by exists hash, boc. }
  split; [|done]. destruct (built_message _ _ _ _ _ _ _ _ _ Hw Hm Hrot Hc Hv Hs) as (init & body & Hmsg & Hd & Ha).
  exists phrase, wallet, cell, init, body. do 2 (split; [done|]). split; [by apply signed_boc_parsed|done].
Qed.

(** A prepared transfer is exactly what was asked for: the signed bytes decode, the
    way the wallet contract reads them, to a request of the wallet behind the secret with
    the fresh sequence number, the expiration and, in order, each message of the intent
    with its destination, value, send mode, bounce flag, body and initial state; the
    signature verifies under the signing key, and the deployment state is attached exactly
    when the account needs it and then holds that key.  This holds for external messages
    and for internal ones. *)
Theorem prepared_transfer_executes_intent kind secret record_id source network request account
    valid_until prepared :
  prepare kind secret record_id source network request account valid_until = Ok prepared ->
  (fa_seqno account <= u32_max)%N ->
  executes_intent kind secret network request account valid_until (pt_signed_boc prepared) /\
  pt_messages prepared = si_messages (sr_intent request) /\ pt_kind prepared = kind /\
  pt_operation_id prepared = sr_operation_id request /\ pt_seqno prepared = fa_seqno account /\
  pt_valid_until prepared = valid_until.
Proof. exact (prepared_executes kind secret record_id source network request account valid_until prepared). Qed.

(** ** Previews *)

(** the preview runs what will be signed: when a transfer and its emulation are both
    built for one wallet, account, intent and expiration, the two messages have the same
    destination and the same deployment state, and behind the 512 bits of the signature
    the same request, bit by bit and reference by reference. *)
Theorem emulation_matches_transfer secret record_id source network request account valid_until
    prepared public_key preview phrase wallet :
  from_utf8 secret = Some phrase -> derive_wallet phrase network = Ok wallet ->
  tw_address (sw_wallet wallet) = tas_address source ->
  kp_public_key (tw_key_pair (sw_wallet wallet)) = public_key ->
  prepare_transfer secret record_id source network request account valid_until = Ok prepared ->
  prepare_transfer_emulation source public_key network (sr_intent request) account valid_until = Ok preview ->
  exists root root' info init body body' signature request_bits,
    parse_root_cell (boc_bytes (pt_signed_boc prepared)) = Some root /\
    parse_root_cell (boc_bytes preview) = Some root' /\
    msg_from_cell root = Some (mkMsg info init body) /\ msg_from_cell root' = Some (mkMsg info init body') /\
    length signature = 512 /\ cell_bits body = signature ++ request_bits /\
    cell_bits body' = repeat false 512 ++ request_bits /\ cell_refs body = cell_refs body'.
Proof.
  intros Hphrase Hw Haddr Hkey Hp He. unfold prepare_transfer in Hp. rewrite Hphrase in Hp.
  cbn [ok_or rbind] in Hp. rewrite Hw in Hp. cbn [map_err rbind] in Hp. apply if_err_ok in Hp as [_ Hp].
  apply rbind_ok in Hp as (total & _ & Hp). apply rbind_ok in Hp as (built & Hm & Hp).
  apply rbind_ok in Hp as (expiry & Hv & Hp). apply rbind_ok in Hp as (cell & Hc%ok_or_ok & Hp).
  apply rbind_ok in Hp as (message & _ & Hp). apply rbind_ok in Hp as (hash & _ & Hp).
  apply rbind_ok in Hp as (boc & Hboc%signed_boc_parsed & [= <-]). cbn [pt_signed_boc].
  unfold prepare_transfer_emulation in He. apply rbind_ok in He as (total' & _ & He). rewrite Hm in He.
  cbn [rbind] in He. rewrite Hv in He. cbn [rbind] in He. apply rbind_ok in He as (body & Hb%ok_or_ok & He).
  apply rbind_ok in He as (zeroed & [Hzb Hzr]%ok_or_ok%build_cell_content & He).
  apply rbind_ok in He as (init & Hi & He). apply rbind_ok in He as (cell' & Hc'%ok_or_ok & He%signed_boc_parsed).
  destruct (derived_wallet_id _ _ _ Hw) as [Hid _].
  unfold create_ext_in_msg_with_modes in Hc. rewrite Hid, Hb in Hc. cbn [mbind option_bind] in Hc.
  apply bind_Some in Hc as (signed & Hs & Hc). apply bind_Some in Hs as (digest & _ & [Hsb Hsr]%build_cell_content).
  apply bind_Some in Hc as (init' & Hi' & Hc). rewrite Haddr in Hc.
  assert (init' = init) as ->.
  { unfold with_state_init in Hi'. destruct (needs_state_init account); [|congruence].
    apply rbind_ok in Hi as ([address state] & Hd%map_err_ok & [_ [= <-]]%if_err_ok).
    apply fmap_Some in Hi' as (state' & Hst & ->). rewrite <- Hkey in Hd.
    by rewrite (wallet_public_state _ _ _ _ _ Hw Hd) in Hst. }
  exists cell, cell', (Info_ExtIn (Some (to_msg_address_int (tas_address source)))), init, signed, zeroed,
    (bytes_bits (ed25519_sign (sk_bytes (sw_signing wallet)) digest)), (cell_bits body).
  split; [done|]. split; [done|]. split; [by apply msg_from_to|]. split; [by apply msg_from_to|].
  split; [by rewrite bytes_bits_length, ed25519_sign_length|]. split; [done|]. split; [by rewrite Hzb|congruence].
Qed.

(** ** Sending *)

(** The signer of the engine; the futures see the texts of its errors. *)
Definition engine_signer : WalletSigner := {|
  SendEngine.derive_source secret network :=
    map_err transfer_error_text (Signer.derive_source secret network);
  SendEngine.prepare_transfer secret record_id source network request account valid_until :=
    map_err transfer_error_text
      (Signer.prepare_transfer secret record_id source network request account valid_until);
  SendEngine.prepare_internal_signed_transfer secret record_id source network request account valid_until :=
    map_err transfer_error_text
      (Signer.prepare_internal_signed_transfer secret record_id source network request account valid_until);
  SendEngine.prepare_signed_boc record_id source request :=
    map_err transfer_error_text (Signer.prepare_signed_boc record_id source request);
|}.
#[local] Existing Instance engine_signer.

Context `{JournalCodec} `{SerdeJson} `{BigUintText} `{TonAddressText}.

(** C2: [send] submits the intent and nothing else.  In every run of [send], under any
    interleaving and any host answers, the submission request carries a message of the
    configured wallet, signed with the secret that was read, that authorizes exactly the
    messages of the request, and that was durable before. *)
Theorem send_submits_the_intent request s0 reserved s events s' f before r answer after :
  (start_send request s0).2 = Ok reserved ->
  runs (send_reserved request reserved) s events s' f ->
  events = before ++ Executed r answer :: after ->
  sv_submit_request_id reserved = Some (hr_id r) ->
  exists secret fresh valid_until p h0 m outcome,
    (exists read, Secret_Read read (Ok secret) ∈ before) /\
    Signer.derive_source secret (cfg_network (sv_config reserved))
    = Ok (tas_address (cfg_address (sv_config reserved))) /\
    executes_intent Kind_External secret (cfg_network (sv_config reserved)) request fresh valid_until
      (pt_signed_boc p) /\
    build_send_boc_request (sv_config reserved) (hr_id r) (pt_signed_boc p) = Ok r /\
    before = h0 ++ [Exchanged m (Ok outcome)] /\ jcr_applied outcome = true /\
    stores (jce_replacement m) p Stage_ReadyToSubmit.
Proof.
  intros Hstart Hrun Hsplit Hid.
  destruct (submission_origin _ _ _ _ _ _ _ _ _ _ _ Hstart Hrun Hsplit Hid)
    as (h0 & secret & fresh & until & p & m & o & [[read Hread] Hown] & Hp%map_err_ok & Hu & Hb & Ha & Hst & Hr).
  destruct (prepared_executes Kind_External _ _ _ _ _ _ _ _ Hp Hu) as [Hex _].
  exists secret, fresh, until, p, h0, m, o. split; [|by apply map_err_ok in Hown].
  exists read. rewrite Hb. apply elem_of_app. by left.
Qed.
End Spec.
