(* ===== verification/EncryptedComment.v ===== *)
(** * Encrypted comments

    src/wallet/encrypted_comment.rs: comments that only the two parties of a transfer can
    read, from the padding and the cipher to the cells of the message body.  The block
    cipher and the curve are the classes [AesBlocks] and [Curve25519]. *)

From stdpp Require Import base numbers list option strings.
From S2P Require Import Prelude BoundaryTypes SendDomain ClientDomain CellBoc CellBocSpec.
From S2P Require Import ConnectValues ConnectSigning ConnectWalletState SnakeData WordList.
From S2P Require Import Mnemonic WalletContract WalletKeys ConnectSigningSpec TransferLink.

(** ** Third-party code *)

(** [Aes256]: one block under a key of 32 bytes. *)
Class AesBlocks := {
  encrypt_block : bytes -> bytes -> bytes;
  decrypt_block : bytes -> bytes -> bytes;
  encrypt_block_length key block : length block = 16 -> length (encrypt_block key block) = 16;
  encrypt_block_u8s key block :
    Forall (fun b => b < 256)%N block -> Forall (fun b => b < 256)%N (encrypt_block key block);
  decrypt_encrypt_block key block :
    length block = 16 -> Forall (fun b => b < 256)%N block ->
    decrypt_block key (encrypt_block key block) = block;
}.

(** [CompressedEdwardsY::decompress] with [to_montgomery], [is_small_order] and
    [mul_clamped].  A public key is a point of full order, and a shared secret does not
    depend on the side that computes it. *)
Class Curve25519 `{Sha512} `{Ed25519Keys} := {
  EdwardsPoint : Type;
  decompress : bytes -> option EdwardsPoint;
  is_small_order : EdwardsPoint -> bool;
  mul_clamped : EdwardsPoint -> bytes -> bytes;
  public_key_point secret :
    exists point, decompress (verifying_key secret) = Some point /\ is_small_order point = false;
  mul_clamped_comm a b point_a point_b :
    decompress (verifying_key a) = Some point_a -> decompress (verifying_key b) = Some point_b ->
    mul_clamped point_b (take 32 (sha512 a)) = mul_clamped point_a (take 32 (sha512 b));
}.

(** ** Constants *)

Definition ENCRYPTED_COMMENT_OPCODE : N := 560454219.
Definition MAX_ENCRYPTED_COMMENT_BYTES : nat := 960.
Definition PUBLIC_KEY_BYTES : nat := 32.
Definition MESSAGE_KEY_BYTES : nat := 16.
Definition AES_BLOCK_BYTES : nat := 16.
Definition ROOT_PAYLOAD_BYTES : nat := 35.
Definition REF_PAYLOAD_BYTES : nat := 127.
Definition MAX_ENCRYPTED_PAYLOAD_BYTES : nat := 1024.

Inductive EncryptedCommentError :=
  | Comment_TooLong
  | Comment_InvalidMnemonic
  | Comment_WalletIdentityMismatch
  | Comment_InvalidPeerPublicKey
  | Comment_RecipientPublicKeyMismatch
  | Comment_RandomGeneration
  | Comment_InvalidBody
  | Comment_AuthenticationFailed
  | Comment_InvalidUtf8
  | Comment_CellEncoding.

Definition comment_error_text (error : EncryptedCommentError) : rstr :=
  match error with
  | Comment_TooLong => lit "the encrypted comment exceeds 960 UTF-8 bytes"
  | Comment_InvalidMnemonic => lit "the protected mnemonic is invalid"
  | Comment_WalletIdentityMismatch => lit "the protected mnemonic does not belong to this wallet"
  | Comment_InvalidPeerPublicKey => lit "the peer Ed25519 public key is invalid"
  | Comment_RecipientPublicKeyMismatch =>
      lit "the recipient public key does not match a supported wallet address with default parameters"
  | Comment_RandomGeneration => lit "secure random generation failed"
  | Comment_InvalidBody => lit "the encrypted comment body is malformed"
  | Comment_AuthenticationFailed => lit "the encrypted comment authentication failed"
  | Comment_InvalidUtf8 => lit "the decrypted comment is not valid UTF-8"
  | Comment_CellEncoding => lit "the encrypted comment cell could not be encoded"
  end.

Definition is_key_mismatch (error : EncryptedCommentError) : bool :=
  match error with
  | Comment_AuthenticationFailed | Comment_InvalidPeerPublicKey => true
  | _ => false
  end.

(** [slice::chunks]: pieces of [size] elements, the last one may be shorter.  Every piece
    takes at least one of the [room] elements. *)
Fixpoint chunks {A} (room size : nat) (data : list A) : list (list A) :=
  match room, data with
  | S room, _ :: _ => take size data :: chunks room size (drop size data)
  | _, _ => []
  end.

Definition xor_bytes : bytes -> bytes -> bytes := zip_with N.lxor.

(** [(comment_length + 31) & !15], minus the comment. *)
Definition padded_prefix_length (comment_length : N) : result EncryptedCommentError N :=
  ok_or Comment_InvalidBody
    (length ← checked_add usize_max comment_length 31;
     let length := N.ldiff length 15 in
     prefix ← (if (comment_length <=? length)%N then Some (length - comment_length)%N else None);
     if ((16 <=? prefix) && (prefix <=? 31))%N then Some prefix else None).

Section Comments.
Context `{Sha256} `{Curve25519} `{AesBlocks} `{TonStates} `{TonAddressText}.

Definition salt (address : TonAddressString) : rstr := to_base64 (tas_address address) true true true.

Definition comment_hmac (key data : bytes) : bytes := hmac_of_sha512 key data.

Definition ed25519_shared_secret (private_seed peer_public_key : bytes)
  : result EncryptedCommentError bytes :=
  let? point := ok_or Comment_InvalidPeerPublicKey
    (point ← decompress peer_public_key; if is_small_order point then None else Some point) in
  let shared := mul_clamped point (take 32 (sha512 private_seed)) in
  if bool_decide (shared = repeat 0%N 32) then Err Comment_InvalidPeerPublicKey else Ok shared.

(** ** Cipher block chaining *)

Fixpoint cbc_encrypt (key previous : bytes) (blocks : list bytes) : bytes :=
  match blocks with
  | [] => []
  | block :: rest =>
      let encrypted := encrypt_block key (xor_bytes block previous) in
      encrypted ++ cbc_encrypt key encrypted rest
  end.

Fixpoint cbc_decrypt (key previous : bytes) (blocks : list bytes) : bytes :=
  match blocks with
  | [] => []
  | encrypted :: rest => xor_bytes (decrypt_block key encrypted) previous ++ cbc_decrypt key encrypted rest
  end.

Definition whole_blocks (data : bytes) : bool :=
  negb (is_empty data) && (length data mod AES_BLOCK_BYTES =? 0)%nat.

Definition encrypt_aes_256_cbc (key iv data : bytes) : result EncryptedCommentError bytes :=
  if whole_blocks data
  then Ok (cbc_encrypt key iv (chunks (length data) AES_BLOCK_BYTES data))
  else Err Comment_InvalidBody.

Definition decrypt_aes_256_cbc (key iv data : bytes) : result EncryptedCommentError bytes :=
  if whole_blocks data
  then Ok (cbc_decrypt key iv (chunks (length data) AES_BLOCK_BYTES data))
  else Err Comment_InvalidBody.

(** ** Bodies *)

(** The cells of the chunks after the root, from the last one. *)
Fixpoint payload_cells (pieces : list bytes) : option (option Cell) :=
  match pieces with
  | [] => Some None
  | piece :: rest =>
      next ← payload_cells rest;
      cell ← build_cell (bytes_bits piece) (match next with Some c => [c] | None => [] end);
      Some (Some cell)
  end.

Definition encrypted_payload_boc (payload : bytes) : result EncryptedCommentError Boc :=
  if (MAX_ENCRYPTED_PAYLOAD_BYTES <? length payload)%nat || (length payload <? ROOT_PAYLOAD_BYTES)%nat
  then Err Comment_InvalidBody
  else
    let remaining := drop ROOT_PAYLOAD_BYTES payload in
    let? reference := ok_or Comment_CellEncoding
      (payload_cells (chunks (length remaining) REF_PAYLOAD_BYTES remaining)) in
    let? root := ok_or Comment_CellEncoding
      (build_cell (u32_bits ENCRYPTED_COMMENT_OPCODE ++ bytes_bits (take ROOT_PAYLOAD_BYTES payload))
         (match reference with Some c => [c] | None => [] end)) in
    let? data := ok_or Comment_CellEncoding (cell_to_boc root) in
    map_err (fun _ => Comment_CellEncoding) (boc_try_from_bytes data).

(** The links of the snake are cells of one bag, which is at most this deep. *)
Definition encrypted_payload (body : Boc) : result EncryptedCommentError bytes :=
  let? root := ok_or Comment_InvalidBody (ton_core_root (boc_bytes body)) in
  let? opcode := ok_or Comment_InvalidBody (read_num 32 (parser root)) in
  if negb (opcode.1 =? ENCRYPTED_COMMENT_OPCODE)%N then Err Comment_InvalidBody
  else
    let? payload := ok_or Comment_InvalidBody (read_snake (N.to_nat MAX_CELL_DEPTH) opcode.2) in
    if (length payload <? PUBLIC_KEY_BYTES + MESSAGE_KEY_BYTES + AES_BLOCK_BYTES)%nat
       || (MAX_ENCRYPTED_PAYLOAD_BYTES <? length payload)%nat
    then Err Comment_InvalidBody
    else Ok payload.

Definition validate_encrypted_comment_body (body : Boc) : result EncryptedCommentError unit :=
  rmap (fun _ => tt) (encrypted_payload body).

(** ** Encryption *)

Definition encrypt_with_prefix (sender_seed sender_public_key recipient_public_key : bytes)
    (sender : TonAddressString) (comment prefix : bytes) : result EncryptedCommentError Boc :=
  if (MAX_ENCRYPTED_COMMENT_BYTES <? length comment)%nat
     || negb ((16 <=? length prefix) && (length prefix <=? 31))%nat
     || negb (bool_decide (head prefix = Some (N.of_nat (length prefix))))
     || negb ((length prefix + length comment) mod AES_BLOCK_BYTES =? 0)%nat
  then Err Comment_InvalidBody
  else
    let padded_data := prefix ++ comment in
    let? shared_secret := ed25519_shared_secret sender_seed recipient_public_key in
    let message_key := take MESSAGE_KEY_BYTES (comment_hmac (utf8 (salt sender)) padded_data) in
    let x := comment_hmac shared_secret message_key in
    let? ciphertext := encrypt_aes_256_cbc (take 32 x) (take 16 (drop 32 x)) padded_data in
    encrypted_payload_boc (xor_bytes sender_public_key recipient_public_key ++ message_key ++ ciphertext).

Definition comment_keys (mnemonic_bytes : bytes) (network : Network) (expected_wallet : TonAddressString)
  : result EncryptedCommentError RotationKeys :=
  let? mnemonic := ok_or Comment_InvalidMnemonic (from_utf8 mnemonic_bytes) in
  let? mnemonic := map_err (fun _ => Comment_InvalidMnemonic) (rotation_parse mnemonic) in
  let keys := derive_rotation_keys mnemonic in
  let? derived := map_err (fun _ => Comment_InvalidMnemonic)
    (derive_wallet_public_state (public_key (rk_anchor keys)) network) in
  if bool_decide (derived.1 = tas_address expected_wallet) then Ok keys
  else Err Comment_WalletIdentityMismatch.

(** The random bytes of the prefix, the first of which is its length. *)
Definition comment_prefix (random : nat -> option bytes) (comment_length : nat)
  : result EncryptedCommentError bytes :=
  let? size := padded_prefix_length (N.of_nat comment_length) in
  let? filled := ok_or Comment_RandomGeneration (random (N.to_nat size)) in
  match filled with
  | [] => Err Comment_InvalidBody
  | _ :: rest => if (size <=? 255)%N then Ok (size :: rest) else Err Comment_InvalidBody
  end.

Definition encrypt_comment (random : nat -> option bytes) (mnemonic_bytes : bytes) (network : Network)
    (expected_sender : TonAddressString) (recipient_public_key : bytes) (comment : rstr)
  : result EncryptedCommentError Boc :=
  if (MAX_ENCRYPTED_COMMENT_BYTES <? length (utf8 comment))%nat then Err Comment_TooLong
  else
    let? keys := comment_keys mnemonic_bytes network expected_sender in
    let sender := rk_signing keys in
    if negb (length recipient_public_key =? PUBLIC_KEY_BYTES)%nat then Err Comment_InvalidPeerPublicKey
    else
      let? prefix := comment_prefix random (length (utf8 comment)) in
      encrypt_with_prefix (sk_bytes sender) (public_key sender) recipient_public_key expected_sender
        (utf8 comment) prefix.

(** ** Decryption *)

Definition decrypt_with_key (own_seed own_public_key : bytes) (sender : TonAddressString) (body : Boc)
  : result EncryptedCommentError rstr :=
  let? payload := encrypted_payload body in
  let public_key_xor := take PUBLIC_KEY_BYTES payload in
  let remainder := drop PUBLIC_KEY_BYTES payload in
  let message_key := take MESSAGE_KEY_BYTES remainder in
  let ciphertext := drop MESSAGE_KEY_BYTES remainder in
  if negb (whole_blocks ciphertext) then Err Comment_InvalidBody
  else
    let peer_public_key := xor_bytes own_public_key public_key_xor in
    let? shared_secret := ed25519_shared_secret own_seed peer_public_key in
    let x := comment_hmac shared_secret message_key in
    let? padded_data := decrypt_aes_256_cbc (take 32 x) (take 16 (drop 32 x)) ciphertext in
    let expected_message_key := comment_hmac (utf8 (salt sender)) padded_data in
    if negb (bool_decide (take MESSAGE_KEY_BYTES expected_message_key = message_key))
    then Err Comment_AuthenticationFailed
    else
      match padded_data with
      | [] => Err Comment_InvalidBody
      | prefix_length :: _ =>
          if negb ((16 <=? prefix_length) && (prefix_length <=? 31))%N
             || (N.of_nat (length padded_data) <? prefix_length)%N
          then Err Comment_InvalidBody
          else
            let comment := drop (N.to_nat prefix_length) padded_data in
            if (MAX_ENCRYPTED_COMMENT_BYTES <? length comment)%nat then Err Comment_InvalidBody
            else ok_or Comment_InvalidUtf8 (from_utf8 comment)
      end.

Fixpoint decrypt_comment_with_keys (keys : list SigningKey) (sender : TonAddressString) (body : Boc)
  : result EncryptedCommentError rstr :=
  match keys with
  | [] => Err Comment_AuthenticationFailed
  | key :: keys =>
      match decrypt_with_key (sk_bytes key) (public_key key) sender body with
      | Ok comment => Ok comment
      | Err error => if is_key_mismatch error then decrypt_comment_with_keys keys sender body else Err error
      end
  end.
End Comments.

(** * What an encrypted comment gives to its two readers

    Padding, cipher and snake cells undo each other, and the shared secret is the same on
    both sides: what the sender encrypted, the recipient and the sender read. *)

(** ** Pieces *)

Lemma chunks_concat {A} room size (data : list A) :
  size <> 0 -> length data <= room -> concat (chunks room size data) = data.
Proof.
  intros Hs. revert data. induction room as [|room IH]; intros [|a data] Hl; cbn [chunks concat]; [done|cbn in Hl; lia|done|].
  rewrite IH; [by rewrite take_drop|]. rewrite length_drop. cbn [length] in *. lia.
Qed.

Lemma chunks_Forall {A} (P : A -> Prop) room size (data : list A) :
  Forall P data -> Forall (Forall P) (chunks room size data).
Proof.
  revert data. induction room as [|room IH]; intros [|a data] Hd; cbn [chunks]; try constructor.
  - by apply Forall_take.
  - by apply IH, Forall_drop.
Qed.

Lemma chunks_whole {A} room size (data : list A) n :
  size <> 0 -> length data = n * size -> Forall (fun piece => length piece = size) (chunks room size data).
Proof.
  intros Hs. revert data n. induction room as [|room IH]; intros data n Hl; [constructor|].
  destruct data as [|a data]; cbn [chunks]; [constructor|]. destruct n as [|n]; [done|].
  constructor; [rewrite length_take, Hl; lia|]. apply (IH _ n). rewrite length_drop, Hl. lia.
Qed.

Lemma chunks_count {A} room size (data : list A) n :
  size <> 0 -> length data <= n * size -> length (chunks room size data) <= n.
Proof.
  intros Hs. revert data n. induction room as [|room IH]; intros data n Hl; [cbn; lia|].
  destruct data as [|a data]; cbn [chunks length]; [lia|]. destruct n as [|n]; [cbn in Hl; lia|].
  apply le_n_S, IH. rewrite length_drop. lia.
Qed.

Lemma whole_concat_length (blocks : list bytes) :
  Forall (fun block => length block = 16) blocks -> length (concat blocks) = 16 * length blocks.
Proof.
  induction 1 as [|block blocks Hb _ IH]; cbn [concat length]; [done|]. rewrite length_app, Hb, IH. lia.
Qed.

(** ** The cipher *)

Lemma xor_bytes_length a b : length a = length b -> length (xor_bytes a b) = length a.
Proof. intros Hl. unfold xor_bytes. rewrite length_zip_with. lia. Qed.

Lemma xor_bytes_u8s a b : u8s a -> u8s b -> u8s (xor_bytes a b).
Proof.
  intros Ha. revert b. unfold xor_bytes. induction Ha as [|x a Hx _ IH]; intros [|y b] Hb; try constructor.
  - apply Forall_cons in Hb as [Hy _]. change 256%N with (2 ^ 8)%N in *.
    destruct (N.eq_dec (N.lxor x y) 0%N) as [->|Hne]; [done|]. apply N.log2_lt_pow2; [lia|].
    eapply N.le_lt_trans; [apply N.log2_lxor|]. apply N.max_lub_lt.
    + destruct (N.eq_dec x 0%N) as [->|]; [done|]. apply N.log2_lt_pow2; [lia|done].
    + destruct (N.eq_dec y 0%N) as [->|]; [done|]. apply N.log2_lt_pow2; [lia|done].
  - apply IH. by apply Forall_cons in Hb as [_ ?].
Qed.

Lemma xor_bytes_comm a b : xor_bytes a b = xor_bytes b a.
Proof.
  unfold xor_bytes. rewrite <- zip_with_flip. apply zip_with_ext; [|done|done]. intros x y. apply N.lxor_comm.
Qed.

Section Spec.
Context `{Sha256} `{Curve25519} `{AesBlocks} `{TonStates} `{TonAddressText}.

Lemma cbc_encrypt_length key previous blocks :
  length previous = 16 -> Forall (fun block => length block = 16) blocks ->
  length (cbc_encrypt key previous blocks) = 16 * length blocks.
Proof.
  intros Hp Hb. revert previous Hp. induction Hb as [|block blocks Hl _ IH]; intros previous Hp; [done|].
  cbn [cbc_encrypt length].
  assert (length (encrypt_block key (xor_bytes block previous)) = 16) as He
    by (apply encrypt_block_length; rewrite xor_bytes_length; congruence).
  rewrite length_app, He, IH by done. lia.
Qed.

Lemma cbc_encrypt_u8s key previous blocks :
  u8s previous -> Forall u8s blocks -> u8s (cbc_encrypt key previous blocks).
Proof.
  intros Hp Hb. revert previous Hp. induction Hb as [|block blocks Hu _ IH]; intros previous Hp; [constructor|].
  cbn [cbc_encrypt]. assert (u8s (encrypt_block key (xor_bytes block previous))) as He
    by (by apply encrypt_block_u8s, xor_bytes_u8s).
  apply Forall_app. split; [done|by apply IH].
Qed.

(** Blocks come back whole. *)
Lemma cbc_roundtrip key previous blocks room :
  length previous = 16 -> u8s previous -> Forall (fun block => length block = 16) blocks ->
  Forall u8s blocks -> length blocks <= room ->
  cbc_decrypt key previous (chunks room AES_BLOCK_BYTES (cbc_encrypt key previous blocks)) = concat blocks.
Proof.
  intros Hp Hup Hl. revert previous room Hp Hup. unfold AES_BLOCK_BYTES.
  induction Hl as [|block blocks Hb _ IH]; intros previous room Hp Hup Hu Hr; [by destruct room|].
  apply Forall_cons in Hu as [Hub Hu]. destruct room as [|room]; [cbn in Hr; lia|]. cbn [cbc_encrypt].
  set (x := xor_bytes block previous). assert (length x = 16) as Hx by (unfold x; rewrite xor_bytes_length; congruence).
  assert (u8s x) as Hux by (by apply xor_bytes_u8s).
  pose proof (encrypt_block_length key x Hx) as He. pose proof (encrypt_block_u8s key x Hux) as Hue.
  destruct (encrypt_block key x ++ cbc_encrypt key (encrypt_block key x) blocks) as [|b data] eqn:E;
    [by apply app_nil in E as [E _]; rewrite E in He|].
  cbn [chunks]. rewrite <- E, take_app_length', drop_app_length' by done. cbn [cbc_decrypt concat].
  rewrite decrypt_encrypt_block by done. unfold x at 1, xor_bytes. rewrite xor_cancel by congruence.
  f_equal. apply IH; try done. cbn in Hr. lia.
Qed.

Lemma whole_blocks_count data :
  whole_blocks data = true -> exists n, length data = n * AES_BLOCK_BYTES /\ n <> 0.
Proof.
  unfold whole_blocks. intros [Hne Hm]%andb_true_iff. apply Nat.eqb_eq in Hm.
  apply Nat.Lcm0.mod_divide in Hm as [n Hn]. exists n. split; [done|]. intros ->.
  by destruct data.
Qed.

Lemma aes_roundtrip key iv data encrypted :
  length iv = 16 -> u8s iv -> u8s data -> encrypt_aes_256_cbc key iv data = Ok encrypted ->
  decrypt_aes_256_cbc key iv encrypted = Ok data /\ length encrypted = length data /\
  whole_blocks encrypted = true /\ u8s encrypted.
Proof.
  intros Hiv Huiv Hu. unfold encrypt_aes_256_cbc, decrypt_aes_256_cbc.
  destruct (whole_blocks data) eqn:Hw; [|done]. intros [= <-].
  destruct (whole_blocks_count _ Hw) as (n & Hn & Hnz).
  set (blocks := chunks (length data) AES_BLOCK_BYTES data).
  assert (Forall (fun block => length block = 16) blocks) as Hb by (by apply (chunks_whole _ _ _ n)).
  assert (concat blocks = data) as Hc by (by apply chunks_concat).
  assert (length blocks = n) as Hbn.
  { apply (f_equal length) in Hc. rewrite whole_concat_length, Hn in Hc by done. unfold AES_BLOCK_BYTES in *. lia. }
  assert (Forall u8s blocks) as Hub by (by apply chunks_Forall).
  pose proof (cbc_encrypt_length key iv blocks Hiv Hb) as Hl. rewrite Hbn in Hl.
  assert (length (cbc_encrypt key iv blocks) = length data) as Hlen by (rewrite Hl, Hn; unfold AES_BLOCK_BYTES; lia).
  assert (whole_blocks (cbc_encrypt key iv blocks) = true) as Hwe.
  { unfold whole_blocks in *. rewrite Hlen. apply andb_true_iff in Hw as [Hne ->]. rewrite andb_true_r.
    destruct (cbc_encrypt key iv blocks); [|done]. cbn in Hl. lia. }
  rewrite Hwe. split; [|by split; [|split; [|apply cbc_encrypt_u8s]]].
  rewrite cbc_roundtrip; [by rewrite Hc|done..|]. rewrite Hl, Hbn. lia.
Qed.

(** ** Bodies *)

Lemma payload_cells_read pieces next first rest :
  payload_cells pieces = Some next -> u8s first -> Forall u8s pieces ->
  read_snake (length pieces + rest)
    (mkCellParser (bytes_bits first) (match next with Some c => [c] | None => [] end))
  = Some (first ++ concat pieces).
Proof.
  revert next first. induction pieces as [|piece pieces IH]; intros next first Hp Hf Hu; cbn [payload_cells] in Hp.
  - injection Hp as <-. cbn [length Nat.add concat]. destruct rest; cbn [read_snake];
      rewrite read_chunk_bytes by done; by rewrite app_nil_r.
  - apply Forall_cons in Hu as [Hup Hu]. apply bind_Some in Hp as (after & Ha & Hp).
    apply bind_Some in Hp as (cell & [Hbits Hrefs]%build_cell_content & [= <-]).
    cbn [length Nat.add read_snake]. rewrite read_chunk_bytes by done. cbn [mbind option_bind cp_refs].
    unfold parser. rewrite Hbits, Hrefs, (IH _ _ Ha Hup Hu). done.
Qed.

Lemma opcode_read value bits refs :
  (value <= u32_max)%N -> read_num 32 (mkCellParser (u32_bits value ++ bits) refs) = Some (value, mkCellParser bits refs).
Proof. intros [Hv Hl]%u32_bits_value. by rewrite read_num_app, Hv. Qed.

(** The bytes of a cell that was accepted as a bag give the cell back. *)
Lemma accepted_boc_root cell data boc :
  cell_to_boc cell = Some data -> boc_try_from_bytes data = Ok boc -> ton_core_root (boc_bytes boc) = Some cell.
Proof.
  intros Hd. unfold boc_try_from_bytes. intros (u & _ & Hb)%rbind_ok.
  destruct (ton_core_accepts data); [|done]. injection Hb as <-. cbn [boc_bytes].
  apply cell_to_boc_root in Hd. unfold parse_root_cell in Hd. by destruct (parse_single_root data).
Qed.

Lemma payload_roundtrip payload body :
  encrypted_payload_boc payload = Ok body -> u8s payload ->
  PUBLIC_KEY_BYTES + MESSAGE_KEY_BYTES + AES_BLOCK_BYTES <= length payload ->
  encrypted_payload body = Ok payload.
Proof.
  unfold encrypted_payload_boc, MAX_ENCRYPTED_PAYLOAD_BYTES, ROOT_PAYLOAD_BYTES. intros Hb Hu Hmin.
  apply if_err_ok in Hb as [Hc Hb]. apply orb_false_iff in Hc as [Hmax _]. apply Nat.ltb_ge in Hmax.
  apply rbind_ok in Hb as (reference & Hcells%ok_or_ok & Hb). apply rbind_ok in Hb as (root & Hroot%ok_or_ok & Hb).
  apply rbind_ok in Hb as (data & Hd%ok_or_ok & Hb%map_err_ok).
  set (remaining := drop 35 payload) in *. set (pieces := chunks _ _ remaining) in *.
  assert (length pieces <= 8) as Hcount.
  { apply chunks_count; [done|]. unfold remaining, REF_PAYLOAD_BYTES. rewrite length_drop. lia. }
  assert (concat pieces = remaining) as Hcat by (by apply chunks_concat).
  unfold encrypted_payload. rewrite (accepted_boc_root _ _ _ Hd Hb). cbn [ok_or rbind].
  apply build_cell_content in Hroot as [Hbits Hrefs]. unfold parser. rewrite Hbits, Hrefs.
  rewrite opcode_read by (vm_compute; discriminate). cbn [ok_or rbind fst snd]. rewrite N.eqb_refl. cbn [negb].
  change (N.to_nat MAX_CELL_DEPTH) with 1024. replace 1024 with (length pieces + (1024 - length pieces)) by lia.
  rewrite (payload_cells_read _ _ _ _ Hcells) by (by first [apply Forall_take|apply chunks_Forall, Forall_drop]).
  rewrite Hcat. unfold remaining. rewrite take_drop. cbn [ok_or rbind].
  rewrite (proj2 (Nat.ltb_ge _ _)) by done.
  by rewrite (proj2 (Nat.ltb_ge _ _)) by (unfold MAX_ENCRYPTED_PAYLOAD_BYTES; lia).
Qed.

(** ** Secrets and prefixes *)

Lemma shared_secret_comm a b :
  ed25519_shared_secret a (verifying_key b) = ed25519_shared_secret b (verifying_key a).
Proof.
  unfold ed25519_shared_secret. destruct (public_key_point a) as (pa & Ha & Hsa).
  destruct (public_key_point b) as (pb & Hb & Hsb). rewrite Ha, Hb. cbn [mbind option_bind].
  rewrite Hsa, Hsb. cbn [ok_or rbind]. by rewrite (mul_clamped_comm a b pa pb Ha Hb).
Qed.

(** The prefix fills the last block and is at least one block long. *)
Lemma prefix_length_exact n :
  n <= MAX_ENCRYPTED_COMMENT_BYTES ->
  exists size, padded_prefix_length (N.of_nat n) = Ok (N.of_nat size) /\ 16 <= size <= 31 /\
    (size + n) mod AES_BLOCK_BYTES = 0 /\ size + n <= 976.
Proof.
  unfold MAX_ENCRYPTED_COMMENT_BYTES. intros Hn. unfold padded_prefix_length, checked_add.
  rewrite (proj2 (N.leb_le (N.of_nat n + 31) usize_max)) by (unfold usize_max, u64_max; lia).
  cbn [mbind option_bind]. set (total := N.ldiff (N.of_nat n + 31) 15).
  assert (total = (N.of_nat n + 31) / 16 * 16)%N as Ht.
  { unfold total. change 15%N with (N.ones 4). rewrite N.ldiff_ones_r, N.shiftl_mul_pow2, N.shiftr_div_pow2. done. }
  clearbody total. pose proof (N.div_mod (N.of_nat n + 31) 16 ltac:(done)) as Hdiv.
  pose proof (N.mod_lt (N.of_nat n + 31) 16 ltac:(done)) as Hlt.
  set (q := ((N.of_nat n + 31) / 16)%N) in *. set (r := ((N.of_nat n + 31) mod 16)%N) in *. clearbody q r.
  assert (16 <= total - N.of_nat n <= 31 /\ N.of_nat n <= total)%N as [Hr Hle] by lia.
  rewrite (proj2 (N.leb_le _ _) Hle). cbn [mbind option_bind].
  rewrite (proj2 (N.leb_le 16 _)), (proj2 (N.leb_le _ 31)) by lia. cbn [andb ok_or].
  exists (N.to_nat (total - N.of_nat n)). split; [by rewrite N2Nat.id|]. split; [lia|]. split; [|lia].
  apply Nat.Lcm0.mod_divide. exists (N.to_nat q). unfold AES_BLOCK_BYTES. lia.
Qed.

(** A source of random bytes delivers as many bytes as were asked for. *)
Definition fills (random : nat -> option bytes) : Prop :=
  forall n data, random n = Some data -> length data = n /\ u8s data.

Lemma comment_prefix_shape random n :
  fills random -> n <= MAX_ENCRYPTED_COMMENT_BYTES ->
  (comment_prefix random n = Err Comment_RandomGeneration) \/
  exists prefix, comment_prefix random n = Ok prefix /\ u8s prefix /\ 16 <= length prefix <= 31 /\
    head prefix = Some (N.of_nat (length prefix)) /\
    (length prefix + n) mod AES_BLOCK_BYTES = 0 /\ length prefix + n <= 976.
Proof.
  intros Hr Hn. destruct (prefix_length_exact n Hn) as (size & Hs & Hb & Hm & Hmax).
  unfold comment_prefix. rewrite Hs. cbn [rbind]. rewrite Nat2N.id.
  destruct (random size) as [filled|] eqn:E; [|by left]. right. destruct (Hr _ _ E) as [Hl Hu]. cbn [ok_or rbind].
  destruct filled as [|b rest]; [cbn in Hl; lia|]. rewrite (proj2 (N.leb_le _ _)) by lia.
  assert (length (N.of_nat size :: rest) = size) as Hsize by (by rewrite <- Hl).
  eexists. split; [reflexivity|]. rewrite Hsize. split; [|done].
  apply Forall_cons in Hu as [_ Hu]. constructor; [lia|done].
Qed.

(** ** Comments *)

Lemma message_key_length sender data : length (take MESSAGE_KEY_BYTES (comment_hmac (utf8 (salt sender)) data)) = 16.
Proof. unfold comment_hmac. by rewrite length_take, hmac_sha512_length. Qed.

Lemma iv_typed x : length x = 64 -> u8s x -> length (take 16 (drop 32 x)) = 16 /\ u8s (take 16 (drop 32 x)).
Proof. intros Hl Hu. rewrite length_take, length_drop, Hl. split; [done|]. by apply Forall_take, Forall_drop. Qed.

(** Whoever has one of the two keys and the header reads the comment. *)
Lemma decrypt_payload own peer sender comment prefix shared ciphertext body :
  let message_key := take MESSAGE_KEY_BYTES (comment_hmac (utf8 (salt sender)) (prefix ++ utf8 comment)) in
  let x := comment_hmac shared message_key in
  encrypted_payload body = Ok (xor_bytes (verifying_key peer) (verifying_key own) ++ message_key ++ ciphertext) ->
  encrypt_aes_256_cbc (take 32 x) (take 16 (drop 32 x)) (prefix ++ utf8 comment) = Ok ciphertext ->
  ed25519_shared_secret own (verifying_key peer) = Ok shared -> u8s prefix -> 16 <= length prefix <= 31 ->
  head prefix = Some (N.of_nat (length prefix)) -> length (utf8 comment) <= MAX_ENCRYPTED_COMMENT_BYTES ->
  Forall scalar comment -> decrypt_with_key own (verifying_key own) sender body = Ok comment.
Proof.
  intros message_key x Hp Henc Hs Hu Hpl Hhead Hmax Hsc. unfold decrypt_with_key. rewrite Hp. cbn [rbind].
  assert (length message_key = 16) as Hm by apply message_key_length.
  assert (length (xor_bytes (verifying_key peer) (verifying_key own)) = 32) as Hx
    by (rewrite xor_bytes_length; by rewrite !verifying_key_length).
  unfold PUBLIC_KEY_BYTES. rewrite take_app_length', drop_app_length' by done.
  assert (take MESSAGE_KEY_BYTES (message_key ++ ciphertext) = message_key) as -> by (by apply take_app_length').
  assert (drop MESSAGE_KEY_BYTES (message_key ++ ciphertext) = ciphertext) as -> by (by apply drop_app_length').
  assert (u8s (prefix ++ utf8 comment)) as Hud by (apply Forall_app; split; [done|apply utf8_bytes]).
  destruct (iv_typed x (hmac_sha512_length _ _) (hmac_sha512_u8s _ _)) as [Hiv Huiv].
  destruct (aes_roundtrip _ _ _ _ Hiv Huiv Hud Henc) as (Hd & _ & Hw & _). rewrite Hw. cbn [negb].
  rewrite (xor_bytes_comm (verifying_key own)). unfold xor_bytes at 1.
  rewrite xor_cancel by (by rewrite !verifying_key_length). rewrite Hs. cbn [rbind]. fold x. rewrite Hd. cbn [rbind].
  rewrite bool_decide_eq_true_2 by reflexivity. cbn [negb].
  destruct (prefix ++ utf8 comment) as [|b data] eqn:E; [by apply app_nil in E as [-> _]|].
  assert (b = N.of_nat (length prefix)) as -> by (destruct prefix as [|b0 prefix]; [done|]; injection E as -> _; by injection Hhead).
  rewrite <- E, (proj2 (N.leb_le 16 _)), (proj2 (N.leb_le _ 31)) by lia. cbn [andb negb orb].
  rewrite (proj2 (N.ltb_ge _ _)) by (rewrite length_app; lia). rewrite Nat2N.id, drop_app_length.
  rewrite (proj2 (Nat.ltb_ge _ _)) by done. by rewrite from_utf8_utf8.
Qed.

Lemma encrypted_for_both seed recipient sender comment prefix body :
  encrypt_with_prefix seed (verifying_key seed) (verifying_key recipient) sender (utf8 comment) prefix = Ok body ->
  u8s prefix -> Forall scalar comment ->
  decrypt_with_key recipient (verifying_key recipient) sender body = Ok comment /\
  decrypt_with_key seed (verifying_key seed) sender body = Ok comment.
Proof.
  unfold encrypt_with_prefix. intros Hb Hu Hsc. apply if_err_ok in Hb as [Hc Hb].
  apply orb_false_iff in Hc as [Hc _]. apply orb_false_iff in Hc as [Hc Hhead].
  apply orb_false_iff in Hc as [Hmax Hpl]. apply Nat.ltb_ge in Hmax.
  apply negb_false_iff, andb_true_iff in Hpl as [Hp1%Nat.leb_le Hp2%Nat.leb_le].
  apply negb_false_iff, bool_decide_eq_true in Hhead.
  apply rbind_ok in Hb as (shared & Hs & Hb). apply rbind_ok in Hb as (ciphertext & Henc & Hb).
  set (message_key := take MESSAGE_KEY_BYTES (comment_hmac (utf8 (salt sender)) (prefix ++ utf8 comment))) in *.
  set (x := comment_hmac shared message_key) in *.
  assert (u8s (prefix ++ utf8 comment)) as Hud by (apply Forall_app; split; [done|apply utf8_bytes]).
  destruct (iv_typed x (hmac_sha512_length _ _) (hmac_sha512_u8s _ _)) as [Hiv Huiv].
  destruct (aes_roundtrip _ _ _ _ Hiv Huiv Hud Henc) as (_ & Hl & _ & Hue).
  assert (encrypted_payload body = Ok (xor_bytes (verifying_key seed) (verifying_key recipient) ++ message_key ++ ciphertext)) as Hp.
  { apply payload_roundtrip; [done| |].
    - apply Forall_app. split; [apply xor_bytes_u8s; apply verifying_key_u8s|].
      apply Forall_app. split; [|done]. apply Forall_take, hmac_sha512_u8s.
    - unfold message_key. rewrite !length_app, message_key_length, xor_bytes_length, Hl, length_app by (by rewrite !verifying_key_length).
      rewrite verifying_key_length. unfold PUBLIC_KEY_BYTES, MESSAGE_KEY_BYTES, AES_BLOCK_BYTES. lia. }
  split; eapply decrypt_payload; try done.
  - by rewrite shared_secret_comm.
  - by rewrite xor_bytes_comm.
Qed.

(** *** Room in the cells *)

(** A cell under which there are at most [depth] levels of cells. *)
Fixpoint levels (depth : nat) (c : Cell) : Prop :=
  match depth with
  | 0 => cell_refs c = []
  | S depth => Forall (levels depth) (cell_refs c)
  end.

Lemma levels_mono n m c : n <= m -> levels n c -> levels m c.
Proof.
  revert m c. induction n as [|n IH]; intros [|m] c Hle; cbn [levels]; try done; try lia.
  - intros ->. constructor.
  - intros Hall. eapply Forall_impl; [exact Hall|]. intros c'. apply IH. lia.
Qed.

(** The limits of ton_core: a cell takes up to 1023 bits and 4 references; depth is no
    obstacle up to 512 levels. *)
Class CellCapacity : Prop := {
  build_cell_capacity bits refs :
    length bits <= 1023 -> length refs <= 4 -> Forall (levels 511) refs -> is_Some (build_cell bits refs);
}.

Lemma chunks_short {A} room size (data : list A) :
  Forall (fun piece => length piece <= size) (chunks room size data).
Proof.
  revert data. induction room as [|room IH]; intros [|a data]; cbn [chunks]; constructor; [|apply IH].
  rewrite length_take. lia.
Qed.

Lemma payload_cells_built `{!CellCapacity} pieces :
  Forall (fun piece => length piece <= 127) pieces -> length pieces <= 512 ->
  exists next, payload_cells pieces = Some next /\ from_option (levels (length pieces - 1)) True next.
Proof.
  induction 1 as [|piece pieces Hp Hall IH]; intros Hl; cbn [payload_cells]; [by exists None|].
  cbn [length] in Hl. destruct IH as (next & Hnext & Hlev); [lia|]. rewrite Hnext. cbn [mbind option_bind].
  set (refs := match next with Some c => [c] | None => [] end).
  assert (Forall (levels (length pieces - 1)) refs) as Hrefs by (destruct next; by repeat constructor).
  assert (next = None -> pieces = []) as Hnone.
  { intros ->. destruct pieces as [|p ps]; [done|]. cbn [payload_cells] in Hnext.
    apply bind_Some in Hnext as (n & _ & Hnext). by apply bind_Some in Hnext as (c & _ & [=]). }
  destruct (build_cell_capacity (bytes_bits piece) refs) as [cell Hcell].
  - rewrite bytes_bits_length. lia.
  - unfold refs. destruct next; cbn; lia.
  - eapply Forall_impl; [exact Hrefs|]. intros c. apply levels_mono. lia.
  - rewrite Hcell. cbn [mbind option_bind]. exists (Some cell). split; [done|]. cbn [from_option length].
    apply build_cell_content in Hcell as [_ Hcr]. rewrite Nat.sub_1_r. cbn [Nat.pred].
    destruct (length pieces) as [|n] eqn:El; cbn [levels]; rewrite Hcr.
    + destruct pieces; [|done]. cbn in Hnext. by injection Hnext as <-.
    + replace (S n - 1) with n in Hrefs by lia. done.
Qed.

(** The finished body of a comment: the opcode, up to 35 bytes and at most eight levels of
    further cells. *)
Definition comment_body (root : Cell) : Prop :=
  exists start, length start <= 35 /\
    cell_bits root = u32_bits ENCRYPTED_COMMENT_OPCODE ++ bytes_bits start /\ levels 8 root.

(** A finished cell that cannot be written, or is not accepted when it is written. *)
Definition not_serialized (c : Cell) : Prop :=
  forall data boc, cell_to_boc c = Some data -> boc_try_from_bytes data <> Ok boc.

(** A payload always finds its cells; only their serialization can fail. *)
Lemma payload_encoded `{!CellCapacity} payload error :
  35 <= length payload <= 1024 -> encrypted_payload_boc payload = Err error ->
  error = Comment_CellEncoding /\
  exists root, comment_body root /\ not_serialized root.
Proof.
  intros Hl. unfold encrypted_payload_boc.
  rewrite (proj2 (Nat.ltb_ge _ _)) by (unfold MAX_ENCRYPTED_PAYLOAD_BYTES; lia).
  rewrite (proj2 (Nat.ltb_ge _ _)) by (unfold ROOT_PAYLOAD_BYTES; lia). cbn [orb].
  set (pieces := chunks _ _ _).
  assert (length pieces <= 8) as Hcount.
  { apply chunks_count; [done|]. rewrite length_drop. unfold ROOT_PAYLOAD_BYTES, REF_PAYLOAD_BYTES. lia. }
  destruct (payload_cells_built pieces) as (next & -> & Hlev); [apply chunks_short|lia|]. cbn [ok_or rbind].
  set (refs := match next with Some c => [c] | None => [] end).
  destruct (build_cell_capacity (u32_bits ENCRYPTED_COMMENT_OPCODE ++ bytes_bits (take ROOT_PAYLOAD_BYTES payload)) refs)
    as [root Hroot].
  - rewrite length_app, bytes_bits_length, length_take. unfold ROOT_PAYLOAD_BYTES.
    change (length (u32_bits ENCRYPTED_COMMENT_OPCODE)) with 32. lia.
  - unfold refs. destruct next; cbn; lia.
  - unfold refs. destruct next as [c|]; [|constructor]. apply Forall_singleton, (levels_mono (length pieces - 1)); [lia|exact Hlev].
  - rewrite Hroot. cbn [ok_or rbind]. intros He.
    assert (comment_body root) as Hbody.
    { apply build_cell_content in Hroot as [Hbits Hrefs]. exists (take ROOT_PAYLOAD_BYTES payload).
      split; [rewrite length_take; unfold ROOT_PAYLOAD_BYTES; lia|]. split; [done|].
      change (Forall (levels 7) (cell_refs root)). rewrite Hrefs.
      unfold refs. destruct next as [c|]; [|constructor].
      apply Forall_singleton, (levels_mono (length pieces - 1)); [lia|exact Hlev]. }
    assert (error = Comment_CellEncoding /\ not_serialized root) as [-> Hn]; [|by split; [|exists root]].
    unfold not_serialized. destruct (cell_to_boc root) as [data|]; cbn [ok_or rbind] in He; [|by injection He as <-].
    destruct (boc_try_from_bytes data) eqn:Eb; cbn [map_err] in He; [done|]. injection He as <-. split; [done|].
    intros data' boc [= <-]. congruence.
Qed.

(** What is left to go wrong once the prefix is there. *)
Lemma encrypt_with_prefix_errors `{!CellCapacity} seed own recipient sender comment prefix :
  length comment <= MAX_ENCRYPTED_COMMENT_BYTES -> 16 <= length prefix <= 31 ->
  head prefix = Some (N.of_nat (length prefix)) -> (length prefix + length comment) mod AES_BLOCK_BYTES = 0 ->
  length prefix + length comment <= 976 ->
  forall error, encrypt_with_prefix seed (verifying_key own) (verifying_key recipient) sender comment prefix = Err error ->
  error = Comment_InvalidPeerPublicKey \/
  (error = Comment_CellEncoding /\ exists root, comment_body root /\ not_serialized root).
Proof.
  intros Hc Hp Hhead Hm Hmax error. unfold encrypt_with_prefix.
  rewrite (proj2 (Nat.ltb_ge _ _)) by done. rewrite (proj2 (Nat.leb_le 16 _)), (proj2 (Nat.leb_le _ 31)) by lia.
  rewrite bool_decide_eq_true_2 by done. rewrite Hm. cbn [andb negb orb Nat.eqb].
  destruct (ed25519_shared_secret seed (verifying_key recipient)) as [shared|e] eqn:Hs; cbn [rbind].
  2: { intros [= <-]. left. unfold ed25519_shared_secret in Hs. destruct (_ ≫= _); cbn [ok_or rbind] in Hs; [|congruence].
       case_bool_decide; congruence. }
  assert (whole_blocks (prefix ++ comment) = true) as Hw.
  { unfold whole_blocks. rewrite length_app, Hm. destruct prefix; [cbn in Hp; lia|done]. }
  destruct (encrypt_aes_256_cbc _ _ (prefix ++ comment)) as [ciphertext|e] eqn:Henc;
    [|unfold encrypt_aes_256_cbc in Henc; by rewrite Hw in Henc].
  cbn [rbind]. set (message_key := take MESSAGE_KEY_BYTES _) in *.
  assert (length ciphertext = length (prefix ++ comment)) as Hl.
  { unfold encrypt_aes_256_cbc in Henc. rewrite Hw in Henc. injection Henc as <-.
    destruct (whole_blocks_count _ Hw) as (n & Hn & _).
    destruct (iv_typed (comment_hmac shared message_key) (hmac_sha512_length _ _) (hmac_sha512_u8s _ _)) as [Hiv _].
    rewrite cbc_encrypt_length; [|done|by apply (chunks_whole _ _ _ n)].
    rewrite <- whole_concat_length, chunks_concat by (done || by apply (chunks_whole _ _ _ n)). done. }
  set (payload := _ ++ message_key ++ ciphertext).
  assert (length payload = 48 + (length prefix + length comment)) as Hpay.
  { unfold payload, message_key. rewrite !length_app, message_key_length, xor_bytes_length, Hl, length_app by (by rewrite !verifying_key_length).
    rewrite verifying_key_length. lia. }
  intros He. right. apply (payload_encoded payload); [lia|done].
Qed.

(** The errors of the secret. *)
Lemma comment_keys_errors secret network sender error :
  comment_keys secret network sender = Err error ->
  error = Comment_InvalidMnemonic \/ error = Comment_WalletIdentityMismatch.
Proof.
  unfold comment_keys. destruct (from_utf8 secret); cbn [ok_or rbind]; [|intros [= <-]; auto].
  destruct (rotation_parse _); cbn [map_err rbind]; [|intros [= <-]; auto].
  destruct (derive_wallet_public_state _ _); cbn [map_err rbind]; [|intros [= <-]; auto].
  case_bool_decide; [done|]. intros [= <-]. auto.
Qed.

(** What encryption returns, the recipient and the sender read. *)
Lemma encrypted_readable random secret network sender recipient comment body :
  fills random -> Forall scalar comment ->
  encrypt_comment random secret network sender (public_key recipient) comment = Ok body ->
  exists keys, comment_keys secret network sender = Ok keys /\
    decrypt_with_key (sk_bytes recipient) (public_key recipient) sender body = Ok comment /\
    decrypt_with_key (sk_bytes (rk_signing keys)) (public_key (rk_signing keys)) sender body = Ok comment.
Proof.
  intros Hr Hsc. unfold encrypt_comment.
  destruct (Nat.ltb_spec MAX_ENCRYPTED_COMMENT_BYTES (length (utf8 comment))) as [Hlong|Hshort]; [done|].
  assert ((length (public_key recipient) =? PUBLIC_KEY_BYTES) = true) as Hkey
    by (apply Nat.eqb_eq, verifying_key_length).
  intros (keys & Hk & Hb)%rbind_ok. rewrite Hkey in Hb. cbn [negb] in Hb. apply rbind_ok in Hb as (prefix & Hp & Hb). exists keys. split; [done|].
  destruct (comment_prefix_shape random _ Hr Hshort) as [E|(p & E & Hu & _)]; rewrite E in Hp; [done|].
  injection Hp as <-. exact (encrypted_for_both _ (sk_bytes recipient) _ _ _ _ Hb Hu Hsc).
Qed.

Lemma decrypt_after_mismatches others key rest sender body comment :
  Forall (fun key => exists error, is_key_mismatch error = true /\
    decrypt_with_key (sk_bytes key) (public_key key) sender body = Err error) others ->
  decrypt_with_key (sk_bytes key) (public_key key) sender body = Ok comment ->
  decrypt_comment_with_keys (others ++ key :: rest) sender body = Ok comment.
Proof.
  intros Ho Hd. induction Ho as [|other others (error & Hm & He) _ IH]; cbn [app decrypt_comment_with_keys].
  - unfold public_key in *. by rewrite Hd.
  - by rewrite He, Hm.
Qed.


End Spec.
