(* ===== verification/RecipientKey.v ===== *)
(** * Public keys of recipients

    src/wallet/recipient_public_key.rs: a key that the caller supplies for a wallet that is
    not deployed is accepted when one of the standard initial states with this key has the
    recipient's address.  The code cells are the class [WalletCodes]. *)

From stdpp Require Import base numbers list option strings.
From S2P Require Import Prelude BoundaryTypes SendDomain ClientDomain CellBoc CellBocSpec.
From S2P Require Import Addresses ConnectValues ConnectSigning ConnectSigningSpec.
From S2P Require Import ConnectWalletState WordList Mnemonic WalletContract WalletKeys.
From S2P Require Import EncryptedComment.

(** [WalletVersion::get_code]: the published code cells, by their hashes. *)
Class WalletCodes `{TonStates} := {
  get_code : StandardWalletVersion -> option Cell;
  get_code_hash version code :
    get_code version = Some code ->
    exists hash text, cell_hash code = Some hash /\ (text, version) ∈ code_hashes /\
      hex_encode hash = lit text;
}.

Definition WALLET_ID_DEFAULT : Z := 698983191.
Definition WALLET_V5R1_ID_DEFAULT : Z := 2147483409.
Definition WALLET_V5R1_ID_DEFAULT_TESTNET : Z := 2147483645.

(** [i32::checked_add]. *)
Definition checked_add_i32 (a b : Z) : option Z :=
  if ((-2147483648 <=? a + b) && (a + b <=? 2147483647))%Z then Some (a + b)%Z else None.

(** The workchain as a byte, 23 bits up, in the default identifier. *)
Definition v5_workchain_id (default_id workchain : Z) : option Z :=
  if ((-128 <=? workchain) && (workchain <=? 127))%Z
  then Some (Z.lxor default_id (Z.shiftl (workchain mod 256) 23))
  else None.

(** The fixed identifier, and another one unless it is the same. *)
Definition two_ids (first : Z) (second : option Z) : list Z :=
  first :: match second with
           | Some id => if (id =? first)%Z then [] else [id]
           | None => []
           end.

Definition legacy_ids (workchain : Z) : list Z :=
  two_ids WALLET_ID_DEFAULT (checked_add_i32 WALLET_ID_DEFAULT workchain).

Definition v5_default_id (network : Network) : Z :=
  match network with
  | Mainnet => WALLET_V5R1_ID_DEFAULT
  | Testnet => WALLET_V5R1_ID_DEFAULT_TESTNET
  end.

Definition v5_ids (network : Network) (workchain : Z) : list Z :=
  two_ids (v5_default_id network) (v5_workchain_id (v5_default_id network) workchain).

Section Recipient.
Context `{WalletCodes}.

(** ** Initial storage ([vendor/ton/src/ton_wallet/wallet_tlb]) *)

Definition wallet_v1v2_data (public_key : bytes) : option Cell :=
  build_cell (u32_bits 0 ++ bytes_bits public_key) [].

Definition wallet_v3_data (wallet_id : Z) (public_key : bytes) : option Cell :=
  build_cell (u32_bits 0 ++ wallet_id_bits wallet_id ++ bytes_bits public_key) [].

Definition wallet_v4_data (wallet_id : Z) (public_key : bytes) : option Cell :=
  build_cell (u32_bits 0 ++ wallet_id_bits wallet_id ++ bytes_bits public_key ++ [false]) [].

Definition wallet_v5_data (wallet_id : Z) (public_key : bytes) : option Cell :=
  build_cell (true :: u32_bits 0 ++ wallet_id_bits wallet_id ++ bytes_bits public_key ++ [false]) [].

(** ** The search *)

Definition encoding {A} (value : option A) : result EncryptedCommentError A := ok_or Comment_CellEncoding value.

Fixpoint matches_versions (recipient : TonAddressString) (versions : list StandardWalletVersion)
    (data : Cell) : result EncryptedCommentError bool :=
  match versions with
  | [] => Ok false
  | version :: versions =>
      let? code := encoding (get_code version) in
      let? address :=
        encoding (state_init_address (state_init_new code data) (ta_workchain (tas_address recipient))) in
      if bool_decide (address = tas_address recipient) then Ok true
      else matches_versions recipient versions data
  end.

(** One round of a search: the data of the versions, and the rest unless one matches. *)
Definition or_else (recipient : TonAddressString) (versions : list StandardWalletVersion)
    (data : option Cell) (rest : result EncryptedCommentError unit) : result EncryptedCommentError unit :=
  let? data := encoding data in
  let? found := matches_versions recipient versions data in
  if found then Ok tt else rest.

Fixpoint try_legacy (recipient : TonAddressString) (public_key : bytes) (ids : list Z)
    (rest : result EncryptedCommentError unit) : result EncryptedCommentError unit :=
  match ids with
  | [] => rest
  | wallet_id :: ids =>
      or_else recipient [V3R1; V3R2] (wallet_v3_data wallet_id public_key)
        (or_else recipient [V4R1; V4R2] (wallet_v4_data wallet_id public_key)
           (try_legacy recipient public_key ids rest))
  end.

Fixpoint try_v5 (recipient : TonAddressString) (public_key : bytes) (ids : list Z)
    (rest : result EncryptedCommentError unit) : result EncryptedCommentError unit :=
  match ids with
  | [] => rest
  | wallet_id :: ids =>
      or_else recipient [V5R1] (wallet_v5_data wallet_id public_key) (try_v5 recipient public_key ids rest)
  end.

Definition verify_recipient_public_key (recipient : TonAddressString) (public_key : bytes)
    (network : Network) : result EncryptedCommentError unit :=
  let workchain := ta_workchain (tas_address recipient) in
  let mismatch := Err Comment_RecipientPublicKeyMismatch in
  or_else recipient [V1R1; V1R2; V1R3; V2R1; V2R2] (wallet_v1v2_data public_key)
    (try_legacy recipient public_key (legacy_ids workchain)
       (try_v5 recipient public_key (v5_ids network workchain)
          (if (workchain =? 0)%Z
           then or_else recipient [Wallet] (wallet_data_cell (wallet_contract_id network) public_key) mismatch
           else mismatch))).

(** ** What an accepted key is *)

(** The initial storages that are tried, with the versions of their code. *)
Definition standard_storage (network : Network) (workchain : Z) (public_key : bytes)
    (version : StandardWalletVersion) (data : Cell) : Prop :=
  match version with
  | V1R1 | V1R2 | V1R3 | V2R1 | V2R2 => wallet_v1v2_data public_key = Some data
  | V3R1 | V3R2 => exists id, id ∈ legacy_ids workchain /\ wallet_v3_data id public_key = Some data
  | V4R1 | V4R2 => exists id, id ∈ legacy_ids workchain /\ wallet_v4_data id public_key = Some data
  | V5R1 => exists id, id ∈ v5_ids network workchain /\ wallet_v5_data id public_key = Some data
  | Wallet => workchain = 0%Z /\ wallet_data_cell (wallet_contract_id network) public_key = Some data
  end.

(** One of the standard states with this key has the recipient's address. *)
Definition derives (recipient : TonAddressString) (network : Network) (public_key : bytes)
    (version : StandardWalletVersion) : Prop :=
  exists code data, get_code version = Some code /\
    standard_storage network (ta_workchain (tas_address recipient)) public_key version data /\
    state_init_address (state_init_new code data) (ta_workchain (tas_address recipient))
    = Some (tas_address recipient).

Lemma matches_versions_ok recipient versions data found :
  matches_versions recipient versions data = Ok found ->
  found = true <-> exists version code, version ∈ versions /\ get_code version = Some code /\
    state_init_address (state_init_new code data) (ta_workchain (tas_address recipient))
    = Some (tas_address recipient).
Proof.
  revert found. induction versions as [|version versions IH]; intros found; cbn [matches_versions].
  - intros [= <-]. split; [done|]. by intros (? & ? & ?%not_elem_of_nil & _).
  - intros (code & Hc%ok_or_ok & Hm)%rbind_ok. apply rbind_ok in Hm as (address & Ha%ok_or_ok & Hm).
    case_bool_decide as E.
    + injection Hm as <-. split; [|done]. intros _. exists version, code. subst address. split; [left|done].
    + rewrite (IH _ Hm). split; intros (v & c & Hin & Hg & Hs); [exists v, c; split; [by right|done]|].
      apply elem_of_cons in Hin as [->|Hin]; [|by exists v, c]. exfalso. apply E. congruence.
Qed.

(** The rounds of the search in their order. *)
Definition rounds (network : Network) (workchain : Z) (public_key : bytes)
  : list (list StandardWalletVersion * option Cell) :=
  ([V1R1; V1R2; V1R3; V2R1; V2R2], wallet_v1v2_data public_key)
  :: flat_map (fun id => [([V3R1; V3R2], wallet_v3_data id public_key);
                          ([V4R1; V4R2], wallet_v4_data id public_key)]) (legacy_ids workchain)
  ++ map (fun id => ([V5R1], wallet_v5_data id public_key)) (v5_ids network workchain)
  ++ (if (workchain =? 0)%Z then [([Wallet], wallet_data_cell (wallet_contract_id network) public_key)] else []).

Definition search (recipient : TonAddressString) (rest : result EncryptedCommentError unit)
    (rs : list (list StandardWalletVersion * option Cell)) : result EncryptedCommentError unit :=
  foldr (fun round rest => or_else recipient round.1 round.2 rest) rest rs.

Lemma try_legacy_search recipient key ids rest :
  try_legacy recipient key ids rest
  = search recipient rest (flat_map (fun id => [([V3R1; V3R2], wallet_v3_data id key);
                                                ([V4R1; V4R2], wallet_v4_data id key)]) ids).
Proof. induction ids as [|id ids IH]; cbn [try_legacy]; [done|]. by rewrite IH. Qed.

Lemma try_v5_search recipient key ids rest :
  try_v5 recipient key ids rest
  = search recipient rest (map (fun id => ([V5R1], wallet_v5_data id key)) ids).
Proof. induction ids as [|id ids IH]; cbn [try_v5]; [done|]. by rewrite IH. Qed.

Lemma verify_search recipient key network :
  verify_recipient_public_key recipient key network
  = search recipient (Err Comment_RecipientPublicKeyMismatch)
      (rounds network (ta_workchain (tas_address recipient)) key).
Proof.
  unfold verify_recipient_public_key, rounds. rewrite try_legacy_search, try_v5_search. unfold search.
  cbn [foldr fst snd]. rewrite !foldr_app. by destruct (_ =? 0)%Z.
Qed.

(** What the rounds are. *)
Lemma rounds_storage network workchain key version data :
  standard_storage network workchain key version data <->
  exists versions, (versions, Some data) ∈ rounds network workchain key /\ version ∈ versions.
Proof.
  unfold rounds. split.
  - intros Hs. assert (forall versions, version ∈ versions ->
      (versions, Some data) ∈ rounds network workchain key ->
      exists versions, (versions, Some data) ∈ rounds network workchain key /\ version ∈ versions) as Hin by eauto.
    unfold rounds in Hin. destruct version; cbn [standard_storage] in Hs;
      (eapply Hin; [|first
        [ rewrite <- Hs; left
        | destruct Hs as (id & Hid & <-); right; apply elem_of_app; left; apply list_elem_of_In, in_flat_map;
          exists id; split; [by apply list_elem_of_In|]; first [by left|by right; left]
        | destruct Hs as (id & Hid & <-); right; apply elem_of_app; right; apply elem_of_app; left;
          apply (list_elem_of_fmap_2 (fun id => ([V5R1], wallet_v5_data id key)) _ _ Hid)
        | destruct Hs as [-> <-]; right; apply elem_of_app; right; apply elem_of_app; right; left ]]);
      repeat first [left|right].
  - intros (versions & Hr & Hv). apply elem_of_cons in Hr as [[= -> Hd]|Hr].
    { repeat (apply elem_of_cons in Hv as [->|Hv]; [by cbn [standard_storage]|]). by apply elem_of_nil in Hv. }
    apply elem_of_app in Hr as [Hr|Hr]; [|apply elem_of_app in Hr as [Hr|Hr]].
    + apply list_elem_of_In, in_flat_map in Hr as (id & Hid%list_elem_of_In & [[= <- Hd]|[[= <- Hd]|[]]]);
        (repeat (apply elem_of_cons in Hv as [->|Hv]; [by exists id|])); by apply elem_of_nil in Hv.
    + apply list_elem_of_fmap in Hr as (id & [= -> Hd] & Hid). apply elem_of_cons in Hv as [->|Hv]; [by exists id|].
      by apply elem_of_nil in Hv.
    + destruct (Z.eqb_spec workchain 0) as [->|]; [|by apply elem_of_nil in Hr].
      apply elem_of_cons in Hr as [[= -> Hd]|Hr]; [|by apply elem_of_nil in Hr].
      apply elem_of_cons in Hv as [->|Hv]; [by split|by apply elem_of_nil in Hv].
Qed.

(** A search finds a match, or rejects every round, or a cell could not be built. *)
Lemma search_result recipient rs :
  match search recipient (Err Comment_RecipientPublicKeyMismatch) rs with
  | Ok _ => exists round cell, round ∈ rs /\ round.2 = Some cell /\ matches_versions recipient round.1 cell = Ok true
  | Err Comment_RecipientPublicKeyMismatch =>
      Forall (fun round => exists cell, round.2 = Some cell /\ matches_versions recipient round.1 cell = Ok false) rs
  | Err error => error = Comment_CellEncoding
  end.
Proof.
  assert (forall versions cell error, matches_versions recipient versions cell = Err error -> error = Comment_CellEncoding) as Herr.
  { induction versions as [|v versions IH]; intros cell error; cbn [matches_versions]; [done|].
    destruct (get_code v); cbn [encoding ok_or rbind]; [|by intros [= <-]].
    destruct (state_init_address _ _); cbn [encoding ok_or rbind]; [|by intros [= <-]].
    case_bool_decide; [done|apply IH]. }
  induction rs as [|[versions data] rs IH]; cbn [search foldr fst snd]; [constructor|]. fold (search recipient (Err Comment_RecipientPublicKeyMismatch) rs).
  unfold or_else. destruct data as [cell|]; cbn [encoding ok_or rbind]; [|done].
  destruct (matches_versions recipient versions cell) as [[]|error] eqn:Hm; cbn [rbind].
  - exists (versions, Some cell), cell. split; [left|done].
  - destruct (search _ _ rs) as [|[]]; try done.
    + destruct IH as (round & c & Hin & Hr). exists round, c. split; [by right|done].
    + constructor; [|done]. by exists cell.
  - by rewrite (Herr _ _ _ Hm).
Qed.

Lemma storage_layout version data key prefix :
  length prefix = prefix_bits version -> length key = 32 -> u8s key ->
  cell_bits data = prefix ++ bytes_bits key ++ (if has_dictionary version then [false] else []) ->
  cell_refs data = [] -> data_layout version data key.
Proof.
  intros Hp Hl Hu Hb Hr. exists prefix, (if has_dictionary version then [false] else []).
  do 4 (split; [done|]). rewrite Hr. destruct (has_dictionary version); [|done]. by exists None.
Qed.

(** The state that derives the address is a state of a standard wallet with the key. *)
Lemma derived_deployed recipient network key version :
  length key = 32 -> u8s key -> derives recipient network key version ->
  exists root, cell_hash root = Some (ta_hash (tas_address recipient)) /\
    forall boc, parse_root_cell boc = Some root ->
      deployed_with boc (ta_hash (tas_address recipient)) version key.
Proof.
  intros Hlen Hu (code & data & Hc & Hd & Ha). unfold state_init_address in Ha.
  apply bind_Some in Ha as (root & Hr & Ha). apply fmap_Some in Ha as (hash & Hh & Haddr).
  rewrite Haddr. cbn [ta_hash]. exists root. split; [done|]. intros boc Hboc.
  rewrite state_init_new_cell in Hr. destruct (build_cell_content _ _ _ Hr) as [Hrb Hrr].
  destruct (get_code_hash _ _ Hc) as (ch & text & Hch & Hin & Htext).
  assert (forall id, length (wallet_id_bits id) = 32) as Hid
    by (intros id; unfold wallet_id_bits, i32_be_bytes; by rewrite bytes_bits_length, length_be_bytes).
  exists root, code, data, ch, text. split; [done|]. split; [by eapply build_cell_ordinary|]. split; [done|].
  split; [by eapply cell_hash_length|]. split.
  { exists [false], [false], [false], [], None. rewrite Hrb, Hrr. split; [by left|]. split; [by left|]. done. }
  split; [done|]. split; [done|]. split; [done|].
  assert (cell_ordinary data = true) as Hord.
  { destruct version; cbn [standard_storage] in Hd; first
      [ by eapply build_cell_ordinary | destruct Hd as (id & _ & Hd); by eapply build_cell_ordinary
      | destruct Hd as [_ Hd]; by eapply build_cell_ordinary ]. }
  split; [done|].
  destruct version; cbn [standard_storage] in Hd;
    match type of Hd with
    | ex _ => destruct Hd as (id & _ & Hd)
    | _ /\ _ => destruct Hd as [_ Hd]
    | _ => idtac
    end;
    apply build_cell_content in Hd as [Hb Hrefs].
  1-5: apply (storage_layout _ _ _ (u32_bits 0)); [done..|cbn [has_dictionary]; by rewrite app_nil_r|done].
  1-4: apply (storage_layout _ _ _ (u32_bits 0 ++ wallet_id_bits id));
    [by rewrite length_app, Hid|done..|by rewrite <- app_assoc; cbn [has_dictionary]; rewrite ?app_nil_r|done].
  - apply (storage_layout _ _ _ (true :: u32_bits 0 ++ wallet_id_bits id));
      [cbn [length]; by rewrite length_app, Hid|done..|cbn [has_dictionary app]; by rewrite <- app_assoc|done].
  - apply (storage_layout _ _ _ (byte_bits 0 ++ u32_bits 0 ++ wallet_id_bits (wallet_contract_id network)));
      [by rewrite !length_app, Hid|done..|by rewrite <- !app_assoc; cbn [has_dictionary]; rewrite app_nil_r|done].
Qed.

(** A supplied key is accepted only for the wallet it opens.  Acceptance means that the
    recipient's address is the hash of a standard initial state, with a default identifier,
    whose storage holds this key: the state that a dApp would verify for the same key.  A
    mismatch means that no standard state with this key has that address, and the only other
    outcome is a cell that could not be built. *)
Theorem recipient_key_binds_wallet recipient key network :
  length key = 32 -> u8s key ->
  match verify_recipient_public_key recipient key network with
  | Ok _ => exists version root, derives recipient network key version /\
      cell_hash root = Some (ta_hash (tas_address recipient)) /\
      forall boc, parse_root_cell boc = Some root ->
        deployed_with boc (ta_hash (tas_address recipient)) version key
  | Err Comment_RecipientPublicKeyMismatch => forall version, ~ derives recipient network key version
  | Err error => error = Comment_CellEncoding
  end.
Proof.
  intros Hl Hu. rewrite verify_search. set (rs := rounds _ _ key). pose proof (search_result recipient rs) as Hs.
  destruct (search _ _ rs) as [|[]]; try done.
  - destruct Hs as ([versions data] & cell & Hin & Hd & Hm). cbn [fst snd] in *. subst data.
    destruct (proj1 (matches_versions_ok _ _ _ _ Hm) eq_refl) as (version & code & Hv & Hc & Ha).
    assert (derives recipient network key version) as Hder.
    { exists code, cell. split; [done|]. split; [|done]. apply rounds_storage. by exists versions. }
    destruct (derived_deployed _ _ _ _ Hl Hu Hder) as (root & Hh & Hdep). by exists version, root.
  - intros version (code & data & Hc & (versions & Hin & Hv)%rounds_storage & Ha).
    rewrite Forall_forall in Hs. destruct (Hs _ Hin) as (cell & [= <-] & Hm). cbn [fst] in Hm.
    assert (false = true); [|done]. apply (matches_versions_ok _ _ _ _ Hm). by exists version, code.
Qed.
End Recipient.
