(* ===== verification/ConnectCrypto.v ===== *)
(** * Encrypted sessions

    crates/ton-connect-core/src/session.rs: the key pair of a session, its durable form,
    and messages as nonce and box.  X25519 and the box are the class [CryptoBox]. *)

From stdpp Require Import base numbers list option strings.
From S2P Require Import Prelude BoundaryTypes Json CellBocSpec ConnectSession ConnectValues.
From S2P Require Import Addresses ConnectRpc ConnectRpcSpec.

(** [SecretKey::public_key] and [SalsaBox] of the crypto_box crate: a box takes a public
    key, a secret key, a nonce and a message.  Both ends of a pair compute the same
    shared key, and a box is 16 bytes longer than its message. *)
Class CryptoBox := {
  x25519_public : bytes -> bytes;
  box_seal : bytes -> bytes -> bytes -> bytes -> option bytes;
  box_open : bytes -> bytes -> bytes -> bytes -> option bytes;
  x25519_public_length secret : length (x25519_public secret) = 32;
  x25519_public_u8s secret : Forall (fun b => b < 256)%N (x25519_public secret);
  box_open_seal a b nonce message sealed :
    box_seal (x25519_public b) a nonce message = Some sealed ->
    box_open (x25519_public a) b nonce sealed = Some message;
  box_seal_length pk sk nonce message sealed :
    box_seal pk sk nonce message = Some sealed -> length sealed = length message + 16;
}.

Definition KEY_LENGTH : nat := 32.
Definition NONCE_LENGTH : nat := 24.
Definition AUTHENTICATION_TAG_LENGTH : nat := 16.
Definition MIN_ENCRYPTED_MESSAGE_LENGTH : nat := NONCE_LENGTH + AUTHENTICATION_TAG_LENGTH.

Inductive SessionKeyPairError := InvalidSecretKey | PublicKeyPairMismatch.

Inductive SessionCryptoError :=
  | EntropyUnavailable
  | EncryptionFailed
  | TruncatedMessage
  | AuthenticationFailed.

(** ** Keys and their durable form *)

Record SecretKeyBytes := mkSecretKeyBytes { skb_bytes : bytes }.

Definition secret_key_from_hex `{HexCrate} (value : rstr)
  : result SessionKeyPairError SecretKeyBytes :=
  if negb (length (utf8 value) =? KEY_LENGTH * 2)%nat || negb (forallb is_lower_hex (utf8 value))
  then Err InvalidSecretKey
  else rmap mkSecretKeyBytes (ok_or InvalidSecretKey (hex_decode value)).

Record PersistedSessionKeyPair := mkPersistedSessionKeyPair {
  psk_public_key : ClientId;
  psk_secret_key : SecretKeyBytes;
}.

Definition key_pair_fields : list string := ["publicKey"; "secretKey"]%string.

Section Durable.
Context `{HexCrate}.

Definition secret_key_to_value (key : SecretKeyBytes) : Value := Str (hex_encode (skb_bytes key)).

Definition decode_secret_key (v : Value) : option SecretKeyBytes :=
  as_str v ≫= fun encoded => result_ok (secret_key_from_hex encoded).

Definition key_pair_to_value (pair : PersistedSessionKeyPair) : Value :=
  Object (present (zip key_pair_fields
    [Some (Str (client_id_to_string (psk_public_key pair)));
     Some (secret_key_to_value (psk_secret_key pair))])).

Definition decode_key_pair (v : Value) : option PersistedSessionKeyPair :=
  match strict_members key_pair_fields v with
  | Some [public_key; secret_key] =>
      public_key ← required decode_client_id public_key;
      secret_key ← required decode_secret_key secret_key;
      Some (mkPersistedSessionKeyPair public_key secret_key)
  | _ => None
  end.
End Durable.

(** ** Sessions *)

Record SessionCrypto := mkSessionCrypto {
  sc_client_id : ClientId;
  sc_secret_key : SecretKeyBytes;
}.

#[export] Instance SecretKeyBytes_eq_dec : EqDecision SecretKeyBytes.
Proof. solve_decision. Defined.
#[export] Instance SessionCrypto_eq_dec : EqDecision SessionCrypto.
Proof. solve_decision. Defined.

Section Sessions.
Context `{CryptoBox}.

Definition from_secret_key (secret : bytes) : SessionCrypto :=
  mkSessionCrypto (mkClientId (x25519_public secret)) (mkSecretKeyBytes secret).

(** [generate] on the bytes of the random source, if it has any. *)
Definition session_generate (random : option bytes) : result SessionCryptoError SessionCrypto :=
  rmap from_secret_key (ok_or EntropyUnavailable random).

Definition from_persisted (persisted : PersistedSessionKeyPair)
  : result SessionKeyPairError SessionCrypto :=
  let restored := from_secret_key (skb_bytes (psk_secret_key persisted)) in
  if bool_decide (sc_client_id restored = psk_public_key persisted) then Ok restored
  else Err PublicKeyPairMismatch.

Definition persisted_keypair (session : SessionCrypto) : PersistedSessionKeyPair :=
  mkPersistedSessionKeyPair (sc_client_id session) (sc_secret_key session).

Definition encrypt_with_nonce (session : SessionCrypto) (peer : ClientId) (plaintext nonce : bytes)
  : result SessionCryptoError bytes :=
  let? ciphertext := ok_or EncryptionFailed
    (box_seal (cid_bytes peer) (skb_bytes (sc_secret_key session)) nonce plaintext) in
  Ok (nonce ++ ciphertext).

(** [encrypt] with the nonce of the random source. *)
Definition session_encrypt (random : option bytes) (session : SessionCrypto) (peer : ClientId)
    (plaintext : bytes) : result SessionCryptoError bytes :=
  let? nonce := ok_or EntropyUnavailable random in
  encrypt_with_nonce session peer plaintext nonce.

Definition session_decrypt (session : SessionCrypto) (peer : ClientId) (encrypted : bytes)
  : result SessionCryptoError bytes :=
  if (length encrypted <? MIN_ENCRYPTED_MESSAGE_LENGTH)%nat then Err TruncatedMessage
  else
    let nonce := take NONCE_LENGTH encrypted in
    let ciphertext := drop NONCE_LENGTH encrypted in
    ok_or AuthenticationFailed
      (box_open (cid_bytes peer) (skb_bytes (sc_secret_key session)) nonce ciphertext).

(** ** Properties *)

(** The public half belongs to the secret half. *)
Definition matching (session : SessionCrypto) : Prop :=
  sc_client_id session = mkClientId (x25519_public (skb_bytes (sc_secret_key session))).

Definition typed_secret (session : SessionCrypto) : Prop :=
  length (skb_bytes (sc_secret_key session)) = KEY_LENGTH /\
  Forall (fun b => b < 256)%N (skb_bytes (sc_secret_key session)).

Lemma generated_matching random session :
  session_generate random = Ok session -> matching session.
Proof. destruct random; [|done]. by intros [= <-]. Qed.

Context `{HexCrate}.

Lemma hex_text_read (data : bytes) :
  Forall (fun b => b < 256)%N data -> length data = 32 ->
  negb (length (utf8 (hex_encode data)) =? 64)%nat
    || negb (forallb is_lower_hex (utf8 (hex_encode data))) = false /\
  hex_decode (hex_encode data) = Some data.
Proof.
  intros Hd Hl. pose proof (hex_encode_lower data Hd) as Hlow.
  destruct (lower_hex_ascii _ Hlow) as [-> _].
  rewrite Hlow, hex_encode_length, Hl. split; [done|]. by apply hex_decode_encode.
Qed.

Lemma key_pair_read session :
  matching session -> typed_secret session ->
  decode_key_pair (key_pair_to_value (persisted_keypair session))
  = Some (persisted_keypair session).
Proof.
  intros Hm [Hl Hu]. unfold decode_key_pair, key_pair_to_value.
  rewrite strict_members_present; [|distinct_names|done]. cbn [required mbind option_bind].
  unfold decode_client_id, decode_secret_key, client_id_from_str, secret_key_from_hex, secret_key_to_value.
  cbn [as_str mbind option_bind persisted_keypair psk_public_key psk_secret_key].
  unfold client_id_to_string. rewrite Hm. cbn [cid_bytes].
  destruct (hex_text_read (x25519_public (skb_bytes (sc_secret_key session)))) as [-> ->];
    [apply x25519_public_u8s|apply x25519_public_length|].
  destruct (hex_text_read (skb_bytes (sc_secret_key session)) Hu Hl) as [E ->].
  change (KEY_LENGTH * 2) with 64. rewrite E. cbn.
  unfold persisted_keypair. rewrite Hm. by destruct session as [? []].
Qed.

(** What one end seals the other opens. *)
Lemma sealed_message_opens wallet app nonce plaintext encrypted :
  matching wallet -> matching app -> length nonce = NONCE_LENGTH ->
  encrypt_with_nonce wallet (sc_client_id app) plaintext nonce = Ok encrypted ->
  length encrypted = MIN_ENCRYPTED_MESSAGE_LENGTH + length plaintext /\
  session_decrypt app (sc_client_id wallet) encrypted = Ok plaintext.
Proof.
  intros Hw Ha Hn. unfold encrypt_with_nonce.
  destruct (box_seal _ _ _ _) as [sealed|] eqn:Es; [|done]. cbn [ok_or rbind]. intros [= <-].
  pose proof (box_seal_length _ _ _ _ _ Es) as Hl.
  assert (length (nonce ++ sealed) = MIN_ENCRYPTED_MESSAGE_LENGTH + length plaintext) as Hall.
  { rewrite length_app, Hn, Hl. unfold MIN_ENCRYPTED_MESSAGE_LENGTH, AUTHENTICATION_TAG_LENGTH. lia. }
  split; [done|]. unfold session_decrypt. rewrite Hall. rewrite (proj2 (Nat.ltb_ge _ _)) by lia.
  rewrite <- Hn, take_app_length, drop_app_length. rewrite Hw. cbn [cid_bytes].
  rewrite Ha in Es. cbn [cid_bytes] in Es. by rewrite (box_open_seal _ _ _ _ _ Es).
Qed.

(** What one end of a session encrypts for the other, the other end decrypts to the
    same bytes, also after its keys were stored and restored; the message is the nonce
    and a box and has at least 40 bytes, and what is shorter is refused as truncated. *)
Theorem session_crypto_roundtrip wallet app nonce plaintext encrypted :
  matching wallet -> matching app -> typed_secret app -> length nonce = NONCE_LENGTH ->
  encrypt_with_nonce wallet (sc_client_id app) plaintext nonce = Ok encrypted ->
  session_decrypt app (sc_client_id wallet) encrypted = Ok plaintext /\
  length encrypted = MIN_ENCRYPTED_MESSAGE_LENGTH + length plaintext /\
  (exists pair, decode_key_pair (key_pair_to_value (persisted_keypair app)) = Some pair /\
     from_persisted pair = Ok app) /\
  forall n, n < MIN_ENCRYPTED_MESSAGE_LENGTH ->
    session_decrypt app (sc_client_id wallet) (take n encrypted) = Err TruncatedMessage.
Proof.
  intros Hw Ha Ht Hn Henc. destruct (sealed_message_opens _ _ _ _ _ Hw Ha Hn Henc) as [Hall Hdec].
  split; [done|]. split; [done|]. split.
  - exists (persisted_keypair app). split; [by apply key_pair_read|]. unfold from_persisted.
    rewrite bool_decide_eq_true_2 by done. f_equal. cbn.
    unfold from_secret_key. rewrite <- Ha. by destruct app as [? []].
  - intros n Hlt. unfold session_decrypt. rewrite length_take.
    by rewrite (proj2 (Nat.ltb_lt _ _)) by lia.
Qed.
End Sessions.
