(* ===== verification/SessionBoundary.v ===== *)
(** * The boundary of TON Connect sessions

    The error of src/ton_connect.rs with the texts it prints, the signData requests of
    src/ton_connect/derived.rs and the digest that is signed for them, and the session
    whose keys are derived from the wallet. *)

From stdpp Require Import base numbers list option strings.
From S2P Require Import Prelude BoundaryTypes SendDomain Base64 Json CellBoc CellBocSpec.
From S2P Require Import ConnectSession ConnectValues Addresses ConnectRpc ConnectSigning.
From S2P Require Import ConnectWalletState ConnectCrypto.

(** ** Printed errors *)

(** [std::fmt::Display]. *)
Class Display (E : Type) := display : E -> rstr.

#[export] Instance ValueError_display : Display ValueError := fun error =>
  lit match error with
      | InvalidClientId => "client id must be exactly 64 lowercase hexadecimal characters"
      | InvalidNetworkId => "network id must be a stringified integer"
      | InvalidDecimalString => "decimal string must contain one or more ASCII digits"
      | InvalidUint64String =>
          "value must be a canonical decimal string in the unsigned 64-bit range"
      | InvalidBase64 => "value must be valid standard or URL-safe base64"
      | InvalidTraceId => "trace id must use the canonical UUID text shape"
      | InvalidHttpsUrl => "URL must be an absolute HTTPS URL with a host"
      | EmptyArray => "array must contain at least one element"
      end%string.

#[export] Instance CellBocError_display : Display CellBocError := fun error =>
  match error with
  | CellBoc_Base64 error => display error
  | CellBoc_InvalidBoc => lit "value must contain a valid single-root TON cell BoC"
  end.

#[export] Instance RequestContextError_display : Display RequestContextError := fun error =>
  lit match error with
      | Context_Expired => "TON Connect request has expired"
      | NetworkMismatch => "TON Connect request network differs from the active network"
      | AccountMismatch => "TON Connect request signer differs from the connected account"
      end%string.

#[export] Instance RpcError_display : Display RpcError := fun error =>
  match error with
  | Rpc_UnsupportedMethod method => lit "unsupported TON Connect RPC method: " ++ method
  | Rpc_InvalidParameterCount method expected actual =>
      lit "TON Connect RPC method " ++ lit method ++ lit " requires "
      ++ u64_to_string (N.of_nat expected) ++ lit " parameter(s), got "
      ++ u64_to_string (N.of_nat actual)
  | Rpc_InvalidPayload error => lit "invalid TON Connect RPC payload: " ++ error
  end.

#[export] Instance SigningError_display : Display SigningError := fun error =>
  lit match error with
      | InvalidPublicKey => "Ed25519 public key must be exactly 64 hexadecimal characters"
      | LengthOverflow => "TON Connect signing field exceeds the 32-bit wire length"
      | InvalidDomain => "cell-signing domain contains an empty DNS label"
      | InvalidCell => "invalid TON Connect signData cell payload"
      | InvalidBase64Payload => "invalid TON Connect signData base64 payload"
      | InvalidVerificationKey => "invalid Ed25519 verification key"
      end%string.

#[export] Instance WalletStateError_display : Display WalletStateError := fun error =>
  lit match error with
      | WalletState_InvalidBase64 => "walletStateInit must be canonical padded standard base64"
      | WalletState_InvalidBoc => "walletStateInit must be a valid single-root BoC"
      | InvalidStateInit => "walletStateInit root has an invalid StateInit layout"
      | MissingCode => "walletStateInit has no code cell"
      | MissingData => "walletStateInit has no data cell"
      | UnsupportedWalletCode => "walletStateInit uses an unsupported wallet contract"
      | InvalidWalletData => "walletStateInit data does not match the recognized wallet version"
      | AddressMismatch => "walletStateInit does not derive the reported account address"
      | PublicKeyMismatch => "wallet public key does not match walletStateInit"
      end%string.

#[export] Instance SessionCryptoError_display : Display SessionCryptoError := fun error =>
  lit match error with
      | EntropyUnavailable => "platform secure random source is unavailable"
      | EncryptionFailed => "TON Connect session encryption failed"
      | TruncatedMessage => "TON Connect encrypted message is truncated"
      | AuthenticationFailed => "TON Connect encrypted message authentication failed"
      end%string.

#[export] Instance FeatureValidationError_display : Display FeatureValidationError := fun _ =>
  lit "feature arrays must be non-empty and unique, and maxMessages must be positive".

#[export] Instance DeviceInfoValidationError_display : Display DeviceInfoValidationError := fun error =>
  lit match error with
      | EmptyIdentity => "DeviceInfo appName and appVersion must be non-empty"
      | UnsupportedProtocolVersion => "DeviceInfo maxProtocolVersion does not support TON Connect v2"
      | DuplicateFeature => "DeviceInfo contains a duplicate feature"
      end%string.

#[export] Instance BocError_display : Display BocError := fun _ => lit "invalid single-root BOC".

#[export] Instance NonEmptyStringError_display : Display NonEmptyStringError := fun _ =>
  lit "value must contain at least one non-whitespace character".

#[export] Instance UnsignedDecimalStringError_display : Display UnsignedDecimalStringError := fun _ =>
  lit "value must be a canonical unsigned base-10 integer".

(** An error that is already text: those of serde_json and of the address parsers. *)
#[export] Instance text_display : Display rstr := fun text => text.

Definition SigningError_InvalidAddress : rstr :=
  lit "account address must use raw workchain:64-hex form".
Definition AccountAddressError_text : rstr :=
  lit "value must be a canonical raw or TEP-2 friendly TON address".
Definition TonAddressStringError_text : rstr := lit "value must be a valid TON internal address".

Inductive TonConnectSessionError := SessionFailed (diagnostic : rstr).

Definition failed (diagnostic : rstr) : TonConnectSessionError :=
  SessionFailed (bounded_diagnostic diagnostic).

Definition session_error {E} `{Display E} (error : E) : TonConnectSessionError :=
  failed (display error).

(** ** signData requests *)

Inductive TonConnectSignDataPayload :=
  | Data_Text (text : rstr)
  | Data_Binary (data : rstr)
  | Data_Cell (schema cell : rstr).

Record TonConnectSignDataRequest := mkTonConnectSignDataRequest {
  sdq_payload : TonConnectSignDataPayload;
  sdq_network : option rstr;
  sdq_from : option rstr;
}.

(** [Option::map(try_from).transpose()]. *)
Definition traverse_option {E A B} (f : A -> result E B) (o : option A) : result E (option B) :=
  match o with Some a => rmap Some (f a) | None => Ok None end.

Definition MAX_SIGN_DATA_DOMAIN_BYTES : nat := 259.

(** No blank, control character, slash, question mark, number sign or at sign. *)
Definition domain_character (c : char) : bool :=
  negb (is_whitespace c || is_control c || (c =? 47)%N || (c =? 63)%N || (c =? 35)%N || (c =? 64)%N).

Definition validate_sign_data_domain (domain : rstr) : result TonConnectSessionError unit :=
  if negb (is_empty domain) && (length (utf8 domain) <=? MAX_SIGN_DATA_DOMAIN_BYTES)%nat
     && forallb domain_character domain
  then Ok tt
  else Err (failed (lit "TON Connect signData domain must be the dApp manifest host")).

Section SignData.
Context `{Sha256} `{Crc32Iso} `{HostParser} `{Crc32c} `{TonCells} `{HexCrate} `{Crc16}.
Context `{UrlSafeBase64}.

Definition sign_data_request (payload : SignDataPayload) : TonConnectSignDataRequest :=
  let '(data, network, from) :=
    match payload with
    | SignData_Text text network from => (Data_Text text, network, from)
    | SignData_Binary data network from => (Data_Binary data, network, from)
    | SignData_Cell schema cell network from => (Data_Cell schema (cb_encoded cell), network, from)
    end in
  mkTonConnectSignDataRequest data network (account_address_to_string <$> from).

Definition sign_data_payload (request : TonConnectSignDataRequest) (network : rstr)
    (address : RawAccountAddress) (domain : rstr) : result TonConnectSessionError SignDataPayload :=
  let? _ := validate_sign_data_domain domain in
  let? network_constraint :=
    map_err session_error (traverse_option network_id_try_from (sdq_network request)) in
  let? from :=
    map_err (fun _ => session_error AccountAddressError_text)
      (traverse_option account_address_try_from (sdq_from request)) in
  let? payload :=
    match sdq_payload request with
    | Data_Text text => Ok (SignData_Text text network_constraint from)
    | Data_Binary data =>
        let? data := map_err session_error (base64_value_try_from data) in
        Ok (SignData_Binary data network_constraint from)
    | Data_Cell schema cell =>
        let? cell := map_err session_error (cell_boc_try_from cell) in
        Ok (SignData_Cell schema cell network_constraint from)
    end in
  let? _ := map_err session_error (sign_data_validate_context payload network address) in
  Ok payload.

Definition sign_data_digest (request : TonConnectSignDataRequest) (network : rstr)
    (address : RawAccountAddress) (domain : rstr) (timestamp : N)
  : result TonConnectSessionError bytes :=
  let? payload := sign_data_payload request network address domain in
  map_err session_error (payload_signing_hash payload address domain timestamp).
End SignData.

(** ** Derived sessions *)

Record TonConnectDerivedSession := mkTonConnectDerivedSession {
  tds_crypto : SessionCrypto;
  tds_peer : ClientId;
  tds_signing_public_key : bytes;
  tds_address : RawAccountAddress;
  tds_network : rstr;
}.

Definition derived_session_new `{CryptoBox} (secret : bytes) (peer : ClientId)
    (signing_public_key : bytes) (address : RawAccountAddress) (network : rstr)
  : TonConnectDerivedSession :=
  mkTonConnectDerivedSession (from_secret_key secret) peer signing_public_key address network.
