(* ===== verification/EmulationAnswers.v ===== *)
(** * Emulation answers

    src/engine/emulation.rs: the request that runs a message without submitting it, and the
    summary of the trace that the provider returns. *)

From stdpp Require Import base numbers list option strings gmap sorting.
From S2P Require Import Prelude BoundaryTypes SendDomain Base64 ClientDomain Json ProviderRequest.
From S2P Require Import ProviderAnswers ConnectValues Addresses SessionBoundary.

(** ** Third-party code *)

(** [HashMap::iter], in an order of its own, and the texts of parse errors of [BigUint] and
    [TonAddress]. *)
Class HashIteration := {
  hash_iter {A} : gmap rstr A -> list (rstr * A);
  hash_iter_perm {A} (m : gmap rstr A) : hash_iter m ≡ₚ map_to_list m;
}.

Class ParseErrors := {
  biguint_error : rstr -> rstr;
  ton_address_error : rstr -> rstr;
}.

(** ** Public summaries ([src/domain/send.rs]) *)

Record SendEmulationAction := mkSendEmulationAction {
  ea_action_id : Base64Hash;
  ea_kind : NonEmptyString;
  ea_succeeded : bool;
  ea_accounts : list TonAddressString;
  ea_transaction_hashes : list Base64Hash;
  ea_details_json : rstr;
}.

Record SendEmulationTransaction := mkSendEmulationTransaction {
  et_account : TonAddressString;
  et_succeeded : bool;
  et_is_root : bool;
}.

Record SendEmulation := mkSendEmulation {
  em_mc_block_seqno : N;
  em_wallet_fees_nanograms : UnsignedDecimalString;
  em_trace_fees_nanograms : UnsignedDecimalString;
  em_transaction_count : N;
  em_actions : list SendEmulationAction;
  em_transactions : list SendEmulationTransaction;
  em_trace_succeeded : bool;
  em_is_incomplete : bool;
}.

Record EvaluatedEmulation := mkEvaluatedEmulation {
  ev_summary : SendEmulation;
  ev_wallet_succeeded : bool;
  ev_compute_exit_code : option Z;
  ev_action_result_code : option Z;
}.

(** ** Wire data *)

Record EmulatedComputePhase := mkEmulatedComputePhase {
  cp_success : option bool;
  cp_exit_code : option Z;
}.

Record EmulatedActionPhase := mkEmulatedActionPhase {
  ap_success : option bool;
  ap_result_code : option Z;
}.

Record EmulatedTransactionDescription := mkEmulatedTransactionDescription {
  ed_aborted : option bool;
  ed_compute_ph : option EmulatedComputePhase;
  ed_action : option EmulatedActionPhase;
}.

Record EmulatedTransaction := mkEmulatedTransaction {
  mt_account : rstr;
  mt_total_fees : rstr;
  mt_description : EmulatedTransactionDescription;
}.

Record RawEmulationAction := mkRawEmulationAction {
  rea_action_id : rstr;
  rea_kind : rstr;
  rea_success : bool;
  rea_accounts : list rstr;
  rea_transactions : list rstr;
  rea_details : Value;
}.

Record EmulateTraceResponse := mkEmulateTraceResponse {
  tr_mc_block_seqno : N;
  tr_trace_tx_hash : rstr;
  tr_transactions : gmap rstr EmulatedTransaction;
  tr_actions : list RawEmulationAction;
  tr_is_incomplete : bool;
}.

Definition as_i32 (v : Value) : option Z :=
  n ← as_i64 v; if ((-2147483648 <=? n) && (n <=? 2147483647))%Z then Some n else None.

Definition as_u32_value (v : Value) : option N :=
  n ← as_u64 v; if (n <=? u32_max)%N then Some n else None.

(** A [HashMap] with text keys: a later member replaces an earlier one. *)
Definition decode_hash_map {A} (decode : Value -> option A) (v : Value) : option (gmap rstr A) :=
  match v with
  | Object fields =>
      entries ← mapM (fun '(key, v) => a ← decode v; Some (key, a)) fields;
      Some (foldl (fun m '(key, a) => <[key := a]> m) ∅ entries)
  | _ => None
  end.

Definition decode_ComputePhase (v : Value) : option EmulatedComputePhase :=
  match struct_members ["success"; "exit_code"] v with
  | Some (shape, [success; exit_code]) =>
      success ← optional as_bool shape success;
      exit_code ← optional as_i32 shape exit_code;
      Some (mkEmulatedComputePhase success exit_code)
  | _ => None
  end.

Definition decode_ActionPhase (v : Value) : option EmulatedActionPhase :=
  match struct_members ["success"; "result_code"] v with
  | Some (shape, [success; result_code]) =>
      success ← optional as_bool shape success;
      result_code ← optional as_i32 shape result_code;
      Some (mkEmulatedActionPhase success result_code)
  | _ => None
  end.

Definition decode_Description (v : Value) : option EmulatedTransactionDescription :=
  match struct_members ["aborted"; "compute_ph"; "action"] v with
  | Some (shape, [aborted; compute_ph; action]) =>
      aborted ← optional as_bool shape aborted;
      compute_ph ← optional decode_ComputePhase shape compute_ph;
      action ← optional decode_ActionPhase shape action;
      Some (mkEmulatedTransactionDescription aborted compute_ph action)
  | _ => None
  end.

Definition decode_EmulatedTransaction (v : Value) : option EmulatedTransaction :=
  match struct_members ["account"; "total_fees"; "description"] v with
  | Some (_, [account; total_fees; description]) =>
      account ← required as_str account;
      total_fees ← required as_str total_fees;
      description ← required decode_Description description;
      Some (mkEmulatedTransaction account total_fees description)
  | _ => None
  end.

Definition decode_RawEmulationAction (v : Value) : option RawEmulationAction :=
  match struct_members ["action_id"; "type"; "success"; "accounts"; "transactions"; "details"] v with
  | Some (_, [action_id; kind; success; accounts; transactions; details]) =>
      action_id ← required as_str action_id;
      kind ← required as_str kind;
      success ← required as_bool success;
      accounts ← defaulted [] (decode_vec as_str) accounts;
      transactions ← defaulted [] (decode_vec as_str) transactions;
      details ← defaulted Null decode_value details;
      Some (mkRawEmulationAction action_id kind success accounts transactions details)
  | _ => None
  end.

Definition decode_TraceNode (v : Value) : option rstr :=
  match struct_members ["tx_hash"] v with
  | Some (_, [tx_hash]) => required as_str tx_hash
  | _ => None
  end.

Definition decode_EmulateTraceResponse (v : Value) : option EmulateTraceResponse :=
  match struct_members ["mc_block_seqno"; "trace"; "transactions"; "actions"; "is_incomplete"] v with
  | Some (_, [mc_block_seqno; trace; transactions; actions; is_incomplete]) =>
      mc_block_seqno ← required as_u32_value mc_block_seqno;
      trace ← required decode_TraceNode trace;
      transactions ← required (decode_hash_map decode_EmulatedTransaction) transactions;
      actions ← defaulted [] (decode_vec decode_RawEmulationAction) actions;
      is_incomplete ← defaulted false as_bool is_incomplete;
      Some (mkEmulateTraceResponse mc_block_seqno trace transactions actions is_incomplete)
  | _ => None
  end.

(** ** Evaluation *)

Definition compute_succeeded (phase : EmulatedComputePhase) : bool :=
  bool_decide (cp_success phase = Some true) &&
  bool_decide (cp_exit_code phase = Some 0%Z \/ cp_exit_code phase = Some 1%Z).

Definition action_succeeded (phase : EmulatedActionPhase) : bool :=
  bool_decide (ap_success phase = Some true) && bool_decide (ap_result_code phase = Some 0%Z).

Definition transaction_succeeded (transaction : EmulatedTransaction) (require_phases : bool) : bool :=
  let description := mt_description transaction in
  if negb (bool_decide (ed_aborted description = Some false)) then false
  else
    let compute := compute_succeeded <$> ed_compute_ph description in
    let action := action_succeeded <$> ed_action description in
    if require_phases
    then bool_decide (compute = Some true) && bool_decide (action = Some true)
    else negb (bool_decide (compute = Some false)) && negb (bool_decide (action = Some false)).

(** [str::contains]. *)
Fixpoint contains_text (needle s : rstr) : bool :=
  bool_decide (take (length needle) s = needle) ||
  match s with [] => false | _ :: rest => contains_text needle rest end.

Definition is_message_not_accepted (error : DomainError) : bool :=
  let diagnostic := map to_ascii_lowercase (de_developer_message error) in
  contains_text (lit "external message") diagnostic && contains_text (lit "not accepted") diagnostic.

(** [str::cmp] is the order of the scalar values. *)
Fixpoint text_leb (a b : rstr) : bool :=
  match a, b with
  | [], _ => true
  | _, [] => false
  | x :: a, y :: b => (x <? y)%N || ((x =? y)%N && text_leb a b)
  end.

(** The root first, then by account. *)
Definition transaction_leb (left right : SendEmulationTransaction) : bool :=
  if eqb (et_is_root left) (et_is_root right)
  then text_leb (tas_value (et_account left)) (tas_value (et_account right))
  else et_is_root left.

(** A stable sort: an element stays before those it is equal to. *)
Fixpoint insert_transaction (x : SendEmulationTransaction) (sorted : list SendEmulationTransaction)
  : list SendEmulationTransaction :=
  match sorted with
  | [] => [x]
  | y :: rest => if transaction_leb x y then x :: sorted else y :: insert_transaction x rest
  end.

Definition sort_transactions (transactions : list SendEmulationTransaction)
  : list SendEmulationTransaction :=
  foldr insert_transaction [] transactions.

(** [map(f).collect::<Result<Vec<_>, _>>()]. *)
Fixpoint try_map {A B E} (f : A -> result E B) (items : list A) : result E (list B) :=
  match items with
  | [] => Ok []
  | a :: rest =>
      let? b := f a in
      let? rest := try_map f rest in
      Ok (b :: rest)
  end.

Section Emulation.
Context `{SerdeJson} `{BigUintText} `{Base64Engine} `{HexCrate} `{Crc16} `{!UrlSafeBase64}.
Context `{TonAddressParser} `{HashIteration} `{ParseErrors}.

Definition build_emulation_request (config : WalletClientConfig) (id : HttpRequestId) (signed_boc : Boc)
  : result WalletClientError HttpRequest :=
  let? body := map_err (fun _ => StateUnavailable)
    (value_to_vec (object [("boc", Str (boc_to_base64 signed_boc)); ("ignore_chksig", Bool true);
                           ("include_code_data", Bool false); ("include_address_book", Bool false);
                           ("include_metadata", Bool false); ("with_actions", Bool true);
                           ("mc_block_seqno", Null)]%string)) in
  let? url := build_toncenter_url config [lit "api"; lit "emulate"; lit "v1"; lit "emulateTrace"] [] in
  Ok (mkHttpRequest id Post url
        [accept_json; mkHttpHeader (lit "Content-Type") (lit "application/json")] body
        (pc_request_timeout_ms (cfg_providers config))).

Definition parse_nanograms (value : rstr) (field : string) : result DomainError N :=
  ok_or (invalid_response (lit "invalid " ++ lit field ++ lit ": " ++ biguint_error value))
    (biguint_from_str value).

Definition parse_account_text (value : rstr) (what : string) : result DomainError TonAddressString :=
  ok_or (invalid_response (lit "invalid " ++ lit what ++ lit ": " ++ TonAddressStringError_text))
    (ton_address_string_try_from value).

Definition Base64HashError_text : rstr := lit "hash must be a 256-bit Base64 value".

Definition parse_hash_text (value : rstr) (what : string) : result DomainError Base64Hash :=
  ok_or (invalid_response (lit "invalid " ++ lit what ++ lit ": " ++ Base64HashError_text))
    (base64_hash_try_from value).

Definition parse_action (action : RawEmulationAction) : result DomainError SendEmulationAction :=
  let? accounts :=
    try_map (fun account => parse_account_text account "emulation action account") (rea_accounts action) in
  let? transaction_hashes :=
    try_map (fun hash => parse_hash_text hash "emulation action transaction hash")
      (rea_transactions action) in
  let? action_id := parse_hash_text (rea_action_id action) "emulation action id" in
  let? kind := map_err (fun _ => invalid_response (lit "emulation action type is empty"))
    (nes_try_from (rea_kind action)) in
  Ok (mkSendEmulationAction action_id kind (rea_success action) accounts transaction_hashes
        (value_to_string (rea_details action))).

(** The sum of the fees, in the order of the map. *)
Fixpoint sum_fees (total : N) (transactions : list EmulatedTransaction) : result DomainError N :=
  match transactions with
  | [] => Ok total
  | transaction :: rest =>
      let? fees := parse_nanograms (mt_total_fees transaction) "trace transaction fees" in
      sum_fees (total + fees) rest
  end.

Definition summarize_transaction (root : rstr) (entry : rstr * EmulatedTransaction)
  : result DomainError SendEmulationTransaction :=
  let? account := parse_account_text (mt_account entry.2) "emulated transaction account" in
  let is_root := bool_decide (entry.1 = root) in
  Ok (mkSendEmulationTransaction account (transaction_succeeded entry.2 is_root) is_root).

Definition parse_emulation (body : bytes) (expected_source : TonAddressString)
  : result DomainError EvaluatedEmulation :=
  let? response := map_err invalid_response (decode_slice decode_EmulateTraceResponse body) in
  let entries := hash_iter (tr_transactions response) in
  let? wallet := ok_or (invalid_response (lit "emulation trace root transaction is missing"))
    (tr_transactions response !! tr_trace_tx_hash response) in
  let? wallet_address :=
    ok_or (invalid_response (lit "invalid emulated wallet address: "
                             ++ ton_address_error (mt_account wallet)))
      (ton_address_from_str (mt_account wallet)) in
  if negb (bool_decide (wallet_address = tas_address expected_source))
  then Err (invalid_response (lit "emulation trace root belongs to another account"))
  else
    let? wallet_fees := parse_nanograms (mt_total_fees wallet) "wallet transaction fees" in
    let? trace_fees := sum_fees 0 (map snd entries) in
    let? actions := try_map parse_action (tr_actions response) in
    let? transactions := try_map (summarize_transaction (tr_trace_tx_hash response)) entries in
    let trace_succeeded :=
      forallb (fun transaction => transaction_succeeded transaction false) (map snd entries)
      && forallb ea_succeeded actions in
    let description := mt_description wallet in
    Ok (mkEvaluatedEmulation
          (mkSendEmulation (tr_mc_block_seqno response) (mkUnsignedDecimalString wallet_fees)
             (mkUnsignedDecimalString trace_fees) (N.of_nat (size (tr_transactions response))) actions
             (sort_transactions transactions) trace_succeeded (tr_is_incomplete response))
          (transaction_succeeded wallet true)
          (ed_compute_ph description ≫= cp_exit_code) (ed_action description ≫= ap_result_code)).
End Emulation.

(** ** What a summary says *)

Lemma try_map_ok {A B E} (f : A -> result E B) items found :
  try_map f items = Ok found <-> Forall2 (fun a b => f a = Ok b) items found.
Proof.
  revert found. induction items as [|a items IH]; intros found; cbn [try_map].
  - split; [by intros [= <-]|]. by intros ->%Forall2_nil_inv_l.
  - split.
    + intros (b & Hb & (rest & Hrest & [= <-])%rbind_ok)%rbind_ok. constructor; [done|by apply IH].
    + intros (b & rest & Hb & Hrest%IH & ->)%Forall2_cons_inv_l. by rewrite Hb, Hrest.
Qed.

(** *** Sorting *)

Lemma insert_transaction_perm x sorted : insert_transaction x sorted ≡ₚ x :: sorted.
Proof.
  induction sorted as [|y sorted IH]; cbn [insert_transaction]; [done|].
  destruct (transaction_leb x y); [done|]. rewrite IH. constructor.
Qed.

Lemma sort_transactions_perm transactions : sort_transactions transactions ≡ₚ transactions.
Proof.
  induction transactions as [|x transactions IH]; cbn; [done|]. by rewrite insert_transaction_perm, IH.
Qed.

Lemma text_leb_total a b : text_leb a b = false -> text_leb b a = true.
Proof.
  revert b. induction a as [|x a IH]; intros [|y b]; cbn [text_leb]; try done.
  destruct (N.ltb_spec x y), (N.ltb_spec y x), (N.eqb_spec x y), (N.eqb_spec y x); cbn; try lia; try done.
  apply IH.
Qed.

Lemma text_leb_trans a b c : text_leb a b = true -> text_leb b c = true -> text_leb a c = true.
Proof.
  revert b c. induction a as [|x a IH]; intros [|y b] [|z c]; cbn [text_leb]; try done.
  destruct (N.ltb_spec x y), (N.ltb_spec y z), (N.ltb_spec x z), (N.eqb_spec x y), (N.eqb_spec y z), (N.eqb_spec x z);
    cbn; try lia; try done. apply IH.
Qed.

(** Lexicographic order of texts. *)
Inductive alphabetical : rstr -> rstr -> Prop :=
  | alphabetical_end b : alphabetical [] b
  | alphabetical_here x y a b : (x < y)%N -> alphabetical (x :: a) (y :: b)
  | alphabetical_later x a b : alphabetical a b -> alphabetical (x :: a) (x :: b).

Lemma text_leb_alphabetical a b : text_leb a b = true -> alphabetical a b.
Proof.
  revert b. induction a as [|x a IH]; intros [|y b]; cbn [text_leb]; intros E; [apply alphabetical_end..|done|].
  apply orb_true_iff in E as [?%N.ltb_lt|[->%N.eqb_eq ?]%andb_true_iff];
    [by apply alphabetical_here|by apply alphabetical_later, IH].
Qed.

(** The order of the rows below the root. *)
Definition by_account (x y : SendEmulationTransaction) : Prop :=
  alphabetical (tas_value (et_account x)) (tas_value (et_account y)).

Definition transaction_le (x y : SendEmulationTransaction) : Prop := transaction_leb x y = true.

#[export] Instance transaction_le_trans : Transitive transaction_le.
Proof.
  intros x y z. unfold transaction_le, transaction_leb.
  destruct (et_is_root x), (et_is_root y), (et_is_root z); cbn; try done; apply text_leb_trans.
Qed.

Lemma transaction_leb_total x y : transaction_leb x y = false -> transaction_le y x.
Proof.
  unfold transaction_le, transaction_leb. destruct (et_is_root x), (et_is_root y); cbn; try done; apply text_leb_total.
Qed.

Lemma insert_transaction_sorted x sorted :
  StronglySorted transaction_le sorted -> StronglySorted transaction_le (insert_transaction x sorted).
Proof.
  induction 1 as [|y sorted Hs IH Hall]; cbn [insert_transaction]; [repeat constructor|].
  destruct (transaction_leb x y) eqn:E.
  - constructor; [by constructor|]. constructor; [done|]. eapply Forall_impl; [exact Hall|].
    intros z. by apply transaction_le_trans.
  - constructor; [done|]. rewrite insert_transaction_perm. constructor; [by apply transaction_leb_total|done].
Qed.

Lemma sort_transactions_sorted transactions : StronglySorted transaction_le (sort_transactions transactions).
Proof. induction transactions; cbn; [constructor|by apply insert_transaction_sorted]. Qed.

(** *** Outcomes *)

(** The compute phase accepted the message, and the action phase sent what it should. *)
Definition compute_fine (phase : EmulatedComputePhase) : Prop :=
  cp_success phase = Some true /\ (cp_exit_code phase = Some 0%Z \/ cp_exit_code phase = Some 1%Z).
Definition action_fine (phase : EmulatedActionPhase) : Prop :=
  ap_success phase = Some true /\ ap_result_code phase = Some 0%Z.

(** Not aborted, and every phase that was observed is fine. *)
Definition no_failure (t : EmulatedTransaction) : Prop :=
  ed_aborted (mt_description t) = Some false /\
  (forall phase, ed_compute_ph (mt_description t) = Some phase -> compute_fine phase) /\
  (forall phase, ed_action (mt_description t) = Some phase -> action_fine phase).

(** Both phases ran and are fine. *)
Definition executed_fully (t : EmulatedTransaction) : Prop :=
  no_failure t /\ is_Some (ed_compute_ph (mt_description t)) /\ is_Some (ed_action (mt_description t)).

Lemma compute_succeeded_spec phase : compute_succeeded phase = true <-> compute_fine phase.
Proof. unfold compute_succeeded, compute_fine. by rewrite andb_true_iff, !bool_decide_eq_true. Qed.

Lemma action_succeeded_spec phase : action_succeeded phase = true <-> action_fine phase.
Proof. unfold action_succeeded, action_fine. by rewrite andb_true_iff, !bool_decide_eq_true. Qed.

Lemma transaction_succeeded_spec t :
  (transaction_succeeded t false = true <-> no_failure t) /\
  (transaction_succeeded t true = true <-> executed_fully t).
Proof.
  unfold transaction_succeeded, executed_fully, no_failure.
  destruct (mt_description t) as [aborted compute action]. cbn [ed_aborted ed_compute_ph ed_action].
  case_bool_decide as Ha; cbn [negb]; [|naive_solver].
  assert (forall (p : EmulatedComputePhase), compute_succeeded p = false -> ~ compute_fine p) as Hc
    by (intros p E; rewrite <- compute_succeeded_spec; congruence).
  assert (forall (p : EmulatedActionPhase), action_succeeded p = false -> ~ action_fine p) as Hc'
    by (intros p E; rewrite <- action_succeeded_spec; congruence).
  destruct compute as [c|], action as [a|]; cbn [fmap option_fmap option_map];
    repeat match goal with
      | |- context [compute_succeeded ?p] =>
          let E := fresh in destruct (compute_succeeded p) eqn:E;
          [apply compute_succeeded_spec in E|apply Hc in E]
      | |- context [action_succeeded ?p] =>
          let E := fresh in destruct (action_succeeded p) eqn:E;
          [apply action_succeeded_spec in E|apply Hc' in E]
      end; vm_compute bool_decide; cbn; unfold is_Some; naive_solver.
Qed.

Section Reading.
Context `{SerdeJson} `{BigUintText} `{Base64Engine} `{HexCrate} `{Crc16} `{!UrlSafeBase64}.
Context `{TonAddressParser} `{HashIteration} `{ParseErrors}.

(** *** Fees *)

Definition fees_of (t : EmulatedTransaction) : option N := biguint_from_str (mt_total_fees t).

Lemma parse_nanograms_ok value field n : parse_nanograms value field = Ok n <-> biguint_from_str value = Some n.
Proof. apply ok_or_ok. Qed.

Lemma sum_fees_ok total ts sum :
  sum_fees total ts = Ok sum <->
  exists fees, Forall2 (fun t n => fees_of t = Some n) ts fees /\ sum = (total + foldr N.add 0 fees)%N.
Proof.
  revert total. induction ts as [|t ts IH]; intros total; cbn [sum_fees].
  - split; [intros [= <-]; exists []; split; [done|cbn; lia]|].
    intros (fees & ->%Forall2_nil_inv_l & ->). cbn. f_equal. lia.
  - split.
    + intros (n & Hn%parse_nanograms_ok & (fees & Hf & ->)%IH)%rbind_ok. exists (n :: fees).
      split; [by constructor|cbn; lia].
    + intros (fees & (n & rest & Hn & Hf & ->)%Forall2_cons_inv_l & ->).
      unfold fees_of in Hn. apply (parse_nanograms_ok _ "trace transaction fees") in Hn. rewrite Hn.
      cbn [rbind]. apply IH. exists rest. split; [done|cbn; lia].
Qed.

(** *** Acceptance and contents *)

(** A reported action: every part of it is the part of the answer. *)
Record action_of (raw : RawEmulationAction) (a : SendEmulationAction) : Prop := {
  action_id_read : base64_hash_try_from (rea_action_id raw) = Some (ea_action_id a);
  action_kind_read : nes_str (ea_kind a) = rea_kind raw /\ trim (rea_kind raw) <> [];
  action_success_read : ea_succeeded a = rea_success raw;
  action_accounts_read :
    Forall2 (fun text account => ton_address_string_try_from text = Some account) (rea_accounts raw)
      (ea_accounts a);
  action_hashes_read :
    Forall2 (fun text hash => base64_hash_try_from text = Some hash) (rea_transactions raw)
      (ea_transaction_hashes a);
  action_details_read : ea_details_json a = value_to_string (rea_details raw);
}.

Lemma try_map_ok_or {A B E} (f : A -> option B) (error : A -> E) items found :
  try_map (fun a => ok_or (error a) (f a)) items = Ok found <-> Forall2 (fun a b => f a = Some b) items found.
Proof. rewrite try_map_ok. split; intros Hf; (eapply Forall2_impl; [exact Hf|]); intros ? ?; apply ok_or_ok. Qed.

Lemma parse_action_spec raw a : parse_action raw = Ok a <-> action_of raw a.
Proof.
  unfold parse_action, parse_account_text, parse_hash_text. split.
  - intros (accounts & Ha%try_map_ok_or & E)%rbind_ok. apply rbind_ok in E as (hashes & Hh%try_map_ok_or & E).
    apply rbind_ok in E as (id & Hid%ok_or_ok & E). apply rbind_ok in E as (kind & Hk%map_err_ok & [= <-]).
    unfold nes_try_from in Hk. destruct (trim (rea_kind raw)) eqn:Ek; [done|]. injection Hk as <-.
    by constructor; cbn; rewrite ?Ek.
  - intros [Hid [Hk Hne] Hs Ha Hh Hd]. rewrite (proj2 (try_map_ok_or _ _ _ _) Ha). cbn [rbind].
    rewrite (proj2 (try_map_ok_or _ _ _ _) Hh). cbn [rbind]. rewrite Hid. cbn [ok_or rbind].
    unfold nes_try_from. destruct (trim (rea_kind raw)) eqn:Ek; [done|]. cbn. destruct a as [? []]. cbn in *. by subst.
Qed.

(** What an answer must hold to be read at all. *)
Definition acceptable (response : EmulateTraceResponse) (source : TonAddressString) : Prop :=
  (exists root, tr_transactions response !! tr_trace_tx_hash response = Some root /\
     ton_address_from_str (mt_account root) = Some (tas_address source)) /\
  map_Forall (fun _ t => is_Some (fees_of t) /\ is_Some (ton_address_string_try_from (mt_account t)))
    (tr_transactions response) /\
  Forall (fun action => exists a, action_of action a) (tr_actions response).

(** One row of the summary, for the transaction with the key [hash]. *)
Definition row_of (root : rstr) (entry : rstr * EmulatedTransaction) (row : SendEmulationTransaction) : Prop :=
  ton_address_string_try_from (mt_account entry.2) = Some (et_account row) /\
  (et_is_root row = true <-> entry.1 = root) /\
  (et_succeeded row = true <-> if et_is_root row then executed_fully entry.2 else no_failure entry.2).

(** The fees of all transactions. *)
Definition total_fees (transactions : gmap rstr EmulatedTransaction) : N :=
  foldr N.add 0%N (map (fun entry => default 0%N (fees_of entry.2)) (map_to_list transactions)).

Definition summarizes (response : EmulateTraceResponse) (source : TonAddressString)
    (ev : EvaluatedEmulation) : Prop :=
  let summary := ev_summary ev in
  let transactions := tr_transactions response in
  exists root rows first rest,
    transactions !! tr_trace_tx_hash response = Some root /\
    (ev_wallet_succeeded ev = true <-> executed_fully root) /\
    fees_of root = Some (uds_value (em_wallet_fees_nanograms summary)) /\
    uds_value (em_trace_fees_nanograms summary) = total_fees transactions /\
    em_transaction_count summary = N.of_nat (size transactions) /\
    Forall2 action_of (tr_actions response) (em_actions summary) /\
    Forall2 (row_of (tr_trace_tx_hash response)) (map_to_list transactions) rows /\
    em_transactions summary ≡ₚ rows /\
    em_transactions summary = first :: rest /\
    et_is_root first = true /\ tas_address (et_account first) = tas_address source /\
    Forall (fun row => et_is_root row = false) rest /\
    StronglySorted by_account rest /\
    (em_trace_succeeded summary = true <->
       map_Forall (fun _ t => no_failure t) transactions /\
       Forall (fun a => ea_succeeded a = true) (em_actions summary)) /\
    em_is_incomplete summary = tr_is_incomplete response /\
    em_mc_block_seqno summary = tr_mc_block_seqno response /\
    ev_compute_exit_code ev = (ed_compute_ph (mt_description root) ≫= cp_exit_code) /\
    ev_action_result_code ev = (ed_action (mt_description root) ≫= ap_result_code).

Lemma summarize_row root entry row :
  summarize_transaction root entry = Ok row -> row_of root entry row.
Proof.
  unfold summarize_transaction, parse_account_text. intros (account & Ha%ok_or_ok & [= <-])%rbind_ok.
  unfold row_of. cbn [et_account et_is_root et_succeeded]. split; [done|].
  split; [apply bool_decide_eq_true|]. case_bool_decide; apply transaction_succeeded_spec.
Qed.

Lemma summarize_total root entry :
  is_Some (ton_address_string_try_from (mt_account entry.2)) ->
  exists row, summarize_transaction root entry = Ok row.
Proof.
  intros [account Ha]. unfold summarize_transaction, parse_account_text. rewrite Ha. cbn [ok_or rbind]. eauto.
Qed.

(** *** Independence of the order of the map *)

Lemma fees_total ts fees :
  Forall2 (fun t n => fees_of t = Some n) ts fees ->
  foldr N.add 0%N fees = foldr N.add 0%N (map (fun t => default 0%N (fees_of t)) ts).
Proof. induction 1 as [|t n ts fees Hn _ IH]; cbn; [done|]. by rewrite Hn, IH. Qed.

Lemma total_fees_perm (m : gmap rstr EmulatedTransaction) entries fees :
  entries ≡ₚ map_to_list m -> Forall2 (fun t n => fees_of t = Some n) (map snd entries) fees ->
  foldr N.add 0%N fees = total_fees m.
Proof.
  intros Hp Hf. rewrite (fees_total _ _ Hf), map_map. unfold total_fees.
  apply (foldr_permutation_proper eq N.add 0%N); [intros; lia|]. by rewrite Hp.
Qed.

Lemma entries_forall (m : gmap rstr EmulatedTransaction) (P : EmulatedTransaction -> Prop) entries :
  entries ≡ₚ map_to_list m -> (Forall P (map snd entries) <-> map_Forall (fun _ t => P t) m).
Proof.
  intros Hp. rewrite Forall_map, Hp, map_Forall_to_list. apply Forall_iff. by intros [h t].
Qed.

Lemma below_root_sorted rows :
  Forall (fun row => et_is_root row = false) rows -> StronglySorted transaction_le rows ->
  StronglySorted by_account rows.
Proof.
  intros Hroot Hs. induction Hs as [|x rows Hs IH Hall]; [constructor|].
  apply Forall_cons in Hroot as [Hx Hroot]. constructor; [by apply IH|].
  rewrite Forall_forall in Hall, Hroot |- *. intros y Hy. apply text_leb_alphabetical.
  specialize (Hall y Hy). unfold transaction_le, transaction_leb in Hall. by rewrite Hx, (Hroot y Hy) in Hall.
Qed.

(** The root is the first row, and the only one that is marked. *)
Lemma root_first (m : gmap rstr EmulatedTransaction) hash root rows sorted :
  m !! hash = Some root -> Forall2 (row_of hash) (map_to_list m) rows ->
  sorted ≡ₚ rows -> StronglySorted transaction_le sorted ->
  exists first rest, sorted = first :: rest /\ row_of hash (hash, root) first /\
    et_is_root first = true /\ Forall (fun row => et_is_root row = false) rest /\
    StronglySorted by_account rest.
Proof.
  intros Hm Hrows Hp Hs.
  destruct (Permutation_Forall2 (symmetry (map_to_list_delete m hash root Hm)) Hrows)
    as (rows' & Hp' & (row & others & Hrow & Hothers & ->)%Forall2_cons_inv_l).
  assert (Forall (fun row => et_is_root row = false) others) as Hfalse.
  { apply Forall2_Forall_r with (P := row_of hash) (l := map_to_list (delete hash m)).
    { done. }
    apply Forall_forall. intros [h t] [Hne _]%elem_of_map_to_list%lookup_delete_Some row' (_ & Hr & _).
    apply not_true_iff_false. intros E. by apply Hne, eq_sym, Hr. }
  assert (et_is_root row = true) as Hroot by (by apply Hrow).
  rewrite Hp' in Hp. destruct sorted as [|first rest]; [by apply Permutation_nil_l in Hp|].
  inversion Hs as [|? ? Hrest Hall]; subst.
  assert (first ∈ row :: others) as [->|Hin]%elem_of_cons by (rewrite <- Hp; left).
  - exists row, rest. apply Permutation_cons_inv in Hp. rewrite <- Hp in Hfalse. split_and!; try done.
    by apply below_root_sorted.
  - assert (row ∈ rest) as Hr.
    { assert (row ∈ first :: rest) as [<-|?]%elem_of_cons by (rewrite Hp; left); [|done].
      rewrite Forall_forall in Hfalse. specialize (Hfalse _ Hin). congruence. }
    rewrite Forall_forall in Hall, Hfalse. specialize (Hall _ Hr). specialize (Hfalse _ Hin).
    unfold transaction_le, transaction_leb in Hall. by rewrite Hfalse, Hroot in Hall.
Qed.

Lemma forallb_Forall_iff {A} (f : A -> bool) (P : A -> Prop) l :
  (forall a, f a = true <-> P a) -> (forallb f l = true <-> Forall P l).
Proof. intros Hf. induction l as [|a l IH]; cbn; [by split|]. by rewrite andb_true_iff, IH, Hf, Forall_cons. Qed.

(** *** The two directions *)

Lemma collect_Forall2 {A B} (R : A -> B -> Prop) items :
  Forall (fun a => exists b, R a b) items -> exists found, Forall2 R items found.
Proof.
  induction 1 as [|a items [b Hb] _ [found Hf]]; [by exists []|]. exists (b :: found). by constructor.
Qed.

Lemma try_from_address value a :
  ton_address_string_try_from value = Some a -> ton_address_from_str value = Some (tas_address a).
Proof.
  unfold ton_address_string_try_from, parse_ton_address_parts. intros E.
  destruct (contains 58%N value); cbn [rbind] in E.
  - destruct (ton_address_from_str value) as [address|]; [|done]. cbn [ok_or rbind] in E.
    destruct (raw_account_address address); by simplify_eq/=.
  - destruct (canonical_user_friendly value) as [canonical|]; [|done]. cbn [rbind] in E.
    destruct (friendly_try_from canonical); [|done]. cbn [map_err rbind] in E.
    destruct (ton_address_from_str value); by simplify_eq/=.
Qed.

Lemma parse_emulation_summarizes body source ev :
  parse_emulation body source = Ok ev ->
  exists response, decode_slice decode_EmulateTraceResponse body = Ok response /\
    acceptable response source /\ summarizes response source ev.
Proof.
  unfold parse_emulation. intros (response & Hd%map_err_ok & E)%rbind_ok. exists response. split; [done|].
  cbn zeta in E. pose proof (hash_iter_perm (tr_transactions response)) as Hp.
  apply rbind_ok in E as (root & Hroot%ok_or_ok & E). apply rbind_ok in E as (address & Ha%ok_or_ok & E).
  case_bool_decide as Hs; [|done]. cbn [negb] in E. subst address.
  apply rbind_ok in E as (wallet_fees & Hw%parse_nanograms_ok & E).
  apply rbind_ok in E as (fees & (each & Heach & ->)%sum_fees_ok & E).
  apply rbind_ok in E as (actions & Hactions%try_map_ok & E).
  assert (Forall2 action_of (tr_actions response) actions) as Hact
    by (eapply Forall2_impl; [exact Hactions|]; intros ? ?; apply parse_action_spec).
  apply rbind_ok in E as (rows & Hrows%try_map_ok & [= <-]).
  destruct (Permutation_Forall2 Hp Hrows) as (rows' & Hpr & Hrows').
  assert (Forall2 (row_of (tr_trace_tx_hash response)) (map_to_list (tr_transactions response)) rows')
    as Hof by (eapply Forall2_impl; [exact Hrows'|]; intros ? ?; apply summarize_row).
  split.
  - split; [by exists root|]. split.
    + intros h t Ht. split.
      * assert (map_Forall (fun _ t => is_Some (fees_of t)) (tr_transactions response)) as Hsome; [|by apply (Hsome h)].
        apply (entries_forall _ _ _ Hp). eapply Forall2_Forall_l; [exact Heach|]. apply Forall_true. by eauto.
      * assert (Forall (fun entry => is_Some (ton_address_string_try_from (mt_account entry.2)))
                  (map_to_list (tr_transactions response))) as Hsome.
        { eapply Forall2_Forall_l; [exact Hof|]. apply Forall_true. intros row entry [Hr _]. by eexists. }
        rewrite Forall_forall in Hsome. apply (Hsome (h, t)). by apply elem_of_map_to_list.
    + eapply Forall2_Forall_l; [exact Hact|]. apply Forall_true. eauto.
  - destruct (root_first _ _ _ _ (sort_transactions rows) Hroot Hof) as (first & rest & Hsort & Hfirst & Hmark & Hothers & Hsorted).
    { by rewrite sort_transactions_perm. } { apply sort_transactions_sorted. }
    exists root, rows', first, rest. cbn [ev_summary em_wallet_fees_nanograms em_trace_fees_nanograms
      em_transaction_count em_actions em_transactions em_trace_succeeded em_is_incomplete
      em_mc_block_seqno ev_wallet_succeeded ev_compute_exit_code ev_action_result_code uds_value].
    split; [done|]. split; [apply transaction_succeeded_spec|]. split; [done|].
    split; [rewrite N.add_0_l; by apply (total_fees_perm _ _ _ Hp)|]. split; [done|]. split; [done|].
    split; [done|]. split; [by rewrite sort_transactions_perm|]. split; [done|]. split; [done|].
    split.
    { destruct Hfirst as [Hf _]. cbn [snd] in Hf. by rewrite (try_from_address _ _ Hf) in Ha; simplify_eq. }
    split; [done|]. split; [done|]. split; [|by split_and!].
    rewrite andb_true_iff, (forallb_Forall_iff _ no_failure) by apply transaction_succeeded_spec.
    by rewrite (entries_forall _ _ _ Hp), (forallb_Forall_iff _ (fun a => ea_succeeded a = true)).
Qed.

Lemma acceptable_parsed body response source :
  decode_slice decode_EmulateTraceResponse body = Ok response -> acceptable response source ->
  exists ev, parse_emulation body source = Ok ev.
Proof.
  intros Hd ((root & Hroot & Ha) & Hall & Hactions). unfold parse_emulation. rewrite Hd. cbn [map_err rbind]. cbn zeta.
  rewrite Hroot. cbn [ok_or rbind]. rewrite Ha. cbn [ok_or rbind].
  rewrite bool_decide_true by done. cbn [negb].
  pose proof (hash_iter_perm (tr_transactions response)) as Hp.
  destruct (Hall _ _ Hroot) as [[wallet_fees Hw] _]. apply (parse_nanograms_ok _ "wallet transaction fees") in Hw.
  rewrite Hw. cbn [rbind].
  assert (Forall (fun t => is_Some (fees_of t)) (map snd (hash_iter (tr_transactions response)))) as Hfees.
  { apply (entries_forall _ _ _ Hp). intros h t Ht. by destruct (Hall _ _ Ht). }
  apply collect_Forall2 in Hfees as [each Heach].
  rewrite (proj2 (sum_fees_ok 0 _ _) (ex_intro _ each (conj Heach eq_refl))). cbn [rbind].
  apply collect_Forall2 in Hactions as [actions Hact].
  assert (Forall2 (fun raw a => parse_action raw = Ok a) (tr_actions response) actions) as Hac%try_map_ok
    by (eapply Forall2_impl; [exact Hact|]; intros ? ?; apply parse_action_spec). rewrite Hac. cbn [rbind].
  assert (Forall (fun entry => exists row, summarize_transaction (tr_trace_tx_hash response) entry = Ok row)
            (hash_iter (tr_transactions response))) as [rows Hr%try_map_ok]%collect_Forall2.
  { rewrite Hp. apply Forall_forall. intros [h t] Hin%elem_of_map_to_list. apply summarize_total.
    by destruct (Hall _ _ Hin). }
  rewrite Hr. cbn [rbind]. eauto.
Qed.

Lemma fees_in_total (m : gmap rstr EmulatedTransaction) hash t n :
  m !! hash = Some t -> fees_of t = Some n -> (n <= total_fees m)%N.
Proof.
  intros Hm Hn. unfold total_fees.
  rewrite <- (foldr_permutation_proper eq N.add 0%N ltac:(intros; lia) _ _
    (fmap_Permutation _ _ _ (map_to_list_delete m hash t Hm))).
  cbn. rewrite Hn. cbn. lia.
Qed.

(** C5: an emulation answer is read exactly.  It is accepted if and only if it is well
    formed, every fee, address and hash is valid, no action kind is blank, and the root of
    the trace is a transaction of the wallet.  The summary then counts every transaction
    once and adds up all their fees, of which the fees of the root are a part; it has one
    row per transaction; its first row is the root, a transaction of the wallet, and is the
    only row marked as root; the other rows, further transactions of the wallet among them
    if there are any, are in the order of their addresses; actions, codes and block are
    those of the answer; the root and the trace succeed exactly when the phases say so.
    None of this depends on the order of the hash map. *)
Theorem emulation_read_exactly body source :
  (forall ev, parse_emulation body source = Ok ev ->
     exists response, decode_slice decode_EmulateTraceResponse body = Ok response /\
       acceptable response source /\ summarizes response source ev /\
       (uds_value (em_wallet_fees_nanograms (ev_summary ev))
        <= uds_value (em_trace_fees_nanograms (ev_summary ev)))%N) /\
  (forall response, decode_slice decode_EmulateTraceResponse body = Ok response ->
     acceptable response source -> exists ev, parse_emulation body source = Ok ev).
Proof.
  split; [|intros response; apply acceptable_parsed].
  intros ev (response & Hd & Hok & Hs)%parse_emulation_summarizes. exists response. split_and!; [done..|].
  destruct Hs as (root & rows & first & rest & Hroot & _ & Hfee & Htotal & _). rewrite Htotal.
  by apply (fees_in_total _ _ _ _ Hroot).
Qed.
End Reading.
