(* ===== verification/LookupAnswers.v ===== *)
(** * Answers to lookups

    What the operations of the resolution slot read from the provider: TON DNS records
    (src/engine/dns.rs), the public key of a contract (src/engine/send_http.rs) and the key
    changes of this wallet (src/engine/key_history.rs). *)

From stdpp Require Import base numbers list option strings.
From S2P Require Import Prelude BoundaryTypes SendDomain Base64 ClientDomain Json ClientState.
From S2P Require Import ProviderRequest ProviderAnswers CellBocSpec ConnectValues Addresses SessionBoundary.

(** [BigUint::parse_bytes] with radix 16. *)
Class BigUintHex := { biguint_from_hex : rstr -> option N }.

(** ** DNS names *)

Definition MAX_DNS_NAME_BYTES : nat := 126.

(** [str::split] on a character. *)
Fixpoint split_char (separator : char) (s : rstr) : list rstr :=
  match s with
  | [] => [[]]
  | c :: rest =>
      if (c =? separator)%N then [] :: split_char separator rest
      else match split_char separator rest with
           | piece :: pieces => (c :: piece) :: pieces
           | [] => [[c]]
           end
  end.

Definition normalize_dns_name (name : rstr) : result rstr rstr :=
  if is_empty name || (MAX_DNS_NAME_BYTES <? length (utf8 name))%nat
  then Err (lit "TON DNS name must contain 1 to 126 ASCII bytes")
  else if negb (forallb (fun c => c <? 128)%N name)
          || existsb (fun byte => (byte <=? 32) || (byte =? 127))%N (utf8 name)
  then Err (lit "TON DNS name must contain printable ASCII without spaces")
  else
    let normalized := map to_ascii_lowercase name in
    match split_char 46 normalized with
    | [] => Err (lit "TON DNS name is empty")
    | first :: remaining =>
        if is_empty first then Err (lit "TON DNS labels must not be empty")
        else if is_empty remaining || existsb is_empty remaining
                || negb (bool_decide (list.last remaining = Some (lit "ton")))
        then Err (lit "TON DNS name must be a valid .ton domain")
        else Ok normalized
    end.

(** ** DNS records *)

Definition WALLET_CATEGORY_HASH : rstr := lit "6NRAUIc9uoZap8Fwq0zOZNkIOaNNz9bPcdFOAgVEOxs=".

Record RawDnsEntry := mkRawDnsEntry { rde_category : rstr; rde_entry : Value }.
Record RawDnsResolved := mkRawDnsResolved { rdr_kind : rstr; rdr_entries : list RawDnsEntry }.

Definition decode_RawDnsEntry (v : Value) : option RawDnsEntry :=
  match struct_members ["category"; "entry"] v with
  | Some (_, [category; entry]) =>
      category ← required as_str category;
      entry ← required decode_value entry;
      Some (mkRawDnsEntry category entry)
  | _ => None
  end.

Definition decode_RawDnsResolved (v : Value) : option RawDnsResolved :=
  match struct_members ["@type"; "entries"] v with
  | Some (_, [kind; entries]) =>
      kind ← required as_str kind;
      entries ← required (decode_vec decode_RawDnsEntry) entries;
      Some (mkRawDnsResolved kind entries)
  | _ => None
  end.

(** ** Public keys *)

Inductive PublicKeyAnswer := Answer_Key (key : bytes) | Answer_NoKey (reason : rstr).

(** ** Key changes *)

Definition MAX_KEY_CHANGE_PAGES : nat := 10.
Definition CHANGE_WALLET_KEY_ACTION : rstr := lit "change_wallet_key".

Record RawAction := mkRawAction {
  ra_kind : rstr;
  ra_success : option bool;
  ra_details : Value;
}.

Record ChangeWalletKeyDetails := mkChangeWalletKeyDetails {
  cd_destination : option rstr;
  cd_new_public_key : option rstr;
  cd_encrypted_old_private_key : option rstr;
}.

Record KeyChangePage := mkKeyChangePage {
  kcp_changes : list KeyChange;
  kcp_raw_count : N;
}.

(** [#[serde(default)]] on an option and on a [Value]. *)
Definition default_option {A} (decode : Value -> option A) (field : option Value) : option (option A) :=
  defaulted None (nullable decode) field.

Definition decode_RawAction (v : Value) : option RawAction :=
  match struct_members ["type"; "success"; "details"] v with
  | Some (_, [kind; success; details]) =>
      kind ← required as_str kind;
      success ← default_option as_bool success;
      details ← defaulted Null decode_value details;
      Some (mkRawAction kind success details)
  | _ => None
  end.

Definition decode_ActionsResponse (v : Value) : option (list RawAction) :=
  match struct_members ["actions"] v with
  | Some (_, [actions]) => required (decode_vec decode_RawAction) actions
  | _ => None
  end.

Definition decode_ChangeWalletKeyDetails (v : Value) : option ChangeWalletKeyDetails :=
  match struct_members ["destination"; "new_public_key"; "encrypted_old_private_key"] v with
  | Some (_, [destination; new_public_key; encrypted]) =>
      destination ← default_option as_str destination;
      new_public_key ← default_option as_str new_public_key;
      encrypted ← default_option as_str encrypted;
      Some (mkChangeWalletKeyDetails destination new_public_key encrypted)
  | _ => None
  end.

Definition has_more (page : KeyChangePage) : bool := (KEY_CHANGE_PAGE_SIZE <=? kcp_raw_count page)%N.

Definition history_reaches (changes : list KeyChange) (public_key : bytes) : bool :=
  existsb (fun change => bool_decide (kc_new_public_key change = public_key)) changes.

(** Pairs of hex digits as bytes. *)
Fixpoint hex_pairs (s : rstr) : option bytes :=
  match s with
  | [] => Some []
  | [_] => None
  | high :: low :: rest =>
      high ← to_digit 16 high;
      low ← to_digit 16 low;
      bytes ← hex_pairs rest;
      Some ((16 * high + low)%N :: bytes)
  end.

Definition parse_key_hex (value : option rstr) (field : string) : result DomainError bytes :=
  let malformed := invalid_response (lit "change_wallet_key " ++ lit field ++ lit " is not 32 hex bytes") in
  let? value := ok_or malformed value in
  if negb (length (utf8 value) =? 64)%nat then Err malformed
  else ok_or malformed (hex_pairs value).

Section Answers.
Context `{SerdeJson} `{BigUintText} `{BigUintHex} `{Base64Engine} `{TonAddressText}.
Context `{HexCrate} `{Crc16} `{UrlSafeBase64} `{TonAddressParser}.

(** The loop over the entries, with the wallet record found so far. *)
Fixpoint dns_wallet_address (network : Network) (address : option TonAddressString)
    (entries : list RawDnsEntry) : result DomainError (option TonAddressString) :=
  match entries with
  | [] => Ok address
  | entry :: entries =>
      let? category := ok_or (invalid_response (lit "invalid TON DNS category hash"))
        (base64_hash_try_from (rde_category entry)) in
      if negb (bool_decide (b64_str category = WALLET_CATEGORY_HASH))
      then dns_wallet_address network address entries
      else if bool_decide (is_Some address)
      then Err (invalid_response (lit "duplicate TON DNS wallet records"))
      else if negb (bool_decide (pointer ["@type"] (rde_entry entry) ≫= as_str
                                 = Some (lit "dns.entryDataSmcAddress")))
      then Err (invalid_response (lit "TON DNS wallet record has an invalid type"))
      else
        let? encoded := ok_or (invalid_response (lit "TON DNS wallet record has no address"))
          (pointer ["smc_address"; "account_address"] (rde_entry entry) ≫= as_str) in
        let? parsed := ok_or (invalid_response (lit "TON DNS wallet record has an invalid address"))
          (ton_address_string_try_from encoded) in
        dns_wallet_address network (Some (from_address (tas_address parsed) network)) entries
  end.

Definition parse_dns_wallet_address (body : bytes) (network : Network)
  : result DomainError (option TonAddressString) :=
  let? resolved := decode_envelope decode_RawDnsResolved body in
  if negb (bool_decide (rdr_kind resolved = lit "dns.resolved"))
  then Err (invalid_response (lit "invalid TON DNS result type"))
  else dns_wallet_address network None (rdr_entries resolved).

(** [i64::from_str]. *)
Definition parse_i64 (s : rstr) : option Z :=
  match s with
  | [45%N] => None
  | 45%N :: rest =>
      match parse_digits 10 (2 ^ 63) 0 rest with Ok n => Some (- Z.of_N n)%Z | Err _ => None end
  | _ => match parse_uint 10 (2 ^ 63 - 1) s with Ok n => Some (Z.of_N n) | Err _ => None end
  end.

(** A number, or the text of one; other values are failures too. *)
Definition exit_succeeded (exit_code : Value) : bool :=
  let code :=
    match as_i64 exit_code with
    | Some code => Some code
    | None => as_str exit_code ≫= parse_i64
    end in
  match code with Some 0%Z | Some 1%Z => true | _ => false end.

(** [to_bytes_be] of a positive number in 32 bytes. *)
Definition public_key_from_result (result : Value) : Prelude.result rstr bytes :=
  if match value_get "exit_code" result with Some code => negb (exit_succeeded code) | None => false end
  then Err (lit "get_public_key exited with a failure code")
  else
    let? first := ok_or (lit "get_public_key returned an empty stack") (pointer ["stack"; "0"] result) in
    let? encoded := ok_or (lit "get_public_key returned a non-integer") (stack_number first) in
    let? number := ok_or (lit "get_public_key returned an invalid integer")
      (match strip_prefix (lit "0x") encoded with
       | Some hex => biguint_from_hex hex
       | None => biguint_from_str encoded
       end) in
    if (number =? 0)%N || (2 ^ 256 <=? number)%N
    then Err (lit "get_public_key did not return a nonzero uint256")
    else Ok (be_bytes 32 number).

Definition parse_public_key (body : bytes) : result DomainError PublicKeyAnswer :=
  let? value := map_err invalid_response (value_from_slice body) in
  match value_get "error" value ≫= (fun error => if is_null error then None else Some error) with
  | Some error => Err (invalid_response (value_to_string error))
  | None =>
      if bool_decide (value_get "ok" value ≫= as_bool = Some false)
      then Err (invalid_response (lit "the provider rejected the get-method request"))
      else
        let? result := ok_or (invalid_response (lit "the provider returned no get-method result"))
          (value_get "result" value) in
        Ok (match public_key_from_result result with
            | Ok key => Answer_Key key
            | Err reason => Answer_NoKey reason
            end)
  end.

(** One action: a change of this wallet, or nothing. *)
Definition key_change_of (wallet : TonAddressString) (action : RawAction)
  : result DomainError (option KeyChange) :=
  if negb (bool_decide (ra_kind action = CHANGE_WALLET_KEY_ACTION))
     || negb (bool_decide (ra_success action = Some true))
  then Ok None
  else
    let? details := map_err (fun error => invalid_response (lit "invalid change_wallet_key details: " ++ error))
      (decode_from_value decode_ChangeWalletKeyDetails (ra_details action)) in
    match cd_destination details with
    | None => Ok None
    | Some destination =>
        let? destination :=
          ok_or (invalid_response (lit "invalid change_wallet_key destination: " ++ TonAddressStringError_text))
            (ton_address_string_try_from destination) in
        if negb (bool_decide (tas_address destination = tas_address wallet)) then Ok None
        else
          let? new_public_key := parse_key_hex (cd_new_public_key details) "new_public_key" in
          let? encrypted :=
            parse_key_hex (cd_encrypted_old_private_key details) "encrypted_old_private_key" in
          Ok (Some (mkKeyChange new_public_key encrypted))
    end.

Fixpoint key_changes_of (wallet : TonAddressString) (actions : list RawAction)
  : result DomainError (list KeyChange) :=
  match actions with
  | [] => Ok []
  | action :: actions =>
      let? change := key_change_of wallet action in
      let? changes := key_changes_of wallet actions in
      Ok (match change with Some change => change :: changes | None => changes end)
  end.

Definition parse_key_change_page (body : bytes) (wallet : TonAddressString)
  : result DomainError KeyChangePage :=
  let? actions := map_err (fun error => invalid_response (lit "invalid key-change actions: " ++ error))
    (decode_slice decode_ActionsResponse body) in
  let? changes := key_changes_of wallet actions in
  Ok (mkKeyChangePage changes (N.of_nat (length actions))).
End Answers.
