(* ===== verification/NftAnswers.v ===== *)
(** * NFT answers

    The parsers of src/engine/nft.rs: rows of the provider's NFT index, enriched with its
    metadata, become items and pages. *)

From stdpp Require Import base numbers list option strings gmap.
From S2P Require Import Prelude BoundaryTypes SendDomain Base64 ClientDomain Json ProviderRequest.
From S2P Require Import ProviderAnswers ConnectValues Addresses SessionBoundary LookupAnswers.
From S2P Require Import EmulationAnswers.

(** ** Wire data *)

Record RawNftCollection := mkRawNftCollection {
  rnc_address : rstr;
  rnc_collection_content : gmap rstr Value;
}.

Record RawTokenInfo := mkRawTokenInfo {
  rti_kind : option rstr;
  rti_is_nsfw : option bool;
  rti_is_scam : option bool;
  rti_extra : gmap rstr Value;
  rti_fields : gmap rstr Value;
}.

Record RawAddressMetadata := mkRawAddressMetadata { ram_token_info : list RawTokenInfo }.

Record RawNftItem := mkRawNftItem {
  rni_address : rstr;
  rni_auction_contract_address : option rstr;
  rni_code_hash : rstr;
  rni_collection : option RawNftCollection;
  rni_collection_address : option rstr;
  rni_content : gmap rstr Value;
  rni_data_hash : rstr;
  rni_index : Value;
  rni_init : bool;
  rni_last_transaction_lt : Value;
  rni_on_sale : bool;
  rni_owner_address : option rstr;
  rni_real_owner : option rstr;
  rni_sale_contract_address : option rstr;
}.

Record RawNftItemsResponse := mkRawNftItemsResponse {
  rnr_nft_items : list RawNftItem;
  rnr_metadata : gmap rstr RawAddressMetadata;
}.

Definition decode_values : Value -> option (gmap rstr Value) := decode_hash_map decode_value.

Definition decode_RawNftCollection (v : Value) : option RawNftCollection :=
  match struct_members ["address"; "collection_content"] v with
  | Some (_, [address; content]) =>
      address ← required as_str address;
      content ← defaulted ∅ decode_values content;
      Some (mkRawNftCollection address content)
  | _ => None
  end.

(** With [#[serde(flatten)]] only an object is accepted, and the members that no other field
    takes are collected. *)
Definition token_info_names : list string := ["type"; "is_nsfw"; "is_scam"; "extra"].

Definition decode_RawTokenInfo (v : Value) : option RawTokenInfo :=
  match v with
  | Object fields =>
      match struct_members token_info_names v with
      | Some (_, [kind; is_nsfw; is_scam; extra]) =>
          kind ← default_option as_str kind;
          is_nsfw ← default_option as_bool is_nsfw;
          is_scam ← default_option as_bool is_scam;
          extra ← defaulted ∅ decode_values extra;
          rest ← decode_values (Object (filter (fun field => field.1 ∉ map lit token_info_names) fields));
          Some (mkRawTokenInfo kind is_nsfw is_scam extra rest)
      | _ => None
      end
  | _ => None
  end.

Definition decode_RawAddressMetadata (v : Value) : option RawAddressMetadata :=
  match struct_members ["token_info"] v with
  | Some (_, [token_info]) =>
      token_info ← defaulted [] (decode_vec decode_RawTokenInfo) token_info;
      Some (mkRawAddressMetadata token_info)
  | _ => None
  end.

Definition nft_item_names : list string :=
  ["address"; "auction_contract_address"; "code_hash"; "collection"; "collection_address"; "content";
   "data_hash"; "index"; "init"; "last_transaction_lt"; "on_sale"; "owner_address"; "real_owner";
   "sale_contract_address"].

Definition decode_RawNftItem (v : Value) : option RawNftItem :=
  match struct_members nft_item_names v with
  | Some (_, [address; auction; code_hash; collection; collection_address; content; data_hash; index;
              init; last_lt; on_sale; owner; real_owner; sale]) =>
      address ← required as_str address;
      auction ← default_option as_str auction;
      code_hash ← required as_str code_hash;
      collection ← default_option decode_RawNftCollection collection;
      collection_address ← default_option as_str collection_address;
      content ← defaulted ∅ decode_values content;
      data_hash ← required as_str data_hash;
      index ← required decode_value index;
      init ← required as_bool init;
      last_lt ← required decode_value last_lt;
      on_sale ← required as_bool on_sale;
      owner ← default_option as_str owner;
      real_owner ← default_option as_str real_owner;
      sale ← default_option as_str sale;
      Some (mkRawNftItem address auction code_hash collection collection_address content data_hash
              index init last_lt on_sale owner real_owner sale)
  | _ => None
  end.

Definition decode_RawNftItemsResponse (v : Value) : option RawNftItemsResponse :=
  match struct_members ["nft_items"; "metadata"] v with
  | Some (_, [items; metadata]) =>
      items ← required (decode_vec decode_RawNftItem) items;
      metadata ← defaulted ∅ (decode_hash_map decode_RawAddressMetadata) metadata;
      Some (mkRawNftItemsResponse items metadata)
  | _ => None
  end.

(** ** Metadata *)

Definition NFT_CONTENT_KEYS : list string :=
  ["uri"; "name"; "description"; "_image_small"; "_image_medium"; "_image_big"; "image"; "preview";
   "image_url"; "symbol"; "collection"; "collection_name"].

Definition string_values (values : gmap rstr Value) : gmap rstr rstr := omap as_str values.

(** A non-empty string. *)
Definition non_empty (value : rstr) : option rstr := if is_empty value then None else Some value.

Definition string_field (values : gmap rstr Value) (key : string) : option rstr :=
  value ← values !! lit key; text ← as_str value; non_empty text.

Definition resolved_metadata_field (values : gmap rstr rstr) (key : string) : option rstr :=
  value ← values !! lit key; non_empty value.

(** [Option::or]. *)
Definition option_or {A} (a b : option A) : option A :=
  match a with Some _ => a | None => b end.

(** One turn of the loop over [NFT_CONTENT_KEYS]. *)
Definition preferred (metadata : RawTokenInfo) (content : gmap rstr rstr) (key : string)
  : gmap rstr rstr :=
  match option_or (string_field (rti_fields metadata) key) (string_field (rti_extra metadata) key) with
  | Some value => <[lit key := value]> content
  | None => content
  end.

(** [extend] replaces the values of keys that are present. *)
Definition enriched_metadata (values : gmap rstr Value) (metadata : option RawTokenInfo)
  : gmap rstr rstr :=
  let content := string_values values in
  match metadata with
  | None => content
  | Some metadata =>
      let content := string_values (rti_extra metadata) ∪ content in
      let content := string_values (rti_fields metadata) ∪ content in
      foldl (preferred metadata) content NFT_CONTENT_KEYS
  end.

Definition token_info (metadata : gmap rstr RawAddressMetadata) (address : rstr) (kind : string)
  : option RawTokenInfo :=
  entry ← metadata !! address;
  List.find (fun info => bool_decide (rti_kind info = Some (lit kind))) (ram_token_info entry).

(** ** Items *)

Section Items.
Context `{SerdeJson} `{BigUintText} `{TonAddressText} `{TonAddressParser}.

Definition nft_decimal (value : Value) (field : string) : result DomainError UnsignedDecimalString :=
  let? text :=
    match value with
    | Str value => Ok value
    | Num value => Ok (number_to_string value)
    | Null | Bool _ | Array _ | Object _ =>
        Err (invalid_response (lit field ++ lit " is not a decimal value"))
    end in
  map_err (fun _ => invalid_response (lit field ++ lit " is not an unsigned decimal")) (uds_try_from text).

Definition nft_parse_address (value : rstr) (field : string) (network : Network)
  : result DomainError TonAddressString :=
  rmap (fun address => from_address address network)
    (ok_or (invalid_response (lit field ++ lit " is missing or invalid")) (ton_address_from_str value)).

(** [Option::map(f).transpose()]. *)
Definition parse_optional_address (value : option rstr) (field : string) (network : Network)
  : result DomainError (option TonAddressString) :=
  match value with
  | None => Ok None
  | Some value => rmap Some (nft_parse_address value field network)
  end.

Definition resolve_collection_descriptor (address : option rstr) (raw : option RawNftCollection)
    (metadata : option RawTokenInfo) (network : Network)
  : result DomainError (option NftCollectionDescriptor) :=
  match address with
  | None => Ok None
  | Some address =>
      let raw_content := match raw with Some collection => rnc_collection_content collection | None => ∅ end in
      let content := enriched_metadata raw_content metadata in
      let? address := nft_parse_address address "NFT collection address" network in
      Ok (Some (mkNftCollectionDescriptor address (resolved_metadata_field content "name")
                  (resolved_metadata_field content "description")
                  (resolved_metadata_field content "image") content))
  end.

(** [entry(key).or_insert_with(value)]. *)
Definition or_insert (key value : rstr) (content : gmap rstr rstr) : gmap rstr rstr :=
  match content !! key with Some _ => content | None => <[key := value]> content end.

(** The collection's name and the domain fill gaps of the content. *)
Definition completed_content (content : gmap rstr rstr) (collection : option NftCollectionDescriptor)
  : gmap rstr rstr :=
  let content :=
    match collection ≫= nc_name with
    | Some name => or_insert (lit "collection_name") name content
    | None => content
    end in
  match content !! lit "name", content !! lit "domain" with
  | None, Some domain => <[lit "name" := domain]> content
  | _, _ => content
  end.

Definition collection_address_of (raw : RawNftItem) : option rstr :=
  option_or (rnc_address <$> rni_collection raw) (rni_collection_address raw).

Definition parse_nft_item (raw : RawNftItem) (metadata : gmap rstr RawAddressMetadata)
    (network : Network) : result DomainError NftItem :=
  let collection_address := collection_address_of raw in
  let item_info := token_info metadata (rni_address raw) "nft_items" in
  let collection_info :=
    collection_address ≫= fun address => token_info metadata address "nft_collections" in
  let? collection :=
    resolve_collection_descriptor collection_address (rni_collection raw) collection_info network in
  let content := completed_content (enriched_metadata (rni_content raw) item_info) collection in
  let? address := nft_parse_address (rni_address raw) "NFT address" network in
  let? owner := parse_optional_address (rni_owner_address raw) "NFT owner address" network in
  let? real_owner := parse_optional_address (rni_real_owner raw) "NFT real owner address" network in
  let? sale :=
    parse_optional_address (rni_sale_contract_address raw) "NFT sale contract address" network in
  let? auction :=
    parse_optional_address (rni_auction_contract_address raw) "NFT auction contract address" network in
  let? index := nft_decimal (rni_index raw) "NFT index" in
  let? last_lt := nft_decimal (rni_last_transaction_lt raw) "NFT last transaction logical time" in
  Ok (mkNftItem address (nc_address <$> collection) collection owner real_owner sale auction index last_lt
        (rni_init raw) (rni_on_sale raw) (rni_code_hash raw) (rni_data_hash raw) content
        (item_info ≫= rti_is_nsfw) (item_info ≫= rti_is_scam)).

Definition parse_nft_page (body : bytes) (page_size : N) (network : Network)
  : result DomainError NftPage :=
  let? response := map_err invalid_response (decode_slice decode_RawNftItemsResponse body) in
  let raw_count := N.of_nat (length (rnr_nft_items response)) in
  let? items :=
    try_map (fun item => parse_nft_item item (rnr_metadata response) network) (rnr_nft_items response) in
  Ok (mkNftPage items raw_count (page_size <=? raw_count)%N).

Definition parse_single_nft_item (body : bytes) (expected_address : TonAddressString)
    (network : Network) : result DomainError NftItem :=
  let? response := map_err invalid_response (decode_slice decode_RawNftItemsResponse body) in
  match rnr_nft_items response with
  | [raw] =>
      let? item := parse_nft_item raw (rnr_metadata response) network in
      if negb (tas_eqb (nft_address item) expected_address)
      then Err (invalid_response (lit "provider returned a different NFT item"))
      else Ok item
  | items => Err (invalid_response (lit "expected exactly one NFT item, provider returned "
                                    ++ u64_to_string (N.of_nat (length items))))
  end.
End Items.
