(* ===== verification/Lifecycle.v ===== *)
(** * The life of a wallet

    src/wallet/mod.rs: wallets are created, imported, revealed and deleted, and sign for
    TON Connect, while the host keeps the recovery phrase; the requests and errors of
    src/domain/secret.rs.  An operation is a program of host calls. *)

From stdpp Require Import base numbers list option strings gmap.
From S2P Require Import Prelude BoundaryTypes SendDomain ClientDomain Base64 CellBoc CellBocSpec.
From S2P Require Import ConnectSession ConnectValues Addresses ConnectRpc ConnectSigning.
From S2P Require Import ConnectWalletState WordList Mnemonic WalletContract WalletKeys.
From S2P Require Import ConnectCrypto SessionBoundary ConnectSigningSpec TransferLink.

Definition MAX_RECORD_ID_BYTES : nat := 128.

(** The texts of addresses in the ton_core crate: [to_hex] is the raw form, [to_base64]
    the friendly one, and [from_str] reads what [to_base64] writes. *)
Class TonAddressCodec `{TonAddressText} `{TonAddressParser} `{HexCrate} `{Crc16} `{UrlSafeBase64} := {
  to_hex : TonAddress -> rstr;
  to_hex_raw address :
    to_hex address = raw_to_string (mkRawAccountAddress (ta_workchain address) (ta_hash address));
  to_base64_friendly raw bounceable test_only friendly :
    friendly_from_raw raw bounceable test_only = Ok friendly ->
    to_base64 (mkTonAddress (raa_workchain raw) (raa_hash raw)) (negb test_only) bounceable true
    = fa_encoded friendly;
  ton_address_from_friendly raw bounceable test_only friendly :
    length (raa_hash raw) = 32 -> Forall (fun b => b < 256)%N (raa_hash raw) ->
    friendly_from_raw raw bounceable test_only = Ok friendly ->
    ton_address_from_str (fa_encoded friendly)
    = Some (mkTonAddress (raa_workchain raw) (raa_hash raw));
}.

(** ** Data *)

Record WalletDescriptor := mkWalletDescriptor {
  wd_record_id : rstr;
  wd_address : TonAddressString;
  wd_public_key : bytes;
  wd_network : Network;
  wd_secret_ref : ProtectedSecretRef;
}.

Record TonConnectProofSignRequest := mkTonConnectProofSignRequest {
  psr_descriptor : WalletDescriptor;
  psr_domain : rstr;
  psr_timestamp : N;
  psr_payload : rstr;
}.

Record TonConnectProofSignature := mkTonConnectProofSignature {
  tps_signature : bytes;
  tps_public_key : bytes;
}.

Record TonConnectAccountInfo := mkTonConnectAccountInfo {
  tci_address : rstr;
  tci_network : rstr;
  tci_wallet_state_init : rstr;
  tci_public_key : bytes;
}.

Record CreateWalletRequest := mkCreateWalletRequest { cwr_record_id : rstr; cwr_network : Network }.

Record ImportWalletRequest := mkImportWalletRequest {
  iwr_record_id : rstr;
  iwr_network : Network;
  iwr_recovery_words : list rstr;
}.

Record RecoveryPhrase := mkRecoveryPhrase { rp_phrase : rstr }.

Record CreatedWallet := mkCreatedWallet {
  cw_descriptor : WalletDescriptor;
  cw_recovery_phrase : RecoveryPhrase;
}.

Record TonConnectDerivedSessionRequest := mkTonConnectDerivedSessionRequest {
  dsr_descriptor : WalletDescriptor;
  dsr_dapp_client_id : rstr;
  dsr_nonce : bytes;
}.

Record TonConnectSignDataSignRequest := mkTonConnectSignDataSignRequest {
  sds_descriptor : WalletDescriptor;
  sds_request : TonConnectSignDataRequest;
  sds_domain : rstr;
  sds_timestamp : N;
}.

Record TonConnectSignedData := mkTonConnectSignedData {
  tsd_request : TonConnectSignDataRequest;
  tsd_domain : rstr;
  tsd_timestamp : N;
  tsd_signature : bytes;
  tsd_public_key : bytes;
}.

Inductive ProtectedSecretHostErrorKind :=
  | Secret_NotFound | Secret_AuthenticationFailed | Secret_Cancelled | Secret_Unavailable
  | Secret_PolicyViolation | Secret_Other.

Inductive ProtectedSecretHostError :=
  | SecretHostFailed (kind : ProtectedSecretHostErrorKind) (diagnostic : rstr).

Inductive WalletLifecycleError :=
  | InvalidRecordId
  | InvalidRecoveryPhrase
  | AddressDerivationFailed
  | TonConnectSigningFailed
  | SecretWalletMismatch
  | ProtectedSecretHost (kind : ProtectedSecretHostErrorKind) (diagnostic : rstr)
  | InvalidTonConnectSessionInput.

Definition lifecycle_error_from (value : ProtectedSecretHostError) : WalletLifecycleError :=
  match value with
  | SecretHostFailed kind diagnostic => ProtectedSecretHost kind (bounded_diagnostic diagnostic)
  end.

Record ProtectedSecretStore := mkProtectedSecretStore {
  pss_secret_ref : ProtectedSecretRef;
  pss_bytes : bytes;
  pss_require_user_presence : bool;
}.

#[export] Instance ProtectedSecretRef_eq_dec : EqDecision ProtectedSecretRef.
Proof. solve_decision. Defined.

(** ** Programs of host calls *)

Inductive lifecycle (A : Type) : Type :=
  | Op_Return (a : A)
  | Op_Store (request : ProtectedSecretStore)
      (next : result ProtectedSecretHostError unit -> lifecycle A)
  | Op_Read (request : ProtectedSecretRead)
      (next : result ProtectedSecretHostError bytes -> lifecycle A)
  | Op_Delete (secret_ref : ProtectedSecretRef)
      (next : result ProtectedSecretHostError unit -> lifecycle A).

Arguments Op_Return {A} a.
Arguments Op_Store {A} request next.
Arguments Op_Read {A} request next.
Arguments Op_Delete {A} secret_ref next.

(** An operation returns a [Result]. *)
Definition operation (A : Type) : Type := lifecycle (result WalletLifecycleError A).

(** [?] on a computed result and on an awaited host call. *)
Definition check {E A B} (r : result E A) (error : E -> WalletLifecycleError)
    (next : A -> operation B) : operation B :=
  match r with Ok a => next a | Err e => Op_Return (Err (error e)) end.

Notation "'try!' x := r 'or' e 'in' k" := (check r (fun _ => e) (fun x => k))
  (at level 10, x name, r at level 100, e at level 100, k at level 200) : rust_scope.
Notation "'try!' x := r 'in' k" := (check r (fun e => e) (fun x => k))
  (at level 10, x name, r at level 100, k at level 200) : rust_scope.

Definition await_read {B} (request : ProtectedSecretRead) (next : bytes -> operation B)
  : operation B :=
  Op_Read request (fun answer => check answer lifecycle_error_from next).

(** ** Checks of public data *)

Definition secret_ref_for (record_id : rstr) : ProtectedSecretRef :=
  mkProtectedSecretRef (lit "wallet:" ++ record_id ++ lit ":mnemonic").

(** ASCII letters and digits, hyphen, underscore and dot. *)
Definition record_id_byte (byte : N) : bool :=
  (((65 <=? byte) && (byte <=? 90)) || ((97 <=? byte) && (byte <=? 122)) || is_ascii_digit byte
   || (byte =? 45) || (byte =? 95) || (byte =? 46))%N.

Definition validate_record_id (record_id : rstr) : result WalletLifecycleError unit :=
  if is_empty record_id || (MAX_RECORD_ID_BYTES <? length (utf8 record_id))%nat
     || negb (forallb record_id_byte (utf8 record_id))
  then Err InvalidRecordId
  else Ok tt.

Definition global_id (network : Network) : rstr :=
  match network with Mainnet => lit "-239" | Testnet => lit "-3" end.

Definition ton_connect_network (network : Network) : result ValueError rstr :=
  network_id_try_from (global_id network).

Definition ton_connect_address (descriptor : WalletDescriptor) : RawAccountAddress :=
  let address := tas_address (wd_address descriptor) in
  mkRawAccountAddress (ta_workchain address) (ta_hash address).

Section Operations.
Context `{TonAddressCodec} `{Sha256} `{Sha512} `{Ed25519Keys} `{Crc32c} `{TonCells}.
Context `{!TonStates} `{Crc32Iso} `{HostParser} `{CryptoBox}.

Definition to_user_friendly (address : TonAddress) (network : Network) : rstr :=
  to_base64 address (bool_decide (network = Mainnet)) false true.

Definition validate_descriptor (descriptor : WalletDescriptor) : result WalletLifecycleError unit :=
  let? _ := validate_record_id (wd_record_id descriptor) in
  let? derived := map_err (fun _ => InvalidRecordId)
    (derive_wallet_public_state (wd_public_key descriptor) (wd_network descriptor)) in
  if negb (bool_decide (wd_secret_ref descriptor = secret_ref_for (wd_record_id descriptor)))
     || negb (bool_decide (tas_address (wd_address descriptor) = derived.1))
  then Err InvalidRecordId
  else Ok tt.

(** ** Phrases *)

Definition mnemonic_str (secret : SensitiveMnemonic) : result WalletLifecycleError rstr :=
  map_err (fun _ => InvalidRecoveryPhrase) (mnemonic_as_str secret).

Definition secret_wallet (network : Network) (secret : SensitiveMnemonic)
  : result WalletLifecycleError SensitiveWallet :=
  let? phrase := mnemonic_str secret in
  map_err (fun _ => AddressDerivationFailed) (derive_wallet phrase network).

Definition derive_descriptor (record_id : rstr) (network : Network) (secret : SensitiveMnemonic)
  : result WalletLifecycleError WalletDescriptor :=
  let? wallet := secret_wallet network secret in
  let? address := ok_or AddressDerivationFailed
    (ton_address_string_try_from (to_user_friendly (tw_address (sw_wallet wallet)) network)) in
  Ok (mkWalletDescriptor record_id address (kp_public_key (tw_key_pair (sw_wallet wallet))) network
        (secret_ref_for record_id)).

Definition wallet_derive_address (network : Network) (secret : SensitiveMnemonic)
  : result WalletLifecycleError TonAddress :=
  rmap (fun wallet => tw_address (sw_wallet wallet)) (secret_wallet network secret).

Definition recovery_phrase (secret : SensitiveMnemonic)
  : result WalletLifecycleError RecoveryPhrase :=
  rmap mkRecoveryPhrase (mnemonic_str secret).

Definition unlock_wallet (secret : SensitiveMnemonic) (descriptor : WalletDescriptor)
  : result WalletLifecycleError SensitiveWallet :=
  let? wallet := secret_wallet (wd_network descriptor) secret in
  if negb (bool_decide (tw_address (sw_wallet wallet) = tas_address (wd_address descriptor)))
     || negb (bool_decide (kp_public_key (tw_key_pair (sw_wallet wallet)) = wd_public_key descriptor))
  then Err SecretWalletMismatch
  else Ok wallet.

(** mnemonic_scheme.rs: the anchor key of a phrase. *)
Definition rotation_mnemonic_public_key (phrase : rstr) : result WalletLifecycleError bytes :=
  let? mnemonic := map_err (fun _ => InvalidRecoveryPhrase) (rotation_parse phrase) in
  Ok (public_key (derive_half_key (rm_anchor mnemonic))).

(** ** Signatures and sessions *)

Definition make_ton_connect_proof (secret : SensitiveMnemonic) (request : TonConnectProofSignRequest)
  : result WalletLifecycleError TonConnectProofSignature :=
  let? wallet := unlock_wallet secret (psr_descriptor request) in
  let? digest := map_err (fun _ => TonConnectSigningFailed)
    (ton_proof_signing_hash (ton_connect_address (psr_descriptor request)) (psr_domain request)
       (psr_timestamp request) (psr_payload request)) in
  Ok (mkTonConnectProofSignature (sign_ton_connect_digest wallet digest) (signing_public_key wallet)).

Definition make_ton_connect_session (secret : SensitiveMnemonic)
    (request : TonConnectDerivedSessionRequest) (peer : ClientId)
  : result WalletLifecycleError TonConnectDerivedSession :=
  let? wallet := unlock_wallet secret (dsr_descriptor request) in
  let? network := map_err (fun _ => AddressDerivationFailed)
    (ton_connect_network (wd_network (dsr_descriptor request))) in
  Ok (derived_session_new (ton_connect_session_secret wallet (cid_bytes peer) (dsr_nonce request))
        peer (signing_public_key wallet) (ton_connect_address (dsr_descriptor request)) network).

Definition sign_request_digest (request : TonConnectSignDataSignRequest)
  : result WalletLifecycleError bytes :=
  let? network := map_err (fun _ => TonConnectSigningFailed)
    (ton_connect_network (wd_network (sds_descriptor request))) in
  map_err (fun _ => TonConnectSigningFailed)
    (sign_data_digest (sds_request request) network (ton_connect_address (sds_descriptor request))
       (sds_domain request) (sds_timestamp request)).

Definition make_ton_connect_data (secret : SensitiveMnemonic)
    (request : TonConnectSignDataSignRequest) (digest : bytes)
  : result WalletLifecycleError TonConnectSignedData :=
  let? wallet := unlock_wallet secret (sds_descriptor request) in
  Ok (mkTonConnectSignedData (sds_request request) (sds_domain request) (sds_timestamp request)
        (sign_ton_connect_digest wallet digest) (signing_public_key wallet)).

(** The state as a bag of cells in Base64: [to_boc_base64]. *)
Definition state_init_to_boc_base64 (state : StateInit) : option rstr :=
  cell ← state_init_to_cell state;
  standard_encode <$> cell_to_boc cell.

Definition derive_ton_connect_account (descriptor : WalletDescriptor)
  : result WalletLifecycleError TonConnectAccountInfo :=
  let? _ := validate_descriptor descriptor in
  let? derived := map_err (fun _ => AddressDerivationFailed)
    (derive_wallet_public_state (wd_public_key descriptor) (wd_network descriptor)) in
  let? wallet_state_init := ok_or AddressDerivationFailed (state_init_to_boc_base64 derived.2) in
  Ok (mkTonConnectAccountInfo (to_hex derived.1) (global_id (wd_network descriptor))
        wallet_state_init (wd_public_key descriptor)).

(** ** Operations *)

Definition store_secret {B} (secret_ref : ProtectedSecretRef) (data : bytes) (next : operation B)
  : operation B :=
  Op_Store (mkProtectedSecretStore secret_ref data true)
    (fun answer => check answer lifecycle_error_from (fun _ => next)).

(** [create_wallet] on the bytes of the random generator, if it has any. *)
Definition create_wallet (random : option bytes) (request : CreateWalletRequest)
  : operation CreatedWallet :=
  try! _ := validate_record_id (cwr_record_id request) in
  try! secret := generate_mnemonic random or InvalidRecoveryPhrase in
  try! descriptor := derive_descriptor (cwr_record_id request) (cwr_network request) secret in
  store_secret (wd_secret_ref descriptor) (sm_bytes secret)
    (try! phrase := recovery_phrase secret in
     Op_Return (Ok (mkCreatedWallet descriptor phrase))).

Definition import_wallet (request : ImportWalletRequest) : operation WalletDescriptor :=
  try! _ := validate_record_id (iwr_record_id request) in
  try! secret := mnemonic_from_words (iwr_recovery_words request) or InvalidRecoveryPhrase in
  try! descriptor := derive_descriptor (iwr_record_id request) (iwr_network request) secret in
  store_secret (wd_secret_ref descriptor) (sm_bytes secret) (Op_Return (Ok descriptor)).

(** The protected phrase of a descriptor. *)
Definition read_mnemonic {B} (descriptor : WalletDescriptor) (reason : SecretAccessReason)
    (prompt : rstr) (next : SensitiveMnemonic -> operation B) : operation B :=
  await_read (mkProtectedSecretRead (wd_secret_ref descriptor) reason prompt) (fun data =>
    try! secret := mnemonic_from_bytes data or InvalidRecoveryPhrase in
    next secret).

Definition reveal_recovery_phrase (descriptor : WalletDescriptor) : operation RecoveryPhrase :=
  try! _ := validate_descriptor descriptor in
  read_mnemonic descriptor Reason_RevealRecoveryPhrase
    (lit "Authenticate to reveal this wallet's recovery phrase") (fun secret =>
    try! actual := wallet_derive_address (wd_network descriptor) secret in
    if negb (bool_decide (actual = tas_address (wd_address descriptor)))
    then Op_Return (Err SecretWalletMismatch)
    else Op_Return (recovery_phrase secret)).

Definition delete_wallet (descriptor : WalletDescriptor) : operation unit :=
  try! _ := validate_descriptor descriptor in
  Op_Delete (wd_secret_ref descriptor)
    (fun answer => Op_Return (map_err lifecycle_error_from answer)).

Definition sign_ton_connect_proof (request : TonConnectProofSignRequest)
  : operation TonConnectProofSignature :=
  try! _ := validate_descriptor (psr_descriptor request) in
  read_mnemonic (psr_descriptor request) Reason_SignTonConnectProof
    (lit "Authenticate to sign in to " ++ psr_domain request ++ lit " with TON Connect")
    (fun secret => Op_Return (make_ton_connect_proof secret request)).

Definition derive_ton_connect_session (request : TonConnectDerivedSessionRequest)
  : operation TonConnectDerivedSession :=
  try! _ := validate_descriptor (dsr_descriptor request) in
  try! peer := client_id_from_str (dsr_dapp_client_id request) or InvalidTonConnectSessionInput in
  if is_empty (dsr_nonce request) then Op_Return (Err InvalidTonConnectSessionInput)
  else
    read_mnemonic (dsr_descriptor request) Reason_DeriveTonConnectSessionKey
      (lit "Authenticate to connect this wallet with TON Connect")
      (fun secret => Op_Return (make_ton_connect_session secret request peer)).

Definition sign_ton_connect_data (request : TonConnectSignDataSignRequest)
  : operation TonConnectSignedData :=
  try! _ := validate_descriptor (sds_descriptor request) in
  try! digest := sign_request_digest request in
  read_mnemonic (sds_descriptor request) Reason_SignTonConnectData
    (lit "Authenticate to sign data for " ++ sds_domain request ++ lit " with TON Connect")
    (fun secret => Op_Return (make_ton_connect_data secret request digest)).

Definition ton_connect_account (descriptor : WalletDescriptor)
  : result WalletLifecycleError TonConnectAccountInfo := derive_ton_connect_account descriptor.
End Operations.

(** * What the life of a wallet keeps

    Runs of the lifecycle operations against any host, and against a host that keeps what
    it stores: when secrets are read and what justifies a result, that a created wallet
    can be recovered, and that a published account passes the checks of a dApp. *)

(** ** Runs *)

Inductive host_event :=
  | Secret_Stored (request : ProtectedSecretStore) (answer : result ProtectedSecretHostError unit)
  | Secret_Answered (request : ProtectedSecretRead) (answer : result ProtectedSecretHostError bytes)
  | Secret_Deleted (secret_ref : ProtectedSecretRef) (answer : result ProtectedSecretHostError unit).

Inductive lifecycle_runs {A} : lifecycle A -> list host_event -> A -> Prop :=
  | run_return a : lifecycle_runs (Op_Return a) [] a
  | run_store request next answer events a :
      lifecycle_runs (next answer) events a ->
      lifecycle_runs (Op_Store request next) (Secret_Stored request answer :: events) a
  | run_read request next answer events a :
      lifecycle_runs (next answer) events a ->
      lifecycle_runs (Op_Read request next) (Secret_Answered request answer :: events) a
  | run_delete secret_ref next answer events a :
      lifecycle_runs (next answer) events a ->
      lifecycle_runs (Op_Delete secret_ref next) (Secret_Deleted secret_ref answer :: events) a.

(** A host that keeps what it stores. *)
Fixpoint run_vault {A} (op : lifecycle A) (v : gmap rstr bytes) : gmap rstr bytes * A :=
  match op with
  | Op_Return a => (v, a)
  | Op_Store request next =>
      run_vault (next (Ok tt)) (<[psr_value (pss_secret_ref request) := pss_bytes request]> v)
  | Op_Read request next =>
      run_vault (next (ok_or (SecretHostFailed Secret_NotFound [])
                         (v !! psr_value (psd_secret_ref request)))) v
  | Op_Delete secret_ref next => run_vault (next (Ok tt)) (delete (psr_value secret_ref) v)
  end.

Lemma run_return_inv {A} (a r : A) events :
  lifecycle_runs (Op_Return a) events r -> events = [] /\ r = a.
Proof. by inversion 1. Qed.

Section Spec.
Context `{TonAddressCodec} `{Sha256} `{Sha512} `{Ed25519Keys} `{Crc32c} `{TonCells}.
Context `{!TonStates} `{Crc32Iso} `{HostParser} `{CryptoBox}.

(** ** Access to secrets *)

(** The phrase in [data] derives [wallet], which has the account and the anchor key of
    the descriptor. *)
Definition unlocks (descriptor : WalletDescriptor) (data : bytes) (wallet : SensitiveWallet) : Prop :=
  exists phrase, from_utf8 data = Some phrase /\
    derive_wallet phrase (wd_network descriptor) = Ok wallet /\
    tw_address (sw_wallet wallet) = tas_address (wd_address descriptor) /\
    kp_public_key (tw_key_pair (sw_wallet wallet)) = wd_public_key descriptor.

(** Whatever the host answers, the operation asks it at most once, for the secret of
    this wallet and only after the descriptor was checked; a success rests on the
    answer. *)
Definition guarded {A} (descriptor : WalletDescriptor) (reason : SecretAccessReason)
    (op : operation A) (justified : bytes -> A -> Prop) : Prop :=
  forall events r, lifecycle_runs op events r ->
    (events = [] /\ exists error, r = Err error) \/
    (validate_descriptor descriptor = Ok tt /\
     exists prompt answer,
       events = [Secret_Answered (mkProtectedSecretRead (secret_ref_for (wd_record_id descriptor))
                                    reason prompt) answer] /\
       forall a, r = Ok a -> exists data, answer = Ok data /\ justified data a).

Lemma validate_descriptor_ok descriptor :
  validate_descriptor descriptor = Ok tt ->
  validate_record_id (wd_record_id descriptor) = Ok tt /\
  wd_secret_ref descriptor = secret_ref_for (wd_record_id descriptor) /\
  exists state, derive_wallet_public_state (wd_public_key descriptor) (wd_network descriptor)
                = Ok (tas_address (wd_address descriptor), state).
Proof.
  unfold validate_descriptor. intros ([] & Hid & Hv)%rbind_ok.
  apply rbind_ok in Hv as ([address state] & Hs%map_err_ok & [Hc _]%if_err_ok).
  apply orb_false_iff in Hc as [Href Haddr]. bool_to_prop. cbn [fst] in Haddr. subst address.
  split; [done|]. split; [done|]. by exists state.
Qed.

Lemma unlock_wallet_ok secret descriptor wallet :
  unlock_wallet secret descriptor = Ok wallet -> unlocks descriptor (sm_bytes secret) wallet.
Proof.
  unfold unlock_wallet, secret_wallet, mnemonic_str, mnemonic_as_str, unlocks.
  intros (w & Hw & [Hc [= ->]]%if_err_ok)%rbind_ok. apply rbind_ok in Hw as (phrase & Hp & Hw).
  apply map_err_ok, ok_or_ok in Hp. apply map_err_ok in Hw.
  apply orb_false_iff in Hc as [Ha Hk]. bool_to_prop. by exists phrase.
Qed.

(** The common shape of the operations that read the secret. *)
Lemma guarded_read {A} descriptor reason prompt (next : SensitiveMnemonic -> operation A)
    (justified : bytes -> A -> Prop) :
  validate_descriptor descriptor = Ok tt ->
  (forall secret events r, lifecycle_runs (next secret) events r ->
     events = [] /\ forall a, r = Ok a -> justified (sm_bytes secret) a) ->
  guarded descriptor reason (read_mnemonic descriptor reason prompt next) justified.
Proof.
  intros Hv Hj events r. unfold read_mnemonic, await_read. inversion 1 as [| |req nx answer ev a Hr|]; subst.
  right. split; [done|]. destruct (validate_descriptor_ok _ Hv) as (_ & Href & _).
  exists prompt, answer. rewrite Href. destruct answer as [data|error]; cbn [check] in Hr.
  - unfold mnemonic_from_bytes in Hr. destruct (mnemonic_validate _) as [[]|]; cbn [rbind check] in Hr.
    + apply Hj in Hr as [-> Hr]. split; [done|]. intros a Ha. exists data. split; [done|by apply Hr].
    + apply run_return_inv in Hr as [-> ->]. done.
  - apply run_return_inv in Hr as [-> ->]. done.
Qed.

Lemma guarded_error {A} descriptor reason error (justified : bytes -> A -> Prop) :
  guarded descriptor reason (Op_Return (Err error)) justified.
Proof. intros events r [-> ->]%run_return_inv. left. split; [done|]. by eexists. Qed.

(** A check before the read. *)
Lemma guarded_check {E A B} descriptor reason (c : result E A) error (next : A -> operation B) justified :
  (forall a, c = Ok a -> guarded descriptor reason (next a) justified) ->
  guarded descriptor reason (check c error next) justified.
Proof. intros Hn. destruct c; [by apply Hn|]. apply guarded_error. Qed.

Lemma runs_returned {A} (r : result WalletLifecycleError A) (P : A -> Prop) events r' :
  (forall a, r = Ok a -> P a) -> lifecycle_runs (Op_Return r) events r' ->
  events = [] /\ forall a, r' = Ok a -> P a.
Proof. by intros HP [-> ->]%run_return_inv. Qed.

(** The revealed phrase is what was read, and it derives the account. *)
Definition revealed (descriptor : WalletDescriptor) (data : bytes) (phrase : RecoveryPhrase) : Prop :=
  exists wallet, from_utf8 data = Some (rp_phrase phrase) /\
    derive_wallet (rp_phrase phrase) (wd_network descriptor) = Ok wallet /\
    tw_address (sw_wallet wallet) = tas_address (wd_address descriptor).

Lemma reveal_guarded descriptor :
  guarded descriptor Reason_RevealRecoveryPhrase (reveal_recovery_phrase descriptor)
    (revealed descriptor).
Proof.
  apply guarded_check. intros [] Hv. apply guarded_read; [done|]. intros secret events r.
  unfold revealed, wallet_derive_address, secret_wallet, recovery_phrase, mnemonic_str, mnemonic_as_str.
  destruct (from_utf8 (sm_bytes secret)) as [text|]; cbn [ok_or map_err rbind rmap check].
  2: { by intros [-> ->]%run_return_inv. }
  destruct (derive_wallet text _) as [wallet|] eqn:Ew; cbn [map_err rmap check];
    [|by intros [-> ->]%run_return_inv].
  cbn. case_bool_decide as Ha; cbn [negb]; [|by intros [-> ->]%run_return_inv].
  apply runs_returned. intros phrase [= <-]. by exists wallet.
Qed.

Lemma verify_own_signature wallet digest :
  verify_signature digest (mkEd25519Signature (sign_ton_connect_digest wallet digest))
    (mkEd25519PublicKey (signing_public_key wallet)) = Ok true.
Proof.
  unfold verify_signature, sign_ton_connect_digest, signing_public_key, public_key.
  cbn [sig_bytes pk_bytes]. by rewrite verify_sign.
Qed.

(** The proof verifies under the signing key of the wallet that was read. *)
Definition proves (request : TonConnectProofSignRequest) (data : bytes)
    (signed : TonConnectProofSignature) : Prop :=
  exists wallet digest, unlocks (psr_descriptor request) data wallet /\
    tps_public_key signed = signing_public_key wallet /\
    tps_signature signed = sign_ton_connect_digest wallet digest /\
    ton_proof_signing_hash (ton_connect_address (psr_descriptor request)) (psr_domain request)
      (psr_timestamp request) (psr_payload request) = Ok digest /\
    verify_signature digest (mkEd25519Signature (tps_signature signed))
      (mkEd25519PublicKey (tps_public_key signed)) = Ok true.

Lemma proof_guarded request :
  guarded (psr_descriptor request) Reason_SignTonConnectProof (sign_ton_connect_proof request)
    (proves request).
Proof.
  apply guarded_check. intros [] Hv. apply guarded_read; [done|]. intros secret events r.
  apply runs_returned. intros signed (wallet & Hw%unlock_wallet_ok & Hs)%rbind_ok.
  apply rbind_ok in Hs as (digest & Hd%map_err_ok & [= <-]). exists wallet, digest.
  do 4 (split; [done|]). apply verify_own_signature.
Qed.

(** The session is that of the wallet, the dApp and the nonce. *)
Definition opens_session (request : TonConnectDerivedSessionRequest) (data : bytes)
    (session : TonConnectDerivedSession) : Prop :=
  exists wallet, unlocks (dsr_descriptor request) data wallet /\
    client_id_from_str (dsr_dapp_client_id request) = Ok (tds_peer session) /\
    tds_crypto session = from_secret_key (ton_connect_session_secret wallet
      (cid_bytes (tds_peer session)) (dsr_nonce request)) /\
    tds_signing_public_key session = signing_public_key wallet /\
    tds_address session = ton_connect_address (dsr_descriptor request) /\
    tds_network session = global_id (wd_network (dsr_descriptor request)).

Lemma session_guarded request :
  guarded (dsr_descriptor request) Reason_DeriveTonConnectSessionKey
    (derive_ton_connect_session request) (opens_session request).
Proof.
  apply guarded_check. intros [] Hv. apply guarded_check. intros peer Hp.
  destruct (is_empty (dsr_nonce request)); [apply guarded_error|]. apply guarded_read; [done|].
  intros secret events r. apply runs_returned.
  intros session (wallet & Hw%unlock_wallet_ok & Hs)%rbind_ok.
  apply rbind_ok in Hs as (network & Hn & [= <-]). exists wallet. do 5 (split; [done|]).
  by destruct (wd_network (dsr_descriptor request)); vm_compute in Hn; injection Hn as <-.
Qed.

(** The signature verifies under the signing key for exactly the checked request. *)
Definition signs_data (request : TonConnectSignDataSignRequest) (data : bytes)
    (signed : TonConnectSignedData) : Prop :=
  exists wallet payload, unlocks (sds_descriptor request) data wallet /\
    tsd_request signed = sds_request request /\ tsd_domain signed = sds_domain request /\
    tsd_timestamp signed = sds_timestamp request /\
    tsd_public_key signed = signing_public_key wallet /\
    (exists digest, tsd_signature signed = sign_ton_connect_digest wallet digest) /\
    sign_data_payload (sds_request request) (global_id (wd_network (sds_descriptor request)))
      (ton_connect_address (sds_descriptor request)) (sds_domain request) = Ok payload /\
    sign_data_verify
      (mkSignDataResult (mkEd25519Signature (tsd_signature signed))
         (ton_connect_address (sds_descriptor request)) (tsd_timestamp signed) (tsd_domain signed)
         payload)
      (mkEd25519PublicKey (tsd_public_key signed)) = Ok true.

Lemma data_guarded request :
  guarded (sds_descriptor request) Reason_SignTonConnectData (sign_ton_connect_data request)
    (signs_data request).
Proof.
  apply guarded_check. intros [] Hv. apply guarded_check. intros digest Hd. apply guarded_read; [done|].
  intros secret events r. apply runs_returned.
  intros signed (wallet & Hw%unlock_wallet_ok & [= <-])%rbind_ok. unfold sign_request_digest in Hd.
  apply rbind_ok in Hd as (network & Hn & Hd%map_err_ok). unfold sign_data_digest in Hd.
  apply rbind_ok in Hd as (payload & Hp & Hd%map_err_ok). exists wallet, payload.
  do 5 (split; [done|]). split; [by exists digest|].
  assert (network = global_id (wd_network (sds_descriptor request))) as ->
    by (destruct (wd_network (sds_descriptor request)); vm_compute in Hn; by injection Hn as <-).
  split; [done|]. unfold sign_data_verify.
  cbn [sdr_payload sdr_address sdr_domain sdr_timestamp sdr_signature tsd_signature tsd_public_key
       tsd_timestamp tsd_domain]. rewrite Hd. cbn [rbind]. apply verify_own_signature.
Qed.
(** C21: a recovery phrase is read only for its own wallet: whatever the host answers,
    revealing, proving, deriving a session and signing data ask for one secret at most, the
    one of the descriptor's record, and only when the descriptor's account is the one that
    its public key derives; a result is returned only when the phrase read derives this
    account (and for signatures this anchor key), signatures verify under the returned key
    for exactly the requested data, and deleting touches no other secret. *)
Theorem secrets_serve_their_wallet :
  (forall descriptor, guarded descriptor Reason_RevealRecoveryPhrase
     (reveal_recovery_phrase descriptor) (revealed descriptor)) /\
  (forall request, guarded (psr_descriptor request) Reason_SignTonConnectProof
     (sign_ton_connect_proof request) (proves request)) /\
  (forall request, guarded (dsr_descriptor request) Reason_DeriveTonConnectSessionKey
     (derive_ton_connect_session request) (opens_session request)) /\
  (forall request, guarded (sds_descriptor request) Reason_SignTonConnectData
     (sign_ton_connect_data request) (signs_data request)) /\
  (forall descriptor events r, lifecycle_runs (delete_wallet descriptor) events r ->
     (events = [] /\ exists error, r = Err error) \/
     (validate_descriptor descriptor = Ok tt /\ exists answer,
        events = [Secret_Deleted (secret_ref_for (wd_record_id descriptor)) answer] /\
        r = map_err lifecycle_error_from answer)).
Proof.
  split; [exact reveal_guarded|]. split; [exact proof_guarded|]. split; [exact session_guarded|].
  split; [exact data_guarded|]. intros descriptor events r. unfold delete_wallet.
  destruct (validate_descriptor descriptor) as [[]|error] eqn:Hv; cbn [check].
  - inversion 1 as [| | |ref next answer ev a Hr]; subst. apply run_return_inv in Hr as [-> ->].
    right. split; [done|]. exists answer. by rewrite (proj1 (proj2 (validate_descriptor_ok _ Hv))).
  - intros [-> ->]%run_return_inv. left. split; [done|]. by exists error.
Qed.

(** ** The published account *)

Lemma public_state_deployed key network address state :
  derive_wallet_public_state key network = Ok (address, state) -> u8s key ->
  exists root, state_init_to_cell state = Some root /\ ta_workchain address = 0%Z /\
    cell_hash root = Some (ta_hash address) /\
    forall boc, parse_root_cell boc = Some root -> deployed_with boc (ta_hash address) Wallet key.
Proof.
  unfold derive_wallet_public_state. intros (k & Hk%ok_or_ok & Hs)%rbind_ok Hu.
  unfold ton_hash in Hk. destruct (Nat.eqb_spec (length key) 32) as [Hlen|]; [|done].
  injection Hk as <-. apply rbind_ok in Hs as (data & Hd%ok_or_ok & Hs).
  apply rbind_ok in Hs as (a & Ha%ok_or_ok & [= -> <-]). unfold state_init_address in Ha.
  apply bind_Some in Ha as (root & Hr & Ha). apply fmap_Some in Ha as (hash & Hh & ->).
  exists root. cbn [ta_workchain ta_hash]. do 3 (split; [done|]). intros boc Hboc.
  rewrite state_init_new_cell in Hr. destruct (build_cell_content _ _ _ Hr) as [Hrb Hrr].
  destruct (build_cell_content _ _ _ Hd) as [Hdb Hdr]. destruct wallet_code_hash as (ch & Hch & Htext).
  exists root, wallet_code, data, ch. eexists. split; [done|]. split; [by eapply build_cell_ordinary|].
  split; [done|]. split; [by eapply cell_hash_length|]. split.
  { exists [false], [false], [false], [], None. rewrite Hrb, Hrr. split; [by left|]. split; [by left|]. done. }
  split; [done|]. split; [|split; [exact Htext|split; [by eapply build_cell_ordinary|]]].
  { do 10 right. left. }
  exists (byte_bits 0 ++ u32_bits 0 ++ wallet_id_bits (wallet_contract_id network)), [].
  rewrite Hdb, Hdr, app_nil_r, <- !app_assoc. split; [|done].
  rewrite !length_app. by destruct network.
Qed.

Lemma boc_base64_roundtrip state text :
  state_init_to_boc_base64 state = Some text ->
  exists root boc, state_init_to_cell state = Some root /\ standard_decode text = Some boc /\
    standard_encode boc = text /\ parse_root_cell boc = Some root.
Proof.
  intros (root & Hr & Ht)%bind_Some. apply fmap_Some in Ht as (boc & Hb & ->). exists root, boc.
  split; [done|]. split; [apply standard_decode_encode; by eapply cell_to_boc_u8s|].
  split; [done|]. by eapply cell_to_boc_root.
Qed.

(** The account that is sent to a dApp passes the checks of the dApp: its texts
    parse, its state is a complete wallet state whose hash is the descriptor's address,
    and the key read from this state is the descriptor's key. *)
Lemma published_account_verifies descriptor info :
  u8s (wd_public_key descriptor) -> derive_ton_connect_account descriptor = Ok info ->
  exists state,
    wallet_state_try_from (tci_wallet_state_init info) = Ok state /\
    raw_from_str (tci_address info) = Ok (ton_connect_address descriptor) /\
    network_id_try_from (tci_network info) = Ok (global_id (wd_network descriptor)) /\
    verify_standard_wallet state (ton_connect_address descriptor) (mkEd25519PublicKey (tci_public_key info))
    = Ok (mkStandardWalletState Wallet (mkEd25519PublicKey (wd_public_key descriptor))).
Proof.
  intros Hu. unfold derive_ton_connect_account.
  intros ([] & (_ & _ & state & Hs)%validate_descriptor_ok & Hi)%rbind_ok. rewrite Hs in Hi.
  cbn [map_err rbind snd fst] in Hi. apply rbind_ok in Hi as (text & Ht%ok_or_ok & [= <-]).
  destruct (public_state_deployed _ _ _ _ Hs Hu) as (root & Hr & Hw & Hh & Hd).
  destruct (boc_base64_roundtrip _ _ Ht) as (root' & boc & Hr' & Hdec & Henc & Hp).
  assert (root' = root) as -> by congruence. specialize (Hd boc Hp).
  exists (mkWalletStateInit text boc). cbn [tci_wallet_state_init tci_address tci_network tci_public_key].
  split; [|split; [|split]].
  - unfold wallet_state_try_from, parse_root. rewrite Hdec. cbn [ok_or rbind].
    rewrite bool_decide_eq_true_2, Hp by done. cbn [negb ok_or rbind].
    destruct Hd as (r & code & data & _ & _ & Hr'' & Ho & _ & _ & Hlay & _).
    assert (r = root) as -> by congruence. by rewrite (proj2 (parse_state_init_iff _ _ _) (conj Ho Hlay)).
  - rewrite to_hex_raw. apply raw_roundtrip. split; [cbn; lia|]. cbn [raa_hash].
    split; [by eapply cell_hash_length|by eapply cell_hash_u8s].
  - by destruct (wd_network descriptor).
  - by apply deployed_wallet_verifies.
Qed.
(** ** Recovery *)

Lemma listed_solid word : word ∈ WORDLIST -> split_whitespace word = [word] /\ Forall scalar word.
Proof.
  intros Hw. destruct (wordlist_letters _ Hw) as [Hne Hl]. split.
  - rewrite listed_word by (by rewrite normalize_listed). f_equal. rewrite forallb_forall in Hl.
    pose proof (trim_between [] word [] ltac:(constructor)) as E. rewrite app_nil_r in E. apply E; [|constructor].
    split; [done|]. apply Forall_forall. intros c Hc%list_elem_of_In%Hl. unfold is_lowercase_letter in Hc.
    apply not_true_iff_false. intros Hb%blank_not_letter. apply andb_true_iff in Hc as [Ha Hz].
    unfold lowercase_char, to_ascii_lowercase, is_lowercase_letter in Hb. bool_to_prop.
    destruct (N.eqb_spec c 8490); [lia|]. replace ((65 <=? c) && (c <=? 90))%N with false in Hb
      by (symmetry; apply andb_false_iff; rewrite !N.leb_gt; lia).
    apply andb_false_iff in Hb. rewrite !N.leb_gt in Hb. lia.
  - apply Forall_forall. intros c Hc%list_elem_of_In. rewrite forallb_forall in Hl.
    specialize (Hl c Hc). unfold is_lowercase_letter in Hl. apply andb_true_iff in Hl as [Ha Hz].
    bool_to_prop. unfold scalar. lia.
Qed.

(** The phrase of some entropy, as the words, as text and as bytes. *)
Lemma phrase_of_entropy e half :
  is_entropy e -> from_entropy e = Ok half ->
  split_whitespace (to_phrase half) = half_words half /\ Forall scalar (to_phrase half) /\
  rotation_parse (to_phrase half) = Ok (from_single_half half) /\
  mnemonic_from_words (half_words half) = Ok (mkSensitiveMnemonic (utf8 (to_phrase half))).
Proof.
  intros He Hf. destruct (encoded_half_accepted e He) as (half' & Hf' & Hn & _).
  assert (half' = half) as -> by congruence. destruct (proj1 (half_new_spec _ _) Hn) as (Hl & _ & Hin & _).
  assert (split_whitespace (to_phrase half) = half_words half) as Hs.
  { unfold to_phrase. rewrite split_join. clear -Hin. induction Hin as [|word words Hw _ IH]; [done|].
    cbn [flat_map]. by rewrite (proj1 (listed_solid word Hw)), IH. }
  assert (Forall scalar (to_phrase half)) as Hsc.
  { apply join_scalar. eapply Forall_impl; [exact Hin|]. intros word Hw. apply (listed_solid word Hw). }
  assert (rotation_parse (to_phrase half) = Ok (from_single_half half)) as Hp.
  { unfold rotation_parse. rewrite Hs. unfold rotation_new. by rewrite Hl, Hn. }
  do 3 (split; [done|]). unfold mnemonic_from_words, mnemonic_from_bytes, mnemonic_validate, mnemonic_as_str.
  cbn [sm_bytes]. rewrite utf8_join. fold (to_phrase half). rewrite from_utf8_utf8 by done.
  cbn [ok_or rbind]. by rewrite Hp.
Qed.

(** The account of a phrase is the one of its anchor key. *)
Lemma derive_wallet_state phrase network mnemonic address state :
  rotation_parse phrase = Ok mnemonic ->
  derive_wallet_public_state (public_key (derive_half_key (rm_anchor mnemonic))) network = Ok (address, state) ->
  exists wallet, derive_wallet phrase network = Ok wallet /\ tw_address (sw_wallet wallet) = address /\
    kp_public_key (tw_key_pair (sw_wallet wallet)) = public_key (derive_half_key (rm_anchor mnemonic)).
Proof.
  intros Hp. unfold derive_wallet_public_state, derive_wallet. rewrite Hp. cbn [map_err rbind].
  intros (k & Hk%ok_or_ok & Hs)%rbind_ok. apply rbind_ok in Hs as (data & Hd%ok_or_ok & Hs).
  apply rbind_ok in Hs as (a & Ha%ok_or_ok & [= -> <-]).
  unfold ton_wallet_new, derive_rotation_keys, ton_key_pair. cbn [rk_anchor kp_public_key rk_signing].
  rewrite Hk. cbn [mbind option_bind]. rewrite Hd. cbn [mbind option_bind]. rewrite Ha.
  cbn [mbind option_bind ok_or rbind]. by eexists.
Qed.

Lemma alphabet_lacks c data : is_url_safe c = false -> contains c (url_safe_no_pad_encode data) = false.
Proof.
  intros Hc. apply not_true_iff_false. intros (x & Hx & ->%N.eqb_eq)%existsb_exists.
  pose proof (url_safe_encode_alphabet data) as Ha. rewrite forallb_forall in Ha.
  by rewrite Ha in Hc.
Qed.

(** What the engine writes is already canonical. *)
Lemma friendly_canonical data :
  canonical_user_friendly (url_safe_no_pad_encode data) = Ok (url_safe_no_pad_encode data).
Proof.
  assert (utf8 (url_safe_no_pad_encode data) = url_safe_no_pad_encode data) as Hascii.
  { pose proof (url_safe_encode_ascii data) as Ha. induction Ha as [|c s Hc _ IH]; [done|].
    unfold utf8 in *. cbn [flat_map]. rewrite IH. unfold utf8_char. by rewrite (proj2 (N.ltb_lt _ _) Hc). }
  unfold canonical_user_friendly. by rewrite Hascii, !alphabet_lacks by done.
Qed.

(** The text of a friendly address reads back as its account. *)
Lemma friendly_text_read raw bounceable test_only f :
  well_typed raw -> friendly_from_raw raw bounceable test_only = Ok f ->
  ton_address_string_try_from (fa_encoded f)
  = Some (mkTonAddressString (fa_encoded f) (mkTonAddress (raa_workchain raw) (raa_hash raw))).
Proof.
  intros Ht Hf. pose proof Ht as (_ & Hl & Hu).
  assert (exists data, fa_encoded f = url_safe_no_pad_encode data) as [data Hdata]
    by (apply friendly_from_raw_ok in Hf as [_ ->]; by eexists).
  unfold ton_address_string_try_from, parse_ton_address_parts.
  rewrite Hdata, alphabet_lacks, friendly_canonical by done. cbn [rbind]. rewrite <- Hdata.
  rewrite (friendly_written raw _ _ f Ht Hf). cbn [map_err rbind].
  by rewrite (ton_address_from_friendly raw _ _ f Hl Hu Hf).
Qed.

(** The text of a basechain account reads back as the account. *)
Lemma user_friendly_read address network :
  ta_workchain address = 0%Z -> length (ta_hash address) = 32 -> u8s (ta_hash address) ->
  ton_address_string_try_from (to_user_friendly address network)
  = Some (mkTonAddressString (to_user_friendly address network) address).
Proof.
  intros Hw Hl Hu. set (raw := mkRawAccountAddress 0 (ta_hash address)).
  destruct (friendly_from_raw raw false (negb (bool_decide (network = Mainnet)))) as [f|] eqn:Hf.
  2: { unfold friendly_from_raw in Hf. by cbn in Hf. }
  assert (mkTonAddress 0 (ta_hash address) = address) as Ea by (rewrite <- Hw; by destruct address).
  assert (to_user_friendly address network = fa_encoded f) as ->.
  { unfold to_user_friendly. rewrite <- (to_base64_friendly _ _ _ _ Hf), negb_involutive.
    unfold raw. cbn [raa_workchain raa_hash]. by rewrite Ea. }
  erewrite (friendly_text_read raw); [|split; [cbn; lia|done]|done].
  unfold raw. cbn [raa_workchain raa_hash]. by rewrite Ea.
Qed.

Lemma public_state_typed key network address state :
  derive_wallet_public_state key network = Ok (address, state) ->
  ta_workchain address = 0%Z /\ length (ta_hash address) = 32 /\ u8s (ta_hash address) /\ length key = 32.
Proof.
  unfold derive_wallet_public_state, ton_hash. intros (k & Hk%ok_or_ok & Hs)%rbind_ok.
  destruct (Nat.eqb_spec (length key) 32) as [Hlen|]; [|done].
  apply rbind_ok in Hs as (data & _ & Hs). apply rbind_ok in Hs as (a & Ha%ok_or_ok & [= -> <-]).
  unfold state_init_address in Ha. apply bind_Some in Ha as (root & _ & Ha).
  apply fmap_Some in Ha as (hash & Hh & ->). cbn [ta_workchain ta_hash].
  split; [done|]. split; [by eapply cell_hash_length|]. split; [by eapply cell_hash_u8s|done].
Qed.

(** The descriptor of a record, a network and an account. *)
Definition descriptor_of (record_id : rstr) (network : Network) (key : bytes) (address : TonAddress)
  : WalletDescriptor :=
  mkWalletDescriptor record_id (mkTonAddressString (to_user_friendly address network) address) key
    network (secret_ref_for record_id).

Lemma derived_descriptor record_id network mnemonic phrase address state :
  Forall scalar phrase -> rotation_parse phrase = Ok mnemonic ->
  derive_wallet_public_state (public_key (derive_half_key (rm_anchor mnemonic))) network = Ok (address, state) ->
  let secret := mkSensitiveMnemonic (utf8 phrase) in
  let descriptor :=
    descriptor_of record_id network (public_key (derive_half_key (rm_anchor mnemonic))) address in
  derive_descriptor record_id network secret = Ok descriptor /\
  wallet_derive_address network secret = Ok address /\ recovery_phrase secret = Ok (mkRecoveryPhrase phrase) /\
  (validate_record_id record_id = Ok tt -> validate_descriptor descriptor = Ok tt).
Proof.
  intros Hsc Hp Hs secret descriptor. destruct (derive_wallet_state _ _ _ _ _ Hp Hs) as (w & Hw & Ha & Hk).
  destruct (public_state_typed _ _ _ _ Hs) as (Hwc & Hl & Hu & _).
  assert (secret_wallet network secret = Ok w) as Hsw.
  { unfold secret_wallet, mnemonic_str, mnemonic_as_str, secret. cbn [sm_bytes].
    rewrite from_utf8_utf8 by done. cbn [ok_or map_err rbind]. by rewrite Hw. }
  split; [|split; [|split]].
  - unfold derive_descriptor. rewrite Hsw. cbn [rbind]. rewrite Ha, Hk, user_friendly_read by done. done.
  - unfold wallet_derive_address. rewrite Hsw. rewrite <- Ha. done.
  - unfold recovery_phrase, mnemonic_str, mnemonic_as_str, secret. cbn [sm_bytes].
    by rewrite from_utf8_utf8 by done.
  - intros Hid. unfold validate_descriptor, descriptor, descriptor_of.
    cbn [wd_record_id wd_public_key wd_network wd_secret_ref wd_address tas_address].
    rewrite Hid. cbn [rbind]. rewrite Hs. cbn [map_err rbind fst]. by rewrite !bool_decide_eq_true_2.
Qed.

Lemma secret_ref_inj a b : secret_ref_for a = secret_ref_for b -> a = b.
Proof. unfold secret_ref_for. intros [= E]. by apply app_inv_tail in E. Qed.

Lemma reveal_stored (descriptor : WalletDescriptor) (phrase : rstr) (mnemonic : RotationMnemonic) (address : TonAddress)
    (v : gmap rstr bytes) :
  validate_descriptor descriptor = Ok tt -> Forall scalar phrase -> rotation_parse phrase = Ok mnemonic ->
  tas_address (wd_address descriptor) = address ->
  wallet_derive_address (wd_network descriptor) (mkSensitiveMnemonic (utf8 phrase)) = Ok address ->
  recovery_phrase (mkSensitiveMnemonic (utf8 phrase)) = Ok (mkRecoveryPhrase phrase) ->
  v !! psr_value (wd_secret_ref descriptor) = Some (utf8 phrase) ->
  run_vault (reveal_recovery_phrase descriptor) v = (v, Ok (mkRecoveryPhrase phrase)).
Proof.
  intros Hv Hsc Hp Ha Hw Hr Hl. unfold reveal_recovery_phrase. rewrite Hv. cbn [check].
  unfold read_mnemonic, await_read. cbn [run_vault psd_secret_ref]. rewrite Hl. cbn [ok_or check].
  unfold mnemonic_from_bytes, mnemonic_validate, mnemonic_as_str. cbn [sm_bytes].
  rewrite from_utf8_utf8 by done. cbn [ok_or rbind]. rewrite Hp. cbn [map_err rmap rbind check].
  rewrite Hw. cbn [check]. rewrite bool_decide_eq_true_2 by done. cbn [negb run_vault]. by rewrite Hr.
Qed.

(** C20: a created wallet is not lost: with a valid record name, entropy and an account that
    can be built, creation succeeds and stores the phrase it returns; revealing returns
    that phrase, importing its words gives the same descriptor on any device, deleting
    removes it, and the secrets of all other records are untouched. *)
Theorem created_wallet_recovered (record_id : rstr) (network : Network) (e : bytes)
    (half : Bip39Half) (address : TonAddress) (state : StateInit) (v : gmap rstr bytes) :
  validate_record_id record_id = Ok tt -> is_entropy e -> from_entropy e = Ok half ->
  derive_wallet_public_state (public_key (derive_half_key half)) network = Ok (address, state) ->
  exists descriptor stored,
    run_vault (create_wallet (Some e) (mkCreateWalletRequest record_id network)) v
    = (stored, Ok (mkCreatedWallet descriptor (mkRecoveryPhrase (to_phrase half)))) /\
    tas_address (wd_address descriptor) = address /\
    run_vault (reveal_recovery_phrase descriptor) stored = (stored, Ok (mkRecoveryPhrase (to_phrase half))) /\
    (forall v', run_vault (import_wallet (mkImportWalletRequest record_id network
                   (split_whitespace (to_phrase half)))) v'
                = (<[psr_value (secret_ref_for record_id) := utf8 (to_phrase half)]> v', Ok descriptor)) /\
    run_vault (delete_wallet descriptor) stored
    = (delete (psr_value (secret_ref_for record_id)) stored, Ok tt) /\
    (forall other, other <> record_id ->
       stored !! psr_value (secret_ref_for other) = v !! psr_value (secret_ref_for other)).
Proof.
  intros Hid He Hf Hs. destruct (phrase_of_entropy e half He Hf) as (Hw & Hsc & Hp & Hm).
  destruct (derived_descriptor record_id network _ _ _ _ Hsc Hp Hs) as (Hd & Ha & Hr & Hv).
  specialize (Hv Hid). set (descriptor := descriptor_of _ _ _ _) in *.
  exists descriptor, (<[psr_value (secret_ref_for record_id) := utf8 (to_phrase half)]> v).
  split; [|split; [done|split; [|split; [|split]]]].
  - unfold create_wallet. cbn [cwr_record_id cwr_network]. rewrite Hid. cbn [check].
    unfold generate_mnemonic. cbn [ok_or rbind]. rewrite Hf. cbn [map_err rbind].
    unfold mnemonic_from_words in Hm. rewrite utf8_join in Hm. fold (to_phrase half) in Hm.
    rewrite Hm. cbn [check]. rewrite Hd. cbn [check store_secret run_vault pss_secret_ref pss_bytes].
    unfold store_secret. cbn [run_vault check pss_secret_ref pss_bytes sm_bytes]. by rewrite Hr.
  - eapply reveal_stored; [done..|]. by rewrite lookup_insert_eq.
  - intros v'. unfold import_wallet. cbn [iwr_record_id iwr_network iwr_recovery_words].
    rewrite Hid. cbn [check]. rewrite Hw, Hm. cbn [check]. rewrite Hd. done.
  - unfold delete_wallet. rewrite Hv. done.
  - intros other Hne. apply lookup_insert_ne. intros E. apply Hne.
    apply secret_ref_inj. unfold secret_ref_for in *. cbn [psr_value] in E. by rewrite E.
Qed.
End Spec.
