(* ===== verification/KeyRotation.v ===== *)
(** * Key rotation

    src/wallet/key_rotation.rs: a new signing half for a wallet, the signed request that
    installs its key, and the recovery phrase that replaces the old one. *)

From stdpp Require Import base numbers list option strings.
From S2P Require Import Prelude BoundaryTypes SendDomain ClientDomain CellBoc CellBocSpec.
From S2P Require Import Addresses ConnectValues ConnectSigning ConnectWalletState WordList.
From S2P Require Import Mnemonic WalletContract WalletKeys ConnectSigningSpec TransferLink.
From S2P Require Import Lifecycle Transfer.

Definition KEY_ROTATION_PROOF_TAG : bytes := lit "KEY_ROTATION".
Definition CHANGE_PUBLIC_KEY_INTERNAL_OPCODE : N := 4223310279.
Definition CHANGE_PUBLIC_KEY_EXTERNAL_OPCODE : N := 4223310280.
Definition MAX_KEY_GENERATION_ATTEMPTS : nat := 8.

Inductive KeyRotationError :=
  | Rotation_InvalidMnemonic
  | Rotation_WalletIdentityMismatch
  | Rotation_ExpirationOutOfRange
  | Rotation_RotatedWalletRequiresActiveAccount
  | Rotation_Preparation.

Inductive KeyRotationMessageKind := Rotation_External | Rotation_Internal.

Record PreparedKeyRotationMaterial := mkPreparedKeyRotationMaterial {
  pkr_replacement_mnemonic : SensitiveMnemonic;
  pkr_new_public_key : bytes;
  pkr_signed_boc : Boc;
}.

Section Rotation.
Context `{Sha256} `{Sha512} `{Ed25519Keys} `{TonMessages}.

(** The tag, the workchain and the account of the wallet. *)
Definition build_rotation_proof (address : TonAddress) : option Cell :=
  if (-128 <=? ta_workchain address)%Z && (ta_workchain address <=? 127)%Z
  then build_cell (bytes_bits KEY_ROTATION_PROOF_TAG ++ byte_bits (i8_byte (ta_workchain address))
                     ++ bytes_bits (ta_hash address)) []
  else None.

Definition change_key_opcode (kind : KeyRotationMessageKind) : N :=
  match kind with
  | Rotation_External => CHANGE_PUBLIC_KEY_EXTERNAL_OPCODE
  | Rotation_Internal => CHANGE_PUBLIC_KEY_INTERNAL_OPCODE
  end.

(** The proof and the encrypted old key are references, in this order. *)
Definition build_change_public_key_request (kind : KeyRotationMessageKind) (wallet_id : Z)
    (valid_until seqno : N) (new_public_key proof_signature encrypted_old_private_key : bytes)
  : option Cell :=
  signature ← build_cell (bytes_bits proof_signature) [];
  encrypted_old_key ← build_cell (bytes_bits encrypted_old_private_key) [];
  build_cell (u32_bits (change_key_opcode kind) ++ wallet_id_bits wallet_id ++ u32_bits valid_until
                ++ u32_bits seqno ++ bytes_bits new_public_key) [signature; encrypted_old_key].

Definition sign_cell (key : SigningKey) (body : Cell) : option Cell := sign_with key body.

Definition rotation_info (kind : KeyRotationMessageKind) (address : TonAddress) : CommonMsgInfo :=
  match kind with
  | Rotation_External => Info_ExtIn (Some (to_msg_address_int address))
  | Rotation_Internal => Info_Int (Some (to_msg_address_int address)) 0 false
  end.

Definition wrap_signed_request (address : TonAddress) (kind : KeyRotationMessageKind)
    (signed_request : Cell) (state_init : option StateInit) : option Cell :=
  msg_to_cell (mkMsg (rotation_info kind address) state_init signed_request).

(** The anchor words, a space and the words of the new half. *)
Definition replacement_phrase (current : RotationMnemonic) (new_half : Bip39Half) : rstr :=
  to_phrase (rm_anchor current) ++ 32%N :: to_phrase new_half.

Definition preparation {A} (value : option A) : result KeyRotationError A := ok_or Rotation_Preparation value.

Definition prepare_with_new_half (current : RotationMnemonic) (current_key : SigningKey)
    (new_half : Bip39Half) (new_key : SigningKey) (address : TonAddress) (wallet_id : Z) (seqno : N)
    (state_init : option StateInit) (valid_until : N) (kind : KeyRotationMessageKind)
  : result KeyRotationError PreparedKeyRotationMaterial :=
  let new_public_key := public_key new_key in
  let? proof := preparation (build_rotation_proof address) in
  let? hash := preparation (cell_hash proof) in
  let proof_signature := ed25519_sign (sk_bytes new_key) hash in
  let? request := preparation
    (build_change_public_key_request kind wallet_id valid_until seqno new_public_key proof_signature
       (encrypt_old_private_key current_key new_key)) in
  let? signed_request := preparation (sign_cell current_key request) in
  let? message := preparation (wrap_signed_request address kind signed_request state_init) in
  let? data := preparation (cell_to_boc message) in
  let? signed_boc := map_err (fun _ => Rotation_Preparation) (boc_try_from_bytes data) in
  let? replacement := map_err (fun _ => Rotation_Preparation)
    (mnemonic_from_bytes (utf8 (replacement_phrase current new_half))) in
  Ok (mkPreparedKeyRotationMaterial replacement new_public_key signed_boc).

(** The attempts that are left, on the bytes of the random generator for each of them. *)
Fixpoint rotation_attempts (attempts : nat) (random : nat -> option bytes) (current : RotationMnemonic)
    (wallet : SensitiveWallet) (network : Network) (seqno : N) (needs_state_init : bool)
    (valid_until : N) (kind : KeyRotationMessageKind)
  : result KeyRotationError PreparedKeyRotationMaterial :=
  match attempts with
  | 0 => Err Rotation_Preparation
  | S attempts =>
      let current_keys := derive_rotation_keys current in
      let? entropy := preparation (random (MAX_KEY_GENERATION_ATTEMPTS - S attempts)) in
      let? new_half := map_err (fun _ => Rotation_Preparation) (from_entropy entropy) in
      let new_key := derive_half_key new_half in
      if bool_decide (public_key new_key = public_key (rk_signing current_keys))
      then rotation_attempts attempts random current wallet network seqno needs_state_init valid_until kind
      else
        let? state_init :=
          if needs_state_init then
            let? derived := map_err (fun _ => Rotation_Preparation)
              (derive_wallet_public_state (public_key (rk_anchor current_keys)) network) in
            if negb (bool_decide (derived.1 = tw_address (sw_wallet wallet)))
            then Err Rotation_WalletIdentityMismatch
            else Ok (Some derived.2)
          else Ok None in
        prepare_with_new_half current (rk_signing current_keys) new_half new_key
          (tw_address (sw_wallet wallet)) (tw_wallet_id (sw_wallet wallet)) seqno state_init
          valid_until kind
  end.

Definition prepare_key_rotation (random : nat -> option bytes) (current_mnemonic : SensitiveMnemonic)
    (network : Network) (expected_wallet : TonAddressString) (seqno : N) (needs_state_init : bool)
    (valid_until : N) (kind : KeyRotationMessageKind)
  : result KeyRotationError PreparedKeyRotationMaterial :=
  let? current_phrase := map_err (fun _ => Rotation_InvalidMnemonic) (mnemonic_as_str current_mnemonic) in
  let? current := map_err (fun _ => Rotation_InvalidMnemonic) (rotation_parse current_phrase) in
  let? wallet := map_err (fun _ => Rotation_InvalidMnemonic) (derive_wallet current_phrase network) in
  if negb (bool_decide (tw_address (sw_wallet wallet) = tas_address expected_wallet))
  then Err Rotation_WalletIdentityMismatch
  else if needs_state_init && negb (is_pre_rotation wallet)
  then Err Rotation_RotatedWalletRequiresActiveAccount
  else if negb (valid_until <=? u32_max)%N then Err Rotation_ExpirationOutOfRange
  else
    rotation_attempts MAX_KEY_GENERATION_ATTEMPTS random current wallet network seqno needs_state_init
      valid_until kind.
End Rotation.

(** * What a rotation keeps and changes

    The replacement phrase is a phrase of the same account with the new signing key, and
    the signed request installs exactly this key, with the proof that it is known and the
    old key for whoever holds the new one. *)

Section Spec.
Context `{Sha256} `{Sha512} `{Ed25519Keys} `{TonMessages}.

(** ** Phrases *)

(** An accepted half is accepted again, and its phrase splits into its words. *)
Lemma half_again words half :
  half_new words = Ok half ->
  half_new (half_words half) = Ok half /\ length (half_words half) = HALF_WORD_COUNT /\
  split_whitespace (to_phrase half) = half_words half /\ Forall scalar (to_phrase half).
Proof.
  intros (Hl & Hn & Hin & e & He)%half_new_spec.
  assert (length (half_words half) = HALF_WORD_COUNT) as Hl' by (by rewrite Hn, length_map).
  split; [|split; [done|split]].
  - apply half_new_spec. split; [done|]. split; [|split; [done|by exists e]].
    rewrite <- (map_id (half_words half)) at 1. apply map_ext_in. intros word Hw%list_elem_of_In.
    rewrite Forall_forall in Hin. by rewrite normalize_listed by by apply Hin.
  - unfold to_phrase. rewrite split_join. clear -Hin. induction Hin as [|word words Hw _ IH]; [done|].
    cbn [flat_map]. by rewrite (proj1 (listed_solid word Hw)), IH.
  - apply join_scalar. eapply Forall_impl; [exact Hin|]. intros word Hw. apply (listed_solid word Hw).
Qed.

Lemma parsed_halves phrase mnemonic :
  rotation_parse phrase = Ok mnemonic ->
  (exists words, half_new words = Ok (rm_anchor mnemonic)).
Proof.
  unfold rotation_parse, rotation_new. destruct (_ =? _)%nat.
  - destruct (half_new _) as [half|] eqn:E; [|done]. intros [= <-]. by eexists.
  - destruct (_ =? _)%nat; [|done]. intros (anchor & Ha & Hs)%rbind_ok.
    apply rbind_ok in Hs as (signing & _ & [= <-]). by eexists.
Qed.

(** The replacement phrase has the old anchor and the new half. *)
Lemma replacement_parsed phrase current new_half e :
  rotation_parse phrase = Ok current -> is_entropy e -> from_entropy e = Ok new_half ->
  rotation_parse (replacement_phrase current new_half) = Ok (mkRotationMnemonic (rm_anchor current) new_half) /\
  Forall scalar (replacement_phrase current new_half).
Proof.
  intros [words Ha]%parsed_halves He Hf. destruct (half_again _ _ Ha) as (Ha' & Hla & Hsa & Hca).
  destruct (encoded_half_accepted e He) as (half & Hf' & Hn & _). assert (half = new_half) as -> by congruence.
  destruct (half_again _ _ Hn) as (_ & Hln & Hsn & Hcn).
  unfold replacement_phrase, rotation_parse. split.
  - rewrite split_whitespace_app, Hsa, Hsn. unfold rotation_new. rewrite length_app, Hla, Hln. cbn [Nat.eqb].
    change ((HALF_WORD_COUNT + HALF_WORD_COUNT =? HALF_WORD_COUNT)%nat) with false.
    change ((HALF_WORD_COUNT + HALF_WORD_COUNT =? ROTATION_WORD_COUNT)%nat) with true. cbv iota.
    rewrite take_app_length', drop_app_length' by done. by rewrite Ha', Hn.
  - apply Forall_app. split; [done|]. constructor; [unfold scalar; lia|done].
Qed.

Lemma half_key_typed half : valid_key (derive_half_key half).
Proof.
  unfold derive_half_key, signing_key, derive_path, TON_ACCOUNT_PATH. cbn [foldl].
  unfold derive_hardened_child at 1. unfold hmac_node, hmac_sha512, valid_key. cbn [ek_private_key sk_bytes].
  split; [by rewrite length_take, hmac_sha512_length|by apply Forall_take, hmac_sha512_u8s].
Qed.

(** ** Requests *)

(** The body authorizes the new key: signed by the old key, proved by the new one, and
    carrying the old key for the new one. *)
Definition installs_key (kind : KeyRotationMessageKind) (old_key new_key : SigningKey) (address : TonAddress)
    (wallet_id : Z) (seqno valid_until : N) (body : Cell) : Prop :=
  exists request hash signature proof proof_hash proof_signature proof_cell encrypted encrypted_cell,
    cell_hash request = Some hash /\ verify_strict (public_key old_key) hash signature = Some true /\
    cell_bits body = bytes_bits signature ++ cell_bits request /\ cell_refs body = cell_refs request /\
    cell_bits request
    = u32_bits (change_key_opcode kind) ++ wallet_id_bits wallet_id ++ u32_bits valid_until
        ++ u32_bits seqno ++ bytes_bits (public_key new_key) /\
    cell_refs request = [proof_cell; encrypted_cell] /\
    build_rotation_proof address = Some proof /\ cell_hash proof = Some proof_hash /\
    cell_bits proof_cell = bytes_bits proof_signature /\
    verify_strict (public_key new_key) proof_hash proof_signature = Some true /\
    cell_bits encrypted_cell = bytes_bits encrypted /\ decrypt_old_private_key encrypted new_key = old_key.

Lemma new_half_prepared current current_key new_half new_key address wallet_id seqno state_init
    valid_until kind material :
  valid_key current_key ->
  prepare_with_new_half current current_key new_half new_key address wallet_id seqno state_init
    valid_until kind = Ok material ->
  pkr_new_public_key material = public_key new_key /\
  pkr_replacement_mnemonic material = mkSensitiveMnemonic (utf8 (replacement_phrase current new_half)) /\
  exists root body, parse_root_cell (boc_bytes (pkr_signed_boc material)) = Some root /\
    msg_from_cell root = Some (mkMsg (rotation_info kind address) state_init body) /\
    installs_key kind current_key new_key address wallet_id seqno valid_until body.
Proof.
  intros [Hlen _]. unfold prepare_with_new_half, preparation. intros (proof & Hproof%ok_or_ok & Hp)%rbind_ok.
  apply rbind_ok in Hp as (proof_hash & Hph%ok_or_ok & Hp). apply rbind_ok in Hp as (request & Hreq%ok_or_ok & Hp).
  apply rbind_ok in Hp as (signed & Hs%ok_or_ok & Hp). apply rbind_ok in Hp as (message & Hm%ok_or_ok & Hp).
  apply rbind_ok in Hp as (data & Hd%ok_or_ok & Hp). apply rbind_ok in Hp as (boc & Hb%map_err_ok & Hp).
  apply rbind_ok in Hp as (replacement & Hr%map_err_ok & [= <-]). cbn [pkr_new_public_key pkr_replacement_mnemonic pkr_signed_boc].
  split; [done|]. split.
  { unfold mnemonic_from_bytes in Hr. by destruct (mnemonic_validate _); simplify_eq/=. }
  exists message, signed. split; [|split; [by apply msg_from_to|]].
  - apply (signed_boc_parsed message). unfold Signer.signed_boc_of. rewrite Hd. cbn [ok_or rbind]. by rewrite Hb.
  - unfold build_change_public_key_request in Hreq. apply bind_Some in Hreq as (proof_cell & [Hpb _]%build_cell_content & Hreq).
    apply bind_Some in Hreq as (encrypted_cell & [Heb _]%build_cell_content & [Hrb Hrr]%build_cell_content).
    apply bind_Some in Hs as (hash & Hh & [Hsb Hsr]%build_cell_content).
    do 9 eexists. split; [exact Hh|]. split; [apply verify_sign|]. split; [exact Hsb|]. split; [exact Hsr|].
    split; [exact Hrb|]. split; [exact Hrr|]. split; [exact Hproof|]. split; [exact Hph|].
    split; [exact Hpb|]. split; [apply verify_sign|]. split; [exact Heb|]. by apply decrypt_encrypted.
Qed.

(** The wallet of a phrase by its halves. *)
Lemma derive_wallet_halves phrase network mnemonic wallet :
  rotation_parse phrase = Ok mnemonic -> derive_wallet phrase network = Ok wallet ->
  sw_signing wallet = derive_half_key (rm_signing mnemonic) /\
  kp_public_key (tw_key_pair (sw_wallet wallet)) = public_key (derive_half_key (rm_anchor mnemonic)) /\
  forall phrase' mnemonic', rotation_parse phrase' = Ok mnemonic' -> rm_anchor mnemonic' = rm_anchor mnemonic ->
    derive_wallet phrase' network
    = Ok (mkSensitiveWallet (sw_wallet wallet) (derive_half_key (rm_signing mnemonic'))).
Proof.
  intros Hp. unfold derive_wallet. rewrite Hp. cbn [map_err rbind derive_rotation_keys rk_anchor rk_signing].
  intros (w & Hw%ok_or_ok & [= <-])%rbind_ok. cbn [sw_signing sw_wallet]. split; [done|]. split.
  - unfold ton_wallet_new in Hw. apply bind_Some in Hw as (? & _ & Hw). apply bind_Some in Hw as (? & _ & Hw).
    by apply bind_Some in Hw as (? & _ & [= <-]).
  - intros phrase' mnemonic' Hp' Ha. rewrite Hp'. cbn [map_err rbind derive_rotation_keys rk_anchor rk_signing].
    rewrite Ha, Hw. done.
Qed.

(** What a successful attempt prepared. *)
Lemma attempt_prepared attempts random current wallet network seqno needed valid_until kind material :
  rotation_attempts attempts random current wallet network seqno needed valid_until kind = Ok material ->
  exists i e new_half init, random i = Some e /\ from_entropy e = Ok new_half /\
    public_key (derive_half_key new_half) <> public_key (derive_half_key (rm_signing current)) /\
    (if needed then exists state, init = Some state /\
       derive_wallet_public_state (public_key (derive_half_key (rm_anchor current))) network
       = Ok (tw_address (sw_wallet wallet), state)
     else init = None) /\
    prepare_with_new_half current (derive_half_key (rm_signing current)) new_half (derive_half_key new_half)
      (tw_address (sw_wallet wallet)) (tw_wallet_id (sw_wallet wallet)) seqno init valid_until kind = Ok material.
Proof.
  induction attempts as [|attempts IH]; [done|]. cbn [rotation_attempts]. unfold preparation.
  intros (e & He%ok_or_ok & Hr)%rbind_ok. apply rbind_ok in Hr as (new_half & Hn%map_err_ok & Hr).
  case_bool_decide as Hsame; [by apply IH|]. apply rbind_ok in Hr as (init & Hi & Hr).
  eexists _, e, new_half, init. split; [exact He|]. split; [done|]. split; [done|]. split; [|done].
  destruct needed; [|by injection Hi as <-].
  apply rbind_ok in Hi as ([address state] & Hd%map_err_ok & [Hc [= <-]]%if_err_ok). bool_to_prop.
  cbn [fst] in Hc. subst address. by exists state.
Qed.

(** C9: a rotation changes the signing key and nothing else: the replacement phrase derives
    the same account with the same anchor, its signing key is the announced one and differs
    from the old one, and the signed message, addressed to the wallet and deploying it when
    needed, installs exactly this key: signed by the old key, proved by the new one, with
    the sequence number and expiration asked for, and carrying the old key so that the
    new one recovers it. *)
Theorem rotation_keeps_the_wallet random current network expected seqno needed valid_until kind material :
  (forall i e, random i = Some e -> is_entropy e) ->
  prepare_key_rotation random current network expected seqno needed valid_until kind = Ok material ->
  exists phrase old replacement new root init body,
    from_utf8 (sm_bytes current) = Some phrase /\ derive_wallet phrase network = Ok old /\
    from_utf8 (sm_bytes (pkr_replacement_mnemonic material)) = Some replacement /\
    derive_wallet replacement network = Ok new /\
    sw_wallet new = sw_wallet old /\ tw_address (sw_wallet new) = tas_address expected /\
    signing_public_key new = pkr_new_public_key material /\ signing_public_key new <> signing_public_key old /\
    parse_root_cell (boc_bytes (pkr_signed_boc material)) = Some root /\
    msg_from_cell root = Some (mkMsg (rotation_info kind (tas_address expected)) init body) /\
    deploys old needed init /\ (valid_until <= u32_max)%N /\
    installs_key kind (sw_signing old) (sw_signing new) (tas_address expected) (wallet_contract_id network)
      seqno valid_until body.
Proof.
  intros Hrandom Hp. unfold prepare_key_rotation, mnemonic_as_str in Hp.
  apply rbind_ok in Hp as (phrase & Hphrase%map_err_ok%ok_or_ok & Hp).
  apply rbind_ok in Hp as (mnemonic & Hm%map_err_ok & Hp). apply rbind_ok in Hp as (old & Hold%map_err_ok & Hp).
  apply if_err_ok in Hp as [Haddr Hp]. apply if_err_ok in Hp as [Hrot Hp]. apply if_err_ok in Hp as [Hv Hp].
  bool_to_prop. destruct (derived_wallet_id _ _ _ Hold) as [Hid Hstate].
  destruct (derive_wallet_halves _ _ _ _ Hm Hold) as (Hsign & Hanchor & Hnew).
  destruct (attempt_prepared _ _ _ _ _ _ _ _ _ _ Hp) as (i & e & new_half & init & He & Hf & Hne & Hinit & Hprep).
  destruct (new_half_prepared _ _ _ _ _ _ _ _ _ _ _ (half_key_typed _) Hprep) as (Hpk & Hrep & root & body & Hroot & Hmsg & Hins).
  destruct (replacement_parsed _ _ _ _ Hm (Hrandom _ _ He) Hf) as [Hparse Hscalar].
  eexists phrase, old, (replacement_phrase mnemonic new_half), _, root, init, body.
  split; [done|]. split; [done|]. split; [rewrite Hrep; by apply from_utf8_utf8|].
  split; [exact (Hnew _ _ Hparse eq_refl)|]. cbn [sw_wallet sw_signing rm_signing]. split; [done|]. split; [done|].
  split; [by rewrite Hpk|]. split; [unfold signing_public_key; by rewrite Hsign|]. split; [done|].
  rewrite <- Haddr, Hsign, <- Hid. split; [done|]. split; [|split; [lia|done]].
  unfold deploys. destruct needed; [|done]. destruct Hinit as (state & -> & Hd). exists state. split; [done|].
  rewrite <- Hanchor in Hd. pose proof (wallet_public_state _ _ _ _ _ Hold Hd) as Hst.
  split; [done|]. split; [by apply Hstate|]. cbn [andb] in Hrot. apply negb_false_iff in Hrot.
  by apply bool_decide_eq_true in Hrot.
Qed.
End Spec.
