(* ===== verification/SlotOperations.v ===== *)
(** * Operations of the resolution slot

    The futures that hold the single-flight resolution slot besides the resolution of a
    pending send: the preparation of signed transfers (src/engine/prepare_transfer.rs) and of
    a key rotation (src/engine/key_rotation.rs), DNS lookups (src/engine/dns.rs) and encrypted
    comments (src/engine/encrypted_comment.rs). *)

From stdpp Require Import base numbers list option strings gmap.
From S2P Require Import Prelude BoundaryTypes SendDomain SendWorkflow Base64 ClientDomain Json.
From S2P Require Import ProviderRequest ProviderAnswers ClientState ClientCalls Futures Resolution.
From S2P Require Import SendEngine ConnectValues Addresses ConnectSigning ConnectWalletState CellBoc.
From S2P Require Import WordList Mnemonic WalletContract WalletKeys Transfer KeyRotation Lifecycle.
From S2P Require Import EncryptedComment RecipientKey LookupAnswers.

(** ** Requests and results *)

(** [PrepareTransferRequest] and the [PreparedTransfer] of src/domain/send.rs. *)
Record PrepareTransferRequest := mkPrepareTransferRequest {
  ptr_operation_id : NonEmptyString;
  ptr_intent : SendIntent;
}.

Record TransferForms := mkTransferForms {
  tf_operation_id : NonEmptyString;
  tf_external_boc : Boc;
  tf_internal_boc : Boc;
  tf_seqno : N;
  tf_valid_until : N;
}.

Record PrepareKeyRotationRequest := mkPrepareKeyRotationRequest {
  pkq_valid_until : N;
  pkq_message_kind : KeyRotationMessageKind;
}.

Record PreparedKeyRotation := mkPreparedKeyRotation {
  pk_replacement_recovery_phrase : RecoveryPhrase;
  pk_new_public_key : bytes;
  pk_signed_boc : Boc;
  pk_seqno : N;
  pk_valid_until : N;
  pk_message_kind : KeyRotationMessageKind;
}.

Record CreateEncryptedCommentRequest := mkCreateEncryptedCommentRequest {
  cec_recipient : TonAddressString;
  cec_comment : rstr;
  cec_recipient_public_key : option bytes;
}.

Record EncryptedCommentRecipientRequest := mkEncryptedCommentRecipientRequest {
  ecr_recipient : TonAddressString;
  ecr_recipient_public_key : option bytes;
}.

Record DecryptCommentRequest := mkDecryptCommentRequest {
  dcr_sender : TonAddressString;
  dcr_body : Boc;
}.

Module Slot.

(** ** Errors *)

(** [self.discard_...(generation); error]: the slot is released with the error. *)
Definition released (generation : N) (error : WalletClientError) : State -> State * WalletClientError :=
  fun s => ((discard_resolution generation s).1, error).

Definition transfer_preparation_error (message : rstr) : WalletClientError :=
  SendFailed (bounded_diagnostic message).
Definition key_rotation_error (message : rstr) : WalletClientError :=
  KeyRotationUnavailable (bounded_diagnostic message).
Definition dns_error (message : rstr) : WalletClientError :=
  DnsResolutionUnavailable (bounded_diagnostic message).
Definition encrypted_comment_error (message : rstr) : WalletClientError :=
  EncryptedCommentUnavailable (bounded_diagnostic message).
Definition lookup_error (message : rstr) : WalletClientError :=
  EncryptedCommentLookupFailed (bounded_diagnostic message).

Definition fail_transfer_preparation (generation : N) (message : rstr) :=
  released generation (transfer_preparation_error message).
Definition fail_key_rotation (generation : N) (message : rstr) :=
  released generation (key_rotation_error message).
Definition fail_dns (generation : N) (message : rstr) := released generation (dns_error message).
Definition fail_encrypted_comment (generation : N) (message : rstr) :=
  released generation (encrypted_comment_error message).
Definition fail_encrypted_comment_lookup (generation : N) (message : rstr) :=
  released generation (lookup_error message).

Definition finish_invalid_protected_secret (generation : N) : State -> State * WalletClientError :=
  or_own_error (complete_resolution generation) InvalidProtectedSecret.

(** ** Shared steps *)

(** [match ... { Err(error) => { self.discard_...(generation); return Err(error) } }]. *)
Definition or_release {A} (generation : N) (f : attempt A) : attempt A :=
  fbind f (fun r =>
    match r with
    | Ok a => fok a
    | Err error => fail_with (released generation error)
    end).

(** One tracked request, and its answer read with [parse]. *)
Definition slot_request (generation : N) (request : HttpRequest)
    (fail : N -> rstr -> State -> State * WalletClientError) : attempt bytes :=
  await! answer :=
    or_release generation (execute_resolution_request (Owner_Standalone generation) request) in
  or_fail answer (fun error => fail generation (de_developer_message error)).

Definition slot_answer {A} (generation : N) (request : HttpRequest)
    (parse : bytes -> result DomainError A)
    (fail : N -> rstr -> State -> State * WalletClientError) : attempt A :=
  await! body := slot_request generation request fail in
  or_fail (parse body) (fun error => fail generation (de_developer_message error)).

Definition slot_secret (generation : N) (request : ProtectedSecretRead)
    (fail : N -> rstr -> State -> State * WalletClientError) : attempt bytes :=
  host! answer := read_protected_secret request in
  await! secret := or_fail answer (fail generation) in
  run! locked (ensure_resolution_current generation);
  fok secret.

Section Preparation.
Context `{SerdeJson} `{BigUintText} `{Base64Engine}.

(** The sequence number: from the contract, zero before it is deployed. *)
Definition slot_seqno (generation : N) (request : HttpRequest) (account : AccountSnapshot)
    (unavailable : AccountStatus -> WalletClientError)
    (fail : N -> rstr -> State -> State * WalletClientError) : attempt N :=
  match as_status account with
  | Account_Active => slot_answer generation request parse_seqno fail
  | Account_Nonexistent | Account_Uninitialized => fok 0%N
  | Account_Frozen | Account_Unknown =>
      fail_with (released generation (unavailable (as_status account)))
  end.

Context `{Sha256} `{Sha512} `{Ed25519Keys} `{TonMessages}.

(** ** [prepare_transfer] *)

Definition enough_balance (generation : N) (requested : option UnsignedDecimalString)
    (account : AccountSnapshot) : attempt unit :=
  match requested with
  | None => fok tt
  | Some nanograms =>
      if (uds_value (as_balance_nanograms account) <? uds_value nanograms)%N
      then fail_with (released generation
             (InsufficientBalance (as_balance_nanograms account) nanograms))
      else fok tt
  end.

(** The rest of [prepare_transfer] after its reservation. *)
Definition prepare_transfer_reserved (request : PrepareTransferRequest)
    (requested : option UnsignedDecimalString)
    (reserved : N * WalletClientConfig * HttpRequest * HttpRequest * ProtectedSecretRead)
  : attempt TransferForms :=
  let '(generation, config, account_request, seqno_request, secret_request) := reserved in
  let send_request := mkSendRequest (ptr_operation_id request) false (ptr_intent request) in
  await! account := slot_answer generation account_request parse_account fail_transfer_preparation in
  run! enough_balance generation requested account;
  await! seqno :=
    slot_seqno generation seqno_request account SendAccountUnavailable fail_transfer_preparation in
  let fresh := mkFreshSendAccount (as_status account) seqno in
  await! valid_until :=
    or_fail (resolve_send_expiration (si_expiration (sr_intent send_request)) (as_sync_utime account)
               (cfg_send_validity_seconds config))
      (fun error => fail_transfer_preparation generation (expiration_error_text error)) in
  await! secret := slot_secret generation secret_request fail_transfer_preparation in
  await! source :=
    or_fail (Signer.derive_source secret (cfg_network config))
      (fun _ => released generation InvalidProtectedSecret) in
  if negb (bool_decide (source = tas_address (cfg_address config)))
  then fail_with (fail_transfer_preparation generation
         (lit "protected mnemonic does not belong to this wallet"))
  else
    await! pair :=
      or_fail (Signer.prepare_transfer_pair secret (cfg_record_id config) (cfg_address config)
                 (cfg_network config) send_request fresh valid_until)
        (fun error => fail_transfer_preparation generation
           (lit "failed to prepare transfer messages: " ++ transfer_error_text error)) in
    run! locked (complete_resolution generation);
    fok (mkTransferForms (ptr_operation_id request) (pt_signed_boc pair.1) (pt_signed_boc pair.2)
           seqno valid_until).

Definition prepare_transfer (request : PrepareTransferRequest) : attempt TransferForms :=
  match exact_value_total (ptr_intent request) with
  | Err _ => fthrow InvalidSendRequest
  | Ok requested =>
      await! reserved := locked start_prepare_transfer in
      prepare_transfer_reserved request requested reserved
  end.

(** ** [prepare_key_rotation] *)

Definition rotation_unavailable (status : AccountStatus) : WalletClientError :=
  key_rotation_error (lit "wallet account state " ++ lit (status_name status)
                      ++ lit " does not permit key rotation").

Definition rotation_failure (generation : N) (error : KeyRotationError)
  : State -> State * WalletClientError :=
  match error with
  | Rotation_InvalidMnemonic => released generation InvalidProtectedSecret
  | Rotation_WalletIdentityMismatch =>
      fail_key_rotation generation (lit "the protected mnemonic does not belong to this wallet")
  | Rotation_ExpirationOutOfRange =>
      fail_key_rotation generation (lit "the expiration timestamp exceeds uint32")
  | Rotation_RotatedWalletRequiresActiveAccount =>
      fail_key_rotation generation
        (lit "a rotated recovery phrase requires an already deployed wallet")
  | Rotation_Preparation =>
      fail_key_rotation generation (lit "failed to generate, sign, or serialize key-rotation data")
  end.

Definition deploys (status : AccountStatus) : bool := negb (bool_decide (status = Account_Active)).

Definition prepare_key_rotation_reserved (random : nat -> option bytes)
    (request : PrepareKeyRotationRequest)
    (reserved : N * WalletClientConfig * HttpRequest * HttpRequest * ProtectedSecretRead)
  : attempt PreparedKeyRotation :=
  let '(generation, config, account_request, seqno_request, secret_request) := reserved in
  await! account := slot_answer generation account_request parse_account fail_key_rotation in
  await! seqno :=
    slot_seqno generation seqno_request account rotation_unavailable fail_key_rotation in
  await! data := slot_secret generation secret_request fail_key_rotation in
  await! secret :=
    or_fail (mnemonic_from_bytes data) (fun _ => released generation InvalidProtectedSecret) in
  await! prepared :=
    or_fail (KeyRotation.prepare_key_rotation random secret (cfg_network config) (cfg_address config)
               seqno (deploys (as_status account)) (pkq_valid_until request)
               (pkq_message_kind request))
      (rotation_failure generation) in
  await! phrase :=
    or_fail (mnemonic_as_str (pkr_replacement_mnemonic prepared))
      (fun _ => fail_key_rotation generation (lit "generated recovery phrase is invalid")) in
  run! locked (complete_resolution generation);
  fok (mkPreparedKeyRotation (mkRecoveryPhrase phrase) (pkr_new_public_key prepared)
         (pkr_signed_boc prepared) seqno (pkq_valid_until request) (pkq_message_kind request)).

Definition prepare_key_rotation (random : nat -> option bytes) (request : PrepareKeyRotationRequest)
  : attempt PreparedKeyRotation :=
  if (u32_max <? pkq_valid_until request)%N
  then fthrow (key_rotation_error (lit "the expiration timestamp exceeds uint32"))
  else
    await! reserved := locked start_key_rotation in
    prepare_key_rotation_reserved random request reserved.
End Preparation.

(** ** [resolve_dns] *)

Section Dns.
Context `{SerdeJson} `{BigUintText} `{Base64Engine} `{TonAddressText}.
Context `{HexCrate} `{Crc16} `{!UrlSafeBase64} `{TonAddressParser}.

Definition resolve_dns_reserved (reserved : N * Network * HttpRequest)
  : attempt (option TonAddressString) :=
  let '(generation, network, resolve_request) := reserved in
  await! address :=
    slot_answer generation resolve_request (fun body => parse_dns_wallet_address body network)
      fail_dns in
  run! locked (complete_resolution generation);
  fok address.

Definition resolve_dns (name : rstr) : attempt (option TonAddressString) :=
  match normalize_dns_name name with
  | Err error => fthrow (dns_error error)
  | Ok name =>
      await! reserved := locked (start_resolve_dns name) in
      resolve_dns_reserved reserved
  end.
End Dns.

(** ** Encrypted comments *)

(** [<[u8; 32]>::try_from]. *)
Definition recipient_key_hint (key : option bytes) : result WalletClientError (option bytes) :=
  match key with
  | None => Ok None
  | Some key =>
      if (length key =? 32)%nat then Ok (Some key)
      else Err (encrypted_comment_error (comment_error_text Comment_InvalidPeerPublicKey))
  end.

Section RecipientKeys.
Context `{SerdeJson} `{BigUintText} `{BigUintHex} `{WalletCodes}.

Definition resolve_recipient_public_key (generation : N) (lookup : RecipientKeyLookup)
  : attempt bytes :=
  await! account :=
    slot_answer generation (rk_account lookup) parse_account fail_encrypted_comment_lookup in
  match as_status account with
  | Account_Nonexistent | Account_Uninitialized =>
      match rk_hint lookup with
      | None => fail_with (fail_encrypted_comment generation
                  (lit "the recipient wallet is not deployed and no recipient public key was supplied"))
      | Some key =>
          run! or_fail (verify_recipient_public_key (rk_recipient lookup) key (rk_network lookup))
                 (fun error => fail_encrypted_comment generation (comment_error_text error));
          fok key
      end
  | Account_Frozen => fail_with (fail_encrypted_comment generation
      (lit "the recipient account is frozen and cannot report its public key"))
  | Account_Unknown => fail_with (fail_encrypted_comment_lookup generation
      (lit "the provider returned an unrecognized recipient account state"))
  | Account_Active =>
      await! answer :=
        slot_answer generation (rk_public_key lookup) parse_public_key
          fail_encrypted_comment_lookup in
      match answer with
      | Answer_Key key => fok key
      | Answer_NoKey reason => fail_with (fail_encrypted_comment generation reason)
      end
  end.

Definition resolve_recipient_reserved (reserved : N * RecipientKeyLookup) : attempt bytes :=
  await! key := resolve_recipient_public_key reserved.1 reserved.2 in
  run! locked (complete_resolution reserved.1);
  fok key.

Definition resolve_encrypted_comment_recipient (request : EncryptedCommentRecipientRequest)
  : attempt bytes :=
  match recipient_key_hint (ecr_recipient_public_key request) with
  | Err error => fthrow error
  | Ok hint =>
      await! reserved := locked (start_resolve_comment_recipient (ecr_recipient request) hint) in
      resolve_recipient_reserved reserved
  end.
End RecipientKeys.

(** *** Key history *)

Section History.
Context `{SerdeJson} `{BigUintText} `{TonAddressText} `{Base64Engine}.
Context `{HexCrate} `{Crc16} `{!UrlSafeBase64} `{TonAddressParser}.

(** The cached history, when it reaches the current key. *)
Definition cached_key_changes (current_public_key : bytes) : section (option (list KeyChange)) :=
  let! state := mget in
  mret (match st_key_changes state with
        | Some changes => if history_reaches changes current_public_key then Some changes else None
        | None => None
        end).

(** The loop over the pages, with [pages] turns left. *)
Fixpoint key_change_pages (pages : nat) (generation offset : N) (changes : list KeyChange)
  : attempt (list KeyChange) :=
  match pages with
  | 0 => fok changes
  | S pages =>
      await! built := or_release generation (locked (key_history_request generation offset)) in
      await! page :=
        slot_answer generation built.1 (fun body => parse_key_change_page body built.2)
          fail_encrypted_comment_lookup in
      let offset := saturating_add usize_max offset (kcp_raw_count page) in
      let changes := changes ++ kcp_changes page in
      if has_more page then key_change_pages pages generation offset changes else fok changes
  end.

Definition key_change_history (generation : N) (current_public_key : bytes)
  : attempt (list KeyChange) :=
  await! cached := locked (cached_key_changes current_public_key) in
  match cached with
  | Some changes => fok changes
  | None =>
      await! changes := key_change_pages MAX_KEY_CHANGE_PAGES generation 0 [] in
      run! locked (cache_key_changes generation changes);
      fok changes
  end.
End History.

(** *** Encryption and decryption *)

Section Comments.
Context `{SerdeJson} `{BigUintText} `{BigUintHex} `{Sha256} `{AesBlocks} `{WalletCodes}.
Context `{Curve25519} `{TonAddressText}.

(** The errors of the cipher; an invalid phrase finishes the operation. *)
Definition comment_failure (generation : N) (error : EncryptedCommentError)
  : State -> State * WalletClientError :=
  match error with
  | Comment_InvalidMnemonic => finish_invalid_protected_secret generation
  | _ => fail_encrypted_comment generation (comment_error_text error)
  end.

Definition create_encrypted_comment_reserved (random : nat -> option bytes)
    (request : CreateEncryptedCommentRequest)
    (reserved : N * WalletClientConfig * RecipientKeyLookup * ProtectedSecretRead) : attempt Boc :=
  let '(generation, config, lookup, secret_request) := reserved in
  await! recipient_public_key := resolve_recipient_public_key generation lookup in
  await! secret := slot_secret generation secret_request fail_encrypted_comment in
  await! body :=
    or_fail (encrypt_comment random secret (cfg_network config) (cfg_address config)
               recipient_public_key (cec_comment request))
      (comment_failure generation) in
  run! locked (complete_resolution generation);
  fok body.

Definition create_encrypted_comment (random : nat -> option bytes)
    (request : CreateEncryptedCommentRequest) : attempt Boc :=
  if (MAX_ENCRYPTED_COMMENT_BYTES <? length (utf8 (cec_comment request)))%nat
  then fthrow (encrypted_comment_error (lit "the encrypted comment exceeds 960 UTF-8 bytes"))
  else
    match recipient_key_hint (cec_recipient_public_key request) with
    | Err error => fthrow error
    | Ok hint =>
        await! reserved := locked (start_create_encrypted_comment (cec_recipient request) hint) in
        create_encrypted_comment_reserved random request reserved
    end.

Context `{Base64Engine} `{Crc16} `{!UrlSafeBase64} `{TonAddressParser}.

(** Decryption with earlier signing keys, which the public history gives back. *)
Definition decrypt_with_history (request : DecryptCommentRequest) (generation : N)
    (keys : RotationKeys) : attempt rstr :=
  let anchor_public_key := public_key (rk_anchor keys) in
  let signing_public_key := public_key (rk_signing keys) in
  await! changes := key_change_history generation signing_public_key in
  if negb (history_reaches changes signing_public_key)
  then fail_with (fail_encrypted_comment_lookup generation
         (lit "the provider's key-change history does not include the current signing key yet"))
  else
    let earlier_keys := recover_signing_keys anchor_public_key (rk_signing keys) changes in
    await! comment :=
      or_fail (decrypt_comment_with_keys earlier_keys (dcr_sender request) (dcr_body request))
        (fun error => fail_encrypted_comment generation (comment_error_text error)) in
    run! locked (complete_resolution generation);
    fok comment.

(** The keys that the phrase holds. *)
Definition own_keys (keys : RotationKeys) (rotated : bool) : list SigningKey :=
  rk_signing keys :: if rotated then [rk_anchor keys] else [].

Definition decrypt_comment_reserved (request : DecryptCommentRequest)
    (reserved : N * WalletClientConfig * ProtectedSecretRead) : attempt rstr :=
  let '(generation, config, secret_request) := reserved in
  await! secret := slot_secret generation secret_request fail_encrypted_comment in
  await! keys :=
    or_fail (comment_keys secret (cfg_network config) (cfg_address config))
      (comment_failure generation) in
  let rotated := negb (bool_decide (public_key (rk_anchor keys) = public_key (rk_signing keys))) in
  match decrypt_comment_with_keys (own_keys keys rotated) (dcr_sender request) (dcr_body request) with
  | Ok comment =>
      run! locked (complete_resolution generation);
      fok comment
  | Err error =>
      if rotated && is_key_mismatch error then decrypt_with_history request generation keys
      else fail_with (fail_encrypted_comment generation (comment_error_text error))
  end.

Definition decrypt_comment (request : DecryptCommentRequest) : attempt rstr :=
  match validate_encrypted_comment_body (dcr_body request) with
  | Err error => fthrow (encrypted_comment_error (comment_error_text error))
  | Ok _ =>
      await! reserved := locked start_decrypt_comment in
      decrypt_comment_reserved request reserved
  end.
End Comments.
End Slot.
