(* ===== verification/Preview.v ===== *)
(** * Previews

    src/engine/preview.rs: the operations that run a message without reading a secret or
    the journal, as futures over the preview slot. *)

From stdpp Require Import base numbers list option strings gmap.
From S2P Require Import Prelude BoundaryTypes SendDomain SendWorkflow Base64 ClientDomain Json.
From S2P Require Import ProviderRequest ProviderAnswers ClientState ClientCalls Futures Resolution.
From S2P Require Import SendEngine ConnectValues Addresses ConnectSigning ConnectWalletState CellBoc.
From S2P Require Import WordList Mnemonic WalletContract WalletKeys Transfer EmulationAnswers.

(** ** Requests and results ([src/domain/send.rs]) *)

Record SendPreviewRequest := mkSendPreviewRequest { spr_intent : SendIntent }.

Record SendPreview := mkSendPreview {
  sp_messages : list SendMessage;
  sp_valid_until : N;
  sp_message_boc_base64 : Boc;
  sp_emulation : SendEmulation;
}.

Record SignMessagePreview := mkSignMessagePreview {
  smp_messages : list SendMessage;
  smp_valid_until : N;
  smp_needs_state_init : bool;
}.

Module Preview.

(** ** Errors *)

Definition preview_error (generation : N) (error : WalletClientError)
  : State -> State * WalletClientError :=
  or_own_error (finish_preview generation) error.

(** [preview_error] with a bounded [SendPreviewFailed]. *)
Definition preview_failed (generation : N) (message : rstr) : State -> State * WalletClientError :=
  preview_error generation (SendPreviewFailed (bounded_diagnostic message)).

(** ** Shared steps *)

Definition execute_tracked_preview_request (generation : N) (request : HttpRequest)
  : attempt (result DomainError bytes) :=
  run! locked (start_preview_request generation (hr_id request));
  host! answer := execute request in
  run! locked (finish_preview_request generation (hr_id request));
  fok answer.

Definition preview_answer {A} (generation : N) (request : HttpRequest)
    (parse : bytes -> result DomainError A) : attempt A :=
  await! answer := execute_tracked_preview_request generation request in
  or_fail (rbind answer parse)
    (fun error => preview_failed generation (de_developer_message error)).

Section Previews.
Context `{SerdeJson} `{BigUintText} `{Base64Engine} `{Sha256} `{Sha512} `{Ed25519Keys} `{TonMessages}.
Context `{Crc16} `{!UrlSafeBase64} `{TonAddressParser} `{HashIteration} `{ParseErrors}.

(** The sequence number: from the contract, zero before it is deployed. *)
Definition preview_seqno (generation : N) (seqno_request : HttpRequest) (account : AccountSnapshot)
  : attempt N :=
  match as_status account with
  | Account_Active => preview_answer generation seqno_request parse_seqno
  | Account_Nonexistent | Account_Uninitialized => fok 0%N
  | Account_Frozen | Account_Unknown =>
      fail_with (preview_error generation (SendAccountUnavailable (as_status account)))
  end.

Definition preview_expiration (generation : N) (expiration : SendExpiration)
    (account : AccountSnapshot) (config : WalletClientConfig) : attempt N :=
  or_fail (resolve_send_expiration expiration (as_sync_utime account) (cfg_send_validity_seconds config))
    (fun error => preview_error generation (SendPreviewFailed (expiration_error_text error))).

Definition emulation_error (error : DomainError) : WalletClientError :=
  let diagnostic := bounded_diagnostic (de_developer_message error) in
  if is_message_not_accepted error then EmulationMessageNotAccepted diagnostic
  else EmulationFailed diagnostic.

Definition emulation_rejected (evaluated : EvaluatedEmulation) : WalletClientError :=
  EmulationRejected (lit "emulated transfer did not complete successfully")
    (ev_compute_exit_code evaluated) (ev_action_result_code evaluated).

Definition emulate_preview_boc (generation : N) (config : WalletClientConfig)
    (expected_source : TonAddressString) (emulation_request_id : HttpRequestId) (boc : Boc)
  : attempt SendEmulation :=
  await! emulation_request :=
    or_fail (build_emulation_request config emulation_request_id boc)
      (fun error => preview_failed generation (client_error_text error)) in
  await! answer := execute_tracked_preview_request generation emulation_request in
  await! evaluated :=
    or_fail (rbind answer (fun body => parse_emulation body expected_source))
      (fun error => preview_error generation (emulation_error error)) in
  if negb (ev_wallet_succeeded evaluated)
  then fail_with (preview_error generation (emulation_rejected evaluated))
  else fok (ev_summary evaluated).

(** ** [preview_send] *)

(** The exact total does not exceed the balance. *)
Definition preview_balance (generation : N) (requested : option UnsignedDecimalString)
    (available : UnsignedDecimalString) : attempt unit :=
  match requested with
  | None => fok tt
  | Some nanograms =>
      if (uds_value available <? uds_value nanograms)%N
      then fail_with (preview_error generation (InsufficientBalance available nanograms))
      else fok tt
  end.

(** An exact total leaves a positive remainder after the fee. *)
Definition preview_balance_for_fees (generation : N) (requested : option UnsignedDecimalString)
    (available fee : UnsignedDecimalString) : attempt unit :=
  match requested with
  | None => fok tt
  | Some nanograms =>
      if (uds_value available <=? uds_value nanograms + uds_value fee)%N
      then fail_with (preview_error generation (InsufficientBalanceForFees available nanograms fee))
      else fok tt
  end.

(** The rest of [preview_send] after its reservation. *)
Definition preview_send_reserved (request : SendPreviewRequest) (reserved : PreviewReservation)
  : attempt SendPreview :=
  let generation := pv_generation reserved in
  let config := pv_config reserved in
  let expected_source := cfg_address config in
  await! account := preview_answer generation (pv_account_request reserved) parse_account in
  let available := as_balance_nanograms account in
  await! requested :=
    or_fail (exact_value_total (spr_intent request))
      (fun _ => preview_error generation InvalidSendRequest) in
  run! preview_balance generation requested available;
  await! seqno := preview_seqno generation (pv_seqno_request reserved) account in
  await! valid_until :=
    preview_expiration generation (si_expiration (spr_intent request)) account config in
  let fresh := mkFreshSendAccount (as_status account) seqno in
  await! boc :=
    or_fail (Signer.prepare_transfer_emulation expected_source (cfg_public_key config)
               (cfg_network config) (spr_intent request) fresh valid_until)
      (fun error => preview_failed generation
         (lit "failed to prepare preview: " ++ transfer_error_text error)) in
  await! emulation :=
    emulate_preview_boc generation config expected_source (pv_emulation_request_id reserved) boc in
  run! preview_balance_for_fees generation requested available (em_wallet_fees_nanograms emulation);
  run! locked (finish_preview generation);
  fok (mkSendPreview (si_messages (spr_intent request)) valid_until boc emulation).

Definition preview_send (request : SendPreviewRequest) : attempt SendPreview :=
  await! reserved := locked start_preview in
  preview_send_reserved request reserved.

(** ** [preview_send_boc] *)

Definition preview_send_boc_reserved (request : SendBocRequest) (reserved : PreviewReservation)
  : attempt SendPreview :=
  let generation := pv_generation reserved in
  let config := pv_config reserved in
  let expected_source := cfg_address config in
  await! prepared :=
    or_fail (Signer.prepare_signed_boc (cfg_record_id config) expected_source request)
      (fun error => preview_failed generation
         (lit "invalid prepared BOC: " ++ transfer_error_text error)) in
  await! account := preview_answer generation (pv_account_request reserved) parse_account in
  await! seqno := preview_seqno generation (pv_seqno_request reserved) account in
  if negb (seqno =? sb_seqno request)%N
  then fail_with (preview_error generation (SendPreviewFailed
         (lit "prepared BOC seqno " ++ u64_to_string (sb_seqno request)
          ++ lit " does not match current wallet seqno " ++ u64_to_string seqno)))
  else
    await! valid_until :=
      preview_expiration generation (Expiration_Exact (sb_valid_until request)) account config in
    await! emulation :=
      emulate_preview_boc generation config expected_source (pv_emulation_request_id reserved)
        (pt_signed_boc prepared) in
    run! locked (finish_preview generation);
    fok (mkSendPreview (pt_messages prepared) valid_until (pt_signed_boc prepared) emulation).

Definition preview_send_boc (request : SendBocRequest) : attempt SendPreview :=
  await! reserved := locked start_preview in
  preview_send_boc_reserved request reserved.

(** ** [preview_ton_connect] *)

Definition preview_ton_connect (request : SendRequest) : attempt SendPreview :=
  preview_send (mkSendPreviewRequest (sr_intent request)).

(** ** [preview_sign_message] *)

Definition preview_sign_message_reserved (request : SendPreviewRequest)
    (reserved : N * WalletClientConfig * HttpRequest) : attempt SignMessagePreview :=
  let '(generation, config, account_request) := reserved in
  run! or_fail (exact_value_total (spr_intent request))
         (fun _ => preview_error generation InvalidSendRequest);
  await! account := preview_answer generation account_request parse_account in
  match as_status account with
  | Account_Frozen | Account_Unknown =>
      fail_with (preview_error generation (SendAccountUnavailable (as_status account)))
  | _ =>
      await! valid_until :=
        preview_expiration generation (si_expiration (spr_intent request)) account config in
      run! locked (finish_preview generation);
      fok (mkSignMessagePreview (si_messages (spr_intent request)) valid_until
             (negb (bool_decide (as_status account = Account_Active))))
  end.

Definition preview_sign_message (request : SendPreviewRequest) : attempt SignMessagePreview :=
  await! reserved := locked start_preview_sign_message in
  preview_sign_message_reserved request reserved.
End Previews.
End Preview.
