(* ===== verification/SlotRelease.v ===== *)
(** * The resolution slot is always released

    A weakest precondition for the state of the client along a future, with any steps of
    other operations in between, and its use: whichever way an operation of the resolution
    slot ends, its generation does not hold the slot any more. *)

From stdpp Require Import base numbers list option strings gmap relations.
From S2P Require Import Prelude BoundaryTypes SendDomain SendWorkflow Base64 ClientDomain Json.
From S2P Require Import ProviderRequest ProviderAnswers ClientState ClientCalls ClientSections.
From S2P Require Import ClientInvariant Futures Resolution SendEngine SendRuns ConnectValues Addresses.
From S2P Require Import ConnectSigning ConnectWalletState CellBoc WordList Mnemonic WalletContract.
From S2P Require Import WalletKeys Transfer KeyRotation Lifecycle EncryptedComment RecipientKey.
From S2P Require Import LookupAnswers SlotOperations.

Section Preconditions.
Context `{JournalCodec} `{SerdeJson} `{BigUintText} `{TonAddressText}.

(** ** States along a future *)

(** From [s], whatever the host answers and other operations do, a result [a] in state
    [s'] satisfies [Q a s']. *)
Fixpoint wp {A} (f : future A) (Q : A -> State -> Prop) (s : State) : Prop :=
  match f with
  | Done a => forall s', rtc client_step s s' -> Q a s'
  | Locked critical next =>
      forall s', rtc client_step s s' -> wp (next (critical s').2) Q (critical s').1
  | Execute _ next => forall answer, wp (next answer) Q s
  | Load _ next => forall answer, wp (next answer) Q s
  | CompareExchange _ next => forall answer, wp (next answer) Q s
  | ReadSecret _ next => forall answer, wp (next answer) Q s
  end.

Lemma wp_steps {A} (f : future A) Q s s' : rtc client_step s s' -> wp f Q s -> wp f Q s'.
Proof.
  revert s s'. induction f; intros s s' Hs Hf; simpl in *; [| |by eauto..].
  all: intros s'' Hs''; apply Hf; by etrans.
Qed.

Lemma wp_sound {A} (f f' : future A) Q s events s' :
  runs f s events s' f' -> wp f Q s -> wp f' Q s'.
Proof.
  induction 1 as [f s|f s s1 events s' f' Hstep _ IH|B critical next s events s' f' _ IH
    |r next answer s events s' f' _ IH|key next answer s events s' f' _ IH
    |m next answer s events s' f' _ IH|r next answer s events s' f' _ IH]; intros Hf; [done| |..].
  - apply IH, (wp_steps _ _ s); [by apply rtc_once|done].
  - by apply IH, Hf.
  - apply IH, Hf.
  - apply IH, Hf.
  - apply IH, Hf.
  - apply IH, Hf.
Qed.

Lemma wp_result {A} (f : future A) Q s events s' a :
  runs f s events s' (Done a) -> wp f Q s -> Q a s'.
Proof. intros Hrun Hf. by apply (wp_sound _ _ _ _ _ _ Hrun Hf). Qed.

Lemma wp_bind {A B} (f : future A) (k : A -> future B) Q s :
  wp f (fun a => wp (k a) Q) s -> wp (fbind f k) Q s.
Proof.
  revert s. induction f as [a| | | | |]; intros s Hf; simpl in *; [by apply Hf|by eauto..].
Qed.

Lemma wp_mono {A} (f : future A) (Q Q' : A -> State -> Prop) s :
  wp f Q s -> (forall a s', Q a s' -> Q' a s') -> wp f Q' s.
Proof.
  intros Hf Hq. revert s Hf. induction f; intros s Hf; simpl in *; [|by eauto..].
  intros s' Hs. by apply Hq, Hf.
Qed.

(** ** Endings

    [Held] is what an operation keeps while it runs and [Free] what it leaves behind; other
    operations keep both. *)

Section Endings.
Context (Held Free : State -> Prop).
Context (Held_steps : forall s s', rtc client_step s s' -> Held s -> Held s').
Context (Free_steps : forall s s', rtc client_step s s' -> Held s -> Free s -> Free s').

(** An error leaves the slot free. *)
Definition fails_free {A} (f : attempt A) : Prop :=
  forall s, Held s ->
    wp f (fun r s' => Held s' /\ match r with Ok _ => True | Err _ => Free s' end) s.

(** Every result leaves the slot free. *)
Definition ends_free {A} (f : attempt A) : Prop :=
  forall s, Held s -> wp f (fun _ s' => Held s' /\ Free s') s.

Lemma ends_fails {A} (f : attempt A) : ends_free f -> fails_free f.
Proof. intros Hf s Hs. eapply wp_mono; [by apply Hf|]. intros [a|e] s' [Hh Hc]; by split. Qed.

Lemma done_ending {A} (r : result WalletClientError A) s (Q : result WalletClientError A -> State -> Prop) :
  Held s -> (forall s', rtc client_step s s' -> Held s' -> Q r s') -> wp (Done r) Q s.
Proof. intros Hh Hq s' Hs. apply Hq; [done|]. by apply (Held_steps s). Qed.

Lemma fails_fok {A} (a : A) : fails_free (fok a).
Proof. intros s Hs. apply done_ending; [done|]. intros s' _ Hh. by split. Qed.

Lemma throw_ending {A} e s :
  Held s -> Free s -> wp (fthrow (A := A) e) (fun _ s' => Held s' /\ Free s') s.
Proof.
  intros Hh Hc. apply done_ending; [done|]. intros s' Hs Hh'. split; [done|]. by apply (Free_steps s).
Qed.

Lemma throw_fails {A} e s :
  Held s -> Free s ->
  wp (fthrow (A := A) e)
    (fun r s' => Held s' /\ match r with Ok _ => True | Err _ => Free s' end) s.
Proof.
  intros Hh Hc. eapply wp_mono; [by apply throw_ending|]. intros [a|e'] s' [Hh' Hc']; by split.
Qed.

Lemma fails_abind {A B} (f : attempt A) (k : A -> attempt B) :
  fails_free f -> (forall a, fails_free (k a)) -> fails_free (abind f k).
Proof.
  intros Hf Hk s Hs. apply wp_bind. eapply wp_mono; [by apply Hf|].
  intros [a|e] s' [Hh Hc]; [by apply Hk|by apply throw_fails].
Qed.

Lemma ends_abind {A B} (f : attempt A) (k : A -> attempt B) :
  fails_free f -> (forall a, ends_free (k a)) -> ends_free (abind f k).
Proof.
  intros Hf Hk s Hs. apply wp_bind. eapply wp_mono; [by apply Hf|].
  intros [a|e] s' [Hh Hc]; [by apply Hk|]. by apply throw_ending.
Qed.

Lemma fails_or_fail {A E} (r : result E A) critical :
  (forall e, ends_free (fail_with (A := A) (critical e))) -> fails_free (or_fail r critical).
Proof. intros He. destruct r as [a|e]; [apply fails_fok|apply ends_fails, He]. Qed.

Lemma fails_execute {A} request (k : result DomainError bytes -> attempt A) :
  (forall answer, fails_free (k answer)) -> fails_free (fbind (execute request) k).
Proof. intros Hk s Hs answer. by apply Hk. Qed.
End Endings.

(** ** Holding the slot *)

(** A generation [g] of a family was started, and the identifiers [ids] were allocated. *)
Definition started (family : OperationFamily) (g : N) (ids : list HttpRequestId) (s : State) : Prop :=
  client_inv s /\ (g <= generation family s)%N /\
  Forall (fun id => rid_value id < st_next_id s)%N ids.

Lemma started_call family g ids call s :
  allocated call s -> started family g ids s -> started family g ids (run_client call s).
Proof.
  intros Hal (Hi & Hg & Hids). destruct (run_client_good call s Hal Hi) as [Hi' Hch].
  split; [done|]. pose proof (cc_generation _ _ Hch family). pose proof (cc_ids _ _ Hch).
  split; [lia|]. eapply Forall_impl; [exact Hids|]. simpl. lia.
Qed.

Lemma started_steps family g ids s s' :
  rtc client_step s s' -> started family g ids s -> started family g ids s'.
Proof.
  induction 1 as [|s s1 s' (call & Hal & ->) _ IH]; [done|]. intros Hh. by apply IH, started_call.
Qed.

Definition held : N -> list HttpRequestId -> State -> Prop := started Resolution.

Definition stale (g : N) (s : State) : Prop := is_current Resolution g s = false.

Lemma held_call g ids call s : allocated call s -> held g ids s -> held g ids (run_client call s).
Proof. apply started_call. Qed.

Lemma held_steps g ids s s' : rtc client_step s s' -> held g ids s -> held g ids s'.
Proof. apply started_steps. Qed.

Lemma stale_steps g ids s s' : rtc client_step s s' -> held g ids s -> stale g s -> stale g s'.
Proof. intros Hs (Hi & Hg & _) Hc. by apply (stale_forever _ _ s). Qed.

(** An error means that the slot is free. *)
Definition frees {A} (g : N) (ids : list HttpRequestId) : attempt A -> Prop :=
  fails_free (held g ids) (stale g).

(** Every result means that the slot is free. *)
Definition finishes {A} (g : N) (ids : list HttpRequestId) : attempt A -> Prop :=
  ends_free (held g ids) (stale g).

Lemma finishes_frees {A} g ids (f : attempt A) : finishes g ids f -> frees g ids f.
Proof. apply ends_fails. Qed.

Lemma wp_done {A} g ids (r : result WalletClientError A) s (Q : result WalletClientError A -> State -> Prop) :
  held g ids s -> (forall s', rtc client_step s s' -> held g ids s' -> Q r s') -> wp (Done r) Q s.
Proof. apply done_ending, held_steps. Qed.

Lemma frees_fok {A} g ids (a : A) : frees g ids (fok a).
Proof. apply fails_fok, held_steps. Qed.

Lemma finishes_throw {A} g ids e s :
  held g ids s -> stale g s -> wp (fthrow (A := A) e) (fun _ s' => held g ids s' /\ stale g s') s.
Proof. apply throw_ending; [apply held_steps|apply stale_steps]. Qed.

Lemma frees_throw {A} g ids e s :
  held g ids s -> stale g s ->
  wp (fthrow (A := A) e)
    (fun r s' => held g ids s' /\ match r with Ok _ => True | Err _ => stale g s' end) s.
Proof. apply throw_fails; [apply held_steps|apply stale_steps]. Qed.

Lemma frees_abind {A B} g ids (f : attempt A) (k : A -> attempt B) :
  frees g ids f -> (forall a, frees g ids (k a)) -> frees g ids (abind f k).
Proof. apply fails_abind; [apply held_steps|apply stale_steps]. Qed.

Lemma finishes_abind {A B} g ids (f : attempt A) (k : A -> attempt B) :
  frees g ids f -> (forall a, finishes g ids (k a)) -> finishes g ids (abind f k).
Proof. apply ends_abind; [apply held_steps|apply stale_steps]. Qed.

(** A section whose error means that the generation is not current. *)
Lemma frees_locked {A} g ids (m : section A) call :
  (forall s, after m s = run_client call s) -> (forall s, held g ids s -> allocated call s) ->
  (forall s e, (m s).2 = Err e -> stale g s) -> owner call = Some (Resolution, g) ->
  frees g ids (locked m).
Proof.
  intros Hm Hal He Ho s Hs s' Hsteps.
  pose proof (held_steps _ _ _ _ Hsteps Hs) as Hh.
  pose proof (held_call _ _ _ _ (Hal _ Hh) Hh) as Hh'. rewrite <- Hm in Hh'.
  apply (wp_done g ids); [done|]. intros s'' Hs'' Hh''. split; [done|].
  destruct (m s').2 as [a|e] eqn:E; [done|]. apply (stale_steps g ids (m s').1); [done..|].
  specialize (He _ _ E). pose proof (stale_no_effect _ _ _ _ Ho He) as Hno. rewrite <- Hm in Hno.
  unfold after in Hno. by rewrite Hno.
Qed.

(** A section that leaves the generation without the slot, and returns an error. *)
Lemma finishes_fail {A} g ids (critical : State -> State * WalletClientError) call :
  (forall s, (critical s).1 = run_client call s) -> (forall s, held g ids s -> allocated call s) ->
  (forall s, stale g (critical s).1) -> finishes g ids (fail_with (A := A) critical).
Proof.
  intros Hm Hal Hc s Hs s' Hsteps. pose proof (held_steps _ _ _ _ Hsteps Hs) as Hh.
  pose proof (held_call _ _ _ _ (Hal _ Hh) Hh) as Hh'. rewrite <- Hm in Hh'.
  by apply finishes_throw.
Qed.

(** A section whose error, and whose result, mean that the generation is not current. *)
Lemma finishes_locked {A} g ids (m : section A) call :
  (forall s, after m s = run_client call s) -> (forall s, held g ids s -> allocated call s) ->
  (forall s, stale g (after m s)) -> finishes g ids (locked m).
Proof.
  intros Hm Hal Hc s Hs s' Hsteps. pose proof (held_steps _ _ _ _ Hsteps Hs) as Hh.
  pose proof (held_call _ _ _ _ (Hal _ Hh) Hh) as Hh'. rewrite <- Hm in Hh'.
  apply (wp_done g ids); [done|]. intros s'' Hs'' Hh''. split; [done|].
  apply (stale_steps g ids (m s').1); [done..|apply Hc].
Qed.
End Preconditions.

(** ** The sections of the slot *)

Create HintDb slot.

Section Rules.
Context `{JournalCodec} `{SerdeJson} `{BigUintText} `{TonAddressText}.

Lemma discard_stale g s : stale g (discard_resolution g s).1.
Proof.
  unfold stale, discard_resolution, mbind', mget.
  destruct (is_current Resolution g s) eqn:E; [done|exact E].
Qed.

Lemma complete_stale g s : stale g (complete_resolution g s).1.
Proof.
  unfold stale, complete_resolution, mbind', mget.
  destruct (is_current Resolution g s) eqn:E; [done|exact E].
Qed.

Lemma complete_standalone_stale g snapshot s :
  stale g (complete_standalone_resolution g snapshot s).1.
Proof.
  unfold stale, complete_standalone_resolution, mbind', mget.
  destruct (is_current Resolution g s) eqn:E; [|exact E]. cbn [negb mupdate].
  destruct snapshot as [snapshot|]; [|done]. destruct (bool_decide _); [done|].
  unfold next_revision, mbind', mget, mlift. by destruct (checked_add _ _ _).
Qed.

Lemma own_error_state m e s : (or_own_error m e s).1 = (m s).1.
Proof. unfold or_own_error. by destruct (m s) as [s' [[]|own]]. Qed.

Lemma wp_released {A} g ids e s :
  held g ids s ->
  wp (fail_with (A := A) (Slot.released g e)) (fun r s' => r = Err e /\ held g ids s' /\ stale g s') s.
Proof.
  intros Hs s' Hsteps. pose proof (held_steps _ _ _ _ Hsteps Hs) as Hh.
  pose proof (held_call g ids (Do_discard_resolution g) s' I Hh) as Hh'.
  apply (wp_done g ids); [done|]. intros s'' Hs'' Hh''. split; [done|]. split; [done|].
  apply (stale_steps g ids _ _ Hs''); [done|apply discard_stale].
Qed.

Lemma finishes_released {A} g ids e : finishes g ids (fail_with (A := A) (Slot.released g e)).
Proof. intros s Hs. eapply wp_mono; [by apply wp_released|]. by intros r s' [_ Hr]. Qed.

Lemma finishes_invalid_secret {A} g ids :
  finishes g ids (fail_with (A := A) (Slot.finish_invalid_protected_secret g)).
Proof.
  apply (finishes_fail _ _ _ (Do_complete_resolution g)); [|done|].
  - intros s. apply own_error_state.
  - intros s. unfold Slot.finish_invalid_protected_secret. rewrite own_error_state. apply complete_stale.
Qed.

Lemma finishes_complete {A} g ids (a : A) :
  finishes g ids (run! locked (complete_resolution g); fok a).
Proof.
  intros s Hs s' Hsteps. cbn beta. pose proof (held_steps _ _ _ _ Hsteps Hs) as Hh.
  pose proof (held_call g ids (Do_complete_resolution g) s' I Hh) as Hh'.
  pose proof (complete_stale g s') as Hc. unfold run_client, after in Hh'.
  destruct (complete_resolution g s') as [s1 [[]|e]]; cbn [fst snd] in *.
  all: apply (wp_done g ids); [done|]; intros s'' Hs'' Hh''; (split; [done|]);
    by apply (stale_steps g ids s1).
Qed.

Lemma finishes_complete_standalone g ids snapshot :
  finishes g ids (locked (complete_standalone_resolution g snapshot)).
Proof.
  apply (finishes_locked _ _ _ (Do_complete_standalone_resolution g snapshot)); [done|done|].
  intros s. apply complete_standalone_stale.
Qed.

Lemma frees_or_fail {A E} g ids (r : result E A) critical :
  (forall e, finishes g ids (fail_with (A := A) (critical e))) -> frees g ids (or_fail r critical).
Proof. apply fails_or_fail, held_steps. Qed.

Lemma frees_ensure g ids : frees g ids (locked (ensure_resolution_current g)).
Proof.
  apply (frees_locked _ _ _ (Do_ensure_resolution_current g)); [done|done| |done].
  intros s e. unfold stale, ensure_resolution_current, mbind', mget.
  by destruct (is_current Resolution g s) eqn:E.
Qed.

Lemma frees_cache g ids changes : frees g ids (locked (cache_key_changes g changes)).
Proof.
  apply (frees_locked _ _ _ (Do_cache_key_changes g changes)); [done|done| |done].
  intros s e. unfold stale, cache_key_changes, mbind', mget.
  by destruct (is_current Resolution g s) eqn:E.
Qed.

Lemma frees_start_request g ids id : id ∈ ids -> frees g ids (locked (start_resolution_request g id)).
Proof.
  intros Hid. apply (frees_locked _ _ _ (Do_start_resolution_request g id)); [done| | |done].
  - intros s (_ & _ & Hids). by apply (proj1 (Forall_forall _ _) Hids).
  - intros s e. unfold stale, start_resolution_request, mbind', mget, is_current, is_generation.
    destruct (st_active_resolution s) as [[g' rs]|]; [|done]. by destruct (g' =? g)%N.
Qed.

Lemma frees_finish_request g ids id : frees g ids (locked (finish_resolution_request g id)).
Proof.
  apply (frees_locked _ _ _ (Do_finish_resolution_request g id)); [done|done| |done].
  intros s e. unfold stale, finish_resolution_request, mbind', mget, is_current, is_generation.
  destruct (st_active_resolution s) as [[g' rs]|]; [|done]. by destruct (g' =? g)%N.
Qed.

Lemma frees_execute_host {A} g ids request (k : result DomainError bytes -> attempt A) :
  (forall answer, frees g ids (k answer)) -> frees g ids (fbind (execute request) k).
Proof. apply fails_execute. Qed.

Lemma frees_exchange_host {A} g ids m (k : result rstr JournalCompareExchangeResult -> attempt A) :
  (forall answer, frees g ids (k answer)) -> frees g ids (fbind (compare_exchange_journal m) k).
Proof. intros Hk s Hs answer. by apply Hk. Qed.

Lemma frees_secret_host {A} g ids request (k : result rstr bytes -> attempt A) :
  (forall answer, frees g ids (k answer)) -> frees g ids (fbind (read_protected_secret request) k).
Proof. intros Hk s Hs answer. by apply Hk. Qed.

Lemma finishes_load_host {A} g ids key (k : result rstr (option JournalRecord) -> attempt A) :
  (forall answer, finishes g ids (k answer)) -> finishes g ids (fbind (load_journal key) k).
Proof. intros Hk s Hs answer. by apply Hk. Qed.

Lemma frees_or_release {A} g ids (f : attempt A) :
  frees g ids f -> frees g ids (Slot.or_release g f).
Proof.
  intros Hf s Hs. apply wp_bind. eapply wp_mono; [by apply Hf|].
  intros [a|e] s' [Hh Hc]; [by apply frees_fok|]. by apply finishes_frees; [apply finishes_released|].
Qed.
End Rules.

#[export] Hint Resolve frees_fok frees_ensure frees_cache frees_finish_request : slot.
#[export] Hint Resolve finishes_released finishes_invalid_secret finishes_complete
  finishes_complete_standalone : slot.

(** One rule for each shape of the program. *)
Ltac slot_step :=
  first
    [ solve [eauto with slot]
    | apply finishes_abind | apply frees_abind
    | apply frees_or_fail; intros ?
    | apply frees_execute_host; intros ? | apply frees_exchange_host; intros ?
    | apply frees_secret_host; intros ? | apply finishes_load_host; intros ?
    | apply frees_or_release
    | progress intros
    | match goal with |- _ _ _ (match ?x with _ => _ end) => destruct x end
    | apply finishes_frees ].

Ltac slot_auto := repeat slot_step.

Section Steps.
Context `{JournalCodec} `{SerdeJson} `{BigUintText} `{TonAddressText}.

Lemma frees_execute g ids request :
  hr_id request ∈ ids -> frees g ids (execute_resolution_request (Owner_Standalone g) request).
Proof. intros Hid. unfold execute_resolution_request. pose proof frees_start_request. slot_auto. Qed.

Lemma frees_slot_request g ids request fail :
  hr_id request ∈ ids -> (forall message, finishes g ids (fail_with (A := bytes) (fail g message))) ->
  frees g ids (Slot.slot_request g request fail).
Proof. intros Hid Hf. unfold Slot.slot_request. pose proof frees_execute. slot_auto. Qed.

Lemma frees_slot_answer {A} g ids request (parse : bytes -> result DomainError A) fail :
  hr_id request ∈ ids ->
  (forall B message, finishes g ids (fail_with (A := B) (fail g message))) ->
  frees g ids (Slot.slot_answer g request parse fail).
Proof. intros Hid Hf. unfold Slot.slot_answer. pose proof frees_slot_request. slot_auto. Qed.

Lemma frees_slot_secret g ids request fail :
  (forall message, finishes g ids (fail_with (A := bytes) (fail g message))) ->
  frees g ids (Slot.slot_secret g request fail).
Proof. intros Hf. unfold Slot.slot_secret. slot_auto. Qed.

Lemma frees_slot_seqno g ids request account unavailable fail :
  hr_id request ∈ ids ->
  (forall B message, finishes g ids (fail_with (A := B) (fail g message))) ->
  frees g ids (Slot.slot_seqno g request account unavailable fail).
Proof. intros Hid Hf. unfold Slot.slot_seqno. pose proof @frees_slot_answer. slot_auto. Qed.
End Steps.

#[export] Hint Resolve frees_execute frees_slot_request frees_slot_answer frees_slot_secret
  frees_slot_seqno : slot.

(** ** The operations *)

#[export] Hint Resolve list_elem_of_here list_elem_of_further : slot.

Section Preparation.
Context `{JournalCodec} `{SerdeJson} `{BigUintText} `{TonAddressText}.
Context `{Base64Engine} `{Sha256} `{Sha512} `{Ed25519Keys} `{TonMessages}.

Lemma prepare_transfer_finishes request requested g config account seqno secret :
  finishes g [hr_id account; hr_id seqno]
    (Slot.prepare_transfer_reserved request requested (g, config, account, seqno, secret)).
Proof. unfold Slot.prepare_transfer_reserved, Slot.enough_balance. slot_auto. Qed.

Lemma rotation_failure_finishes {A} g ids error :
  finishes g ids (fail_with (A := A) (Slot.rotation_failure g error)).
Proof. destruct error; apply finishes_released. Qed.
#[local] Hint Resolve rotation_failure_finishes : slot.

Lemma prepare_key_rotation_finishes random request g config account seqno secret :
  finishes g [hr_id account; hr_id seqno]
    (Slot.prepare_key_rotation_reserved random request (g, config, account, seqno, secret)).
Proof. unfold Slot.prepare_key_rotation_reserved. slot_auto. Qed.
End Preparation.

Section Lookups.
Context `{JournalCodec} `{SerdeJson} `{BigUintText} `{BigUintHex} `{Sha256} `{AesBlocks} `{WalletCodes}.
Context `{Curve25519} `{TonAddressText} `{Base64Engine} `{Crc16} `{!UrlSafeBase64} `{TonAddressParser}.

Lemma resolve_dns_finishes g network request :
  finishes g [hr_id request] (Slot.resolve_dns_reserved (g, network, request)).
Proof. unfold Slot.resolve_dns_reserved. slot_auto. Qed.

Lemma recipient_key_frees g lookup :
  frees g [hr_id (rk_account lookup); hr_id (rk_public_key lookup)]
    (Slot.resolve_recipient_public_key g lookup).
Proof. unfold Slot.resolve_recipient_public_key. slot_auto. Qed.
#[local] Hint Resolve recipient_key_frees : slot.

Lemma resolve_recipient_finishes g lookup :
  finishes g [hr_id (rk_account lookup); hr_id (rk_public_key lookup)]
    (Slot.resolve_recipient_reserved (g, lookup)).
Proof. unfold Slot.resolve_recipient_reserved. cbn [fst snd]. slot_auto. Qed.

Lemma comment_failure_finishes {A} g ids error :
  finishes g ids (fail_with (A := A) (Slot.comment_failure g error)).
Proof. destruct error; first [apply finishes_released|apply finishes_invalid_secret]. Qed.
#[local] Hint Resolve comment_failure_finishes : slot.

Lemma create_encrypted_comment_finishes random request g config lookup secret :
  finishes g [hr_id (rk_account lookup); hr_id (rk_public_key lookup)]
    (Slot.create_encrypted_comment_reserved random request (g, config, lookup, secret)).
Proof. unfold Slot.create_encrypted_comment_reserved. slot_auto. Qed.

(** The request of a history page, which allocates its identifier. *)
Lemma history_request_allocates g ids offset s :
  held g ids s ->
  wp (locked (key_history_request g offset)) (fun r s' =>
    match r with Ok built => held g (hr_id built.1 :: ids) s' | Err _ => held g ids s' end) s.
Proof.
  intros Hs s' Hsteps. pose proof (held_steps _ _ _ _ Hsteps Hs) as Hh.
  pose proof (held_call g ids (Do_key_history_request g offset) s' I Hh) as Hh'.
  unfold run_client, after in Hh'.
  destruct (key_history_request g offset s') as [s1 [built|e]] eqn:E; cbn [fst snd] in *.
  2: { apply (wp_done g ids); [done|]. by intros s2 _ Hh2. }
  apply (wp_done g (hr_id built.1 :: ids)); [|by intros s2 _ Hh2].
  destruct Hh' as (Hi & Hg & Hids). split; [done|]. split; [done|]. constructor; [|done].
  unfold key_history_request in E. unfold mbind' at 1, mget in E. destruct (negb _); [done|].
  apply section_bind_ok in E as (s2 & id & [Hid Hnext]%allocate_ok & E).
  apply section_bind_ok in E as (s3 & request & [-> Hb%built_v3_id]%section_lift_ok & E).
  unfold mret in E. simplify_eq/=. lia.
Qed.

Lemma history_built g ids offset s :
  held g ids s ->
  wp (Slot.or_release g (locked (key_history_request g offset))) (fun r s' =>
    match r with
    | Ok built => held g (hr_id built.1 :: ids) s'
    | Err _ => held g ids s' /\ stale g s'
    end) s.
Proof.
  intros Hs. apply wp_bind. eapply wp_mono; [by apply history_request_allocates|].
  intros [built|e] s' Hh; [by apply (wp_done g (hr_id built.1 :: ids))|].
  eapply wp_mono; [by apply wp_released|]. by intros r s'' [-> Hr].
Qed.

Lemma held_weaken g ids ids' s : ids ⊆ ids' -> held g ids' s -> held g ids s.
Proof.
  intros Hsub (Hi & Hg & Hids). split; [done|]. split; [done|]. rewrite Forall_forall in *. auto.
Qed.

Lemma frees_weaken {A} g ids id (f : attempt A) s :
  frees g (id :: ids) f -> held g (id :: ids) s ->
  wp f (fun r s' => held g ids s' /\ match r with Ok _ => True | Err _ => stale g s' end) s.
Proof.
  intros Hf Hs. eapply wp_mono; [by apply Hf|]. intros r s' [Hh Hr]. split; [|done].
  apply (held_weaken _ _ (id :: ids)); [|done]. intros x Hx. by right.
Qed.

Lemma key_change_pages_frees pages g ids offset changes :
  frees g ids (Slot.key_change_pages pages g offset changes).
Proof.
  revert offset changes. induction pages as [|pages IH]; intros offset changes; [apply frees_fok|].
  cbn [Slot.key_change_pages]. intros s Hs. apply wp_bind.
  eapply wp_mono; [by apply (history_built g ids)|]. intros [built|e] s' Hh.
  2: by destruct Hh as [Hh Hc]; apply frees_throw.
  cbn beta iota. apply wp_bind.
  eapply wp_mono; [apply (frees_weaken g ids (hr_id built.1)); [slot_auto|done]|].
  intros [page|e] s'' [Hh' Hc]; cbn beta iota.
  - destruct (has_more page); [by apply IH|by apply frees_fok].
  - by apply frees_throw.
Qed.

Lemma cached_frees g ids key : frees g ids (locked (Slot.cached_key_changes key)).
Proof.
  intros s Hs s' Hsteps. apply (wp_done g ids); [by apply (held_steps _ _ s)|]. intros s'' _ Hh. by split.
Qed.
#[local] Hint Resolve key_change_pages_frees cached_frees : slot.

Lemma key_change_history_frees g ids key : frees g ids (Slot.key_change_history g key).
Proof. unfold Slot.key_change_history. slot_auto. Qed.
#[local] Hint Resolve key_change_history_frees : slot.

Lemma decrypt_comment_finishes request g config secret :
  finishes g [] (Slot.decrypt_comment_reserved request (g, config, secret)).
Proof. unfold Slot.decrypt_comment_reserved, Slot.decrypt_with_history. cbn zeta. slot_auto. Qed.
End Lookups.

Section Resolving.
Context `{JournalCodec} `{SerdeJson} `{BigUintText} `{TonAddressText} `{Base64Engine}.

Lemma workflow_error_finishes {A} g ids error :
  finishes g ids (fail_with (A := A) (resolution_workflow_error (Owner_Standalone g) error)).
Proof. apply finishes_released. Qed.

Lemma failed_error_finishes {A} g ids message :
  finishes g ids (fail_with (A := A) (resolution_failed_error (Owner_Standalone g) message)).
Proof. apply finishes_released. Qed.
#[local] Hint Resolve workflow_error_finishes failed_error_finishes : slot.

Lemma persist_frees retries g ids pending resolution :
  frees g ids (persist_loop retries (Owner_Standalone g) pending resolution).
Proof.
  revert pending. induction retries as [|retries IH]; intros pending; cbn [persist_loop]; slot_auto.
Qed.

Lemma evidence_frees {A} g ids request (parse : bytes -> result DomainError A) :
  hr_id request ∈ ids -> frees g ids (evidence (Owner_Standalone g) request parse).
Proof. intros Hid. unfold evidence, developer_error. slot_auto. Qed.
#[local] Hint Resolve persist_frees evidence_frees : slot.

Lemma resolve_owner_frees g ids config pending time requests :
  Forall (fun request => hr_id request ∈ ids)
    [rr_executed requests; rr_pending requests; rr_wallet_state requests; rr_executed_recheck requests] ->
  frees g ids (resolve_pending_with_owner (Owner_Standalone g) config pending time requests).
Proof.
  rewrite !Forall_cons. intros (? & ? & ? & ? & _). unfold resolve_pending_with_owner, persist_send_resolution, still_pending. cbn zeta.
  slot_auto.
Qed.

Lemma finishes_or_fail {A B E} g ids (r : result E A) critical (k : A -> attempt B) :
  (forall e, finishes g ids (fail_with (A := B) (critical e))) ->
  (forall a, r = Ok a -> finishes g ids (k a)) -> finishes g ids (abind (or_fail r critical) k).
Proof. intros He Hk. destruct r as [a|e]; [by apply Hk|exact (He e)]. Qed.

Lemma resolve_pending_finishes g config key account ids :
  length ids = 4 -> finishes g (hr_id account :: ids) (resolve_pending_reserved (g, config, key, account, ids)).
Proof.
  intros Hlen. unfold resolve_pending_reserved, fail_standalone_resolution. cbn zeta.
  apply finishes_load_host. intros answer. apply finishes_abind; [slot_auto|]. intros [record|]; [|slot_auto].
  apply finishes_abind; [slot_auto|]. intros [pending|]; [|slot_auto].
  do 2 (apply finishes_abind; [slot_auto|]; intros ?).
  apply finishes_or_fail; [slot_auto|]. intros requests Hr.
  apply finishes_abind; [|slot_auto]. apply resolve_owner_frees, Forall_forall. intros request Hin. right.
  by apply (resolution_request_ids _ _ _ _ _ Hlen Hr).
Qed.
End Resolving.

(** ** From the reservation to the end *)

Section Released.
Context `{JournalCodec} `{SerdeJson} `{BigUintText} `{BigUintHex} `{Sha256} `{AesBlocks} `{TonMessages}.
Context `{!WalletCodes} `{Curve25519} `{TonAddressText} `{Base64Engine} `{Crc16} `{!UrlSafeBase64}.
Context `{TonAddressParser}.

(** [slot_operation s0 s g f]: an operation took the slot with generation [g] in a section
    from [s0] to [s], and [f] is what it still does. *)
Inductive slot_operation (s0 s : State) (g : N) : forall A, attempt A -> Prop :=
  | Op_resolve_pending config key account ids :
      start_resolve_pending s0 = (s, Ok (g, config, key, account, ids)) ->
      slot_operation s0 s g _ (resolve_pending_reserved (g, config, key, account, ids))
  | Op_prepare_transfer request requested config account seqno secret :
      start_prepare_transfer s0 = (s, Ok (g, config, account, seqno, secret)) ->
      slot_operation s0 s g _
        (Slot.prepare_transfer_reserved request requested (g, config, account, seqno, secret))
  | Op_prepare_key_rotation random request config account seqno secret :
      start_key_rotation s0 = (s, Ok (g, config, account, seqno, secret)) ->
      slot_operation s0 s g _
        (Slot.prepare_key_rotation_reserved random request (g, config, account, seqno, secret))
  | Op_resolve_dns name network resolve_request :
      start_resolve_dns name s0 = (s, Ok (g, network, resolve_request)) ->
      slot_operation s0 s g _ (Slot.resolve_dns_reserved (g, network, resolve_request))
  | Op_create_encrypted_comment random request recipient hint config lookup secret :
      start_create_encrypted_comment recipient hint s0 = (s, Ok (g, config, lookup, secret)) ->
      slot_operation s0 s g _
        (Slot.create_encrypted_comment_reserved random request (g, config, lookup, secret))
  | Op_resolve_recipient recipient hint lookup :
      start_resolve_comment_recipient recipient hint s0 = (s, Ok (g, lookup)) ->
      slot_operation s0 s g _ (Slot.resolve_recipient_reserved (g, lookup))
  | Op_decrypt_comment request config secret :
      start_decrypt_comment s0 = (s, Ok (g, config, secret)) ->
      slot_operation s0 s g _ (Slot.decrypt_comment_reserved request (g, config, secret)).

(** The slot was taken in the last section, after the identifiers were allocated. *)
Definition taken (g : N) (ids : list HttpRequestId) (s : State) : Prop :=
  st_active_resolution s = Some (g, []) /\ Forall (fun id => rid_value id < st_next_id s)%N ids.

Lemma take_ok g s s' u :
  take_resolution g s = (s', Ok u) -> s' = s <| st_active_resolution := Some (g, []) |>.
Proof. unfold take_resolution, mupdate. intros; by simplify_eq. Qed.

Lemma taken_held g ids call s0 :
  client_inv s0 -> allocated call s0 -> taken g ids (run_client call s0) ->
  held g ids (run_client call s0) /\ is_current Resolution g (run_client call s0) = true.
Proof.
  intros Hi Hal [Ha Hids]. destruct (run_client_good call s0 Hal Hi) as [Hi' _].
  split; [|by apply is_current_active; simpl; rewrite Ha]. split; [done|]. split; [|done].
  apply (ci_generation _ Hi' Resolution). simpl. by rewrite Ha.
Qed.

Lemma allocate_four_ids s s' ids :
  allocate_four s = (s', Ok ids) ->
  length ids = 4 /\ (st_next_id s <= st_next_id s')%N /\
  Forall (fun id => rid_value id < st_next_id s')%N ids.
Proof.
  intros [Hm Hn]%allocate_four_ok. split; [by rewrite <- (length_map rid_value), Hm|]. split; [lia|].
  rewrite <- (Forall_map rid_value (fun v => v < st_next_id s')%N), Hm. repeat constructor; lia.
Qed.

Lemma resolve_pending_taken s0 s g config key account ids :
  start_resolve_pending s0 = (s, Ok (g, config, key, account, ids)) ->
  taken g (hr_id account :: ids) s /\ length ids = 4.
Proof.
  unfold start_resolve_pending. intros E. apply section_bind_ok in E as (s1 & [] & _ & E).
  apply section_bind_ok in E as (s2 & r & _ & E).
  apply section_bind_ok in E as (s3 & a & [Ha Hs3]%allocate_ok & E).
  apply section_bind_ok in E as (s4 & ar & [-> Hb%built_v2_id]%section_lift_ok & E).
  apply section_bind_ok in E as (s5 & four & (Hlen & Hle & Hids)%allocate_four_ids & E).
  apply section_bind_ok in E as (s6 & [] & ->%take_ok & E). unfold mret in E. simplify_eq/=.
  split; [|done]. split; [done|]. constructor; [|done]. simpl. lia.
Qed.

Lemma signing_preparation_taken reason prompt s0 s g config account seqno secret :
  start_signing_preparation reason prompt s0 = (s, Ok (g, config, account, seqno, secret)) ->
  taken g [hr_id account; hr_id seqno] s.
Proof.
  unfold start_signing_preparation. intros E. apply section_bind_ok in E as (s1 & st & _ & E).
  do 2 (apply section_bind_ok in E as (? & ? & _ & E)).
  apply section_bind_ok in E as (s3 & a & [Ha Hs3]%allocate_ok & E).
  apply section_bind_ok in E as (s4 & ar & [-> Hb%built_v2_id]%section_lift_ok & E).
  apply section_bind_ok in E as (s5 & q & [Hq Hs5]%allocate_ok & E).
  apply section_bind_ok in E as (s6 & qr & [-> Hd%built_rpc_id]%section_lift_ok & E).
  apply section_bind_ok in E as (s7 & [] & ->%take_ok & E). unfold mret in E. simplify_eq/=.
  split; [done|]. repeat constructor; simpl; lia.
Qed.

Lemma resolve_dns_taken name s0 s g network request :
  start_resolve_dns name s0 = (s, Ok (g, network, request)) -> taken g [hr_id request] s.
Proof.
  unfold start_resolve_dns. intros E. apply section_bind_ok in E as (s1 & [] & _ & E).
  apply section_bind_ok in E as (s2 & r & _ & E).
  apply section_bind_ok in E as (s3 & a & [Ha Hs3]%allocate_ok & E).
  apply section_bind_ok in E as (s4 & ar & [-> Hb%built_rpc_id]%section_lift_ok & E).
  apply section_bind_ok in E as (s5 & [] & ->%take_ok & E). unfold mret in E. simplify_eq/=.
  split; [done|]. repeat constructor; simpl; lia.
Qed.

Lemma lookup_ids config recipient hint s s' lookup :
  recipient_key_lookup config recipient hint s = (s', Ok lookup) ->
  Forall (fun id => rid_value id < st_next_id s')%N
    [hr_id (rk_account lookup); hr_id (rk_public_key lookup)].
Proof.
  unfold recipient_key_lookup. intros E.
  apply section_bind_ok in E as (s3 & a & [Ha Hs3]%allocate_ok & E).
  apply section_bind_ok in E as (s4 & ar & [-> Hb%built_v2_id]%section_lift_ok & E).
  apply section_bind_ok in E as (s5 & q & [Hq Hs5]%allocate_ok & E).
  apply section_bind_ok in E as (s6 & qr & [-> Hd%built_rpc_id]%section_lift_ok & E).
  unfold mret in E. simplify_eq/=. repeat constructor; lia.
Qed.

Lemma create_comment_taken recipient hint s0 s g config lookup secret :
  start_create_encrypted_comment recipient hint s0 = (s, Ok (g, config, lookup, secret)) ->
  taken g [hr_id (rk_account lookup); hr_id (rk_public_key lookup)] s.
Proof.
  unfold start_create_encrypted_comment. intros E. apply section_bind_ok in E as (s1 & st & _ & E).
  do 2 (apply section_bind_ok in E as (? & ? & _ & E)).
  apply section_bind_ok in E as (s3 & l & Hids%lookup_ids & E).
  apply section_bind_ok in E as (s4 & [] & ->%take_ok & E). unfold mret in E. by simplify_eq/=.
Qed.

Lemma resolve_recipient_taken recipient hint s0 s g lookup :
  start_resolve_comment_recipient recipient hint s0 = (s, Ok (g, lookup)) ->
  taken g [hr_id (rk_account lookup); hr_id (rk_public_key lookup)] s.
Proof.
  unfold start_resolve_comment_recipient. intros E. apply section_bind_ok in E as (s1 & [] & _ & E).
  apply section_bind_ok in E as (s2 & r & _ & E).
  apply section_bind_ok in E as (s3 & l & Hids%lookup_ids & E).
  apply section_bind_ok in E as (s4 & [] & ->%take_ok & E). unfold mret in E. by simplify_eq/=.
Qed.

Lemma decrypt_comment_taken s0 s g config secret :
  start_decrypt_comment s0 = (s, Ok (g, config, secret)) -> taken g [] s.
Proof.
  unfold start_decrypt_comment. intros E. apply section_bind_ok in E as (s1 & st & _ & E).
  do 2 (apply section_bind_ok in E as (? & ? & _ & E)).
  apply section_bind_ok in E as (s4 & [] & ->%take_ok & E). unfold mret in E. by simplify_eq/=.
Qed.

(** The section of an operation, as a call of the client. *)
Lemma operation_held s0 s g A (f : attempt A) :
  client_inv s0 -> slot_operation s0 s g A f ->
  exists ids, held g ids s /\ is_current Resolution g s = true /\ finishes g ids f.
Proof.
  intros Hi Ho.
  assert (forall call ids, s = run_client call s0 -> allocated call s0 -> taken g ids s ->
    finishes g ids f -> exists ids, held g ids s /\ is_current Resolution g s = true /\ finishes g ids f)
    as Hcall.
  { intros call ids -> Hal Ht Hf. exists ids. by destruct (taken_held g ids call s0 Hi Hal Ht). }
  destruct Ho as [config key account ids E|request requested config account seqno secret E
    |random request config account seqno secret E|name network request E
    |random request recipient hint config lookup secret E|recipient hint lookup E|request config secret E].
  - destruct (resolve_pending_taken _ _ _ _ _ _ _ E) as [Ht Hlen].
    apply (Hcall Do_start_resolve_pending _ ltac:(by unfold run_client, after; rewrite E) I Ht).
    by apply resolve_pending_finishes.
  - apply (Hcall Do_start_prepare_transfer _ ltac:(by unfold run_client, after; rewrite E) I
             (signing_preparation_taken _ _ _ _ _ _ _ _ _ E)), prepare_transfer_finishes.
  - apply (Hcall Do_start_key_rotation _ ltac:(by unfold run_client, after; rewrite E) I
             (signing_preparation_taken _ _ _ _ _ _ _ _ _ E)), prepare_key_rotation_finishes.
  - apply (Hcall (Do_start_resolve_dns name) _ ltac:(by unfold run_client, after; rewrite E) I
             (resolve_dns_taken _ _ _ _ _ _ E)), resolve_dns_finishes.
  - apply (Hcall (Do_start_create_encrypted_comment recipient hint) _
             ltac:(by unfold run_client, after; rewrite E) I (create_comment_taken _ _ _ _ _ _ _ _ E)).
    apply create_encrypted_comment_finishes.
  - apply (Hcall (Do_start_resolve_comment_recipient recipient hint) _
             ltac:(by unfold run_client, after; rewrite E) I (resolve_recipient_taken _ _ _ _ _ _ E)).
    apply resolve_recipient_finishes.
  - apply (Hcall Do_start_decrypt_comment _ ltac:(by unfold run_client, after; rewrite E) I
             (decrypt_comment_taken _ _ _ _ _ E)), decrypt_comment_finishes.
Qed.

(** C10: no operation leaks the resolution slot.  It holds the slot after its reservation,
    and once it has ended, with a result or with any of its errors, under any interleaving
    and any host answers, its generation does not hold the slot, so that it is free for the
    next operation unless that one took it already. *)
Theorem resolution_slot_released s0 s g A (f : attempt A) events s' r :
  reachable_client s0 -> slot_operation s0 s g A f -> runs f s events s' (Done r) ->
  is_current Resolution g s = true /\ is_current Resolution g s' = false.
Proof.
  intros Hi%reachable_client_inv Ho Hrun. destruct (operation_held _ _ _ _ _ Hi Ho) as (ids & Hh & Hc & Hf).
  split; [done|]. by destruct (wp_result _ _ _ _ _ _ Hrun (Hf s Hh)).
Qed.
End Released.
