(* ===== verification/NftTransfer.v ===== *)
(** * NFT transfers

    src/domain/nft_send.rs, src/wallet/nft_transfer.rs and src/engine/nft_transfer.rs: a typed
    transfer becomes the intent of an ordinary send, after the ownership of the item was
    checked against a fresh answer of the provider. *)

From stdpp Require Import base numbers list option strings gmap.
From S2P Require Import Prelude BoundaryTypes SendDomain SendWorkflow Base64 ClientDomain Json.
From S2P Require Import ProviderRequest ProviderAnswers ClientState ClientCalls Futures Resolution.
From S2P Require Import SendEngine ConnectValues Addresses ConnectSigning ConnectWalletState CellBoc.
From S2P Require Import WordList Mnemonic WalletContract WalletKeys Transfer EmulationAnswers Preview.
From S2P Require Import NftAnswers.

(** ** Requests ([src/domain/nft_send.rs]) *)

Inductive NftTransferFunding :=
  | Funding_Exact (attached_nanograms forward_nanograms : UnsignedDecimalString).

Inductive NftTransferPayload :=
  | Payload_Empty
  | Payload_Comment (text : rstr)
  | Payload_RawPayload (boc : Boc).

Record NftTransferIntent := mkNftTransferIntent {
  nti_nft_address : TonAddressString;
  nti_recipient : TonAddressString;
  nti_funding : NftTransferFunding;
  nti_payload : NftTransferPayload;
  nti_expiration : SendExpiration;
}.

Record NftTransferPreviewRequest := mkNftTransferPreviewRequest {
  ntp_operation_id : NonEmptyString;
  ntp_intent : NftTransferIntent;
}.

Record NftTransferRequest := mkNftTransferRequest {
  ntr_operation_id : NonEmptyString;
  ntr_force : bool;
  ntr_intent : NftTransferIntent;
}.

(** ** The body ([vendor/ton/src/tep/nft/nft_transfer_msg.rs]) *)

Record NFTTransferMsg `{TonCells} := mkNFTTransferMsg {
  ntm_query_id : N;
  ntm_new_owner : TonAddress;
  ntm_response_dst : TonAddress;
  ntm_custom_payload : option Cell;
  ntm_forward_ton_amount : N;
  ntm_forward_payload : Cell;
}.

Arguments mkNFTTransferMsg {_ _} _ _ _ _ _ _.

(** Its derived TL-B codec. *)
Class TonNftMessages `{TonCells} := {
  nft_transfer_to_boc : NFTTransferMsg -> option bytes;
  nft_transfer_from_boc : bytes -> option NFTTransferMsg;
  nft_transfer_read_back message data :
    nft_transfer_to_boc message = Some data -> nft_transfer_from_boc data = Some message;
}.

(** ** Construction ([src/wallet/nft_transfer.rs]) *)

(** The sources of the errors are not part of the texts. *)
Inductive NftTransferBuildError :=
  | AttachedAmountOutOfRange
  | ForwardAmountOutOfRange
  | AttachedAmountTooSmall
  | ForwardPayload (error : TransferError)
  | InvalidRawPayload
  | BodySerialization
  | InvalidBodyBoc (error : BocError).

Definition nft_build_error_text (error : NftTransferBuildError) : rstr :=
  match error with
  | AttachedAmountOutOfRange => lit "NFT attached amount exceeds the TON coin representation"
  | ForwardAmountOutOfRange => lit "NFT forward amount exceeds the TON coin representation"
  | AttachedAmountTooSmall => lit "NFT attached amount must be greater than the forward amount"
  | ForwardPayload _ => lit "NFT forward payload construction failed"
  | InvalidRawPayload => lit "NFT raw forward payload is invalid"
  | BodySerialization => lit "NFT transfer body serialization failed"
  | InvalidBodyBoc _ => lit "NFT transfer body BOC is invalid"
  end.

Definition FNV_OFFSET : N := 14695981039346656037.
Definition FNV_PRIME : N := 1099511628211.

(** FNV-1a in 64 bits. *)
Definition fnv_step (hash byte : N) : N := (N.lxor hash byte * FNV_PRIME) mod 2 ^ 64.

Definition operation_query_id (operation_id : NonEmptyString) : N :=
  foldl fnv_step FNV_OFFSET (utf8 (nes_str operation_id)).

(** [try_to::<u128>]. *)
Definition try_to_u128 {E} (error : E) (value : UnsignedDecimalString) : result E N :=
  if (uds_value value <=? u128_max)%N then Ok (uds_value value) else Err error.

Section Construction.
Context `{Sha256} `{Sha512} `{Ed25519Keys} `{TonMessages} `{!TonNftMessages} `{Base64Engine}.

Definition forward_payload (payload : NftTransferPayload) : result NftTransferBuildError Cell :=
  match payload with
  | Payload_Empty => Ok empty_cell_of
  | Payload_Comment text => map_err ForwardPayload (Signer.build_comment_body text)
  | Payload_RawPayload boc => ok_or InvalidRawPayload (ton_core_root (boc_bytes boc))
  end.

Definition nft_message (nft : NftTransferIntent) (attached_nanograms : UnsignedDecimalString) (body : Boc)
  : SendMessage :=
  mkSendMessage (nti_nft_address nft) (Amount_Exact attached_nanograms) (Body_RawPayload body) true None.

Definition canonicalize_nft_transfer (operation_id : NonEmptyString) (source : TonAddressString)
    (nft : NftTransferIntent) : result NftTransferBuildError SendIntent :=
  let 'Funding_Exact attached_nanograms forward_nanograms := nti_funding nft in
  let? attached := try_to_u128 AttachedAmountOutOfRange attached_nanograms in
  let? forward := try_to_u128 ForwardAmountOutOfRange forward_nanograms in
  if (attached <=? forward)%N then Err AttachedAmountTooSmall
  else
    let? payload := forward_payload (nti_payload nft) in
    let query_id := operation_query_id operation_id in
    let transfer :=
      mkNFTTransferMsg query_id (tas_address (nti_recipient nft)) (tas_address source) None forward
        payload in
    let? data := ok_or BodySerialization (nft_transfer_to_boc transfer) in
    let? body := map_err InvalidBodyBoc (boc_try_from_bytes data) in
    Ok (mkSendIntent (nti_expiration nft) [nft_message nft attached_nanograms body]).
End Construction.

(** ** The operations ([src/engine/nft_transfer.rs]) *)

Module Nft.

Definition nft_unavailable (diagnostic : rstr) : WalletClientError :=
  NftTransferUnavailable (bounded_diagnostic diagnostic).
Definition nft_emulation_rejected (diagnostic : rstr) : WalletClientError :=
  NftTransferEmulationRejected (bounded_diagnostic diagnostic).

Definition nft_transfer_source : section TonAddressString :=
  let! state := running in
  mret (cfg_address (st_config state)).

Definition validate_transferable_nft (item : NftItem) (source : TonAddressString)
  : result WalletClientError unit :=
  if negb (nft_initialized item) then Err (nft_unavailable (lit "NFT item is not initialized"))
  else if negb match nft_owner_address item with Some owner => tas_eqb owner source | None => false end
  then Err (nft_unavailable (lit "the current wallet is not the NFT item's direct owner"))
  else if nft_on_sale item || bool_decide (is_Some (nft_sale_contract_address item))
          || bool_decide (is_Some (nft_auction_contract_address item))
  then Err (nft_unavailable (lit "NFT item is controlled by an active sale or auction"))
  else Ok tt.

Definition item_succeeded (nft_address : TonAddressString) (transaction : SendEmulationTransaction)
  : bool := tas_eqb (et_account transaction) nft_address && et_succeeded transaction.

Definition validate_nft_emulation (preview : SendPreview) (nft_address : TonAddressString)
  : result WalletClientError unit :=
  if em_is_incomplete (sp_emulation preview)
  then Err (nft_emulation_rejected (lit "Toncenter returned an incomplete NFT transfer trace"))
  else if existsb (item_succeeded nft_address) (em_transactions (sp_emulation preview)) then Ok tt
  else Err (nft_emulation_rejected (lit "emulation did not contain a successful NFT item transaction")).

(** [result?] of a pure computation. *)
Definition propagate {A} (r : result WalletClientError A) : attempt A := Done r.

Section Operations.
Context `{JournalCodec} `{SerdeJson} `{BigUintText} `{TonAddressText} `{Sha256} `{Sha512}.
Context `{Ed25519Keys} `{TonMessages} `{!TonNftMessages} `{Base64Engine} `{!WalletSigner}.
Context `{Crc16} `{!UrlSafeBase64} `{TonAddressParser} `{HashIteration} `{ParseErrors}.

Definition load_fresh_nft_for_transfer (address : TonAddressString) : attempt NftItem :=
  await! reserved := locked (load_fresh_nft_request address) in
  let '(request, network) := reserved in
  host! answer := execute request in
  await! body :=
    propagate (map_err (fun error => nft_unavailable
      (lit "failed to load fresh NFT state: " ++ de_developer_message error)) answer) in
  run! locked running;
  propagate (map_err (fun error => nft_unavailable
    (lit "failed to parse fresh NFT state: " ++ de_developer_message error))
    (parse_single_nft_item body address network)).

(** The steps that both operations share: the intent of a send, after the checks. *)
Definition checked_transfer (operation_id : NonEmptyString) (intent : NftTransferIntent)
  : attempt SendIntent :=
  await! source := locked nft_transfer_source in
  await! canonical :=
    propagate (map_err (fun error => nft_unavailable
      (lit "failed to build TEP-62 transfer: " ++ nft_build_error_text error))
      (canonicalize_nft_transfer operation_id source intent)) in
  await! item := load_fresh_nft_for_transfer (nti_nft_address intent) in
  run! propagate (validate_transferable_nft item source);
  fok canonical.

Definition preview_nft_transfer (request : NftTransferPreviewRequest) : attempt SendPreview :=
  await! canonical := checked_transfer (ntp_operation_id request) (ntp_intent request) in
  await! preview := Preview.preview_send (mkSendPreviewRequest canonical) in
  run! propagate (validate_nft_emulation preview (nti_nft_address (ntp_intent request)));
  fok preview.

Definition send_nft_transfer (request : NftTransferRequest) : attempt SendResult :=
  await! canonical := checked_transfer (ntr_operation_id request) (ntr_intent request) in
  send (mkSendRequest (ntr_operation_id request) (ntr_force request) canonical).
End Operations.
End Nft.
