(* ===== verification/PreviewRuns.v ===== *)
(** * Runs of the previews

    What the host sees of a preview, what its result is worth, and that no preview keeps the
    preview slot. *)

From stdpp Require Import base numbers list option strings gmap sets.
From S2P Require Import Prelude BoundaryTypes SendDomain SendWorkflow Base64 ClientDomain Json.
From S2P Require Import ProviderRequest ProviderAnswers ClientState ClientCalls ClientSections.
From S2P Require Import ClientInvariant Futures Resolution SendEngine SendRuns ConnectValues Addresses.
From S2P Require Import ConnectSigning ConnectWalletState CellBoc WordList Mnemonic.
From S2P Require Import WalletContract WalletKeys Transfer EmulationAnswers Preview SlotRelease.

Section Runs.
Context `{JournalCodec} `{TonAddressText}.
Context `{SerdeJson} `{BigUintText} `{Base64Engine} `{Sha256} `{Sha512} `{Ed25519Keys} `{TonMessages}.
Context `{Crc16} `{!UrlSafeBase64} `{TonAddressParser} `{HashIteration} `{ParseErrors}.

(** ** What the host sees *)

(** The requests of a preview: account, sequence number, and the emulation of [boc]. *)
Definition preview_event (reserved : PreviewReservation) (boc : Boc -> Prop) (before : list event)
    (ev : event) : Prop :=
  match ev with
  | Executed request _ =>
      request = pv_account_request reserved \/ request = pv_seqno_request reserved \/
      exists message, boc message /\
        build_emulation_request (pv_config reserved) (pv_emulation_request_id reserved) message = Ok request
  | _ => False
  end.

(** The sequence number that the answers in [history] establish. *)
Definition known_seqno (reserved : PreviewReservation) (account : AccountSnapshot) (seqno : N)
    (history : list event) : Prop :=
  match as_status account with
  | Account_Active => exists body,
      Executed (pv_seqno_request reserved) (Ok body) ∈ history /\ parse_seqno body = Ok seqno
  | Account_Nonexistent | Account_Uninitialized => seqno = 0%N
  | _ => False
  end.

Definition known_account (reserved : PreviewReservation) (account : AccountSnapshot)
    (history : list event) : Prop :=
  exists body, Executed (pv_account_request reserved) (Ok body) ∈ history /\ parse_account body = Ok account.

(** The provider ran [boc] for the wallet, which accepted it. *)
Definition emulated (reserved : PreviewReservation) (boc : Boc) (emulation : SendEmulation)
    (history : list event) : Prop :=
  exists request body evaluated,
    build_emulation_request (pv_config reserved) (pv_emulation_request_id reserved) boc = Ok request /\
    Executed request (Ok body) ∈ history /\
    parse_emulation body (cfg_address (pv_config reserved)) = Ok evaluated /\
    ev_wallet_succeeded evaluated = true /\ ev_summary evaluated = emulation.

Lemma known_seqno_app reserved account seqno h later :
  known_seqno reserved account seqno h -> known_seqno reserved account seqno (h ++ later).
Proof.
  unfold known_seqno. destruct (as_status account); try done. intros (body & Hb & Hp). exists body.
  split; [by apply elem_of_app; left|done].
Qed.

Lemma known_account_app reserved account h later :
  known_account reserved account h -> known_account reserved account (h ++ later).
Proof. intros (body & Hb & Hp). exists body. split; [by apply elem_of_app; left|done]. Qed.

(** ** Shared steps *)

Lemma always_preview_request ok h g request :
  (forall answer, ok h (Executed request answer)) ->
  always ok (returns (fun h' answer => h' = h ++ [Executed request answer])) h
    (Preview.execute_tracked_preview_request g request).
Proof.
  intros Hok. unfold Preview.execute_tracked_preview_request.
  apply (returns_abind _ _ _ _ _ (fun h' _ => h' = h)); [by apply returns_locked|]. intros h' _ ->.
  apply always_execute; [done|]. intros answer.
  apply (returns_abind _ _ _ _ _ (fun h' _ => h' = h ++ [Executed request answer]));
    [by apply returns_locked|]. by intros h' _ ->.
Qed.

Lemma returns_preview_answer {A} ok (P : list event -> A -> Prop) h g request parse :
  (forall answer, ok h (Executed request answer)) ->
  (forall body a, parse body = Ok a -> P (h ++ [Executed request (Ok body)]) a) ->
  always ok (returns P) h (Preview.preview_answer g request parse).
Proof.
  intros Hok HP. unfold Preview.preview_answer.
  apply (returns_abind _ _ _ _ _ (fun h' answer => h' = h ++ [Executed request answer])).
  { by apply always_preview_request. }
  intros h' answer ->. apply returns_or_fail. intros a (body & -> & Hp)%rbind_ok. by apply HP.
Qed.

Lemma returns_known_seqno ok h g reserved account :
  (forall answer, ok h (Executed (pv_seqno_request reserved) answer)) ->
  always ok (returns (fun h' seqno => (exists later, h' = h ++ later) /\
      known_seqno reserved account seqno h')) h
    (Preview.preview_seqno g (pv_seqno_request reserved) account).
Proof.
  intros Hok. unfold Preview.preview_seqno, known_seqno. destruct (as_status account).
  1-2: split; [by exists []; rewrite app_nil_r|done].
  2-3: apply returns_fail_with.
  apply returns_preview_answer; [done|]. intros body seqno Hp. split; [by eexists|]. exists body.
  split; [by apply elem_of_app; right; left|done].
Qed.

Lemma returns_emulated ok h g reserved boc :
  (forall request answer,
     build_emulation_request (pv_config reserved) (pv_emulation_request_id reserved) boc = Ok request ->
     ok h (Executed request answer)) ->
  always ok (returns (fun h' emulation => (exists later, h' = h ++ later) /\
      emulated reserved boc emulation h')) h
    (Preview.emulate_preview_boc g (pv_config reserved) (cfg_address (pv_config reserved))
       (pv_emulation_request_id reserved) boc).
Proof.
  intros Hok. unfold Preview.emulate_preview_boc.
  apply (returns_abind _ _ _ _ _ (fun h' request => h' = h /\
    build_emulation_request (pv_config reserved) (pv_emulation_request_id reserved) boc = Ok request)).
  { by apply returns_or_fail. }
  intros h' request [-> Hr].
  apply (returns_abind _ _ _ _ _ (fun h' answer => h' = h ++ [Executed request answer])).
  { apply always_preview_request. auto. }
  intros h' answer ->.
  apply (returns_abind _ _ _ _ _ (fun h' evaluated => exists body,
    h' = h ++ [Executed request (Ok body)] /\
    parse_emulation body (cfg_address (pv_config reserved)) = Ok evaluated)).
  { apply returns_or_fail. intros evaluated (body & -> & Hp)%rbind_ok. by exists body. }
  intros h' evaluated (body & -> & Hp). destruct (ev_wallet_succeeded evaluated) eqn:E; cbn [negb];
    [|apply returns_fail_with].
  split; [by eexists|]. exists request, body, evaluated. split_and!; try done. by apply elem_of_app; right; left.
Qed.

(** ** Previews of transfers *)

(** The two messages differ in the signature only. *)
Definition same_but_signature (boc boc' : Boc) : Prop :=
  exists root root' info init body body' signature request_bits,
    parse_root_cell (boc_bytes boc) = Some root /\ parse_root_cell (boc_bytes boc') = Some root' /\
    msg_from_cell root = Some (mkMsg info init body) /\ msg_from_cell root' = Some (mkMsg info init body') /\
    length signature = 512 /\ cell_bits body = signature ++ request_bits /\
    cell_bits body' = repeat false 512 ++ request_bits /\ cell_refs body = cell_refs body'.

(** A message of the intent without its signature. *)
Definition unsigned_form (config : WalletClientConfig) (intent : SendIntent) (boc : Boc) : Prop :=
  exists fresh valid_until,
    Signer.prepare_transfer_emulation (cfg_address config) (cfg_public_key config) (cfg_network config)
      intent fresh valid_until = Ok boc.

(** What any secret of the configured wallet signs for the intent is the message [boc]. *)
Definition signs_the_same (config : WalletClientConfig) (intent : SendIntent)
    (fresh : FreshSendAccount) (valid_until : N) (boc : Boc) : Prop :=
  forall secret phrase wallet request prepared,
    from_utf8 secret = Some phrase -> derive_wallet phrase (cfg_network config) = Ok wallet ->
    tw_address (sw_wallet wallet) = tas_address (cfg_address config) ->
    kp_public_key (tw_key_pair (sw_wallet wallet)) = cfg_public_key config ->
    sr_intent request = intent ->
    Signer.prepare_transfer secret (cfg_record_id config) (cfg_address config) (cfg_network config)
      request fresh valid_until = Ok prepared ->
    same_but_signature (pt_signed_boc prepared) boc.

Lemma emulation_signs_the_same config intent fresh valid_until boc :
  Signer.prepare_transfer_emulation (cfg_address config) (cfg_public_key config) (cfg_network config)
    intent fresh valid_until = Ok boc ->
  signs_the_same config intent fresh valid_until boc.
Proof.
  intros Hb secret phrase wallet request prepared Hp Hw Ha Hk <- Hs.
  by eapply emulation_matches_transfer.
Qed.

(** What the preview says, with the answers it comes from. *)
Definition preview_grounded (request : SendPreviewRequest) (reserved : PreviewReservation)
    (history : list event) (preview : SendPreview) : Prop :=
  exists account seqno total,
    known_account reserved account history /\ known_seqno reserved account seqno history /\
    resolve_send_expiration (si_expiration (spr_intent request)) (as_sync_utime account)
      (cfg_send_validity_seconds (pv_config reserved)) = Ok (sp_valid_until preview) /\
    Signer.prepare_transfer_emulation (cfg_address (pv_config reserved))
      (cfg_public_key (pv_config reserved)) (cfg_network (pv_config reserved)) (spr_intent request)
      (mkFreshSendAccount (as_status account) seqno) (sp_valid_until preview)
    = Ok (sp_message_boc_base64 preview) /\
    signs_the_same (pv_config reserved) (spr_intent request)
      (mkFreshSendAccount (as_status account) seqno) (sp_valid_until preview)
      (sp_message_boc_base64 preview) /\
    emulated reserved (sp_message_boc_base64 preview) (sp_emulation preview) history /\
    sp_messages preview = si_messages (spr_intent request) /\
    exact_value_total (spr_intent request) = Ok total /\
    (forall nanograms, total = Some nanograms ->
       uds_value nanograms + uds_value (em_wallet_fees_nanograms (sp_emulation preview))
       < uds_value (as_balance_nanograms account))%N.

Lemma always_preview_send request reserved :
  always (preview_event reserved (unsigned_form (pv_config reserved) (spr_intent request)))
    (returns (preview_grounded request reserved)) []
    (Preview.preview_send_reserved request reserved).
Proof.
  unfold Preview.preview_send_reserved. cbn zeta.
  apply (returns_abind _ _ _ _ _ (fun h account => known_account reserved account h)).
  { apply returns_preview_answer; [by left|]. intros body account Hp. exists body. split; [left|done]. }
  intros h account Hacc.
  apply (returns_abind _ _ _ _ _ (fun h' total => h' = h /\ exact_value_total (spr_intent request) = Ok total)).
  { by apply returns_or_fail. }
  intros h' total [-> Htotal]. apply (returns_abind _ _ _ _ _ (fun h' _ => h' = h)).
  { unfold Preview.preview_balance. destruct total; [|done]. destruct (_ <? _)%N; [apply returns_fail_with|done]. }
  intros h' [] ->. apply (returns_abind _ _ _ _ _ (fun h' seqno => (exists later, h' = h ++ later) /\
    known_seqno reserved account seqno h')).
  { apply returns_known_seqno. by right; left. }
  intros h' seqno [[later ->] Hseq]. apply (known_account_app _ _ _ later) in Hacc.
  revert Hacc Hseq. generalize (h ++ later). clear h later. intros h Hacc Hseq.
  apply (returns_abind _ _ _ _ _ (fun h' until => h' = h /\
    resolve_send_expiration (si_expiration (spr_intent request)) (as_sync_utime account)
      (cfg_send_validity_seconds (pv_config reserved)) = Ok until)).
  { by apply returns_or_fail. }
  intros h' until [-> Huntil].
  apply (returns_abind _ _ _ _ _ (fun h' boc => h' = h /\
    Signer.prepare_transfer_emulation (cfg_address (pv_config reserved))
      (cfg_public_key (pv_config reserved)) (cfg_network (pv_config reserved)) (spr_intent request)
      (mkFreshSendAccount (as_status account) seqno) until = Ok boc)).
  { by apply returns_or_fail. }
  intros h' boc [-> Hboc].
  apply (returns_abind _ _ _ _ _ (fun h' emulation => (exists later, h' = h ++ later) /\
      emulated reserved boc emulation h')).
  { apply returns_emulated. intros er answer Her. right; right. exists boc. split; [|done]. by eexists _, _. }
  intros h' emulation [[later ->] Hem]. apply (known_account_app _ _ _ later) in Hacc.
  apply (known_seqno_app _ _ _ _ later) in Hseq. revert Hacc Hseq Hem. generalize (h ++ later).
  clear h later. intros h Hacc Hseq Hem.
  apply (returns_abind _ _ _ _ _ (fun h' _ => h' = h /\ forall nanograms, total = Some nanograms ->
    uds_value nanograms + uds_value (em_wallet_fees_nanograms emulation)
    < uds_value (as_balance_nanograms account))%N).
  { unfold Preview.preview_balance_for_fees. destruct total as [n|]; [|by split].
    destruct (N.leb_spec (uds_value (as_balance_nanograms account))
      (uds_value n + uds_value (em_wallet_fees_nanograms emulation))); [apply returns_fail_with|].
    split; [done|]. by intros ? [= <-]. }
  intros h' [] [-> Hfee]. apply (returns_abind _ _ _ _ _ (fun h' _ => h' = h)); [by apply returns_locked|].
  intros h' [] ->. exists account, seqno, total. split_and!; try done. by apply emulation_signs_the_same.
Qed.

(** C3: a preview shows the transfer that would be sent.  In every run, under any interleaving
    and any host answers, it asks the provider only for the account, its sequence number and
    the emulation of an unsigned form of the intent; it reads no secret, touches no journal
    and submits nothing.  Its result names the messages of the intent and an expiration from
    the provider's time; the message it shows, and that the provider ran for the wallet with
    success, is what any secret of the wallet signs for this intent and account, up to the
    signature; and an exact total leaves a positive remainder after the emulated fee. *)
Theorem preview_shows_the_transfer request reserved s events s' f :
  runs (Preview.preview_send_reserved request reserved) s events s' f ->
  (forall before ev after, events = before ++ ev :: after ->
     preview_event reserved (unsigned_form (pv_config reserved) (spr_intent request)) before ev) /\
  (forall preview, f = Done (Ok preview) -> preview_grounded request reserved events preview).
Proof.
  intros Hrun. destruct (always_sound _ _ [] _ _ _ _ _ Hrun (always_preview_send request reserved))
    as [Hev Hend]. split; [exact Hev|]. by intros preview ->.
Qed.

(** ** Previews of prepared messages *)

Definition boc_grounded (request : SendBocRequest) (reserved : PreviewReservation)
    (history : list event) (preview : SendPreview) : Prop :=
  exists account root message,
    ton_core_root (boc_bytes (sb_signed_boc request)) = Some root /\
    msg_from_cell root = Some message /\
    msg_info message = Info_ExtIn (Some (to_msg_address_int (tas_address (cfg_address (pv_config reserved))))) /\
    known_account reserved account history /\
    known_seqno reserved account (sb_seqno request) history /\
    (as_sync_utime account < sb_valid_until request <= u32_max)%N /\
    emulated reserved (sb_signed_boc request) (sp_emulation preview) history /\
    sp_message_boc_base64 preview = sb_signed_boc request /\
    sp_valid_until preview = sb_valid_until request /\ sp_messages preview = [].

Lemma prepare_signed_boc_ok record_id source request prepared :
  Signer.prepare_signed_boc record_id source request = Ok prepared ->
  exists root message, ton_core_root (boc_bytes (sb_signed_boc request)) = Some root /\
    msg_from_cell root = Some message /\
    msg_info message = Info_ExtIn (Some (to_msg_address_int (tas_address source))) /\
    (sb_valid_until request <= u32_max)%N /\
    pt_signed_boc prepared = sb_signed_boc request /\ pt_messages prepared = [].
Proof.
  unfold Signer.prepare_signed_boc, Signer.wallet_valid_until. intros E.
  apply rbind_ok in E as (until & Hu & E). apply rbind_ok in E as (root & Hr%ok_or_ok & E).
  apply rbind_ok in E as (message & Hm%ok_or_ok & E). exists root, message.
  destruct (N.leb_spec (sb_valid_until request) u32_max); [|done].
  destruct (msg_info message) as [|destination|]; try done. case_bool_decide as Hd; [|done]. subst.
  cbn [negb] in E. by apply rbind_ok in E as (hash & _ & [= <-]).
Qed.

Lemma always_preview_boc request reserved :
  always (preview_event reserved (eq (sb_signed_boc request)))
    (returns (boc_grounded request reserved)) []
    (Preview.preview_send_boc_reserved request reserved).
Proof.
  unfold Preview.preview_send_boc_reserved. cbn zeta.
  apply (returns_abind _ _ _ _ _ (fun h prepared => h = [] /\
    Signer.prepare_signed_boc (cfg_record_id (pv_config reserved)) (cfg_address (pv_config reserved)) request
    = Ok prepared)).
  { by apply returns_or_fail. }
  intros h prepared [-> (root & message & Hroot & Hmsg & Hinfo & Hmax & Hboc & Hnone)%prepare_signed_boc_ok].
  apply (returns_abind _ _ _ _ _ (fun h account => known_account reserved account h)).
  { apply returns_preview_answer; [by left|]. intros body account Hp. exists body. split; [left|done]. }
  intros h account Hacc.
  apply (returns_abind _ _ _ _ _ (fun h' seqno => (exists later, h' = h ++ later) /\
    known_seqno reserved account seqno h')).
  { apply returns_known_seqno. by right; left. }
  intros h' seqno [[later ->] Hseq]. apply (known_account_app _ _ _ later) in Hacc.
  revert Hacc Hseq. generalize (h ++ later). clear h later. intros h Hacc Hseq.
  destruct (N.eqb_spec seqno (sb_seqno request)) as [->|_]; cbn [negb]; [|apply returns_fail_with].
  apply (returns_abind _ _ _ _ _ (fun h' until => h' = h /\ until = sb_valid_until request /\
    (as_sync_utime account < sb_valid_until request)%N)).
  { apply returns_or_fail. unfold resolve_send_expiration. intros valid_until E.
    destruct (N.ltb_spec (as_sync_utime account) (sb_valid_until request)); [|done]. by simplify_eq. }
  intros h' until (-> & -> & Hlt). rewrite Hboc.
  apply (returns_abind _ _ _ _ _ (fun h' emulation => (exists later, h' = h ++ later) /\
      emulated reserved (sb_signed_boc request) emulation h')).
  { apply returns_emulated. intros er answer Her. right; right. by exists (sb_signed_boc request). }
  intros h' emulation [[later ->] Hem]. apply (known_account_app _ _ _ later) in Hacc.
  apply (known_seqno_app _ _ _ _ later) in Hseq. revert Hacc Hseq Hem. generalize (h ++ later).
  clear h later. intros h Hacc Hseq Hem.
  apply (returns_abind _ _ _ _ _ (fun h' _ => h' = h)); [by apply returns_locked|].
  intros h' [] ->. by exists account, root, message.
Qed.

(** A preview of a prepared message runs exactly this message.  It is for the configured
    wallet, its sequence number is the current one and it has not expired; nothing but this
    message, byte by byte, is given to the provider, and only to its emulator; no secret and
    no journal is touched. *)
Theorem boc_preview_runs_the_message request reserved s events s' f :
  runs (Preview.preview_send_boc_reserved request reserved) s events s' f ->
  (forall before ev after, events = before ++ ev :: after ->
     preview_event reserved (eq (sb_signed_boc request)) before ev) /\
  (forall preview, f = Done (Ok preview) -> boc_grounded request reserved events preview).
Proof.
  intros Hrun. destruct (always_sound _ _ [] _ _ _ _ _ Hrun (always_preview_boc request reserved))
    as [Hev Hend]. split; [exact Hev|]. by intros preview ->.
Qed.
End Runs.

(** ** The preview slot

    A preview whose bookkeeping fails returns at once.  That happens only when its generation
    lost the slot or when the client is closing, and a closing client clears its slots. *)

Section Slot.
Context `{JournalCodec} `{SerdeJson} `{BigUintText} `{TonAddressText}.

Definition gone (g : N) (s : State) : Prop := is_current Preview g s = false \/ st_closing s = true.

Lemma gone_steps g ids s s' :
  rtc client_step s s' -> started Preview g ids s -> gone g s -> gone g s'.
Proof.
  intros Hs Hh [Hc|Hc]; [left; destruct Hh as (Hi & Hg & _); by apply (stale_forever _ _ s)|right].
  destruct Hh as [Hi _]. revert Hi Hc. induction Hs as [|x y z Hstep _ IH]; [done|]. intros Hi Hc.
  destruct (client_step_good x y Hstep Hi) as [Hi' Hch]. by apply IH, (cc_closing _ _ Hch).
Qed.

Definition preview_fails {A} (g : N) (ids : list HttpRequestId) : attempt A -> Prop :=
  fails_free (started Preview g ids) (gone g).
Definition preview_ends {A} (g : N) (ids : list HttpRequestId) : attempt A -> Prop :=
  ends_free (started Preview g ids) (gone g).

Lemma preview_ends_fails {A} g ids (f : attempt A) : preview_ends g ids f -> preview_fails g ids f.
Proof. apply ends_fails. Qed.

Lemma preview_fails_execute {A} g ids request (k : result DomainError bytes -> attempt A) :
  (forall answer, preview_fails g ids (k answer)) -> preview_fails g ids (fbind (execute request) k).
Proof. apply fails_execute. Qed.

Lemma preview_fok {A} g ids (a : A) : preview_fails g ids (fok a).
Proof. apply fails_fok, started_steps. Qed.

Lemma preview_fails_abind {A B} g ids (f : attempt A) (k : A -> attempt B) :
  preview_fails g ids f -> (forall a, preview_fails g ids (k a)) -> preview_fails g ids (abind f k).
Proof. apply fails_abind; [apply started_steps|apply gone_steps]. Qed.

Lemma preview_ends_abind {A B} g ids (f : attempt A) (k : A -> attempt B) :
  preview_fails g ids f -> (forall a, preview_ends g ids (k a)) -> preview_ends g ids (abind f k).
Proof. apply ends_abind; [apply started_steps|apply gone_steps]. Qed.

Lemma preview_fails_or_fail {A E} g ids (r : result E A) critical :
  (forall e, preview_ends g ids (fail_with (A := A) (critical e))) ->
  preview_fails g ids (or_fail r critical).
Proof. apply fails_or_fail, started_steps. Qed.

(** One section of a preview, whose error means that it is gone. *)
Lemma preview_locked {A} g ids (m : section A) call :
  (forall s, after m s = run_client call s) -> (forall s, started Preview g ids s -> allocated call s) ->
  (forall s e, started Preview g ids s -> (m s).2 = Err e -> gone g (m s).1) ->
  preview_fails g ids (locked m).
Proof.
  intros Hm Hal He s Hs s' Hsteps. pose proof (started_steps _ _ _ _ _ Hsteps Hs) as Hh.
  pose proof (started_call _ _ _ _ _ (Hal _ Hh) Hh) as Hh'. rewrite <- Hm in Hh'.
  apply (done_ending (started Preview g ids)); [apply started_steps|done|].
  intros s'' Hs'' Hh''. split; [done|]. destruct (m s').2 as [a|e] eqn:E; [done|].
  apply (gone_steps g ids (m s').1); [done..|]. by apply (He _ e).
Qed.

Lemma finish_preview_gone g s : gone g (finish_preview g s).1.
Proof.
  left. unfold finish_preview, mbind', mget. destruct (is_current Preview g s) eqn:E; [done|].
  destruct (st_shutdown s); exact E.
Qed.

Lemma preview_ends_error {A} g ids e : preview_ends g ids (fail_with (A := A) (Preview.preview_error g e)).
Proof.
  intros s Hs s' Hsteps. pose proof (started_steps _ _ _ _ _ Hsteps Hs) as Hh.
  pose proof (started_call _ _ _ (Do_finish_preview g) _ I Hh) as Hh'.
  unfold Preview.preview_error. rewrite own_error_state.
  apply (throw_ending (started Preview g ids) (gone g)); [apply started_steps|apply gone_steps|done|].
  apply finish_preview_gone.
Qed.

Lemma preview_ends_finish {A} g ids (a : A) :
  preview_ends g ids (run! locked (finish_preview g); fok a).
Proof.
  intros s Hs s' Hsteps. cbn beta. pose proof (started_steps _ _ _ _ _ Hsteps Hs) as Hh.
  pose proof (started_call _ _ _ (Do_finish_preview g) _ I Hh) as Hh'.
  pose proof (finish_preview_gone g s') as Hc. unfold run_client, after in Hh'.
  destruct (finish_preview g s') as [s1 [[]|e]]; cbn [fst snd] in *.
  all: apply (done_ending (started Preview g ids)); [apply started_steps|done|]; intros s'' Hs'' Hh'';
    (split; [done|]); by apply (gone_steps g ids s1).
Qed.

Lemma not_running_gone g ids s e :
  started Preview g ids s -> ensure_running s = Err e -> gone g s.
Proof.
  intros (Hi & _). unfold ensure_running, gone. destruct (st_closing s) eqn:Ec; [by right|].
  destruct (st_shutdown s) eqn:Es; [|done]. destruct (ci_shutdown _ Hi Es). congruence.
Qed.

Lemma preview_start_request g ids id :
  id ∈ ids -> preview_fails g ids (locked (start_preview_request g id)).
Proof.
  intros Hid. apply (preview_locked _ _ _ (Do_start_preview_request g id)); [done| |].
  - intros s (_ & _ & Hids). by apply (proj1 (Forall_forall _ _) Hids).
  - intros s e Hs. unfold start_preview_request, running, mbind', mget, mlift, mret.
    destruct (ensure_running s) as [[]|e'] eqn:E; cbn; [|intros _; by apply (not_running_gone _ ids _ e')].
    unfold gone, is_current, is_generation. destruct (st_active_preview s) as [[g' rs]|] eqn:Ea; cbn.
    + destruct (g' =? g)%N eqn:Eg; cbn; [done|]. intros _. left. by rewrite Ea.
    + intros _. left. by rewrite Ea.
Qed.

Lemma preview_finish_request g ids id : preview_fails g ids (locked (finish_preview_request g id)).
Proof.
  apply (preview_locked _ _ _ (Do_finish_preview_request g id)); [done|done|].
  intros s e Hs. unfold finish_preview_request, running, mbind', mget, mlift, mret.
  destruct (ensure_running s) as [[]|e'] eqn:E; cbn; [|intros _; by apply (not_running_gone _ ids _ e')].
  unfold gone, is_current, is_generation. destruct (st_active_preview s) as [[g' rs]|] eqn:Ea; cbn.
  - destruct (g' =? g)%N eqn:Eg; cbn; [done|]. intros _. left. by rewrite Ea.
  - intros _. left. by rewrite Ea.
Qed.

(** *** Every path of a preview *)

Create HintDb preview.
#[local] Hint Resolve preview_fok preview_start_request preview_finish_request preview_ends_error
  preview_ends_finish : preview.

#[local] Hint Extern 1 (_ ∈ _) => (rewrite !elem_of_cons; tauto) : preview.

Ltac preview_step :=
  first
    [ solve [eauto with preview]
    | apply preview_ends_abind | apply preview_fails_abind
    | apply preview_fails_or_fail; intros ?
    | apply preview_fails_execute; intros ?
    | progress intros
    | match goal with |- _ _ _ (match ?x with _ => _ end) => destruct x end
    | apply preview_ends_fails ].

Ltac preview_auto := repeat preview_step.

Lemma preview_failed_ends {A} g ids message :
  preview_ends g ids (fail_with (A := A) (Preview.preview_failed g message)).
Proof. apply preview_ends_error. Qed.
#[local] Hint Resolve preview_failed_ends : preview.

Lemma tracked_fails g ids request :
  hr_id request ∈ ids -> preview_fails g ids (Preview.execute_tracked_preview_request g request).
Proof. intros Hid. unfold Preview.execute_tracked_preview_request. preview_auto. Qed.
#[local] Hint Resolve tracked_fails : preview.

Lemma preview_answer_fails {A} g ids request (parse : bytes -> result DomainError A) :
  hr_id request ∈ ids -> preview_fails g ids (Preview.preview_answer g request parse).
Proof. intros Hid. unfold Preview.preview_answer. preview_auto. Qed.
#[local] Hint Resolve preview_answer_fails : preview.

Lemma preview_expiration_fails g ids expiration account config :
  preview_fails g ids (Preview.preview_expiration g expiration account config).
Proof. unfold Preview.preview_expiration. preview_auto. Qed.
#[local] Hint Resolve preview_expiration_fails : preview.

Context `{Base64Engine} `{Sha256} `{Sha512} `{Ed25519Keys} `{TonMessages}.
Context `{Crc16} `{!UrlSafeBase64} `{TonAddressParser} `{HashIteration} `{ParseErrors}.

Lemma preview_seqno_fails g ids request account :
  hr_id request ∈ ids -> preview_fails g ids (Preview.preview_seqno g request account).
Proof. intros Hid. unfold Preview.preview_seqno. preview_auto. Qed.
#[local] Hint Resolve preview_seqno_fails : preview.

Lemma built_emulation_id config id boc request :
  build_emulation_request config id boc = Ok request -> hr_id request = id.
Proof. unfold build_emulation_request. by intros (body & _ & (url & _ & [= <-])%rbind_ok)%rbind_ok. Qed.

Lemma emulate_fails g ids config source id boc :
  id ∈ ids -> preview_fails g ids (Preview.emulate_preview_boc g config source id boc).
Proof.
  intros Hid. unfold Preview.emulate_preview_boc.
  destruct (build_emulation_request config id boc) as [request|e] eqn:E; cbn [or_fail abind fbind fok].
  - apply built_emulation_id in E. subst id. preview_auto.
  - apply preview_ends_fails, preview_ends_error.
Qed.
#[local] Hint Resolve emulate_fails : preview.

Definition preview_ids (reserved : PreviewReservation) : list HttpRequestId :=
  [hr_id (pv_account_request reserved); hr_id (pv_seqno_request reserved); pv_emulation_request_id reserved].

Lemma preview_send_ends request reserved :
  preview_ends (pv_generation reserved) (preview_ids reserved) (Preview.preview_send_reserved request reserved).
Proof.
  unfold Preview.preview_send_reserved, Preview.preview_balance, Preview.preview_balance_for_fees, preview_ids.
  cbn zeta. preview_auto.
Qed.

Lemma preview_send_boc_ends request reserved :
  preview_ends (pv_generation reserved) (preview_ids reserved)
    (Preview.preview_send_boc_reserved request reserved).
Proof. unfold Preview.preview_send_boc_reserved, preview_ids. cbn zeta. preview_auto. Qed.

Lemma preview_sign_message_ends request g config account :
  preview_ends g [hr_id account] (Preview.preview_sign_message_reserved request (g, config, account)).
Proof. unfold Preview.preview_sign_message_reserved. preview_auto. Qed.

(** *** From the reservation to the end *)

(** [preview_operation s0 s g f]: a preview took the slot with generation [g] in a section
    from [s0] to [s], and [f] is what it still does. *)
Inductive preview_operation (s0 s : State) : N -> forall A, attempt A -> Prop :=
  | Op_preview_send request reserved :
      start_preview s0 = (s, Ok reserved) ->
      preview_operation s0 s (pv_generation reserved) _ (Preview.preview_send_reserved request reserved)
  | Op_preview_send_boc request reserved :
      start_preview s0 = (s, Ok reserved) ->
      preview_operation s0 s (pv_generation reserved) _ (Preview.preview_send_boc_reserved request reserved)
  | Op_preview_sign_message request g config account :
      start_preview_sign_message s0 = (s, Ok (g, config, account)) ->
      preview_operation s0 s g _ (Preview.preview_sign_message_reserved request (g, config, account)).

(** The slot was taken in the last section, after the identifiers were allocated. *)
Definition previewing (g : N) (ids : list HttpRequestId) (s : State) : Prop :=
  st_active_preview s = Some (g, []) /\ Forall (fun id => rid_value id < st_next_id s)%N ids.

Lemma take_preview_ok g s s' u :
  mupdate (E := WalletClientError) (fun s => s <| st_active_preview := Some (g, []) |>) s = (s', Ok u) ->
  s' = s <| st_active_preview := Some (g, []) |>.
Proof. unfold mupdate. intros; by simplify_eq. Qed.

Lemma start_preview_taken s0 s reserved :
  start_preview s0 = (s, Ok reserved) -> previewing (pv_generation reserved) (preview_ids reserved) s.
Proof.
  unfold start_preview. cbn zeta. intros E. apply section_bind_ok in E as (s1 & r & _ & E).
  apply section_bind_ok in E as (s2 & a & [Ha Hs2]%allocate_ok & E).
  apply section_bind_ok in E as (s3 & ar & [-> Hb%built_v2_id]%section_lift_ok & E).
  apply section_bind_ok in E as (s4 & q & [Hq Hs4]%allocate_ok & E).
  apply section_bind_ok in E as (s5 & qr & [-> Hd%built_rpc_id]%section_lift_ok & E).
  apply section_bind_ok in E as (s6 & e & [He Hs6]%allocate_ok & E).
  apply section_bind_ok in E as (s7 & [] & ->%take_preview_ok & E). unfold mret in E. simplify_eq/=.
  split; [done|]. repeat constructor; simpl; lia.
Qed.

Lemma start_sign_preview_taken s0 s g config account :
  start_preview_sign_message s0 = (s, Ok (g, config, account)) -> previewing g [hr_id account] s.
Proof.
  unfold start_preview_sign_message. cbn zeta. intros E. apply section_bind_ok in E as (s1 & r & _ & E).
  apply section_bind_ok in E as (s2 & a & [Ha Hs2]%allocate_ok & E).
  apply section_bind_ok in E as (s3 & ar & [-> Hb%built_v2_id]%section_lift_ok & E).
  apply section_bind_ok in E as (s7 & [] & ->%take_preview_ok & E). unfold mret in E. simplify_eq/=.
  split; [done|]. repeat constructor; simpl; lia.
Qed.

Lemma previewing_started g ids call s0 :
  client_inv s0 -> allocated call s0 -> previewing g ids (run_client call s0) ->
  started Preview g ids (run_client call s0) /\ is_current Preview g (run_client call s0) = true.
Proof.
  intros Hi Hal [Ha Hids]. destruct (run_client_good call s0 Hal Hi) as [Hi' _].
  split; [|by apply is_current_active; simpl; rewrite Ha]. split; [done|]. split; [|done].
  apply (ci_generation _ Hi' Preview). simpl. by rewrite Ha.
Qed.

Lemma preview_started s0 s g A (f : attempt A) :
  client_inv s0 -> preview_operation s0 s g A f ->
  exists ids, started Preview g ids s /\ is_current Preview g s = true /\ preview_ends g ids f.
Proof.
  intros Hi Ho.
  assert (forall call ids, s = run_client call s0 -> allocated call s0 -> previewing g ids s ->
    preview_ends g ids f ->
    exists ids, started Preview g ids s /\ is_current Preview g s = true /\ preview_ends g ids f) as Hcall.
  { intros call ids -> Hal Ht Hf. exists ids. by destruct (previewing_started g ids call s0 Hi Hal Ht). }
  destruct Ho as [request reserved E|request reserved E|request g config account E].
  - apply (Hcall Do_start_preview _ ltac:(by unfold run_client, after; rewrite E) I
             (start_preview_taken _ _ _ E)), preview_send_ends.
  - apply (Hcall Do_start_preview _ ltac:(by unfold run_client, after; rewrite E) I
             (start_preview_taken _ _ _ E)), preview_send_boc_ends.
  - apply (Hcall Do_start_preview_sign_message _ ltac:(by unfold run_client, after; rewrite E) I
             (start_sign_preview_taken _ _ _ _ _ E)), preview_sign_message_ends.
Qed.

(** No preview keeps its slot: it holds the slot after its reservation, and once it has
    ended, with a result or with any of its errors, under any interleaving and any host
    answers, its generation does not hold the slot any more, unless the client is closing. *)
Theorem preview_slot_released s0 s g A (f : attempt A) events s' r :
  reachable_client s0 -> preview_operation s0 s g A f -> runs f s events s' (Done r) ->
  is_current Preview g s = true /\ (is_current Preview g s' = false \/ st_closing s' = true).
Proof.
  intros Hi%reachable_client_inv Ho Hrun. destruct (preview_started _ _ _ _ _ Hi Ho) as (ids & Hh & Hc & Hf).
  split; [done|]. by destruct (wp_result _ _ _ _ _ _ Hrun (Hf s Hh)).
Qed.
End Slot.
