(* ===== verification/NftTransferRuns.v ===== *)
(** * Runs of NFT transfers

    Runs of composed futures are taken apart and put together, and then the operations on
    NFTs are the checks of NftTransfer followed by a send or a preview. *)

From stdpp Require Import base numbers list option strings gmap sets relations.
From S2P Require Import Prelude BoundaryTypes SendDomain SendWorkflow Base64 ClientDomain Json.
From S2P Require Import ProviderRequest ProviderAnswers ClientState ClientCalls ClientSections.
From S2P Require Import ClientInvariant Futures Resolution SendEngine SendRuns ConnectValues Addresses.
From S2P Require Import ConnectSigning ConnectWalletState CellBoc WordList Mnemonic.
From S2P Require Import WalletContract WalletKeys Transfer EmulationAnswers Preview PreviewRuns.
From S2P Require Import NftAnswers NftTransfer.

(** ** Content of items *)

Definition preference (metadata : RawTokenInfo) (key : string) : option rstr :=
  option_or (string_field (rti_fields metadata) key) (string_field (rti_extra metadata) key).

Lemma preferred_lookup metadata content key k :
  preferred metadata content key !! k
  = match (if bool_decide (k = lit key) then preference metadata key else None) with
    | Some value => Some value
    | None => content !! k
    end.
Proof.
  unfold preferred. fold (preference metadata key). case_bool_decide as Hk.
  - subst k. destruct (preference metadata key); [by rewrite lookup_insert_eq|done].
  - destruct (preference metadata key); [by rewrite lookup_insert_ne by congruence|done].
Qed.

Lemma preferred_keys metadata keys content k :
  foldl (preferred metadata) content keys !! k
  = match List.find (fun key => bool_decide (k = lit key)) keys ≫= preference metadata with
    | Some value => Some value
    | None => content !! k
    end.
Proof.
  revert content. induction keys as [|key keys IH]; intros content; [done|]. cbn [foldl List.find].
  rewrite IH, preferred_lookup. case_bool_decide as Hk; [|done]. cbn [mbind option_bind].
  destruct (List.find _ keys) as [other|] eqn:E; cbn [mbind option_bind]; [|done].
  apply List.find_some in E as [_ E%bool_decide_eq_true].
  assert (preference metadata other = preference metadata key) as ->.
  { unfold preference, string_field. by rewrite <- E, <- Hk. }
  by destruct (preference metadata key).
Qed.

(** Metadata wins over the item's own content, its plain members over [extra], and for the
    common keys an empty text never hides a text. *)
Theorem enriched_content values metadata k :
  enriched_metadata values (Some metadata) !! k
  = option_or (List.find (fun key => bool_decide (k = lit key)) NFT_CONTENT_KEYS ≫= preference metadata)
      (option_or (rti_fields metadata !! k ≫= as_str)
         (option_or (rti_extra metadata !! k ≫= as_str) (values !! k ≫= as_str))).
Proof.
  unfold enriched_metadata. rewrite preferred_keys, !lookup_union. unfold string_values. rewrite !lookup_omap.
  destruct (List.find _ NFT_CONTENT_KEYS ≫= preference metadata); [done|]. cbn [option_or].
  destruct (rti_fields metadata !! k ≫= as_str), (rti_extra metadata !! k ≫= as_str), (values !! k ≫= as_str); done.
Qed.

(** ** Parts of a run *)

(** The first step of a future that starts with a section. *)
Definition section_step {A} (f : future A) (s : State) : option (State * future A) :=
  match f with
  | Locked critical next => Some ((critical s).1, next (critical s).2)
  | _ => None
  end.

Section Parts.
Context `{JournalCodec} `{SerdeJson} `{BigUintText} `{TonAddressText}.

(** A run of a composition is a run of the first part, or a whole run of it and a run of the
    second one. *)
Lemma runs_bind {A B} (f : future A) (k : A -> future B) s events s' r :
  runs (fbind f k) s events s' r ->
  (exists f', runs f s events s' f' /\ r = fbind f' k) \/
  (exists a s1 e1 e2, runs f s e1 s1 (Done a) /\ runs (k a) s1 e2 s' r /\ events = e1 ++ e2).
Proof.
  remember (fbind f k) as h eqn:Hh. intros Hrun. revert f Hh.
  induction Hrun as [h s|h s s1 events s' r Hstep Hrun IH|C critical next s events s' r Hrun IH
    |q next answer s events s' r Hrun IH|key next answer s events s' r Hrun IH
    |m next answer s events s' r Hrun IH|q next answer s events s' r Hrun IH]; intros f Hh.
  1: { left. exists f. split; [constructor|done]. }
  1: { destruct (IH f Hh) as [(f' & Hf & ->)|(a & s2 & e1 & e2 & Hf & Hk & ->)].
       - left. exists f'. split; [by econstructor|done].
       - right. exists a, s2, e1, e2. split; [by econstructor|done]. }
  1: { destruct f as [a|D crit nxt| | | |]; try discriminate Hh.
       - right. exists a, s, [], events. split; [constructor|]. split; [|done]. simpl in Hh. rewrite <- Hh.
         by constructor.
       - apply (f_equal (fun f => section_step f s)) in Hh. simpl in Hh. injection Hh as Hs Hn.
         destruct (IH (nxt (crit s).2) Hn) as [(f' & Hf & ->)|(a & s2 & e1 & e2 & Hf & Hk & ->)].
         + left. exists f'. split; [constructor; by rewrite <- Hs|done].
         + right. exists a, s2, e1, e2. split; [constructor; by rewrite <- Hs|done]. }
  all: destruct f as [a|? ? ?|? nxt|? nxt|? nxt|? nxt]; try discriminate Hh;
    [ right; eexists a, s, [], _; split; [constructor|]; split; [|done]; simpl in Hh; rewrite <- Hh; by constructor
    | simpl in Hh; injection Hh as <- ->;
      destruct (IH (nxt answer) eq_refl) as [(f' & Hf & ->)|(a & s2 & e1 & e2 & Hf & Hk & ->)];
      [ left; exists f'; split; [by constructor|done]
      | right; eexists a, s2, (_ :: e1), e2; split; [by constructor|done] ] ].
Qed.

Lemma runs_done {A} (a : A) s events s' r :
  runs (Done a) s events s' r -> events = [] /\ r = Done a /\ rtc client_step s s'.
Proof.
  remember (Done a) as f eqn:Hf. intros Hrun. revert Hf.
  induction Hrun as [| |? ? ? ? ? ? ? ? IH| | | |]; intros Hf; try discriminate Hf.
  - by split_and!.
  - destruct IHHrun as (-> & -> & Hs); [done|]. split_and!; [done..|]. by econstructor.
Qed.

Lemma runs_locked {A} (m : section A) s events s' r :
  runs (locked m) s events s' r ->
  events = [] /\ (r = locked m \/ exists s1, rtc client_step s s1 /\ rtc client_step (m s1).1 s' /\ r = Done (m s1).2).
Proof.
  remember (locked m) as f eqn:Hf. intros Hrun. revert Hf.
  induction Hrun as [f s|f s s1 events s' r Hstep _ IH|C critical next s events s' r Hrun _| | | |];
    intros Hf; try discriminate Hf.
  - by split; [|left].
  - destruct (IH Hf) as (-> & [->|(s2 & Hs & Hs' & ->)]); (split; [done|]); [by left|].
    right. exists s2. split; [by econstructor|done].
  - apply (f_equal (fun f => section_step f s)) in Hf. simpl in Hf. injection Hf as Hs Hn.
    rewrite Hs, Hn in Hrun. apply runs_done in Hrun as (-> & -> & Hs'). split; [done|]. right. by exists s.
Qed.

(** A run of [?] that ended well ended well in both parts. *)
Lemma runs_abind_ok {A B} (f : attempt A) (k : A -> attempt B) s events s' b :
  runs (abind f k) s events s' (Done (Ok b)) ->
  exists a s1 e1 e2, runs f s e1 s1 (Done (Ok a)) /\ runs (k a) s1 e2 s' (Done (Ok b)) /\ events = e1 ++ e2.
Proof.
  intros Hrun. unfold abind in Hrun.
  destruct (runs_bind _ _ _ _ _ _ Hrun) as [(f' & Hf & E)|([a|e] & s1 & e1 & e2 & Hf & Hk & ->)].
  - destruct f' as [[a|e]| | | | |]; try discriminate E. cbn [fbind] in E.
    exists a, s', events, []. split; [done|]. split; [rewrite <- E; constructor|by rewrite app_nil_r].
  - by exists a, s1, e1, e2.
  - by apply runs_done in Hk as (_ & Hk & _).
Qed.

(** *** Reasoning with an invariant of the states

    As [always], with sections only from states that satisfy [P], which they keep. *)
Fixpoint always_in {A} (P : State -> Prop) (ok : list event -> event -> Prop)
    (post : list event -> A -> Prop) (history : list event) (f : future A) : Prop :=
  match f with
  | Done a => post history a
  | Locked critical next =>
      forall s, P s -> P (critical s).1 /\ always_in P ok post history (next (critical s).2)
  | Execute request next =>
      forall answer, ok history (Executed request answer) /\
        always_in P ok post (history ++ [Executed request answer]) (next answer)
  | Load key next =>
      forall answer, ok history (Journal_Loaded key answer) /\
        always_in P ok post (history ++ [Journal_Loaded key answer]) (next answer)
  | CompareExchange mutation next =>
      forall answer, ok history (Exchanged mutation answer) /\
        always_in P ok post (history ++ [Exchanged mutation answer]) (next answer)
  | ReadSecret request next =>
      forall answer, ok history (Secret_Read request answer) /\
        always_in P ok post (history ++ [Secret_Read request answer]) (next answer)
  end.

Lemma always_in_sound {A} P ok post history (f f' : future A) s events s' :
  (forall s s', client_step s s' -> P s -> P s') ->
  runs f s events s' f' -> P s -> always_in P ok post history f ->
  (forall before ev after, events = before ++ ev :: after -> ok (history ++ before) ev) /\
  always_in P ok post (history ++ events) f' /\ P s'.
Proof.
  intros Hstep Hrun. revert history.
  induction Hrun as [f s|f s s1 events s' f' Hs _ IH|B critical next s events s' f' _ IH
    |r next answer s events s' f' _ IH|key next answer s events s' f' _ IH
    |m next answer s events s' f' _ IH|r next answer s events s' f' _ IH]; intros history Hp Hf.
  1: { rewrite app_nil_r. split; [|done]. by intros [|? ?] ev after E. }
  1: { apply IH; [by apply (Hstep s)|done]. }
  1: { destruct (Hf s Hp). by apply IH. }
  all: destruct (Hf answer) as [Hok Hnext]; destruct (IH _ Hp Hnext) as (Hev & Hend & Hp');
    rewrite <- app_assoc in Hend; split; [|done];
    intros [|e before] ev after E; simplify_eq/=; [by rewrite app_nil_r|];
    rewrite cons_middle, app_assoc; by apply (Hev before ev after).
Qed.

Lemma always_in_bind {A B} P ok post history (f : future A) (g : A -> future B) mid :
  always_in P ok mid history f ->
  (forall history' a, mid history' a -> always_in P ok post history' (g a)) ->
  always_in P ok post history (fbind f g).
Proof.
  intros Hf Hg. revert history Hf.
  induction f as [a|C critical next IH|r next IH|key next IH|m next IH|r next IH];
    intros history Hf; simpl in *; [by apply Hg| | | | |].
  1: { intros s Hs. destruct (Hf s Hs). split; [done|by apply IH]. }
  all: intros answer; destruct (Hf answer) as [Hok Hnext]; split; [done|by apply IH].
Qed.
End Parts.

(** ** The configuration along a run *)

Section Configured.
Context `{JournalCodec} `{SerdeJson} `{BigUintText} `{TonAddressText}.

(** The states of a client with this configuration. *)
Definition configured (config : WalletClientConfig) (s : State) : Prop :=
  client_inv s /\ st_config s = config.

Lemma configured_step config s s' : client_step s s' -> configured config s -> configured config s'.
Proof.
  intros Hs [Hi <-]. destruct (client_step_good s s' Hs Hi) as [Hi' Hc]. split; [done|apply (cc_config _ _ Hc)].
Qed.

Lemma configured_steps config s s' : rtc client_step s s' -> configured config s -> configured config s'.
Proof. induction 1; [done|]. intros Hc. by eapply IHrtc, configured_step. Qed.

Lemma configured_call config call s :
  allocated call s -> configured config s -> configured config (run_client call s).
Proof. intros Hal. apply configured_step. by exists call. Qed.

(** The rules for attempts under an invariant of the states. *)
Lemma in_abind {A B} P ok Q h (f : attempt A) (g : A -> attempt B) mid :
  always_in P ok (returns mid) h f ->
  (forall h' a, mid h' a -> always_in P ok (returns Q) h' (g a)) ->
  always_in P ok (returns Q) h (abind f g).
Proof. intros Hf Hg. eapply always_in_bind; [exact Hf|]. intros h' [a|e] Hr; [by apply Hg|done]. Qed.

Lemma in_locked {A} P ok (Q : list event -> A -> Prop) h (m : section A) :
  (forall s, P s -> P (m s).1) -> (forall s a, P s -> (m s).2 = Ok a -> Q h a) ->
  always_in P ok (returns Q) h (locked m).
Proof.
  intros Hk Hm s Hs. split; [by apply Hk|]. simpl. destruct (m s).2 as [a|e] eqn:E; simpl; [by apply (Hm s)|done].
Qed.

Lemma in_propagate {A} P ok (Q : list event -> A -> Prop) h (r : result WalletClientError A) :
  (forall a, r = Ok a -> Q h a) -> always_in P ok (returns Q) h (Nft.propagate r).
Proof. intros Hr. destruct r as [a|e]; [by apply Hr|done]. Qed.

Lemma running_result s st : (running s).2 = Ok st -> st = s.
Proof.
  unfold running, mbind', mget, mlift, mret. destruct (ensure_running s); cbn; [by intros [= <-]|done].
Qed.

Lemma running_state s : (running s).1 = s.
Proof. unfold running, mbind', mget, mlift, mret. by destruct (ensure_running s). Qed.

Lemma start_send_config request s s' reserved :
  start_send request s = (s', Ok reserved) -> sv_config reserved = st_config s.
Proof.
  unfold start_send. intros E. apply section_bind_ok in E as (s1 & st & Hrun & E).
  assert (s1 = s) as -> by (by rewrite <- (running_state s), Hrun).
  apply section_bind_ok in E as (s2 & secret & [-> _]%section_lift_ok & E).
  unfold reserve_send in E. unfold mbind' at 1, mget at 1 in E. destruct (busy s); [done|].
  apply section_bind_ok in E as (s0 & g & Hb & E).
  assert (st_config s0 = st_config s) as Hconfig.
  { unfold bump, mbind', mget, mlift, mupdate, mret in Hb. destruct (checked_add _ _ _); by simplify_eq/=. }
  do 6 (apply section_bind_ok in E as (? & ? & _ & E)).
  apply section_bind_ok in E as (? & directive & _ & E). destruct directive; try done.
  do 5 (apply section_bind_ok in E as (? & ? & _ & E)). unfold mret in E. by simplify_eq/=.
Qed.
End Configured.

(** ** The checks *)

Section Transfers.
Context `{JournalCodec} `{SerdeJson} `{BigUintText} `{TonAddressText} `{Sha256} `{Sha512}.
Context `{Ed25519Keys} `{TonMessages} `{!TonNftMessages} `{Base64Engine}.
Context `{Crc16} `{!UrlSafeBase64} `{TonAddressParser} `{HashIteration} `{ParseErrors}.
#[local] Existing Instance engine_signer | 0.

(** The wallet is the direct owner of an item that exists and is not for sale. *)
Definition transferable (item : NftItem) (source : TonAddressString) : Prop :=
  nft_initialized item = true /\
  (exists owner, nft_owner_address item = Some owner /\ tas_address owner = tas_address source) /\
  nft_on_sale item = false /\ nft_sale_contract_address item = None /\
  nft_auction_contract_address item = None.

Lemma validate_transferable_ok item source u :
  Nft.validate_transferable_nft item source = Ok u <-> transferable item source.
Proof.
  destruct u. unfold Nft.validate_transferable_nft, transferable.
  destruct (nft_initialized item); cbn [negb]; [|naive_solver].
  destruct (nft_owner_address item) as [owner|]; cbn [negb]; [|naive_solver].
  destruct (tas_eqb owner source) eqn:E; cbn [negb].
  - apply tas_eqb_spec in E. destruct (nft_on_sale item); [naive_solver|].
    destruct (nft_sale_contract_address item), (nft_auction_contract_address item); cbn; try naive_solver.
  - split; [done|]. intros (_ & (o & [= <-] & Ho) & _). apply tas_eqb_spec in Ho. congruence.
Qed.

(** The only request before the send: a fresh look at the item. *)
Definition lookup_request (config : WalletClientConfig) (intent : NftTransferIntent)
    (request : HttpRequest) : Prop :=
  exists id, build_nft_item_request config id (nti_nft_address intent) = Ok request.

Definition lookup_event (config : WalletClientConfig) (intent : NftTransferIntent)
    (before : list event) (ev : event) : Prop :=
  match ev with
  | Executed request _ => before = [] /\ lookup_request config intent request
  | _ => False
  end.

(** What the lookup showed, and the intent it permits. *)
Definition checked (config : WalletClientConfig) (operation_id : NonEmptyString)
    (intent : NftTransferIntent) (history : list event) (canonical : SendIntent) : Prop :=
  exists request body item,
    history = [Executed request (Ok body)] /\ lookup_request config intent request /\
    parse_single_nft_item body (nti_nft_address intent) (cfg_network config) = Ok item /\
    tas_address (nft_address item) = tas_address (nti_nft_address intent) /\
    transferable item (cfg_address config) /\
    canonicalize_nft_transfer operation_id (cfg_address config) intent = Ok canonical.

Lemma single_item_address body address network item :
  parse_single_nft_item body address network = Ok item -> tas_address (nft_address item) = tas_address address.
Proof.
  unfold parse_single_nft_item. intros (response & _ & E)%rbind_ok.
  destruct (rnr_nft_items response) as [|raw []]; try done. apply rbind_ok in E as (found & _ & E).
  destruct (tas_eqb (nft_address found) address) eqn:Ea; [|done]. cbn [negb] in E. injection E as <-.
  by apply tas_eqb_spec.
Qed.

Lemma fresh_request_built address s s' request network :
  load_fresh_nft_request address s = (s', Ok (request, network)) ->
  (exists id, build_nft_item_request (st_config s) id address = Ok request) /\ network = cfg_network (st_config s).
Proof.
  unfold load_fresh_nft_request. intros E. apply section_bind_ok in E as (s1 & st & Hrun & E).
  assert (st = s) as -> by (apply running_result; by rewrite Hrun).
  apply section_bind_ok in E as (s2 & id & _ & E).
  apply section_bind_ok in E as (s3 & built & [-> Hb]%section_lift_ok & E). unfold mret in E.
  simplify_eq/=. by split; [exists id|].
Qed.

Lemma always_loaded config intent :
  always_in (configured config) (lookup_event config intent)
    (returns (fun h item => exists request body, h = [Executed request (Ok body)] /\
       lookup_request config intent request /\
       parse_single_nft_item body (nti_nft_address intent) (cfg_network config) = Ok item)) []
    (Nft.load_fresh_nft_for_transfer (nti_nft_address intent)).
Proof.
  unfold Nft.load_fresh_nft_for_transfer.
  apply (in_abind _ _ _ _ _ _ (fun h reserved => h = [] /\ lookup_request config intent reserved.1 /\
    reserved.2 = cfg_network config)).
  { apply in_locked.
    - intros s Hs. by apply (configured_call config (Do_load_fresh_nft_request (nti_nft_address intent))).
    - intros s [request network] [_ <-] E. destruct (load_fresh_nft_request _ s) as [s' r] eqn:El.
      simpl in E. subst r. destruct (fresh_request_built _ _ _ _ _ El) as [Hr ->]. done. }
  intros h [request network] (-> & Hr & Hn). simpl in Hr, Hn. subst network. intros answer. split; [done|].
  apply (in_abind _ _ _ _ _ _ (fun h body => h = [Executed request (Ok body)])).
  { apply in_propagate. intros body Hb%map_err_ok. by subst answer. }
  intros h body ->. apply (in_abind _ _ _ _ _ _ (fun h _ => h = [Executed request (Ok body)])).
  { apply in_locked; [intros s Hs; by rewrite running_state|done]. }
  intros h _ ->. apply in_propagate. intros item Hi%map_err_ok. by exists request, body.
Qed.

Lemma always_checked config operation_id intent :
  always_in (configured config) (lookup_event config intent) (returns (checked config operation_id intent)) []
    (Nft.checked_transfer operation_id intent).
Proof.
  unfold Nft.checked_transfer.
  apply (in_abind _ _ _ _ _ _ (fun h source => h = [] /\ source = cfg_address config)).
  { apply in_locked.
    - intros s Hs. unfold Nft.nft_transfer_source, mbind'. pose proof (running_state s) as Hr.
      destruct (running s) as [s1 [st|e]]; simpl in Hr; by subst.
    - intros s source [_ <-] E. unfold Nft.nft_transfer_source, mbind' in E.
      destruct (running s) as [s1 [st|e]] eqn:Er; simpl in E; [|done].
      injection E as <-. by rewrite (running_result s st) by (by rewrite Er). }
  intros h source [-> ->].
  apply (in_abind _ _ _ _ _ _ (fun h canonical => h = [] /\
    canonicalize_nft_transfer operation_id (cfg_address config) intent = Ok canonical)).
  { apply in_propagate. by intros canonical Hc%map_err_ok. }
  intros h canonical [-> Hc].
  eapply (in_abind _ _ _ _ _ _ (fun h item => exists request body, h = [Executed request (Ok body)] /\
       lookup_request config intent request /\
       parse_single_nft_item body (nti_nft_address intent) (cfg_network config) = Ok item)); [apply always_loaded|].
  intros h item (request & body & -> & Hr & Hi).
  apply (in_abind _ _ _ _ _ _ (fun h _ => h = [Executed request (Ok body)] /\ transferable item (cfg_address config))).
  { apply in_propagate. by intros u Hu%validate_transferable_ok. }
  intros h _ [-> Ht]. exists request, body, item. split_and!; try done. by apply single_item_address in Hi.
Qed.

(** ** The intent *)

(** One message to the item with the attached value, whose body tells the item to move to
    the recipient. *)
Definition moves (operation_id : NonEmptyString) (source : TonAddressString) (intent : NftTransferIntent)
    (canonical : SendIntent) : Prop :=
  exists attached forward payload body,
    nti_funding intent = Funding_Exact attached forward /\
    (uds_value forward < uds_value attached <= u128_max)%N /\
    forward_payload (nti_payload intent) = Ok payload /\
    si_expiration canonical = nti_expiration intent /\
    si_messages canonical = [nft_message intent attached body] /\
    nft_transfer_from_boc (boc_bytes body)
    = Some (mkNFTTransferMsg (operation_query_id operation_id) (tas_address (nti_recipient intent))
              (tas_address source) None (uds_value forward) payload).

Lemma canonical_moves operation_id source intent canonical :
  canonicalize_nft_transfer operation_id source intent = Ok canonical ->
  moves operation_id source intent canonical.
Proof.
  unfold canonicalize_nft_transfer, try_to_u128. destruct (nti_funding intent) as [attached forward] eqn:Ef.
  destruct (N.leb_spec (uds_value attached) u128_max) as [Ha|]; [|done]. cbn [rbind].
  destruct (N.leb_spec (uds_value forward) u128_max); [|done]. cbn [rbind].
  destruct (N.leb_spec (uds_value attached) (uds_value forward)) as [|Hlt]; [done|].
  intros (payload & Hp & E)%rbind_ok. apply rbind_ok in E as (data & Hd%ok_or_ok & E).
  apply rbind_ok in E as (body & Hb%map_err_ok & [= <-]).
  exists attached, forward, payload, body. split_and!; try done.
  unfold boc_try_from_bytes in Hb. apply rbind_ok in Hb as (u & _ & Hb).
  destruct (ton_core_accepts data); [|done]. injection Hb as <-. by apply nft_transfer_read_back.
Qed.

(** ** Sending *)

Definition nft_send_request (request : NftTransferRequest) (canonical : SendIntent) : SendRequest :=
  mkSendRequest (ntr_operation_id request) (ntr_force request) canonical.

(** The submission that a request with this identifier carries: signed with the wallet's
    secret, it moves the item and nothing else. *)
Definition submits_the_move (config : WalletClientConfig) (request : NftTransferRequest)
    (canonical : SendIntent) (before : list event) (r : HttpRequest) : Prop :=
  exists secret fresh valid_until boc,
    (exists read, Secret_Read read (Ok secret) ∈ before) /\
    Signer.derive_source secret (cfg_network config) = Ok (tas_address (cfg_address config)) /\
    executes_intent Kind_External secret (cfg_network config) (nft_send_request request canonical)
      fresh valid_until boc /\
    build_send_boc_request config (hr_id r) boc = Ok r.

(** A run that is still checking, or that sends after the check. *)
Definition nft_send_run (config : WalletClientConfig) (request : NftTransferRequest)
    (events : list event) (s' : State) (f : attempt SendResult) : Prop :=
  let intent := ntr_intent request in
  (forall before ev after, events = before ++ ev :: after -> lookup_event config intent before ev) \/
  exists canonical lookup later s1 s2 reserved,
    events = lookup ++ later /\ checked config (ntr_operation_id request) intent lookup canonical /\
    moves (ntr_operation_id request) (cfg_address config) intent canonical /\
    start_send (nft_send_request request canonical) s1 = (s2, Ok reserved) /\ sv_config reserved = config /\
    runs (send_reserved (nft_send_request request canonical) reserved) s2 later s' f /\
    forall before r answer after, later = before ++ Executed r answer :: after ->
      sv_submit_request_id reserved = Some (hr_id r) -> submits_the_move config request canonical before r.

Lemma submission_moves config request canonical s1 s2 reserved s' later f before r answer after :
  start_send (nft_send_request request canonical) s1 = (s2, Ok reserved) -> sv_config reserved = config ->
  runs (send_reserved (nft_send_request request canonical) reserved) s2 later s' f ->
  later = before ++ Executed r answer :: after -> sv_submit_request_id reserved = Some (hr_id r) ->
  submits_the_move config request canonical before r.
Proof.
  intros Hstart <- Hrun Hsplit Hid.
  destruct (submission_origin (nft_send_request request canonical) s1 reserved s2 later s' f before r answer after)
    as (h0 & secret & fresh & until & p & m & o & [[read Hread] Hown] & Hp%map_err_ok & Hu & Hb & Ha & Hst & Hr);
    [by rewrite Hstart|done..|].
  destruct (prepared_executes Kind_External _ _ _ _ _ _ _ _ Hp Hu) as [Hex _].
  exists secret, fresh, until, (pt_signed_boc p). split_and!; [|by apply map_err_ok in Hown|done|done].
  exists read. rewrite Hb. apply elem_of_app. by left.
Qed.

(** C4: an NFT transfer moves the item that was checked, and nothing else.  In every run,
    under any interleaving and any host answers, the first thing the host sees is a fresh
    lookup of the item; everything else happens only when its answer is this very item,
    initialized, directly owned by the wallet and not for sale.  What is then submitted is
    signed with the secret that was read and authorizes exactly one message, to the item,
    with the attached value, whose body moves it to the recipient. *)
Theorem nft_transfer_moves_the_item request s events s' f :
  reachable_client s -> runs (Nft.send_nft_transfer request) s events s' f ->
  nft_send_run (st_config s) request events s' f.
Proof.
  intros Hi%reachable_client_inv Hrun. set (config := st_config s).
  assert (configured config s) as Hs by (by split).
  unfold Nft.send_nft_transfer, abind in Hrun.
  destruct (runs_bind _ _ _ _ _ _ Hrun) as [(f' & Hf & ->)|(a & s1 & e1 & e2 & Hf & Hk & ->)].
  - left. by apply (always_in_sound _ _ _ _ _ _ _ _ _ (configured_step config) Hf Hs (always_checked _ _ _)).
  - destruct (always_in_sound _ _ _ _ _ _ _ _ _ (configured_step config) Hf Hs (always_checked _ _ _))
      as (Hev & Hpost & Hs1). destruct a as [canonical|e].
    2: { apply runs_done in Hk as (-> & -> & _). left. by rewrite app_nil_r. }
    unfold send, abind in Hk.
    destruct (runs_bind _ _ _ _ _ _ Hk) as [(f' & Hl & ->)|(a & s2 & e3 & e4 & Hl & Hsend & ->)].
    { apply runs_locked in Hl as [-> _]. left. by rewrite app_nil_r. }
    apply runs_locked in Hl as [-> [Hno|(s3 & Hsteps & Hsteps' & [= ->])]]; [discriminate Hno|].
    destruct (start_send _ s3) as [s4 r] eqn:Estart. cbn [fst snd] in *. destruct r as [reserved|e].
    2: { apply runs_done in Hsend as (-> & -> & _). left. by rewrite app_nil_r. }
    pose proof (configured_steps _ _ _ Hsteps Hs1) as [_ Hc3].
    assert (runs (send_reserved (nft_send_request request canonical) reserved) s4 e4 s' f) as Hsend'.
    { clear -Hsend Hsteps'. induction Hsteps'; [done|]. econstructor; [done|]. by apply IHHsteps'. }
    right. exists canonical, e1, e4, s3, s4, reserved. pose proof Hpost as (_ & _ & _ & _ & _ & _ & _ & _ & Hcan).
    split_and!; try done; [by apply canonical_moves|by rewrite (start_send_config _ _ _ _ Estart)|].
    intros before r answer after. apply (submission_moves _ _ _ s3 s4 reserved s' e4 f); [done| |done].
    by rewrite (start_send_config _ _ _ _ Estart).
Qed.

(** ** Previewing *)

Lemma start_preview_config s s' reserved :
  start_preview s = (s', Ok reserved) -> pv_config reserved = st_config s.
Proof.
  unfold start_preview. cbn zeta. intros E. apply section_bind_ok in E as (s1 & r & Hr & E).
  assert (r.2 = st_config s) as <-.
  { unfold reserve_preview in Hr. apply section_bind_ok in Hr as (s2 & st & Hrun & Hr).
    assert (s2 = s) as -> by (by rewrite <- (running_state s), Hrun).
    destruct (bool_decide _); [done|]. destruct (bool_decide _); [done|].
    apply section_bind_ok in Hr as (s3 & g & Hb & Hr). unfold mret in Hr. simplify_eq/=.
    by rewrite (running_result s st) by (by rewrite Hrun). }
  do 6 (apply section_bind_ok in E as (? & ? & _ & E)). unfold mret in E. by simplify_eq/=.
Qed.

Lemma validate_emulation_ok preview address u :
  Nft.validate_nft_emulation preview address = Ok u ->
  em_is_incomplete (sp_emulation preview) = false /\
  exists row, row ∈ em_transactions (sp_emulation preview) /\
    tas_address (et_account row) = tas_address address /\ et_succeeded row = true.
Proof.
  unfold Nft.validate_nft_emulation. destruct (em_is_incomplete _); [done|].
  destruct (existsb _ _) eqn:E; [|done]. intros _. split; [done|].
  apply existsb_exists in E as (row & Hin & [Ha%tas_eqb_spec Hs]%andb_true_iff). exists row.
  by split; [apply list_elem_of_In|].
Qed.

(** A preview of an NFT transfer shows what the transfer with the same operation identifier
    will send: it rests on the same checks, previews the same intent, and the item's own
    transaction succeeded in a complete trace. *)
Theorem nft_preview_shows_the_move request s events s' preview :
  reachable_client s -> runs (Nft.preview_nft_transfer request) s events s' (Done (Ok preview)) ->
  let config := st_config s in
  let intent := ntp_intent request in
  exists canonical lookup later reserved row,
    events = lookup ++ later /\ checked config (ntp_operation_id request) intent lookup canonical /\
    moves (ntp_operation_id request) (cfg_address config) intent canonical /\ pv_config reserved = config /\
    preview_grounded (mkSendPreviewRequest canonical) reserved later preview /\
    em_is_incomplete (sp_emulation preview) = false /\ row ∈ em_transactions (sp_emulation preview) /\
    tas_address (et_account row) = tas_address (nti_nft_address intent) /\ et_succeeded row = true.
Proof.
  intros Hi%reachable_client_inv Hrun config intent. assert (configured config s) as Hs by (by split).
  unfold Nft.preview_nft_transfer in Hrun.
  apply runs_abind_ok in Hrun as (canonical & s1 & e1 & e2 & Hf & Hk & ->).
  destruct (always_in_sound _ _ _ _ _ _ _ _ _ (configured_step config) Hf Hs (always_checked _ _ _))
    as (_ & Hpost & Hs1).
  apply runs_abind_ok in Hk as (shown & s2 & e3 & e4 & Hp & Hv & ->).
  apply runs_abind_ok in Hv as (u & s3 & e5 & e6 & Hv & Hend & ->).
  apply runs_done in Hv as (-> & Hv & _). injection Hv as Hv. symmetry in Hv. apply validate_emulation_ok in Hv.
  apply runs_done in Hend as (-> & [= ->] & _).
  apply runs_abind_ok in Hp as (reserved & s4 & e7 & e8 & Hl & Hp & ->).
  apply runs_locked in Hl as [-> [Hno|(s5 & Hsteps & _ & Hr)]]; [discriminate Hno|]. injection Hr as Hr.
  destruct (start_preview s5) as [s6 r] eqn:Estart. simpl in Hr. subst r.
  destruct (always_sound _ _ [] _ _ _ _ _ Hp (always_preview_send _ _)) as [_ Hshown].
  destruct Hv as (Hinc & row & Hin & Ha & Hok). exists canonical, e1, e8, reserved, row.
  pose proof (configured_steps _ _ _ Hsteps Hs1) as [_ Hc5].
  pose proof Hpost as (_ & _ & _ & _ & _ & _ & _ & _ & Hcan).
  split_and!; try done; [by rewrite !app_nil_r|by apply canonical_moves|by rewrite (start_preview_config _ _ _ Estart)].
Qed.
End Transfers.
