(* ===== verification/SlotRuns.v ===== *)
(** * Runs of the operations of the resolution slot

    What the host sees of a transfer preparation and of an encrypted comment, and what their
    results are worth, in every run. *)

From stdpp Require Import base numbers list option strings gmap sets.
From S2P Require Import Prelude BoundaryTypes SendDomain SendWorkflow Base64 ClientDomain Json.
From S2P Require Import ProviderRequest ProviderAnswers ClientState ClientCalls Futures.
From S2P Require Import Resolution ResolutionRuns SendEngine SendRuns ConnectValues Addresses.
From S2P Require Import ConnectSigning ConnectWalletState CellBoc WordList Mnemonic.
From S2P Require Import WalletContract WalletKeys Transfer EncryptedComment RecipientKey.
From S2P Require Import LookupAnswers SlotOperations.

(** ** Shared steps *)

Lemma returns_or_release {A} ok (P : list event -> A -> Prop) h g f :
  always ok (returns P) h f -> always ok (returns P) h (Slot.or_release g f).
Proof.
  intros Hf. eapply always_bind; [exact Hf|]. intros h' [a|e] Hr; [done|by intros s].
Qed.

Lemma returns_slot_answer {A} ok (P : list event -> A -> Prop) h g request parse fail :
  (forall answer, ok h (Executed request answer)) ->
  (forall body a, parse body = Ok a -> P (h ++ [Executed request (Ok body)]) a) ->
  always ok (returns P) h (Slot.slot_answer g request parse fail).
Proof.
  intros Hok HP. unfold Slot.slot_answer, Slot.slot_request.
  apply (returns_abind _ _ _ _ _ (fun h' body => h' = h ++ [Executed request (Ok body)])).
  - apply (returns_abind _ _ _ _ _ (fun h' answer => h' = h ++ [Executed request answer])).
    + by apply returns_or_release, always_execute_resolution.
    + intros h' answer ->. apply returns_or_fail. by intros body ->.
  - intros h' body ->. apply returns_or_fail. auto.
Qed.

Lemma returns_slot_secret ok (P : list event -> bytes -> Prop) h g request fail :
  (forall answer, ok h (Secret_Read request answer)) ->
  (forall secret, P (h ++ [Secret_Read request (Ok secret)]) secret) ->
  always ok (returns P) h (Slot.slot_secret g request fail).
Proof.
  intros Hok HP. unfold Slot.slot_secret. apply always_secret; [done|]. intros answer.
  apply (returns_abind _ _ _ _ _ (fun h' secret => h' = h ++ [Secret_Read request (Ok secret)])).
  { apply returns_or_fail. by intros secret ->. }
  intros h' secret ->.
  apply (returns_abind _ _ _ _ _ (fun h' _ => h' = h ++ [Secret_Read request (Ok secret)]));
    [by apply returns_locked|]. intros h' _ ->. apply HP.
Qed.

(** ** Transfer preparation *)

Section Transfers.
Context `{Sha256} `{Sha512} `{Ed25519Keys} `{TonMessages} `{Base64Engine}.
Context `{JournalCodec} `{SerdeJson} `{BigUintText} `{TonAddressText}.

(** The two lookups and the secret; the journal is never touched. *)
Definition preparation_event (account seqno : HttpRequest) (read : ProtectedSecretRead)
    (before : list event) (ev : event) : Prop :=
  match ev with
  | Executed request _ => request = account \/ request = seqno
  | Secret_Read request _ => request = read
  | _ => False
  end.

(** Both forms carry the intent, one sequence number and one expiration. *)
Definition both_forms (request : PrepareTransferRequest) (config : WalletClientConfig)
    (read : ProtectedSecretRead) (history : list event) (forms : TransferForms) : Prop :=
  exists secret status,
    let send_request := mkSendRequest (ptr_operation_id request) false (ptr_intent request) in
    let fresh := mkFreshSendAccount status (tf_seqno forms) in
    Secret_Read read (Ok secret) ∈ history /\
    Signer.derive_source secret (cfg_network config) = Ok (tas_address (cfg_address config)) /\
    tf_operation_id forms = ptr_operation_id request /\
    executes_intent Kind_External secret (cfg_network config) send_request fresh (tf_valid_until forms)
      (tf_external_boc forms) /\
    executes_intent Kind_Internal secret (cfg_network config) send_request fresh (tf_valid_until forms)
      (tf_internal_boc forms).

Lemma returns_slot_seqno ok h g request account unavailable fail :
  (forall answer, ok h (Executed request answer)) ->
  always ok (returns (fun _ seqno => seqno <= u32_max)%N) h
    (Slot.slot_seqno g request account unavailable fail).
Proof.
  intros Hok. unfold Slot.slot_seqno. destruct (as_status account); try done; try apply returns_fail_with.
  apply returns_slot_answer; [done|]. intros body seqno. apply parse_seqno_u32.
Qed.

Lemma always_prepare_transfer request requested g config account seqno read :
  always (preparation_event account seqno read) (returns (both_forms request config read)) []
    (Slot.prepare_transfer_reserved request requested (g, config, account, seqno, read)).
Proof.
  unfold Slot.prepare_transfer_reserved.
  apply (returns_abind _ _ _ _ _ (fun _ _ => True)); [apply returns_slot_answer; [by left|done]|].
  intros h fetched _. apply (returns_abind _ _ _ _ _ (fun _ _ => True)).
  { unfold Slot.enough_balance. destruct requested; [|done]. destruct (_ <? _)%N; [apply returns_fail_with|done]. }
  clear h. intros h [] _. apply (returns_abind _ _ _ _ _ (fun _ n => n <= u32_max)%N).
  { apply returns_slot_seqno. by right. }
  clear h. intros h n Hn. cbn zeta.
  apply (returns_abind _ _ _ _ _ (fun _ _ => True)); [by apply returns_or_fail|]. clear h. intros h until _.
  apply (returns_abind _ _ _ _ _ (fun h secret => Secret_Read read (Ok secret) ∈ h)).
  { apply returns_slot_secret; [done|]. intros secret. apply elem_of_app. right. left. }
  clear h. intros h secret Hread.
  apply (returns_abind _ _ _ _ _ (fun h' source => h' = h /\
    Signer.derive_source secret (cfg_network config) = Ok source)); [by apply returns_or_fail|].
  intros h' source [-> Hsource]. case_bool_decide as Hown; [|apply returns_fail_with]. cbn [negb]. subst source.
  apply (returns_abind _ _ _ _ _ (fun h' pair => h' = h /\
    Signer.prepare_transfer_pair secret (cfg_record_id config) (cfg_address config) (cfg_network config)
      (mkSendRequest (ptr_operation_id request) false (ptr_intent request))
      (mkFreshSendAccount (as_status fetched) n) until = Ok pair)); [by apply returns_or_fail|].
  intros h' [external internal] [-> Hpair].
  apply (returns_abind _ _ _ _ _ (fun h' _ => h' = h)); [by apply returns_locked|]. intros h' _ ->.
  apply rbind_ok in Hpair as (e & He & Hpair). apply rbind_ok in Hpair as (i & Hi & [= -> ->]).
  exists secret, (as_status fetched). cbn [tf_seqno tf_valid_until tf_operation_id fst snd].
  split; [done|]. split; [done|]. split; [done|].
  split; [by apply (prepared_executes Kind_External _ _ _ _ _ _ _ _ He)
         |by apply (prepared_executes Kind_Internal _ _ _ _ _ _ _ _ Hi)].
Qed.

(** C11: a prepared transfer is one transfer in two forms.  In every run the preparation only
    asks the provider for the account and its sequence number and the host for the secret; it
    never touches the journal and submits nothing.  Its result holds an external and an
    internal message of the configured wallet, signed with the secret that was read, that
    both authorize exactly the messages of the intent with the same sequence number and the
    same expiration. *)
Theorem prepared_forms_are_one_transfer request requested g config account seqno read s events s' f :
  runs (Slot.prepare_transfer_reserved request requested (g, config, account, seqno, read))
    s events s' f ->
  (forall before ev after, events = before ++ ev :: after ->
     preparation_event account seqno read before ev) /\
  (forall forms, f = Done (Ok forms) -> both_forms request config read events forms).
Proof.
  intros Hrun. destruct (always_sound _ _ [] _ _ _ _ _ Hrun
    (always_prepare_transfer request requested g config account seqno read)) as [Hev Hend].
  split; [exact Hev|]. by intros forms ->.
Qed.
End Transfers.

(** ** Encrypted comments *)

Section Comments.
Context `{JournalCodec} `{SerdeJson} `{BigUintText} `{BigUintHex} `{Sha256} `{AesBlocks} `{WalletCodes}.
Context `{Curve25519} `{TonAddressText}.

(** The provider's answers in [history] say that [key] is the recipient's key: the contract
    reports it, or the wallet is not deployed and the supplied key derives its address. *)
Definition recipient_key (lookup : RecipientKeyLookup) (key : bytes) (history : list event) : Prop :=
  exists body account,
    Executed (rk_account lookup) (Ok body) ∈ history /\ parse_account body = Ok account /\
    match as_status account with
    | Account_Active => exists answer,
        Executed (rk_public_key lookup) (Ok answer) ∈ history /\
        parse_public_key answer = Ok (Answer_Key key)
    | Account_Nonexistent | Account_Uninitialized =>
        rk_hint lookup = Some key /\
        verify_recipient_public_key (rk_recipient lookup) key (rk_network lookup) = Ok tt
    | _ => False
    end.

Lemma recipient_key_app lookup key h later :
  recipient_key lookup key h -> recipient_key lookup key (h ++ later).
Proof.
  intros (body & account & Hb & Ha & Hs). exists body, account.
  split; [by apply elem_of_app; left|]. split; [done|]. destruct (as_status account); try done.
  destruct Hs as (answer & Hin & Hp). exists answer. split; [by apply elem_of_app; left|done].
Qed.

(** The secret is read only for a known key; the journal is never touched. *)
Definition comment_event (lookup : RecipientKeyLookup) (read : ProtectedSecretRead)
    (before : list event) (ev : event) : Prop :=
  match ev with
  | Executed request _ => request = rk_account lookup \/ request = rk_public_key lookup
  | Secret_Read request _ => request = read /\ exists key, recipient_key lookup key before
  | _ => False
  end.

Lemma returns_recipient_key g lookup read :
  always (comment_event lookup read) (returns (fun h key => recipient_key lookup key h)) []
    (Slot.resolve_recipient_public_key g lookup).
Proof.
  unfold Slot.resolve_recipient_public_key.
  apply (returns_abind _ _ _ _ _ (fun h account => exists body,
    h = [Executed (rk_account lookup) (Ok body)] /\ parse_account body = Ok account)).
  { apply returns_slot_answer; [by left|]. by eauto. }
  intros h account (body & -> & Ha).
  assert (forall key, as_status account <> Account_Active -> as_status account <> Account_Frozen ->
    as_status account <> Account_Unknown -> rk_hint lookup = Some key ->
    verify_recipient_public_key (rk_recipient lookup) key (rk_network lookup) = Ok tt ->
    recipient_key lookup key [Executed (rk_account lookup) (Ok body)]) as Hhint.
  { intros key ? ? ? Hh Hv. exists body, account. split; [left|]. split; [done|].
    by destruct (as_status account). }
  destruct (as_status account) eqn:Es; try apply returns_fail_with.
  1-2: destruct (rk_hint lookup) as [key|] eqn:Eh; [|apply returns_fail_with];
    apply (returns_abind _ _ _ _ _ (fun h _ => h = [Executed (rk_account lookup) (Ok body)] /\
      verify_recipient_public_key (rk_recipient lookup) key (rk_network lookup) = Ok tt));
      [apply returns_or_fail; by intros [] ?|intros h _ [-> Hv]; by apply (Hhint key)].
  apply (returns_abind _ _ _ _ _ (fun h answer => exists body',
    h = [Executed (rk_account lookup) (Ok body); Executed (rk_public_key lookup) (Ok body')] /\
    parse_public_key body' = Ok answer)).
  { apply returns_slot_answer; [by right|]. by eauto. }
  intros h [key|reason] (body' & -> & Hp); [|apply returns_fail_with].
  exists body, account. split; [left|]. split; [done|]. rewrite Es. exists body'. by split; [right; left|].
Qed.

(** The body was encrypted with the secret that was read, for the recipient's key. *)
Definition comment_created (random : nat -> option bytes) (request : CreateEncryptedCommentRequest)
    (config : WalletClientConfig) (lookup : RecipientKeyLookup) (read : ProtectedSecretRead)
    (history : list event) (body : Boc) : Prop :=
  exists key secret,
    recipient_key lookup key history /\ Secret_Read read (Ok secret) ∈ history /\
    encrypt_comment random secret (cfg_network config) (cfg_address config) key (cec_comment request)
    = Ok body.

Lemma always_create_comment random request g config lookup read :
  always (comment_event lookup read) (returns (comment_created random request config lookup read)) []
    (Slot.create_encrypted_comment_reserved random request (g, config, lookup, read)).
Proof.
  unfold Slot.create_encrypted_comment_reserved.
  apply (returns_abind _ _ _ _ _ (fun h key => recipient_key lookup key h)); [apply returns_recipient_key|].
  intros h key Hkey.
  apply (returns_abind _ _ _ _ _ (fun h secret => recipient_key lookup key h /\ Secret_Read read (Ok secret) ∈ h)).
  { apply returns_slot_secret; [by split; [|exists key]|]. intros secret. split; [by apply recipient_key_app|].
    apply elem_of_app. right. left. }
  clear h Hkey. intros h secret [Hkey Hread].
  apply (returns_abind _ _ _ _ _ (fun h' body => h' = h /\
    encrypt_comment random secret (cfg_network config) (cfg_address config) key (cec_comment request)
    = Ok body)); [by apply returns_or_fail|].
  intros h' body [-> Hb].
  apply (returns_abind _ _ _ _ _ (fun h' _ => h' = h)); [by apply returns_locked|]. intros h' _ ->.
  by exists key, secret.
Qed.

(** C12: an encrypted comment is encrypted for the recipient.  In every run the secret is read
    only after the provider's answers have established the recipient's key, as the one its
    contract reports or, for a wallet that is not deployed, as a supplied key that derives its
    address.  The owner of that key reads the returned body back as the comment, and so does
    the wallet itself. *)
Theorem comment_encrypted_for_the_recipient random request g config lookup read s events s' f :
  fills random -> Forall scalar (cec_comment request) ->
  runs (Slot.create_encrypted_comment_reserved random request (g, config, lookup, read)) s events s' f ->
  (forall before ev after, events = before ++ ev :: after -> comment_event lookup read before ev) /\
  (forall body, f = Done (Ok body) -> exists key secret,
     recipient_key lookup key events /\ Secret_Read read (Ok secret) ∈ events /\
     forall recipient, public_key recipient = key -> exists keys,
       comment_keys secret (cfg_network config) (cfg_address config) = Ok keys /\
       decrypt_with_key (sk_bytes recipient) key (cfg_address config) body = Ok (cec_comment request) /\
       decrypt_with_key (sk_bytes (rk_signing keys)) (public_key (rk_signing keys)) (cfg_address config)
         body = Ok (cec_comment request)).
Proof.
  intros Hfills Hsc Hrun. destruct (always_sound _ _ [] _ _ _ _ _ Hrun
    (always_create_comment random request g config lookup read)) as [Hev Hend].
  split; [exact Hev|]. intros body ->. destruct Hend as (key & secret & Hkey & Hread & Hb).
  exists key, secret. split; [done|]. split; [done|]. intros recipient <-.
  exact (encrypted_readable _ _ _ _ _ _ _ Hfills Hsc Hb).
Qed.
End Comments.
