(* ===== verification/ConnectEventWire.v ===== *)
(** * Events and responses on the wire

    The serde forms of what a wallet sends to a dApp: device descriptions, connect events
    and their replies (crates/ton-connect-core/src/connect.rs), wallet responses and their
    results (rpc.rs), embedded responses (embedded.rs). *)

From Stdlib Require Import Sorted.
From stdpp Require Import base numbers list option strings sorting.
From S2P Require Import Prelude BoundaryTypes SendDomain Base64 ClientDomain Json CellBoc.
From S2P Require Import ConnectSession ConnectValues Addresses ConnectRpc ConnectEmbedded.
From S2P Require Import ConnectSigning ConnectWalletState ConnectHandshake CellBocSpec.
From S2P Require Import ConnectRpcSpec ConnectSigningSpec.

(** ** Scalars *)

Definition as_u32 (v : Value) : option N :=
  n ← as_u64 v; if (n <=? u32_max)%N then Some n else None.

(** An enum of unit variants, by their names. *)
Definition decode_named {A} (text : A -> string) (all : list A) (v : Value) : option A :=
  unit_variant v ≫= fun name => List.find (fun a => bool_decide (lit (text a) = name)) all.

Definition named_to_value {A} (text : A -> string) (a : A) : Value := Str (lit (text a)).

(** [numeric_enum_serde!]. *)
Definition decode_code {A} (code : A -> N) (all : list A) (v : Value) : option A :=
  as_u64 v ≫= fun n => List.find (fun a => (code a =? n)%N) all.

Definition code_to_value {A} (code : A -> N) (a : A) : Value := u64_to_value (code a).

(** [Map<String, Value>]: sorted, the last of equal names. *)
Definition decode_map (v : Value) : option (list (rstr * Value)) :=
  match as_value v with
  | Object fields => Some (map_extend [] fields)
  | _ => None
  end.

(** [EmptyObject]: an object without members. *)
Definition decode_EmptyObject (v : Value) : option unit :=
  match v with Object [] => Some tt | _ => None end.

(** ** Devices *)

Definition platform_text (platform : DevicePlatform) : string :=
  match platform with
  | Platform_Iphone => "iphone" | Platform_Ipad => "ipad" | Platform_Android => "android"
  | Platform_Windows => "windows" | Platform_Mac => "mac" | Platform_Linux => "linux"
  | Platform_Browser => "browser"
  end%string.

Definition all_platforms : list DevicePlatform :=
  [Platform_Iphone; Platform_Ipad; Platform_Android; Platform_Windows; Platform_Mac;
   Platform_Linux; Platform_Browser].

Definition item_type_text (t : StructuredItemType) : string :=
  match t with ItemType_Ton => "ton" | ItemType_Jetton => "jetton" | ItemType_Nft => "nft" end%string.

Definition all_item_types : list StructuredItemType := [ItemType_Ton; ItemType_Jetton; ItemType_Nft].

Definition data_type_text (t : SignDataType) : string :=
  match t with DataType_Text => "text" | DataType_Binary => "binary" | DataType_Cell => "cell" end%string.

Definition all_data_types : list SignDataType := [DataType_Text; DataType_Binary; DataType_Cell].

Definition decode_item_type : Value -> option StructuredItemType :=
  decode_named item_type_text all_item_types.
Definition decode_data_type : Value -> option SignDataType :=
  decode_named data_type_text all_data_types.

Definition bool_to_value (b : bool) : Value := Bool b.

Definition message_feature_fields : list string :=
  ["maxMessages"; "extraCurrencySupported"; "itemTypes"]%string.

Definition message_feature_values (f : MessageFeature) : list (option Value) :=
  [Some (u64_to_value (mf_max_messages f)); bool_to_value <$> mf_extra_currency_supported f;
   vec_to_value (named_to_value item_type_text) <$> mf_item_types f].

(** [Serialize for Feature]. *)
Definition feature_to_value (feature : Feature) : Value :=
  match feature with
  | Feature_LegacySendTransaction => Str (lit "SendTransaction")
  | Feature_SendTransaction f =>
      tagged_to_value "name" "SendTransaction" (zip message_feature_fields (message_feature_values f))
  | Feature_SignData types =>
      tagged_to_value "name" "SignData"
        (zip ["types"]%string [Some (vec_to_value (named_to_value data_type_text) types)])
  | Feature_SignMessage f =>
      tagged_to_value "name" "SignMessage" (zip message_feature_fields (message_feature_values f))
  | Feature_EmbeddedRequest => tagged_to_value "name" "EmbeddedRequest" []
  end.

Definition decode_message_feature (content : Value) : option MessageFeature :=
  match strict_members message_feature_fields content with
  | Some [max_messages; extra_currency_supported; item_types] =>
      max_messages ← required as_u32 max_messages;
      extra_currency_supported ← optional_non_null as_bool extra_currency_supported;
      item_types ← optional_non_null (decode_vec decode_item_type) item_types;
      result_ok (message_feature_new max_messages extra_currency_supported item_types)
  | _ => None
  end.

(** [Deserialize for Feature]; a unit variant ignores the members beside its tag. *)
Definition decode_Feature (v : Value) : option Feature :=
  match as_value v with
  | Str name =>
      if bool_decide (name = lit "SendTransaction") then Some Feature_LegacySendTransaction else None
  | value =>
      content ← tagged_content "name" value;
      if bool_decide (content.1 = lit "SendTransaction") then
        Feature_SendTransaction <$> decode_message_feature content.2
      else if bool_decide (content.1 = lit "SignData") then
        match strict_members ["types"] content.2 with
        | Some [types] =>
            types ← required (decode_vec decode_data_type) types;
            Feature_SignData <$> result_ok (sign_data_feature_new types)
        | _ => None
        end
      else if bool_decide (content.1 = lit "SignMessage") then
        Feature_SignMessage <$> decode_message_feature content.2
      else if bool_decide (content.1 = lit "EmbeddedRequest") then
        match content.2 with
        | Object _ | Array [] => Some Feature_EmbeddedRequest
        | _ => None
        end
      else None
  end.

Definition device_fields : list string :=
  ["platform"; "appName"; "appVersion"; "maxProtocolVersion"; "features"]%string.

Definition device_to_value (d : DeviceInfo) : Value :=
  Object (present (zip device_fields
    [Some (named_to_value platform_text (di_platform d)); Some (Str (di_app_name d));
     Some (Str (di_app_version d)); Some (u64_to_value (di_max_protocol_version d));
     Some (vec_to_value feature_to_value (di_features d))])).

Definition decode_DeviceInfo (v : Value) : option DeviceInfo :=
  match strict_members device_fields v with
  | Some [platform; app_name; app_version; max_protocol_version; features] =>
      platform ← required (decode_named platform_text all_platforms) platform;
      app_name ← required as_str app_name;
      app_version ← required as_str app_version;
      max_protocol_version ← required as_u32 max_protocol_version;
      features ← required (decode_vec decode_Feature) features;
      result_ok (device_info_new platform app_name app_version max_protocol_version features)
  | _ => None
  end.

(** ** Replies *)

Section Replies.
Context `{Crc32c} `{TonCells} `{HexCrate} `{Crc16} `{UrlSafeBase64}.

Definition raw_to_value (a : RawAccountAddress) : Value := Str (raw_to_string a).

Definition decode_wallet_state (v : Value) : option WalletStateInit :=
  as_str v ≫= fun s => result_ok (wallet_state_try_from s).
Definition wallet_state_to_value (s : WalletStateInit) : Value := Str (wsi_encoded s).

Definition decode_public_key (v : Value) : option Ed25519PublicKey :=
  as_str v ≫= fun s => result_ok (public_key_from_str s).
Definition public_key_to_value (k : Ed25519PublicKey) : Value := Str (public_key_to_string k).

Definition decode_signature (v : Value) : option Ed25519Signature := as_str v ≫= signature_from_str.
Definition signature_to_value (s : Ed25519Signature) : Value := Str (signature_to_string s).

Definition account_reply_fields : list string :=
  ["name"; "address"; "network"; "walletStateInit"; "publicKey"]%string.

(** A discriminator with one value. *)
Definition decode_reply_name (name : string) (v : Value) : option unit :=
  decode_named (fun _ => name) [tt] v.

Definition account_reply_to_value (r : TonAddressItemReply) : Value :=
  Object (present (zip account_reply_fields
    [Some (Str (lit "ton_addr")); Some (raw_to_value (tar_address r)); Some (Str (tar_network r));
     Some (wallet_state_to_value (tar_wallet_state_init r));
     Some (public_key_to_value (tar_public_key r))])).

Definition decode_TonAddressItemReply (v : Value) : option TonAddressItemReply :=
  match strict_members account_reply_fields v with
  | Some [name; address; network; wallet_state_init; public_key] =>
      _ ← required (decode_reply_name "ton_addr") name;
      address ← required decode_raw_address address;
      network ← required decode_network network;
      wallet_state_init ← required decode_wallet_state wallet_state_init;
      public_key ← required decode_public_key public_key;
      Some (mkTonAddressItemReply address network wallet_state_init public_key)
  | _ => None
  end.

Definition proof_domain_to_value (d : TonProofDomain) : Value :=
  Object (present (zip ["lengthBytes"; "value"]%string
    [Some (u64_to_value (tpd_length_bytes d)); Some (Str (tpd_value d))])).

Definition proof_fields : list string := ["timestamp"; "domain"; "payload"; "signature"]%string.

Definition proof_to_value (p : TonProof) : Value :=
  Object (present (zip proof_fields
    [Some (u64_to_value (tp_timestamp p)); Some (proof_domain_to_value (tp_domain p));
     Some (Str (tp_payload p)); Some (signature_to_value (tp_signature p))])).

Definition decode_TonProof (v : Value) : option TonProof :=
  match strict_members proof_fields v with
  | Some [timestamp; domain; payload; signature] =>
      timestamp ← required decode_u64_number_or_string timestamp;
      domain ← required decode_TonProofDomain domain;
      payload ← required as_str payload;
      signature ← required decode_signature signature;
      Some (mkTonProof timestamp domain payload signature)
  | _ => None
  end.

Definition proof_reply_to_value (p : TonProof) : Value :=
  Object (present (zip ["name"; "proof"]%string
    [Some (Str (lit "ton_proof")); Some (proof_to_value p)])).

Definition decode_TonProofItemReply (v : Value) : option TonProof :=
  match strict_members ["name"; "proof"] v with
  | Some [name; proof] =>
      _ ← required (decode_reply_name "ton_proof") name;
      required decode_TonProof proof
  | _ => None
  end.

Definition item_error_code (code : ConnectItemErrorCode) : N :=
  match code with ItemError_Unknown => 0 | ItemError_MethodNotSupported => 400 end.

Definition all_item_error_codes : list ConnectItemErrorCode :=
  [ItemError_Unknown; ItemError_MethodNotSupported].

Definition item_error_body_to_value (error : ConnectItemErrorCode * option rstr) : Value :=
  Object (present (zip ["code"; "message"]%string
    [Some (code_to_value item_error_code error.1); Str <$> error.2])).

(** [ConnectItemErrorBody]. *)
Definition decode_item_error_body (v : Value) : option (ConnectItemErrorCode * option rstr) :=
  match strict_members ["code"; "message"] v with
  | Some [code; message] =>
      code ← required (decode_code item_error_code all_item_error_codes) code;
      message ← optional_non_null as_str message;
      Some (code, message)
  | _ => None
  end.

Definition item_error_to_value (e : ConnectItemError) : Value :=
  Object (present (zip ["name"; "error"]%string
    [Some (Str (cie_name e)); Some (item_error_body_to_value (cie_code e, cie_message e))])).

Definition decode_ConnectItemError (v : Value) : option ConnectItemError :=
  match strict_members ["name"; "error"] v with
  | Some [name; error] =>
      name ← required as_str name;
      error ← required decode_item_error_body error;
      Some (mkConnectItemError name error.1 error.2)
  | _ => None
  end.

(** An untagged enum: the first variant that reads the value. *)
Definition first_of {A} (a b : option A) : option A := match a with Some _ => a | None => b end.

Definition item_reply_to_value (reply : ConnectItemReply) : Value :=
  match reply with
  | Reply_TonAddress r => account_reply_to_value r
  | Reply_TonProof p => proof_reply_to_value p
  | Reply_Error e => item_error_to_value e
  end.

Definition decode_ConnectItemReply (v : Value) : option ConnectItemReply :=
  first_of (Reply_TonAddress <$> decode_TonAddressItemReply v)
    (first_of (Reply_TonProof <$> decode_TonProofItemReply v)
       (Reply_Error <$> decode_ConnectItemError v)).

(** ** Responses *)

Definition rpc_code (code : RpcErrorCode) : N :=
  match code with
  | RpcCode_Unknown => 0 | RpcCode_BadRequest => 1 | RpcCode_UnknownApp => 100
  | RpcCode_UserDeclined => 300 | RpcCode_MethodNotSupported => 400
  end.

Definition all_rpc_codes : list RpcErrorCode :=
  [RpcCode_Unknown; RpcCode_BadRequest; RpcCode_UnknownApp; RpcCode_UserDeclined;
   RpcCode_MethodNotSupported].

Definition wallet_result_to_value (result : WalletResult) : Value :=
  match result with
  | Result_String text => Str text
  | Result_Object fields => Object fields
  end.

Definition decode_WalletResult (v : Value) : option WalletResult :=
  first_of (Result_String <$> as_str v) (Result_Object <$> decode_map v).

Definition response_error_to_value (e : WalletResponseError) : Value :=
  Object (present (zip ["code"; "message"; "data"]%string
    [Some (code_to_value rpc_code (wre_code e)); Some (Str (wre_message e)); wre_data e])).

Definition decode_WalletResponseError (v : Value) : option WalletResponseError :=
  if negb (known_members ["code"; "message"; "data"] v) then None
  else
    match struct_members ["code"; "message"; "data"] v with
    | Some (shape, [code; message; data]) =>
        code ← required (decode_code rpc_code all_rpc_codes) code;
        message ← required as_str message;
        data ← optional decode_value shape data;
        Some (mkWalletResponseError code message data)
    | _ => None
    end.

Definition wallet_response_to_value (response : WalletResponse) : Value :=
  match response with
  | Response_Success result id =>
      Object (present (zip ["result"; "id"]%string
        [Some (wallet_result_to_value result); Some (Str id)]))
  | Response_Error error id =>
      Object (present (zip ["error"; "id"]%string
        [Some (response_error_to_value error); Some (Str id)]))
  end.

Definition decode_response_success (v : Value) : option WalletResponse :=
  match strict_members ["result"; "id"] v with
  | Some [result; id] =>
      result ← required decode_WalletResult result;
      id ← required as_str id;
      Some (Response_Success result id)
  | _ => None
  end.

Definition decode_response_error (v : Value) : option WalletResponse :=
  match strict_members ["error"; "id"] v with
  | Some [error; id] =>
      error ← required decode_WalletResponseError error;
      id ← required as_str id;
      Some (Response_Error error id)
  | _ => None
  end.

Definition decode_WalletResponse (v : Value) : option WalletResponse :=
  first_of (decode_response_success v) (decode_response_error v).

Definition embedded_response_to_value (response : EmbeddedResponse) : Value :=
  match response with
  | EmbeddedResponse_Success result =>
      Object (present (zip ["result"]%string [Some (wallet_result_to_value result)]))
  | EmbeddedResponse_Error error =>
      Object (present (zip ["error"]%string [Some (response_error_to_value error)]))
  end.

Definition decode_EmbeddedResponse (v : Value) : option EmbeddedResponse :=
  first_of
    match strict_members ["result"] v with
    | Some [result] => EmbeddedResponse_Success <$> required decode_WalletResult result
    | _ => None
    end
    match strict_members ["error"] v with
    | Some [error] => EmbeddedResponse_Error <$> required decode_WalletResponseError error
    | _ => None
    end.

(** ** Events *)

Definition event_payload_to_value (p : ConnectEventPayload) : Value :=
  Object (present (zip ["items"; "device"]%string
    [Some (vec_to_value item_reply_to_value (cep_items p)); Some (device_to_value (cep_device p))])).

Definition decode_ConnectEventPayload (v : Value) : option ConnectEventPayload :=
  match strict_members ["items"; "device"] v with
  | Some [items; device] =>
      items ← required (decode_vec decode_ConnectItemReply) items;
      device ← required decode_DeviceInfo device;
      Some (mkConnectEventPayload items device)
  | _ => None
  end.

Definition event_error_code (code : ConnectEventErrorCode) : N :=
  match code with
  | EventError_Unknown => 0 | EventError_BadRequest => 1 | EventError_ManifestNotFound => 2
  | EventError_ManifestContent => 3 | EventError_UnknownApp => 100 | EventError_UserDeclined => 300
  | EventError_MethodNotSupported => 400
  end.

Definition all_event_error_codes : list ConnectEventErrorCode :=
  [EventError_Unknown; EventError_BadRequest; EventError_ManifestNotFound;
   EventError_ManifestContent; EventError_UnknownApp; EventError_UserDeclined;
   EventError_MethodNotSupported].

Definition event_error_to_value (e : ConnectEventError) : Value :=
  Object (present (zip ["code"; "message"]%string
    [Some (code_to_value event_error_code (cee_code e)); Some (Str (cee_message e))])).

Definition decode_ConnectEventError (v : Value) : option ConnectEventError :=
  match strict_members ["code"; "message"] v with
  | Some [code; message] =>
      code ← required (decode_code event_error_code all_event_error_codes) code;
      message ← required as_str message;
      Some (mkConnectEventError code message)
  | _ => None
  end.

Definition WalletEvent : Type :=
  ConnectEvent ConnectEventPayload EmbeddedResponse ConnectEventError.

Definition connect_event_to_value (event : WalletEvent) : Value :=
  match event with
  | Event_Connect id payload response =>
      tagged_to_value "event" "connect" (zip ["id"; "payload"; "response"]%string
        [Some (u64_to_value id); Some (event_payload_to_value payload);
         embedded_response_to_value <$> response])
  | Event_ConnectError id payload =>
      tagged_to_value "event" "connect_error" (zip ["id"; "payload"]%string
        [Some (u64_to_value id); Some (event_error_to_value payload)])
  | Event_Disconnect id =>
      tagged_to_value "event" "disconnect" (zip ["id"; "payload"]%string
        [Some (u64_to_value id); Some (Object [])])
  end.

Definition decode_ConnectEvent (v : Value) : option WalletEvent :=
  content ← tagged_content "event" v;
  if bool_decide (content.1 = lit "connect") then
    match strict_members ["id"; "payload"; "response"] content.2 with
    | Some [id; payload; response] =>
        id ← required as_u64 id;
        payload ← required decode_ConnectEventPayload payload;
        response ← optional_non_null decode_EmbeddedResponse response;
        Some (Event_Connect id payload response)
    | _ => None
    end
  else if bool_decide (content.1 = lit "connect_error") then
    match strict_members ["id"; "payload"] content.2 with
    | Some [id; payload] =>
        id ← required as_u64 id;
        payload ← required decode_ConnectEventError payload;
        Some (Event_ConnectError id payload)
    | _ => None
    end
  else if bool_decide (content.1 = lit "disconnect") then
    match strict_members ["id"; "payload"] content.2 with
    | Some [id; payload] =>
        id ← required as_u64 id;
        _ ← required decode_EmptyObject payload;
        Some (Event_Disconnect id)
    | _ => None
    end
  else None.

(** ** Results *)

Definition sign_data_result_fields : list string :=
  ["signature"; "address"; "timestamp"; "domain"; "payload"]%string.

Definition sign_data_result_values (r : SignDataResult) : list (option Value) :=
  [Some (signature_to_value (sdr_signature r)); Some (raw_to_value (sdr_address r));
   Some (u64_to_value (sdr_timestamp r)); Some (Str (sdr_domain r));
   Some (sign_data_to_value (sdr_payload r))].

(** [serde_json::to_value] builds maps, whose members are sorted. *)
Fixpoint to_value (v : Value) : Value :=
  match v with
  | Array items => Array (map to_value items)
  | Object fields => Object (map_extend [] (map (fun '(k, v) => (k, to_value v)) fields))
  | v => v
  end.

Definition sign_data_result_to_value (r : SignDataResult) : Value :=
  to_value (Object (present (zip sign_data_result_fields (sign_data_result_values r)))).
End Replies.

(** * Events and responses keep their meaning

    What a wallet writes, the dApp reads back: devices, replies, events and responses. *)

(** ** Scalars *)

#[export] Instance u32_wire : Wire as_u32 u64_to_value (fun n => (n <= u32_max)%N).
Proof.
  split; [|done]. intros n Hn. unfold as_u32. rewrite wire_decode by (unfold u32_max, u64_max in *; lia).
  cbn [mbind option_bind]. by rewrite (proj2 (N.leb_le _ _) Hn).
Qed.

#[export] Instance bool_wire : Wire as_bool bool_to_value (fun _ => True).
Proof. done. Qed.

Lemma find_named {A B} `{EqDecision B} (f : A -> B) (all : list A) (a : A) :
  NoDup (map f all) -> a ∈ all -> List.find (fun x => bool_decide (f x = f a)) all = Some a.
Proof.
  intros Hd Ha. rewrite <- (find_distinct f all a Hd Ha). clear. induction all as [|x all IH]; [done|].
  cbn [List.find]. rewrite IH. by rewrite (bool_decide_ext (f x = f a) (f a = f x)) by done.
Qed.

(** Names that are all different. *)
Lemma named_wire {A} (text : A -> string) (all : list A) :
  NoDup (map (fun a => lit (text a)) all) -> (forall a, a ∈ all) ->
  Wire (decode_named text all) (named_to_value text) (fun _ => True).
Proof.
  intros Hd Hall. split; [|done]. intros a _. unfold decode_named, named_to_value. cbn [unit_variant mbind option_bind].
  by apply (find_named (fun a => lit (text a))).
Qed.

Lemma code_wire {A} (code : A -> N) (all : list A) :
  NoDup (map code all) -> (forall a, a ∈ all) -> (forall a, code a <= u64_max)%N ->
  Wire (decode_code code all) (code_to_value code) (fun _ => True).
Proof.
  intros Hd Hall Hc. split; [|done]. intros a _. unfold decode_code, code_to_value.
  rewrite wire_decode by done. cbn [mbind option_bind]. rewrite <- (find_named code all a Hd (Hall a)).
  clear. induction all as [|x all IH]; [done|]. cbn [List.find]. rewrite IH.
  destruct (N.eqb_spec (code x) (code a)); [by rewrite bool_decide_eq_true_2|by rewrite bool_decide_eq_false_2].
Qed.

#[export] Instance DevicePlatform_eq_dec : EqDecision DevicePlatform.
Proof. solve_decision. Defined.
#[export] Instance ConnectItemErrorCode_eq_dec : EqDecision ConnectItemErrorCode.
Proof. solve_decision. Defined.
#[export] Instance ConnectEventErrorCode_eq_dec : EqDecision ConnectEventErrorCode.
Proof. solve_decision. Defined.

(** Every value is in the list of all values. *)
Ltac all_values := intros []; apply (bool_decide_eq_true_1 _); vm_compute; reflexivity.

#[export] Instance platform_wire :
  Wire (decode_named platform_text all_platforms) (named_to_value platform_text) (fun _ => True).
Proof. apply named_wire; [distinct_names|]. all_values. Qed.
#[export] Instance item_type_wire :
  Wire decode_item_type (named_to_value item_type_text) (fun _ => True).
Proof. apply named_wire; [distinct_names|]. all_values. Qed.
#[export] Instance data_type_wire :
  Wire decode_data_type (named_to_value data_type_text) (fun _ => True).
Proof. apply named_wire; [distinct_names|]. all_values. Qed.
#[export] Instance item_error_code_wire :
  Wire (decode_code item_error_code all_item_error_codes) (code_to_value item_error_code) (fun _ => True).
Proof. apply code_wire; [distinct_names|all_values|by intros []]. Qed.
#[export] Instance rpc_code_wire :
  Wire (decode_code rpc_code all_rpc_codes) (code_to_value rpc_code) (fun _ => True).
Proof. apply code_wire; [distinct_names|all_values|by intros []]. Qed.
#[export] Instance event_error_code_wire :
  Wire (decode_code event_error_code all_event_error_codes) (code_to_value event_error_code) (fun _ => True).
Proof. apply code_wire; [distinct_names|all_values|by intros []]. Qed.

(** [Vec<T>]. *)
#[export] Instance vec_wire `{Wire A decode encode valid} :
  Wire (decode_vec decode) (vec_to_value encode) (Forall valid).
Proof.
  split.
  - intros values Hv. unfold decode_vec, vec_to_value. cbn [as_array mbind option_bind].
    induction Hv as [|a values Ha _ IH]; [done|]. simpl. rewrite wire_decode by done. simpl. by rewrite IH.
  - intros values Hv. apply plain_array. rewrite Forall_map. apply (Forall_impl _ _ _ Hv), wire_plain.
Qed.

(** ** Devices *)

Definition valid_message_feature (f : MessageFeature) : Prop :=
  (mf_max_messages f <= u32_max)%N /\
  message_feature_new (mf_max_messages f) (mf_extra_currency_supported f) (mf_item_types f) = Ok f.

Definition valid_feature (feature : Feature) : Prop :=
  match feature with
  | Feature_SendTransaction f | Feature_SignMessage f => valid_message_feature f
  | Feature_SignData types => sign_data_feature_new types = Ok types
  | _ => True
  end.

Definition valid_device (d : DeviceInfo) : Prop :=
  (di_max_protocol_version d <= u32_max)%N /\ Forall valid_feature (di_features d) /\
  device_info_validate d = Ok tt.

Lemma Forall_trivial {A} (l : list A) : Forall (fun _ => True) l.
Proof. by apply Forall_true. Qed.

Lemma from_option_trivial {A} (o : option A) : from_option (fun _ => True) True o.
Proof. by destruct o. Qed.

Lemma from_option_all {A} (o : option (list A)) : from_option (Forall (fun _ => True)) True o.
Proof. destruct o; [apply Forall_trivial|done]. Qed.

#[export] Hint Resolve Forall_trivial from_option_trivial from_option_all : core.

Lemma message_feature_read f :
  valid_message_feature f ->
  decode_message_feature (Object (present (zip message_feature_fields (message_feature_values f)))) = Some f.
Proof.
  intros [Hm Hf]. unfold decode_message_feature, message_feature_values.
  rewrite strict_members_present; [|distinct_names|done]. rewrite wire_required by done.
  cbn [mbind option_bind]. rewrite wire_optional by auto. cbn [mbind option_bind].
  rewrite wire_optional by auto. cbn [mbind option_bind]. by rewrite Hf.
Qed.

Lemma feature_plain feature : valid_feature feature -> plain (feature_to_value feature).
Proof.
  destruct feature as [|f|types|f|]; intros Hv; cbn [feature_to_value]; try done.
  - apply plain_tagged; [distinct_names|]. destruct Hv as [Hm _]. unfold message_feature_values.
    repeat (apply Forall_cons_2; [first [by eapply wire_plain_required | by eapply wire_plain_optional; auto]|]);
      apply Forall_nil_2.
  - apply plain_tagged; [distinct_names|]. apply Forall_cons_2; [by eapply wire_plain_required; auto|apply Forall_nil_2].
  - apply plain_tagged; [distinct_names|]. destruct Hv as [Hm _]. unfold message_feature_values.
    repeat (apply Forall_cons_2; [first [by eapply wire_plain_required | by eapply wire_plain_optional; auto]|]);
      apply Forall_nil_2.
Qed.

#[export] Instance feature_wire : Wire decode_Feature feature_to_value valid_feature.
Proof.
  split; [|exact feature_plain]. intros feature Hv. unfold decode_Feature. rewrite feature_plain by done.
  destruct feature as [|f|types|f|]; cbn [feature_to_value valid_feature] in *.
  - done.
  - unfold tagged_to_value. fold (tagged_to_value "name" "SendTransaction" (zip message_feature_fields (message_feature_values f))).
    rewrite tagged_content_present by distinct_names. cbn [mbind option_bind fst snd].
    rewrite bool_decide_eq_true_2 by done. by rewrite message_feature_read.
  - unfold tagged_to_value. fold (tagged_to_value "name" "SignData" (zip ["types"]%string
      [Some (vec_to_value (named_to_value data_type_text) types)])).
    rewrite tagged_content_present by distinct_names. cbn [mbind option_bind fst snd].
    rewrite bool_decide_eq_false_2 by done. rewrite bool_decide_eq_true_2 by done.
    rewrite strict_members_present; [|distinct_names|done]. rewrite wire_required by auto.
    cbn [mbind option_bind]. by rewrite Hv.
  - unfold tagged_to_value. fold (tagged_to_value "name" "SignMessage" (zip message_feature_fields (message_feature_values f))).
    rewrite tagged_content_present by distinct_names. cbn [mbind option_bind fst snd].
    rewrite bool_decide_eq_false_2 by done. rewrite bool_decide_eq_false_2 by done.
    rewrite bool_decide_eq_true_2 by done. by rewrite message_feature_read.
  - done.
Qed.

#[export] Instance device_wire : Wire decode_DeviceInfo device_to_value valid_device.
Proof.
  split; intros d (Hm & Hf & Hd); unfold device_to_value.
  - unfold decode_DeviceInfo. rewrite strict_members_present; [|distinct_names|done]. wire_fields.
    unfold device_info_new. destruct d. cbn in *. by rewrite Hd.
  - apply plain_struct; [distinct_names|]. plain_fields.
Qed.

(** ** Members in any order *)

Lemma assoc_get_perm {A} key (fields fields' : list (rstr * A)) :
  NoDup (map fst fields) -> fields ≡ₚ fields' -> assoc_get key fields = assoc_get key fields'.
Proof.
  intros Hd Hp. revert Hd. induction Hp as [|[k v] l l' Hp IH|[k v] [k' v'] l|l l' l'' Hp IH Hp' IH'];
    cbn [map fst assoc_get]; intros Hd.
  - done.
  - apply NoDup_cons in Hd as [_ Hd]. by rewrite IH.
  - apply NoDup_cons in Hd as [Hk _]. rewrite not_elem_of_cons in Hk. destruct Hk as [Hne _].
    repeat case_bool_decide; congruence.
  - rewrite IH by done. apply IH'. by rewrite <- Hp.
Qed.

Lemma occurrences_perm key fields fields' : fields ≡ₚ fields' -> occurrences key fields = occurrences key fields'.
Proof. intros Hp. unfold occurrences. by rewrite Hp. Qed.

Lemma forallb_perm {A} (f : A -> bool) l l' : l ≡ₚ l' -> forallb f l = forallb f l'.
Proof.
  induction 1 as [| |x y l|]; simpl; [done|congruence| |congruence].
  by destruct (f x), (f y).
Qed.

Lemma strict_members_perm names fields fields' :
  NoDup (map fst fields) -> fields ≡ₚ fields' ->
  strict_members names (Object fields) = strict_members names (Object fields').
Proof.
  intros Hd Hp. unfold strict_members. cbn [known_members struct_members].
  rewrite (forallb_perm _ fields fields' Hp).
  assert (map (fun name => assoc_get (lit name) fields) names
          = map (fun name => assoc_get (lit name) fields') names) as ->
    by (apply map_ext; intros name; by apply assoc_get_perm).
  assert (forallb (fun name => (occurrences (lit name) fields <=? 1)%nat) names
          = forallb (fun name => (occurrences (lit name) fields' <=? 1)%nat) names) as ->; [|done].
  clear -Hp. induction names as [|name names IH]; [done|]. cbn [forallb].
  by rewrite IH, (occurrences_perm _ _ _ Hp).
Qed.

Lemma filter_perm {A} (f : A -> bool) l l' : l ≡ₚ l' -> List.filter f l ≡ₚ List.filter f l'.
Proof.
  induction 1 as [|x l l' _ IH|x y l|l l' l'' _ IH _ IH']; simpl; [done|by destruct (f x); rewrite IH| |by rewrite IH].
  destruct (f x), (f y); try done. apply Permutation_swap.
Qed.

Lemma tagged_content_perm tag fields fields' name rest :
  NoDup (map fst fields) -> fields ≡ₚ fields' ->
  tagged_content tag (Object fields) = Some (name, Object rest) ->
  exists rest', tagged_content tag (Object fields') = Some (name, Object rest') /\ rest ≡ₚ rest'.
Proof.
  intros Hd Hp. cbn [tagged_content]. rewrite (occurrences_perm _ _ _ Hp), (assoc_get_perm _ _ _ Hd Hp).
  destruct (_ =? 1)%nat; [|done]. destruct (assoc_get (lit tag) fields' ≫= as_str) as [n|]; [|done].
  cbn [mbind option_bind]. intros [= -> <-]. eexists. split; [done|]. by apply filter_perm.
Qed.

Lemma to_map_perm (fields : list (rstr * Value)) :
  NoDup (map fst fields) -> fields ≡ₚ map_extend [] fields /\ NoDup (map fst (map_extend [] fields)).
Proof.
  intros Hd. destruct (map_extend_fresh fields []) as [HP HS]; [by rewrite app_nil_r|constructor|].
  rewrite app_nil_r in HP. split; [done|]. by apply sorted_distinct.
Qed.

(** A value without members inside is its own map form. *)
Definition flat (v : Value) : Prop := to_value v = v.

Lemma present_map (f : Value -> Value) names members :
  map (fun '(k, v) => (k, f v)) (present (zip names members)) = present (zip names (map (option_map f) members)).
Proof.
  revert members. induction names as [|name names IH]; intros [|[v|] members]; simpl; [done..| |done];
    by rewrite IH.
Qed.

(** A struct that became a map reads as before. *)
Lemma strict_members_to_value names members :
  NoDup (map lit names) -> length names = length members ->
  strict_members names (to_value (Object (present (zip names members))))
  = Some (map (option_map to_value) members).
Proof.
  intros Hd Hl. cbn [to_value]. rewrite present_map.
  destruct (to_map_perm (present (zip names (map (option_map to_value) members)))) as [Hp Hd'];
    [by apply present_distinct|].
  rewrite (strict_members_perm names _ (present (zip names (map (option_map to_value) members)))) by done.
  apply strict_members_present; [done|]. by rewrite length_map.
Qed.

Lemma tagged_to_value_read tag name names members :
  lit tag ∉ map lit names -> NoDup (map lit names) -> length names = length members ->
  exists rest, tagged_content tag (to_value (tagged_to_value tag name (zip names members)))
    = Some (lit name, Object rest) /\
    strict_members names (Object rest) = Some (map (option_map to_value) members).
Proof.
  intros Ht Hd Hl. unfold tagged_to_value. cbn [to_value map]. rewrite present_map.
  set (fields := (lit tag, Str (lit name)) :: present (zip names (map (option_map to_value) members))).
  assert (NoDup (map fst fields)) as Hf.
  { cbn [map fst]. apply NoDup_cons. split; [by intros ?%present_keys|by apply present_distinct]. }
  destruct (to_map_perm fields Hf) as [Hp _].
  pose proof (tagged_content_present tag name names (map (option_map to_value) members) Ht) as Hc.
  unfold tagged_to_value in Hc. fold fields in Hc.
  destruct (tagged_content_perm _ _ _ _ _ Hf Hp Hc) as (rest & Hr & Hrest). exists rest. split; [done|].
  rewrite <- (strict_members_perm names (present (zip names (map (option_map to_value) members))) rest);
    [|by apply present_distinct|done].
  apply strict_members_present; [done|]. by rewrite length_map.
Qed.

(** ** Replies *)

Section Replies.
Context `{Crc32c} `{TonCells} `{HexCrate} `{Crc16} `{UrlSafeBase64}.

Definition typed_bytes (size : nat) (data : bytes) : Prop := length data = size /\ u8s data.

Definition valid_state (s : WalletStateInit) : Prop := exists text, wallet_state_try_from text = Ok s.

#[export] Instance raw_wire : Wire decode_raw_address raw_to_value well_typed.
Proof.
  split; [|done]. intros a Ha. unfold decode_raw_address, raw_to_value. cbn [as_str mbind option_bind].
  by rewrite raw_roundtrip.
Qed.

#[export] Instance wallet_state_wire : Wire decode_wallet_state wallet_state_to_value valid_state.
Proof.
  split; [|done]. intros s [text Hs]. unfold decode_wallet_state, wallet_state_to_value.
  cbn [as_str mbind option_bind]. assert (wsi_encoded s = text) as ->; [|by rewrite Hs].
  unfold wallet_state_try_from in Hs. apply rbind_ok in Hs as (boc & _ & Hs).
  apply if_err_ok in Hs as [_ Hs]. apply rbind_ok in Hs as (root & _ & Hs).
  by apply rbind_ok in Hs as (parsed & _ & [= <-]).
Qed.

#[export] Instance public_key_wire :
  Wire decode_public_key public_key_to_value (fun k => typed_bytes 32 (pk_bytes k)).
Proof.
  split; [|done]. intros [k] [Hl Hu]. cbn [pk_bytes] in *. unfold decode_public_key, public_key_to_value.
  cbn [as_str mbind option_bind]. unfold public_key_to_string, public_key_from_str. cbn [pk_bytes].
  destruct (lower_hex_ascii _ (hex_encode_lower k Hu)) as [-> ->].
  rewrite hex_encode_length, Hl, hex_decode_encode by done. done.
Qed.

#[export] Instance signature_wire :
  Wire decode_signature signature_to_value (fun s => typed_bytes 64 (sig_bytes s)).
Proof.
  split; [|done]. intros [s] [Hl Hu]. cbn [sig_bytes] in *. unfold decode_signature, signature_to_value.
  cbn [as_str mbind option_bind]. unfold signature_to_string, signature_from_str. cbn [sig_bytes].
  rewrite standard_decode_encode by done. cbn [mbind option_bind]. rewrite Hl. cbn [Nat.eqb negb].
  by rewrite bool_decide_eq_true_2.
Qed.

Lemma network_wire : Wire decode_network Str (fun n => valid_network_id n = true).
Proof. apply validated_wire. Qed.
#[local] Existing Instance network_wire.

Definition valid_account_reply (r : TonAddressItemReply) : Prop :=
  well_typed (tar_address r) /\ valid_network_id (tar_network r) = true /\
  valid_state (tar_wallet_state_init r) /\ typed_bytes 32 (pk_bytes (tar_public_key r)).

#[export] Instance account_reply_wire :
  Wire decode_TonAddressItemReply account_reply_to_value valid_account_reply.
Proof.
  split; intros r (Ha & Hn & Hs & Hk); unfold account_reply_to_value.
  - unfold decode_TonAddressItemReply. rewrite strict_members_present; [|distinct_names|done].
    change (required (decode_reply_name "ton_addr") (Some (Str (lit "ton_addr")))) with (Some tt).
    wire_fields. by destruct r.
  - apply plain_struct; [distinct_names|]. plain_fields.
Qed.

Definition valid_domain (d : TonProofDomain) : Prop := ton_proof_domain_new (tpd_value d) = Ok d.

Definition valid_proof (p : TonProof) : Prop :=
  (tp_timestamp p <= u64_max)%N /\ valid_domain (tp_domain p) /\ typed_bytes 64 (sig_bytes (tp_signature p)).

#[export] Instance proof_domain_wire : Wire decode_TonProofDomain proof_domain_to_value valid_domain.
Proof.
  split.
  - intros [n value] Hd. unfold valid_domain, ton_proof_domain_new in Hd. cbn [tpd_value] in Hd.
    apply rbind_ok in Hd as (m & Hm & E%ok_inj). injection E as ->.
    pose proof Hm as Hm'. unfold u32_length in Hm'. destruct (N.leb_spec (N.of_nat (length (utf8 value))) u32_max);
      [|done]. injection Hm' as <-. set (n := N.of_nat (length (utf8 value))) in *.
    unfold decode_TonProofDomain, proof_domain_to_value. rewrite strict_members_present; [|distinct_names|done].
    cbn [tpd_length_bytes tpd_value]. assert (n <= u64_max)%N by (unfold u32_max, u64_max in *; lia). wire_fields.
    rewrite (proj2 (N.ltb_ge _ _)) by done. rewrite Hm. cbn [result_ok mbind option_bind].
    by rewrite N.eqb_refl.
  - intros d _. apply plain_struct; [distinct_names|]. repeat (apply Forall_cons_2; [done|]). apply Forall_nil_2.
Qed.

Lemma timestamp_wire : Wire decode_u64_number_or_string u64_to_value (fun n => (n <= u64_max)%N).
Proof. split; [|done]. intros n Hn. change (as_u64 (u64_to_value n) = Some n). by apply wire_decode. Qed.
#[local] Existing Instance timestamp_wire.

#[export] Instance proof_wire : Wire decode_TonProof proof_to_value valid_proof.
Proof.
  split; intros p (Ht & Hd & Hs); unfold proof_to_value.
  - unfold decode_TonProof. rewrite strict_members_present; [|distinct_names|done]. wire_fields. by destruct p.
  - apply plain_struct; [distinct_names|]. plain_fields.
Qed.

#[export] Instance proof_reply_wire : Wire decode_TonProofItemReply proof_reply_to_value valid_proof.
Proof.
  split; intros p Hp; unfold proof_reply_to_value.
  - unfold decode_TonProofItemReply. rewrite strict_members_present; [|distinct_names|done].
    change (required (decode_reply_name "ton_proof") (Some (Str (lit "ton_proof")))) with (Some tt).
    cbn [mbind option_bind]. by rewrite wire_required.
  - apply plain_struct; [distinct_names|]. plain_fields.
Qed.

#[export] Instance item_error_body_wire :
  Wire decode_item_error_body item_error_body_to_value (fun _ => True).
Proof.
  split; intros [code message] _; unfold item_error_body_to_value; cbn [fst snd].
  - unfold decode_item_error_body. rewrite strict_members_present; [|distinct_names|done]. wire_fields. done.
  - apply plain_struct; [distinct_names|]. plain_fields.
Qed.

#[export] Instance item_error_wire : Wire decode_ConnectItemError item_error_to_value (fun _ => True).
Proof.
  split; intros e _; unfold item_error_to_value.
  - unfold decode_ConnectItemError. rewrite strict_members_present; [|distinct_names|done]. wire_fields.
    by destruct e.
  - apply plain_struct; [distinct_names|]. plain_fields.
Qed.

Definition valid_reply (reply : ConnectItemReply) : Prop :=
  match reply with
  | Reply_TonAddress r => valid_account_reply r
  | Reply_TonProof p => valid_proof p
  | Reply_Error _ => True
  end.

#[export] Instance reply_wire : Wire decode_ConnectItemReply item_reply_to_value valid_reply.
Proof.
  split; intros [r|p|e] Hv; unfold decode_ConnectItemReply; cbn [item_reply_to_value valid_reply] in *.
  - by rewrite wire_decode.
  - change (decode_TonAddressItemReply (proof_reply_to_value p)) with (@None TonAddressItemReply).
    cbn [fmap option_fmap option_map first_of]. by rewrite wire_decode.
  - change (decode_TonAddressItemReply (item_error_to_value e)) with (@None TonAddressItemReply).
    change (decode_TonProofItemReply (item_error_to_value e)) with (@None TonProof).
    cbn [fmap option_fmap option_map first_of]. by rewrite wire_decode.
  - by apply wire_plain.
  - by apply wire_plain.
  - by apply wire_plain.
Qed.

(** ** Responses *)

(** The members of a [Map<String, Value>]. *)
Definition valid_map (fields : list (rstr * Value)) : Prop :=
  StronglySorted key_lt fields /\ Forall (fun field => plain field.2) fields.

Lemma map_sorted_same (fields : list (rstr * Value)) :
  StronglySorted key_lt fields -> map_extend [] fields = fields.
Proof.
  intros Hs. destruct (map_extend_fresh fields []) as [HP HS];
    [rewrite app_nil_r; by apply sorted_distinct|constructor|].
  rewrite app_nil_r in HP. by apply (StronglySorted_unique key_lt).
Qed.

Definition valid_result (result : WalletResult) : Prop :=
  match result with Result_String _ => True | Result_Object fields => valid_map fields end.

#[export] Instance result_wire : Wire decode_WalletResult wallet_result_to_value valid_result.
Proof.
  split; intros [text|fields] Hv; cbn [wallet_result_to_value valid_result] in *; try done.
  - destruct Hv as [Hs Hp]. unfold decode_WalletResult, decode_map.
    rewrite plain_object by (done || by apply sorted_distinct). cbn. by rewrite map_sorted_same.
  - destruct Hv as [Hs Hp]. apply plain_object; [by apply sorted_distinct|done].
Qed.

Definition valid_response_error (e : WalletResponseError) : Prop :=
  from_option (fun v => plain v /\ v <> Null) True (wre_data e).

#[export] Instance response_error_wire :
  Wire decode_WalletResponseError response_error_to_value valid_response_error.
Proof.
  split; intros [code message data] Hv; unfold valid_response_error in Hv; cbn [wre_data] in Hv;
    unfold response_error_to_value; cbn [wre_code wre_message wre_data].
  - pose proof (strict_members_present ["code"; "message"; "data"]%string
      [Some (code_to_value rpc_code code); Some (Str message); data] ltac:(distinct_names) eq_refl) as Hm.
    unfold strict_members in Hm. unfold decode_WalletResponseError. destruct (known_members _ _); [|done].
    cbn [negb]. apply fmap_Some in Hm as ([shape members] & Hs & Em). cbn [snd] in Em. subst members.
    assert (shape = FromMap) as ->.
    { cbn [struct_members] in Hs. by destruct (forallb _ _); simplify_eq/=. }
    rewrite Hs. wire_fields. destruct data as [v|]; [|done]. destruct Hv as [Hp Hn].
    cbn [optional]. unfold nullable, decode_value. rewrite Hp. by destruct v.
  - apply plain_struct; [distinct_names|]. repeat (apply Forall_cons_2; [done|]).
    apply Forall_cons_2; [|apply Forall_nil_2]. destruct data as [v|]; [by destruct Hv|done].
Qed.

Definition valid_response (response : WalletResponse) : Prop :=
  match response with
  | Response_Success result _ => valid_result result
  | Response_Error error _ => valid_response_error error
  end.

#[export] Instance response_wire : Wire decode_WalletResponse wallet_response_to_value valid_response.
Proof.
  split; intros [result id|error id] Hv; cbn [wallet_response_to_value valid_response] in *.
  - unfold decode_WalletResponse, decode_response_success.
    rewrite strict_members_present; [|distinct_names|done]. wire_fields. done.
  - unfold decode_WalletResponse, decode_response_success, decode_response_error.
    rewrite (strict_members_present ["error"; "id"]%string); [|distinct_names|done]. wire_fields. done.
  - apply plain_struct; [distinct_names|]. plain_fields.
  - apply plain_struct; [distinct_names|]. plain_fields.
Qed.

Definition valid_embedded_response (response : EmbeddedResponse) : Prop :=
  match response with
  | EmbeddedResponse_Success result => valid_result result
  | EmbeddedResponse_Error error => valid_response_error error
  end.

#[export] Instance embedded_response_wire :
  Wire decode_EmbeddedResponse embedded_response_to_value valid_embedded_response.
Proof.
  split; intros [result|error] Hv; cbn [embedded_response_to_value valid_embedded_response] in *.
  - unfold decode_EmbeddedResponse. rewrite (strict_members_present ["result"]%string); [|distinct_names|done].
    by rewrite wire_required.
  - unfold decode_EmbeddedResponse. rewrite (strict_members_present ["error"]%string); [|distinct_names|done].
    by rewrite wire_required.
  - apply plain_struct; [distinct_names|]. plain_fields.
  - apply plain_struct; [distinct_names|]. plain_fields.
Qed.

(** ** Events *)

Definition valid_event_payload (p : ConnectEventPayload) : Prop :=
  Forall valid_reply (cep_items p) /\ valid_device (cep_device p).

#[export] Instance event_payload_wire :
  Wire decode_ConnectEventPayload event_payload_to_value valid_event_payload.
Proof.
  split; intros p [Hi Hd]; unfold event_payload_to_value.
  - unfold decode_ConnectEventPayload. rewrite strict_members_present; [|distinct_names|done].
    wire_fields. by destruct p.
  - apply plain_struct; [distinct_names|]. plain_fields.
Qed.

#[export] Instance event_error_wire : Wire decode_ConnectEventError event_error_to_value (fun _ => True).
Proof.
  split; intros e _; unfold event_error_to_value.
  - unfold decode_ConnectEventError. rewrite strict_members_present; [|distinct_names|done].
    wire_fields. by destruct e.
  - apply plain_struct; [distinct_names|]. plain_fields.
Qed.

Definition valid_event (event : WalletEvent) : Prop :=
  (event_id event <= u64_max)%N /\
  match event with
  | Event_Connect _ payload response =>
      valid_event_payload payload /\ from_option valid_embedded_response True response
  | _ => True
  end.

(** The variant of an event with its members. *)
Ltac event_branch :=
  match goal with
  | |- context [tagged_to_value ?tag ?name (zip ?names ?members)] =>
      rewrite (tagged_content_present tag name names members) by distinct_names;
      cbn [mbind option_bind fst snd];
      repeat (rewrite bool_decide_eq_false_2 by done); rewrite bool_decide_eq_true_2 by done;
      rewrite (strict_members_present names members) by (done || distinct_names)
  end.

#[export] Instance event_wire : Wire decode_ConnectEvent connect_event_to_value valid_event.
Proof.
  split; intros [id payload response|id payload|id] [Hid Hv]; cbn [connect_event_to_value event_id] in *.
  - destruct Hv as [Hp Hr]. unfold decode_ConnectEvent. event_branch. wire_fields. done.
  - unfold decode_ConnectEvent. event_branch. wire_fields. done.
  - unfold decode_ConnectEvent. event_branch. wire_fields. done.
  - destruct Hv as [Hp Hr]. apply plain_tagged; [distinct_names|plain_fields].
  - apply plain_tagged; [distinct_names|plain_fields].
  - apply plain_tagged; [distinct_names|]. plain_fields.
Qed.

(** ** Results *)

Definition valid_sign_result (r : SignDataResult) : Prop :=
  typed_bytes 64 (sig_bytes (sdr_signature r)) /\ well_typed (sdr_address r) /\
  (sdr_timestamp r <= u64_max)%N /\ valid_sign_data (sdr_payload r).

Lemma option_map_str (o : option rstr) : option_map to_value (Str <$> o) = (Str <$> o).
Proof. by destruct o. Qed.

Lemma option_map_account (o : option AccountAddress) :
  option_map to_value (account_to_value <$> o) = (account_to_value <$> o).
Proof. by destruct o. Qed.

(** The payload reads back from its map form. *)
Lemma sign_data_map_read payload :
  valid_sign_data payload -> decode_SignDataPayload (to_value (sign_data_to_value payload)) = Some payload.
Proof.
  intros (Hn & Hf & Hp). unfold decode_SignDataPayload.
  destruct payload as [text network from|data network from|schema cell network from];
    cbn [sign_data_to_value sign_data_constraints fst snd] in *;
    match goal with
    | |- context [tagged_to_value ?tag ?name (zip ?names ?members)] =>
        destruct (tagged_to_value_read tag name names members ltac:(distinct_names) ltac:(distinct_names) eq_refl)
          as (rest & Hc & Hm); rewrite Hc; cbn [mbind option_bind fst snd]; rewrite Hm
    end;
    cbn [map]; rewrite ?option_map_str, ?option_map_account; cbn [option_map to_value cell_to_value];
    fold (cell_to_value); unfold decode_network, network_id_try_from, base64_value_try_from;
    wire_fields; try done.
  change (Str (cb_encoded cell)) with (cell_to_value cell). wire_fields. done.
Qed.

Lemma sign_result_read r :
  valid_sign_result r -> decode_SignDataResult (sign_data_result_to_value r) = Some r.
Proof.
  intros (Hs & Ha & Ht & Hp). unfold decode_SignDataResult, sign_data_result_to_value.
  rewrite (strict_members_to_value sign_data_result_fields (sign_data_result_values r));
    [|distinct_names|done].
  unfold sign_data_result_values. cbn [map option_map].
  change (to_value (signature_to_value (sdr_signature r))) with (signature_to_value (sdr_signature r)).
  change (to_value (raw_to_value (sdr_address r))) with (raw_to_value (sdr_address r)).
  change (to_value (u64_to_value (sdr_timestamp r))) with (u64_to_value (sdr_timestamp r)).
  change (to_value (Str (sdr_domain r))) with (Str (sdr_domain r)).
  change (required (fun v => as_str v ≫= signature_from_str) (Some (signature_to_value (sdr_signature r))))
    with (required decode_signature (Some (signature_to_value (sdr_signature r)))).
  wire_fields. cbn [required mbind option_bind]. rewrite sign_data_map_read by done. by destruct r.
Qed.

(** The members of a map form are sorted, and plain when the values are. *)
Lemma map_form_valid (fields : list (rstr * Value)) :
  NoDup (map fst fields) -> Forall (fun field => plain field.2) fields -> valid_map (map_extend [] fields).
Proof.
  intros Hd Hp. destruct (map_extend_fresh fields []) as [HP HS]; [by rewrite app_nil_r|constructor|].
  rewrite app_nil_r in HP. split; [done|]. by rewrite HP.
Qed.

Lemma map_form_plain fields :
  NoDup (map fst fields) -> Forall (fun field => plain field.2) fields -> plain (Object (map_extend [] fields)).
Proof.
  intros Hd Hp. destruct (map_form_valid fields Hd Hp) as [Hs Hp'].
  apply plain_object; [by apply sorted_distinct|done].
Qed.

Lemma sign_data_map_plain payload : plain (to_value (sign_data_to_value payload)).
Proof.
  destruct payload as [text network from|data network from|schema cell network from];
    cbn [sign_data_to_value]; unfold tagged_to_value; cbn [to_value map]; rewrite present_map;
    (apply map_form_plain;
      [cbn [map fst]; apply NoDup_cons; split;
        [intros Hin%present_keys; revert Hin; distinct_names|apply present_distinct; distinct_names]
      |apply Forall_cons; split; [done|]; apply present_plain; cbn [map];
       rewrite ?option_map_str, ?option_map_account;
       repeat (apply Forall_cons; split; [first [done|by destruct network|by destruct from]|]); constructor]).
Qed.

(** The result object is a map. *)
Lemma sign_result_object r :
  exists fields, sign_data_result_to_value r = Object fields /\ valid_map fields.
Proof.
  unfold sign_data_result_to_value. cbn [to_value]. eexists. split; [done|]. rewrite present_map.
  apply map_form_valid; [apply present_distinct; distinct_names|].
  apply present_plain. unfold sign_data_result_values. cbn [map option_map].
  do 4 (apply Forall_cons; split; [done|]). apply Forall_cons; split; [|constructor].
  apply sign_data_map_plain.
Qed.

(** What a wallet sends to a dApp keeps its meaning on the wire: every connect event,
    every response and every signData result whose values the wire types can hold is read
    back as exactly itself, with its items, features, codes and optional members, although
    replies and responses are told apart only by their shape. *)
Theorem wallet_messages_roundtrip :
  (forall event, valid_event event -> decode_ConnectEvent (connect_event_to_value event) = Some event) /\
  (forall response, valid_response response ->
     decode_WalletResponse (wallet_response_to_value response) = Some response) /\
  (forall r, valid_sign_result r -> decode_SignDataResult (sign_data_result_to_value r) = Some r).
Proof.
  split; [intros; by apply wire_decode|]. split; [intros; by apply wire_decode|]. exact sign_result_read.
Qed.
End Replies.
