(* ===== verification/ConnectDerived.v ===== *)
(** * TON Connect requests at the engine boundary

    src/ton_connect.rs: the account and the proof of a reply, and transaction requests as
    send requests of the engine; src/ton_connect/derived.rs: the operations of a session
    whose keys are derived from the wallet. *)

From stdpp Require Import base numbers list option strings.
From S2P Require Import Prelude BoundaryTypes SendDomain Base64 ClientDomain Json CellBoc CellBocSpec.
From S2P Require Import SendWorkflow ClientState SendEngine.
From S2P Require Import ConnectSession ConnectValues Addresses ConnectRpc ConnectEmbedded.
From S2P Require Import ConnectSigning ConnectWalletState ConnectHandshake ConnectEventWire.
From S2P Require Import ConnectCrypto SessionBoundary WalletContract Lifecycle.

(** ** Boundary data *)

Inductive TonConnectDevicePlatform :=
  | Device_Iphone | Device_Ipad | Device_Android | Device_Windows | Device_Mac | Device_Linux
  | Device_Browser.

Record TonConnectDevice := mkTonConnectDevice {
  tcd_platform : TonConnectDevicePlatform;
  tcd_app_name : rstr;
  tcd_app_version : rstr;
}.

Record TonConnectProofReply := mkTonConnectProofReply {
  tpr_timestamp : N;
  tpr_domain : rstr;
  tpr_payload : rstr;
  tpr_signature : bytes;
}.

Inductive TonConnectRpcErrorCode :=
  | Code_Unknown | Code_BadRequest | Code_UnknownApp | Code_UserDeclined | Code_MethodNotSupported.

Inductive TonConnectIncomingRequest :=
  | Incoming_SendTransaction (id method : rstr) (request : SendRequest)
  | Incoming_SignMessage (id method : rstr) (request : SignMessageRequest)
  | Incoming_Disconnect (id method : rstr)
  | Incoming_Unsupported (id method : rstr) (error_code : TonConnectRpcErrorCode) (error_message : rstr)
  | Incoming_SignData (id method : rstr) (request : TonConnectSignDataRequest).

Inductive TransactionRequestKind := RequestKind_Send | RequestKind_Sign.

Record RequestContext := mkRequestContext {
  rc_network : rstr;
  rc_address : RawAccountAddress;
  rc_client_id : ClientId;
}.

Inductive TonConnectConnectErrorCode :=
  | ConnectError_ManifestNotFound | ConnectError_ManifestContent | ConnectError_UserDeclined.

Record TonConnectDerivedRequest := mkTonConnectDerivedRequest {
  tdr_request : TonConnectIncomingRequest;
  tdr_request_id : option N;
}.

Definition TON_CONNECT_MAX_MESSAGES : N := 255.
Definition CHALLENGE_LENGTH : nat := 104.
Definition CHALLENGE_ANSWER_LENGTH : nat := 32.

Definition device_platform (platform : TonConnectDevicePlatform) : DevicePlatform :=
  match platform with
  | Device_Iphone => Platform_Iphone | Device_Ipad => Platform_Ipad
  | Device_Android => Platform_Android | Device_Windows => Platform_Windows
  | Device_Mac => Platform_Mac | Device_Linux => Platform_Linux
  | Device_Browser => Platform_Browser
  end.

Definition rpc_error_code (code : TonConnectRpcErrorCode) : RpcErrorCode :=
  match code with
  | Code_Unknown => RpcCode_Unknown | Code_BadRequest => RpcCode_BadRequest
  | Code_UnknownApp => RpcCode_UnknownApp | Code_UserDeclined => RpcCode_UserDeclined
  | Code_MethodNotSupported => RpcCode_MethodNotSupported
  end.

Definition connect_error_code (code : TonConnectConnectErrorCode) : ConnectEventErrorCode :=
  match code with
  | ConnectError_ManifestNotFound => EventError_ManifestNotFound
  | ConnectError_ManifestContent => EventError_ManifestContent
  | ConnectError_UserDeclined => EventError_UserDeclined
  end.

Definition unsupported_request (id method : rstr) (code : TonConnectRpcErrorCode) (message : rstr)
  : TonConnectIncomingRequest :=
  Incoming_Unsupported id method code (bounded_diagnostic message).

Definition i64_max : N := 9223372036854775807.

(** Digits without a leading zero that fit a signed 64-bit value. *)
Definition checked_request_id (id : rstr) : option N :=
  match parse_uint 10 u64_max id with
  | Ok value =>
      if negb (bool_decide (u64_to_string value = id)) then None
      else if (value <=? i64_max)%N then Some value else None
  | Err _ => None
  end.

Definition app_request_fields : list string := ["method"; "params"; "id"]%string.

Definition decode_AppRequest (v : Value) : option AppRequest :=
  match strict_members app_request_fields v with
  | Some [method; params; id] =>
      method ← required as_str method;
      params ← required (decode_vec as_str) params;
      id ← required as_str id;
      Some (mkAppRequest method params id)
  | _ => None
  end.

(** ** Replies *)

(** [<[u8; N]>::try_from]. *)
Definition sized (size : nat) (data : bytes) (message : string) : result TonConnectSessionError bytes :=
  if (length data =? size)%nat then Ok data else Err (failed (lit message)).

Section Boundary.
Context `{BigUintText} `{Crc32c} `{TonCells} `{HexCrate} `{Crc16} `{UrlSafeBase64}.
Context `{TonAddressParser}.

Definition session_account_reply (account : TonConnectAccountInfo)
  : result TonConnectSessionError (TonAddressItemReply * rstr) :=
  let? address := map_err (fun _ => session_error SigningError_InvalidAddress)
                    (raw_from_str (tci_address account)) in
  let? network := map_err session_error (network_id_try_from (tci_network account)) in
  let? state_init := map_err session_error (wallet_state_try_from (tci_wallet_state_init account)) in
  let? public_key := sized 32 (tci_public_key account) "TON Connect public key must contain 32 bytes" in
  Ok (mkTonAddressItemReply address network state_init (mkEd25519PublicKey public_key), network).

Definition session_proof_reply (proof : TonConnectProofReply) : result TonConnectSessionError TonProof :=
  let? signature := sized 64 (tpr_signature proof) "TON Connect proof signature must contain 64 bytes" in
  let? domain := map_err session_error (ton_proof_domain_new (tpr_domain proof)) in
  Ok (mkTonProof (tpr_timestamp proof) domain (tpr_payload proof) (mkEd25519Signature signature)).

(** ** Transaction requests *)

Definition message_boc (cell : option CellBoc) : result TonConnectSessionError (option Boc) :=
  map_err session_error (traverse_option (fun cell => boc_try_from_bytes (cb_bytes cell)) cell).

(** One turn of the loop after the check of its currencies. *)
Definition decode_message (message : RawMessage) : result TonConnectSessionError SendMessage :=
  let? payload_boc := message_boc (rm_payload message) in
  let? state_init := message_boc (rm_state_init message) in
  let? destination :=
    ok_or (session_error TonAddressStringError_text)
      (ton_address_string_try_from (fa_encoded (rm_address message))) in
  let? amount := map_err session_error (uds_try_from (rm_amount message)) in
  Ok (mkSendMessage destination (Amount_Exact amount)
        match payload_boc with Some boc => Body_RawPayload boc | None => Body_Empty end
        (fa_bounceable (rm_address message)) state_init).

(** The loop: [None] when a message carries extra currencies. *)
Fixpoint decode_messages (messages : list RawMessage)
  : result TonConnectSessionError (option (list SendMessage)) :=
  match messages with
  | [] => Ok (Some [])
  | message :: rest =>
      if non_empty_currencies (rm_extra_currency message) then Ok None
      else
        let? decoded := decode_message message in
        let? rest := decode_messages rest in
        Ok (cons decoded <$> rest)
  end.

Definition operation_id (client_id : ClientId) (request_id : rstr) : rstr :=
  lit "ton-connect:" ++ client_id_to_string client_id ++ lit ":" ++ request_id.

Definition decode_transaction_request (context : RequestContext) (request_id method : rstr)
    (payload : TransactionPayload) (now : N) (kind : TransactionRequestKind)
  : result TonConnectSessionError TonConnectIncomingRequest :=
  match transaction_validate_context payload now (rc_network context) (rc_address context) with
  | Err error => Ok (unsupported_request request_id method Code_BadRequest (display error))
  | Ok _ =>
      match payload with
      | Payload_Structured _ _ =>
          Ok (unsupported_request request_id method Code_MethodNotSupported
                (lit "Structured transactions are not supported"))
      | Payload_Raw fields messages =>
          if (TON_CONNECT_MAX_MESSAGES <? N.of_nat (length messages))%N
          then Ok (unsupported_request request_id method Code_MethodNotSupported
                     (lit "Outgoing message batch exceeds wallet capability"))
          else
            let? decoded := decode_messages messages in
            match decoded with
            | None => Ok (unsupported_request request_id method Code_MethodNotSupported
                            (lit "Extra currencies are not supported"))
            | Some messages =>
                let? operation := map_err session_error
                  (nes_try_from (operation_id (rc_client_id context) request_id)) in
                let intent :=
                  mkSendIntent
                    match tc_valid_until fields with
                    | Some value => Expiration_Exact value
                    | None => Expiration_EngineDefault
                    end
                    messages in
                Ok match kind with
                   | RequestKind_Send =>
                       Incoming_SendTransaction request_id method (mkSendRequest operation false intent)
                   | RequestKind_Sign =>
                       Incoming_SignMessage request_id method (mkSignMessageRequest operation false intent)
                   end
            end
      end
  end.

(** ** Derived sessions *)

Context `{Sha256} `{Ed25519} `{Crc32Iso} `{HostParser} `{CryptoBox} `{SerdeJson}.

(** [encrypt] with the nonce of the random source. *)
Definition derived_encrypt (random : option bytes) (session : TonConnectDerivedSession) (payload : Value)
  : result TonConnectSessionError bytes :=
  let? plaintext := map_err session_error (value_to_vec payload) in
  map_err session_error (session_encrypt random (tds_crypto session) (tds_peer session) plaintext).

Definition derived_decode (session : TonConnectDerivedSession) (request : AppRequest) (now : N)
  : result TonConnectSessionError TonConnectIncomingRequest :=
  let id := ar_id request in
  let method := ar_method request in
  let context := mkRequestContext (tds_network session) (tds_address session)
                   (sc_client_id (tds_crypto session)) in
  match app_request_decode request with
  | Ok (Request_SendTransaction _ payload) =>
      decode_transaction_request context id method payload now RequestKind_Send
  | Ok (Request_SignMessage _ _) =>
      Ok (unsupported_request id method Code_MethodNotSupported (lit "Method is not supported"))
  | Ok (Request_SignData _ payload) =>
      match sign_data_validate_context payload (tds_network session) (tds_address session) with
      | Err error => Ok (unsupported_request id method Code_BadRequest (display error))
      | Ok _ => Ok (Incoming_SignData id method (sign_data_request payload))
      end
  | Ok (Request_Disconnect _) => Ok (Incoming_Disconnect id method)
  | Err error => Ok (unsupported_request id method Code_BadRequest (display error))
  end.

Definition public_key_hex (session : TonConnectDerivedSession) : rstr :=
  client_id_to_string (sc_client_id (tds_crypto session)).

Definition open_challenge (session : TonConnectDerivedSession) (challenge : bytes)
  : result TonConnectSessionError bytes :=
  if negb (length challenge =? CHALLENGE_LENGTH)%nat
  then Err (failed (lit "TON Connect challenge must contain exactly 104 bytes"))
  else
    let ephemeral := take 32 challenge in
    let sealed := drop 32 challenge in
    let? answer := map_err session_error
      (session_decrypt (tds_crypto session) (mkClientId ephemeral) sealed) in
    if negb (length answer =? CHALLENGE_ANSWER_LENGTH)%nat
    then Err (failed (lit "TON Connect challenge answer must contain 32 bytes"))
    else Ok answer.

Definition decrypt_request (session : TonConnectDerivedSession) (body : bytes) (now : N)
  : result TonConnectSessionError TonConnectDerivedRequest :=
  let? plaintext := map_err session_error (session_decrypt (tds_crypto session) (tds_peer session) body) in
  let? request := map_err session_error (decode_slice decode_AppRequest plaintext) in
  let? decoded := derived_decode session request now in
  Ok (mkTonConnectDerivedRequest decoded (checked_request_id (ar_id request))).

Definition device_info (device : TonConnectDevice) : result TonConnectSessionError DeviceInfo :=
  let? send := map_err session_error (message_feature_new TON_CONNECT_MAX_MESSAGES (Some false) None) in
  let? data := map_err session_error
    (sign_data_feature_new [DataType_Text; DataType_Binary; DataType_Cell]) in
  map_err session_error
    (device_info_new (device_platform (tcd_platform device)) (tcd_app_name device)
       (tcd_app_version device) PROTOCOL_VERSION [Feature_SendTransaction send; Feature_SignData data]).

Definition encrypt_connect_event (random : option bytes) (session : TonConnectDerivedSession)
    (event_id : N) (account : TonConnectAccountInfo) (proof : option TonConnectProofReply)
    (device : TonConnectDevice) : result TonConnectSessionError bytes :=
  let? reply := session_account_reply account in
  if negb (bool_decide (reply.2 = tds_network session))
     || negb (bool_decide (tar_address reply.1 = tds_address session))
  then Err (failed (lit "TON Connect account does not belong to this session"))
  else if negb (bool_decide (pk_bytes (tar_public_key reply.1) = tds_signing_public_key session))
  then Err (failed (lit "TON Connect account must advertise the session's signing public key"))
  else
    let? proofs := traverse_option session_proof_reply proof in
    let? device := device_info device in
    derived_encrypt random session
      (connect_event_to_value
         (Event_Connect event_id
            (mkConnectEventPayload
               (Reply_TonAddress reply.1 :: option_list (Reply_TonProof <$> proofs)) device) None)).

Definition encrypt_connect_error (random : option bytes) (session : TonConnectDerivedSession)
    (event_id : N) (code : TonConnectConnectErrorCode) (message : rstr)
  : result TonConnectSessionError bytes :=
  derived_encrypt random session
    (connect_event_to_value
       (Event_ConnectError event_id
          (mkConnectEventError (connect_error_code code) (bounded_diagnostic message)))).

Definition encrypt_send_success (random : option bytes) (session : TonConnectDerivedSession)
    (request_id signed_boc : rstr) : result TonConnectSessionError bytes :=
  let? boc := map_err session_error (cell_boc_try_from signed_boc) in
  derived_encrypt random session
    (wallet_response_to_value (Response_Success (Result_String (cb_encoded boc)) request_id)).

Definition encrypt_sign_data_success (random : option bytes) (session : TonConnectDerivedSession)
    (request_id : rstr) (signed_data : TonConnectSignedData) : result TonConnectSessionError bytes :=
  if negb (bool_decide (tsd_public_key signed_data = tds_signing_public_key session))
  then Err (failed (lit "TON Connect signData was not signed with the session's signing key"))
  else
    let? signature := sized 64 (tsd_signature signed_data)
                        "TON Connect signData signature must contain 64 bytes" in
    let? payload := sign_data_payload (tsd_request signed_data) (tds_network session)
                      (tds_address session) (tsd_domain signed_data) in
    let result := mkSignDataResult (mkEd25519Signature signature) (tds_address session)
                    (tsd_timestamp signed_data) (tsd_domain signed_data) payload in
    let? verified := map_err session_error
      (sign_data_verify result (mkEd25519PublicKey (tds_signing_public_key session))) in
    if negb verified
    then Err (failed (lit "TON Connect signData signature does not match its request"))
    else
      match sign_data_result_to_value result with
      | Object object =>
          derived_encrypt random session
            (wallet_response_to_value (Response_Success (Result_Object object) request_id))
      | _ => Err (failed (lit "TON Connect signData result must be an object"))
      end.

Definition encrypt_disconnect_success (random : option bytes) (session : TonConnectDerivedSession)
    (request_id : rstr) : result TonConnectSessionError bytes :=
  derived_encrypt random session
    (wallet_response_to_value (Response_Success (Result_Object []) request_id)).

Definition encrypt_error (random : option bytes) (session : TonConnectDerivedSession)
    (request_id : rstr) (code : TonConnectRpcErrorCode) (message : rstr)
  : result TonConnectSessionError bytes :=
  derived_encrypt random session
    (wallet_response_to_value
       (Response_Error (mkWalletResponseError (rpc_error_code code) (bounded_diagnostic message) None)
          request_id)).

Definition encrypt_disconnect_event (random : option bytes) (session : TonConnectDerivedSession)
    (event_id : N) : result TonConnectSessionError bytes :=
  derived_encrypt random session (connect_event_to_value (Event_Disconnect event_id)).
End Boundary.
