(* ===== verification/ConnectDerivedSpec.v ===== *)
(** * Requests and answers of derived sessions

    What the engine makes of a dApp's transaction request, and that the answers of a
    session reach the dApp: the chain from the recovery phrase over the signature to the
    check on the other side. *)

From stdpp Require Import base numbers list option strings sorting gmap.
From Stdlib Require Import Sorted.
From S2P Require Import Prelude BoundaryTypes SendDomain Base64 ClientDomain Json CellBoc.
From S2P Require Import CellBocSpec SendWorkflow ClientState SendEngine ConnectSession.
From S2P Require Import ConnectValues Addresses ConnectRpc ConnectRpcSpec ConnectEmbedded.
From S2P Require Import ConnectSigning ConnectSigningSpec ConnectWalletState ConnectHandshake.
From S2P Require Import ConnectEventWire ConnectCrypto SessionBoundary WordList Mnemonic.
From S2P Require Import WalletContract WalletKeys Lifecycle ConnectDerived.

Section Transactions.
Context `{BigUintText} `{Crc32c} `{TonCells} `{TonAddressCodec}.

(** ** Transaction requests *)

(** The engine's message for a message of the dApp: the same account, value, body,
    bounce flag and initial state. *)
Definition carries (message : RawMessage) (sent : SendMessage) : Prop :=
  tas_value (sm_destination sent) = fa_encoded (rm_address message) /\
  tas_address (sm_destination sent)
  = mkTonAddress (raa_workchain (fa_raw (rm_address message))) (raa_hash (fa_raw (rm_address message))) /\
  sm_amount sent = Amount_Exact (mkUnsignedDecimalString (dec_value (rm_amount message))) /\
  sm_body sent = match rm_payload message with
                 | Some cell => Body_RawPayload (mkBoc (cb_bytes cell))
                 | None => Body_Empty
                 end /\
  sm_bounce sent = fa_bounceable (rm_address message) /\
  sm_state_init sent = (fun cell => mkBoc (cb_bytes cell)) <$> rm_state_init message.

Lemma valid_cell_boc cell : valid_cell cell -> boc_try_from_bytes (cb_bytes cell) = Ok (mkBoc (cb_bytes cell)).
Proof.
  intros [text Hc]. unfold cell_boc_try_from, cell_boc_from_value in Hc.
  apply rbind_ok in Hc as (encoded & _ & Hc). apply rbind_ok in Hc as (data & _ & Hc).
  apply rbind_ok in Hc as ([] & Hp & [= <-]). cbn [cb_bytes]. unfold parse_single_root in Hp.
  apply rbind_ok in Hp as (u & Hv%map_err_ok & Hp). unfold boc_try_from_bytes. rewrite Hv. cbn [map_err rbind].
  by destruct (ton_core_accepts data).
Qed.

Lemma message_boc_valid cell :
  from_option valid_cell True cell -> message_boc cell = Ok ((fun cell => mkBoc (cb_bytes cell)) <$> cell).
Proof.
  intros Hc. unfold message_boc. destruct cell as [cell|]; [|done]. cbn [traverse_option].
  by rewrite valid_cell_boc.
Qed.

Lemma valid_friendly_read f :
  valid_friendly f ->
  ton_address_string_try_from (fa_encoded f)
  = Some (mkTonAddressString (fa_encoded f) (mkTonAddress (raa_workchain (fa_raw f)) (raa_hash (fa_raw f)))).
Proof.
  intros [text Hf]. destruct (friendly_read _ _ Hf) as (_ & Hl & Hr).
  eapply friendly_text_read; [|exact Hr]. pose proof Hr as [Hw _]%friendly_from_raw_ok.
  split; [lia|]. split; [done|].
  unfold friendly_try_from in Hf. apply if_err_ok in Hf as [_ Hf]. apply rbind_ok in Hf as (data & Hd%ok_or_ok & Hf).
  pose proof (decode_bytes text data ltac:(tauto)) as Hu.
  apply if_err_ok in Hf as [_ Hf]. apply rbind_ok in Hf as (payload & _ & Hf).
  apply rbind_ok in Hf as (checksum & _ & Hf). apply if_err_ok in Hf as [_ Hf].
  apply rbind_ok in Hf as (tag & _ & Hf). apply rbind_ok in Hf as (b & _ & Hf).
  apply rbind_ok in Hf as (byte & _ & Hf). apply if_err_ok in Hf as [_ Hf].
  apply rbind_ok in Hf as (hash & Hh%ok_or_ok & [= <-]). cbn [fa_raw raa_hash].
  unfold get_range in Hh. destruct (_ <=? _)%nat; [|done]. injection Hh as <-.
  by apply Forall_take, Forall_drop.
Qed.

(** One message: it is carried when its amount is canonical and fails otherwise. *)
Lemma decode_message_spec message :
  valid_message message ->
  if is_canonical_unsigned_decimal (rm_amount message)
  then exists sent, decode_message message = Ok sent /\ carries message sent
  else exists error, decode_message message = Err error.
Proof.
  intros (Ha & Hm & Hp & Hs & _). unfold decode_message. rewrite !message_boc_valid by done. cbn [rbind].
  rewrite valid_friendly_read by done. cbn [ok_or rbind].
  destruct (is_canonical_unsigned_decimal (rm_amount message)) eqn:Ec.
  - rewrite (proj2 (uds_try_from_canonical (rm_amount message)
      (mkUnsignedDecimalString (dec_value (rm_amount message)))) (conj Ec eq_refl)).
    cbn [map_err rbind]. eexists. split; [done|].
    repeat split; try done. cbn. by destruct (rm_payload message).
  - unfold uds_try_from. rewrite Ec. by eexists.
Qed.

(** The message carries no extra currency. *)
Definition no_currencies (message : RawMessage) : Prop :=
  forall c, rm_extra_currency message = Some c -> ec_entries c = [].

Lemma no_currencies_spec message :
  no_currencies message <-> non_empty_currencies (rm_extra_currency message) = false.
Proof.
  unfold no_currencies, non_empty_currencies, currencies_is_empty.
  destruct (rm_extra_currency message) as [[[|]]|]; cbn; naive_solver.
Qed.

(** An amount with a zero before its other digits. *)
Definition leading_zero (message : RawMessage) : Prop :=
  exists digit rest, rm_amount message = 48%N :: digit :: rest.

(** A decimal text is canonical unless it has a leading zero. *)
Lemma amount_canonical message :
  valid_message message ->
  (~ leading_zero message -> is_canonical_unsigned_decimal (rm_amount message) = true) /\
  (leading_zero message -> is_canonical_unsigned_decimal (rm_amount message) = false).
Proof.
  intros (_ & [Hne [_ Hd]%utf8_digits]%andb_true_iff & _). split.
  - intros Hz. apply canonical_spec. split; [done|].
    destruct (rm_amount message) as [|c [|digit rest]] eqn:E; [done|by exists c, []|].
    exists c, (digit :: rest). split; [done|]. intros ->. destruct Hz. by exists digit, rest.
  - intros (digit & rest & E). apply not_true_iff_false.
    intros (_ & c & t & Ht & Hz)%canonical_spec. rewrite E in Ht. injection Ht as <- <-. by specialize (Hz eq_refl).
Qed.

Definition canonical_amount (message : RawMessage) : Prop :=
  is_canonical_unsigned_decimal (rm_amount message) = true.

Lemma decode_messages_sound messages decoded :
  Forall valid_message messages -> decode_messages messages = Ok (Some decoded) ->
  Forall no_currencies messages /\ Forall canonical_amount messages /\ Forall2 carries messages decoded.
Proof.
  intros Hv. revert decoded. induction Hv as [|message messages Hm Hv IH]; intros decoded;
    cbn [decode_messages]; [by intros [= <-]|].
  destruct (non_empty_currencies _) eqn:Hc; [done|]. apply no_currencies_spec in Hc. intros (sent & Hs & Hd)%rbind_ok.
  apply rbind_ok in Hd as ([rest|] & Hr & Hd); [|done]. injection Hd as <-.
  destruct (IH _ Hr) as (Hn & Ha & Hf). pose proof (decode_message_spec message Hm) as Hspec.
  destruct (is_canonical_unsigned_decimal (rm_amount message)) eqn:Ec.
  - destruct Hspec as (sent' & Hs' & Hcar). assert (sent' = sent) as -> by congruence.
    split; [by constructor|]. split; by constructor.
  - destruct Hspec as [error Herr]. congruence.
Qed.

Lemma decode_messages_complete messages :
  Forall valid_message messages -> Forall no_currencies messages ->
  if forallb (fun message => is_canonical_unsigned_decimal (rm_amount message)) messages
  then exists decoded, decode_messages messages = Ok (Some decoded)
  else exists error, decode_messages messages = Err error.
Proof.
  intros Hv Hn. revert Hv. induction Hn as [|message messages Hc Hn IH]; intros Hv; [by eexists|].
  apply Forall_cons_1 in Hv as [Hm Hv]. specialize (IH Hv). cbn [forallb decode_messages].
  apply no_currencies_spec in Hc. rewrite Hc.
  pose proof (decode_message_spec message Hm) as Hspec.
  destruct (is_canonical_unsigned_decimal (rm_amount message)); cbn [andb].
  - destruct Hspec as (sent & -> & _). cbn [rbind]. destruct (forallb _ messages).
    + destruct IH as [decoded ->]. by eexists.
    + destruct IH as [error ->]. by eexists.
  - destruct Hspec as [error ->]. by eexists.
Qed.

(** What the host receives for an accepted request. *)
Definition accepted (kind : TransactionRequestKind) (id method : rstr) (operation : NonEmptyString)
    (intent : SendIntent) : TonConnectIncomingRequest :=
  match kind with
  | RequestKind_Send => Incoming_SendTransaction id method (mkSendRequest operation false intent)
  | RequestKind_Sign => Incoming_SignMessage id method (mkSignMessageRequest operation false intent)
  end.

Definition expiration_of (fields : TransactionContext) : SendExpiration :=
  match tc_valid_until fields with
  | Some value => Expiration_Exact value
  | None => Expiration_EngineDefault
  end.

(** The request is for the connected account on its network, and still valid. *)
Record addressed_to (context : RequestContext) (now : N) (fields : TransactionContext) : Prop := {
  still_valid : forall until, tc_valid_until fields = Some until -> (now <= until)%N;
  same_network : forall network, tc_network fields = Some network -> network = rc_network context;
  same_account : forall address, tc_from fields = Some address ->
    match address with Address_Raw raw => raw | Address_Friendly friendly => fa_raw friendly end
    = rc_address context;
}.

Lemma addressed_to_spec context now fields messages :
  transaction_validate_context (Payload_Raw fields messages) now (rc_network context) (rc_address context)
  = Ok tt <-> addressed_to context now fields.
Proof.
  unfold transaction_validate_context, validate_network_and_account. cbn [payload_context].
  destruct fields as [until network from]. cbn [tc_valid_until tc_network tc_from]. rewrite !if_err_ok. split.
  - intros (Hu & Hn & Hf & _). split; cbn [tc_valid_until tc_network tc_from].
    + intros t ->. by apply N.ltb_ge.
    + intros n ->. by case_bool_decide.
    + intros a ->. unfold account_raw_address in Hf. by case_bool_decide.
  - intros [Hu Hn Hf]. cbn [tc_valid_until tc_network tc_from] in *. split; [|split; [|split; [|done]]].
    + destruct until as [t|]; [|done]. by apply N.ltb_ge, Hu.
    + destruct network as [n|]; [|done]. by rewrite bool_decide_eq_true_2 by (by apply Hn).
    + destruct from as [a|]; [|done]. unfold account_raw_address. by rewrite bool_decide_eq_true_2 by (by apply Hf).
Qed.

Lemma operation_id_named client_id id :
  nes_try_from (operation_id client_id id) = Ok (mkNonEmptyString (operation_id client_id id)).
Proof.
  unfold nes_try_from. destruct (trim (operation_id client_id id)) as [|c s] eqn:E; [|done].
  by apply trim_nil_iff in E.
Qed.

(** Different clients or requests have different operations. *)
Lemma operation_id_inj a b id id' :
  typed_bytes 32 (cid_bytes a) -> typed_bytes 32 (cid_bytes b) ->
  operation_id a id = operation_id b id' -> a = b /\ id = id'.
Proof.
  intros [Hla Hua] [Hlb Hub] E. unfold operation_id, client_id_to_string in E. apply app_inv_head in E.
  assert (length (hex_encode (cid_bytes a)) = length (hex_encode (cid_bytes b))) as Hl
    by (by rewrite !hex_encode_length, Hla, Hlb).
  apply app_inj_1 in E as [Eh E]; [|done]. split; [|by injection E].
  apply (f_equal hex_decode) in Eh. rewrite !hex_decode_encode in Eh by done.
  destruct a, b. cbn in Eh. congruence.
Qed.

Lemma decode_raw context id method fields messages now kind :
  transaction_validate_context (Payload_Raw fields messages) now (rc_network context) (rc_address context) = Ok tt ->
  (N.of_nat (length messages) <= TON_CONNECT_MAX_MESSAGES)%N ->
  decode_transaction_request context id method (Payload_Raw fields messages) now kind
  = rbind (decode_messages messages) (fun decoded =>
      Ok match decoded with
         | None => unsupported_request id method Code_MethodNotSupported
                     (lit "Extra currencies are not supported")
         | Some sent =>
             accepted kind id method (mkNonEmptyString (operation_id (rc_client_id context) id))
               (mkSendIntent (expiration_of fields) sent)
         end).
Proof.
  intros Hc Hl. unfold decode_transaction_request. rewrite Hc. rewrite (proj2 (N.ltb_ge _ _) Hl).
  destruct (decode_messages messages) as [[sent|]|error]; cbn [rbind]; try done.
  rewrite operation_id_named. cbn [map_err rbind]. by destruct kind.
Qed.

(** C24: a transaction request of a dApp becomes a send of exactly its messages.  When it
    is accepted, its account and network, where it names them, are the connected ones, its
    time limit, where it has one, has not passed, it holds at most 255 messages without
    extra currencies, and every message keeps its account, value, body, bounce flag and
    initial state, in order, under an operation name that no other request or session has.
    Every such request is accepted when no amount has a leading zero, and fails with an
    error, not with an answer for the dApp, when one has. *)
Theorem transaction_request_decoded context id method payload now kind :
  valid_payload payload ->
  (forall operation intent,
     decode_transaction_request context id method payload now kind
     = Ok (accepted kind id method operation intent) ->
     exists fields messages, payload = Payload_Raw fields messages /\
       addressed_to context now fields /\
       1 <= length messages <= 255 /\ Forall no_currencies messages /\
       nes_str operation = operation_id (rc_client_id context) id /\
       si_expiration intent = expiration_of fields /\ Forall2 carries messages (si_messages intent)) /\
  (forall fields messages, payload = Payload_Raw fields messages ->
     addressed_to context now fields -> length messages <= 255 -> Forall no_currencies messages ->
     (Forall (fun message => ~ leading_zero message) messages ->
        exists intent, decode_transaction_request context id method payload now kind
        = Ok (accepted kind id method (mkNonEmptyString (operation_id (rc_client_id context) id)) intent)) /\
     (Exists leading_zero messages ->
        exists error, decode_transaction_request context id method payload now kind = Err error)) /\
  (forall other other_id, typed_bytes 32 (cid_bytes (rc_client_id context)) ->
     typed_bytes 32 (cid_bytes other) ->
     operation_id other other_id = operation_id (rc_client_id context) id ->
     other = rc_client_id context /\ other_id = id).
Proof.
  intros Hv. split; [|split; [|intros; by apply operation_id_inj]].
  - intros operation intent Hd. unfold decode_transaction_request in Hd.
    destruct (transaction_validate_context payload now _ _) as [[]|] eqn:Hc; [|by destruct kind].
    destruct payload as [fields messages|]; [|by destruct kind]. apply addressed_to_spec in Hc.
    destruct (N.ltb_spec TON_CONNECT_MAX_MESSAGES (N.of_nat (length messages))); [by destruct kind|].
    destruct Hv as (_ & Hne & Hm). apply rbind_ok in Hd as ([sent|] & Hs & Hd); [|by destruct kind].
    destruct (decode_messages_sound _ _ Hm Hs) as (Hn & _ & Hf). rewrite operation_id_named in Hd.
    cbn [map_err rbind] in Hd. exists fields, messages. split; [done|]. split; [done|].
    unfold TON_CONNECT_MAX_MESSAGES in *. split; [destruct messages; [done|simpl in *; lia]|].
    split; [done|]. destruct kind; injection Hd as <- <-; done.
  - intros fields messages -> Hc Hl Hn. destruct Hv as (_ & _ & Hm).
    rewrite decode_raw by ((by apply addressed_to_spec) || unfold TON_CONNECT_MAX_MESSAGES; lia).
    pose proof (decode_messages_complete messages Hm Hn) as Hd.
    destruct (forallb _ messages) eqn:Ef; destruct Hd as [sent ->]; cbn [rbind].
    + split; [by eexists|]. intros Hz. exfalso. apply Exists_exists in Hz as (m & Hin & Hz).
      rewrite Forall_forall in Hm. destruct (amount_canonical m (Hm m Hin)) as [_ Hb].
      apply forallb_forall with (x := m) in Ef; [|by apply list_elem_of_In]. by rewrite Hb in Ef.
    + split; [|by eexists]. intros Hz. exfalso. apply not_true_iff_false in Ef. apply Ef, forallb_forall.
      intros m Hin%list_elem_of_In. rewrite Forall_forall in Hm, Hz. by apply (amount_canonical m (Hm m Hin)), Hz.
Qed.
End Transactions.

(** ** Answers of a session *)

Section Answers.
Context `{TonAddressCodec} `{Sha256} `{Sha512} `{Ed25519Keys} `{Crc32c} `{TonCells}.
Context `{!TonStates} `{Crc32Iso} `{HostParser} `{CryptoBox} `{SerdeJson}.

(** A vault is a host: its answers are those of a run. *)
Lemma vault_runs {A} (op : lifecycle A) v v' a :
  run_vault op v = (v', a) ->
  exists events, lifecycle_runs op events a /\
    forall request answer rest, events = Secret_Answered request answer :: rest ->
      answer = ok_or (SecretHostFailed Secret_NotFound []) (v !! psr_value (psd_secret_ref request)).
Proof.
  revert v v'. induction op as [b|request next IH|request next IH|secret_ref next IH]; intros v v' Hr;
    cbn [run_vault] in Hr.
  - injection Hr as <- <-. exists []. split; [constructor|done].
  - destruct (IH _ _ _ Hr) as (events & Hev & _). eexists. split; [by constructor|done].
  - destruct (IH _ _ _ Hr) as (events & Hev & _). eexists. split; [by constructor|].
    by intros req answer rest [= <- <- <-].
  - destruct (IH _ _ _ Hr) as (events & Hev & _). eexists. split; [by constructor|done].
Qed.

(** A guarded success against a vault rests on the stored secret of the record. *)
Lemma guarded_vault {A} descriptor reason (op : operation A) justified v v' a :
  guarded descriptor reason op justified -> run_vault op v = (v', Ok a) ->
  validate_descriptor descriptor = Ok tt /\
  exists data, v !! psr_value (secret_ref_for (wd_record_id descriptor)) = Some data /\ justified data a.
Proof.
  intros Hg Hr. destruct (vault_runs _ _ _ _ Hr) as (events & Hev & Hans).
  destruct (Hg _ _ Hev) as [[_ [error Herr]]|(Hv & prompt & answer & -> & Hj)]; [done|].
  split; [done|]. destruct (Hj a eq_refl) as (data & -> & Hd). exists data. split; [|done].
  specialize (Hans _ _ _ eq_refl). cbn [psd_secret_ref] in Hans. by apply eq_sym, ok_or_ok in Hans.
Qed.

Lemma unlocks_unique descriptor data wallet wallet' :
  unlocks descriptor data wallet -> unlocks descriptor data wallet' -> wallet = wallet'.
Proof. intros (p & Hp & Hw & _) (p' & Hp' & Hw' & _). congruence. Qed.

Lemma descriptor_address_typed descriptor :
  validate_descriptor descriptor = Ok tt -> well_typed (ton_connect_address descriptor).
Proof.
  intros (_ & _ & state & (Hw & Hl & Hu & _)%public_state_typed)%validate_descriptor_ok.
  unfold ton_connect_address, well_typed. cbn [raa_workchain raa_hash]. rewrite Hw. split; [lia|done].
Qed.

Lemma account_read text a : account_address_try_from text = Ok a -> valid_account a.
Proof.
  intros Ha. destruct a as [raw|f]; [|by exists text]. unfold account_address_try_from in Ha.
  destruct (raw_from_str text) as [r|] eqn:E; [|by destruct (friendly_try_from text)].
  injection Ha as <-. by eapply raw_from_str_well_typed.
Qed.

Lemma traverse_option_ok {E A B} (f : A -> result E B) (o : option A) r (P : B -> Prop) :
  (forall a b, f a = Ok b -> P b) -> traverse_option f o = Ok r -> from_option P True r.
Proof.
  intros Hf. destruct o as [a|]; cbn [traverse_option]; [|by intros [= <-]].
  destruct (f a) as [b|] eqn:Hb; [|done]. intros [= <-]. by eapply Hf.
Qed.

(** A checked request is a value of the protocol. *)
Lemma sign_data_payload_valid request network address domain payload :
  sign_data_payload request network address domain = Ok payload -> valid_sign_data payload.
Proof.
  unfold sign_data_payload. intros (? & _ & Hp)%rbind_ok.
  apply rbind_ok in Hp as (constraint & Hn%map_err_ok & Hp).
  apply rbind_ok in Hp as (from & Hf%map_err_ok & Hp).
  assert (from_option (fun n => valid_network_id n = true) True constraint) as Hn'.
  { eapply traverse_option_ok, Hn. intros a b. unfold network_id_try_from, validated_string.
    destruct (valid_network_id a) eqn:E; [by intros [= <-]|done]. }
  pose proof (traverse_option_ok _ _ _ valid_account account_read Hf) as Hf'.
  apply rbind_ok in Hp as (checked & Hc & Hp). apply rbind_ok in Hp as (? & _ & [= <-]).
  destruct (sdq_payload request) as [text|data|schema cell].
  - injection Hc as <-. done.
  - apply rbind_ok in Hc as (b & Hb%map_err_ok & [= <-]). split; [done|]. split; [done|]. cbn.
    unfold base64_value_try_from, validated_string in Hb. destruct (valid_base64 data) eqn:E; [|done].
    by injection Hb as <-.
  - apply rbind_ok in Hc as (c & Hb%map_err_ok & [= <-]). split; [done|]. split; [done|]. by exists cell.
Qed.

(** The payload is the request that was shown for approval, for the account and the network
    of the session. *)
Record approved (request : TonConnectSignDataRequest) (network : rstr) (address : RawAccountAddress)
    (payload : SignDataPayload) : Prop := {
  approved_data :
    match sdq_payload request, payload with
    | Data_Text text, SignData_Text text' _ _ => text' = text
    | Data_Binary data, SignData_Binary data' _ _ => data' = data
    | Data_Cell schema cell, SignData_Cell schema' cell' _ _ => schema' = schema /\ cb_encoded cell' = cell
    | _, _ => False
    end;
  approved_network : (sign_data_constraints payload).1 = sdq_network request;
  approved_from :
    match sdq_from request, (sign_data_constraints payload).2 with
    | Some text, Some from => account_address_try_from text = Ok from
    | None, None => True
    | _, _ => False
    end;
  approved_here : forall constraint, sdq_network request = Some constraint -> constraint = network;
  approved_for : forall from, (sign_data_constraints payload).2 = Some from ->
    match from with Address_Raw raw => raw | Address_Friendly friendly => fa_raw friendly end = address;
}.

Lemma sign_data_payload_approved request network address domain payload :
  sign_data_payload request network address domain = Ok payload -> approved request network address payload.
Proof.
  unfold sign_data_payload. intros (? & _ & Hp)%rbind_ok.
  apply rbind_ok in Hp as (constraint & Hn%map_err_ok & Hp).
  apply rbind_ok in Hp as (from & Hf%map_err_ok & Hp).
  assert (constraint = sdq_network request) as ->.
  { destruct (sdq_network request) as [n|]; cbn in Hn; [|by injection Hn as <-].
    unfold network_id_try_from, validated_string in Hn. destruct (valid_network_id n); [|done]. by injection Hn as <-. }
  apply rbind_ok in Hp as (checked & Hc & Hp). apply rbind_ok in Hp as (? & Hx%map_err_ok & [= <-]).
  assert (sign_data_constraints checked = (sdq_network request, from) /\
    match sdq_payload request, checked with
    | Data_Text text, SignData_Text text' _ _ => text' = text
    | Data_Binary data, SignData_Binary data' _ _ => data' = data
    | Data_Cell schema cell, SignData_Cell schema' cell' _ _ => schema' = schema /\ cb_encoded cell' = cell
    | _, _ => False
    end) as [Hk Hd].
  { destruct (sdq_payload request) as [text|data|schema cell].
    - by injection Hc as <-.
    - apply rbind_ok in Hc as (b & Hb%map_err_ok & [= <-]). unfold base64_value_try_from, validated_string in Hb.
      destruct (valid_base64 data); [|done]. by injection Hb as <-.
    - apply rbind_ok in Hc as (c & Hb%map_err_ok & [= <-]). apply cell_boc_text in Hb. done. }
  unfold sign_data_validate_context, validate_network_and_account in Hx. rewrite Hk in Hx. cbn [fst snd] in Hx.
  apply if_err_ok in Hx as [Hx1 Hx]. apply if_err_ok in Hx as [Hx2 _].
  constructor; rewrite ?Hk; cbn [fst snd]; [done|done| | |].
  - destruct (sdq_from request) as [text|]; cbn in Hf; [|by injection Hf as <-].
    destruct (account_address_try_from text) as [a|]; [|done]. by injection Hf as <-.
  - intros n E. rewrite E in Hx1. by case_bool_decide.
  - intros a ->. unfold account_raw_address in Hx2. by case_bool_decide.
Qed.

(** The request made of a payload leads back to that payload. *)
Lemma approved_payload_returns sent network address payload :
  valid_sign_data sent -> approved (sign_data_request sent) network address payload -> 
  valid_sign_data payload -> payload = sent.
Proof.
  intros (_ & Ha & Hs) [Hd Hn Hf _ _] (_ & _ & Hv). unfold sign_data_request in *.
  assert (forall a a', valid_account a -> account_address_try_from (account_address_to_string a) = Ok a' -> a' = a) as Hback.
  { intros a a' Hva E. pose proof (wire_decode a Hva) as Hw. unfold decode_account, account_to_value in Hw.
    cbn [as_str mbind option_bind] in Hw. rewrite E in Hw. by injection Hw. }
  assert (forall c c', valid_cell c -> valid_cell c' -> cb_encoded c' = cb_encoded c -> c' = c) as Hcell.
  { intros c c' [text Hc] [text' Hc'] E. rewrite (cell_boc_text _ _ Hc), (cell_boc_text _ _ Hc') in E. subst. congruence. }
  destruct sent as [text n from|data n from|schema cell n from], payload as [text' n' from'|data' n' from'|schema' cell' n' from'];
    cbn [sdq_payload sdq_network sdq_from sign_data_constraints fst snd] in *; try done;
    (assert (from' = from) as -> by (destruct from, from'; cbn in *; try done; f_equal; by apply Hback)); subst; [done..|].
  destruct Hd as [-> E]. f_equal. by apply Hcell.
Qed.

(** What a session encrypts, the dApp decrypts and reads. *)
Lemma derived_answer_read session app nonce value text body :
  matching (tds_crypto session) -> matching app -> tds_peer session = sc_client_id app ->
  length nonce = NONCE_LENGTH -> value_to_vec value = Ok text -> document_from_slice text = Ok value ->
  derived_encrypt (Some nonce) session value = Ok body ->
  session_decrypt app (sc_client_id (tds_crypto session)) body = Ok text /\
  forall A (decode : Value -> option A) a, decode value = Some a -> decode_slice decode text = Ok a.
Proof.
  intros Hs Ha Hp Hn Ht Hd. unfold derived_encrypt, session_encrypt. rewrite Ht, Hp. cbn [map_err rbind ok_or].
  intros He%map_err_ok. split; [by eapply sealed_message_opens|].
  intros A decode a E. unfold decode_slice. rewrite Hd. cbn [rbind]. by rewrite E.
Qed.

(** C22: signed data reaches the dApp and convinces it: when a session was derived and a
    request was signed with the stored phrase of the same wallet, the session answers it
    (none of its own checks refuses), and the dApp, which holds the other end of the
    session, decrypts the answer, reads the text, bytes or cell, the domain and the time
    that were approved, which is the very payload it sent when the request was made of it,
    and verifies the signature with the session's signing key. *)
Theorem signed_data_reaches_dapp (session_request : TonConnectDerivedSessionRequest)
    (sign_request : TonConnectSignDataSignRequest) (session : TonConnectDerivedSession)
    (signed : TonConnectSignedData) (app : SessionCrypto) (nonce : bytes) (id : rstr)
    (v v' v'' : gmap rstr bytes) :
  dsr_descriptor session_request = sds_descriptor sign_request ->
  run_vault (derive_ton_connect_session session_request) v = (v', Ok session) ->
  run_vault (sign_ton_connect_data sign_request) v = (v'', Ok signed) ->
  client_id_from_str (dsr_dapp_client_id session_request) = Ok (sc_client_id app) -> matching app ->
  length nonce = NONCE_LENGTH -> (sds_timestamp sign_request <= u64_max)%N ->
  exists value fields result,
    encrypt_sign_data_success (Some nonce) session id signed = derived_encrypt (Some nonce) session value /\
    decode_SignDataResult (Object fields) = Some result /\
    sdr_address result = ton_connect_address (sds_descriptor sign_request) /\
    sdr_domain result = sds_domain sign_request /\ sdr_timestamp result = sds_timestamp sign_request /\
    approved (sds_request sign_request) (tds_network session) (tds_address session) (sdr_payload result) /\
    (forall sent, valid_sign_data sent -> sds_request sign_request = sign_data_request sent ->
       sdr_payload result = sent) /\
    sign_data_verify result (mkEd25519PublicKey (tds_signing_public_key session)) = Ok true /\
    forall text body, value_to_vec value = Ok text -> document_from_slice text = Ok value ->
      derived_encrypt (Some nonce) session value = Ok body ->
      session_decrypt app (sc_client_id (tds_crypto session)) body = Ok text /\
      decode_slice decode_WalletResponse text = Ok (Response_Success (Result_Object fields) id).
Proof.
  intros Hdesc Hs Hd Hpeer Happ Hn Ht.
  destruct (guarded_vault _ _ _ _ _ _ _ (session_guarded session_request) Hs) as (Hv & data & Hdata & Ho).
  destruct (guarded_vault _ _ _ _ _ _ _ (data_guarded sign_request) Hd) as (_ & data' & Hdata' & Hg).
  rewrite Hdesc in *. assert (data' = data) as -> by congruence.
  destruct Ho as (wallet & Hu & Hp & Hc & Hk & Ha & Hnet).
  destruct Hg as (wallet' & payload & Hu' & Hreq & Hdom & Htime & Hk' & [digest Hsig] & Hpay & Hver).
  rewrite Hdesc in *. assert (wallet' = wallet) as -> by (by eapply unlocks_unique).
  assert (typed_bytes 64 (tsd_signature signed)) as Hts.
  { rewrite Hsig. split; [apply ed25519_sign_length|apply ed25519_sign_u8s]. }
  set (result := mkSignDataResult (mkEd25519Signature (tsd_signature signed)) (tds_address session)
                   (tsd_timestamp signed) (tsd_domain signed) payload).
  assert (valid_sign_result result) as Hvr.
  { split; [done|]. split; [cbn; rewrite Ha; by apply descriptor_address_typed|].
    split; [cbn; by rewrite Htime|]. by eapply sign_data_payload_valid. }
  destruct (sign_result_object result) as (fields & Hf & Hm).
  exists (wallet_response_to_value (Response_Success (Result_Object fields) id)), fields, result.
  rewrite <- Hf, sign_result_read by done. split; [|split; [done|]].
  - unfold encrypt_sign_data_success. rewrite bool_decide_eq_true_2 by congruence. cbn [negb].
    unfold sized. rewrite (proj2 (Nat.eqb_eq _ _) (proj1 Hts)). cbn [rbind].
    rewrite Hreq, Hnet, Hdom, Ha, Hpay. cbn [rbind].
    rewrite Hk, <- Hk', <- Hdom, Hver. cbn [map_err rbind negb].
    unfold result in Hf. rewrite Ha in Hf. by rewrite Hf.
  - rewrite Ha, Hnet. cbn [sdr_address sdr_domain sdr_timestamp sdr_payload result].
    do 3 (split; [done|]). pose proof (sign_data_payload_approved _ _ _ _ _ Hpay) as Happr.
    split; [done|]. split.
    { intros sent Hsent Esent. rewrite Esent in Happr. eapply approved_payload_returns; [done|exact Happr|].
      by eapply sign_data_payload_valid. }
    split; [unfold result; by rewrite Ha, Hk, <- Hk'|].
    intros text body Htext Hdoc Hbody.
    pose proof (fun a b => derived_answer_read session app nonce _ text body a Happ b Hn Htext Hdoc Hbody) as Hanswer.
    destruct (Hanswer ltac:(by rewrite Hc) ltac:(congruence)) as [Hdec Hread].
    split; [done|]. apply Hread. by apply wire_decode.
Qed.

(** ** The connect event *)

(** An account with the key of its proof, as the account's documentation asks for. *)
Definition with_public_key (info : TonConnectAccountInfo) (key : bytes) : TonConnectAccountInfo :=
  mkTonConnectAccountInfo (tci_address info) (tci_network info) (tci_wallet_state_init info) key.

Definition proof_answer (request : TonConnectProofSignRequest) (signed : TonConnectProofSignature)
  : TonConnectProofReply :=
  mkTonConnectProofReply (psr_timestamp request) (psr_domain request) (psr_payload request)
    (tps_signature signed).

Lemma unlocked_key_typed descriptor data wallet :
  unlocks descriptor data wallet ->
  u8s (wd_public_key descriptor) /\ typed_bytes 32 (signing_public_key wallet).
Proof.
  intros (phrase & _ & Hw & _ & <-). unfold derive_wallet in Hw.
  apply rbind_ok in Hw as (m & _ & Hw). apply rbind_ok in Hw as (w & Hw%ok_or_ok & [= <-]).
  split; [|split; [apply verifying_key_length|apply verifying_key_u8s]]. cbn [sw_wallet].
  unfold ton_wallet_new in Hw. apply bind_Some in Hw as (? & _ & Hw). apply bind_Some in Hw as (? & _ & Hw).
  apply fmap_Some in Hw as (? & _ & ->). apply verifying_key_u8s.
Qed.

(** The device of the wallet is a device of the protocol. *)
Lemma device_info_valid device :
  tcd_app_name device <> [] -> tcd_app_version device <> [] ->
  exists info, device_info device = Ok info /\ valid_device info.
Proof.
  destruct device as [platform [|c name] [|c' version]]; intros Hn Hv; try done.
  eexists. split; [vm_compute; reflexivity|]. split; [done|].
  split; [|done]. repeat (apply Forall_cons; split; [done|]). constructor.
Qed.

(** The account of the session in a reply. *)
Lemma account_reply_published descriptor info key :
  validate_descriptor descriptor = Ok tt -> u8s (wd_public_key descriptor) -> typed_bytes 32 key ->
  derive_ton_connect_account descriptor = Ok info ->
  exists reply, session_account_reply (with_public_key info key)
    = Ok (reply, global_id (wd_network descriptor)) /\ valid_account_reply reply /\
    tar_address reply = ton_connect_address descriptor /\ tar_public_key reply = mkEd25519PublicKey key /\
    tar_network reply = global_id (wd_network descriptor) /\
    (key = wd_public_key descriptor ->
     reply_verify_standard_wallet reply = Ok (mkStandardWalletState Wallet (mkEd25519PublicKey key))).
Proof.
  intros Hv Hu Hk Hi. destruct (published_account_verifies _ _ Hu Hi) as (state & Hs & Ha & Hn & Hw).
  eexists. unfold session_account_reply, with_public_key.
  cbn [tci_address tci_network tci_wallet_state_init tci_public_key].
  rewrite Ha, Hn, Hs. unfold sized. rewrite (proj2 (Nat.eqb_eq _ _) (proj1 Hk)). cbn [map_err rbind].
  split; [done|]. split; [|split; [done|split; [done|split; [done|]]]].
  - split; [by apply descriptor_address_typed|]. split; [by destruct (wd_network descriptor)|].
    split; [by eexists|done].
  - intros ->. unfold reply_verify_standard_wallet. cbn [tar_wallet_state_init tar_address tar_public_key].
    unfold derive_ton_connect_account in Hi. apply rbind_ok in Hi as (? & _ & Hi).
    apply rbind_ok in Hi as (? & _ & Hi). apply rbind_ok in Hi as (? & _ & [= <-]). exact Hw.
Qed.

(** A signed proof in a reply. *)
Lemma proof_reply_verifies request data signed :
  proves request data signed -> (psr_timestamp request <= u64_max)%N ->
  exists proof, session_proof_reply (proof_answer request signed) = Ok proof /\ valid_proof proof /\
    tpd_value (tp_domain proof) = psr_domain request /\ tp_payload proof = psr_payload request /\
    tp_timestamp proof = psr_timestamp request /\
    proof_verify proof (ton_connect_address (psr_descriptor request))
      (mkEd25519PublicKey (tps_public_key signed)) = Ok true.
Proof.
  intros (wallet & digest & _ & Hk & Hsig & Hh & Hv) Ht. unfold session_proof_reply, proof_answer.
  cbn [tpr_signature tpr_domain tpr_timestamp tpr_payload].
  assert (typed_bytes 64 (tps_signature signed)) as Hs
    by (rewrite Hsig; split; [apply ed25519_sign_length|apply ed25519_sign_u8s]).
  unfold sized. rewrite (proj2 (Nat.eqb_eq _ _) (proj1 Hs)). cbn [rbind].
  assert (exists n, u32_length (utf8 (psr_domain request)) = Ok n) as [n Hn].
  { unfold ton_proof_signing_hash, ton_proof_message in Hh. destruct (u32_length _); [by eexists|done]. }
  unfold ton_proof_domain_new. rewrite Hn. cbn [rbind map_err]. eexists. split; [done|].
  split; [|split; [done|split; [done|split; [done|]]]].
  - split; [done|]. split; [|done]. unfold valid_domain, ton_proof_domain_new. cbn [tp_domain tpd_value]. by rewrite Hn.
  - unfold proof_verify, proof_signing_hash. cbn [tp_domain tp_timestamp tp_payload tp_signature tpd_value].
    by rewrite Hh.
Qed.

(** C23: the connect event reaches the dApp and convinces it: with the session, the account
    and the proof of one wallet, the session sends the event (none of its checks refuses),
    the dApp decrypts it and reads the wallet's address, network and state with the proof
    for the requested domain and payload, which verifies under the key of the reply; and as
    long as the keys were not rotated the account itself verifies against its state. *)
Theorem connect_event_reaches_dapp (session_request : TonConnectDerivedSessionRequest)
    (proof_request : TonConnectProofSignRequest) (session : TonConnectDerivedSession)
    (signed : TonConnectProofSignature) (info : TonConnectAccountInfo) (device : TonConnectDevice)
    (app : SessionCrypto) (nonce : bytes) (id : N) (v v' v'' : gmap rstr bytes) :
  dsr_descriptor session_request = psr_descriptor proof_request ->
  run_vault (derive_ton_connect_session session_request) v = (v', Ok session) ->
  run_vault (sign_ton_connect_proof proof_request) v = (v'', Ok signed) ->
  ton_connect_account (psr_descriptor proof_request) = Ok info ->
  client_id_from_str (dsr_dapp_client_id session_request) = Ok (sc_client_id app) -> matching app ->
  length nonce = NONCE_LENGTH -> (psr_timestamp proof_request <= u64_max)%N -> (id <= u64_max)%N ->
  tcd_app_name device <> [] -> tcd_app_version device <> [] ->
  exists value reply proof wallet_device,
    encrypt_connect_event (Some nonce) session id (with_public_key info (tps_public_key signed))
      (Some (proof_answer proof_request signed)) device = derived_encrypt (Some nonce) session value /\
    tar_address reply = ton_connect_address (psr_descriptor proof_request) /\
    tar_network reply = global_id (wd_network (psr_descriptor proof_request)) /\
    tpd_value (tp_domain proof) = psr_domain proof_request /\ tp_payload proof = psr_payload proof_request /\
    proof_verify proof (tar_address reply) (tar_public_key reply) = Ok true /\
    (tps_public_key signed = wd_public_key (psr_descriptor proof_request) ->
     proof_verify_with_account proof reply = Ok true) /\
    forall text body, value_to_vec value = Ok text -> document_from_slice text = Ok value ->
      derived_encrypt (Some nonce) session value = Ok body ->
      session_decrypt app (sc_client_id (tds_crypto session)) body = Ok text /\
      decode_slice decode_ConnectEvent text
      = Ok (Event_Connect id
              (mkConnectEventPayload [Reply_TonAddress reply; Reply_TonProof proof] wallet_device) None).
Proof.
  intros Hdesc Hs Hd Hi Hpeer Happ Hn Ht Hid Hname Hversion.
  destruct (guarded_vault _ _ _ _ _ _ _ (session_guarded session_request) Hs) as (Hv & data & Hdata & Ho).
  destruct (guarded_vault _ _ _ _ _ _ _ (proof_guarded proof_request) Hd) as (_ & data' & Hdata' & Hg).
  rewrite Hdesc in *. assert (data' = data) as -> by congruence.
  destruct Ho as (wallet & Hu & Hp & Hc & Hk & Ha & Hnet). rewrite Hdesc in *.
  destruct (unlocked_key_typed _ _ _ Hu) as [Hanchor Htk].
  assert (tps_public_key signed = signing_public_key wallet) as Hkey.
  { destruct Hg as (wallet' & digest & Hu' & Hk' & _). rewrite Hk'. f_equal. by eapply unlocks_unique. }
  destruct (proof_reply_verifies _ _ _ Hg Ht) as (proof & Hproof & Hvp & Hdom & Hpay & _ & Hver).
  rewrite <- Hkey in Htk.
  destruct (account_reply_published _ _ _ Hv Hanchor Htk Hi) as (reply & Hr & Hvr & Har & Hkr & Hnr & Hstd).
  destruct (device_info_valid device Hname Hversion) as (wallet_device & Hdev & Hvd).
  set (event := Event_Connect id
    (mkConnectEventPayload [Reply_TonAddress reply; Reply_TonProof proof] wallet_device) None : WalletEvent).
  exists (connect_event_to_value event), reply, proof, wallet_device. split.
  - unfold encrypt_connect_event. rewrite Hr. cbn [rbind fst snd].
    rewrite !bool_decide_eq_true_2 by congruence. cbn [negb orb].
    rewrite bool_decide_eq_true_2 by (rewrite Hkr, Hk; exact Hkey). cbn [negb traverse_option].
    rewrite Hproof, Hdev. done.
  - do 4 (split; [done|]). split; [by rewrite Har, Hkr|]. split.
    + intros E. unfold proof_verify_with_account. rewrite (Hstd E). cbn [map_err rbind sws_public_key].
      by rewrite Har, Hver.
    + intros text body Htext Hdoc Hbody.
      pose proof (fun a b => derived_answer_read session app nonce _ text body a Happ b Hn Htext Hdoc Hbody) as Hanswer.
      destruct (Hanswer ltac:(by rewrite Hc) ltac:(congruence)) as [Hdec Hread].
      split; [done|]. apply Hread, wire_decode. split; [done|]. split; [|done]. split; [|done].
      by repeat (apply Forall_cons; split; [done|]).
Qed.
End Answers.
