(* ===== verification/ConnectClient.v ===== *)
(** * The TON Connect client

    The endpoints and the encrypted messages of a bridge
    (crates/ton-connect-core/src/http_bridge.rs), the durable state of a session
    (http_session.rs) and the client that runs a session over the bridge
    (crates/ton-connect-client/src/lib.rs). *)

From stdpp Require Import base numbers list option strings sorting.
From S2P Require Import Prelude BoundaryTypes SendDomain Base64 ClientDomain Json CellBoc.
From S2P Require Import CellBocSpec ConnectSession ConnectValues ConnectBridge Addresses ConnectRpc.
From S2P Require Import ConnectEmbedded ConnectSigning ConnectWalletState ConnectHandshake.
From S2P Require Import ConnectLink ConnectCrypto SessionBoundary ConnectEventWire ConnectDerived.

(** ** Bridges *)

Inductive HeartbeatMode := Heartbeat_Legacy | Heartbeat_Message.

Definition heartbeat_as_str (mode : HeartbeatMode) : rstr :=
  match mode with
  | Heartbeat_Legacy => lit "legacy"
  | Heartbeat_Message => lit "message"
  end.

(** More of [url::Url]: [set_path], which keeps query and fragment, and whether the host
    is an address of the loopback network.  Parsing the text of a parsed URL gives the
    same URL. *)
Class UrlBridge `{UrlQuery} `{!UrlParts} := {
  url_set_path : Url -> rstr -> Url;
  url_host_loopback : Url -> bool;
  url_set_path_query u path : url_has_query (url_set_path u path) = url_has_query u;
  url_set_path_fragment u path : url_fragment (url_set_path u path) = url_fragment u;
  url_parse_as_str text u : url_parse text = Some u -> url_parse (url_as_str u) = Some u;
}.

Inductive BridgeCodecError :=
  | UnexpectedPeer
  | Codec_Json (error : rstr)
  | Codec_Rpc (error : RpcError)
  | Codec_InvalidBase64 (error : ValueError)
  | Codec_Crypto (error : SessionCryptoError).

(** [trim_end_matches('/')]. *)
Definition trim_end_slashes (path : rstr) : rstr :=
  reverse (drop_while (fun c => (c =? 47)%N) (reverse path)).

Section Bridges.
Context `{UrlBridge}.

Record HttpBridgeUrl := mkHttpBridgeUrl { hb_url : Url }.

Record PreparedBridgePost := mkPreparedBridgePost {
  pbp_url : Url;
  pbp_body : rstr;
}.

Definition bridge_url_try_from (value : rstr) : result HttpBridgeError HttpBridgeUrl :=
  let? parsed := ok_or Bridge_InvalidUrl (url_parse value) in
  let secure := bool_decide (url_scheme parsed = lit "https") && url_has_host parsed in
  let loopback :=
    bool_decide (url_scheme parsed = lit "http") &&
    match url_host parsed with
    | Some (Host_Domain domain) => bool_decide (map to_ascii_lowercase domain = lit "localhost")
    | Some Host_Ipv4 | Some Host_Ipv6 => url_host_loopback parsed
    | None => false
    end in
  if (negb secure && negb loopback) || url_has_query parsed || bool_decide (is_Some (url_fragment parsed))
  then Err Bridge_InvalidUrl
  else Ok (mkHttpBridgeUrl parsed).

Definition bridge_as_str (bridge : HttpBridgeUrl) : rstr := url_as_str (hb_url bridge).

Definition endpoint (bridge : HttpBridgeUrl) (suffix : string) : Url :=
  url_set_path (hb_url bridge) (trim_end_slashes (url_path (hb_url bridge)) ++ lit "/" ++ lit suffix).

Definition events_endpoint_for_ids (bridge : HttpBridgeUrl) (client_ids : rstr)
    (last_event_id trace_id : option rstr) (heartbeat : HeartbeatMode) : Url :=
  url_append_pairs (endpoint bridge "events")
    (parameter "client_id" (Some client_ids) ++ parameter "last_event_id" last_event_id
     ++ parameter "trace_id" trace_id ++ parameter "heartbeat" (Some (heartbeat_as_str heartbeat))).

Context `{HexCrate}.

Definition events_endpoint_with_heartbeat (bridge : HttpBridgeUrl) (client_id : ClientId)
    (last_event_id trace_id : option rstr) (heartbeat : HeartbeatMode) : Url :=
  events_endpoint_for_ids bridge (client_id_to_string client_id) last_event_id trace_id heartbeat.

Definition events_endpoint (bridge : HttpBridgeUrl) (client_id : ClientId)
    (last_event_id trace_id : option rstr) : Url :=
  events_endpoint_with_heartbeat bridge client_id last_event_id trace_id Heartbeat_Message.

Definition events_endpoint_many_with_heartbeat (bridge : HttpBridgeUrl) (client_ids : list ClientId)
    (last_event_id trace_id : option rstr) (heartbeat : HeartbeatMode) : result HttpBridgeError Url :=
  if is_empty client_ids then Err EmptySubscription
  else
    Ok (events_endpoint_for_ids bridge (join (lit ",") (map client_id_to_string client_ids))
          last_event_id trace_id heartbeat).

Definition events_endpoint_many (bridge : HttpBridgeUrl) (client_ids : list ClientId)
    (last_event_id trace_id : option rstr) : result HttpBridgeError Url :=
  events_endpoint_many_with_heartbeat bridge client_ids last_event_id trace_id Heartbeat_Message.

Definition message_pairs (sender recipient : ClientId) (ttl : N) (topic trace_id : option rstr)
  : list (rstr * rstr) :=
  parameter "client_id" (Some (client_id_to_string sender))
  ++ parameter "to" (Some (client_id_to_string recipient))
  ++ parameter "ttl" (Some (u64_to_string ttl)) ++ parameter "topic" topic
  ++ parameter "trace_id" trace_id.

Definition message_endpoint (bridge : HttpBridgeUrl) (sender recipient : ClientId) (ttl : N)
    (topic trace_id : option rstr) : Url :=
  url_append_pairs (endpoint bridge "message") (message_pairs sender recipient ttl topic trace_id).

Context `{SerdeJson} `{CryptoBox} `{Base64Engine}.

(** The payload is the value that serde writes; the nonce comes from the random source. *)
Definition bridge_prepare_post (random : option bytes) (bridge : HttpBridgeUrl) (crypto : SessionCrypto)
    (recipient : ClientId) (ttl : N) (topic trace_id : option rstr) (payload : Value)
  : result BridgeCodecError PreparedBridgePost :=
  let? plaintext := map_err Codec_Json (value_to_vec payload) in
  let? encrypted := map_err Codec_Crypto (session_encrypt random crypto recipient plaintext) in
  let? body := map_err Codec_InvalidBase64 (base64_value_try_from (standard_encode encrypted)) in
  Ok (mkPreparedBridgePost
        (message_endpoint bridge (sc_client_id crypto) recipient ttl topic trace_id) body).

Definition message_decrypt {A} (decode : Value -> option A) (message : BridgeSseMessage)
    (crypto : SessionCrypto) (expected_peer : ClientId) : result BridgeCodecError A :=
  if negb (bool_decide (bm_from (bs_message message) = expected_peer)) then Err UnexpectedPeer
  else
    let? encrypted := map_err Codec_InvalidBase64 (decode_base64 (bm_message (bs_message message))) in
    let? plaintext := map_err Codec_Crypto (session_decrypt crypto expected_peer encrypted) in
    map_err Codec_Json (decode_slice decode plaintext).
End Bridges.
Arguments mkHttpBridgeUrl {_}.
Arguments mkPreparedBridgePost {_}.

(** The envelope of a request as serde writes it. *)
Definition app_request_to_value (request : AppRequest) : Value :=
  Object (present (zip app_request_fields
    [Some (Str (ar_method request)); Some (Array (map Str (ar_params request)));
     Some (Str (ar_id request))])).

(** [prepare_app_request_post]: the side of the dApp. *)
Definition prepare_app_request_post `{UrlBridge} `{HexCrate} `{SerdeJson} `{CryptoBox} `{Base64Engine}
    (random : option bytes) (bridge : HttpBridgeUrl) (crypto : SessionCrypto) (recipient : ClientId)
    (ttl : N) (trace_id : option rstr) (request : KnownAppRequest)
  : result BridgeCodecError PreparedBridgePost :=
  bridge_prepare_post random bridge crypto recipient ttl (Some (method_as_str (rpc_method request)))
    trace_id (app_request_to_value (app_request_encode request)).

(** ** Durable sessions *)

(** A struct with [deny_unknown_fields] whose options may be absent. *)
Definition strict_shape (names : list string) (v : Value) : option (Shape * list (option Value)) :=
  if known_members names v then struct_members names v else None.

Inductive HttpSessionError :=
  | InvalidKeyPair (error : SessionKeyPairError)
  | InvalidEventId
  | InvalidAccountBinding.

Definition validate_account_binding {A} (phase : WalletSessionPhase) (address : option A)
  : result HttpSessionError unit :=
  match phase, address with
  | PendingConnect, None | Connected, Some _ | Disconnected, _ => Ok tt
  | PendingConnect, Some _ | Connected, None => Err InvalidAccountBinding
  end.

Definition validate_event_id (value : option rstr) : result HttpSessionError unit :=
  match value with
  | Some value =>
      if contains 0%N value || contains 13%N value || contains 10%N value
      then Err InvalidEventId else Ok tt
  | None => Ok tt
  end.

Definition http_session_fields : list string :=
  ["keyPair"; "peerClientId"; "bridgeUrl"; "reducer"; "connectedAddress"; "lastBridgeEventId"]%string.

Section HttpSessions.
Context `{UrlBridge} `{HexCrate} `{CryptoBox}.

Record PersistedHttpSession := mkPersistedHttpSession {
  phs_key_pair : PersistedSessionKeyPair;
  phs_peer_client_id : ClientId;
  phs_bridge_url : HttpBridgeUrl;
  phs_reducer : WalletSessionState;
  phs_connected_address : option RawAccountAddress;
  phs_last_bridge_event_id : option rstr;
}.

#[export] Instance eta_PersistedHttpSession : Eta PersistedHttpSession := fun s =>
  mkPersistedHttpSession (phs_key_pair s) (phs_peer_client_id s) (phs_bridge_url s) (phs_reducer s)
    (phs_connected_address s) (phs_last_bridge_event_id s).

Definition http_session_new (crypto : SessionCrypto) (peer_client_id : ClientId)
    (bridge_url : HttpBridgeUrl) (reducer : WalletSessionState)
    (connected_address : option RawAccountAddress) (last_bridge_event_id : option rstr)
  : result HttpSessionError PersistedHttpSession :=
  let? _ := validate_event_id last_bridge_event_id in
  let? _ := validate_account_binding (wss_phase reducer) connected_address in
  Ok (mkPersistedHttpSession (persisted_keypair crypto) peer_client_id bridge_url reducer
        connected_address last_bridge_event_id).

Definition restore_crypto (session : PersistedHttpSession) : result HttpSessionError SessionCrypto :=
  map_err InvalidKeyPair (from_persisted (phs_key_pair session)).

Definition set_last_bridge_event_id (value : option rstr)
  : method PersistedHttpSession HttpSessionError unit :=
  do! mlift (validate_event_id value);
  mupdate (fun s => s <| phs_last_bridge_event_id := value |>).

Definition set_reducer (reducer : WalletSessionState) (connected_address : option RawAccountAddress)
  : method PersistedHttpSession HttpSessionError unit :=
  do! mlift (validate_account_binding (wss_phase reducer) connected_address);
  mupdate (fun s => s <| phs_reducer := reducer |> <| phs_connected_address := connected_address |>).

Definition bridge_url_to_value (bridge : HttpBridgeUrl) : Value := Str (bridge_as_str bridge).

Definition decode_bridge_url (v : Value) : option HttpBridgeUrl :=
  as_str v ≫= fun text => result_ok (bridge_url_try_from text).

(** Derived [Serialize]: absent options are [null]. *)
Definition http_session_to_value (s : PersistedHttpSession) : Value :=
  Object (present (zip http_session_fields (map Some
    [key_pair_to_value (phs_key_pair s);
     Str (client_id_to_string (phs_peer_client_id s));
     bridge_url_to_value (phs_bridge_url s);
     session_to_value (phs_reducer s);
     nullable_to_value raw_to_value (phs_connected_address s);
     nullable_to_value Str (phs_last_bridge_event_id s)]))).

Definition decode_PersistedHttpSession (v : Value) : option PersistedHttpSession :=
  match strict_shape http_session_fields v with
  | Some (shape, [key_pair; peer; bridge; reducer; address; cursor]) =>
      key_pair ← required decode_key_pair key_pair;
      peer ← required decode_client_id peer;
      bridge ← required decode_bridge_url bridge;
      reducer ← required decode_session reducer;
      address ← optional decode_raw_address shape address;
      cursor ← optional as_str shape cursor;
      _ ← result_ok (validate_event_id cursor);
      _ ← result_ok (validate_account_binding (wss_phase reducer) address);
      _ ← result_ok (from_persisted key_pair);
      Some (mkPersistedHttpSession key_pair peer bridge reducer address cursor)
  | _ => None
  end.
End HttpSessions.
Arguments mkPersistedHttpSession {_}.

(** ** Requests of the dApp *)

Record IncomingRequest := mkIncomingRequest {
  ir_request : AppRequest;
  ir_trace_id : option rstr;
  ir_closes_session : bool;
}.

Definition incoming_fields : list string := ["request"; "traceId"; "closesSession"]%string.

Definition incoming_to_value (incoming : IncomingRequest) : Value :=
  Object (present (zip incoming_fields (map Some
    [app_request_to_value (ir_request incoming); nullable_to_value Str (ir_trace_id incoming);
     Bool (ir_closes_session incoming)]))).

Definition decode_PersistedIncomingRequest (v : Value) : option IncomingRequest :=
  match strict_shape incoming_fields v with
  | Some (shape, [request; trace_id; closes]) =>
      request ← required decode_AppRequest request;
      trace_id ← optional (decode_validated trace_id_try_from) shape trace_id;
      closes ← required as_bool closes;
      Some (mkIncomingRequest request trace_id closes)
  | _ => None
  end.

(** ** The client *)

Inductive TonConnectClientError :=
  | MissingConnectRequest
  | MissingConnectedAddress
  | ResponseIdMismatch
  | InvalidPendingRequest
  | PendingRequestJson (error : rstr)
  | Client_Link (error : ConnectLinkError)
  | Client_Crypto (error : SessionCryptoError)
  | Client_ConnectValidation (error : ConnectValidationError)
  | Client_SessionState (error : SessionStateError)
  | Client_HttpBridge (error : HttpBridgeError)
  | Client_BridgeCodec (error : BridgeCodecError)
  | Client_ResponseValidation (error : ResponseValidationError)
  | Client_HttpSession (error : HttpSessionError)
  | Client_EmbeddedRequest (error : EmbeddedRequestError).

Definition connected_address (event : WalletEvent) : option RawAccountAddress :=
  match event with
  | Event_Connect _ payload _ =>
      find_map (fun reply => tar_address <$> account_reply reply) (cep_items payload)
  | _ => None
  end.

Definition response_id (response : WalletResponse) : rstr :=
  match response with Response_Success _ id | Response_Error _ id => id end.

Section Client.
Context `{UrlBridge} `{SerdeJson}.
Context `{Crc32c} `{TonCoreBoc} `{HexCrate} `{Crc16} `{UrlSafeBase64} `{CryptoBox}.

Record TonConnectClientConfig := mkTonConnectClientConfig {
  ccc_bridge_url : HttpBridgeUrl;
  ccc_max_event_bytes : N;
  ccc_message_ttl_seconds : N;
  ccc_heartbeat : HeartbeatMode;
}.

Record TonConnectClient := mkTonConnectClient {
  tcc_connect_request : option ConnectRequest;
  tcc_embedded_request : option EmbeddedRequest;
  tcc_initial_trace_id : option rstr;
  tcc_peer_client_id : ClientId;
  tcc_bridge_url : HttpBridgeUrl;
  tcc_max_event_bytes : N;
  tcc_message_ttl_seconds : N;
  tcc_heartbeat : HeartbeatMode;
  tcc_crypto : SessionCrypto;
  tcc_reducer : WalletSessionState;
  tcc_connected_address : option RawAccountAddress;
  tcc_last_bridge_event_id : option rstr;
  tcc_decoder : BridgeSseDecoder;
}.

#[export] Instance eta_TonConnectClient : Eta TonConnectClient := fun c =>
  mkTonConnectClient (tcc_connect_request c) (tcc_embedded_request c) (tcc_initial_trace_id c)
    (tcc_peer_client_id c) (tcc_bridge_url c) (tcc_max_event_bytes c) (tcc_message_ttl_seconds c)
    (tcc_heartbeat c) (tcc_crypto c) (tcc_reducer c) (tcc_connected_address c)
    (tcc_last_bridge_event_id c) (tcc_decoder c).

Record PersistedTonConnectClient := mkPersistedTonConnectClient {
  ptc_session : PersistedHttpSession;
  ptc_connect_request : option ConnectRequest;
  ptc_embedded_request : option rstr;
  ptc_initial_trace_id : option rstr;
}.

Definition client_fields : list string :=
  ["session"; "connectRequest"; "embeddedRequest"; "initialTraceId"]%string.

Definition client_to_value (p : PersistedTonConnectClient) : Value :=
  Object (present (zip client_fields (map Some
    [http_session_to_value (ptc_session p);
     nullable_to_value connect_request_to_value (ptc_connect_request p);
     nullable_to_value Str (ptc_embedded_request p);
     nullable_to_value Str (ptc_initial_trace_id p)]))).

Definition decode_PersistedTonConnectClient (v : Value) : option PersistedTonConnectClient :=
  match strict_shape client_fields v with
  | Some (shape, [session; connect_request; embedded_request; initial_trace_id]) =>
      session ← required decode_PersistedHttpSession session;
      connect_request ← optional decode_ConnectRequest shape connect_request;
      embedded_request ← optional as_str shape embedded_request;
      initial_trace_id ← optional (decode_validated trace_id_try_from) shape initial_trace_id;
      let pending := bool_decide (wss_phase (phs_reducer session) = PendingConnect) in
      if negb (eqb pending (bool_decide (is_Some connect_request)))
         || (bool_decide (is_Some embedded_request) && negb (bool_decide (is_Some connect_request)))
      then None
      else
        _ ← result_ok (traverse_option decode_embedded_request_param embedded_request);
        Some (mkPersistedTonConnectClient session connect_request embedded_request initial_trace_id)
  | _ => None
  end.

Definition incoming_decode (incoming : IncomingRequest) : result RpcError KnownAppRequest :=
  app_request_decode (ir_request incoming).

Definition incoming_persisted (incoming : IncomingRequest) : rstr :=
  value_to_string (incoming_to_value incoming).

Definition is_disconnect (decoded : result RpcError KnownAppRequest) : bool :=
  match decoded with Ok (Request_Disconnect _) => true | _ => false end.

Definition incoming_restore (persisted : rstr) : result TonConnectClientError IncomingRequest :=
  let? wire := map_err PendingRequestJson (decode_slice decode_PersistedIncomingRequest (utf8 persisted)) in
  if negb (eqb (is_disconnect (incoming_decode wire)) (ir_closes_session wire))
  then Err InvalidPendingRequest
  else Ok wire.

(** The secret of the session comes from the random source. *)
Definition from_parsed_link (random : option bytes) (link : ConnectLink)
    (config : TonConnectClientConfig) : result TonConnectClientError TonConnectClient :=
  let? connect_request := ok_or MissingConnectRequest (cl_request link) in
  let? crypto := map_err Client_Crypto (session_generate random) in
  Ok (mkTonConnectClient (Some connect_request) (cl_embedded_request link) (cl_trace_id link)
        (cl_client_id link) (ccc_bridge_url config) (ccc_max_event_bytes config)
        (ccc_message_ttl_seconds config) (ccc_heartbeat config) crypto pending_connect None None
        (decoder_new (ccc_max_event_bytes config))).

Definition from_link (random : option bytes) (link : rstr) (config : TonConnectClientConfig)
  : result TonConnectClientError TonConnectClient :=
  let? link := map_err Client_Link (link_parse link) in
  from_parsed_link random link config.

Definition client_restore (persisted : PersistedTonConnectClient)
    (max_event_bytes message_ttl_seconds : N) (heartbeat : HeartbeatMode)
  : result TonConnectClientError TonConnectClient :=
  let session := ptc_session persisted in
  let? embedded_request :=
    map_err Client_EmbeddedRequest
      (traverse_option decode_embedded_request_param (ptc_embedded_request persisted)) in
  let? crypto := map_err Client_HttpSession (restore_crypto session) in
  Ok (mkTonConnectClient (ptc_connect_request persisted) embedded_request
        (ptc_initial_trace_id persisted) (phs_peer_client_id session) (phs_bridge_url session)
        max_event_bytes message_ttl_seconds heartbeat crypto (phs_reducer session)
        (phs_connected_address session) (phs_last_bridge_event_id session)
        (decoder_new max_event_bytes)).

Definition client_begin_events_subscription (c : TonConnectClient) : TonConnectClient * Url :=
  (c <| tcc_decoder := decoder_new (tcc_max_event_bytes c) |>,
   events_endpoint_with_heartbeat (tcc_bridge_url c) (sc_client_id (tcc_crypto c))
     (tcc_last_bridge_event_id c) (tcc_initial_trace_id c) (tcc_heartbeat c)).

Definition client_prepare_post (random : option bytes) (c : TonConnectClient) (payload : Value)
    (topic trace_id : option rstr) : result TonConnectClientError PreparedBridgePost :=
  map_err Client_BridgeCodec
    (bridge_prepare_post random (tcc_bridge_url c) (tcc_crypto c) (tcc_peer_client_id c)
       (tcc_message_ttl_seconds c) topic trace_id payload).

(** The assignments that end a pending connect. *)
Definition finish_connect (reducer : WalletSessionState) (c : TonConnectClient) : TonConnectClient :=
  c <| tcc_reducer := reducer |> <| tcc_connect_request := None |> <| tcc_embedded_request := None |>
    <| tcc_initial_trace_id := None |>.

Definition client_approve_connect (random : option bytes) (payload : ConnectEventPayload)
    (embedded_response : option EmbeddedResponse)
  : method TonConnectClient TonConnectClientError PreparedBridgePost :=
  let! c := mget in
  let! request := mlift (ok_or MissingConnectRequest (tcc_connect_request c)) in
  let! transition := mlift (map_err Client_SessionState (prepare_event (tcc_reducer c) Kind_Connect)) in
  let event := Event_Connect (pwe_id transition) payload embedded_response in
  do! mlift (map_err Client_ConnectValidation
               (validate_for_connect event request (tcc_embedded_request c)));
  let! address := mlift (ok_or MissingConnectedAddress (connected_address event)) in
  let! post := mlift (client_prepare_post random c (connect_event_to_value event) None
                        (tcc_initial_trace_id c)) in
  do! mupdate (finish_connect (pwe_next_state transition));
  do! mupdate (fun c => c <| tcc_connected_address := Some address |>);
  mret post.

Definition client_reject_connect (random : option bytes) (code : ConnectEventErrorCode) (message : rstr)
  : method TonConnectClient TonConnectClientError PreparedBridgePost :=
  let! c := mget in
  let! transition :=
    mlift (map_err Client_SessionState (prepare_event (tcc_reducer c) Kind_ConnectError)) in
  let event := Event_ConnectError (pwe_id transition) (mkConnectEventError code message) in
  let! post := mlift (client_prepare_post random c (connect_event_to_value event) None
                        (tcc_initial_trace_id c)) in
  do! mupdate (finish_connect (pwe_next_state transition));
  mret post.

Definition client_disconnect (random : option bytes) (trace_id : option rstr)
  : method TonConnectClient TonConnectClientError PreparedBridgePost :=
  let! c := mget in
  let! transition :=
    mlift (map_err Client_SessionState (prepare_event (tcc_reducer c) Kind_Disconnect)) in
  let! post := mlift (client_prepare_post random c
                        (connect_event_to_value (Event_Disconnect (pwe_id transition))) None trace_id) in
  do! mupdate (fun c => c <| tcc_reducer := pwe_next_state transition |>);
  mret post.

(** One turn of the loop of [ingest_sse_chunk]. *)
Definition ingest_event (event : BridgeSseMessage) (c : TonConnectClient)
  : TonConnectClient * list IncomingRequest :=
  let c :=
    match bs_event_id event with
    | Some event_id => c <| tcc_last_bridge_event_id := Some event_id |>
    | None => c
    end in
  match message_decrypt decode_AppRequest event (tcc_crypto c) (tcc_peer_client_id c) with
  | Err _ => (c, [])
  | Ok request =>
      match prepare_request (tcc_reducer c) request with
      | Err _ => (c, [])
      | Ok prepared =>
          (c <| tcc_reducer := par_next_state prepared |>,
           [mkIncomingRequest request (bm_trace_id (bs_message event)) (par_closes_session prepared)])
      end
  end.

Fixpoint ingest_events (events : list BridgeSseMessage) (c : TonConnectClient)
  : TonConnectClient * list IncomingRequest :=
  match events with
  | [] => (c, [])
  | event :: rest =>
      let '(c, requests) := ingest_event event c in
      let '(c, later) := ingest_events rest c in
      (c, requests ++ later)
  end.

Definition client_ingest_sse_chunk (chunk : bytes)
  : method TonConnectClient TonConnectClientError (list IncomingRequest) := fun c =>
  let '(decoder, events) := push chunk (tcc_decoder c) in
  let c := c <| tcc_decoder := decoder |> in
  match events with
  | Err error => (c, Err (Client_HttpBridge error))
  | Ok events =>
      let '(c, requests) := ingest_events events c in
      (c, Ok requests)
  end.

Definition client_prepare_response (random : option bytes) (c : TonConnectClient)
    (incoming : IncomingRequest) (response : WalletResponse)
  : result TonConnectClientError PreparedBridgePost :=
  if negb (bool_decide (response_id response = ar_id (ir_request incoming)))
  then Err ResponseIdMismatch
  else
    let? _ :=
      match incoming_decode incoming with
      | Ok known => rmap (fun _ => tt) (map_err Client_ResponseValidation (validate_for response known))
      | Err _ => Ok tt
      end in
    client_prepare_post random c (wallet_response_to_value response)
      (Some (ar_method (ir_request incoming))) (ir_trace_id incoming).

Definition client_persisted (c : TonConnectClient)
  : result TonConnectClientError PersistedTonConnectClient :=
  let? session :=
    map_err Client_HttpSession
      (http_session_new (tcc_crypto c) (tcc_peer_client_id c) (tcc_bridge_url c) (tcc_reducer c)
         (tcc_connected_address c) (tcc_last_bridge_event_id c)) in
  let? embedded_request :=
    map_err Client_EmbeddedRequest
      (traverse_option encode_embedded_request_param (tcc_embedded_request c)) in
  Ok (mkPersistedTonConnectClient session (tcc_connect_request c) embedded_request
        (tcc_initial_trace_id c)).
End Client.
