(* ===== verification/ConnectClassic.v ===== *)
(** * Sessions over the bridge

    src/ton_connect.rs, [TonConnectSession]: the session that hosts hold while a dApp and
    the wallet talk over an HTTP bridge, with its pending requests and the one response
    that awaits delivery. *)

From stdpp Require Import base numbers list option strings sorting.
From S2P Require Import Prelude BoundaryTypes SendDomain Base64 ClientDomain Json CellBoc.
From S2P Require Import CellBocSpec ConnectSession ConnectValues ConnectBridge Addresses.
From S2P Require Import ConnectRpc ConnectRpcSpec ConnectEmbedded ConnectSigning.
From S2P Require Import ConnectWalletState ConnectHandshake ConnectLink ConnectCrypto.
From S2P Require Import SessionBoundary ConnectEventWire ConnectDerived EmulationAnswers.
From S2P Require Import WordList Mnemonic WalletContract WalletKeys Lifecycle ConnectClient.

(** ** Printed errors *)

#[export] Instance SessionKeyPairError_display : Display SessionKeyPairError := fun error =>
  lit match error with
      | InvalidSecretKey => "session secret key must be exactly 64 lowercase hexadecimal characters"
      | PublicKeyPairMismatch => "persisted session public and secret keys do not match"
      end%string.

#[export] Instance HttpSessionError_display : Display HttpSessionError := fun error =>
  match error with
  | InvalidKeyPair error => display error
  | InvalidEventId => lit "bridge event id must not contain null, CR, or LF characters"
  | InvalidAccountBinding => lit "persisted session account does not match its lifecycle phase"
  end.

#[export] Instance EmbeddedRequestError_display : Display EmbeddedRequestError := fun error =>
  match error with
  | Embedded_InvalidBase64 => lit "embedded request must be unpadded URL-safe base64"
  | Embedded_InvalidJson error => lit "invalid embedded TON Connect request: " ++ error
  end.

#[export] Instance ConnectLinkError_display : Display ConnectLinkError := fun error =>
  match error with
  | InvalidBaseUrl error => lit "invalid TON Connect base URL: " ++ error
  | BaseUrlContainsQueryOrFragment =>
      lit "TON Connect base URL must not contain a query or fragment"
  | Link_InvalidUrl error => lit "invalid TON Connect URL: " ++ error
  | MissingParameter name => lit "missing TON Connect query parameter: " ++ lit name
  | Link_DuplicateParameter name => lit "duplicate TON Connect query parameter: " ++ name
  | UnsupportedVersion version => lit "unsupported TON Connect protocol version: " ++ version
  | EmbeddedRequestWithoutConnect => lit "embedded request requires a connect request"
  | InvalidReturnStrategy value => lit "invalid TON Connect return strategy: " ++ value
  | InvalidValue error => display error
  | InvalidConnectRequest error => lit "invalid TON Connect request: " ++ error
  | InvalidEmbeddedRequest error => display error
  end.

#[export] Instance SessionStateError_display : Display SessionStateError := fun error =>
  lit match error with
      | InvalidRequestId => "TON Connect request id must be a non-empty unsigned decimal string"
      | RequestIdNotIncreasing =>
          "TON Connect request id is not strictly greater than the last processed id"
      | SessionNotConnected => "TON Connect session is not connected"
      | InvalidEventTransition =>
          "wallet event is invalid for the current TON Connect session phase"
      | EventIdExhausted => "TON Connect wallet event id is exhausted"
      end%string.

#[export] Instance ResponseValidationError_display : Display ResponseValidationError := fun error =>
  lit match error with
      | RequestIdMismatch => "wallet response id does not match request id"
      | InvalidResult => "wallet response result does not match the requested method"
      | EmptyResult => "wallet response result must not be empty"
      | SignDataPayloadMismatch => "signData response payload does not match request payload"
      | InvalidErrorCode => "wallet response error code is not valid for the requested method"
      end%string.

#[export] Instance ConnectValidationError_display : Display ConnectValidationError := fun error =>
  match error with
  | NotAConnectResponse => lit "disconnect event is not a response to a connect request"
  | InvalidTonAddressRequest => lit "connect request must contain exactly one ton_addr item"
  | ItemReplyMismatch => lit "connect item replies do not match the request"
  | MissingTonAddressReply => lit "successful connect event has no ton_addr reply"
  | MultipleTonAddressReplies => lit "successful connect event has multiple ton_addr replies"
  | Connect_NetworkMismatch => lit "connected account network differs from the requested network"
  | ProofPayloadMismatch => lit "ton_proof reply payload does not match the requested challenge"
  | UnexpectedEmbeddedResponse => lit "connect event contains an unexpected embedded response"
  | MissingEmbeddedResponse => lit "connect event omitted the embedded request response"
  | InvalidDeviceInfo error => display error
  | InvalidEmbeddedResponse error => display error
  end.

#[export] Instance HttpBridgeError_display : Display HttpBridgeError := fun error =>
  match error with
  | Bridge_InvalidUrl =>
      lit "bridge URL must be an HTTPS base (or loopback HTTP) without query or fragment"
  | EmptySubscription => lit "bridge event subscription must contain at least one client id"
  | EventTooLarge => lit "bridge SSE event exceeded the configured size limit"
  | InvalidSseUtf8 => lit "bridge SSE stream contains invalid UTF-8"
  | InvalidMessage error => lit "invalid bridge message in SSE event: " ++ error
  end.

#[export] Instance BridgeCodecError_display : Display BridgeCodecError := fun error =>
  match error with
  | UnexpectedPeer => lit "bridge message sender does not match the TON Connect session peer"
  | Codec_Json error => lit "invalid TON Connect bridge plaintext: " ++ error
  | Codec_Rpc error => display error
  | Codec_InvalidBase64 error => display error
  | Codec_Crypto error => display error
  end.

#[export] Instance TonConnectClientError_display : Display TonConnectClientError := fun error =>
  match error with
  | MissingConnectRequest => lit "TON Connect link does not contain a connect request"
  | MissingConnectedAddress => lit "TON Connect connect response has no connected account"
  | ResponseIdMismatch => lit "TON Connect wallet response id does not match the dApp request"
  | InvalidPendingRequest => lit "persisted TON Connect request is inconsistent"
  | PendingRequestJson error => lit "invalid persisted TON Connect request: " ++ error
  | Client_Link error => display error
  | Client_Crypto error => display error
  | Client_ConnectValidation error => display error
  | Client_SessionState error => display error
  | Client_HttpBridge error => display error
  | Client_BridgeCodec error => display error
  | Client_ResponseValidation error => display error
  | Client_HttpSession error => display error
  | Client_EmbeddedRequest error => display error
  end.

#[export] Instance ManifestError_display : Display ManifestError := fun error =>
  lit match error with
      | EmptyName => "manifest name must not be empty"
      | InvalidAppDomain => "manifest app URL must contain a dotted DNS domain"
      | SvgIcon => "manifest icon URL must not point to an SVG image"
      | ReservedVersion => "manifest version field is reserved and must be absent"
      | InvalidUrl => "manifest contains an invalid HTTPS URL"
      end%string.

(** ** Data *)

Record TonConnectSessionConfig := mkTonConnectSessionConfig {
  tsc_bridge_url : rstr;
  tsc_max_event_bytes : N;
  tsc_message_ttl_seconds : N;
}.

Record TonConnectConnectPrompt := mkTonConnectConnectPrompt {
  tcp_manifest_url : rstr;
  tcp_requested_network : option rstr;
  tcp_proof_payload : option rstr;
}.

Record TonConnectManifest := mkTonConnectManifest {
  tcm_url : rstr;
  tcm_name : rstr;
  tcm_icon_url : rstr;
  tcm_domain : rstr;
}.

Record TonConnectPreparedPost := mkTonConnectPreparedPost {
  tpp_url : rstr;
  tpp_body : rstr;
}.

Inductive TonConnectSessionPhase := Phase_PendingConnect | Phase_Connected | Phase_Disconnected.

Definition prepared_post_fields : list string := ["url"; "body"]%string.

Definition prepared_post_to_value (post : TonConnectPreparedPost) : Value :=
  Object (present (zip prepared_post_fields (map Some [Str (tpp_url post); Str (tpp_body post)]))).

Definition decode_TonConnectPreparedPost (v : Value) : option TonConnectPreparedPost :=
  match strict_members prepared_post_fields v with
  | Some [url; body] =>
      url ← required as_str url;
      body ← required as_str body;
      Some (mkTonConnectPreparedPost url body)
  | _ => None
  end.

(** [usize] has 64 bits. *)
Definition nonzero_usize (value : N) (name : string) : result TonConnectSessionError N :=
  if (usize_max <? value)%N then Err (failed (lit name ++ lit " exceeds usize"))
  else if (value =? 0)%N then Err (failed (lit name ++ lit " must be positive"))
  else Ok value.

Definition nonzero_ttl (value : N) : result TonConnectSessionError N :=
  if (value =? 0)%N then Err (failed (lit "message TTL must be positive")) else Ok value.

(** ** Manifests *)

Definition manifest_fields : list string :=
  ["url"; "name"; "iconUrl"; "termsOfUseUrl"; "privacyPolicyUrl"]%string.

Section Manifests.
Context `{UrlParts} `{SerdeJson}.

(** [AppManifestWire] with flattened extensions, and the check of
    [Deserialize for AppManifest]. *)
Definition decode_AppManifest (v : Value) : option AppManifest :=
  match flattened_members manifest_fields v with
  | Some ([url; name; icon_url; terms; privacy], rest) =>
      url ← required (decode_validated https_url_try_from) url;
      name ← required as_str name;
      icon_url ← required (decode_validated https_url_try_from) icon_url;
      terms ← optional_non_null (decode_validated https_url_try_from) terms;
      privacy ← optional_non_null (decode_validated https_url_try_from) privacy;
      let manifest := mkAppManifest url name icon_url terms privacy
                        (map_extend [] (map (fun '(k, v) => (k, as_value v)) rest)) in
      _ ← result_ok (manifest_validate manifest);
      Some manifest
  | _ => None
  end.

Definition parse_ton_connect_manifest (json : rstr)
  : result TonConnectSessionError TonConnectManifest :=
  let? manifest := map_err session_error (decode_slice decode_AppManifest (utf8 json)) in
  let? domain := map_err session_error (app_domain manifest) in
  Ok (mkTonConnectManifest (am_url manifest) (am_name manifest) (am_icon_url manifest) domain).
End Manifests.

(** ** Sessions *)

Section Sessions.
Context `{BigUintText} `{Crc32c} `{TonCells} `{HexCrate} `{Crc16} `{UrlSafeBase64}.
Context `{TonAddressParser} `{CryptoBox} `{SerdeJson} `{UrlBridge}.

Record TonConnectSessionState := mkTonConnectSessionState {
  tss_client : TonConnectClient;
  tss_pending_requests : list (rstr * IncomingRequest);
  tss_pending_post : option TonConnectPreparedPost;
  tss_connected_network : option rstr;
}.

#[export] Instance eta_TonConnectSessionState : Eta TonConnectSessionState := fun s =>
  mkTonConnectSessionState (tss_client s) (tss_pending_requests s) (tss_pending_post s)
    (tss_connected_network s).

(** An operation under the lock of the session. *)
Definition operation (A : Type) : Type := method TonConnectSessionState TonConnectSessionError A.

(** A method of the client inside an operation. *)
Definition on_client {A} (m : method TonConnectClient TonConnectClientError A) : operation A :=
  fun s =>
    let '(client, answer) := m (tss_client s) in
    (s <| tss_client := client |>, map_err session_error answer).

Definition client_config (config : TonConnectSessionConfig)
  : result TonConnectSessionError TonConnectClientConfig :=
  let? bridge_url := map_err session_error (bridge_url_try_from (tsc_bridge_url config)) in
  let? max_event_bytes := nonzero_usize (tsc_max_event_bytes config) "max event bytes" in
  let? ttl := nonzero_ttl (tsc_message_ttl_seconds config) in
  Ok (mkTonConnectClientConfig bridge_url max_event_bytes ttl Heartbeat_Message).

Definition ton_connect_session_from_link (random : option bytes) (link : rstr)
    (config : TonConnectSessionConfig) : result TonConnectSessionError TonConnectSessionState :=
  let? config := client_config config in
  let? client := map_err session_error (from_link random link config) in
  Ok (mkTonConnectSessionState client [] None None).

(** *** Questions *)

Definition session_phase (s : TonConnectSessionState) : TonConnectSessionPhase :=
  match wss_phase (tcc_reducer (tss_client s)) with
  | PendingConnect => Phase_PendingConnect
  | Connected => Phase_Connected
  | Disconnected => Phase_Disconnected
  end.

Definition item_payload (item : ConnectItem) : option rstr :=
  match item with Item_TonProof payload => Some payload | _ => None end.

Definition connect_prompt (s : TonConnectSessionState) : option TonConnectConnectPrompt :=
  (fun request =>
     mkTonConnectConnectPrompt (cr_manifest_url request)
       (find_map requested_network (cr_items request)) (find_map item_payload (cr_items request)))
  <$> tcc_connect_request (tss_client s).

(** *** Posts *)

Definition ensure_no_pending_post (s : TonConnectSessionState) : result TonConnectSessionError unit :=
  match tss_pending_post s with
  | Some _ => Err (failed (lit "a durable bridge response is already pending delivery"))
  | None => Ok tt
  end.

Definition stage_post (post : PreparedBridgePost) : operation TonConnectPreparedPost :=
  let post := mkTonConnectPreparedPost (url_as_str (pbp_url post)) (pbp_body post) in
  do! mupdate (fun s => s <| tss_pending_post := Some post |>);
  mret post.

Definition session_begin_events_subscription : operation rstr := fun s =>
  match tss_pending_post s with
  | Some _ =>
      (s, Err (failed (lit "a durable bridge response must be delivered before reading events")))
  | None =>
      let '(client, url) := client_begin_events_subscription (tss_client s) in
      (s <| tss_client := client |>, Ok (url_as_str url))
  end.

(** One turn of the loop over the requested items. *)
Definition item_reply (account : TonAddressItemReply) (proof : option TonConnectProofReply)
    (item : ConnectItem) : result TonConnectSessionError ConnectItemReply :=
  match item with
  | Item_TonAddr _ => Ok (Reply_TonAddress account)
  | Item_TonProof payload =>
      let? proof :=
        ok_or (failed (lit "connect request requires a matching ownership proof"))
          (proof ≫= fun proof => if bool_decide (tpr_payload proof = payload) then Some proof else None) in
      let? proof := session_proof_reply proof in
      Ok (Reply_TonProof proof)
  | Item_Unsupported _ _ => Ok (reply_unsupported item (Some (lit "Method is not supported")))
  end.

Definition classic_device (device : TonConnectDevice) : result TonConnectSessionError DeviceInfo :=
  let? send := map_err session_error (message_feature_new TON_CONNECT_MAX_MESSAGES (Some false) None) in
  let? sign := map_err session_error (message_feature_new TON_CONNECT_MAX_MESSAGES (Some false) None) in
  map_err session_error
    (device_info_new (device_platform (tcd_platform device)) (tcd_app_name device)
       (tcd_app_version device) PROTOCOL_VERSION
       [Feature_SendTransaction send; Feature_SignMessage sign]).

Definition embedded_refusal : EmbeddedResponse :=
  EmbeddedResponse_Error
    (mkWalletResponseError RpcCode_MethodNotSupported (lit "Embedded request is not supported") None).

Definition session_approve_connect (random : option bytes) (account : TonConnectAccountInfo)
    (proof : option TonConnectProofReply) (device : TonConnectDevice)
  : operation TonConnectPreparedPost :=
  let! s := mget in
  do! mlift (ensure_no_pending_post s);
  let! request := mlift (ok_or (failed (lit "connect request is no longer pending"))
                           (tcc_connect_request (tss_client s))) in
  let! reply := mlift (session_account_reply account) in
  let! items := mlift (try_map (item_reply reply.1 proof) (cr_items request)) in
  let! device := mlift (classic_device device) in
  let embedded_response :=
    (fun _ => embedded_refusal) <$> tcc_embedded_request (tss_client s) in
  let! post :=
    on_client (client_approve_connect random (mkConnectEventPayload items device) embedded_response) in
  do! mupdate (fun s => s <| tss_connected_network := Some reply.2 |>);
  stage_post post.

Definition session_reject_connect (random : option bytes) (message : rstr)
  : operation TonConnectPreparedPost :=
  let! s := mget in
  do! mlift (ensure_no_pending_post s);
  let! post := on_client (client_reject_connect random EventError_UserDeclined
                            (bounded_diagnostic message)) in
  stage_post post.

Definition session_disconnect (random : option bytes) : operation TonConnectPreparedPost :=
  let! s := mget in
  do! mlift (ensure_no_pending_post s);
  let! post := on_client (client_disconnect random None) in
  stage_post post.

(** *** Requests *)

Definition request_context (s : TonConnectSessionState) : result TonConnectSessionError RequestContext :=
  let? network := ok_or (failed (lit "connected network is unavailable")) (tss_connected_network s) in
  let? address := ok_or (failed (lit "connected address is unavailable"))
                    (tcc_connected_address (tss_client s)) in
  Ok (mkRequestContext network address (sc_client_id (tcc_crypto (tss_client s)))).

Definition decode_incoming (s : TonConnectSessionState) (incoming : IncomingRequest) (now : N)
  : result TonConnectSessionError TonConnectIncomingRequest :=
  let id := ar_id (ir_request incoming) in
  let method := ar_method (ir_request incoming) in
  match incoming_decode incoming with
  | Ok (Request_SendTransaction _ payload) =>
      let? context := request_context s in
      decode_transaction_request context id method payload now RequestKind_Send
  | Ok (Request_SignMessage _ payload) =>
      let? context := request_context s in
      decode_transaction_request context id method payload now RequestKind_Sign
  | Ok (Request_Disconnect _) => Ok (Incoming_Disconnect id method)
  | Ok (Request_SignData _ _) =>
      Ok (unsupported_request id method Code_MethodNotSupported (lit "Method is not supported"))
  | Err error => Ok (unsupported_request id method Code_BadRequest (display error))
  end.

(** The loop of [ingest_sse_chunk] over the requests that the client accepted. *)
Fixpoint register_requests (incoming : list IncomingRequest) (now : N)
  : operation (list TonConnectIncomingRequest) :=
  match incoming with
  | [] => mret []
  | request :: rest =>
      let! s := mget in
      let! public := mlift (decode_incoming s request now) in
      let id := ar_id (ir_request request) in
      do! mupdate (fun s => s <| tss_pending_requests := map_insert id request (tss_pending_requests s) |>);
      do! mlift (match assoc_get id (tss_pending_requests s) with
                 | Some _ => Err (failed (lit "bridge delivered a duplicate pending request ID"))
                 | None => Ok tt
                 end);
      let! decoded := register_requests rest now in
      mret (public :: decoded)
  end.

Definition session_ingest_sse_chunk (chunk : bytes) (now : N)
  : operation (list TonConnectIncomingRequest) :=
  let! incoming := on_client (client_ingest_sse_chunk chunk) in
  register_requests incoming now.

Definition session_pending_requests (s : TonConnectSessionState) (now : N)
  : result TonConnectSessionError (list TonConnectIncomingRequest) :=
  try_map (fun entry => decode_incoming s entry.2 now) (tss_pending_requests s).

(** [BTreeMap::remove]. *)
Definition map_remove {A} (key : rstr) (entries : list (rstr * A)) : list (rstr * A) :=
  List.filter (fun entry => negb (bool_decide (entry.1 = key))) entries.

Definition session_prepare_response (random : option bytes) (request_id : rstr) (response : WalletResponse)
  : operation TonConnectPreparedPost :=
  let! s := mget in
  do! mlift (ensure_no_pending_post s);
  let! incoming := mlift (ok_or (failed (lit "request is not pending"))
                            (assoc_get request_id (tss_pending_requests s))) in
  let! post := mlift (map_err session_error
                        (client_prepare_response random (tss_client s) incoming response)) in
  do! mupdate (fun s => s <| tss_pending_requests := map_remove request_id (tss_pending_requests s) |>);
  stage_post post.

Definition prepare_send_success (random : option bytes) (request_id signed_boc : rstr)
  : operation TonConnectPreparedPost :=
  session_prepare_response random request_id (Response_Success (Result_String signed_boc) request_id).

(** The result serializes as an object with the cell. *)
Definition prepare_sign_message_success (random : option bytes) (request_id internal_boc : rstr)
  : operation TonConnectPreparedPost :=
  let! boc := mlift (map_err session_error (cell_boc_try_from internal_boc)) in
  session_prepare_response random request_id
    (Response_Success (Result_Object [(lit "internalBoc", Str (cb_encoded boc))]) request_id).

Definition prepare_disconnect_success (random : option bytes) (request_id : rstr)
  : operation TonConnectPreparedPost :=
  session_prepare_response random request_id (Response_Success (Result_Object []) request_id).

Definition prepare_error (random : option bytes) (request_id : rstr) (code : TonConnectRpcErrorCode)
    (message : rstr) : operation TonConnectPreparedPost :=
  session_prepare_response random request_id
    (Response_Error (mkWalletResponseError (rpc_error_code code) (bounded_diagnostic message) None)
       request_id).

Definition complete_pending_post : operation unit :=
  mupdate (fun s => s <| tss_pending_post := None |>).

(** *** Restarts *)

Definition session_record_fields : list string :=
  ["client"; "pendingRequests"; "pendingPost"; "connectedNetwork"]%string.

Definition session_record_to_value (client : PersistedTonConnectClient) (requests : list rstr)
    (post : option TonConnectPreparedPost) (network : option rstr) : Value :=
  Object (present (zip session_record_fields (map Some
    [client_to_value client; Array (map Str requests); nullable_to_value prepared_post_to_value post;
     nullable_to_value Str network]))).

Definition decode_PersistedTonConnectSession (v : Value)
  : option (PersistedTonConnectClient * list rstr * option TonConnectPreparedPost * option rstr) :=
  match strict_shape session_record_fields v with
  | Some (shape, [client; requests; post; network]) =>
      client ← required decode_PersistedTonConnectClient client;
      requests ← required (decode_vec as_str) requests;
      post ← optional decode_TonConnectPreparedPost shape post;
      network ← optional (decode_validated network_id_try_from) shape network;
      Some (client, requests, post, network)
  | _ => None
  end.

Definition session_persisted (s : TonConnectSessionState) : result TonConnectSessionError rstr :=
  let? client := map_err session_error (client_persisted (tss_client s)) in
  Ok (value_to_string
        (session_record_to_value client
           (map (fun entry => incoming_persisted entry.2) (tss_pending_requests s))
           (tss_pending_post s) (tss_connected_network s))).

Fixpoint restore_requests (persisted : list rstr) (requests : list (rstr * IncomingRequest))
  : result TonConnectSessionError (list (rstr * IncomingRequest)) :=
  match persisted with
  | [] => Ok requests
  | incoming :: rest =>
      let? incoming := map_err session_error (incoming_restore incoming) in
      let id := ar_id (ir_request incoming) in
      match assoc_get id requests with
      | Some _ => Err (failed (lit "persisted session contains duplicate pending request IDs"))
      | None => restore_requests rest (map_insert id incoming requests)
      end
  end.

Definition ton_connect_session_restore (persisted : rstr) (config : TonConnectSessionConfig)
  : result TonConnectSessionError TonConnectSessionState :=
  let? persisted := map_err session_error (decode_slice decode_PersistedTonConnectSession (utf8 persisted)) in
  let '(client, requests, post, network) := persisted in
  let? max_event_bytes := nonzero_usize (tsc_max_event_bytes config) "max event bytes" in
  let? ttl := nonzero_ttl (tsc_message_ttl_seconds config) in
  let? client := map_err session_error (client_restore client max_event_bytes ttl Heartbeat_Message) in
  let? pending_requests := restore_requests requests [] in
  Ok (mkTonConnectSessionState client pending_requests post network).
End Sessions.
