(* ===== verification/ConnectClassicRuns.v ===== *)
(** * What sessions over the bridge guarantee

    The invariant of a session and its runs, restarts included; what a restart keeps; what
    an approved connect tells the dApp; how requests and responses correspond. *)

From stdpp Require Import base numbers list option strings sorting.
From S2P Require Import Prelude BoundaryTypes SendDomain Base64 ClientDomain Json CellBoc.
From S2P Require Import CellBocSpec ConnectSession ConnectValues ConnectBridge Addresses.
From S2P Require Import ConnectRpc ConnectRpcSpec ConnectEmbedded ConnectSigning.
From S2P Require Import ConnectWalletState ConnectHandshake ConnectLink ConnectCrypto.
From S2P Require Import SessionBoundary ConnectEventWire ConnectDerived EmulationAnswers.
From S2P Require Import WordList Mnemonic WalletContract WalletKeys Lifecycle ConnectClient.
From S2P Require Import ConnectClassic.

(** The steps of a method, one match each. *)
Ltac methods H :=
  unfold mbind', mlift, mget, mupdate, mret in H; cbn beta iota in H.

(** ** Records are read back *)

Lemma strict_shape_present names values :
  NoDup (map lit names) -> length names = length values ->
  strict_shape names (Object (present (zip names (map Some values)))) = Some (FromMap, map Some values).
Proof.
  intros Hd Hl. pose proof (strict_members_present names (map Some values) Hd) as Hs.
  rewrite length_map in Hs. specialize (Hs Hl). unfold strict_members in Hs. unfold strict_shape.
  destruct (known_members _ _); [|done]. cbn [struct_members] in *.
  destruct (forallb _ names); [|done]. cbn in Hs. by injection Hs as ->.
Qed.

Lemma nullable_read {A} (decode : Value -> option A) encode (valid : A -> Prop) shape o :
  (forall a, valid a -> is_null (encode a) = false /\ decode (encode a) = Some a) ->
  from_option valid True o ->
  optional decode shape (Some (nullable_to_value encode o)) = Some o.
Proof.
  intros Hw. destruct o as [a|]; [|done]. cbn [from_option]. intros [Hn Hd]%Hw.
  unfold optional, nullable. cbn [nullable_to_value]. by rewrite Hn, Hd.
Qed.

Lemma nullable_text_read shape o : optional as_str shape (Some (nullable_to_value Str o)) = Some o.
Proof. by destruct o. Qed.

Lemma nullable_validated_read validator error shape o :
  from_option (fun s => validator s = true) True o ->
  optional (decode_validated (validated_string validator error)) shape
    (Some (nullable_to_value Str o)) = Some o.
Proof.
  apply nullable_read. intros s Hs. split; [done|].
  unfold decode_validated, validated_string. cbn. by rewrite Hs.
Qed.

Lemma texts_read texts : decode_vec as_str (Array (map Str texts)) = Some texts.
Proof.
  unfold decode_vec. cbn [as_array mbind option_bind]. induction texts as [|t texts IH]; [done|].
  cbn [map mapM]. rewrite IH. done.
Qed.

Lemma app_request_read request : decode_AppRequest (app_request_to_value request) = Some request.
Proof.
  unfold decode_AppRequest, app_request_to_value.
  rewrite strict_members_present; [|distinct_names|done]. cbn [required mbind option_bind as_str].
  rewrite texts_read. by destruct request.
Qed.

Lemma prepared_post_read post :
  decode_TonConnectPreparedPost (prepared_post_to_value post) = Some post.
Proof.
  unfold decode_TonConnectPreparedPost, prepared_post_to_value.
  rewrite strict_members_present; [|distinct_names|done]. by destruct post.
Qed.

Definition valid_trace (trace_id : option rstr) : Prop :=
  from_option (fun s => valid_trace_id s = true) True trace_id.

Lemma incoming_read incoming :
  valid_trace (ir_trace_id incoming) ->
  decode_PersistedIncomingRequest (incoming_to_value incoming) = Some incoming.
Proof.
  intros Ht. unfold decode_PersistedIncomingRequest, incoming_to_value.
  rewrite strict_shape_present; [|distinct_names|done]. cbn [map required mbind option_bind].
  rewrite app_request_read. cbn [mbind option_bind].
  unfold trace_id_try_from. rewrite nullable_validated_read by done. by destruct incoming.
Qed.

(** A request whose end of the session is recorded as the reducer decides it. *)
Definition consistent (incoming : IncomingRequest) : Prop :=
  ir_closes_session incoming =
    bool_decide (ar_method (ir_request incoming) = lit "disconnect")
    && is_empty (ar_params (ir_request incoming)).

Section Incoming.
Context `{SerdeJson} `{Crc32c} `{TonCoreBoc} `{HexCrate} `{Crc16} `{UrlSafeBase64}.

Lemma closes_exactly request :
  is_disconnect (app_request_decode request) =
    bool_decide (ar_method request = lit "disconnect") && is_empty (ar_params request).
Proof.
  unfold app_request_decode.
  repeat match goal with |- context [bool_decide (ar_method request = ?m)] =>
    destruct (bool_decide_reflect (ar_method request = m)) as [->|] end; try done;
    try (destruct (parse_single_parameter _ _ _); done).
  by destruct (bool_decide _), (is_empty (ar_params request)).
Qed.

Lemma incoming_restored incoming :
  valid_trace (ir_trace_id incoming) -> consistent incoming -> reads_back (incoming_to_value incoming) ->
  incoming_restore (incoming_persisted incoming) = Ok incoming.
Proof.
  intros Ht Hc Hr. unfold incoming_restore, incoming_persisted, decode_slice. rewrite Hr. cbn [rbind].
  rewrite incoming_read by done. cbn [ok_or map_err rbind]. unfold incoming_decode.
  by rewrite closes_exactly, <- Hc, eqb_reflx.
Qed.
End Incoming.

(** ** Connect requests that are read are well formed *)

Lemma last_wins_In {A} (fields : list (rstr * A)) entry : entry ∈ last_wins fields -> entry ∈ fields.
Proof.
  induction fields as [|[k v] fields IH]; [done|]. cbn [last_wins].
  destruct (bool_decide _); [intros Hin; right; by apply IH|].
  intros [->|Hin]%elem_of_cons; [left|right; by apply IH].
Qed.

Lemma last_wins_keys {A} (fields : list (rstr * A)) : NoDup (map fst (last_wins fields)).
Proof.
  induction fields as [|[k v] fields IH]; [constructor|]. cbn [last_wins].
  destruct (bool_decide_reflect (k ∈ map fst fields)) as [|Hk]; [done|]. cbn [map fst].
  apply NoDup_cons. split; [|done]. intros (entry & -> & Hin)%list_elem_of_fmap.
  apply Hk, list_elem_of_fmap_2. by apply last_wins_In.
Qed.

Lemma plain_as_value : forall v, plain (as_value v).
Proof.
  fix IH 1. intros [| | | |items|fields]; [reflexivity..| |].
  - cbn [as_value]. apply plain_array. rewrite Forall_map.
    induction items as [|v items IHi]; constructor; [apply IH|exact IHi].
  - cbn [as_value].
    assert (Forall (fun field : rstr * Value => plain field.2)
              (map (fun '(k, v) => (k, as_value v)) fields)) as Hall.
    { induction fields as [|[k v] fields IHf]; constructor; [apply IH|exact IHf]. }
    apply plain_object; [apply last_wins_keys|]. apply Forall_forall. intros entry Hin.
    rewrite Forall_forall in Hall. by apply Hall, last_wins_In.
Qed.

Lemma without_keys names fields key :
  key ∈ map fst (without names fields) -> key ∈ map fst fields /\ key ∉ map lit names.
Proof.
  intros (entry & -> & Hin)%list_elem_of_fmap. unfold without in Hin.
  apply list_elem_of_In, filter_In in Hin as [Hin Hn]. apply negb_true_iff, bool_decide_eq_false in Hn.
  split; [by apply list_elem_of_fmap_2, list_elem_of_In|done].
Qed.

#[export] Instance connect_item_checked : Checked decode_ConnectItem valid_connect_item.
Proof.
  intros v item. unfold decode_ConnectItem. destruct (as_value v) as [| | | | |object] eqn:E; try done.
  intros (name & _ & Hd)%bind_Some. destruct name as [|c name]; [done|]. cbn [is_empty] in Hd.
  set (fields := map_extend [] _) in *.
  destruct (bool_decide_reflect (c :: name = lit "ton_addr")) as [|Ha].
  { destruct (strict_members _ _) as [[|network []]|]; try done. apply fmap_Some in Hd as (n & Hn & ->).
    cbn [valid_connect_item]. unfold decode_network, network_id_try_from in Hn.
    by apply optional_checked in Hn. }
  destruct (bool_decide_reflect (c :: name = lit "ton_proof")) as [|Hp].
  { destruct (strict_members _ _) as [[|payload []]|]; try done. by apply fmap_Some in Hd as (p & _ & ->). }
  injection Hd as <-. cbn [valid_connect_item].
  pose proof (plain_as_value v) as Hplain. rewrite E in Hplain. unfold plain in Hplain.
  cbn [as_value] in Hplain. injection Hplain as Hobj.
  assert (NoDup (map fst object)) as Hkeys by (rewrite <- Hobj; apply last_wins_keys).
  assert (Forall (fun field => plain field.2) object) as Hvals.
  { rewrite <- Hobj. apply Forall_forall. intros entry Hin%last_wins_In.
    apply list_elem_of_fmap in Hin as ([k w] & -> & _). apply plain_as_value. }
  assert (NoDup (map fst (without ["name"%string] object))) as Hw.
  { clear -Hkeys. unfold without. induction object as [|[k w] object IH]; [constructor|].
    cbn [List.filter fst map] in *. apply NoDup_cons in Hkeys as [Hk Hkeys].
    destruct (negb _); [|by apply IH]. cbn [map fst]. apply NoDup_cons. split; [|by apply IH].
    intros Hin. apply Hk. by apply (without_keys ["name"%string] object) in Hin as [Hin _]. }
  destruct (map_extend_fresh (without ["name"%string] object) []) as [HP HS];
    [by rewrite app_nil_r|constructor|]. rewrite app_nil_r in HP. fold fields in HP, HS.
  split_and!; try done.
  - rewrite HP. intros [_ Hn]%without_keys. apply Hn. left.
  - rewrite HP. apply Forall_forall. intros entry Hin. rewrite Forall_forall in Hvals. apply Hvals.
    unfold without in Hin. apply list_elem_of_In, filter_In in Hin as [Hin _]. by apply list_elem_of_In.
Qed.

#[export] Instance connect_request_checked `{UrlCrate} :
  Checked decode_ConnectRequest valid_connect_request.
Proof.
  intros v request. unfold decode_ConnectRequest. destruct (strict_members _ _) as [members|]; [|done].
  do 3 (destruct members; try done). unfold https_url_try_from. intros Hd. decoded_fields Hd.
  injection Hd as <-. split; [done|]. by cbn.
Qed.

(** ** The client *)

Section Client.
Context `{UrlBridge} `{SerdeJson}.
Context `{Crc32c} `{TonCoreBoc} `{HexCrate} `{Crc16} `{UrlSafeBase64} `{CryptoBox}.

(** What holds of a client after the events and requests of [labels]. *)
Record client_inv (labels : list Label) (c : TonConnectClient) : Prop := {
  cv_run : session_run labels (tcc_reducer c);
  cv_matching : matching (tcc_crypto c);
  cv_secret : typed_secret (tcc_crypto c);
  cv_peer : typed_bytes 32 (cid_bytes (tcc_peer_client_id c));
  cv_bridge : bridge_url_try_from (bridge_as_str (tcc_bridge_url c)) = Ok (tcc_bridge_url c);
  cv_connect : is_Some (tcc_connect_request c) <-> wss_phase (tcc_reducer c) = PendingConnect;
  cv_embedded : is_Some (tcc_embedded_request c) -> is_Some (tcc_connect_request c);
  cv_request : from_option valid_connect_request True (tcc_connect_request c);
  cv_embedded_valid : from_option valid_embedded True (tcc_embedded_request c);
  cv_trace : valid_trace (tcc_initial_trace_id c);
  cv_account :
    validate_account_binding (wss_phase (tcc_reducer c)) (tcc_connected_address c) = Ok tt;
  cv_address : from_option well_typed True (tcc_connected_address c);
  cv_heartbeat : tcc_heartbeat c = Heartbeat_Message;
}.

(** The cursor of the event stream can be stored. *)
Definition storable_cursor (c : TonConnectClient) : Prop :=
  validate_event_id (tcc_last_bridge_event_id c) = Ok tt.

(** serde_json writes the embedded request so that it reads it back. *)
Definition embedded_written (c : TonConnectClient) : Prop :=
  forall embedded, tcc_embedded_request c = Some embedded ->
  exists body, writes (wire_request_to_value (request_to_wire embedded)) body.

(** The client after a restart: a new stream, limits as configured. *)
Definition restarted_client (max_event_bytes ttl : N) (c : TonConnectClient) : TonConnectClient :=
  c <| tcc_max_event_bytes := max_event_bytes |> <| tcc_message_ttl_seconds := ttl |>
    <| tcc_decoder := decoder_new max_event_bytes |>.

Lemma client_id_read id :
  typed_bytes 32 (cid_bytes id) -> decode_client_id (Str (client_id_to_string id)) = Some id.
Proof.
  intros [Hl Hu]. unfold decode_client_id. cbn [as_str mbind option_bind].
  by rewrite client_id_roundtrip.
Qed.

Lemma http_session_read labels c session :
  client_inv labels c ->
  http_session_new (tcc_crypto c) (tcc_peer_client_id c) (tcc_bridge_url c) (tcc_reducer c)
    (tcc_connected_address c) (tcc_last_bridge_event_id c) = Ok session ->
  decode_PersistedHttpSession (http_session_to_value session) = Some session /\
  restore_crypto session = Ok (tcc_crypto c).
Proof.
  intros Hc. unfold http_session_new.
  destruct (validate_event_id (tcc_last_bridge_event_id c)) as [[]|] eqn:Ev; [|done].
  cbn [rbind]. rewrite (cv_account _ _ Hc). cbn [rbind]. intros [= <-].
  assert (from_persisted (persisted_keypair (tcc_crypto c)) = Ok (tcc_crypto c)) as Hk.
  { pose proof (cv_matching _ _ Hc) as Hm. unfold from_persisted.
    rewrite bool_decide_eq_true_2 by done. f_equal. cbn. unfold from_secret_key. rewrite <- Hm.
    by destruct (tcc_crypto c) as [? []]. }
  split; [|unfold restore_crypto; cbn [phs_key_pair]; by rewrite Hk].
  unfold decode_PersistedHttpSession, http_session_to_value.
  rewrite strict_shape_present; [|distinct_names|done].
  cbn [map required mbind option_bind phs_key_pair phs_peer_client_id phs_bridge_url phs_reducer
       phs_connected_address phs_last_bridge_event_id].
  rewrite key_pair_read by (apply Hc). cbn [mbind option_bind].
  rewrite client_id_read by (apply (cv_peer _ _ Hc)). cbn [mbind option_bind].
  unfold decode_bridge_url, bridge_url_to_value. cbn [as_str mbind option_bind].
  rewrite (cv_bridge _ _ Hc). cbn [result_ok mbind option_bind].
  rewrite decode_session_to_value by (apply (session_run_restorable labels), Hc).
  cbn [mbind option_bind].
  rewrite (nullable_read _ raw_to_value well_typed) by (first [apply Hc | intros a Ha; split; [done|by apply raw_wire]]).
  cbn [mbind option_bind]. rewrite nullable_text_read. cbn [mbind option_bind].
  rewrite Ev. cbn [result_ok mbind option_bind]. rewrite (cv_account _ _ Hc). cbn [result_ok mbind option_bind].
  by rewrite Hk.
Qed.

Lemma embedded_text_read c :
  from_option valid_embedded True (tcc_embedded_request c) -> embedded_written c ->
  exists text, traverse_option encode_embedded_request_param (tcc_embedded_request c) = Ok text /\
    (is_Some text <-> is_Some (tcc_embedded_request c)) /\
    traverse_option decode_embedded_request_param text = Ok (tcc_embedded_request c).
Proof.
  unfold embedded_written. destruct (tcc_embedded_request c) as [request|].
  - intros Hv Hw. destruct (Hw request eq_refl) as [body Hb].
    destruct (embedded_param_roundtrip request body Hv Hb) as [He Hd].
    exists (Some (url_safe_no_pad_encode body)). cbn [traverse_option]. rewrite He, Hd. cbn.
    split; [done|]. split; [|done]. split; intros _; by eexists.
  - intros _ _. by exists None.
Qed.

Lemma client_restored labels c :
  client_inv labels c -> embedded_written c -> storable_cursor c ->
  exists persisted,
    client_persisted c = Ok persisted /\
    decode_PersistedTonConnectClient (client_to_value persisted) = Some persisted /\
    forall max_event_bytes ttl,
      client_restore persisted max_event_bytes ttl Heartbeat_Message
      = Ok (restarted_client max_event_bytes ttl c).
Proof.
  intros Hc Hw Hcur. unfold client_persisted.
  destruct (http_session_new _ _ _ _ _ _) as [session|] eqn:Es.
  2: { exfalso. unfold http_session_new in Es. rewrite Hcur in Es. cbn [rbind] in Es.
       by rewrite (cv_account _ _ Hc) in Es. }
  pose proof (http_session_read labels c session Hc Es) as [Hread Hcrypto].
  destruct (embedded_text_read c (cv_embedded_valid _ _ Hc) Hw) as (text & Ht & Hsome & Hback).
  cbn [map_err rbind]. rewrite Ht. cbn [map_err rbind]. eexists. split; [done|]. split.
  - unfold decode_PersistedTonConnectClient, client_to_value.
    rewrite strict_shape_present; [|distinct_names|done].
    cbn [map required mbind option_bind ptc_session ptc_connect_request ptc_embedded_request
         ptc_initial_trace_id].
    rewrite Hread. cbn [mbind option_bind].
    rewrite (nullable_read _ connect_request_to_value valid_connect_request)
      by (first [apply Hc | intros r Hr; split; [done|by apply connect_request_wire]]).
    cbn [mbind option_bind]. rewrite nullable_text_read. cbn [mbind option_bind].
    unfold trace_id_try_from. rewrite nullable_validated_read by (apply (cv_trace _ _ Hc)).
    cbn [mbind option_bind].
    assert (phs_reducer session = tcc_reducer c) as ->.
    { unfold http_session_new in Es. repeat (apply rbind_ok in Es as (? & _ & Es)). by injection Es as <-. }
    rewrite Hback. cbn [result_ok mbind option_bind].
    destruct (eqb _ _) eqn:Eb; [|exfalso].
    + cbn [negb orb]. destruct (bool_decide_reflect (is_Some text)) as [Hsm|]; [|done].
      rewrite bool_decide_eq_true_2; [done|]. apply (cv_embedded _ _ Hc), Hsome, Hsm.
    + apply eqb_false_iff in Eb. apply Eb. apply bool_decide_ext. symmetry. apply (cv_connect _ _ Hc).
  - intros max_event_bytes ttl. unfold client_restore.
    cbn [ptc_session ptc_connect_request ptc_embedded_request ptc_initial_trace_id].
    rewrite Hback, Hcrypto. cbn [map_err rbind]. f_equal. pose proof (cv_heartbeat _ _ Hc) as Hh.
    unfold http_session_new in Es. repeat (apply rbind_ok in Es as (? & _ & Es)). injection Es as <-.
    destruct c. cbn in *. by subst.
Qed.

(** *** Its operations *)

Lemma client_id_typed value id : client_id_from_str value = Ok id -> typed_bytes 32 (cid_bytes id).
Proof.
  unfold client_id_from_str. intros [Hb Hd]%if_err_ok.
  destruct (hex_decode value) as [data|] eqn:E; [|done]. cbn in Hd. injection Hd as <-. cbn [cid_bytes].
  apply hex_decode_bytes in E as [Hl Hu]. apply orb_false_iff in Hb as [Hl' Hx].
  apply negb_false_iff in Hl', Hx. apply Nat.eqb_eq in Hl'.
  assert (utf8 value = value) as Eu by (apply utf8_of_ascii in Hx as [? _]; [done|]; intros c Hc;
    unfold is_lower_hex in Hc; apply orb_true_iff in Hc as [Hc%is_ascii_digit_spec|Hc]; [lia|];
    bool_to_prop; lia).
  rewrite Eu in Hl'. split; [lia|done].
Qed.


(** The parts of a link that was read. *)
Lemma link_parts text link :
  link_parse text = Ok link ->
  typed_bytes 32 (cid_bytes (cl_client_id link)) /\
  from_option valid_connect_request True (cl_request link) /\
  from_option valid_embedded True (cl_embedded_request link) /\
  (is_Some (cl_embedded_request link) -> is_Some (cl_request link)) /\
  valid_trace (cl_trace_id link).
Proof.
  unfold link_parse. intros (url & _ & Hp)%rbind_ok. apply rbind_ok in Hp as ([known extensions] & _ & Hp).
  apply rbind_ok in Hp as (id & _ & Hp). apply rbind_ok in Hp as (client & Hid%map_err_ok & Hp).
  apply rbind_ok in Hp as (request & Hreq & Hp). apply rbind_ok in Hp as (_ & _ & Hp).
  apply if_err_ok in Hp as [Hemb Hp]. apply rbind_ok in Hp as (ret & _ & Hp).
  apply rbind_ok in Hp as (trace & Htr & [= <-]).
  cbn [cl_client_id cl_request cl_embedded_request cl_trace_id]. split_and!.
  - by apply client_id_typed in Hid.
  - destruct (assoc_get (lit "r") known) as [r|]; [|by injection Hreq as <-].
    destruct (decode_slice decode_ConnectRequest (utf8 r)) as [decoded|] eqn:E; [|done].
    injection Hreq as <-. apply rbind_ok in E as (document & _ & E%ok_or_ok). by apply checked in E.
  - destruct (assoc_get (lit "e") known) as [e|]; [|done]. cbn [mbind option_bind].
    destruct (decode_embedded_request_param e) as [decoded|] eqn:E; [|done].
    by apply (proj2 embedded_request_roundtrip) in E.
  - intros He. apply andb_false_iff in Hemb as [Hf|Hf];
      [by apply bool_decide_eq_false in Hf|by apply negb_false_iff, bool_decide_eq_true in Hf].
  - destruct (assoc_get (lit "trace_id") known) as [tr|]; [|by injection Htr as <-].
    unfold trace_id_try_from, validated_string in Htr. destruct (valid_trace_id tr) eqn:E; [|done].
    by injection Htr as <-.
Qed.


Lemma from_link_inv random text config c :
  (forall secret, random = Some secret -> typed_bytes 32 secret) ->
  bridge_url_try_from (bridge_as_str (ccc_bridge_url config)) = Ok (ccc_bridge_url config) ->
  ccc_heartbeat config = Heartbeat_Message -> from_link random text config = Ok c -> client_inv [] c.
Proof.
  intros Hr Hb Hh (link & Hl%map_err_ok & Hc)%rbind_ok. unfold from_parsed_link in Hc.
  destruct (link_parts _ _ Hl) as (Hid & Hreq & Hemb & Hboth & Htr).
  apply rbind_ok in Hc as (request & Er%ok_or_ok & Hc). apply rbind_ok in Hc as (crypto & Hg%map_err_ok & [= <-]).
  rewrite Er in Hreq, Hboth. destruct random as [secret|]; [|done]. injection Hg as <-.
  constructor; cbn [tcc_reducer tcc_crypto tcc_peer_client_id tcc_bridge_url tcc_connect_request
    tcc_embedded_request tcc_initial_trace_id tcc_connected_address tcc_heartbeat]; try done.
  - constructor.
  - by apply Hr.
Qed.

(** One transition of the reducer, with the rest of the client as the invariant needs it. *)
Lemma client_moves labels c c' label :
  client_inv labels c -> session_step (tcc_reducer c) label (tcc_reducer c') ->
  tcc_crypto c' = tcc_crypto c -> tcc_peer_client_id c' = tcc_peer_client_id c ->
  tcc_bridge_url c' = tcc_bridge_url c -> tcc_heartbeat c' = tcc_heartbeat c ->
  tcc_connect_request c' = None -> tcc_embedded_request c' = None ->
  valid_trace (tcc_initial_trace_id c') ->
  wss_phase (tcc_reducer c') <> PendingConnect ->
  (wss_phase (tcc_reducer c') = Connected -> is_Some (tcc_connected_address c')) ->
  from_option well_typed True (tcc_connected_address c') -> client_inv (labels ++ [label]) c'.
Proof.
  intros Hc Hs Ec Ep Eb Eh Er Ee Ht Hp Hconn Ha.
  constructor; rewrite ?Ec, ?Ep, ?Eb, ?Eh, ?Er, ?Ee;
    [|apply Hc|apply Hc|apply Hc|apply Hc| |by intros []|done|done|done| |done|apply Hc].
  - by apply run_step with (tcc_reducer c); [apply Hc|].
  - split; [by intros []|done].
  - destruct (wss_phase (tcc_reducer c')); [done| |done]. by destruct Hconn as [a ->].
Qed.

(** A method that can fail before its first assignment only. *)
Definition fails_unchanged {S E A} (m : method S E A) : Prop :=
  forall s s' e, m s = (s', Err e) -> s' = s.

Lemma approve_fails random payload response : fails_unchanged (client_approve_connect random payload response).
Proof.
  intros c c' e Ha. unfold client_approve_connect in Ha. methods Ha.
  repeat (case_match; try by simplify_eq).
Qed.

Lemma reject_fails random code message : fails_unchanged (client_reject_connect random code message).
Proof.
  intros c c' e Ha. unfold client_reject_connect in Ha. methods Ha.
  repeat (case_match; try by simplify_eq).
Qed.

Lemma disconnect_fails random trace : fails_unchanged (client_disconnect random trace).
Proof.
  intros c c' e Ha. unfold client_disconnect in Ha. methods Ha.
  repeat (case_match; try by simplify_eq).
Qed.


Lemma connected_phase s kind prepared :
  prepare_event s kind = Ok prepared ->
  next_phase (wss_phase s) kind = Ok (wss_phase (pwe_next_state prepared)).
Proof.
  unfold prepare_event. intros (phase & Hp & Hr)%rbind_ok. apply rbind_ok in Hr as (id & _ & [= <-]). done.
Qed.

Lemma approve_ok labels random payload response c c' post :
  client_inv labels c ->
  Forall (fun account => well_typed (tar_address account)) (omap account_reply (cep_items payload)) ->
  client_approve_connect random payload response c = (c', Ok post) ->
  exists request transition address,
    let event := Event_Connect (pwe_id transition) payload response in
    tcc_connect_request c = Some request /\ prepare_event (tcc_reducer c) Kind_Connect = Ok transition /\
    validate_for_connect event request (tcc_embedded_request c) = Ok tt /\
    connected_address event = Some address /\
    client_prepare_post random c (connect_event_to_value event) None (tcc_initial_trace_id c) = Ok post /\
    c' = (finish_connect (pwe_next_state transition) c) <| tcc_connected_address := Some address |> /\
    client_inv (labels ++ [Emitted Kind_Connect (pwe_id transition)]) c'.
Proof.
  intros Hc Hw Ha. unfold client_approve_connect in Ha. methods Ha.
  destruct (tcc_connect_request c) as [request|] eqn:Er; cbn [ok_or] in Ha; [|done].
  destruct (prepare_event (tcc_reducer c) Kind_Connect) as [transition|] eqn:Ep; cbn [map_err] in Ha; [|done].
  destruct (validate_for_connect _ _ _) as [[]|] eqn:Ev; cbn [map_err] in Ha; [|done].
  destruct (connected_address _) as [address|] eqn:Ea; cbn [ok_or] in Ha; [|done].
  destruct (client_prepare_post _ _ _ _ _) as [post'|] eqn:Epost; [|done]. injection Ha as <- <-.
  exists request, transition, address. split_and!; try done.
  pose proof (connected_phase _ _ _ Ep) as Hph.
  assert (wss_phase (tcc_reducer c) = PendingConnect) as Epend by (apply (cv_connect _ _ Hc); by rewrite Er).
  rewrite Epend in Hph. injection Hph as Hph.
  apply (client_moves labels c _ _ Hc); try done; cbn [update tcc_reducer finish_connect].
  - by constructor.
  - change (wss_phase (pwe_next_state transition) <> PendingConnect). by rewrite <- Hph.
  - cbn. unfold connected_address in Ea. clear -Ea Hw.
    induction (cep_items payload) as [|reply items IH]; [done|]. cbn in Ea.
    destruct reply as [account| |]; cbn in Ea, Hw; [|by apply IH..].
    injection Ea as <-. by apply Forall_cons in Hw as [Hw _].
Qed.

Lemma reject_ok labels random code message c c' post :
  client_inv labels c -> client_reject_connect random code message c = (c', Ok post) ->
  exists transition,
    prepare_event (tcc_reducer c) Kind_ConnectError = Ok transition /\
    c' = finish_connect (pwe_next_state transition) c /\
    client_inv (labels ++ [Emitted Kind_ConnectError (pwe_id transition)]) c'.
Proof.
  intros Hc Ha. unfold client_reject_connect in Ha. methods Ha.
  destruct (prepare_event (tcc_reducer c) Kind_ConnectError) as [transition|] eqn:Ep; cbn [map_err] in Ha; [|done].
  destruct (client_prepare_post _ _ _ _ _) as [post'|] eqn:Epost; [|done]. injection Ha as <- <-.
  exists transition. split_and!; try done. pose proof (connected_phase _ _ _ Ep) as Hph.
  assert (wss_phase (pwe_next_state transition) = Disconnected) as Ed
    by (destruct (wss_phase (tcc_reducer c)); cbn in Hph; by simplify_eq).
  apply (client_moves labels c _ _ Hc); try done; cbn [update tcc_reducer finish_connect].
  - by constructor.
  - change (wss_phase (pwe_next_state transition) <> PendingConnect). by rewrite Ed.
  - change (wss_phase (pwe_next_state transition) = Connected -> is_Some (tcc_connected_address c)).
    by rewrite Ed.
  - apply (cv_address _ _ Hc).
Qed.

Lemma disconnect_ok labels random trace c c' post :
  client_inv labels c -> client_disconnect random trace c = (c', Ok post) ->
  exists transition,
    prepare_event (tcc_reducer c) Kind_Disconnect = Ok transition /\
    c' = c <| tcc_reducer := pwe_next_state transition |> /\
    client_inv (labels ++ [Emitted Kind_Disconnect (pwe_id transition)]) c'.
Proof.
  intros Hc Ha. unfold client_disconnect in Ha. methods Ha.
  destruct (prepare_event (tcc_reducer c) Kind_Disconnect) as [transition|] eqn:Ep; cbn [map_err] in Ha; [|done].
  destruct (client_prepare_post _ _ _ _ _) as [post'|] eqn:Epost; [|done]. injection Ha as <- <-.
  exists transition. split_and!; try done. pose proof (connected_phase _ _ _ Ep) as Hph.
  assert (wss_phase (tcc_reducer c) = Connected /\ wss_phase (pwe_next_state transition) = Disconnected)
    as [Econn Ed] by (destruct (wss_phase (tcc_reducer c)); cbn in Hph; by simplify_eq).
  assert (tcc_connect_request c = None) as Hnone.
  { destruct (tcc_connect_request c) as [r|] eqn:Er; [|done]. exfalso.
    assert (wss_phase (tcc_reducer c) = PendingConnect) by (apply (cv_connect _ _ Hc); by rewrite Er). congruence. }
  apply (client_moves labels c _ _ Hc); try done; cbn [update tcc_reducer].
  - by constructor.
  - cbn. destruct (tcc_embedded_request c) eqn:Ee; [|done].
    destruct (cv_embedded _ _ Hc) as [r Hr]; [by rewrite Ee|]. congruence.
  - apply (cv_trace _ _ Hc).
  - change (wss_phase (pwe_next_state transition) <> PendingConnect). by rewrite Ed.
  - change (wss_phase (pwe_next_state transition) = Connected -> is_Some (tcc_connected_address c)).
    by rewrite Ed.
  - apply (cv_address _ _ Hc).
Qed.


(** *** The event stream *)

Definition traced (event : BridgeSseMessage) : Prop := valid_trace (bm_trace_id (bs_message event)).

Lemma bridge_message_traced v message :
  decode_BridgeMessage v = Some message -> valid_trace (bm_trace_id message).
Proof.
  unfold decode_BridgeMessage. destruct v as [| | | | |fields]; try done. destruct (forallb _ _); [|done].
  intros (from & _ & Hd)%bind_Some. apply bind_Some in Hd as (text & _ & Hd).
  apply bind_Some in Hd as (trace & Ht & Hd). destruct (is_empty text); [done|]. injection Hd as <-.
  unfold trace_id_try_from in Ht. by apply optional_checked in Ht.
Qed.

Lemma take_line_traced line d d' messages :
  take_line line d = (d', Ok messages) -> Forall traced messages.
Proof.
  unfold take_line. intros Ht. methods Ht.
  destruct (ensure_size_bound _ _); [|done]. destruct (ok_or _ _) as [text|]; [|done].
  destruct (is_empty text); [|by injection Ht as _ <-].
  destruct (dispatch _) as [d1 [[message|]|]] eqn:Ed; [|by injection Ht as _ <-|done].
  injection Ht as _ <-. constructor; [|done]. unfold dispatch in Ed.
  destruct (_ || _); [done|]. destruct (negb _); [done|].
  destruct (decode_slice _ _) as [m|] eqn:Em; [|done]. injection Ed as _ <-. unfold traced. cbn [bs_message].
  apply rbind_ok in Em as (document & _ & Em%ok_or_ok). by apply bridge_message_traced in Em.
Qed.

Lemma push_loop_traced fuel d d' messages :
  push_loop fuel d = (d', Ok messages) -> Forall traced messages.
Proof.
  revert d d' messages. induction fuel as [|fuel IH]; intros d d' messages; cbn [push_loop];
    (destruct (split_once _ _) as [[line rest]|]; [|by intros [= _ <-]]); [by intros [= _ <-]|].
  unfold mbind', mret. destruct (take_line _ _) as [d1 [first|]] eqn:Ef; [|done].
  destruct (push_loop fuel d1) as [d2 [later|]] eqn:El; [|done]. intros [= _ <-].
  apply Forall_app. split; [by apply take_line_traced in Ef|by apply IH in El].
Qed.

Lemma push_traced chunk d d' messages : push chunk d = (d', Ok messages) -> Forall traced messages.
Proof.
  unfold push, mbind', mlift, mget, mupdate, mret.
  destruct (push_loop _ _) as [d1 [all|]] eqn:El; [|done]. destruct (ensure_size_bound _ _); [|done].
  intros [= _ <-]. by apply push_loop_traced in El.
Qed.

(** A request that the client returned, and the label of its transition. *)
Definition labelled (incoming : IncomingRequest) (label : Label) : Prop :=
  exists id, rpc_from_str (ar_id (ir_request incoming)) = Ok id /\
    label = Accepted (ir_request incoming) (rpc_number id) (ir_closes_session incoming).

Record accepted_request (incoming : IncomingRequest) : Prop := {
  ac_trace : valid_trace (ir_trace_id incoming);
  ac_consistent : consistent incoming;
}.

(** What ingesting leaves alone. *)
Record same_session (c c' : TonConnectClient) : Prop := {
  ss_crypto : tcc_crypto c' = tcc_crypto c;
  ss_peer : tcc_peer_client_id c' = tcc_peer_client_id c;
  ss_address : tcc_connected_address c' = tcc_connected_address c;
}.

Lemma cursor_inv labels c cursor :
  client_inv labels c -> client_inv labels (c <| tcc_last_bridge_event_id := cursor |>).
Proof. intros []. by constructor. Qed.

Lemma decoder_inv labels c decoder :
  client_inv labels c -> client_inv labels (c <| tcc_decoder := decoder |>).
Proof. intros []. by constructor. Qed.

Lemma connected_without_request labels c :
  client_inv labels c -> wss_phase (tcc_reducer c) = Connected ->
  tcc_connect_request c = None /\ tcc_embedded_request c = None /\ is_Some (tcc_connected_address c).
Proof.
  intros Hc Hp. assert (tcc_connect_request c = None) as Hn.
  { destruct (tcc_connect_request c) as [r|] eqn:Er; [|done]. exfalso.
    assert (wss_phase (tcc_reducer c) = PendingConnect) by (apply (cv_connect _ _ Hc); by rewrite Er). congruence. }
  split; [done|]. split.
  - destruct (tcc_embedded_request c) eqn:Ee; [|done].
    destruct (cv_embedded _ _ Hc) as [r Hr]; [by rewrite Ee|]. congruence.
  - pose proof (cv_account _ _ Hc) as Ha. rewrite Hp in Ha. destruct (tcc_connected_address c); [by eexists|done].
Qed.

Lemma accept_inv labels c request prepared :
  client_inv labels c -> prepare_request (tcc_reducer c) request = Ok prepared ->
  client_inv
    (labels ++ [Accepted request (rpc_number (par_request_id prepared)) (par_closes_session prepared)])
    (c <| tcc_reducer := par_next_state prepared |>) /\
  is_Some (tcc_connected_address c).
Proof.
  intros Hc Hp. assert (wss_phase (tcc_reducer c) = Connected /\ rpc_from_str (ar_id request) = Ok (par_request_id prepared) /\
    wss_phase (par_next_state prepared) <> PendingConnect) as (Hph & Hid & Hnp).
  { unfold prepare_request in Hp. destruct (bool_decide_reflect (wss_phase (tcc_reducer c) = Connected)) as [Hph|]; [|done].
    cbn [negb] in Hp. apply rbind_ok in Hp as (id & Hid & Hp). apply if_err_ok in Hp as [_ [= <-]].
    split; [done|]. split; [done|]. cbn [par_next_state]. destruct (bool_decide _ && _); [done|]. cbn. by rewrite Hph. }
  destruct (connected_without_request labels c Hc Hph) as (Hn & He & Ha). split; [|done].
  apply (client_moves labels c _ _ Hc); try done; [by constructor|apply (cv_trace _ _ Hc)|apply (cv_address _ _ Hc)].
Qed.

Lemma ingest_event_inv labels event c c' requests :
  client_inv labels c -> traced event -> ingest_event event c = (c', requests) ->
  exists new, client_inv (labels ++ new) c' /\ Forall2 labelled requests new /\
    Forall accepted_request requests /\ same_session c c' /\
    (requests <> [] -> is_Some (tcc_connected_address c)).
Proof.
  intros Hc Ht. unfold ingest_event.
  set (c1 := match bs_event_id event with Some _ => _ | None => c end).
  assert (client_inv labels c1 /\ same_session c c1) as [Hc1 Hs1].
  { subst c1. destruct (bs_event_id event); [split; [by apply cursor_inv|done]|done]. }
  clearbody c1. intros Hi.
  assert (exists new, client_inv (labels ++ new) c1 /\ Forall2 labelled [] new) as (new & Hnew & Hl)
    by (exists []; rewrite app_nil_r; by split; [|constructor]).
  destruct (message_decrypt _ _ _ _) as [request|].
  2: { injection Hi as <- <-. exists new. split_and!; try done. }
  destruct (prepare_request _ _) as [prepared|] eqn:Ep.
  2: { injection Hi as <- <-. exists new. split_and!; try done. }
  injection Hi as <- <-. destruct (accept_inv labels c1 request prepared Hc1 Ep) as [Hinv Ha].
  eexists. split; [exact Hinv|]. unfold prepare_request in Ep. destruct (negb _); [done|].
  apply rbind_ok in Ep as (id & Hid & Ep). apply if_err_ok in Ep as [_ [= <-]]. cbn [par_closes_session par_request_id].
  split; [|split; [|split]].
  - constructor; [|constructor]. exists id. by split.
  - constructor; [|constructor]. by split.
  - destruct Hs1. by constructor.
  - intros _. by rewrite <- (ss_address _ _ Hs1).
Qed.


Lemma same_session_trans a b c : same_session a b -> same_session b c -> same_session a c.
Proof. intros [] []. constructor; congruence. Qed.

Lemma ingest_events_inv labels events c c' requests :
  client_inv labels c -> Forall traced events -> ingest_events events c = (c', requests) ->
  exists new, client_inv (labels ++ new) c' /\ Forall2 labelled requests new /\
    Forall accepted_request requests /\ same_session c c' /\
    (requests <> [] -> is_Some (tcc_connected_address c)).
Proof.
  intros Hc Ht. revert labels c c' requests Hc.
  induction Ht as [|event events He _ IH]; intros labels c c' requests Hc; cbn [ingest_events].
  { intros [= <- <-]. exists []. rewrite app_nil_r. by split_and!. }
  destruct (ingest_event event c) as [c1 first] eqn:E1. destruct (ingest_events events c1) as [c2 later] eqn:E2.
  intros [= <- <-]. destruct (ingest_event_inv _ _ _ _ _ Hc He E1) as (new1 & Hc1 & Hl1 & Ha1 & Hs1 & Hsome1).
  destruct (IH _ _ _ _ Hc1 E2) as (new2 & Hc2 & Hl2 & Ha2 & Hs2 & Hsome2).
  exists (new1 ++ new2). rewrite app_assoc. split_and!; try done.
  - by apply Forall2_app.
  - by apply Forall_app.
  - by apply same_session_trans with c1.
  - intros Hne. destruct first; [|by apply Hsome1]. rewrite <- (ss_address _ _ Hs1). by apply Hsome2.
Qed.

Lemma client_ingest_inv labels chunk c c' r :
  client_inv labels c -> client_ingest_sse_chunk chunk c = (c', r) ->
  exists new, client_inv (labels ++ new) c' /\ same_session c c' /\
    match r with
    | Ok requests => Forall2 labelled requests new /\ Forall accepted_request requests /\
        (requests <> [] -> is_Some (tcc_connected_address c))
    | Err _ => new = []
    end.
Proof.
  intros Hc. unfold client_ingest_sse_chunk. destruct (push chunk _) as [decoder [events|]] eqn:Ep.
  - pose proof (push_traced _ _ _ _ Ep) as Ht.
    destruct (ingest_events _ _) as [c1 requests] eqn:Ei. intros [= <- <-].
    destruct (ingest_events_inv labels _ _ _ _ (decoder_inv _ _ decoder Hc) Ht Ei)
      as (new & Hc' & Hl & Ha & Hs & Hsome). exists new. split; [done|]. split; [by destruct Hs|done].
  - intros [= <- <-]. exists []. rewrite app_nil_r. split; [by apply decoder_inv|]. done.
Qed.
End Client.

(** ** Sorted requests *)

Lemma assoc_get_In {A} key (entries : list (rstr * A)) v :
  assoc_get key entries = Some v -> (key, v) ∈ entries.
Proof.
  induction entries as [|[k w] entries IH]; [done|]. cbn [assoc_get].
  destruct (bool_decide_reflect (k = key)) as [->|]; [intros [= ->]; left|]. intros Hv. right. by apply IH.
Qed.

Lemma map_insert_last {A} key (v : A) entries :
  Forall (fun entry => str_cmp entry.1 key = Lt) entries ->
  map_insert key v entries = entries ++ [(key, v)].
Proof.
  induction 1 as [|[k w] entries Hk _ IH]; [done|]. cbn [map_insert app fst] in *.
  rewrite str_cmp_antisym, Hk. cbn. by rewrite IH.
Qed.

Lemma sorted_app_head {A} (entries rest : list (rstr * A)) key v :
  StronglySorted key_lt (entries ++ (key, v) :: rest) ->
  Forall (fun entry => str_cmp entry.1 key = Lt) entries.
Proof.
  induction entries as [|entry entries IH]; [done|]. cbn [app]. intros Hs.
  inversion Hs as [|? ? Hs' Hf]; subst. constructor; [|by apply IH].
  rewrite Forall_app, Forall_cons in Hf. apply Hf.
Qed.

Lemma map_remove_sorted {A} key (entries : list (rstr * A)) :
  StronglySorted key_lt entries -> StronglySorted key_lt (map_remove key entries).
Proof.
  induction 1 as [|entry entries _ IH Hf]; [constructor|]. unfold map_remove in *. cbn [List.filter].
  destruct (negb _); [|done]. constructor; [done|]. apply Forall_forall. intros x Hx.
  apply list_elem_of_In, filter_In in Hx as [Hx%list_elem_of_In _]. rewrite Forall_forall in Hf. by apply Hf.
Qed.

Lemma map_remove_keys {A} key k (entries : list (rstr * A)) :
  k ∈ map fst (map_remove key entries) <-> k ∈ map fst entries /\ k <> key.
Proof.
  unfold map_remove. split.
  - intros (entry & -> & Hin)%list_elem_of_fmap. apply list_elem_of_In, filter_In in Hin as [Hin Hk].
    apply negb_true_iff, bool_decide_eq_false in Hk. split; [|done]. by apply list_elem_of_fmap_2, list_elem_of_In.
  - intros [(entry & -> & Hin)%list_elem_of_fmap Hk]. apply list_elem_of_fmap_2, list_elem_of_In, filter_In.
    split; [by apply list_elem_of_In|]. by rewrite bool_decide_eq_false_2.
Qed.

(** ** Sessions *)

Section Sessions.
Context `{BigUintText} `{Crc32c} `{TonCells} `{HexCrate} `{Crc16} `{UrlSafeBase64}.
Context `{TonAddressParser} `{CryptoBox} `{SerdeJson} `{UrlBridge}.

(** A pending request under its identifier, which the reducer has accepted. *)
Record pending_entry (numbers : list N) (entry : rstr * IncomingRequest) : Prop := {
  pe_key : entry.1 = ar_id (ir_request entry.2);
  pe_accepted : accepted_request entry.2;
  pe_number : exists id, rpc_from_str entry.1 = Ok id /\ rpc_number id ∈ numbers;
}.

Record session_inv (labels : list Label) (s : TonConnectSessionState) : Prop := {
  sv_client : client_inv labels (tss_client s);
  sv_network : from_option (fun n => valid_network_id n = true) True (tss_connected_network s);
  sv_account : is_Some (tcc_connected_address (tss_client s)) -> is_Some (tss_connected_network s);
  sv_sorted : StronglySorted key_lt (tss_pending_requests s);
  sv_pending : Forall (pending_entry (request_numbers labels)) (tss_pending_requests s);
}.

(** serde_json reads back what it writes for this session. *)
Record session_written (s : TonConnectSessionState) : Prop := {
  sw_embedded : embedded_written (tss_client s);
  sw_requests :
    Forall (fun entry => reads_back (incoming_to_value entry.2)) (tss_pending_requests s);
  sw_record : forall client, client_persisted (tss_client s) = Ok client ->
    reads_back (session_record_to_value client
      (map (fun entry => incoming_persisted entry.2) (tss_pending_requests s))
      (tss_pending_post s) (tss_connected_network s));
}.

(** *** Restarts *)

Definition valid_limits (config : TonConnectSessionConfig) : Prop :=
  (0 < tsc_max_event_bytes config <= usize_max)%N /\ (0 < tsc_message_ttl_seconds config)%N.

Definition restarted (config : TonConnectSessionConfig) (s : TonConnectSessionState)
  : TonConnectSessionState :=
  s <| tss_client := restarted_client (tsc_max_event_bytes config) (tsc_message_ttl_seconds config)
                       (tss_client s) |>.

Lemma requests_restored numbers entries before :
  StronglySorted key_lt (before ++ entries) -> Forall (pending_entry numbers) entries ->
  Forall (fun entry => reads_back (incoming_to_value entry.2)) entries ->
  restore_requests (map (fun entry => incoming_persisted entry.2) entries) before
  = Ok (before ++ entries).
Proof.
  intros Hs He. revert before Hs. induction He as [|[key incoming] entries He _ IH]; intros before Hs Hr.
  { by rewrite app_nil_r. }
  apply Forall_cons in Hr as [Hr Hrest]. cbn [map restore_requests snd].
  rewrite incoming_restored; [|apply He|apply He|done]. cbn [map_err rbind].
  pose proof (pe_key _ _ He) as Hk. cbn [fst snd] in Hk. rewrite <- Hk.
  pose proof (sorted_app_head _ _ _ _ Hs) as Hlt.
  destruct (assoc_get key before) as [v|] eqn:Eg.
  { exfalso. apply assoc_get_In in Eg. rewrite Forall_forall in Hlt. specialize (Hlt _ Eg).
    cbn [fst] in Hlt. by rewrite str_cmp_refl in Hlt. }
  rewrite map_insert_last by done.
  specialize (IH (before ++ [(key, incoming)])). rewrite <- app_assoc in IH. by apply IH.
Qed.

Lemma limits_ok config :
  valid_limits config ->
  nonzero_usize (tsc_max_event_bytes config) "max event bytes" = Ok (tsc_max_event_bytes config) /\
  nonzero_ttl (tsc_message_ttl_seconds config) = Ok (tsc_message_ttl_seconds config).
Proof.
  intros [[Hpos Hmax] Ht]. unfold nonzero_usize, nonzero_ttl. split.
  - rewrite (proj2 (N.ltb_ge _ _) Hmax), (proj2 (N.eqb_neq _ _)) by lia. done.
  - by rewrite (proj2 (N.eqb_neq _ _)) by lia.
Qed.

Lemma session_restored labels s :
  session_inv labels s -> session_written s -> storable_cursor (tss_client s) ->
  exists text, session_persisted s = Ok text /\
    forall config, valid_limits config ->
      ton_connect_session_restore text config = Ok (restarted config s).
Proof.
  intros Hs Hw Hcur.
  destruct (client_restored labels _ (sv_client _ _ Hs) (sw_embedded _ Hw) Hcur) as (client & Hp & Hd & Hr).
  unfold session_persisted. rewrite Hp. cbn [map_err rbind]. eexists. split; [done|].
  intros config Hlim. unfold ton_connect_session_restore, decode_slice.
  rewrite (sw_record _ Hw client Hp). cbn [rbind].
  assert (decode_PersistedTonConnectSession
            (session_record_to_value client
               (map (fun entry => incoming_persisted entry.2) (tss_pending_requests s))
               (tss_pending_post s) (tss_connected_network s))
          = Some (client, map (fun entry => incoming_persisted entry.2) (tss_pending_requests s),
                  tss_pending_post s, tss_connected_network s)) as ->.
  { unfold decode_PersistedTonConnectSession, session_record_to_value.
    rewrite strict_shape_present; [|distinct_names|done]. cbn [map required mbind option_bind].
    rewrite Hd. cbn [mbind option_bind]. rewrite texts_read. cbn [mbind option_bind].
    rewrite (nullable_read _ prepared_post_to_value (fun _ => True))
      by (first [by destruct (tss_pending_post s) | intros post _; split; [done|apply prepared_post_read]]).
    cbn [mbind option_bind]. unfold network_id_try_from.
    by rewrite nullable_validated_read by (apply (sv_network _ _ Hs)). }
  cbn [ok_or map_err rbind]. destruct (limits_ok config Hlim) as [-> ->]. cbn [rbind].
  rewrite Hr. cbn [map_err rbind].
  rewrite (requests_restored (request_numbers labels) _ []);
    [|apply (sv_sorted _ _ Hs)|apply (sv_pending _ _ Hs)|apply (sw_requests _ Hw)].
  by destruct s.
Qed.

(** *** Operations that stage a post *)

(** The operations that stage a post; those that answer a request, with its identifier. *)
Inductive posting : operation TonConnectPreparedPost -> option rstr -> Prop :=
  | posting_approve random account proof device :
      posting (session_approve_connect random account proof device) None
  | posting_reject random message : posting (session_reject_connect random message) None
  | posting_disconnect random : posting (session_disconnect random) None
  | posting_send random id signed_boc : posting (prepare_send_success random id signed_boc) (Some id)
  | posting_sign random id internal_boc :
      posting (prepare_sign_message_success random id internal_boc) (Some id)
  | posting_closed random id : posting (prepare_disconnect_success random id) (Some id)
  | posting_error random id code message : posting (prepare_error random id code message) (Some id).

(** What staging a post does to the session. *)
Record staged (answer : option rstr) (s : TonConnectSessionState) (post : TonConnectPreparedPost)
    (s' : TonConnectSessionState) : Prop := {
  st_free : tss_pending_post s = None;
  st_post : tss_pending_post s' = Some post;
  st_requests :
    tss_pending_requests s' =
      match answer with
      | Some id => map_remove id (tss_pending_requests s)
      | None => tss_pending_requests s
      end;
  st_pending : forall id, answer = Some id -> id ∈ map fst (tss_pending_requests s);
}.

Lemma same_client s : s <| tss_client := tss_client s |> = s.
Proof. by destruct s. Qed.

(** An operation of the client that may leave the rest of the session. *)
Lemma client_inv_session labels kind id s client network :
  session_inv labels s -> client_inv (labels ++ [Emitted kind id]) client ->
  from_option (fun n => valid_network_id n = true) True network ->
  (is_Some (tcc_connected_address client) -> is_Some network) ->
  forall post, session_inv (labels ++ [Emitted kind id])
    (mkTonConnectSessionState client (tss_pending_requests s) post network).
Proof.
  intros Hs Hc Hn Ha post. constructor; [done..|apply (sv_sorted _ _ Hs)|].
  rewrite request_numbers_app. cbn. rewrite app_nil_r. apply (sv_pending _ _ Hs).
Qed.

Lemma account_reply_typed account reply :
  session_account_reply account = Ok reply ->
  well_typed (tar_address reply.1) /\ valid_network_id reply.2 = true /\
  tar_network reply.1 = reply.2.
Proof.
  unfold session_account_reply. intros (address & Ha%map_err_ok & Hr)%rbind_ok.
  apply rbind_ok in Hr as (network & Hn%map_err_ok & Hr). apply rbind_ok in Hr as (state & _ & Hr).
  apply rbind_ok in Hr as (key & _ & [= <-]). cbn [fst snd tar_address tar_network].
  split; [by apply raw_from_str_well_typed in Ha|]. split; [|done].
  unfold network_id_try_from, validated_string in Hn. destruct (valid_network_id (tci_network account)) eqn:E; [|done].
  by injection Hn as <-.
Qed.

Lemma item_replies_account account proof items replies :
  try_map (item_reply account proof) items = Ok replies ->
  Forall (fun a => a = account) (omap account_reply replies).
Proof.
  revert replies. induction items as [|item items IH]; intros replies; cbn [try_map]; [by intros [= <-]|].
  intros (reply & Hr & Hi)%rbind_ok. apply rbind_ok in Hi as (rest & Hrest & [= <-]).
  cbn [omap list_omap]. specialize (IH _ Hrest). destruct item as [network|payload|name fields]; cbn [item_reply] in Hr.
  - injection Hr as <-. by constructor.
  - apply rbind_ok in Hr as (p & _ & Hr). apply rbind_ok in Hr as (p' & _ & [= <-]). exact IH.
  - injection Hr as <-. exact IH.
Qed.

Lemma approve_staged labels random account proof device s s' r :
  session_inv labels s -> session_approve_connect random account proof device s = (s', r) ->
  match r with
  | Err _ => s' = s
  | Ok post => staged None s post s' /\ exists id, session_inv (labels ++ [Emitted Kind_Connect id]) s'
  end.
Proof.
  intros Hs. unfold session_approve_connect, ensure_no_pending_post. intros Ha. methods Ha.
  destruct (tss_pending_post s) eqn:Epp; [by injection Ha as <- <-|].
  destruct (tcc_connect_request (tss_client s)) as [request|]; cbn [ok_or] in Ha; [|by injection Ha as <- <-].
  destruct (session_account_reply account) as [reply|] eqn:Er; [|by injection Ha as <- <-].
  destruct (try_map _ _) as [items|] eqn:Ei; [|by injection Ha as <- <-].
  destruct (classic_device device) as [info|]; [|by injection Ha as <- <-].
  unfold on_client in Ha. destruct (client_approve_connect _ _ _ _) as [client [post|]] eqn:Ec; cbn [map_err] in Ha.
  2: { injection Ha as <- <-. apply approve_fails in Ec as ->. apply same_client. }
  injection Ha as <- <-. destruct (account_reply_typed _ _ Er) as (Hw & Hn & _).
  assert (Forall (fun a => well_typed (tar_address a)) (omap account_reply items)) as Hall
    by (apply (Forall_impl _ _ _ (item_replies_account _ _ _ _ Ei)); by intros a ->).
  destruct (approve_ok labels _ (mkConnectEventPayload items info) _ _ _ _ (sv_client _ _ Hs) Hall Ec)
    as (req & transition & address & _ & _ & _ & _ & _ & -> & Hinv).
  split; [by constructor|]. exists (pwe_id transition).
  apply (client_inv_session labels _ _ s _ (Some reply.2)); [done..|]. intros _. by eexists.
Qed.

Lemma reject_staged labels random message s s' r :
  session_inv labels s -> session_reject_connect random message s = (s', r) ->
  match r with
  | Err _ => s' = s
  | Ok post => staged None s post s' /\ exists id, session_inv (labels ++ [Emitted Kind_ConnectError id]) s'
  end.
Proof.
  intros Hs. unfold session_reject_connect, ensure_no_pending_post. intros Ha. methods Ha.
  destruct (tss_pending_post s) eqn:Epp; [by injection Ha as <- <-|].
  unfold on_client in Ha. destruct (client_reject_connect _ _ _ _) as [client [post|]] eqn:Ec; cbn [map_err] in Ha.
  2: { injection Ha as <- <-. apply reject_fails in Ec as ->. apply same_client. }
  injection Ha as <- <-. destruct (reject_ok labels _ _ _ _ _ _ (sv_client _ _ Hs) Ec) as (transition & _ & -> & Hinv).
  split; [by constructor|]. exists (pwe_id transition).
  apply (client_inv_session labels _ _ s _ (tss_connected_network s)); [done..|apply Hs|apply (sv_account _ _ Hs)].
Qed.

Lemma disconnect_staged labels random s s' r :
  session_inv labels s -> session_disconnect random s = (s', r) ->
  match r with
  | Err _ => s' = s
  | Ok post => staged None s post s' /\ exists id, session_inv (labels ++ [Emitted Kind_Disconnect id]) s'
  end.
Proof.
  intros Hs. unfold session_disconnect, ensure_no_pending_post. intros Ha. methods Ha.
  destruct (tss_pending_post s) eqn:Epp; [by injection Ha as <- <-|].
  unfold on_client in Ha. destruct (client_disconnect _ _ _) as [client [post|]] eqn:Ec; cbn [map_err] in Ha.
  2: { injection Ha as <- <-. apply disconnect_fails in Ec as ->. apply same_client. }
  injection Ha as <- <-. destruct (disconnect_ok labels _ _ _ _ _ (sv_client _ _ Hs) Ec) as (transition & _ & -> & Hinv).
  split; [by constructor|]. exists (pwe_id transition).
  apply (client_inv_session labels _ _ s _ (tss_connected_network s)); [done..|apply Hs|apply (sv_account _ _ Hs)].
Qed.

Lemma response_staged labels random id response s s' r :
  session_inv labels s -> session_prepare_response random id response s = (s', r) ->
  match r with
  | Err _ => s' = s
  | Ok post => staged (Some id) s post s' /\ session_inv labels s'
  end.
Proof.
  intros Hs. unfold session_prepare_response, ensure_no_pending_post. intros Ha. methods Ha.
  destruct (tss_pending_post s) eqn:Epp; [by injection Ha as <- <-|].
  destruct (assoc_get id _) as [incoming|] eqn:Eg; cbn [ok_or] in Ha; [|by injection Ha as <- <-].
  destruct (client_prepare_response _ _ _ _) as [post|]; cbn [map_err] in Ha; [|by injection Ha as <- <-].
  injection Ha as <- <-. split.
  - constructor; try done. intros ? [= <-]. apply assoc_get_In in Eg. by apply (list_elem_of_fmap_2 fst _ (id, incoming)).
  - destruct Hs as [Hc Hn Ha Hsort Hp]. constructor; cbn; [done..|by apply map_remove_sorted|].
    apply Forall_forall. intros entry Hin%list_elem_of_In. apply filter_In in Hin as [Hin%list_elem_of_In _].
    rewrite Forall_forall in Hp. by apply Hp.
Qed.

(** *** Requests *)

Definition incoming_id (incoming : IncomingRequest) : rstr := ar_id (ir_request incoming).

Definition numbered (incoming : IncomingRequest) (number : N) : Prop :=
  exists id, rpc_from_str (incoming_id incoming) = Ok id /\ rpc_number id = number.

Lemma labelled_numbered requests new :
  Forall2 labelled requests new -> Forall2 numbered requests (request_numbers new).
Proof.
  induction 1 as [|incoming label requests new (id & Hid & ->) _ IH]; [constructor|].
  cbn. constructor; [by exists id|exact IH].
Qed.

Lemma sorted_middle (numbers later : list N) n :
  StronglySorted N.lt (numbers ++ n :: later) -> n ∉ numbers.
Proof.
  induction numbers as [|x numbers IH]; [by intros _ ?%not_elem_of_nil|]. cbn [app]. intros Hs.
  inversion Hs as [|? ? Hs' Hf]; subst. intros [->|Hin]%elem_of_cons; [|by apply IH].
  rewrite Forall_app, Forall_cons in Hf. destruct Hf as (_ & Hlt & _). lia.
Qed.

Lemma pending_entry_mono numbers numbers' entry :
  (forall n, n ∈ numbers -> n ∈ numbers') -> pending_entry numbers entry -> pending_entry numbers' entry.
Proof. intros Hsub [Hk Ha (id & Hid & Hn)]. constructor; [done..|]. exists id. split; [done|]. by apply Hsub. Qed.

(** A request with a new number is not pending. *)
Lemma fresh_request numbers later n incoming entries :
  StronglySorted N.lt (numbers ++ n :: later) -> numbered incoming n ->
  Forall (pending_entry numbers) entries -> incoming_id incoming ∉ map fst entries.
Proof.
  intros Hs (id & Hid & Hn) He (entry & Hk & Hin)%list_elem_of_fmap.
  rewrite Forall_forall in He. destruct (pe_number _ _ (He _ Hin)) as (id' & Hid' & Hin').
  rewrite <- Hk, Hid in Hid'. injection Hid' as <-. rewrite Hn in Hin'.
  by apply (sorted_middle numbers later n).
Qed.

(** What registering the accepted requests leaves alone. *)
Record registered (s s' : TonConnectSessionState) : Prop := {
  rg_client : tss_client s' = tss_client s;
  rg_post : tss_pending_post s' = tss_pending_post s;
  rg_network : tss_connected_network s' = tss_connected_network s;
}.

(** The first accepted requests become pending; the loop stops at one that cannot be
    decoded, never at a repeated identifier. *)
Lemma register_requests_inv now incoming ns numbers s s' r :
  StronglySorted N.lt (numbers ++ ns) -> Forall2 numbered incoming ns ->
  Forall accepted_request incoming -> StronglySorted key_lt (tss_pending_requests s) ->
  Forall (pending_entry numbers) (tss_pending_requests s) ->
  register_requests incoming now s = (s', r) ->
  registered s s' /\ StronglySorted key_lt (tss_pending_requests s') /\
  Forall (pending_entry (numbers ++ ns)) (tss_pending_requests s') /\
  exists kept lost, incoming = kept ++ lost /\
    tss_pending_requests s' ≡ₚ map (fun i => (incoming_id i, i)) kept ++ tss_pending_requests s /\
    NoDup (map incoming_id kept ++ map fst (tss_pending_requests s)) /\
    match r with
    | Ok public => lost = [] /\ Forall2 (fun i p => decode_incoming s i now = Ok p) kept public
    | Err e => exists i rest, lost = i :: rest /\ decode_incoming s i now = Err e
    end.
Proof.
  intros Hsort Hnum. revert numbers s s' r Hsort.
  induction Hnum as [|i n incoming ns Hi Hnum IH]; intros numbers s s' r Hsort Hacc Hkeys Hpend; cbn [register_requests].
  { intros [= <- <-]. rewrite app_nil_r. split; [done|]. split; [done|]. split; [done|].
    exists [], []. split_and!; try done. by apply sorted_distinct. }
  intros Hr. methods Hr. apply Forall_cons in Hacc as [Hai Hacc].
  destruct (decode_incoming s i now) as [public|e] eqn:Ed.
  2: { injection Hr as <- <-. split; [done|]. split; [done|]. split.
       - apply (Forall_impl _ _ _ Hpend). intros entry. apply pending_entry_mono. intros m Hm. rewrite elem_of_app. by left.
       - exists [], (i :: incoming). split_and!; try done; [by apply sorted_distinct|by exists i, incoming]. }
  pose proof (fresh_request _ _ _ _ _ Hsort Hi Hpend) as Hfresh. fold (incoming_id i) in Hr.
  destruct (assoc_get (incoming_id i) _) as [v|] eqn:Eg.
  { exfalso. apply Hfresh. apply assoc_get_In in Eg. by apply (list_elem_of_fmap_2 fst _ (incoming_id i, v)). }
  set (s1 := s <| tss_pending_requests := map_insert (incoming_id i) i (tss_pending_requests s) |>) in *.
  pose proof (map_insert_fresh (incoming_id i) i (tss_pending_requests s) Hfresh) as Hperm.
  destruct (register_requests incoming now s1) as [s2 r2] eqn:E2.
  specialize (IH (numbers ++ [n]) s1 s2 r2). rewrite <- app_assoc in IH.
  destruct (IH Hsort Hacc) as (Hreg & Hkeys' & Hpend' & kept & lost & -> & Hp' & Hd' & Hres); [| |done|].
  { by apply map_insert_sorted. }
  { cbn. rewrite Hperm. constructor.
    - destruct Hi as (id & Hid & <-). constructor; [done..|]. exists id. split; [done|]. rewrite elem_of_app. right. left.
    - apply (Forall_impl _ _ _ Hpend). intros entry. apply pending_entry_mono. intros m Hm. rewrite elem_of_app. by left. }
  clear IH. assert (registered s s2) as Hreg' by (by destruct Hreg; constructor).
  assert (tss_pending_requests s2 ≡ₚ map (fun i => (incoming_id i, i)) (i :: kept) ++ tss_pending_requests s) as Hp2.
  { rewrite Hp'. cbn. rewrite Hperm. by rewrite Permutation_middle. }
  assert (NoDup (map incoming_id (i :: kept) ++ map fst (tss_pending_requests s))) as Hd2.
  { cbn in Hd'. rewrite Hperm in Hd'. cbn in Hd'. by rewrite <- Permutation_middle in Hd'. }
  destruct r2 as [decoded|e]; injection Hr as <- <-; (split; [done|]); (split; [done|]); (split; [done|]);
    exists (i :: kept), lost; (split; [done|]); (split; [done|]); (split; [done|]); [|done].
  destruct Hres as [-> Hres]. split; [done|]. by constructor.
Qed.

Lemma ingest_inv labels chunk now s s' r :
  session_inv labels s -> session_ingest_sse_chunk chunk now s = (s', r) ->
  exists new kept lost,
    session_inv (labels ++ new) s' /\ Forall2 labelled (kept ++ lost) new /\
    same_session (tss_client s) (tss_client s') /\
    tss_pending_post s' = tss_pending_post s /\
    tss_pending_requests s' ≡ₚ map (fun i => (incoming_id i, i)) kept ++ tss_pending_requests s /\
    NoDup (map incoming_id kept ++ map fst (tss_pending_requests s)) /\
    match r with
    | Ok public => lost = [] /\ Forall2 (fun i p => decode_incoming s' i now = Ok p) kept public
    | Err _ => forall i rest, lost = i :: rest -> exists e, decode_incoming s' i now = Err e
    end.
Proof.
  intros Hs. unfold session_ingest_sse_chunk, on_client. intros Hi. methods Hi.
  destruct (client_ingest_sse_chunk chunk (tss_client s)) as [client answer] eqn:Ec.
  destruct (client_ingest_inv labels chunk _ _ _ (sv_client _ _ Hs) Ec) as (new & Hc & Hss & Hans).
  pose proof (session_run_inv _ _ (cv_run _ _ Hc)) as Hrun. pose proof (ri_sorted _ _ Hrun) as Hsort.
  rewrite request_numbers_app in Hsort. destruct answer as [requests|error]; cbn [map_err] in Hi.
  2: { injection Hi as <- <-. subst new. exists [], [], []. split.
       - destruct Hs as [_ Hn Ha Hk Hp]. rewrite app_nil_r in *.
         constructor; cbn; [done..|by rewrite (ss_address _ _ Hss)|done|done].
       - split_and!; try done. apply sorted_distinct, (sv_sorted _ _ Hs). }
  destruct Hans as (Hl & Hacc & Hsome). set (s1 := s <| tss_client := client |>) in *.
  destruct (register_requests_inv now requests (request_numbers new) (request_numbers labels) s1 s' r Hsort
              (labelled_numbered _ _ Hl) Hacc (sv_sorted _ _ Hs) (sv_pending _ _ Hs) Hi)
    as ([Hcl Hpp Hnet] & Hk & Hp & kept & lost & -> & Hperm & Hd & Hres).
  assert (forall i, decode_incoming s' i now = decode_incoming s1 i now) as Hdec.
  { intros i. unfold decode_incoming, request_context. by rewrite Hcl, Hnet. }
  exists new, kept, lost. split.
  { constructor; rewrite ?Hcl, ?Hnet; [exact Hc|apply (sv_network _ _ Hs)| |done|by rewrite request_numbers_app].
    cbn. rewrite (ss_address _ _ Hss). apply (sv_account _ _ Hs). }
  rewrite Hcl, Hpp. split_and!; try done. destruct r as [public|e].
  - destruct Hres as [-> Hres]. split; [done|]. apply (Forall2_impl _ _ _ _ Hres). intros i p. by rewrite Hdec.
  - destruct Hres as (i & rest & -> & He). intros i' rest' [= <- <-]. exists e. by rewrite Hdec.
Qed.

(** A request that was accepted is never accepted again. *)
Lemma accepted_once labels c incoming number :
  client_inv labels c -> numbered incoming number -> number ∈ request_numbers labels ->
  is_ok (prepare_request (tcc_reducer c) (ir_request incoming)) = false.
Proof.
  intros Hc (id & Hid & Hn) Hin. destruct (session_run_inv _ _ (cv_run _ _ Hc)) as [_ Hlast Hsort _ _].
  unfold prepare_request. destruct (negb _); [done|]. unfold incoming_id in Hid. rewrite Hid. cbn [rbind].
  unfold below in Hlast. destruct (wss_last_request_id (tcc_reducer c)) as [last|].
  2: { rewrite Hlast in Hin. by apply not_elem_of_nil in Hin. }
  destruct Hlast as (before & Hnum & Hcan). rewrite Hnum in Hin, Hsort.
  assert (number <= rpc_number last)%N as Hle.
  { apply elem_of_app in Hin as [Hin| ->%list_elem_of_singleton]; [|lia]. clear -Hin Hsort.
    induction before as [|x before IH]; [by apply not_elem_of_nil in Hin|]. cbn [app] in Hsort.
    inversion Hsort as [|? ? Hs Hf]; subst. apply elem_of_cons in Hin as [->|Hin]; [|by apply IH].
    rewrite Forall_app, Forall_cons in Hf. destruct Hf as (_ & Hlt & _). lia. }
  pose proof (proj1 (rpc_from_str_spec _ _) Hid) as (_ & _ & Hc' & _).
  unfold rpc_le. rewrite rpc_cmp_number by done. rewrite Hn.
  by destruct (N.compare_spec number (rpc_number last)); [done|done|lia].
Qed.

(** When ingesting fails on a request that cannot be decoded, that request and the rest of
    the chunk are lost: they are not pending, and the session never accepts them again. *)
Theorem failed_ingest_loses_requests labels chunk now s s' e :
  session_inv labels s -> session_ingest_sse_chunk chunk now s = (s', Err e) ->
  exists new kept lost, session_inv (labels ++ new) s' /\ Forall2 labelled (kept ++ lost) new /\
    tss_pending_requests s' ≡ₚ map (fun i => (incoming_id i, i)) kept ++ tss_pending_requests s /\
    Forall (fun i => is_ok (prepare_request (tcc_reducer (tss_client s')) (ir_request i)) = false) lost.
Proof.
  intros Hs Hi. destruct (ingest_inv _ _ _ _ _ _ Hs Hi) as (new & kept & lost & Hs' & Hl & _ & _ & Hp & _ & _).
  exists new, kept, lost. split_and!; try done. apply labelled_numbered in Hl.
  apply Forall2_app_inv_l in Hl as (ns1 & ns2 & _ & Hlost & Hns).
  assert (forall n, n ∈ ns2 -> n ∈ request_numbers (labels ++ new)) as Hsub.
  { intros n Hn. rewrite request_numbers_app, Hns, !elem_of_app. by right; right. }
  clear -Hs' Hlost Hsub. induction Hlost as [|i n lost ns Hi _ IH]; constructor.
  - apply (accepted_once _ _ _ _ (sv_client _ _ Hs') Hi), Hsub. left.
  - apply IH. intros m Hm. apply Hsub. by right.
Qed.

(** ** Runs *)

Inductive classic_label :=
  | Received (ids : list rstr)
  | Posted (answer : option rstr) (post : TonConnectPreparedPost)
  | Delivered
  | Silent.

Definition pending_ids (s : TonConnectSessionState) : list rstr := map fst (tss_pending_requests s).

(** The requests that became pending. *)
Definition new_ids (s s' : TonConnectSessionState) : list rstr :=
  List.filter (fun id => negb (bool_decide (id ∈ pending_ids s))) (pending_ids s').

Inductive classic_step : TonConnectSessionState -> classic_label -> TonConnectSessionState -> Prop :=
  | classic_ingest chunk now s s' r :
      session_ingest_sse_chunk chunk now s = (s', r) -> classic_step s (Received (new_ids s s')) s'
  | classic_post m answer s s' post :
      posting m answer -> m s = (s', Ok post) -> classic_step s (Posted answer post) s'
  | classic_refused m answer s s' e :
      posting m answer -> m s = (s', Err e) -> classic_step s Silent s'
  | classic_subscribe s s' r :
      session_begin_events_subscription s = (s', r) -> classic_step s Silent s'
  | classic_deliver s s' r : complete_pending_post s = (s', r) -> classic_step s Delivered s'
  | classic_restart s text config s' :
      session_written s -> session_persisted s = Ok text ->
      ton_connect_session_restore text config = Ok s' -> classic_step s Silent s'.

(** Runs start with a link and the bytes of the random source. *)
Inductive classic_run : list classic_label -> TonConnectSessionState -> Prop :=
  | classic_start random link config s :
      (forall secret, random = Some secret -> typed_bytes 32 secret) ->
      ton_connect_session_from_link random link config = Ok s -> classic_run [] s
  | classic_next labels s label s' :
      classic_run labels s -> classic_step s label s' -> classic_run (labels ++ [label]) s'.

Definition received (labels : list classic_label) : list rstr :=
  flat_map (fun l => match l with Received ids => ids | _ => [] end) labels.

Definition answered (labels : list classic_label) : list rstr :=
  flat_map (fun l => match l with Posted (Some id) _ => [id] | _ => [] end) labels.

(** The post that awaits delivery. *)
Definition outstanding (labels : list classic_label) : option TonConnectPreparedPost :=
  fold_left (fun post l =>
    match l with Posted _ post => Some post | Delivered => None | Received _ | Silent => post end)
    labels None.

(** What may follow a history. *)
Definition allowed (before : list classic_label) (label : classic_label) : Prop :=
  match label with
  | Received ids => NoDup ids /\ forall id, id ∈ ids -> id ∉ received before
  | Posted answer _ =>
      outstanding before = None /\
      forall id, answer = Some id -> id ∈ received before /\ id ∉ answered before
  | Delivered | Silent => True
  end.

Definition orderly (labels : list classic_label) : Prop :=
  forall before label after, labels = before ++ label :: after -> allowed before label.

(** *** Every step keeps the invariant *)

Lemma bridge_url_stable value bridge :
  bridge_url_try_from value = Ok bridge -> bridge_url_try_from (bridge_as_str bridge) = Ok bridge.
Proof.
  unfold bridge_url_try_from. intros (parsed & Hp%ok_or_ok & Hb)%rbind_ok.
  apply if_err_ok in Hb as [Hb [= <-]]. unfold bridge_as_str. cbn [hb_url].
  rewrite (url_parse_as_str _ _ Hp). cbn [ok_or rbind]. by rewrite Hb.
Qed.

Lemma start_inv random link config s :
  (forall secret, random = Some secret -> typed_bytes 32 secret) ->
  ton_connect_session_from_link random link config = Ok s -> session_inv [] s /\ tss_pending_requests s = [] /\
  tss_pending_post s = None.
Proof.
  intros Hr (client & Hc & Hs)%rbind_ok. apply rbind_ok in Hs as (c & Hl%map_err_ok & [= <-]).
  unfold client_config in Hc. apply rbind_ok in Hc as (bridge & Hb%map_err_ok%bridge_url_stable & Hc).
  apply rbind_ok in Hc as (size & _ & Hc). apply rbind_ok in Hc as (ttl & _ & [= <-]).
  split; [|done]. pose proof (fun b h => from_link_inv random link _ c Hr b h Hl) as Hinv. specialize (Hinv Hb eq_refl).
  constructor; cbn; [done|done| |constructor|done]. intros Ha.
  pose proof (cv_account _ _ Hinv) as Hacc. assert (tcc_connected_address c = None) as Hn.
  { pose proof (session_run_inv _ _ (cv_run _ _ Hinv)) as [Hlife _ _ _ _].
    destruct (wss_phase (tcc_reducer c)); cbn in Hlife, Hacc.
    - by destruct (tcc_connected_address c).
    - by destruct Hlife as (? & ? & _).
    - destruct Hlife as [?|(? & ? & ? & _)]; done. }
  rewrite Hn in Ha. by destruct Ha.
Qed.

Lemma posting_staged labels m answer s s' r :
  session_inv labels s -> posting m answer -> m s = (s', r) ->
  match r with
  | Err _ => s' = s
  | Ok post => staged answer s post s' /\
      exists labels', session_inv labels' s' /\ request_numbers labels' = request_numbers labels
  end.
Proof.
  intros Hs Hm. destruct Hm; intros Hr.
  1: apply (approve_staged labels) in Hr; [|done].
  2: apply (reject_staged labels) in Hr; [|done].
  3: apply (disconnect_staged labels) in Hr; [|done].
  1-3: destruct r as [post|]; [|done]; destruct Hr as [Hst [eid Hinv]]; split; [done|];
    eexists; split; [exact Hinv|]; rewrite request_numbers_app; apply app_nil_r.
  2: unfold prepare_sign_message_success in Hr; methods Hr;
    destruct (cell_boc_try_from _); cbn [map_err] in Hr; [|by injection Hr as <- <-].
  all: apply (response_staged labels) in Hr; [|done]; destruct r as [post|]; [|done];
    destruct Hr as [Hst Hinv]; split; [done|]; by exists labels.
Qed.

Lemma restart_inv labels s text config s' :
  session_inv labels s -> session_written s -> session_persisted s = Ok text ->
  ton_connect_session_restore text config = Ok s' -> s' = restarted config s /\ session_inv labels s'.
Proof.
  intros Hs Hw Hp Hr.
  assert (storable_cursor (tss_client s)) as Hcur.
  { unfold session_persisted in Hp. apply rbind_ok in Hp as (client & Hc%map_err_ok & _).
    unfold client_persisted in Hc. apply rbind_ok in Hc as (session & Hn%map_err_ok & _).
    unfold http_session_new in Hn. apply rbind_ok in Hn as ([] & Hv & _). exact Hv. }
  destruct (session_restored labels s Hs Hw Hcur) as (text' & Ht & Hrest). rewrite Hp in Ht. injection Ht as <-.
  assert (valid_limits config) as Hlim.
  { unfold ton_connect_session_restore in Hr. apply rbind_ok in Hr as ([[[? ?] ?] ?] & _ & Hr).
    apply rbind_ok in Hr as (size & Hsize & Hr). apply rbind_ok in Hr as (ttl & Httl & _).
    unfold nonzero_usize in Hsize. apply if_err_ok in Hsize as [Hmax Hsize]. apply if_err_ok in Hsize as [Hpos _].
    unfold nonzero_ttl in Httl. apply if_err_ok in Httl as [Ht _]. bool_to_prop. unfold valid_limits. lia. }
  rewrite (Hrest config Hlim) in Hr. injection Hr as <-. split; [done|].
  destruct Hs as [[] Hn Ha Hk Hpend]. constructor; try done.
Qed.

Record classic_inv (labels : list classic_label) (s : TonConnectSessionState) : Prop := {
  ki_session : exists accepted, session_inv accepted s /\
    Forall (fun id => exists number, rpc_from_str id = Ok number /\
                        rpc_number number ∈ request_numbers accepted) (received labels);
  ki_pending : forall id, id ∈ pending_ids s <-> id ∈ received labels /\ id ∉ answered labels;
  ki_post : tss_pending_post s = outstanding labels;
  ki_orderly : orderly labels;
}.

Lemma received_app a b : received (a ++ b) = received a ++ received b.
Proof. apply flat_map_app. Qed.

Lemma answered_app a b : answered (a ++ b) = answered a ++ answered b.
Proof. apply flat_map_app. Qed.

Lemma orderly_snoc labels label : orderly labels -> allowed labels label -> orderly (labels ++ [label]).
Proof.
  intros Ho Ha before x after E. destruct after as [|y after _] using rev_ind.
  - apply app_inj_tail in E as [<- <-]. done.
  - rewrite app_comm_cons, app_assoc in E. apply app_inj_tail in E as [E _]. by apply (Ho before x after).
Qed.

(** A step that leaves the requests alone, up to the one it answers. *)
Lemma quiet_step labels label s s' :
  classic_inv labels s -> received [label] = [] -> allowed labels label ->
  (forall accepted, session_inv accepted s ->
     exists accepted', session_inv accepted' s' /\ request_numbers accepted' = request_numbers accepted) ->
  (forall id, id ∈ pending_ids s' <-> id ∈ pending_ids s /\ id ∉ answered [label]) ->
  tss_pending_post s' = outstanding (labels ++ [label]) -> classic_inv (labels ++ [label]) s'.
Proof.
  intros [(accepted & Hs & Hr) Hp _ Ho] Er Hall Hinv Hreq Hpost.
  destruct (Hinv accepted Hs) as (accepted' & Hs' & Hn). constructor.
  - exists accepted'. split; [done|]. by rewrite received_app, Er, app_nil_r, Hn.
  - intros id. rewrite Hreq, Hp, received_app, answered_app, Er, app_nil_r, elem_of_app. tauto.
  - done.
  - by apply orderly_snoc.
Qed.

Lemma outstanding_snoc labels label :
  outstanding (labels ++ [label]) =
    match label with
    | Posted _ post => Some post
    | Delivered => None
    | Received _ | Silent => outstanding labels
    end.
Proof. unfold outstanding. by rewrite fold_left_app. Qed.

Lemma silent_step labels s s' :
  classic_inv labels s ->
  (forall accepted, session_inv accepted s -> session_inv accepted s') ->
  tss_pending_requests s' = tss_pending_requests s -> tss_pending_post s' = tss_pending_post s ->
  classic_inv (labels ++ [Silent]) s'.
Proof.
  intros Hk Hinv Hreq Hpost. apply (quiet_step labels Silent s s' Hk); [done|done| | |].
  - intros accepted Hs. exists accepted. split; [by apply Hinv|done].
  - intros id. unfold pending_ids. rewrite Hreq. split; [|tauto]. intros Hin. split; [done|apply not_elem_of_nil].
  - rewrite outstanding_snoc, Hpost. apply (ki_post _ _ Hk).
Qed.

Lemma post_step labels m answer s s' post :
  classic_inv labels s -> posting m answer -> m s = (s', Ok post) ->
  classic_inv (labels ++ [Posted answer post]) s'.
Proof.
  intros Hk Hm Hr. destruct (ki_session _ _ Hk) as (accepted & Hs & _).
  destruct (posting_staged accepted m answer s s' (Ok post) Hs Hm Hr) as [Hst _].
  apply (quiet_step labels _ s s' Hk); [done| | | |].
  - split; [by rewrite <- (ki_post _ _ Hk), (st_free _ _ _ _ Hst)|]. intros id ->.
    apply (ki_pending _ _ Hk), (st_pending _ _ _ _ Hst id eq_refl).
  - intros accepted0 Hs0. by destruct (posting_staged accepted0 m answer s s' (Ok post) Hs0 Hm Hr) as [_ Hinv].
  - intros id. unfold pending_ids. rewrite (st_requests _ _ _ _ Hst). destruct answer as [key|]; cbn.
    + rewrite map_remove_keys, list_elem_of_singleton. done.
    + split; [|tauto]. intros Hin. split; [done|apply not_elem_of_nil].
  - rewrite outstanding_snoc. apply (st_post _ _ _ _ Hst).
Qed.

Lemma answered_received labels id : orderly labels -> id ∈ answered labels -> id ∈ received labels.
Proof.
  intros Ho Hin. unfold answered in Hin. apply list_elem_of_In, in_flat_map in Hin as (label & Hl & Hin).
  destruct label as [|[key|] post| |]; try done. apply list_elem_of_In, list_elem_of_singleton in Hin as ->.
  apply list_elem_of_In, list_elem_of_split in Hl as (before & after & ->).
  destruct (Ho before (Posted (Some key) post) after eq_refl) as [_ Hkey].
  destruct (Hkey key eq_refl) as [Hrec _]. rewrite received_app, elem_of_app. by left.
Qed.

Lemma new_ids_spec s s' id : id ∈ new_ids s s' <-> id ∈ pending_ids s' /\ id ∉ pending_ids s.
Proof.
  unfold new_ids. rewrite list_elem_of_In, filter_In, <- list_elem_of_In, negb_true_iff, bool_decide_eq_false.
  done.
Qed.

Lemma ingest_step labels chunk now s s' r :
  classic_inv labels s -> session_ingest_sse_chunk chunk now s = (s', r) ->
  classic_inv (labels ++ [Received (new_ids s s')]) s'.
Proof.
  intros [(accepted & Hs & Hrec) Hp Hpost Ho] Hr.
  destruct (ingest_inv accepted chunk now s s' r Hs Hr) as (new & kept & lost & Hs' & Hl & _ & Hpp & Hperm & Hd & _).
  assert (forall id, id ∈ pending_ids s' <-> id ∈ map incoming_id kept \/ id ∈ pending_ids s) as Hids.
  { intros id. unfold pending_ids. rewrite Hperm, map_app, elem_of_app, map_map. done. }
  apply labelled_numbered, Forall2_app_inv_l in Hl as (ns1 & ns2 & Hkept & _ & Hns).
  pose proof (ri_sorted _ _ (session_run_inv _ _ (cv_run _ _ (sv_client _ _ Hs')))) as Hsort.
  rewrite request_numbers_app in Hsort.
  assert (forall id, id ∈ map incoming_id kept -> exists number, rpc_from_str id = Ok number /\
            rpc_number number ∈ request_numbers new) as Hnew.
  { rewrite Hns. clear -Hkept. intros id (i & -> & Hin)%list_elem_of_fmap.
    induction Hkept as [|j n kept ns (number & Hid & Hn) _ IH]; [by apply not_elem_of_nil in Hin|].
    apply elem_of_cons in Hin as [->|Hin].
    - exists number. split; [done|]. rewrite Hn. left.
    - destruct (IH Hin) as (number' & Hid' & Hn'). exists number'. split; [done|]. by right. }
  assert (forall id, id ∈ new_ids s s' -> id ∉ received labels) as Hfresh.
  { intros id [Hin Hout]%new_ids_spec Hbad. rewrite Forall_forall in Hrec.
    destruct (Hrec id Hbad) as (number & Hid & Hn). apply Hids in Hin as [Hin|]; [|done].
    destruct (Hnew id Hin) as (number' & Hid' & Hn'). rewrite Hid in Hid'. injection Hid' as <-.
    apply list_elem_of_split in Hn' as (l1 & l2 & E). rewrite E, app_assoc in Hsort.
    apply sorted_middle in Hsort. apply Hsort. rewrite elem_of_app. by left. }
  constructor.
  - exists (accepted ++ new). split; [done|]. rewrite received_app, request_numbers_app. apply Forall_app. split.
    + apply (Forall_impl _ _ _ Hrec). intros id (number & Hid & Hn). exists number.
      rewrite elem_of_app. split; [done|by left].
    + apply Forall_forall. intros id Hin. cbn in Hin. rewrite app_nil_r in Hin.
      apply new_ids_spec in Hin as [Hin Hout]. apply Hids in Hin as [Hin|]; [|done].
      destruct (Hnew id Hin) as (number & Hid & Hn). exists number. rewrite elem_of_app. split; [done|by right].
  - intros id. rewrite received_app, answered_app, !elem_of_app. cbn. rewrite app_nil_r.
    assert (id ∉ []) as Hnil by apply not_elem_of_nil.
    specialize (Hids id). specialize (Hp id). pose proof (new_ids_spec s s' id) as Hspec.
    specialize (Hfresh id). pose proof (answered_received labels id Ho) as Hsub. 
    destruct (decide (id ∈ pending_ids s)), (decide (id ∈ answered labels)); tauto.
  - by rewrite outstanding_snoc, Hpp.
  - apply orderly_snoc; [done|]. split; [|done]. unfold new_ids.
    apply NoDup_ListNoDup, List.NoDup_filter, NoDup_ListNoDup, sorted_distinct, (sv_sorted _ _ Hs').
Qed.

Lemma begin_subscription_inv labels s s' r :
  session_inv labels s -> session_begin_events_subscription s = (s', r) ->
  session_inv labels s' /\ tss_pending_requests s' = tss_pending_requests s /\
  tss_pending_post s' = tss_pending_post s.
Proof.
  intros Hs. unfold session_begin_events_subscription.
  destruct (tss_pending_post s) eqn:Ep; intros [= <- <-]; [done|]. split; [|done].
  destruct Hs as [Hc Hn Ha Hk Hp]. constructor; try done. by apply decoder_inv.
Qed.

Lemma classic_step_inv labels s label s' :
  classic_inv labels s -> classic_step s label s' -> classic_inv (labels ++ [label]) s'.
Proof.
  intros Hk Hstep. destruct (ki_session _ _ Hk) as (accepted & Hs & _).
  destruct Hstep as [chunk now s s' r Hr|m answer s s' post Hm Hr|m answer s s' e Hm Hr|s s' r Hr|s s' r Hr|s text config s' Hw Hp Hr].
  - by apply (ingest_step labels chunk now s s' r).
  - by apply (post_step labels m answer s s' post).
  - pose proof (posting_staged accepted m answer s s' (Err e) Hs Hm Hr) as E. cbn in E. subst s'.
    by apply (silent_step labels s).
  - destruct (begin_subscription_inv accepted s s' r Hs Hr) as (_ & Hreq & Hpost).
    apply (silent_step labels s); [done| |done|done]. intros accepted0 Hs0.
    by destruct (begin_subscription_inv accepted0 s s' r Hs0 Hr).
  - injection Hr as <- <-. apply (quiet_step labels Delivered s _ Hk); [done|done| | |].
    + intros accepted0 []. exists accepted0. by split; [constructor|].
    + intros id. split; [|tauto]. intros Hin. split; [done|apply not_elem_of_nil].
    + by rewrite outstanding_snoc.
  - destruct (restart_inv accepted s text config s' Hs Hw Hp Hr) as [-> _].
    apply (silent_step labels s); [done| |done|done]. intros accepted0 Hs0.
    by destruct (restart_inv accepted0 s text config _ Hs0 Hw Hp Hr).
Qed.

Lemma classic_run_inv labels s : classic_run labels s -> classic_inv labels s.
Proof.
  induction 1 as [random link config s Hr Hs|labels s label s' _ IH Hstep].
  - destruct (start_inv random link config s Hr Hs) as (Hinv & Hp & Hpost). constructor.
    + exists []. by split.
    + intros id. unfold pending_ids. rewrite Hp. cbn. split; [by intros ?%not_elem_of_nil|by intros [? _]].
    + done.
    + intros before label after E. by destruct before.
  - by apply (classic_step_inv labels s).
Qed.

(** ** Claims *)

(** C6: every request over the bridge is answered at most once, and no answer is lost.
    Along every run of a session, restarts included, a request identifier is received at
    most once, an answer is posted only for a request that was received and not answered
    before, the requests that are pending are exactly those still to be answered, a new
    post is made only when the one before was delivered, and the post that awaits delivery
    survives whatever happens until it is. *)
Theorem classic_requests_answered_once labels s :
  classic_run labels s ->
  orderly labels /\
  (forall id, id ∈ map fst (tss_pending_requests s) <-> id ∈ received labels /\ id ∉ answered labels) /\
  tss_pending_post s = outstanding labels.
Proof. by intros [_ Hp Hpost Ho]%classic_run_inv. Qed.

(** C7: a session survives a restart of its host.  What it stores is read back, when
    serde_json reads what it wrote, as the same session with a new event stream and the
    limits of the configuration: keys, peer, pending connect, account, network, pending
    requests, the post that awaits delivery and the cursor; with the same limits, reading
    events goes on exactly as if there had been no restart.  Storing fails exactly when
    the cursor that the bridge sent holds a character that cannot be stored. *)
Theorem classic_session_survives_restart labels s config :
  classic_run labels s -> session_written s -> valid_limits config ->
  match validate_event_id (tcc_last_bridge_event_id (tss_client s)) with
  | Ok _ => exists text, session_persisted s = Ok text /\
      ton_connect_session_restore text config = Ok (restarted config s)
  | Err e => session_persisted s = Err (session_error (Client_HttpSession e))
  end /\
  (tcc_max_event_bytes (tss_client s) = tsc_max_event_bytes config ->
   tcc_message_ttl_seconds (tss_client s) = tsc_message_ttl_seconds config ->
   tss_pending_post s = None ->
   session_begin_events_subscription (restarted config s) = session_begin_events_subscription s).
Proof.
  intros [(accepted & Hs & _) _ _ _]%classic_run_inv Hw Hlim. split.
  - destruct (validate_event_id _) as [[]|e] eqn:Ev.
    + destruct (session_restored accepted s Hs Hw Ev) as (text & Hp & Hr). exists text. split; [done|]. by apply Hr.
    + unfold session_persisted, client_persisted, http_session_new. by rewrite Ev.
  - intros Em Et Ep. unfold session_begin_events_subscription, client_begin_events_subscription, restarted.
    destruct s as [client requests post network]. cbn in *. rewrite Ep. destruct client. cbn in *. by subst.
Qed.

(** *** What the dApp receives *)

(** A post is addressed to the dApp and opens under its key. *)
Lemma post_opens random c payload topic trace_id post app :
  client_prepare_post random c payload topic trace_id = Ok post ->
  matching (tcc_crypto c) -> matching app -> sc_client_id app = tcc_peer_client_id c ->
  (forall nonce, random = Some nonce -> length nonce = NONCE_LENGTH) ->
  pbp_url post = message_endpoint (tcc_bridge_url c) (sc_client_id (tcc_crypto c)) (tcc_peer_client_id c)
                   (tcc_message_ttl_seconds c) topic trace_id /\
  exists plaintext encrypted,
    value_to_vec payload = Ok plaintext /\ pbp_body post = standard_encode encrypted /\
    session_decrypt app (sc_client_id (tcc_crypto c)) encrypted = Ok plaintext.
Proof.
  intros Hp%map_err_ok Hm Ha Hpeer Hn. unfold bridge_prepare_post in Hp.
  apply rbind_ok in Hp as (plaintext & Ht%map_err_ok & Hp). apply rbind_ok in Hp as (encrypted & He%map_err_ok & Hp).
  apply rbind_ok in Hp as (body & Hb%map_err_ok & [= <-]). split; [done|]. exists plaintext, encrypted.
  split; [done|]. split.
  - unfold base64_value_try_from, validated_string in Hb. destruct (valid_base64 _); [|done]. by injection Hb as <-.
  - unfold session_encrypt in He. apply rbind_ok in He as (nonce & Hr%ok_or_ok & He). rewrite <- Hpeer in He.
    by destruct (sealed_message_opens _ _ _ _ _ Hm Ha (Hn nonce Hr) He).
Qed.

(** The answer to a request is the response the dApp reads, if serde_json reads it, and it
    is a response that the request allows. *)
Theorem classic_answers_reach_dapp labels random id response s s' post app :
  classic_run labels s -> session_prepare_response random id response s = (s', Ok post) ->
  matching app -> sc_client_id app = tcc_peer_client_id (tss_client s) ->
  (forall nonce, random = Some nonce -> length nonce = NONCE_LENGTH) ->
  exists incoming plaintext encrypted,
    (id, incoming) ∈ tss_pending_requests s /\ response_id response = id /\
    (forall known, app_request_decode (ir_request incoming) = Ok known ->
       exists answer, validate_for response known = Ok answer) /\
    value_to_vec (wallet_response_to_value response) = Ok plaintext /\
    tpp_body post = standard_encode encrypted /\
    session_decrypt app (sc_client_id (tcc_crypto (tss_client s))) encrypted = Ok plaintext /\
    (valid_response response -> document_from_slice plaintext = Ok (wallet_response_to_value response) ->
     decode_slice decode_WalletResponse plaintext = Ok response).
Proof.
  intros [(accepted & Hs & _) _ _ _]%classic_run_inv Hr Ha Hpeer Hn.
  unfold session_prepare_response, ensure_no_pending_post in Hr. methods Hr.
  destruct (tss_pending_post s); [done|]. destruct (assoc_get id _) as [incoming|] eqn:Eg; cbn [ok_or] in Hr; [|done].
  destruct (client_prepare_response _ _ _ _) as [prepared|] eqn:Ep; cbn [map_err] in Hr; [|done].
  injection Hr as _ <-. apply assoc_get_In in Eg. pose proof (sv_pending _ _ Hs) as Hpend.
  rewrite Forall_forall in Hpend. pose proof (pe_key _ _ (Hpend _ Eg)) as Hid. cbn [fst snd] in Hid.
  unfold client_prepare_response in Ep. apply if_err_ok in Ep as [Hresp Ep].
  apply negb_false_iff, bool_decide_eq_true in Hresp. apply rbind_ok in Ep as ([] & Hval & Ep).
  destruct (post_opens _ _ _ _ _ _ _ Ep (cv_matching _ _ (sv_client _ _ Hs)) Ha Hpeer Hn)
    as (_ & plaintext & encrypted & Ht & Hb & Ho).
  exists incoming, plaintext, encrypted. split; [done|]. split; [congruence|]. split.
  - intros known Hk. unfold incoming_decode in Hval. rewrite Hk in Hval.
    destruct (validate_for response known) as [answer|]; [by eexists|done].
  - split_and!; try done. intros Hvr Hd. unfold decode_slice. rewrite Hd. cbn [rbind]. by rewrite wire_decode.
Qed.

(** The bytes and numbers of an approval, as the boundary types hold them. *)
Definition typed_approval (account : TonConnectAccountInfo) (proof : option TonConnectProofReply) : Prop :=
  u8s (tci_public_key account) /\
  (forall p, proof = Some p -> u8s (tpr_signature p) /\ (tpr_timestamp p <= u64_max)%N).

Lemma account_reply_valid account reply proof :
  typed_approval account proof -> session_account_reply account = Ok reply -> valid_account_reply reply.1.
Proof.
  intros [Hu _] Hr. destruct (account_reply_typed _ _ Hr) as (Ha & Hn & En). revert Hr.
  unfold session_account_reply. intros (address & _ & Hr)%rbind_ok.
  apply rbind_ok in Hr as (network & _ & Hr). apply rbind_ok in Hr as (state & Hst%map_err_ok & Hr).
  apply rbind_ok in Hr as (key & Hk & [= <-]). cbn [fst snd] in *. rewrite <- En in Hn.
  split; [done|]. split; [done|]. split; [by eexists|]. unfold sized in Hk.
  destruct (Nat.eqb_spec (length (tci_public_key account)) 32); [|done]. by injection Hk as <-.
Qed.

Lemma item_replies_valid account proof reply items replies :
  typed_approval account proof -> valid_account_reply reply ->
  try_map (item_reply reply proof) items = Ok replies -> Forall valid_reply replies.
Proof.
  intros [_ Hp] Hv. rewrite try_map_ok. induction 1 as [|item r items replies Hr _ IH]; constructor; [|done].
  destruct item as [network|payload|name fields]; cbn [item_reply] in Hr; [by injection Hr as <-| |by injection Hr as <-].
  apply rbind_ok in Hr as (p & Hpr%ok_or_ok & Hr). apply bind_Some in Hpr as (p' & -> & E).
  destruct (bool_decide _); [|done]. injection E as ->. destruct (Hp p eq_refl) as [Hu Ht].
  apply rbind_ok in Hr as (signed & Hs & [= <-]). unfold session_proof_reply, sized in Hs.
  destruct (Nat.eqb_spec (length (tpr_signature p)) 64); [|done]. cbn [rbind] in Hs.
  apply rbind_ok in Hs as (domain & Hd%map_err_ok & [= <-]). cbn [valid_reply]. split; [done|]. split; [|done].
  cbn [tp_domain]. unfold valid_domain. revert Hd. unfold ton_proof_domain_new.
  intros (n & Hl & [= <-])%rbind_ok. cbn [tpd_value]. by rewrite Hl.
Qed.

Lemma classic_device_valid device info :
  classic_device device = Ok info ->
  valid_device info /\ existsb is_embedded (di_features info) = false.
Proof.
  unfold classic_device. cbn [message_feature_new]. intros (send & Hsend & Hd)%rbind_ok.
  apply rbind_ok in Hd as (sign & Hsign & Hd%map_err_ok).
  assert (send = mkMessageFeature TON_CONNECT_MAX_MESSAGES (Some false) None) as -> by (by injection Hsend as <-).
  assert (sign = mkMessageFeature TON_CONNECT_MAX_MESSAGES (Some false) None) as -> by (by injection Hsign as <-).
  unfold device_info_new in Hd. apply rbind_ok in Hd as ([] & Hval & [= <-]). split; [|done].
  split; [done|]. split; [|done]. repeat (apply Forall_cons; split; [done|]). constructor.
Qed.

(** A connect event is the first of its session. *)
Lemma first_event accepted c request transition :
  client_inv accepted c -> tcc_connect_request c = Some request ->
  prepare_event (tcc_reducer c) Kind_Connect = Ok transition ->
  pwe_id transition = 0%N /\ wss_phase (pwe_next_state transition) = Connected.
Proof.
  intros Hc Er Ep.
  assert (wss_phase (tcc_reducer c) = PendingConnect) as Epend by (apply (cv_connect _ _ Hc); by rewrite Er).
  pose proof (session_run_inv _ _ (cv_run _ _ Hc)) as [Hlife _ _ Hev _].
  rewrite Epend in Hlife. cbn in Hlife. subst accepted. cbn in Hev. unfold prepare_event in Ep.
  rewrite Epend, Hev in Ep. by injection Ep as <-.
Qed.

(** A device without embedded requests cannot even refuse one. *)
Lemma refusal_not_accepted id payload request embedded :
  existsb is_embedded (di_features (cep_device payload)) = false ->
  validate_for_connect (Event_Connect id payload ((fun _ => embedded_refusal) <$> embedded)) request
    embedded = Ok tt -> embedded = None.
Proof.
  intros Hf Hval. destruct embedded as [embedded|]; [|done]. exfalso.
  apply connect_event_accepted_exactly in Hval as (_ & _ & _ & _ & He). cbn in He.
  destruct He as [[He _]|[_ He]]; [|done]. apply is_embedded_spec in He. by rewrite He in Hf.
Qed.

Lemma connected_account id payload response address account :
  connected_address (Event_Connect id payload response) = Some address ->
  omap account_reply (cep_items payload) = [account] -> address = tar_address account.
Proof.
  cbn [connected_address]. induction (cep_items payload) as [|[a| |] items IH]; [done| |by apply IH..].
  cbn. intros [= <-] [= ->]. done.
Qed.

(** C8: an approved connect is what the dApp asked for.  When approval succeeds, the link
    carried no embedded request (with one, approval never succeeds), the event answers
    every requested item, the session is connected to the account it reports, and the dApp
    opens the post under its own key and reads, if serde_json reads it, this event as the
    first of the session.  A refused approval changes nothing. *)
Theorem classic_connect_reaches_dapp labels random account proof device s s' answer app :
  classic_run labels s -> session_approve_connect random account proof device s = (s', answer) ->
  matching app -> sc_client_id app = tcc_peer_client_id (tss_client s) ->
  (forall nonce, random = Some nonce -> length nonce = NONCE_LENGTH) -> typed_approval account proof ->
  match answer with
  | Err _ => s' = s
  | Ok post => exists request reply payload plaintext encrypted,
      let event := Event_Connect 0 payload None : WalletEvent in
      tcc_connect_request (tss_client s) = Some request /\ tcc_embedded_request (tss_client s) = None /\
      session_account_reply account = Ok reply /\ connect_answers payload None request None /\
      omap account_reply (cep_items payload) = [reply.1] /\
      session_phase s' = Phase_Connected /\
      tcc_connected_address (tss_client s') = Some (tar_address reply.1) /\
      tss_connected_network s' = Some reply.2 /\ tss_pending_post s' = Some post /\
      value_to_vec (connect_event_to_value event) = Ok plaintext /\
      tpp_body post = standard_encode encrypted /\
      session_decrypt app (sc_client_id (tcc_crypto (tss_client s))) encrypted = Ok plaintext /\
      (document_from_slice plaintext = Ok (connect_event_to_value event) ->
       decode_slice decode_ConnectEvent plaintext = Ok event)
  end.
Proof.
  intros [(accepted & Hs & _) _ _ _]%classic_run_inv Hr Ha Hpeer Hn Ht.
  pose proof (approve_staged accepted _ _ _ _ _ _ _ Hs Hr) as Hst. destruct answer as [post|]; [|done].
  clear Hst. unfold session_approve_connect, ensure_no_pending_post in Hr. methods Hr.
  destruct (tss_pending_post s); [done|].
  destruct (tcc_connect_request (tss_client s)) as [request|] eqn:Ereq; cbn [ok_or] in Hr; [|done].
  destruct (session_account_reply account) as [reply|] eqn:Er; [|done].
  destruct (try_map _ _) as [items|] eqn:Ei; [|done]. destruct (classic_device device) as [info|] eqn:Ed; [|done].
  unfold on_client in Hr. destruct (client_approve_connect _ _ _ _) as [client [prepared|]] eqn:Ec;
    cbn [map_err] in Hr; [|done].
  injection Hr as <- <-. set (payload := mkConnectEventPayload items info) in *.
  assert (Forall (fun a => well_typed (tar_address a)) (omap account_reply items)) as Hall.
  { destruct (account_reply_typed _ _ Er) as (Hw & _ & _).
    apply (Forall_impl _ _ _ (item_replies_account _ _ _ _ Ei)). by intros a ->. }
  destruct (approve_ok accepted _ payload _ _ _ _ (sv_client _ _ Hs) Hall Ec)
    as (request' & transition & address & Ereq' & Ep & Hval & Haddr & Hpost & -> & Hinv).
  rewrite Ereq in Ereq'. injection Ereq' as <-.
  destruct (classic_device_valid _ _ Ed) as [Hdev Hemb].
  pose proof (refusal_not_accepted _ payload _ _ Hemb Hval) as Enone.
  rewrite Enone in *. cbn [fmap option_fmap option_map] in *.
  pose proof (proj1 (connect_event_accepted_exactly _ _ _) Hval) as Hans. cbn in Hans.
  assert (omap account_reply items = [reply.1]) as Eone.
  { destruct Hans as (_ & _ & (network & a & _ & Hone & _) & _ & _). cbn [cep_items payload] in Hone.
    pose proof (item_replies_account _ _ _ _ Ei) as Hf. rewrite Hone in *. by apply Forall_cons in Hf as [-> _]. }
  destruct (first_event _ _ _ _ (sv_client _ _ Hs) Ereq Ep) as [E0 Eph].
  rewrite E0 in *.
  destruct (post_opens _ _ _ _ _ _ _ Hpost (cv_matching _ _ (sv_client _ _ Hs)) Ha Hpeer Hn)
    as (_ & plaintext & encrypted & Htext & Hb & Ho).
  exists request, reply, payload, plaintext, encrypted.
  rewrite (connected_account _ _ _ _ _ Haddr Eone) in *.
  split_and!; try done.
  - unfold session_phase. cbn. by rewrite Eph.
  - intros Hd. unfold decode_slice. rewrite Hd. cbn [rbind]. rewrite wire_decode; [done|]. split; [done|].
    split; [|done]. split; [|done]. apply (item_replies_valid account proof reply.1 (cr_items request)); [done| |done].
    by apply (account_reply_valid account reply proof).
Qed.
End Sessions.
