(* ===== verification/ConnectWitnesses.v ===== *)
(** * Concrete inputs of the TON Connect core, addresses and links

    Executable hex, CRC-16, CRC-32C and URL parameters, and each theorem with
    hypotheses applied to an input on which they hold. *)

From stdpp Require Import base numbers list option strings relations.
From S2P Require Import Prelude BoundaryTypes SendDomain Base64 ClientDomain Json.
From S2P Require Import ClientWitnesses CellBoc CellBocSpec ConnectSession ConnectValues.
From S2P Require Import ConnectBridge Addresses TransferLink.

(** ** Checksums *)

(** One byte through a reflected CRC register. *)
Definition crc_reflected_byte (polynomial register byte : N) : N :=
  Nat.iter 8
    (fun r => if N.odd r then N.lxor (N.shiftr r 1) polynomial else N.shiftr r 1)
    (N.lxor register byte).

Definition crc32c_of (data : bytes) : N :=
  N.lxor (fold_left (crc_reflected_byte 2197175160) data u32_max) u32_max.

#[export, refine] Instance RefCrc32c : Crc32c := { crc32c data := N.land (crc32c_of data) u32_max }.
Proof.
  intros data. change u32_max with (N.ones 32). rewrite N.land_ones.
  pose proof (N.mod_lt (crc32c_of data) (2 ^ 32)) as H. change (N.ones 32) with (2 ^ 32 - 1)%N. lia.
Defined.

(** CRC-16/XMODEM. *)
Definition crc16_byte (register byte : N) : N :=
  Nat.iter 8
    (fun r =>
       let shifted := N.land (N.shiftl r 1) 65535 in
       if N.testbit r 15 then N.lxor shifted 4129 else shifted)
    (N.lxor register (N.shiftl byte 8)).

#[export, refine] Instance RefCrc16 : Crc16 := {
  crc16 data := N.land (fold_left crc16_byte data 0%N) u16_max;
}.
Proof.
  intros data. set (r := fold_left crc16_byte data 0%N). change u16_max with (N.ones 16).
  rewrite N.land_ones. pose proof (N.mod_lt r (2 ^ 16)) as H.
  change (N.ones 16) with (2 ^ 16 - 1)%N. lia.
Defined.

(** ** Hex *)

Definition hex_lower (digit : N) : char := if (digit <? 10)%N then (48 + digit)%N else (87 + digit)%N.

Fixpoint hex_pairs (s : rstr) : option bytes :=
  match s with
  | [] => Some []
  | high :: low :: rest =>
      match hex_value high, hex_value low, hex_pairs rest with
      | Some high, Some low, Some data => Some ((high * 16 + low)%N :: data)
      | _, _, _ => None
      end
  | _ => None
  end.

Lemma hex_value_lower digit : (digit < 16)%N -> hex_value (hex_lower digit) = Some digit.
Proof.
  intros Hd. unfold hex_value, hex_lower. destruct (N.ltb_spec digit 10).
  - rewrite !(proj2 (N.leb_le _ _)) by lia. f_equal. lia.
  - destruct (N.leb_spec (87 + digit) 57); [lia|]. rewrite andb_false_r.
    rewrite !(proj2 (N.leb_le _ _)) by lia. simpl. f_equal. lia.
Qed.

Lemma hex_lower_value c n : is_lower_hex c = true -> hex_value c = Some n -> hex_lower n = c /\ (n < 16)%N.
Proof.
  unfold is_lower_hex, is_ascii_digit, hex_value, hex_lower. intros Hc Hv.
  repeat case_match; bool_to_prop; simplify_eq; lia.
Qed.

Lemma byte_halves b : (b < 256)%N -> (b / 16 < 16 /\ b mod 16 < 16 /\ b / 16 * 16 + b mod 16 = b)%N.
Proof.
  intros Hb. pose proof (N.mod_lt b 16). pose proof (N.div_mod b 16).
  assert (b / 16 < 16)%N by (apply N.Div0.div_lt_upper_bound; lia). lia.
Qed.

Definition hex_text (data : bytes) : rstr :=
  flat_map (fun b => [hex_lower (b / 16); hex_lower (b mod 16)]%N) data.

Lemma is_lower_hex_digit n : (n < 16)%N -> is_lower_hex (hex_lower n) = true.
Proof.
  intros Hn. unfold is_lower_hex, is_ascii_digit, hex_lower.
  rewrite orb_true_iff, !andb_true_iff, !N.leb_le. destruct (N.ltb_spec n 10); lia.
Qed.

Lemma hex_value_bound c n : hex_value c = Some n -> (n < 16)%N.
Proof. unfold hex_value. repeat case_match; bool_to_prop; intros [= <-]; lia. Qed.

#[export, refine] Instance RefHex : HexCrate := {
  hex_encode := hex_text;
  hex_decode := hex_pairs;
}.
Proof.
  - intros data. induction data as [|b data IH]; [done|]. simpl in *. lia.
  - induction 1 as [|b data Hb _ IH]; [done|].
    destruct (byte_halves b Hb) as (Hh & Hl & _). unfold hex_text. cbn [flat_map app forallb].
    rewrite !is_lower_hex_digit by done. exact IH.
  - induction 1 as [|b data Hb _ IH]; [done|].
    destruct (byte_halves b Hb) as (Hh & Hl & E). unfold hex_text. cbn [flat_map app hex_pairs].
    rewrite !hex_value_lower by done. fold (hex_text data). by rewrite IH, E.
  - fix IH 1. intros [|h [|l s]] data; cbn [forallb hex_pairs]; [by intros _ [= <-]|done|].
    intros Hs Hd. apply andb_true_iff in Hs as [Hh [Hl Hs]%andb_true_iff].
    destruct (hex_value h) as [x|] eqn:Ex; [|done]. destruct (hex_value l) as [y|] eqn:Ey; [|done].
    destruct (hex_pairs s) as [rest|] eqn:Er; [|done]. injection Hd as <-.
    apply (hex_lower_value h x Hh) in Ex as [Ex Hx]. apply (hex_lower_value l y Hl) in Ey as [Ey Hy].
    unfold hex_text. cbn [flat_map app].
    rewrite N.div_add_l, (N.div_small y), N.add_0_r, (N.add_comm (x * 16)), N.Div0.mod_add,
      N.mod_small, Ex, Ey by lia. do 2 f_equal. by apply IH.
  - fix IH 1. intros [|h [|l s]] data; cbn [hex_pairs]; [by intros [= <-]|done|].
    destruct (hex_value h) as [x|] eqn:Ex; [|done]. destruct (hex_value l) as [y|] eqn:Ey; [|done].
    destruct (hex_pairs s) as [rest|] eqn:Er; [|done]. intros [= <-].
    destruct (IH _ _ Er) as [Hl Hr]. split; [simpl; lia|]. constructor; [|done].
    apply hex_value_bound in Ex, Ey. lia.
Defined.

#[export, refine] Instance RefUrlSafe : UrlSafeBase64 := {
  url_safe_no_pad_encode := B64.encode 45 95 false;
}.
Proof.
  - intros data Hd. apply B64.decode_encode; [by vm_compute|done..].
  - intros data. by apply B64.encode_no_equals.
  - by intros [|x [|y [|z rest]]].
  - assert (forall n, is_url_safe (B64.digit 45 95 n) = true) as Hd.
    { intros n. unfold B64.digit, is_url_safe. rewrite !orb_true_iff, !andb_true_iff, !N.leb_le, !N.eqb_eq.
      repeat case_match; bool_to_prop; lia. }
    intros data. induction data as [|x|x y|x y z rest IH] using B64.list_ind3; simpl;
      rewrite ?Hd; done.
Defined.

(** ** Addresses, URLs and cells *)

#[export] Instance RefAddressParser : TonAddressParser := {
  ton_address_from_str text :=
    let raw :=
      if contains 58%N text then result_ok (raw_from_str text)
      else
        match canonical_user_friendly text with
        | Ok canonical => fa_raw <$> result_ok (friendly_try_from canonical)
        | Err _ => None
        end in
    (fun r => mkTonAddress (raa_workchain r) (raa_hash r)) <$> raw;
}.

(** URLs with a scheme, a host and no user, port or fragment. *)
#[export] Instance RefUrl : UrlCrate := {
  Url := rstr * rstr;
  url_parse text :=
    match split_once 58%N text with
    | Some (scheme, rest) =>
        match strip_prefix (lit "//") rest with
        | Some rest =>
            if contains 35%N rest then None
            else Some (map to_ascii_lowercase scheme, (split_before delimiter rest).1)
        | None => None
        end
    | None => None
    end;
  url_scheme := fst;
  url_has_host url := negb (is_empty url.2);
  url_host_str url := Some url.2;
  url_username _ := [];
  url_password _ := None;
  url_port _ := None;
  url_fragment _ := None;
}.

#[export] Instance RefTonCore : TonCoreBoc := { ton_core_accepts _ := true }.

(** ** Texts of the repository's tests *)

Definition empty_cell_text : rstr := lit "te6cckEBAQEAAgAAAEysuc0=".

Definition empty_cell_boc : bytes :=
  [181; 238; 156; 114; 65; 1; 1; 1; 0; 2; 0; 0; 0; 76; 172; 185; 205]%N.

Definition testnet_address : rstr := lit "0QA_6fh0aRAkD7n1MNfAUx8TvyCUw2iTQfzVM-0isMze2anN".

Definition zero_address : rstr :=
  lit "0:0000000000000000000000000000000000000000000000000000000000000000".

Definition zero_account : RawAccountAddress := mkRawAccountAddress 0 (repeat 0%N 32).

Definition text_link : rstr :=
  lit "TON://TRANSFER/" ++ zero_address
  ++ lit "?amount=1000000000&text=hello%20TON&exp=18446744073709551615".

Definition text_link_parsed : ParsedTonTransferLink :=
  mkParsedTonTransferLink (mkTonAddressString zero_address (mkTonAddress 0 (repeat 0%N 32)))
    Asset_Gram (Some (mkUnsignedDecimalString 1000000000)) (Payload_Text (lit "hello TON"))
    (Expiration_Exact u64_max).

(** The checksum of the empty cell, of a test-only address and the rejection of a
    corrupt checksum agree with the vectors of the repository. *)
Example test_vectors :
  boc_try_from empty_cell_text = Ok (mkBoc empty_cell_boc) /\
  is_ok (friendly_try_from testnet_address) = true /\
  friendly_try_from (lit "EQDk2VTvn04SUKJrW7rXahzdF8_Qi6utb0wj43InCu9vdjra")
    = Err InvalidFriendlyAddress /\
  parse_ton_transfer_link text_link = Ok text_link_parsed /\
  parse_ton_transfer_link (lit "ton://transfer/" ++ zero_address ++ lit "?amount=1&amount=1")
    = Err (DuplicateParameter (lit "amount")).
Proof. vm_compute. repeat split. Qed.

(** ** Witnesses *)

Lemma percent_escapes_roundtrip_witness :
  Forall scalar [36825%N; 32%N; 37%N] /\
  percent_decode_once (percent_encode (fun _ => true) [36825%N; 32%N; 37%N])
    = Ok [36825%N; 32%N; 37%N].
Proof.
  assert (H : Forall scalar [36825%N; 32%N; 37%N]) by (repeat constructor; unfold scalar; lia).
  split; [exact H|]. exact (percent_escapes_roundtrip (fun _ => true) _ H).
Defined.

Lemma empty_cell_octets : u8s empty_cell_boc.
Proof. repeat constructor. Qed.

Lemma validated_boc_is_well_formed_witness :
  exists b, wf_bag b /\ empty_cell_boc = serialize_bag b.
Proof.
  apply (validated_boc_is_well_formed empty_cell_boc empty_cell_octets).
  - vm_compute. discriminate.
  - vm_compute. reflexivity.
Defined.

Lemma validated_boc_bounds_witness :
  exists b, empty_cell_boc = serialize_bag b /\ (2 * len (bag_cells b) <= len empty_cell_boc)%N.
Proof.
  destruct (validated_boc_bounds empty_cell_boc empty_cell_octets) as (b & Hb & Hl & _).
  - vm_compute. discriminate.
  - vm_compute. reflexivity.
  - exists b. exact (conj Hb Hl).
Defined.

Lemma request_ids_compare_as_numbers_witness :
  rpc_cmp (mkRpcRequestId (lit "7")) (mkRpcRequestId (lit "10")) = Lt.
Proof.
  exact (proj1 (request_ids_compare_as_numbers (lit "007") (lit "10") (mkRpcRequestId (lit "7"))
    (mkRpcRequestId (lit "10")) eq_refl eq_refl)).
Defined.

Definition send_request (id : rstr) : AppRequest :=
  mkAppRequest (lit "sendTransaction") [lit "{}"] id.

Definition session_at (phase : WalletSessionPhase) (event : option N) (request : option rstr)
  : WalletSessionState :=
  mkWalletSessionState phase (mkRpcRequestId <$> request) event.

Definition open_labels : list Label :=
  [Emitted Kind_Connect 0; Accepted (send_request (lit "07")) 7 false].

Definition closed_labels : list Label := open_labels ++ [Emitted Kind_Disconnect 1].

Lemma open_session : session_run open_labels (session_at Connected (Some 0%N) (Some (lit "7"))).
Proof.
  apply (run_step [Emitted Kind_Connect 0] (session_at Connected (Some 0%N) None)).
  - apply (run_step [] pending_connect); [constructor|].
    exact (step_event pending_connect Kind_Connect
             (mkPreparedWalletEvent 0 (session_at Connected (Some 0%N) None)) eq_refl).
  - exact (step_request (session_at Connected (Some 0%N) None) (send_request (lit "07"))
             (mkPreparedAppRequest (mkRpcRequestId (lit "7")) false
                (session_at Connected (Some 0%N) (Some (lit "7")))) eq_refl).
Qed.

Lemma closed_session :
  session_run closed_labels (session_at Disconnected (Some 1%N) (Some (lit "7"))).
Proof.
  apply (run_step open_labels _ _ _ open_session).
  exact (step_event (session_at Connected (Some 0%N) (Some (lit "7"))) Kind_Disconnect
           (mkPreparedWalletEvent 1 (session_at Disconnected (Some 1%N) (Some (lit "7")))) eq_refl).
Qed.

Lemma session_runs_in_order_witness :
  lifecycle Disconnected closed_labels /\ request_numbers closed_labels = [7%N].
Proof. exact (conj (proj1 (session_runs_in_order _ _ closed_session)) eq_refl). Defined.

Lemma session_progress_witness :
  is_ok (prepare_request (session_at Connected (Some 0%N) (Some (lit "7")))
           (send_request (lit "8"))) = true.
Proof.
  destruct (session_progress _ _ open_session) as (_ & Hconnected & _).
  apply (proj2 (Hconnected eq_refl)); [discriminate|reflexivity|]. repeat constructor.
Defined.

Definition demo_events : list (ConnectEvent unit unit unit) :=
  [Event_Connect 0 tt None; Event_Disconnect 1].

Lemma dapp_accepts_wallet_events_witness :
  exists cursor,
    deliver cursor_default demo_events = Ok cursor.
Proof.
  destruct (dapp_accepts_wallet_events closed_labels
              (session_at Disconnected (Some 1%N) (Some (lit "7")))
              demo_events closed_session)
    as (cursor & Hc & _); [repeat constructor|]. exists cursor. exact Hc.
Defined.

(** ** The bridge stream *)

Definition envelope : Value :=
  Object [(lit "from", Str (concat (repeat (lit "ab") 32))); (lit "message", Str (lit "AQID"))].

(** A reader of exactly this envelope. *)
#[export] Instance EnvelopeJson : SerdeJson := {
  value_to_vec v := Ok (utf8 (json_text v));
  document_from_slice body :=
    if bool_decide (body = utf8 (json_text envelope)) then Ok envelope
    else Err (lit "unknown document");
  value_to_string v := json_text v;
  serde_error _ := lit "invalid type";
  serde_value_error _ := lit "invalid type";
}.

Definition stream_chunks : list bytes :=
  [utf8 (lit "id: 42" ++ [10%N] ++ lit "da"); utf8 (lit "ta: " ++ json_text envelope ++ [10; 13; 10]%N);
   utf8 (lit ": keep-alive")].

Definition pushed (chunks : list bytes) : BridgeSseDecoder :=
  fold_left (fun d chunk => (push chunk d).1) chunks (decoder_new 512).

Definition final_decoder : BridgeSseDecoder :=
  (decoder_new 512) <| sse_pending := utf8 (lit ": keep-alive") |>
    <| sse_last_event_id := Some (lit "42") |>.

Definition bridge_message : BridgeSseMessage :=
  mkBridgeSseMessage (Some (lit "42"))
    (mkBridgeMessage (mkClientId (repeat 171%N 32)) (lit "AQID") None []).

(** The envelope arrives although its event is cut into two chunks. *)
Lemma stream_accepted : accepts (decoder_new 512) stream_chunks final_decoder.
Proof.
  apply (accepts_chunk _ _ _ (pushed (take 1 stream_chunks)) []); [vm_compute; reflexivity|].
  apply (accepts_chunk _ _ _ (pushed (take 2 stream_chunks)) [bridge_message]);
    [vm_compute; reflexivity|].
  apply (accepts_chunk _ _ _ final_decoder []); [vm_compute; reflexivity|]. constructor.
Qed.

Lemma decoder_memory_bounded_witness :
  (retained final_decoder + len (sse_pending final_decoder) <= 512)%N.
Proof. exact (proj1 (decoder_memory_bounded 512 stream_chunks final_decoder eq_refl stream_accepted)). Defined.

(** ** Addresses and links *)

Lemma address_text_roundtrip_witness :
  raw_from_str (raw_to_string zero_account) = Ok zero_account /\
  exists f, friendly_try_from testnet_address = Ok f /\ fa_encoded f = testnet_address.
Proof.
  split.
  - apply (proj1 address_text_roundtrip). vm_compute. repeat split; try discriminate; repeat constructor.
  - destruct (friendly_try_from testnet_address) as [f|e] eqn:E; [|vm_compute in E; discriminate].
    exists f. split; [reflexivity|].
    exact (proj1 (proj2 (proj2 address_text_roundtrip) testnet_address f E)).
Defined.

Lemma transfer_link_sound_and_complete_witness : link_said text_link text_link_parsed.
Proof. apply (transfer_link_sound_and_complete text_link text_link_parsed). vm_compute. reflexivity. Defined.
