(* ===== verification/ConnectLinkWitnesses.v ===== *)
(** * Concrete connections

    A connect link with an embedded request, a signed proof and the state of a wallet,
    with reference URLs, cells and hashes, and the theorems with hypotheses applied to
    them. *)

From stdpp Require Import base numbers list option strings.
From S2P Require Import Prelude BoundaryTypes SendDomain Base64 ClientDomain Json.
From S2P Require Import ClientWitnesses CellBoc ConnectSession ConnectValues Addresses.
From S2P Require Import ConnectWitnesses ConnectRpc ConnectRpcSpec ProviderRequest TransferLink.
From S2P Require Import ConnectEmbedded ConnectSigning ConnectWalletState ConnectSigningSpec.
From S2P Require Import ConnectHandshake ConnectLink.

(** ** A request *)

Definition empty_cell : CellBoc := mkCellBoc empty_cell_text empty_cell_boc.

Definition testnet_friendly : FriendlyAddress :=
  default (mkFriendlyAddress [] zero_account false false) (result_ok (friendly_try_from testnet_address)).

Definition demo_items : list StructuredItem :=
  [Item_Ton testnet_friendly (lit "1000") (Some empty_cell) None
     (Some (mkExtraCurrencies [(7%N, lit "5"); (100%N, lit "6")]));
   Item_Jetton (Address_Raw zero_account) (Address_Friendly testnet_friendly) (lit "42") None
     (Some (lit "query")) None None (Some (lit "1")) None].

Definition demo_payload : TransactionPayload :=
  Payload_Structured
    (mkTransactionContext (Some 1893456000%N) (Some (lit "-239")) (Some (Address_Raw zero_account)))
    demo_items.

Definition demo_rpc_request : KnownAppRequest := Request_SendTransaction (lit "12") demo_payload.

Definition demo_document : Value := transaction_payload_to_value demo_payload.

(** A reader of exactly this document. *)
#[export] Instance RequestJson : SerdeJson := {
  value_to_vec v := Ok (utf8 (json_text v));
  document_from_slice body :=
    if bool_decide (body = utf8 (json_text demo_document)) then Ok demo_document
    else Err (lit "unknown document");
  value_to_string v := json_text v;
  serde_error _ := lit "invalid type";
  serde_value_error _ := lit "invalid type";
}.

Lemma empty_cell_valid : valid_cell empty_cell.
Proof. exists empty_cell_text. vm_compute. reflexivity. Qed.

Lemma testnet_friendly_read : friendly_try_from testnet_address = Ok testnet_friendly.
Proof. vm_compute. reflexivity. Qed.

Lemma zero_account_typed : well_typed zero_account.
Proof.
  split; [cbn; lia|]. split; [done|]. repeat constructor.
Qed.

Lemma demo_request_valid : valid_request demo_rpc_request.
Proof.
  cbn [valid_request demo_rpc_request demo_payload valid_payload]. split; [|split; [done|]].
  - split; [cbn; unfold u64_max; lia|]. split; [done|exact zero_account_typed].
  - constructor; [|constructor; [|constructor]].
    + split; [exists testnet_address; exact testnet_friendly_read|]. split; [done|].
      split; [exact empty_cell_valid|]. split; [done|]. split.
      * repeat constructor.
      * repeat constructor; cbn; unfold u32_max; lia.
    + split; [exact zero_account_typed|]. split; [|done].
      exists testnet_address. vm_compute. reflexivity.
Qed.

Lemma rpc_request_roundtrip_witness :
  valid_request demo_rpc_request /\
  app_request_decode (app_request_encode demo_rpc_request) = Ok demo_rpc_request.
Proof.
  split; [exact demo_request_valid|].
  apply (rpc_request_roundtrip demo_rpc_request demo_request_valid).
  intros v [= <-]. unfold reads_back. vm_compute. reflexivity.
Defined.

Lemma rpc_decoded_request_valid_witness :
  valid_request demo_rpc_request /\
  method_as_str (rpc_method demo_rpc_request) = lit "sendTransaction".
Proof.
  destruct (rpc_decoded_request_valid (app_request_encode demo_rpc_request) demo_rpc_request)
    as (Hv & _ & Hm); [vm_compute; reflexivity|]. exact (conj Hv Hm).
Defined.

(** ** A wallet *)

Definition demo_device : DeviceInfo :=
  mkDeviceInfo Platform_Iphone (lit "demo") (lit "1.0") 2
    [Feature_EmbeddedRequest; Feature_LegacySendTransaction;
     Feature_SendTransaction
       (mkMessageFeature 4 (Some true) (Some [ItemType_Ton; ItemType_Jetton]));
     Feature_SignData [DataType_Text]].

Lemma capability_check_exact_witness :
  supports_request demo_device demo_rpc_request /\
  ~ supports_embedded demo_device (Embedded_SignMessage demo_payload).
Proof.
  destruct (capability_check_exact demo_device eq_refl) as [Hr He]. split.
  - apply Hr. vm_compute. reflexivity.
  - intros Hs. apply He in Hs. vm_compute in Hs. discriminate Hs.
Defined.

(** ** A response *)

Lemma accepted_response_answers_witness :
  valid_cell empty_cell /\ cb_encoded empty_cell <> [].
Proof.
  destruct (accepted_response_answers (Response_Success (Result_String empty_cell_text) (lit "12"))
    demo_rpc_request (Known_SendTransaction empty_cell)) as (_ & _ & Hv & Hn & _);
    [vm_compute; reflexivity|]. exact (conj Hv Hn).
Defined.

(** ** URLs with a query *)

Definition well_formed_base (base : rstr) : bool :=
  negb (contains 35%N base)
  && match split_once 58%N base with
     | Some (_, rest) => bool_decide (is_Some (strip_prefix (lit "//") rest))
     | None => false
     end.

(** A base without query, and the text of the query; no fragments. *)
#[export] Instance QueryUrl : UrlCrate := {
  Url := rstr * option rstr;
  url_parse text :=
    match split_once 63%N text with
    | Some (base, query) =>
        if well_formed_base base && negb (contains 35%N query) then Some (base, Some query) else None
    | None => if well_formed_base text then Some (text, None) else None
    end;
  url_scheme url := (split_before (N.eqb 58) url.1).1;
  url_has_host _ := true;
  url_host_str _ := Some (lit "host");
  url_username _ := [];
  url_password _ := None;
  url_port _ := None;
  url_fragment _ := None;
}.

Lemma form_text_plain c pairs :
  ProviderRequest.delimiter c = true -> c <> 61%N -> c <> 38%N -> contains c (form_text pairs) = false.
Proof.
  intros Hc Hn Ha. destruct pairs as [|e rest]; [done|]. cbn [form_text].
  rewrite contains_app, (encode_pair_plain c e Hc Hn). cbn [orb].
  induction rest as [|e' rest IH]; [done|]. cbn [flat_map]. rewrite contains_app, IH, orb_false_r.
  change (contains c (38%N :: encode_pair e')) with ((c =? 38)%N || contains c (encode_pair e')).
  rewrite (encode_pair_plain c e' Hc Hn). by rewrite (proj2 (N.eqb_neq _ _) Ha).
Qed.

Lemma pairs_text pairs :
  Forall (fun pair => Forall scalar pair.1 /\ Forall scalar pair.2) pairs ->
  map (fun e : bytes * bytes => (default [] (from_utf8 e.1), default [] (from_utf8 e.2)))
    (map (fun e : rstr * rstr => (utf8 e.1, utf8 e.2)) pairs) = pairs.
Proof.
  induction 1 as [|[a b] pairs [Ha Hb] _ IH]; [done|]. cbn [map fst snd].
  by rewrite !from_utf8_utf8, IH.
Qed.

Definition joined (query : option rstr) (pairs : list (rstr * rstr)) : option rstr :=
  match pairs, query with
  | [], _ => query
  | _, None => Some (form_text pairs)
  | _, Some text => Some (text ++ 38%N :: form_text pairs)
  end.

#[export, refine] Instance RefUrlQuery : UrlQuery := {
  url_parse_error _ := lit "relative URL without a base";
  url_has_query url := bool_decide (is_Some url.2);
  url_query_pairs url :=
    match url.2 with
    | None => []
    | Some query =>
        map (fun e => (default [] (from_utf8 e.1), default [] (from_utf8 e.2)))
          (default [] (parse_form query))
    end;
  url_append_pairs url pairs := (url.1, joined url.2 pairs);
  url_as_str url := url.1 ++ match url.2 with Some query => 63%N :: query | None => [] end;
}.
Proof.
  - intros [base [query|]] pairs Hq _ Hs; [by apply bool_decide_eq_false in Hq; destruct Hq|].
    destruct pairs as [|pair pairs]; [done|]. cbn [snd joined].
    rewrite parse_form_text by done. by apply pairs_text.
  - intros [base query] pairs text. cbn [url_parse QueryUrl]. intros Hp.
    assert (well_formed_base base = true /\ contains 63%N base = false /\
            from_option (fun q => contains 35%N q = false) True query) as (Hb & Hc & Hq).
    { destruct (split_once 63%N text) as [[b q]|] eqn:E.
      - destruct (well_formed_base b && negb (contains 35%N q)) eqn:F; [|done].
        injection Hp as <- <-. apply andb_true_iff in F as [F G]. apply negb_true_iff in G.
        apply split_once_Some in E as [_ E]. done.
      - destruct (well_formed_base text) eqn:F; [|done]. injection Hp as <- <-.
        by apply split_once_None in E. }
    assert (from_option (fun q => contains 35%N q = false) True (joined query pairs)) as Hj.
    { destruct pairs, query; try done; cbn [joined from_option];
        [rewrite contains_app, Hq; change (contains 35%N (38%N :: ?s)) with (contains 35%N s)|];
        by apply form_text_plain. }
    clear Hp. cbn [fst snd]. destruct (joined query pairs) as [q|].
    + rewrite split_once_app by done. cbn [from_option] in Hj. by rewrite Hb, Hj.
    + rewrite app_nil_r, (proj2 (split_once_None _ _) Hc). by rewrite Hb.
Defined.

(** ** Hashes and cells *)

(** A checksum of 32 bytes in the place of SHA-256. *)
Definition mix (data : bytes) : bytes :=
  map (fun i => foldl (fun acc b => (acc * N.of_nat (2 * i + 3) + b + 1) mod 251)%N 7%N data) (seq 0 32).

#[export, refine] Instance RefSha256 : Sha256 := { sha256 := mix }.
Proof.
  - intros data. unfold mix. by rewrite length_map, length_seq.
  - intros data. unfold mix. apply Forall_fmap, Forall_true. intros i. cbn.
    destruct data as [|b data] using rev_ind; [done|]. rewrite foldl_snoc.
    etrans; [by apply N.mod_lt|done].
Defined.

#[export, refine] Instance RefCrc32Iso : Crc32Iso := { crc32_iso data := N.land (crc32c data) u32_max }.
Proof.
  intros data. change u32_max with (N.ones 32). rewrite N.land_ones. unfold u32_max.
  pose proof (N.mod_lt (crc32c data) (2 ^ 32) ltac:(done)). change (2 ^ 32)%N with 4294967296%N in *.
  change (N.ones 32) with 4294967295%N. lia.
Defined.

#[export] Instance RefHost : HostParser := {
  host_parse text := if is_empty text then None else Some (Host_Domain text);
}.

Inductive RefCell := mkRefCell (bits : list bool) (refs : list RefCell).

Definition refcell_bits (c : RefCell) : list bool := let 'mkRefCell bits _ := c in bits.
Definition refcell_refs (c : RefCell) : list RefCell := let 'mkRefCell _ refs := c in refs.

Definition v3r2_code_hash : bytes :=
  default [] (hex_decode (lit "84dafa449f98a6987789ba232358072bc0f76dc4524002a5d0918b9a75d2d599")).

(** The empty cell stands for the code of a wallet; other cells hash to a checksum. *)
Fixpoint refcell_hash (c : RefCell) : bytes :=
  match c with
  | mkRefCell [] [] => v3r2_code_hash
  | mkRefCell bits refs =>
      mix (map (fun b : bool => if b then 1%N else 0%N) bits ++ flat_map refcell_hash refs)
  end.

Definition demo_key : bytes := map N.of_nat (seq 0 32).

(** A state with code and data: sequence number and wallet id, then the key. *)
Definition demo_root : RefCell :=
  mkRefCell [false; false; true; true; false]
    [mkRefCell [] []; mkRefCell (bytes_bits (repeat 0%N 8 ++ demo_key)) []].

(** Its bag of cells: the header, the three cells in order. *)
Definition demo_state_boc : bytes :=
  [181; 238; 156; 114; 1; 1; 3; 1; 0; 49; 0]%N ++ [2; 1; 52; 1; 2]%N ++ [0; 0]%N
  ++ [0; 80]%N ++ repeat 0%N 8 ++ demo_key.

#[export] Instance StateBoc : TonCoreBoc := { ton_core_accepts data := bool_decide (data = demo_state_boc) }.

#[export, refine] Instance RefTonCells : TonCells := {
  Cell := RefCell;
  cell_ordinary _ := true;
  cell_bits := refcell_bits;
  cell_refs := refcell_refs;
  cell_hash c := Some (refcell_hash c);
  build_cell bits refs :=
    if (length bits <=? 1023)%nat && (length refs <=? 4)%nat then Some (mkRefCell bits refs) else None;
  msg_address_bits _ := Some [];
  ton_core_root data := if bool_decide (data = demo_state_boc) then Some demo_root else None;
}.
Proof.
  - intros data. cbn [ton_core_accepts StateBoc]. destruct (bool_decide (data = demo_state_boc)).
    + split; [|done]. intros _. by exists demo_root.
    + split; [done|]. by intros [c Hc].
  - intros bits refs c. destruct (_ && _); [|done]. by intros [= <-].
Defined.

Definition demo_wallet_state : WalletStateInit := mkWalletStateInit [] demo_state_boc.
Definition demo_wallet_address : RawAccountAddress := mkRawAccountAddress 0 (refcell_hash demo_root).

Lemma standard_wallet_binds_key_witness :
  verify_standard_wallet demo_wallet_state demo_wallet_address (mkEd25519PublicKey demo_key)
    = Ok (mkStandardWalletState V3R2 (mkEd25519PublicKey demo_key)) /\
  deployed_with demo_state_boc (raa_hash demo_wallet_address) V3R2 demo_key.
Proof.
  split; [vm_compute; reflexivity|].
  apply (standard_wallet_binds_key demo_wallet_state demo_wallet_address (mkEd25519PublicKey demo_key)
    (mkStandardWalletState V3R2 (mkEd25519PublicKey demo_key))).
  vm_compute. reflexivity.
Defined.

(** ** A proof *)

Lemma demo_signable : signable zero_account (lit "example.com") 1700000000.
Proof.
  split; [exact zero_account_typed|]. split; [|cbn; unfold u64_max; lia].
  apply ascii_scalar. by repeat constructor.
Qed.

Lemma signatures_bind_their_inputs_witness :
  exists h,
    ton_proof_signing_hash zero_account (lit "example.com") 1700000000 (lit "challenge") = Ok h /\
    (forall p, Forall scalar p ->
       ton_proof_signing_hash zero_account (lit "example.com") 1700000000 p = Ok h ->
       p = lit "challenge" \/
       collide (proof_hashed zero_account (lit "example.com") 1700000000 p)
         (proof_hashed zero_account (lit "example.com") 1700000000 (lit "challenge"))).
Proof.
  eexists. split; [vm_compute; reflexivity|]. intros p Hp Hh.
  destruct (proj1 signatures_bind_their_inputs zero_account (lit "example.com") 1700000000%N p
    zero_account (lit "example.com") 1700000000%N (lit "challenge") _ demo_signable demo_signable Hp
    ltac:(apply ascii_scalar; by repeat constructor) Hh ltac:(vm_compute; reflexivity))
    as [(_ & _ & _ & ->)|]; [by left|by right].
Defined.

(** ** A link *)

Definition link_request_value : ConnectRequest :=
  mkConnectRequest (lit "https://example.com/manifest.json")
    [Item_TonAddr (Some (lit "-239")); Item_TonProof (lit "challenge")].

Definition link_embedded_value : EmbeddedRequest :=
  Embedded_SendTransaction
    (Payload_Structured (mkTransactionContext (Some 1893456000%N) (Some (lit "-239")) None)
       [Item_Ton testnet_friendly (lit "1000") None None
          (Some (mkExtraCurrencies [(7%N, lit "5"); (100%N, lit "6")]))]).

Definition link_documents : list Value :=
  [connect_request_to_value link_request_value;
   wire_request_to_value (request_to_wire link_embedded_value)].

(** A reader of exactly these documents. *)
#[export] Instance LinkJson : SerdeJson := {
  value_to_vec v := Ok (utf8 (json_text v));
  document_from_slice body :=
    ok_or (lit "unknown document")
      (List.find (fun v => bool_decide (utf8 (json_text v) = body)) link_documents);
  value_to_string v := json_text v;
  serde_error _ := lit "invalid type";
  serde_value_error _ := lit "invalid type";
}.

Definition embedded_body : bytes := utf8 (json_text (wire_request_to_value (request_to_wire link_embedded_value))).

Lemma link_embedded_valid : valid_embedded link_embedded_value.
Proof.
  cbn [valid_embedded link_embedded_value valid_payload]. split; [|split; [done|]].
  - split; [cbn; unfold u64_max; lia|]. by split.
  - constructor; [|constructor]. split; [exists testnet_address; exact testnet_friendly_read|].
    split; [done|]. split; [done|]. split; [done|]. split.
    + repeat constructor.
    + repeat constructor; cbn; unfold u32_max; lia.
Qed.

Lemma link_embedded_writes :
  writes (wire_request_to_value (request_to_wire link_embedded_value)) embedded_body.
Proof.
  split; [reflexivity|]. split; [vm_compute; reflexivity|]. split; [vm_compute; discriminate|].
  unfold embedded_body. apply utf8_bytes.
Qed.

Lemma embedded_request_roundtrip_witness :
  exists parameter,
    encode_embedded_request_param link_embedded_value = Ok parameter /\
    decode_embedded_request_param parameter = Ok link_embedded_value.
Proof.
  exact (proj1 embedded_request_roundtrip link_embedded_value embedded_body link_embedded_valid
           link_embedded_writes).
Defined.

Definition demo_link : ConnectLink :=
  mkConnectLink (mkClientId demo_key) (Some link_request_value)
    (Return_Custom (lit "app://return?a=b&c")) (Some link_embedded_value)
    None [(lit "utm_source", lit "a b&c=d")].

Lemma ascii_text text : forallb (fun c => c <? 128)%N text = true -> Forall scalar text.
Proof.
  intros Ht. apply ascii_scalar, Forall_forall. intros c Hc.
  rewrite forallb_forall in Ht. by apply N.ltb_lt, Ht, list_elem_of_In.
Qed.

Lemma demo_link_valid : valid_link demo_link.
Proof.
  split; cbn [cl_client_id cl_request cl_return_strategy cl_embedded_request cl_trace_id
    cl_extensions demo_link].
  - split; [done|]. by repeat constructor.
  - intros request [= <-]. split; [|split; [vm_compute; reflexivity|apply ascii_text; reflexivity]].
    split; [reflexivity|]. split; [done|]. repeat constructor.
  - intros embedded [= <-]. split; [done|]. split; [exact link_embedded_valid|].
    exists embedded_body. exact link_embedded_writes.
  - intros value [= <-]. split; [reflexivity|]. split; [discriminate|]. split; [discriminate|].
    apply ascii_text. reflexivity.
  - done.
  - constructor; [|constructor]. apply (bool_decide_unpack _). vm_compute. exact I.
  - constructor; [|constructor]. split; apply ascii_text; reflexivity.
Qed.

Lemma connect_link_roundtrip_witness :
  valid_link demo_link /\
  exists url, link_to_url demo_link (lit "tc://connect") = Ok url /\ link_parse (url_as_str url) = Ok demo_link.
Proof.
  split; [exact demo_link_valid|].
  exact (connect_link_roundtrip demo_link (lit "tc://connect") (lit "tc://connect", None) demo_link_valid
           eq_refl eq_refl eq_refl).
Defined.

Lemma telegram_parameters_roundtrip_witness :
  decode_telegram_url_parameters
    (encode_telegram_url_parameters (lit "v=2&id=a-b_c.d&r=%7B%22x%22%7D&ret=back"))
  = lit "v=2&id=a-b_c.d&r=%7B%22x%22%7D&ret=back".
Proof.
  apply (proj1 telegram_parameters_roundtrip); vm_compute; reflexivity.
Defined.
