(* ===== verification/RefCells.v ===== *)
(** * Reference cells

    Cells as trees with their serialized form, for the concrete wallets: a writer and a
    reader of bags of cells with one root. *)

From stdpp Require Import base numbers list option.
From S2P Require Import Prelude BoundaryTypes SendDomain CellBoc CellBocSpec ConnectValues ConnectSigning.
From S2P Require Import ConnectWalletState ConnectLinkWitnesses.

Fixpoint refcell_eqb (a b : RefCell) : bool :=
  match a, b with
  | mkRefCell bits refs, mkRefCell bits' refs' =>
      bool_decide (bits = bits') &&
      (fix go (l l' : list RefCell) : bool :=
         match l, l' with
         | [], [] => true
         | c :: l, c' :: l' => refcell_eqb c c' && go l l'
         | _, _ => false
         end) refs refs'
  end.

Lemma refcell_eqb_eq a b : refcell_eqb a b = true -> a = b.
Proof.
  revert a b. fix IH 1. intros [bits refs] [bits' refs']. cbn [refcell_eqb].
  intros [->%bool_decide_eq_true Hr]%andb_true_iff. f_equal.
  revert refs' Hr. induction refs as [|c refs IHl]; intros [|c' refs']; try done.
  intros [->%IH Hl]%andb_true_iff. f_equal. by apply IHl.
Qed.

(** ** Writing *)

Fixpoint cell_count (c : RefCell) : nat :=
  let 'mkRefCell _ refs := c in S (list_sum (map cell_count refs)).

(** The second descriptor and the data, with a completion tag when bits are left. *)
Definition cell_data (bits : list bool) : bytes :=
  let whole := length bits / 8 in
  if (length bits mod 8 =? 0)%nat then N.of_nat (2 * whole) :: bits_bytes whole bits
  else
    let padded := bits ++ true :: repeat false (7 - length bits mod 8) in
    N.of_nat (2 * whole + 1) :: bits_bytes (S whole) padded.

(** Cells in depth-first order from index [index] on. *)
Fixpoint write_cells (index : nat) (c : RefCell) : bytes :=
  let 'mkRefCell bits refs := c in
  let children :=
    (fix go (next : nat) (l : list RefCell) : list N * bytes :=
       match l with
       | [] => ([], [])
       | child :: l =>
           let rest := go (next + cell_count child) l in
           (N.of_nat next :: rest.1, write_cells next child ++ rest.2)
       end) (S index) refs in
  N.of_nat (length refs) :: cell_data bits ++ children.1 ++ children.2.

Definition write_boc (c : RefCell) : bytes :=
  let cells := write_cells 0 c in
  GENERIC_BOC_MAGIC ++ [1; 2; N.of_nat (cell_count c); 1; 0]%N ++ be_bytes 2 (len cells) ++ [0%N] ++ cells.

(** ** Reading *)

(** The bits before the last set one. *)
Definition strip_tag (bits : list bool) : list bool :=
  reverse (match (fix go (l : list bool) := match l with false :: l => go l | l => l end) (reverse bits) with
           | _ :: l => l
           | [] => []
           end).

(** The bits and the references of each cell. *)
Fixpoint read_cells (count : nat) (data : bytes) : option (list (list bool * list N)) :=
  match count with
  | 0 => match data with [] => Some [] | _ => None end
  | S count =>
      match data with
      | refs :: descriptor :: rest =>
          let size := N.to_nat (descriptor / 2 + descriptor mod 2) in
          let bits := bytes_bits (take size rest) in
          let content := if (descriptor mod 2 =? 0)%N then bits else strip_tag bits in
          let rest := drop size rest in
          cells ← read_cells count (drop (N.to_nat refs) rest);
          Some ((content, take (N.to_nat refs) rest) :: cells)
      | _ => None
      end
  end.

(** The trees of the cells from index [index] on. *)
Fixpoint link_cells (index : nat) (cells : list (list bool * list N)) : option (list RefCell) :=
  match cells with
  | [] => Some []
  | (bits, refs) :: cells =>
      later ← link_cells (S index) cells;
      children ← mapM (fun r => later !! (N.to_nat r - S index)) refs;
      Some (mkRefCell bits children :: later)
  end.

Definition read_boc (data : bytes) : option RefCell :=
  match data with
  | _ :: _ :: _ :: _ :: _ :: _ :: count :: _ :: _ :: _ :: _ :: _ :: cells =>
      parsed ← read_cells (N.to_nat count) cells;
      linked ← link_cells 0 parsed;
      head linked
  | _ => None
  end.

(** The bytes of a cell, when they read back as this cell. *)
Definition cell_boc `{Crc32c} (c : RefCell) : option bytes :=
  let data := write_boc c in
  match read_boc data, validate_single_root_boc data with
  | Some c', Ok _ => if refcell_eqb c' c && forallb (fun b => b <? 256)%N data then Some data else None
  | _, _ => None
  end.

Lemma cell_boc_ok `{Crc32c} c data :
  cell_boc c = Some data ->
  read_boc data = Some c /\ validate_single_root_boc data = Ok tt /\ Forall (fun b => b < 256)%N data.
Proof.
  unfold cell_boc. destruct (read_boc _) as [c'|] eqn:Hr; [|done].
  destruct (validate_single_root_boc _) as [[]|] eqn:Hv; [|done].
  destruct (_ && _) eqn:Hb; [|done]. intros [= <-]. apply andb_true_iff in Hb as [->%refcell_eqb_eq Hb].
  split; [done|]. split; [done|]. apply Forall_forall. intros b Hin.
  apply forallb_forall with (x := b) in Hb; [by apply N.ltb_lt|done].
Qed.
