(* ===== verification/WalletWitnesses.v ===== *)
(** * A concrete wallet

    A wallet with reference hashes, signatures, boxes and cells: it is created, opens a
    session, signs for a dApp and rotates its keys; the theorems with hypotheses are
    applied to it. *)

From stdpp Require Import base numbers list option strings gmap.
From S2P Require Import Prelude BoundaryTypes SendDomain Base64 ClientDomain Json SendWorkflow.
From S2P Require Import ClientState SendEngine ClientWitnesses CellBoc CellBocSpec.
From S2P Require Import ConnectSession ConnectValues Addresses ConnectRpc ConnectRpcSpec.
From S2P Require Import ConnectEmbedded ConnectSigning ConnectSigningSpec ConnectWalletState.
From S2P Require Import ConnectHandshake ConnectEventWire ConnectWitnesses ConnectLinkWitnesses.
From S2P Require Import RefCells WordList Mnemonic WalletContract WalletKeys ConnectCrypto.
From S2P Require Import SessionBoundary Lifecycle ConnectDerived ConnectDerivedSpec.

(** ** Hashes, signatures and boxes *)

Lemma mix_length data : length (mix data) = 32.
Proof. exact (sha256_length data). Qed.

Lemma mix_u8s data : Forall (fun b => b < 256)%N (mix data).
Proof. exact (sha256_u8s data). Qed.

#[export, refine] Instance RefSha512 : Sha512 := {
  sha512 data := mix data ++ mix (0%N :: data);
  hmac_of_sha512 key data := mix (key ++ data) ++ mix (data ++ key);
  pbkdf2_hmac_sha512 password salt rounds size := resize size 0%N (mix (password ++ salt));
}.
Proof.
  - intros data. by rewrite length_app, !mix_length.
  - intros key data. by rewrite length_app, !mix_length.
  - intros key data. apply Forall_app. split; apply mix_u8s.
  - intros password salt rounds size. apply length_resize.
Defined.

Definition toy_signature (key message : bytes) : bytes := mix (key ++ message) ++ mix message.

#[export] Instance RefEd25519 : Ed25519 := {
  verify_strict key message signature := Some (bool_decide (signature = toy_signature key message));
}.

#[export, refine] Instance RefEd25519Keys : Ed25519Keys := {
  verifying_key secret := mix secret;
  ed25519_sign secret message := toy_signature (mix secret) message;
}.
Proof.
  - apply mix_length.
  - apply mix_u8s.
  - intros secret message. unfold toy_signature. by rewrite length_app, !mix_length.
  - intros secret message. apply Forall_app. split; apply mix_u8s.
  - intros secret message. cbn [verify_strict RefEd25519]. by rewrite bool_decide_eq_true_2.
Defined.

(** A box that only keeps the sizes. *)
#[export, refine] Instance RefBox : CryptoBox := {
  x25519_public secret := mix secret;
  box_seal _ _ _ message := Some (repeat 0%N 16 ++ message);
  box_open _ _ _ sealed := Some (drop 16 sealed);
}.
Proof.
  - apply mix_length.
  - apply mix_u8s.
  - intros a b nonce message sealed [= <-]. done.
  - intros pk sk nonce message sealed [= <-]. simpl. lia.
Defined.

(** ** Keys and sessions *)

Definition toy_secret (n : N) : bytes := n :: repeat 0%N 31.
Definition toy_key (n : N) : SigningKey := mkSigningKey (toy_secret n).

Lemma key_history_recovered_witness :
  recover_signing_keys (public_key (toy_key 1)) (toy_key 4)
    (reverse (rotations (toy_key 1) [toy_key 2; toy_key 3; toy_key 4]))
  = [toy_key 3; toy_key 2].
Proof.
  apply (key_history_recovered (toy_key 1) [toy_key 2; toy_key 3] (toy_key 4)).
  - by repeat constructor.
  - apply (bool_decide_unpack _). vm_compute. exact I.
  - apply reverse_Permutation.
Defined.

Definition app_session : SessionCrypto := from_secret_key (toy_secret 9).
Definition wallet_side : SessionCrypto := from_secret_key (toy_secret 5).
Definition toy_nonce : bytes := repeat 3%N 24.

Lemma session_crypto_roundtrip_witness :
  exists encrypted,
    encrypt_with_nonce wallet_side (sc_client_id app_session) (lit "hello") toy_nonce = Ok encrypted /\
    session_decrypt app_session (sc_client_id wallet_side) encrypted = Ok (lit "hello").
Proof.
  eexists. split; [reflexivity|].
  apply (session_crypto_roundtrip wallet_side app_session toy_nonce (lit "hello")); try reflexivity.
  split; [reflexivity|]. by repeat constructor.
Defined.

(** ** Addresses *)

#[export] Instance FriendlyText : TonAddressText := {
  to_base64 address mainnet bounceable url_safe :=
    match friendly_from_raw (mkRawAccountAddress (ta_workchain address) (ta_hash address)) bounceable
            (negb mainnet) with
    | Ok friendly => fa_encoded friendly
    | Err _ => []
    end;
}.

#[export, refine] Instance RefAddressCodec : TonAddressCodec := {
  to_hex address := raw_to_string (mkRawAccountAddress (ta_workchain address) (ta_hash address));
}.
Proof.
  - done.
  - intros [workchain hash] bounceable test_only friendly Hf. cbn [to_base64 FriendlyText ta_workchain ta_hash raa_workchain raa_hash].
    by rewrite negb_involutive, Hf.
  - intros raw bounceable test_only friendly Hl Hu Hf.
    pose proof Hf as [Hw Henc]%friendly_from_raw_ok.
    assert (well_typed raw) as Ht by (split; [lia|done]).
    cbn [ton_address_from_str RefAddressParser].
    assert (exists data, fa_encoded friendly = url_safe_no_pad_encode data) as [data Hdata]
      by (rewrite Henc; by eexists).
    rewrite Hdata, alphabet_lacks, friendly_canonical by done. rewrite <- Hdata. rewrite (friendly_written raw _ _ friendly Ht Hf).
    cbn. by rewrite Henc.
Defined.

(** ** The account *)

Definition toy_entropy : bytes := map N.of_nat (seq 1 16).

Definition toy_half : Bip39Half :=
  match from_entropy toy_entropy with Ok half => half | Err _ => mkBip39Half [] end.

Definition toy_public_key : bytes := Eval vm_compute in public_key (derive_half_key toy_half).

(** Revision, sequence number, identifier and key. *)
Definition toy_data : bytes := [0; 0; 0; 0; 0]%N ++ i32_be_bytes WALLET_SUBWALLET_ID_DEFAULT_TESTNET ++ toy_public_key.

Definition toy_root : RefCell :=
  mkRefCell [false; false; true; true; false] [mkRefCell [] []; mkRefCell (bytes_bits toy_data) []].

Definition wallet_hash : bytes :=
  default [] (hex_decode (lit "9149ae51c1e4689710cebf7830297b16acfbadb363a920a537893e7ffeeca768")).

(** The cells that stand for published code: the empty cell for the wallet, and cells of
    1 to 11 set bits for the versions in the order of their table. *)
Definition published_hashes : list bytes :=
  Eval vm_compute in wallet_hash :: map (fun entry => default [] (hex_decode (lit entry.1))) code_hashes.

Definition published (bits : list bool) : option bytes :=
  if forallb (fun b => b) bits then published_hashes !! length bits else None.

Fixpoint toy_hash (c : RefCell) : bytes :=
  match c with
  | mkRefCell bits refs =>
      match (if is_empty refs then published bits else None) with
      | Some hash => hash
      | None => mix (map (fun b : bool => if b then 1%N else 0%N) bits ++ flat_map toy_hash refs)
      end
  end.

Lemma toy_hash_typed c : length (toy_hash c) = 32 /\ Forall (fun b => b < 256)%N (toy_hash c).
Proof.
  assert (Forall (fun hash => length hash = 32 /\ Forall (fun b => b < 256)%N hash) published_hashes) as Hp.
  { apply (bool_decide_unpack _). vm_compute. exact I. }
  destruct c as [bits refs]. cbn [toy_hash].
  destruct (if is_empty refs then published bits else None) as [hash|] eqn:E.
  - destruct (is_empty refs); [|done]. unfold published in E. destruct (forallb _ bits); [|done].
    exact (Forall_lookup_1 _ _ _ _ Hp E).
  - by split; [apply mix_length|apply mix_u8s].
Qed.

#[export] Instance WalletBoc : TonCoreBoc := { ton_core_accepts data := bool_decide (is_Some (read_boc data)) }.

#[export, refine] Instance WalletCells : @TonCells WalletBoc := {
  Cell := RefCell;
  cell_ordinary _ := true;
  cell_bits := refcell_bits;
  cell_refs := refcell_refs;
  cell_hash c := Some (toy_hash c);
  build_cell bits refs :=
    if (length bits <=? 1023)%nat && (length refs <=? 4)%nat then Some (mkRefCell bits refs) else None;
  msg_address_bits _ := Some [];
  ton_core_root := read_boc;
}.
Proof.
  - intros data. cbn [ton_core_accepts WalletBoc]. by rewrite bool_decide_eq_true.
  - intros bits refs c. destruct (_ && _); [|done]. by intros [= <-].
Defined.

#[export, refine] Instance WalletStates : TonStates := {
  StateInit := RefCell * RefCell;
  state_init_new code data := (code, data);
  state_init_to_cell state := build_cell [false; false; true; true; false] [state.1; state.2];
  state_init_from_boc _ := None;
  cell_to_boc := cell_boc;
  wallet_code := mkRefCell [] [];
}.
Proof.
  - done.
  - done.
  - intros c hash [= <-]. apply toy_hash_typed.
  - intros c hash [= <-]. apply toy_hash_typed.
  - intros c data Hc. apply (cell_boc_ok c data Hc).
  - intros c data (Hr & Hv & _)%cell_boc_ok. unfold parse_root_cell, parse_single_root.
    rewrite Hv. cbn [map_err rbind ton_core_accepts WalletBoc]. rewrite Hr.
    rewrite bool_decide_eq_true_2 by by eexists. exact Hr.
  - exists wallet_hash. split; [done|]. vm_compute. reflexivity.
Defined.

(** The deployment state in bytes. *)
Definition toy_boc : bytes := Eval vm_compute in write_boc toy_root.

(** ** A wallet's life *)

Definition toy_address : TonAddress := Eval vm_compute in mkTonAddress 0 (toy_hash toy_root).

Definition toy_state : StateInit := (mkRefCell [] [], mkRefCell (bytes_bits toy_data) []).

Lemma toy_public_state :
  derive_wallet_public_state (public_key (derive_half_key toy_half)) Testnet = Ok (toy_address, toy_state).
Proof. vm_compute. reflexivity. Qed.

Lemma created_wallet_recovered_witness :
  exists descriptor stored,
    run_vault (create_wallet (Some toy_entropy) (mkCreateWalletRequest (lit "main") Testnet)) ∅
    = (stored, Ok (mkCreatedWallet descriptor (mkRecoveryPhrase (to_phrase toy_half)))) /\
    run_vault (reveal_recovery_phrase descriptor) stored
    = (stored, Ok (mkRecoveryPhrase (to_phrase toy_half))).
Proof.
  destruct (created_wallet_recovered (lit "main") Testnet toy_entropy toy_half toy_address toy_state ∅
    eq_refl ltac:(split; [reflexivity|by repeat constructor]) ltac:(vm_compute; reflexivity)
    toy_public_state) as (descriptor & stored & Hc & _ & Hr & _).
  exists descriptor, stored. exact (conj Hc Hr).
Defined.

Definition toy_descriptor : WalletDescriptor :=
  mkWalletDescriptor (lit "main")
    (mkTonAddressString (to_user_friendly toy_address Testnet) toy_address) toy_public_key Testnet
    (secret_ref_for (lit "main")).

Definition toy_vault : gmap rstr bytes :=
  {[psr_value (secret_ref_for (lit "main")) := utf8 (to_phrase toy_half)]}.

Definition toy_session_request : TonConnectDerivedSessionRequest :=
  mkTonConnectDerivedSessionRequest toy_descriptor (client_id_to_string (sc_client_id app_session)) [7%N].

Definition toy_session : TonConnectDerivedSession :=
  match (run_vault (derive_ton_connect_session toy_session_request) toy_vault).2 with
  | Ok session => session
  | Err _ => mkTonConnectDerivedSession app_session (sc_client_id app_session) [] zero_account []
  end.

Lemma toy_session_derived :
  (run_vault (derive_ton_connect_session toy_session_request) toy_vault).2 = Ok toy_session.
Proof. vm_compute. reflexivity. Qed.

Definition toy_sign_request : TonConnectSignDataSignRequest :=
  mkTonConnectSignDataSignRequest toy_descriptor
    (mkTonConnectSignDataRequest (Data_Text (lit "I agree")) (Some (lit "-3")) None)
    (lit "example.com") 1700000000.

Definition toy_signed : TonConnectSignedData :=
  match (run_vault (sign_ton_connect_data toy_sign_request) toy_vault).2 with
  | Ok signed => signed
  | Err _ => mkTonConnectSignedData (sds_request toy_sign_request) [] 0 [] []
  end.

Lemma toy_data_signed : (run_vault (sign_ton_connect_data toy_sign_request) toy_vault).2 = Ok toy_signed.
Proof. vm_compute. reflexivity. Qed.

Lemma with_result {A} (op : lifecycle A) v a : (run_vault op v).2 = a -> run_vault op v = ((run_vault op v).1, a).
Proof. destruct (run_vault op v). by intros <-. Qed.

Lemma signed_data_reaches_dapp_witness :
  exists value fields result,
    encrypt_sign_data_success (Some toy_nonce) toy_session (lit "1") toy_signed
    = derived_encrypt (Some toy_nonce) toy_session value /\
    decode_SignDataResult (Object fields) = Some result /\ sdr_domain result = lit "example.com" /\
    sign_data_verify result (mkEd25519PublicKey (tds_signing_public_key toy_session)) = Ok true.
Proof.
  destruct (signed_data_reaches_dapp toy_session_request toy_sign_request toy_session toy_signed app_session
    toy_nonce (lit "1") toy_vault _ _ eq_refl (with_result _ _ _ toy_session_derived)
    (with_result _ _ _ toy_data_signed) ltac:(vm_compute; reflexivity) eq_refl eq_refl
    ltac:(cbn; unfold u64_max; lia)) as (value & fields & result & He & Hr & _ & Hd & _ & _ & _ & Hv & _).
  exists value, fields, result. exact (conj He (conj Hr (conj Hd Hv))).
Defined.

Definition toy_proof_request : TonConnectProofSignRequest :=
  mkTonConnectProofSignRequest toy_descriptor (lit "example.com") 1700000000 (lit "challenge").

Definition toy_proof : TonConnectProofSignature :=
  match (run_vault (sign_ton_connect_proof toy_proof_request) toy_vault).2 with
  | Ok signed => signed
  | Err _ => mkTonConnectProofSignature [] []
  end.

Lemma toy_proof_signed : (run_vault (sign_ton_connect_proof toy_proof_request) toy_vault).2 = Ok toy_proof.
Proof. vm_compute. reflexivity. Qed.

Definition toy_account : TonConnectAccountInfo :=
  match ton_connect_account toy_descriptor with
  | Ok info => info
  | Err _ => mkTonConnectAccountInfo [] [] [] []
  end.

Lemma toy_account_derived : ton_connect_account toy_descriptor = Ok toy_account.
Proof. vm_compute. reflexivity. Qed.

Definition toy_device : TonConnectDevice :=
  mkTonConnectDevice Device_Iphone (lit "wallet") (lit "1.0").

Lemma connect_event_reaches_dapp_witness :
  exists value reply proof,
    encrypt_connect_event (Some toy_nonce) toy_session 1
      (with_public_key toy_account (tps_public_key toy_proof))
      (Some (proof_answer toy_proof_request toy_proof)) toy_device
    = derived_encrypt (Some toy_nonce) toy_session value /\
    proof_verify_with_account proof reply = Ok true.
Proof.
  destruct (connect_event_reaches_dapp toy_session_request toy_proof_request toy_session toy_proof toy_account
    toy_device app_session toy_nonce 1 toy_vault _ _ eq_refl (with_result _ _ _ toy_session_derived)
    (with_result _ _ _ toy_proof_signed) toy_account_derived ltac:(vm_compute; reflexivity) eq_refl eq_refl
    ltac:(cbn; unfold u64_max; lia) ltac:(unfold u64_max; lia) ltac:(discriminate) ltac:(discriminate))
    as (value & reply & proof & device & He & _ & _ & _ & _ & _ & Hv & _).
  exists value, reply, proof. split; [exact He|]. apply Hv. vm_compute. reflexivity.
Defined.

(** ** A request of a dApp *)

Definition toy_cell : CellBoc := mkCellBoc (standard_encode toy_boc) toy_boc.

Definition toy_messages : list RawMessage :=
  [mkRawMessage testnet_friendly (lit "1000") (Some toy_cell) None None;
   mkRawMessage testnet_friendly (lit "20") None None (Some (mkExtraCurrencies []))].

Definition toy_fields : TransactionContext :=
  mkTransactionContext (Some 1893456000%N) (Some (lit "-3")) (Some (Address_Raw zero_account)).

Lemma toy_payload_valid : valid_payload (Payload_Raw toy_fields toy_messages).
Proof.
  assert (valid_friendly testnet_friendly) as Hf
    by (exists testnet_address; vm_compute; reflexivity).
  split; [|split; [done|]].
  - split; [cbn; unfold u64_max; lia|]. split; [done|exact zero_account_typed].
  - constructor; [|constructor; [|constructor]]; (split; [exact Hf|]); split; [done| |done|].
    + split; [exists (standard_encode toy_boc); vm_compute; reflexivity|done].
    + split; [done|]. split; [done|]. split; constructor.
Qed.

Definition toy_context : RequestContext :=
  mkRequestContext (lit "-3") zero_account (sc_client_id app_session).

Lemma toy_addressed : addressed_to toy_context 1700000000 toy_fields.
Proof. apply (addressed_to_spec _ _ _ []). vm_compute. reflexivity. Qed.

Lemma toy_no_currencies : Forall no_currencies toy_messages.
Proof. repeat constructor; intros c [=]; by subst. Qed.

Lemma toy_no_zeros : Forall (fun message => ~ leading_zero message) toy_messages.
Proof. repeat constructor; intros (digit & rest & [=]). Qed.

Lemma transaction_request_decoded_witness :
  exists intent,
    decode_transaction_request toy_context (lit "7") (lit "sendTransaction")
      (Payload_Raw toy_fields toy_messages) 1700000000 RequestKind_Send
    = Ok (accepted RequestKind_Send (lit "7") (lit "sendTransaction")
            (mkNonEmptyString (operation_id (sc_client_id app_session) (lit "7"))) intent) /\
    Forall2 carries toy_messages (si_messages intent).
Proof.
  destruct (transaction_request_decoded toy_context (lit "7") (lit "sendTransaction")
    (Payload_Raw toy_fields toy_messages) 1700000000 RequestKind_Send toy_payload_valid)
    as (Hsound & Hcomplete & _).
  destruct (Hcomplete toy_fields toy_messages eq_refl toy_addressed ltac:(cbn; lia) toy_no_currencies)
    as [Haccepted _].
  destruct (Haccepted toy_no_zeros) as [intent Hi].
  exists intent. split; [exact Hi|].
  destruct (Hsound _ _ Hi) as (fields & messages & [= _ <-] & _ & _ & _ & _ & _ & Hf). exact Hf.
Defined.
