(* ===== verification/ConnectClassicWitnesses.v ===== *)
(** * A concrete session over the bridge

    A dApp and the wallet of WalletWitnesses.v talk over a bridge, with a serde_json whose
    texts are length-prefixed; the theorems of ConnectClassicRuns.v are applied to this
    session. *)

From stdpp Require Import base numbers list option strings sorting gmap.
From S2P Require Import Prelude BoundaryTypes SendDomain Base64 ClientDomain Json CellBoc.
From S2P Require Import CellBocSpec ConnectSession ConnectValues ConnectBridge Addresses ConnectRpc.
From S2P Require Import ConnectRpcSpec ConnectEmbedded ConnectSigning ConnectSigningSpec.
From S2P Require Import ConnectWalletState ConnectHandshake ConnectLink ConnectCrypto.
From S2P Require Import SessionBoundary ConnectEventWire WordList Mnemonic WalletContract.
From S2P Require Import WalletKeys Lifecycle ConnectDerived ConnectDerivedSpec ConnectClient.
From S2P Require Import ConnectClassic ConnectClassicRuns ConnectWitnesses ConnectLinkWitnesses.
From S2P Require Import RefCells WalletWitnesses.

(** ** Texts of JSON values *)

Definition sized_text (s : rstr) : rstr := u64_to_string (N.of_nat (length s)) ++ 58%N :: s.

Fixpoint value_text (v : Value) : rstr :=
  match v with
  | Null => lit "n"
  | Bool b => if b then lit "t" else lit "f"
  | Num (PosInt n) => lit "p" ++ sized_text (u64_to_string n)
  | Num (NegInt z) => lit "m" ++ sized_text (u64_to_string (Z.abs_N z))
  | Num (Float text) => lit "d" ++ sized_text text
  | Str s => lit "s" ++ sized_text s
  | Array items =>
      lit "a" ++ u64_to_string (N.of_nat (length items)) ++ 58%N :: flat_map value_text items
  | Object fields =>
      lit "o" ++ u64_to_string (N.of_nat (length fields))
      ++ 58%N :: flat_map (fun '(k, v) => sized_text k ++ value_text v) fields
  end.

Definition read_length (s : rstr) : option (nat * rstr) :=
  '(digits, rest) ← split_once 58%N s;
  n ← result_ok (parse_uint 10 u64_max digits);
  Some (N.to_nat n, rest).

Definition read_text (s : rstr) : option (rstr * rstr) :=
  '(n, rest) ← read_length s; Some (take n rest, drop n rest).

Fixpoint read_items {A} (read : rstr -> option (A * rstr)) (n : nat) (s : rstr) : option (list A * rstr) :=
  match n with
  | 0 => Some ([], s)
  | S n =>
      '(a, s) ← read s;
      '(rest, s) ← read_items read n s;
      Some (a :: rest, s)
  end.

Fixpoint read_value (fuel : nat) (s : rstr) : option (Value * rstr) :=
  match fuel, s with
  | S fuel, tag :: rest =>
      if (tag =? 110)%N then Some (Null, rest)
      else if (tag =? 116)%N then Some (Bool true, rest)
      else if (tag =? 102)%N then Some (Bool false, rest)
      else if (tag =? 115)%N then '(text, rest) ← read_text rest; Some (Str text, rest)
      else if (tag =? 112)%N then
        '(text, rest) ← read_text rest;
        n ← result_ok (parse_uint 10 u64_max text);
        Some (Num (PosInt n), rest)
      else if (tag =? 97)%N then
        '(n, rest) ← read_length rest;
        '(items, rest) ← read_items (read_value fuel) n rest;
        Some (Array items, rest)
      else if (tag =? 111)%N then
        '(n, rest) ← read_length rest;
        '(fields, rest) ←
          read_items (fun s => '(k, s) ← read_text s; '(v, s) ← read_value fuel s; Some ((k, v), s)) n rest;
        Some (Object fields, rest)
      else None
  | _, _ => None
  end.

#[local] Instance PrefixJson : SerdeJson := {
  value_to_vec v := Ok (utf8 (value_text v));
  document_from_slice body :=
    ok_or (lit "unknown document")
      (s ← from_utf8 body; '(v, rest) ← read_value (length s) s; if is_empty rest then Some v else None);
  value_to_string v := value_text v;
  serde_error _ := lit "invalid type";
  serde_value_error _ := lit "invalid type";
}.

#[local] Instance PlainParts : UrlParts := {
  url_host _ := Some (Host_Domain (lit "host"));
  url_path _ := lit "/";
}.

#[local, refine] Instance PlainBridge : UrlBridge := {
  url_set_path url path := (url.1 ++ path, url.2);
  url_host_loopback _ := false;
}.
Proof.
  - done.
  - done.
  - intros text [base query]. cbn [url_parse QueryUrl url_as_str RefUrlQuery fst snd]. intros Hp.
    destruct (split_once 63%N text) as [[b q]|] eqn:E.
    + destruct (well_formed_base b && negb (contains 35%N q)) eqn:F; [|done]. injection Hp as <- <-.
      apply split_once_Some in E as [_ E]. rewrite split_once_app by done. by rewrite F.
    + destruct (well_formed_base text) eqn:F; [|done]. injection Hp as <- <-.
      rewrite app_nil_r, E. by rewrite F.
Defined.

(** ** The session *)

Definition asked : ConnectRequest :=
  mkConnectRequest (lit "https://example.com/manifest.json")
    [Item_TonAddr (Some (lit "-3")); Item_Unsupported (lit "new_item") []].

Definition asking_link : ConnectLink :=
  mkConnectLink (sc_client_id app_session) (Some asked) Return_Back None None [].

Definition link_text : rstr :=
  match link_to_url asking_link (lit "tc://connect") with Ok url => url_as_str url | Err _ => [] end.

Definition bridge_config : TonConnectSessionConfig :=
  mkTonConnectSessionConfig (lit "https://bridge.example/bridge") 4096 300.

Definition fresh_session : TonConnectSessionState :=
  mkTonConnectSessionState
    (mkTonConnectClient (Some asked) None None (sc_client_id app_session)
       (mkHttpBridgeUrl (lit "https://bridge.example/bridge", None)) 4096 300 Heartbeat_Message
       wallet_side pending_connect None None (decoder_new 4096)) [] None None.

Lemma session_started :
  ton_connect_session_from_link (Some (toy_secret 5)) link_text bridge_config = Ok fresh_session.
Proof. vm_compute. reflexivity. Qed.

Definition posted (answer : TonConnectSessionState * result TonConnectSessionError TonConnectPreparedPost)
  : TonConnectPreparedPost :=
  match answer.2 with Ok post => post | Err _ => mkTonConnectPreparedPost [] [] end.

Definition approval := session_approve_connect (Some toy_nonce) toy_account None toy_device fresh_session.

Definition connected_session : TonConnectSessionState := (complete_pending_post approval.1).1.

(** An event of the dApp: the envelope with the encrypted request. *)
Definition app_event (id : rstr) (request : AppRequest) : bytes :=
  match encrypt_with_nonce app_session (sc_client_id wallet_side) (utf8 (value_text (app_request_to_value request)))
          toy_nonce with
  | Ok encrypted =>
      utf8 (lit "id: " ++ id ++ [10%N] ++ lit "data: "
            ++ value_text (Object [(lit "from", Str (client_id_to_string (sc_client_id app_session)));
                                   (lit "message", Str (standard_encode encrypted))]) ++ [10; 10]%N)
  | Err _ => []
  end.

Definition ping : AppRequest := mkAppRequest (lit "ping") [] (lit "7").

Definition ingested := session_ingest_sse_chunk (app_event (lit "41") ping) 1700000000 connected_session.

Definition asked_session : TonConnectSessionState := ingested.1.

Definition refusal :=
  prepare_error (Some toy_nonce) (lit "7") Code_MethodNotSupported (lit "no") asked_session.

Example the_session_runs :
  approval.2 = Ok (posted approval) /\ session_phase connected_session = Phase_Connected /\
  ingested.2 = Ok [unsupported_request (lit "7") (lit "ping") Code_BadRequest
                     (lit "unsupported TON Connect RPC method: ping")] /\
  refusal.2 = Ok (posted refusal) /\ tss_pending_requests refusal.1 = [].
Proof. vm_compute. repeat split. Qed.

(** ** Its run *)

Lemma secret_typed secret : Some (toy_secret 5) = Some secret -> typed_bytes 32 secret.
Proof. intros [= <-]. split; [done|]. by repeat constructor. Qed.

Lemma approval_done :
  session_approve_connect (Some toy_nonce) toy_account None toy_device fresh_session
  = (approval.1, Ok (posted approval)).
Proof. rewrite <- (proj1 the_session_runs). unfold approval. apply surjective_pairing. Qed.

Lemma ingest_done :
  session_ingest_sse_chunk (app_event (lit "41") ping) 1700000000 connected_session
  = (asked_session, ingested.2).
Proof. unfold asked_session, ingested. apply surjective_pairing. Qed.

Lemma refusal_done :
  prepare_error (Some toy_nonce) (lit "7") Code_MethodNotSupported (lit "no") asked_session
  = (refusal.1, Ok (posted refusal)).
Proof.
  destruct the_session_runs as (_ & _ & _ & <- & _). unfold refusal. apply surjective_pairing.
Qed.

Definition history : list classic_label :=
  [Posted None (posted approval); Delivered; Received (new_ids connected_session asked_session)].

Lemma fresh_runs : classic_run [] fresh_session.
Proof. exact (classic_start _ _ _ _ secret_typed session_started). Qed.

Lemma connected_runs : classic_run [Posted None (posted approval); Delivered] connected_session.
Proof.
  apply (classic_next [Posted None (posted approval)] approval.1).
  - apply (classic_next [] fresh_session); [exact fresh_runs|].
    exact (classic_post _ _ _ _ _ (posting_approve (Some toy_nonce) toy_account None toy_device) approval_done).
  - apply (classic_deliver _ _ (Ok tt)). unfold connected_session. reflexivity.
Qed.

Lemma asked_runs : classic_run history asked_session.
Proof.
  apply (classic_next [Posted None (posted approval); Delivered] connected_session); [exact connected_runs|].
  exact (classic_ingest _ _ _ _ _ ingest_done).
Qed.

Lemma refused_runs : classic_run (history ++ [Posted (Some (lit "7")) (posted refusal)]) refusal.1.
Proof.
  apply (classic_next history asked_session); [exact asked_runs|].
  exact (classic_post _ _ _ _ _ (posting_error (Some toy_nonce) (lit "7") Code_MethodNotSupported (lit "no"))
           refusal_done).
Qed.

Lemma classic_requests_answered_once_witness :
  tss_pending_post refusal.1 = Some (posted refusal) /\
  received (history ++ [Posted (Some (lit "7")) (posted refusal)]) = [lit "7"] /\
  ~ lit "7" ∈ map fst (tss_pending_requests refusal.1).
Proof.
  destruct (classic_requests_answered_once _ _ refused_runs) as (_ & Hp & Hpost).
  split; [exact Hpost|]. split; [vm_compute; reflexivity|]. intros Hin. apply Hp in Hin as [_ Hin].
  apply Hin, (bool_decide_unpack _). vm_compute. exact I.
Defined.

(** ** Its restart *)

Lemma asked_record_read : exists client,
  client_persisted (tss_client asked_session) = Ok client /\
  reads_back (session_record_to_value client
    (map (fun entry => incoming_persisted entry.2) (tss_pending_requests asked_session))
    (tss_pending_post asked_session) (tss_connected_network asked_session)).
Proof. eexists. split; vm_compute; reflexivity. Qed.

Lemma asked_written : session_written asked_session.
Proof.
  constructor.
  - intros embedded He. vm_compute in He. discriminate He.
  - replace (tss_pending_requests asked_session) with [(lit "7", mkIncomingRequest ping None false)]
      by (vm_compute; reflexivity).
    constructor; [|constructor]. vm_compute. reflexivity.
  - intros client Hc. destruct asked_record_read as (client' & Hc' & Hr). rewrite Hc in Hc'.
    injection Hc' as <-. exact Hr.
Qed.

Definition larger_limits : TonConnectSessionConfig :=
  mkTonConnectSessionConfig (lit "https://bridge.example/bridge") 8192 60.

Lemma larger_valid : valid_limits larger_limits.
Proof. split; [split|]; vm_compute; [reflexivity|discriminate|reflexivity]. Qed.

Lemma asked_storable : validate_event_id (tcc_last_bridge_event_id (tss_client asked_session)) = Ok tt.
Proof. vm_compute. reflexivity. Qed.

Lemma classic_session_survives_restart_witness :
  exists text, session_persisted asked_session = Ok text /\
    ton_connect_session_restore text larger_limits = Ok (restarted larger_limits asked_session).
Proof.
  generalize asked_storable, asked_written, asked_runs. generalize asked_session as s. intros s Hid Hw Hrun.
  destruct (classic_session_survives_restart history s larger_limits Hrun Hw larger_valid) as [Hr _].
  rewrite Hid in Hr. exact Hr.
Defined.

(** ** What the dApp reads *)

Lemma toy_approval_typed : typed_approval toy_account None.
Proof.
  split; [|done]. assert (forallb (fun b => b <? 256)%N (tci_public_key toy_account) = true) as Hall
    by (vm_compute; reflexivity).
  apply Forall_forall. intros b Hin%list_elem_of_In. rewrite forallb_forall in Hall. by apply N.ltb_lt, Hall.
Qed.

Lemma nonce_sized nonce : Some toy_nonce = Some nonce -> length nonce = NONCE_LENGTH.
Proof. by intros [= <-]. Qed.

Lemma classic_connect_reaches_dapp_witness :
  exists payload plaintext encrypted,
    connect_answers payload None asked None /\ tpp_body (posted approval) = standard_encode encrypted /\
    session_decrypt app_session (sc_client_id wallet_side) encrypted = Ok plaintext.
Proof.
  destruct (classic_connect_reaches_dapp [] (Some toy_nonce) toy_account None toy_device fresh_session _ _
    app_session fresh_runs approval_done eq_refl eq_refl nonce_sized toy_approval_typed)
    as (request & reply & payload & plaintext & encrypted & Hreq & _ & _ & Hans & _ & _ & _ & _ & _ & _ & Hb & Ho & _).
  injection Hreq as <-. exists payload, plaintext, encrypted. split; [exact Hans|]. split; [exact Hb|exact Ho].
Defined.

(** ** A cursor that cannot be stored *)

(** The bridge sends an identifier with a carriage return inside; the session takes it as
    its cursor and cannot be stored any more. *)
Definition stuck := session_ingest_sse_chunk (app_event (lit "4" ++ [13%N] ++ lit "1") ping) 1700000000 connected_session.

Example carriage_return_blocks_storage :
  stuck.2 = ingested.2 /\
  session_persisted stuck.1
  = Err (failed (lit "bridge event id must not contain null, CR, or LF characters")).
Proof. vm_compute. split; reflexivity. Qed.

(** ** Requests that are lost *)

(** An amount with a leading zero makes ingesting fail; neither that request nor the one
    after it becomes pending, and neither is accepted when it is sent again. *)
Definition leading_zero : AppRequest :=
  app_request_encode (Request_SendTransaction (lit "8")
    (Payload_Raw (mkTransactionContext None None None) [mkRawMessage testnet_friendly (lit "010") None None None])).
Definition later_ping : AppRequest := mkAppRequest (lit "ping") [] (lit "9").

Definition lossy :=
  session_ingest_sse_chunk (app_event (lit "42") leading_zero ++ app_event (lit "43") later_ping) 1700000000
    connected_session.

Definition again := session_ingest_sse_chunk (app_event (lit "44") later_ping) 1700000000 lossy.1.

Example requests_after_a_failure_are_lost :
  lossy.2 = Err (failed (lit "value must be a canonical unsigned base-10 integer")) /\
  tss_pending_requests lossy.1 = [] /\ again.2 = Ok [].
Proof. vm_compute. repeat split. Qed.
