(* ===== verification/TransferWitnesses.v ===== *)
(** * A concrete transfer and a concrete rotation

    The wallet of WalletWitnesses signs a transfer with a comment, previews it, sends it
    through the client against a host, and rotates its key. *)

From stdpp Require Import base numbers list option strings gmap.
From S2P Require Import Prelude BoundaryTypes SendDomain SendWorkflow RefCodec Base64.
From S2P Require Import ClientDomain Json ProviderRequest ClientState ClientCalls Futures.
From S2P Require Import Resolution SendEngine SendRuns SendWitnesses CellBoc CellBocSpec.
From S2P Require Import ConnectValues ConnectSigning ConnectSigningSpec ConnectWalletState.
From S2P Require Import SnakeData WordList Mnemonic WalletContract WalletKeys Transfer Addresses.
From S2P Require Import Lifecycle KeyRotation ConnectWitnesses ConnectLinkWitnesses RefCells.
From S2P Require Import WalletWitnesses ClientWitnesses EngineWitnesses.

Import Transfer.Signer.

(** ** Messages *)

Definition flag (b : bool) : list bool := [b].

(** An address: its kind, the workchain and the hash. *)
Definition write_info (info : CommonMsgInfo) : option (list bool) :=
  match info with
  | Info_ExtIn (Some (Address_Std workchain hash)) =>
      Some (flag true ++ flag (bool_decide (workchain = 0%Z)) ++ bytes_bits hash)
  | Info_Int (Some (Address_Std workchain hash)) value bounce =>
      Some (flag false ++ flag (bool_decide (workchain = 0%Z)) ++ bytes_bits hash
              ++ bytes_bits (be_bytes 16 value) ++ flag bounce)
  | _ => None
  end.

Definition workchain_of (basic : bool) : Z := if basic then 0%Z else (-1)%Z.

Definition read_info (bits : list bool) : option CommonMsgInfo :=
  match bits with
  | true :: basic :: rest => Some (Info_ExtIn (Some (Address_Std (workchain_of basic) (bits_bytes 32 rest))))
  | false :: basic :: rest =>
      Some (Info_Int (Some (Address_Std (workchain_of basic) (bits_bytes 32 rest)))
              (be_value (bits_bytes 16 (drop 256 rest)))
              (default false (head (drop 384 rest))))
  | _ => None
  end.

Definition read_message (c : RefCell) : option Msg :=
  match c with
  | mkRefCell bits [body] => info ← read_info bits; Some (mkMsg info None body)
  | mkRefCell bits [body; code; data] => info ← read_info bits; Some (mkMsg info (Some (code, data)) body)
  | _ => None
  end.

#[local] Instance CommonMsgInfo_eq_dec : EqDecision CommonMsgInfo.
Proof. solve_decision. Defined.

#[local] Instance RefCell_eq_dec : EqDecision RefCell.
Proof.
  intros a b. destruct (refcell_eqb a b) eqn:E; [left; by apply refcell_eqb_eq|].
  right. intros ->. revert b E. fix IH 1. intros [bits refs]. cbn [refcell_eqb].
  rewrite bool_decide_eq_true_2 by done. cbn [andb]. induction refs as [|c refs IHl]; [done|].
  destruct (refcell_eqb c c) eqn:E; [exact IHl|]. intros _. exact (IH c E).
Defined.

#[local] Instance Msg_eq_dec : EqDecision (@Msg WalletBoc WalletCells _ _ WalletStates).
Proof.
  intros [info init body] [info' init' body'].
  destruct (decide (info = info' /\ (init : option (RefCell * RefCell)) = init' /\ (body : RefCell) = body')) as [E|E].
  - left. destruct E as (-> & -> & ->). reflexivity.
  - right. intros [= -> -> ->]. by apply E.
Defined.

(** The cell of a message, when it reads back as this message. *)
Definition write_message (m : Msg) : option RefCell :=
  bits ← write_info (msg_info m);
  let state := match msg_init m with Some (code, data) => [code; data] | None => [] end in
  let c := mkRefCell bits (msg_body m :: state) in
  if bool_decide (read_message c = Some m) then Some c else None.

#[export, refine] Instance WalletMessages : TonMessages := {
  to_msg_address_int address := Address_Std (ta_workchain address) (ta_hash address);
  msg_to_cell := write_message;
  msg_from_cell := read_message;
  cell_hash_normalized m := c ← write_message m; Some (toy_hash c);
  empty_cell_of := mkRefCell [] [];
}.
Proof.
  intros m c (bits & _ & Hc)%bind_Some. cbv zeta in Hc.
  match type of Hc with (if bool_decide ?P then _ else _) = _ => destruct (bool_decide_reflect P) as [Hr|] end;
    [|done].
  by injection Hc as <-.
Defined.

(** ** A transfer *)

Definition toy_source : TonAddressString :=
  mkTonAddressString (to_user_friendly toy_address Testnet) toy_address.

Definition toy_message : SendMessage :=
  mkSendMessage toy_source (Amount_Exact (mkUnsignedDecimalString 5)) (Body_Comment (lit "rent")) true None.

Definition toy_send : SendRequest :=
  mkSendRequest (mkNonEmptyString (lit "op-1")) false
    (mkSendIntent Expiration_EngineDefault [toy_message]).

Definition toy_phrase : bytes := utf8 (to_phrase toy_half).
Definition new_account : FreshSendAccount := mkFreshSendAccount Account_Uninitialized 0.

Definition toy_prepared : PreparedTransfer :=
  match prepare_transfer toy_phrase demo_record_id toy_source Testnet toy_send new_account 1700000000 with
  | Ok prepared => prepared
  | Err _ => demo_prepared
  end.

Lemma toy_transfer_prepared :
  prepare_transfer toy_phrase demo_record_id toy_source Testnet toy_send new_account 1700000000
  = Ok toy_prepared.
Proof. vm_compute. reflexivity. Qed.

Lemma prepared_transfer_executes_intent_witness :
  prepare Kind_External toy_phrase demo_record_id toy_source Testnet toy_send new_account 1700000000
  = Ok toy_prepared /\
  executes_intent Kind_External toy_phrase Testnet toy_send new_account 1700000000 (pt_signed_boc toy_prepared).
Proof.
  split; [exact toy_transfer_prepared|].
  apply (prepared_transfer_executes_intent Kind_External toy_phrase demo_record_id toy_source Testnet toy_send
    new_account 1700000000 toy_prepared toy_transfer_prepared).
  cbn. unfold u32_max. lia.
Defined.

Definition toy_preview : Boc :=
  match prepare_transfer_emulation toy_source toy_public_key Testnet (sr_intent toy_send) new_account
          1700000000 with
  | Ok preview => preview
  | Err _ => mkBoc []
  end.

Lemma toy_preview_prepared :
  prepare_transfer_emulation toy_source toy_public_key Testnet (sr_intent toy_send) new_account 1700000000
  = Ok toy_preview.
Proof. vm_compute. reflexivity. Qed.

Definition toy_wallet : SensitiveWallet :=
  match derive_wallet (to_phrase toy_half) Testnet with
  | Ok wallet => wallet
  | Err _ => mkSensitiveWallet (mkTonWallet (mkKeyPair [] []) toy_address 0) (mkSigningKey [])
  end.

Lemma toy_wallet_derived : derive_wallet (to_phrase toy_half) Testnet = Ok toy_wallet.
Proof. vm_compute. reflexivity. Qed.

Lemma emulation_matches_transfer_witness :
  pt_signed_boc toy_prepared <> toy_preview /\
  exists root root' info init body body' signature request_bits,
    parse_root_cell (boc_bytes (pt_signed_boc toy_prepared)) = Some root /\
    parse_root_cell (boc_bytes toy_preview) = Some root' /\
    msg_from_cell root = Some (mkMsg info init body) /\ msg_from_cell root' = Some (mkMsg info init body') /\
    length signature = 512 /\ cell_bits body = signature ++ request_bits /\
    cell_bits body' = repeat false 512 ++ request_bits /\ cell_refs body = cell_refs body'.
Proof.
  split; [by vm_compute|].
  apply (emulation_matches_transfer toy_phrase demo_record_id toy_source Testnet toy_send new_account
    1700000000 toy_prepared toy_public_key toy_preview (to_phrase toy_half) toy_wallet).
  - vm_compute. reflexivity.
  - exact toy_wallet_derived.
  - vm_compute. reflexivity.
  - vm_compute. reflexivity.
  - exact toy_transfer_prepared.
  - exact toy_preview_prepared.
Defined.

(** ** Sending it *)

Definition toy_config : WalletClientConfig :=
  mkWalletClientConfig demo_record_id toy_source toy_public_key
    (Some (mkProtectedSecretRef (lit "secret"))) Testnet 60 60
    (mkProviderConfig (lit "https://testnet.toncenter.com/") None 15000).

Definition toy_client : State :=
  match with_transport toy_config with Ok s => s | Err _ => demo [] end.

Definition toy_start : State * result WalletClientError SendReservation := start_send toy_send toy_client.
Definition toy_reserved : SendReservation :=
  match toy_start.2 with Ok reserved => reserved | Err _ => no_reservation end.

Definition toy_host : Futures.Host :=
  mkHost (provider 2 5 7) (fun _ => Ok None)
    (fun m => Ok (mkJournalCompareExchangeResult true (Some (jce_replacement m)))) (fun _ => Ok toy_phrase).

#[local] Existing Instance engine_signer | 0.

Definition toy_run := run_with toy_host (send_reserved toy_send toy_reserved) toy_start.1.

Lemma toy_start_reserved : (start_send toy_send toy_client).2 = Ok toy_reserved.
Proof. vm_compute. reflexivity. Qed.

Lemma toy_runs :
  runs (send_reserved toy_send toy_reserved) toy_start.1 toy_run.1.1 toy_run.1.2 (Done toy_run.2).
Proof. unfold toy_run. apply run_with_result. Qed.

Lemma toy_reserved_config : sv_config toy_reserved = toy_config.
Proof. vm_compute. reflexivity. Qed.

Definition submission_id (split : option (list event * event * list event)) : option HttpRequestId :=
  match split with Some (_, Executed r _, _) => Some (hr_id r) | _ => None end.

Lemma toy_submission_id :
  submission_id (split_at 5 toy_run.1.1) = sv_submit_request_id toy_reserved /\
  is_Some (submission_id (split_at 5 toy_run.1.1)).
Proof. vm_compute. split; [reflexivity|by eexists]. Qed.

Lemma toy_run_submits :
  exists before r answer after, split_at 5 toy_run.1.1 = Some (before, Executed r answer, after) /\
    sv_submit_request_id toy_reserved = Some (hr_id r).
Proof.
  destruct toy_submission_id as [Hid [id Hs]]. rewrite Hs in Hid.
  destruct (split_at 5 toy_run.1.1) as [[[before ev] after]|]; [|discriminate].
  destruct ev as [r answer|?|?|?]; try discriminate. cbn [submission_id] in Hs.
  exists before, r, answer, after. split; [reflexivity|]. by rewrite <- Hid, <- Hs.
Qed.

Lemma send_submits_the_intent_witness :
  exists before r answer after,
    split_at 5 toy_run.1.1 = Some (before, Executed r answer, after) /\
    exists secret fresh valid_until p,
      executes_intent Kind_External secret Testnet toy_send fresh valid_until (pt_signed_boc p) /\
      build_send_boc_request toy_config (hr_id r) (pt_signed_boc p) = Ok r.
Proof.
  destruct toy_run_submits as (before & r & answer & after & E & Hr).
  exists before, r, answer, after. split; [exact E|].
  destruct (send_submits_the_intent toy_send toy_client toy_reserved toy_start.1 toy_run.1.1 toy_run.1.2
    (Done toy_run.2) before r answer after toy_start_reserved toy_runs (split_at_spec _ _ _ _ _ E)
    Hr) as (secret & fresh & until & p & h0 & m & o & _ & _ & Hex & Hb & _).
  rewrite toy_reserved_config in Hex, Hb. exists secret, fresh, until, p. exact (conj Hex Hb).
Defined.

(** ** A rotation *)

Definition fresh_entropy (attempt : nat) : option bytes := Some (map N.of_nat (seq 40 16)).

Definition toy_rotation : PreparedKeyRotationMaterial :=
  match prepare_key_rotation fresh_entropy (mkSensitiveMnemonic toy_phrase) Testnet toy_source 0 true
          1700000000 Rotation_Internal with
  | Ok material => material
  | Err _ => mkPreparedKeyRotationMaterial (mkSensitiveMnemonic []) [] (mkBoc [])
  end.

Lemma toy_rotation_prepared :
  prepare_key_rotation fresh_entropy (mkSensitiveMnemonic toy_phrase) Testnet toy_source 0 true
    1700000000 Rotation_Internal = Ok toy_rotation.
Proof. vm_compute. reflexivity. Qed.

Lemma rotation_keeps_the_wallet_witness :
  exists phrase old replacement new,
    from_utf8 toy_phrase = Some phrase /\ derive_wallet phrase Testnet = Ok old /\
    from_utf8 (sm_bytes (pkr_replacement_mnemonic toy_rotation)) = Some replacement /\
    derive_wallet replacement Testnet = Ok new /\ sw_wallet new = sw_wallet old /\
    signing_public_key new <> signing_public_key old.
Proof.
  destruct (rotation_keeps_the_wallet fresh_entropy (mkSensitiveMnemonic toy_phrase) Testnet toy_source 0 true
    1700000000 Rotation_Internal toy_rotation) as (phrase & old & replacement & new & root & init & body
    & Hp & Ho & Hr & Hn & Hw & _ & _ & Hne & _).
  - intros i e [= <-]. split; [reflexivity|]. by repeat constructor.
  - exact toy_rotation_prepared.
  - exists phrase, old, replacement, new. exact (conj Hp (conj Ho (conj Hr (conj Hn (conj Hw Hne))))).
Defined.
