(* ===== verification/CommentWitnesses.v ===== *)
(** * Concrete operations of the resolution slot

    The wallet of WalletWitnesses prepares a transfer in both forms, encrypts a comment for a
    recipient and reads comments for earlier keys, with reference ciphers and curves. *)

From stdpp Require Import base numbers list option strings gmap relations.
From S2P Require Import Prelude BoundaryTypes SendDomain SendWorkflow RefCodec Base64.
From S2P Require Import ClientDomain Json ProviderRequest ProviderAnswers ClientState.
From S2P Require Import ClientCalls Futures Resolution SendEngine SendRuns SendWitnesses CellBoc.
From S2P Require Import CellBocSpec ConnectValues ConnectSigning ConnectSigningSpec.
From S2P Require Import ConnectWalletState SnakeData WordList Mnemonic WalletContract WalletKeys.
From S2P Require Import Transfer Addresses Lifecycle TransferLink EncryptedComment RecipientKey.
From S2P Require Import LookupAnswers SlotOperations SlotRelease SlotRuns ConnectWitnesses.
From S2P Require Import ConnectLinkWitnesses RefCells WalletWitnesses ClientWitnesses.
From S2P Require Import EngineWitnesses TransferWitnesses.

(** ** Ciphers and curves *)

(** A block is combined with the first half of the key. *)
Definition toy_pad (key : bytes) : bytes := resize 16 0%N (map (fun b => N.land b 255) key).

Lemma toy_pad_length key : length (toy_pad key) = 16.
Proof. apply length_resize. Qed.

Lemma toy_pad_u8s key : u8s (toy_pad key).
Proof.
  unfold toy_pad. apply Forall_resize; [done|]. apply Forall_map, Forall_true. intros b.
  change 255%N with (N.ones 8). rewrite N.land_ones. by apply N.mod_lt.
Qed.

#[export, refine] Instance ToyAes : AesBlocks := {
  encrypt_block key block := xor_bytes (toy_pad key) block;
  decrypt_block key block := xor_bytes (toy_pad key) block;
}.
Proof.
  - intros key block Hl. by rewrite xor_bytes_length, toy_pad_length; [|rewrite toy_pad_length].
  - intros key block Hu. apply xor_bytes_u8s; [apply toy_pad_u8s|done].
  - intros key block Hl Hu. rewrite (xor_bytes_comm (toy_pad key) block), xor_bytes_comm.
    apply xor_cancel. by rewrite toy_pad_length.
Defined.

(** A point is its encoding. *)
#[export, refine] Instance ToyCurve : Curve25519 := {
  EdwardsPoint := bytes;
  decompress data := Some data;
  is_small_order _ := false;
  mul_clamped point scalar := zip_with (fun a b => a * b mod 256)%N point scalar;
}.
Proof.
  - intros secret. by eexists.
  - intros a b pa pb [= <-] [= <-]. cbn [verifying_key RefEd25519Keys sha512 RefSha512].
    rewrite !take_app_length' by (by rewrite mix_length). rewrite <- zip_with_flip.
    apply zip_with_ext; [|done|done]. intros x y. by rewrite N.mul_comm.
Defined.

(** ** Comments *)

Definition toy_random (n : nat) : option bytes := Some (repeat 9%N n).

Lemma toy_fills : fills toy_random.
Proof. intros n data [= <-]. split; [apply repeat_length|]. induction n; by constructor. Qed.

Definition toy_recipient : SigningKey := toy_key 6.
Definition toy_comment : rstr := lit "for dinner".

Definition toy_body : Boc :=
  match encrypt_comment toy_random toy_phrase Testnet toy_source (public_key toy_recipient) toy_comment with
  | Ok body => body
  | Err _ => mkBoc []
  end.

Lemma toy_encrypted :
  encrypt_comment toy_random toy_phrase Testnet toy_source (public_key toy_recipient) toy_comment = Ok toy_body.
Proof. vm_compute. reflexivity. Qed.

Lemma toy_comment_scalar : Forall scalar toy_comment.
Proof. apply (bool_decide_unpack _). vm_compute. exact I. Qed.

Definition mismatch (r : result EncryptedCommentError rstr) : bool :=
  match r with Ok _ => false | Err error => is_key_mismatch error end.

Lemma other_key_mismatch :
  mismatch (decrypt_with_key (sk_bytes (toy_key 8)) (public_key (toy_key 8)) toy_source toy_body) = true.
Proof. vm_compute. reflexivity. Qed.

#[export] Instance toy_capacity : CellCapacity.
Proof.
  constructor. intros bits refs Hb Hr _. exists (mkRefCell bits refs).
  change ((if (length bits <=? 1023) && (length refs <=? 4) then Some (mkRefCell bits refs) else None)
          = Some (mkRefCell bits refs)).
  apply Nat.leb_le in Hb as ->. apply Nat.leb_le in Hr. by rewrite Hr.
Qed.


Definition old_body : Boc :=
  match encrypt_comment toy_random toy_phrase Testnet toy_source (public_key (toy_key 2)) toy_comment with
  | Ok body => body
  | Err _ => mkBoc []
  end.

Lemma old_body_encrypted :
  encrypt_comment toy_random toy_phrase Testnet toy_source (public_key (toy_key 2)) toy_comment = Ok old_body.
Proof. vm_compute. reflexivity. Qed.

Lemma newer_key_mismatch :
  mismatch (decrypt_with_key (sk_bytes (toy_key 3)) (public_key (toy_key 3)) toy_source old_body) = true.
Proof. vm_compute. reflexivity. Qed.


(** ** Keys of recipients *)

Definition version_code (version : StandardWalletVersion) : RefCell :=
  match List.find (fun entry => bool_decide (entry.2 = version)) (zip (seq 1 11) (map snd code_hashes)) with
  | Some (n, _) => mkRefCell (repeat true n) []
  | None => mkRefCell [] []
  end.

Definition version_text (version : StandardWalletVersion) : string :=
  match List.find (fun entry => bool_decide (entry.2 = version)) code_hashes with
  | Some (text, _) => text
  | None => EmptyString
  end.

#[export, refine] Instance ToyCodes : WalletCodes := { get_code version := Some (version_code version) }.
Proof.
  intros version code [= <-]. exists (toy_hash (version_code version)), (version_text version).
  split; [reflexivity|]. split; [destruct version; apply list_elem_of_In; cbn; tauto|].
  destruct version; vm_compute; reflexivity.
Defined.

Definition accepts (r : result EncryptedCommentError unit) : bool := match r with Ok _ => true | Err _ => false end.

Lemma own_key_accepted : accepts (verify_recipient_public_key toy_source toy_public_key Testnet) = true.
Proof. vm_compute. reflexivity. Qed.

Lemma recipient_key_binds_wallet_witness :
  exists version root, derives toy_source Testnet toy_public_key version /\
    cell_hash root = Some (ta_hash (tas_address toy_source)).
Proof.
  pose proof (recipient_key_binds_wallet toy_source toy_public_key Testnet eq_refl
    ltac:(apply (bool_decide_unpack _); vm_compute; exact I)) as Hb.
  pose proof own_key_accepted as Ha.
  destruct (verify_recipient_public_key toy_source toy_public_key Testnet) as [u|e]; [|discriminate].
  destruct Hb as (version & root & Hd & Hh & _). exists version, root. exact (conj Hd Hh).
Defined.

(** Every number in hexadecimal is the recipient's key. *)
#[export] Instance ToyHex : BigUintHex := {
  biguint_from_hex _ := Some (be_value (public_key toy_recipient));
}.

(** ** Preparing a transfer *)

Definition toy_prepare : PrepareTransferRequest :=
  mkPrepareTransferRequest (mkNonEmptyString (lit "op-2")) (sr_intent toy_send).

Definition no_request : HttpRequest :=
  mkHttpRequest (mkHttpRequestId 0) Get [] [] [] 0.

Definition no_read : ProtectedSecretRead :=
  mkProtectedSecretRead (mkProtectedSecretRef []) Reason_SignTransfer [].

Definition preparation_start := start_prepare_transfer toy_client.
Definition preparation_reserved : N * WalletClientConfig * HttpRequest * HttpRequest * ProtectedSecretRead :=
  match preparation_start.2 with
  | Ok reserved => reserved
  | Err _ => (0%N, toy_config, no_request, no_request, no_read)
  end.

Definition preparation_account : HttpRequest := preparation_reserved.1.1.2.
Definition preparation_seqno : HttpRequest := preparation_reserved.1.2.
Definition preparation_read : ProtectedSecretRead := preparation_reserved.2.
Definition preparation_generation : N := preparation_reserved.1.1.1.1.
Definition preparation_config : WalletClientConfig := preparation_reserved.1.1.1.2.

Definition five : UnsignedDecimalString := mkUnsignedDecimalString 5.

Definition preparing : attempt TransferForms :=
  Slot.prepare_transfer_reserved toy_prepare (Some five)
    (preparation_generation, preparation_config, preparation_account, preparation_seqno, preparation_read).

Definition preparation_run := run_with toy_host preparing preparation_start.1.

Lemma preparation_started :
  start_prepare_transfer toy_client
  = (preparation_start.1, Ok (preparation_generation, preparation_config, preparation_account,
                               preparation_seqno, preparation_read)).
Proof. vm_compute. reflexivity. Qed.

Lemma preparation_runs :
  runs preparing preparation_start.1 preparation_run.1.1 preparation_run.1.2 (Done preparation_run.2).
Proof. unfold preparation_run. apply run_with_result. Qed.

Definition toy_forms : TransferForms :=
  match preparation_run.2 with
  | Ok forms => forms
  | Err _ => mkTransferForms (mkNonEmptyString []) (mkBoc []) (mkBoc []) 0 0
  end.

Lemma preparation_done : preparation_run.2 = Ok toy_forms.
Proof. vm_compute. reflexivity. Qed.

Lemma preparation_seqno_read : tf_seqno toy_forms = 7%N /\ length preparation_run.1.1 = 3.
Proof. vm_compute. split; reflexivity. Qed.

Lemma prepared_forms_are_one_transfer_witness :
  both_forms toy_prepare preparation_config preparation_read preparation_run.1.1 toy_forms /\
  tf_seqno toy_forms = 7%N /\ length preparation_run.1.1 = 3.
Proof.
  destruct (prepared_forms_are_one_transfer toy_prepare (Some five) preparation_generation
    preparation_config preparation_account preparation_seqno preparation_read preparation_start.1
    preparation_run.1.1 preparation_run.1.2 (Done preparation_run.2) preparation_runs) as [_ Hforms].
  exact (conj (Hforms toy_forms (f_equal Done preparation_done)) preparation_seqno_read).
Defined.

Lemma toy_client_reachable : reachable_client toy_client.
Proof.
  exists toy_config, toy_client. split; [vm_compute; reflexivity|apply rtc_refl].
Qed.

Lemma resolution_slot_released_witness :
  is_current Resolution preparation_generation preparation_start.1 = true /\
  is_current Resolution preparation_generation preparation_run.1.2 = false.
Proof.
  apply (resolution_slot_released toy_client preparation_start.1 preparation_generation TransferForms
    preparing preparation_run.1.1 preparation_run.1.2 preparation_run.2 toy_client_reachable).
  - apply Op_prepare_transfer. exact preparation_started.
  - exact preparation_runs.
Defined.

(** ** Creating a comment *)

Definition creation_request : CreateEncryptedCommentRequest :=
  mkCreateEncryptedCommentRequest toy_source toy_comment None.

Definition creation_start := start_create_encrypted_comment toy_source None toy_client.
Definition creation_reserved : N * WalletClientConfig * RecipientKeyLookup * ProtectedSecretRead :=
  match creation_start.2 with
  | Ok reserved => reserved
  | Err _ => (0%N, toy_config, mkRecipientKeyLookup toy_source Testnet None no_request no_request, no_read)
  end.

Definition creation_lookup : RecipientKeyLookup := creation_reserved.1.2.
Definition creation_read : ProtectedSecretRead := creation_reserved.2.

Definition creation : attempt Boc :=
  Slot.create_encrypted_comment_reserved toy_random creation_request
    (creation_reserved.1.1.1, creation_reserved.1.1.2, creation_lookup, creation_read).

Definition creation_run := run_with toy_host creation creation_start.1.

Lemma creation_runs :
  runs creation creation_start.1 creation_run.1.1 creation_run.1.2 (Done creation_run.2).
Proof. unfold creation_run. apply run_with_result. Qed.

Definition created_body : Boc := match creation_run.2 with Ok body => body | Err _ => mkBoc [] end.

Lemma creation_done : creation_run.2 = Ok created_body.
Proof. vm_compute. reflexivity. Qed.

(** The host sees the two lookups, then the secret. *)
Definition reads_secret (ev : event) : bool := match ev with Secret_Read _ _ => true | _ => false end.

Lemma creation_order : map reads_secret creation_run.1.1 = [false; false; true].
Proof. vm_compute. reflexivity. Qed.

Lemma comment_encrypted_for_the_recipient_witness :
  map reads_secret creation_run.1.1 = [false; false; true] /\
  exists key secret, recipient_key creation_lookup key creation_run.1.1 /\
    Secret_Read creation_read (Ok secret) ∈ creation_run.1.1.
Proof.
  destruct (comment_encrypted_for_the_recipient toy_random creation_request creation_reserved.1.1.1
    creation_reserved.1.1.2 creation_lookup creation_read creation_start.1 creation_run.1.1
    creation_run.1.2 (Done creation_run.2) toy_fills toy_comment_scalar creation_runs) as [_ Hbody].
  destruct (Hbody created_body (f_equal Done creation_done)) as (key & secret & Hkey & Hread & _).
  split; [exact creation_order|]. exists key, secret. exact (conj Hkey Hread).
Defined.
