(* ===== verification/PreviewWitnesses.v ===== *)
(** * A concrete preview

    The wallet of WalletWitnesses previews its transfer against a provider whose trace has
    two transactions, of which the second fails; the theorems about previews are applied to
    this run. *)

From stdpp Require Import base numbers list option strings gmap.
From S2P Require Import Prelude BoundaryTypes SendDomain SendWorkflow RefCodec Base64.
From S2P Require Import ClientDomain Json ProviderRequest ClientState ClientCalls Futures.
From S2P Require Import Resolution SendEngine SendRuns SendWitnesses CellBoc CellBocSpec.
From S2P Require Import ConnectValues ConnectSigning ConnectSigningSpec ConnectWalletState.
From S2P Require Import SnakeData WordList Mnemonic WalletContract WalletKeys.
From S2P Require Import Transfer Addresses Lifecycle ConnectWitnesses.
From S2P Require Import ConnectLinkWitnesses RefCells WalletWitnesses ClientWitnesses.
From S2P Require Import EngineWitnesses TransferWitnesses EmulationAnswers Preview PreviewRuns.

(** ** The trace *)

Definition other_raw : rstr := raw_to_string (mkRawAccountAddress 0 (repeat 17%N 32)).
Definition wallet_raw : rstr :=
  raw_to_string (mkRawAccountAddress (ta_workchain toy_address) (ta_hash toy_address)).
Definition zero_hash : rstr := standard_encode (repeat 0%N 32).

Definition transaction_document (account : rstr) (fees : string) (aborted : bool) : Value :=
  object [("account", Str account); ("total_fees", text fees);
          ("description",
           object [("aborted", Bool aborted);
                   ("compute_ph", object [("success", Bool true); ("exit_code", Num (PosInt 0))]);
                   ("action", object [("success", Bool true); ("result_code", Num (PosInt 0))])])]%string.

Definition emulation_document : Value :=
  object [("mc_block_seqno", Num (PosInt 9)); ("trace", object [("tx_hash", text "root")]);
          ("transactions",
           object [("next", transaction_document other_raw "30" true);
                   ("root", transaction_document wallet_raw "7" false)]);
          ("actions",
           Array [object [("action_id", Str zero_hash); ("type", text "ton_transfer");
                          ("success", Bool true); ("accounts", Array [Str other_raw])]])]%string.

#[export] Instance PreviewJson : SerdeJson := {
  value_to_vec v := Ok (utf8 (json_text v));
  document_from_slice body :=
    ok_or (lit "unknown document")
      (List.find (fun v => bool_decide (utf8 (json_text v) = body))
         (emulation_document :: demo_documents));
  value_to_string v := json_text v;
  serde_error _ := lit "invalid type";
  serde_value_error _ := lit "invalid type";
}.

#[export, refine] Instance MapOrder : HashIteration := { hash_iter A m := map_to_list m }.
Proof. done. Defined.

#[export] Instance PlainErrors : ParseErrors := {
  biguint_error _ := lit "invalid digit found in string";
  ton_address_error _ := lit "invalid address";
}.

Definition trace_body : bytes := utf8 (json_text emulation_document).

(** What the summary says: seqno, fees, count, roots first, and the verdicts. *)
Definition digest (r : result DomainError EvaluatedEmulation)
  : option (N * N * N * N * list (bool * bool) * bool * bool) :=
  match r with
  | Ok ev =>
      let s := ev_summary ev in
      Some (em_mc_block_seqno s, uds_value (em_wallet_fees_nanograms s),
            uds_value (em_trace_fees_nanograms s), em_transaction_count s,
            map (fun row => (et_is_root row, et_succeeded row)) (em_transactions s),
            em_trace_succeeded s, ev_wallet_succeeded ev)
  | Err _ => None
  end.

Lemma trace_digest :
  digest (parse_emulation trace_body toy_source)
  = Some (9, 7, 37, 2, [(true, true); (false, false)], false, true)%N.
Proof. vm_compute. reflexivity. Qed.

Definition toy_evaluated : EvaluatedEmulation :=
  match parse_emulation trace_body toy_source with
  | Ok ev => ev
  | Err _ => mkEvaluatedEmulation (mkSendEmulation 0 (mkUnsignedDecimalString 0) (mkUnsignedDecimalString 0)
                                     0 [] [] false false) false None None
  end.

Lemma toy_evaluated_parsed : parse_emulation trace_body toy_source = Ok toy_evaluated.
Proof. vm_compute. reflexivity. Qed.

Lemma emulation_read_exactly_witness :
  exists response, acceptable response toy_source /\ summarizes response toy_source toy_evaluated /\
    uds_value (em_trace_fees_nanograms (ev_summary toy_evaluated)) = 37%N.
Proof.
  destruct (emulation_read_exactly trace_body toy_source) as [Hread _].
  destruct (Hread toy_evaluated toy_evaluated_parsed) as (response & _ & Ha & Hs & _).
  exists response. split; [exact Ha|]. split; [exact Hs|]. vm_compute. reflexivity.
Defined.

(** ** The run *)

Definition toy_preview_request : SendPreviewRequest := mkSendPreviewRequest (sr_intent toy_send).

Definition preview_start := start_preview toy_client.

Definition preview_reserved : PreviewReservation :=
  match preview_start.2 with
  | Ok reserved => reserved
  | Err _ => mkPreviewReservation 0 toy_config (mkHttpRequest (mkHttpRequestId 0) Get [] [] [] 0)
               (mkHttpRequest (mkHttpRequestId 0) Get [] [] [] 0) (mkHttpRequestId 0)
  end.

Lemma preview_reserved_started : start_preview toy_client = (preview_start.1, Ok preview_reserved).
Proof. vm_compute. reflexivity. Qed.

Definition preview_provider (request : HttpRequest) : result DomainError bytes :=
  if (rid_value (hr_id request) =? 3)%N then body_of emulation_document else provider 2 5 7 request.

Definition preview_host : Futures.Host :=
  mkHost preview_provider (fun _ => Ok None) (fun _ => Err []) (fun _ => Err []).

Lemma run_with_ended `{SerdeJson} {A} host (f : future A) s :
  runs f s (run_with host f s).1.1 (run_with host f s).1.2 (Done (run_with host f s).2).
Proof. apply run_with_runs with (host := host). by destruct (run_with host f s) as [[events s'] a]. Qed.

Definition previewing_toy : attempt SendPreview :=
  Preview.preview_send_reserved toy_preview_request preview_reserved.

Definition preview_run := run_with preview_host previewing_toy preview_start.1.

Lemma preview_runs :
  runs previewing_toy preview_start.1 preview_run.1.1 preview_run.1.2 (Done preview_run.2).
Proof. unfold preview_run. apply run_with_ended. Qed.

Definition toy_shown : SendPreview :=
  match preview_run.2 with
  | Ok preview => preview
  | Err _ => mkSendPreview [] 0 (mkBoc []) (ev_summary toy_evaluated)
  end.

Lemma preview_succeeds : preview_run.2 = Ok toy_shown /\ length preview_run.1.1 = 3.
Proof. vm_compute. split; reflexivity. Qed.

Lemma preview_shows_the_transfer_witness :
  preview_grounded toy_preview_request preview_reserved preview_run.1.1 toy_shown /\
  length preview_run.1.1 = 3.
Proof.
  destruct (preview_shows_the_transfer toy_preview_request preview_reserved preview_start.1
    preview_run.1.1 preview_run.1.2 (Done preview_run.2) preview_runs) as [_ Hshown].
  exact (conj (Hshown toy_shown (f_equal Done (proj1 preview_succeeds))) (proj2 preview_succeeds)).
Defined.

Lemma toy_reachable `{SerdeJson} : reachable_client toy_client.
Proof. exists toy_config, toy_client. split; [vm_compute; reflexivity|apply rtc_refl]. Qed.

Lemma preview_slot_released_witness :
  is_current ClientState.Preview (pv_generation preview_reserved) preview_start.1 = true /\
  (is_current ClientState.Preview (pv_generation preview_reserved) preview_run.1.2 = false \/
   st_closing preview_run.1.2 = true).
Proof.
  apply (preview_slot_released toy_client preview_start.1 (pv_generation preview_reserved) SendPreview
    previewing_toy preview_run.1.1 preview_run.1.2 preview_run.2 toy_reachable).
  - apply Op_preview_send. exact preview_reserved_started.
  - exact preview_runs.
Defined.

(** ** A prepared message *)

Definition boc_reserved : SendBocRequest :=
  mkSendBocRequest (mkNonEmptyString (lit "op-3")) false toy_preview 7 1700000000.

Definition previewing_boc : attempt SendPreview :=
  Preview.preview_send_boc_reserved boc_reserved preview_reserved.

Definition boc_run := run_with preview_host previewing_boc preview_start.1.

Lemma boc_runs : runs previewing_boc preview_start.1 boc_run.1.1 boc_run.1.2 (Done boc_run.2).
Proof. unfold boc_run. apply run_with_ended. Qed.

Definition boc_shown : SendPreview :=
  match boc_run.2 with Ok preview => preview | Err _ => toy_shown end.

Lemma boc_succeeds : boc_run.2 = Ok boc_shown /\ length boc_run.1.1 = 3.
Proof. vm_compute. split; reflexivity. Qed.

Lemma boc_preview_runs_the_message_witness :
  boc_grounded boc_reserved preview_reserved boc_run.1.1 boc_shown.
Proof.
  destruct (boc_preview_runs_the_message boc_reserved preview_reserved preview_start.1
    boc_run.1.1 boc_run.1.2 (Done boc_run.2) boc_runs) as [_ Hshown].
  exact (Hshown boc_shown (f_equal Done (proj1 boc_succeeds))).
Defined.
