(* ===== verification/NftWitnesses.v ===== *)
(** * A concrete NFT transfer

    The wallet of WalletWitnesses gives an item away: the lookup, the send and the move. *)

From stdpp Require Import base numbers list option strings gmap.
From S2P Require Import Prelude BoundaryTypes SendDomain SendWorkflow RefCodec Base64.
From S2P Require Import ClientDomain Json ProviderRequest ClientState ClientCalls Futures.
From S2P Require Import Resolution SendEngine SendRuns SendWitnesses CellBoc CellBocSpec.
From S2P Require Import ConnectValues ConnectSigning ConnectSigningSpec ConnectWalletState.
From S2P Require Import SnakeData WordList Mnemonic WalletContract WalletKeys.
From S2P Require Import Transfer Addresses Lifecycle ConnectWitnesses.
From S2P Require Import ConnectLinkWitnesses RefCells WalletWitnesses ClientWitnesses.
From S2P Require Import EngineWitnesses TransferWitnesses EmulationAnswers Preview PreviewRuns.
From S2P Require Import PreviewWitnesses NftAnswers NftTransfer NftTransferRuns.

(** ** Bodies *)

Definition address_bits (address : TonAddress) : list bool :=
  bool_decide (ta_workchain address = 0%Z) :: bytes_bits (ta_hash address).

Definition read_address (bits : list bool) : TonAddress :=
  mkTonAddress (workchain_of (default true (head bits))) (bits_bytes 32 (drop 1 bits)).

Definition write_move (m : NFTTransferMsg) : RefCell :=
  mkRefCell (bytes_bits (be_bytes 8 (ntm_query_id m)) ++ address_bits (ntm_new_owner m)
             ++ address_bits (ntm_response_dst m) ++ bytes_bits (be_bytes 16 (ntm_forward_ton_amount m)))
    [ntm_forward_payload m].

Definition read_move (c : RefCell) : option NFTTransferMsg :=
  match c with
  | mkRefCell bits [payload] =>
      Some (mkNFTTransferMsg (be_value (bits_bytes 8 bits)) (read_address (drop 64 bits))
              (read_address (drop 321 bits)) None (be_value (bits_bytes 16 (drop 578 bits))) payload)
  | _ => None
  end.

Definition same_move (a b : NFTTransferMsg) : bool :=
  bool_decide (ntm_query_id a = ntm_query_id b) && bool_decide (ntm_new_owner a = ntm_new_owner b)
  && bool_decide (ntm_response_dst a = ntm_response_dst b)
  && bool_decide (ntm_forward_ton_amount a = ntm_forward_ton_amount b)
  && refcell_eqb (ntm_forward_payload a) (ntm_forward_payload b)
  && match ntm_custom_payload a, ntm_custom_payload b with None, None => true | _, _ => false end.

Lemma same_move_eq a b : same_move a b = true -> a = b.
Proof.
  destruct a as [q o r [c|] f p], b as [q' o' r' [c'|] f' p']; unfold same_move; cbn;
    rewrite ?andb_false_r; try discriminate. rewrite andb_true_r, !andb_true_iff, !bool_decide_eq_true.
  intros ((((-> & ->) & ->) & ->) & ->%refcell_eqb_eq). reflexivity.
Qed.

Definition move_from_boc (data : bytes) : option NFTTransferMsg :=
  match parse_root_cell data with Some c => read_move c | None => None end.

#[export, refine] Instance ToyMoves : TonNftMessages := {
  nft_transfer_to_boc m :=
    data ← cell_to_boc (write_move m);
    m' ← move_from_boc data;
    if same_move m' m then Some data else None;
  nft_transfer_from_boc := move_from_boc;
}.
Proof.
  intros m data (d & _ & (m' & Hm & E)%bind_Some)%bind_Some.
  destruct (same_move m' m) eqn:Es; [|discriminate E]. injection E as <-. by rewrite Hm, (same_move_eq m' m).
Defined.

(** ** The item *)

Definition item_address : TonAddressString :=
  mkTonAddressString other_raw (mkTonAddress 0 (repeat 17%N 32)).
Definition new_owner : TonAddressString :=
  let address := mkTonAddress 0 (repeat 34%N 32) in mkTonAddressString (to_user_friendly address Testnet) address.

Definition item_document : Value :=
  object [("nft_items",
           Array [object [("address", Str other_raw); ("code_hash", text "c"); ("data_hash", text "d");
                          ("index", text "3"); ("init", Bool true); ("last_transaction_lt", Num (PosInt 5));
                          ("on_sale", Bool false); ("owner_address", Str wallet_raw);
                          ("content", object [("domain", text "a.ton")])]]);
          ("metadata",
           object [("x", object [("token_info", Array [object [("type", text "nft_items")]])])])]%string.

#[export] Instance NftJson : SerdeJson := {
  value_to_vec v := Ok (utf8 (json_text v));
  document_from_slice body :=
    ok_or (lit "unknown document")
      (List.find (fun v => bool_decide (utf8 (json_text v) = body))
         (item_document :: emulation_document :: demo_documents));
  value_to_string v := json_text v;
  serde_error _ := lit "invalid type";
  serde_value_error _ := lit "invalid type";
}.

Definition toy_transfer : NftTransferRequest :=
  mkNftTransferRequest (mkNonEmptyString (lit "nft-1")) false
    (mkNftTransferIntent item_address new_owner
       (Funding_Exact (mkUnsignedDecimalString 9) (mkUnsignedDecimalString 1)) (Payload_Comment (lit "gift"))
       Expiration_EngineDefault).

(** FNV-1a of the empty text and of [a]. *)
Lemma fnv_vectors :
  operation_query_id (mkNonEmptyString []) = 14695981039346656037%N /\
  operation_query_id (mkNonEmptyString (lit "a")) = 12638187200555641996%N.
Proof. vm_compute. split; reflexivity. Qed.

(** ** The run *)

Definition nft_provider (request : HttpRequest) : result DomainError bytes :=
  if (rid_value (hr_id request) =? 1)%N then body_of item_document
  else provider 2 5 7 (mkHttpRequest (mkHttpRequestId (rid_value (hr_id request) - 1)) Get [] [] [] 0).

Definition nft_host : Futures.Host :=
  mkHost nft_provider (fun _ => Ok None)
    (fun m => Ok (mkJournalCompareExchangeResult true (Some (jce_replacement m)))) (fun _ => Ok toy_phrase).

#[local] Existing Instance engine_signer | 0.

Definition nft_run := run_with nft_host (Nft.send_nft_transfer toy_transfer) toy_client.

Lemma nft_runs :
  runs (Nft.send_nft_transfer toy_transfer) toy_client nft_run.1.1 nft_run.1.2 (Done nft_run.2).
Proof. unfold nft_run. apply run_with_ended. Qed.

Lemma nft_succeeds : is_ok nft_run.2 = true /\ length nft_run.1.1 = 8.
Proof. vm_compute. split; reflexivity. Qed.

Lemma toy_client_config : st_config toy_client = toy_config.
Proof. vm_compute. reflexivity. Qed.

Lemma nft_transfer_moves_the_item_witness :
  nft_send_run toy_config toy_transfer nft_run.1.1 nft_run.1.2 (Done nft_run.2) /\
  is_ok nft_run.2 = true /\ length nft_run.1.1 = 8.
Proof.
  pose proof (nft_transfer_moves_the_item toy_transfer toy_client nft_run.1.1 nft_run.1.2 (Done nft_run.2)
    toy_reachable nft_runs) as Hrun.
  rewrite toy_client_config in Hrun. exact (conj Hrun nft_succeeds).
Defined.
