(* ===== verification/ActivityAnswers.v ===== *)
(** * Activity answers

    [parse_activity] of src/engine/provider.rs: a page of transactions, each given as
    provider JSON and as the raw chain transaction, becomes a page of rows.  Reading
    cells and raw transactions belongs to the ton crate: the class
    [TonTransactions].  After the definitions follow what a page holds and a concrete
    page. *)

From stdpp Require Import base numbers list option strings gmap sorting.
From S2P Require Import Prelude BoundaryTypes SendDomain SendWorkflow Base64 ClientDomain Json.
From S2P Require Import ProviderAnswers ClientState CellBoc ConnectValues Addresses.
From S2P Require Import ClientActivity ClientWitnesses ConnectWitnesses.

(** ** [String::from_utf8_lossy]

    An ill-formed sequence becomes one replacement character per maximal prefix of a
    well-formed one. *)

Definition REPLACEMENT : char := 65533%N.

Fixpoint from_utf8_lossy (data : bytes) : rstr :=
  match data with
  | [] => []
  | b0 :: rest =>
      if (b0 <? 128)%N then b0 :: from_utf8_lossy rest
      else
        match rest with
        | [] => [REPLACEMENT]
        | b1 :: rest1 =>
            if within 194 223 b0 && continuation b1 then
              ((b0 - 192) * 64 + (b1 - 128))%N :: from_utf8_lossy rest1
            else if within 224 239 b0
                    && within (if b0 =? 224 then 160 else 128)%N (if b0 =? 237 then 159 else 191)%N b1
            then
              match rest1 with
              | [] => [REPLACEMENT]
              | b2 :: rest2 =>
                  if continuation b2 then
                    ((b0 - 224) * 4096 + (b1 - 128) * 64 + (b2 - 128))%N :: from_utf8_lossy rest2
                  else REPLACEMENT :: from_utf8_lossy rest1
              end
            else if within 240 244 b0
                    && within (if b0 =? 240 then 144 else 128)%N (if b0 =? 244 then 143 else 191)%N b1
            then
              match rest1 with
              | [] => [REPLACEMENT]
              | b2 :: rest2 =>
                  if continuation b2 then
                    match rest2 with
                    | [] => [REPLACEMENT]
                    | b3 :: rest3 =>
                        if continuation b3 then
                          ((b0 - 240) * 262144 + (b1 - 128) * 4096 + (b2 - 128) * 64 + (b3 - 128))%N
                          :: from_utf8_lossy rest3
                        else REPLACEMENT :: from_utf8_lossy rest2
                    end
                  else REPLACEMENT :: from_utf8_lossy rest1
              end
            else REPLACEMENT :: from_utf8_lossy rest
        end
  end.

(** ** The raw chain transaction *)

Inductive TxDescr :=
  | Descr_Ord (aborted : bool)
  | Descr_Storage
  | Descr_TickTock (aborted : bool)
  | Descr_SplitPrepare (aborted : bool)
  | Descr_SplitInstall (installed : bool)
  | Descr_MergePrepare (aborted : bool)
  | Descr_MergeInstall (aborted : bool).

(** The cells and transactions of the ton crate: the first 32 bits of a cell, the
    snake data after them, the serialization, and [Tx::from_boc_base64], whose error
    is a text. *)
Class TonTransactions := {
  TonCell : Type;
  read_opcode : TonCell -> option N;
  snake_after_opcode : TonCell -> option bytes;
  cell_to_boc : TonCell -> option bytes;
  Tx : Type;
  tx_from_boc_base64 : rstr -> result rstr Tx;
  tx_descr : Tx -> TxDescr;
  tx_in_msg : Tx -> option (bool * TonCell);
  tx_out_msgs : Tx -> list (bool * TonCell);
}.

(** Whether an internal message is marked as bounced, and its body. *)
Abbreviation TonMessage := (bool * TonCell)%type (only parsing).

Definition ENCRYPTED_COMMENT_OPCODE : N := 560454219%N.

Record ChainMessage := mkChainMessage {
  cm_bounced : bool;
  cm_comment : option rstr;
  cm_encrypted_comment : option Boc;
}.

Record ChainTransaction := mkChainTransaction {
  ct_aborted : bool;
  ct_in_msg : option ChainMessage;
  ct_out_msgs : list ChainMessage;
}.

Definition transaction_aborted (description : TxDescr) : bool :=
  match description with
  | Descr_Ord aborted => aborted
  | Descr_Storage => false
  | Descr_TickTock aborted => aborted
  | Descr_SplitPrepare aborted => aborted
  | Descr_SplitInstall installed => negb installed
  | Descr_MergePrepare aborted => aborted
  | Descr_MergeInstall aborted => aborted
  end.

Section Chain.
Context `{TonTransactions} `{Crc32c} `{TonCoreBoc}.

Definition is_encrypted_comment_body (body : TonCell) : bool :=
  bool_decide (read_opcode body = Some ENCRYPTED_COMMENT_OPCODE).

Definition encrypted_comment_body (body : TonCell) : option Boc :=
  if negb (is_encrypted_comment_body body) then None
  else
    data ← cell_to_boc body;
    result_ok (boc_try_from_bytes data).

Definition plaintext_comment (body : TonCell) : option rstr :=
  opcode ← read_opcode body;
  if negb (opcode =? 0)%N then None
  else
    snake ← snake_after_opcode body;
    Some (from_utf8_lossy snake).

Definition chain_message (message : TonMessage) : ChainMessage :=
  mkChainMessage message.1 (plaintext_comment message.2) (encrypted_comment_body message.2).
End Chain.

(** ** The provider JSON *)

Record TransactionId := mkTransactionId {
  tid_lt : Value;
  tid_hash : rstr;
}.

Record Message := mkMessage {
  msg_hash : option rstr;
  msg_created_lt : option Value;
  msg_source : Value;
  msg_destination : Value;
  msg_value : Value;
}.

Record Transaction := mkTransaction {
  tr_utime : N;
  tr_data : rstr;
  tr_fee : Value;
  tr_transaction_id : TransactionId;
  tr_in_msg : option Message;
  tr_out_msgs : list Message;
}.

Definition decode_TransactionId (v : Value) : option TransactionId :=
  match struct_members ["lt"; "hash"] v with
  | Some (_, [lt; hash]) =>
      lt ← required decode_value lt;
      hash ← required as_str hash;
      Some (mkTransactionId lt hash)
  | _ => None
  end.

(** [#[serde(default)]] on a field of type [Option]. *)
Definition defaulted_option {A} (decode : Value -> option A) (field : option Value)
  : option (option A) := defaulted None (nullable decode) field.

Definition decode_Message (v : Value) : option Message :=
  match struct_members ["hash"; "created_lt"; "source"; "destination"; "value"] v with
  | Some (_, [hash; created_lt; source; destination; value]) =>
      hash ← defaulted_option as_str hash;
      created_lt ← defaulted_option decode_value created_lt;
      source ← defaulted Null decode_value source;
      destination ← defaulted Null decode_value destination;
      value ← defaulted Null decode_value value;
      Some (mkMessage hash created_lt source destination value)
  | _ => None
  end.

Definition decode_Transaction (v : Value) : option Transaction :=
  match struct_members ["utime"; "data"; "fee"; "transaction_id"; "in_msg"; "out_msgs"] v with
  | Some (_, [utime; data; fee; transaction_id; in_msg; out_msgs]) =>
      utime ← required as_u64 utime;
      data ← required as_str data;
      fee ← required decode_value fee;
      transaction_id ← required decode_TransactionId transaction_id;
      in_msg ← defaulted_option decode_Message in_msg;
      out_msgs ← defaulted [] (decode_vec decode_Message) out_msgs;
      Some (mkTransaction utime data fee transaction_id in_msg out_msgs)
  | _ => None
  end.

(** ** Rows *)

Record OrderedMessage := mkOrderedMessage {
  om_created_logical_time : option N;
  om_hash : option Base64Hash;
  om_original_index : nat;
  om_message : Message;
}.

(** [Ord] of [Option]: [None] first. *)
Definition option_cmp {A} (cmp : A -> A -> comparison) (a b : option A) : comparison :=
  match a, b with
  | None, None => Eq
  | None, Some _ => Lt
  | Some _, None => Gt
  | Some a, Some b => cmp a b
  end.

Definition ordered_message_order (left right : OrderedMessage) : comparison :=
  then_with
    (then_with
       (option_cmp N.compare (om_created_logical_time left) (om_created_logical_time right))
       (option_cmp (fun a b => str_cmp (b64_str a) (b64_str b)) (om_hash left) (om_hash right)))
    (Nat.compare (om_original_index left) (om_original_index right)).

Fixpoint insert_message (item : OrderedMessage) (l : list OrderedMessage) : list OrderedMessage :=
  match l with
  | [] => [item]
  | x :: rest =>
      match ordered_message_order item x with
      | Gt => x :: insert_message item rest
      | _ => item :: l
      end
  end.

Fixpoint sort_messages (l : list OrderedMessage) : list OrderedMessage :=
  match l with
  | [] => []
  | x :: rest => insert_message x (sort_messages rest)
  end.

Definition direction_name (direction : ActivityDirection) : rstr :=
  match direction with Received => lit "received" | Sent => lit "sent" end.

Section Rows.
Context `{SerdeJson} `{BigUintText} `{Base64Engine} `{TonAddressParser} `{TonTransactions}
  `{Crc32c} `{TonCoreBoc}.

Definition parse_hash (value : rstr) (field : string) : result DomainError Base64Hash :=
  ok_or (invalid_response (lit field ++ lit " is not a 256-bit Base64 value"))
    (base64_hash_try_from value).

Definition message_address (value : Value) (field : string) : result DomainError TonAddress :=
  let missing := invalid_response (lit field ++ lit " is missing or invalid") in
  let text :=
    match as_str value with
    | Some text => Some text
    | None => value_get "account_address" value ≫= as_str
    end in
  let? address :=
    ok_or missing (text ≫= fun address => if is_empty address then None else Some address) in
  ok_or missing (ton_address_from_str address).

Definition parse_transaction_chain_data (transaction : Transaction)
  : result DomainError ChainTransaction :=
  let? tx :=
    map_err (fun error => invalid_response (lit "invalid raw transaction data: " ++ error))
      (tx_from_boc_base64 (tr_data transaction)) in
  Ok (mkChainTransaction (transaction_aborted (tx_descr tx)) (chain_message <$> tx_in_msg tx)
        (map chain_message (tx_out_msgs tx))).

(** [Option::map(f).transpose()]. *)
Definition transpose_map {A B E} (f : A -> result E B) (o : option A) : result E (option B) :=
  match o with Some a => rmap Some (f a) | None => Ok None end.

Fixpoint collect_messages (original_index : nat) (messages : list Message)
  : result DomainError (list OrderedMessage) :=
  match messages with
  | [] => Ok []
  | message :: rest =>
      let? created_lt :=
        transpose_map (fun value => parse_unsigned_decimal value "message created logical time")
          (msg_created_lt message) in
      let? message_hash :=
        transpose_map (fun hash => parse_hash hash "message hash") (msg_hash message) in
      let? others := collect_messages (S original_index) rest in
      Ok (mkOrderedMessage created_lt message_hash original_index message :: others)
  end.

Definition ordered_out_messages (transaction : Transaction)
  : result DomainError (list OrderedMessage) :=
  rmap sort_messages (collect_messages 0 (tr_out_msgs transaction)).

Definition activity_from_message (transaction : Transaction) (message : Message)
    (chain : option ChainMessage) (transaction_fee_nanograms : N) (aborted : bool)
    (direction : ActivityDirection) (index : nat)
  : result DomainError (option ActivityRecord) :=
  let? amount_nanograms := parse_unsigned_decimal (msg_value message) "message value" in
  if (amount_nanograms =? 0)%N then Ok None
  else
    let? chain :=
      ok_or (invalid_response (lit "raw transaction message does not match provider JSON")) chain in
    let? counterparty :=
      match direction with
      | Received => message_address (msg_source message) "message source"
      | Sent => message_address (msg_destination message) "message destination"
      end in
    let? logical_time :=
      parse_unsigned_decimal (tid_lt (tr_transaction_id transaction)) "logical time" in
    let? transaction_hash :=
      parse_hash (tid_hash (tr_transaction_id transaction)) "transaction hash" in
    let id :=
      b64_str transaction_hash ++ lit ":" ++ direction_name direction ++ lit ":"
      ++ u64_to_string (N.of_nat index) in
    Ok (Some (mkActivityRecord id transaction_hash logical_time (tr_utime transaction) direction
                amount_nanograms transaction_fee_nanograms
                (if cm_bounced chain then Activity_Bounced
                 else if aborted then Activity_Failed
                 else Activity_Success)
                (cm_comment chain) (cm_encrypted_comment chain) (Some counterparty))).

Definition incoming_items (transaction : Transaction) (chain : ChainTransaction) (fee : N)
  : result DomainError (list ActivityRecord) :=
  match tr_in_msg transaction with
  | None => Ok []
  | Some message =>
      let? item :=
        activity_from_message transaction message (ct_in_msg chain) fee (ct_aborted chain)
          Received 0 in
      Ok (option_list item)
  end.

Fixpoint outgoing_items (transaction : Transaction) (chain : ChainTransaction) (fee : N)
    (index : nat) (messages : list OrderedMessage) : result DomainError (list ActivityRecord) :=
  match messages with
  | [] => Ok []
  | ordered :: rest =>
      let? item :=
        activity_from_message transaction (om_message ordered)
          (ct_out_msgs chain !! om_original_index ordered) fee (ct_aborted chain) Sent index in
      let? others := outgoing_items transaction chain fee (S index) rest in
      Ok (option_list item ++ others)
  end.

(** One turn of the loop over the transactions. *)
Definition transaction_items (transaction : Transaction)
  : result DomainError (list ActivityRecord) :=
  let? chain := parse_transaction_chain_data transaction in
  let? fee := parse_unsigned_decimal (tr_fee transaction) "transaction fee" in
  let? incoming := incoming_items transaction chain fee in
  let? outgoing := ordered_out_messages transaction in
  let? sent := outgoing_items transaction chain fee 0 outgoing in
  Ok (incoming ++ sent).

Fixpoint all_items (transactions : list Transaction) : result DomainError (list ActivityRecord) :=
  match transactions with
  | [] => Ok []
  | transaction :: rest =>
      let? items := transaction_items transaction in
      let? others := all_items rest in
      Ok (items ++ others)
  end.

Definition page_cursor (transaction : Transaction) : result DomainError ActivityPageCursor :=
  let? logical_time :=
    parse_unsigned_decimal (tid_lt (tr_transaction_id transaction)) "logical time" in
  let? hash := parse_hash (tid_hash (tr_transaction_id transaction)) "transaction hash" in
  Ok (mkActivityPageCursor logical_time hash).

Definition parse_activity (body : bytes) (page_size : N) : result DomainError ActivityPage :=
  let? transactions := decode_envelope (decode_vec decode_Transaction) body in
  let? cursor := transpose_map page_cursor (list.last transactions) in
  let? items := all_items transactions in
  Ok (mkActivityPage (sort_records items) cursor
        (page_size <=? N.of_nat (length transactions))%N).
End Rows.

(** * Parsed activity pages

    What a successfully parsed page holds, and that lossy decoding of comments
    agrees with strict decoding. *)

(** ** Comments *)

(** Text that is valid UTF-8 is decoded as it is. *)
Lemma lossy_is_strict data text : from_utf8 data = Some text -> from_utf8_lossy data = text.
Proof.
  revert text. induction data as [data IH] using (well_founded_induction (well_founded_ltof _ length)).
  unfold ltof in IH. intros text Hs. destruct data as [|b0 rest]; [by injection Hs as <-|].
  cbn [from_utf8 from_utf8_lossy] in *. destruct (b0 <? 128)%N.
  { apply fmap_Some in Hs as (t & Ht & ->). f_equal. apply IH; [simpl; lia|done]. }
  destruct rest as [|b1 rest]; [done|].
  destruct (within 194 223 b0 && continuation b1) eqn:E2.
  { apply fmap_Some in Hs as (t & Ht & ->). f_equal. apply IH; [simpl; lia|done]. }
  destruct rest as [|b2 rest]; [done|].
  destruct (within 224 239 b0 && continuation b2 && within _ _ b1) eqn:E3.
  { apply andb_true_iff in E3 as [[-> ->]%andb_true_iff ->]. cbn [andb].
    apply fmap_Some in Hs as (t & Ht & ->). f_equal. apply IH; [simpl; lia|done]. }
  destruct rest as [|b3 rest]; [done|].
  destruct (within 240 244 b0 && continuation b2 && continuation b3 && within _ _ b1) eqn:E4; [|done].
  apply andb_true_iff in E4 as [[[Hb Hc2]%andb_true_iff Hc3]%andb_true_iff Hb1].
  assert (Hn : within 224 239 b0 = false).
  { unfold within in *. apply andb_true_iff in Hb as [?%N.leb_le _]. apply andb_false_iff. right.
    apply N.leb_gt. lia. }
  rewrite Hn, Hb, Hb1, Hc2, Hc3. cbn [andb].
  apply fmap_Some in Hs as (t & Ht & ->). f_equal. apply IH; [simpl; lia|done].
Qed.

(** ** Row identifiers *)

Definition row_id (hash : Base64Hash) (direction : ActivityDirection) (index : nat) : rstr :=
  b64_str hash ++ lit ":" ++ direction_name direction ++ lit ":" ++ u64_to_string (N.of_nat index).

Lemma split_colon_inj (a b s t : rstr) :
  contains 58%N a = false -> contains 58%N b = false ->
  a ++ 58%N :: s = b ++ 58%N :: t -> a = b /\ s = t.
Proof.
  intros Ha Hb E. pose proof (split_once_app _ _ s Ha) as H1. rewrite E, split_once_app in H1 by done.
  by simplify_eq.
Qed.

Lemma row_id_inj h d i h' d' i' :
  contains 58%N (b64_str h) = false -> contains 58%N (b64_str h') = false ->
  row_id h d i = row_id h' d' i' -> h = h' /\ d = d' /\ i = i'.
Proof.
  unfold row_id. intros Hh Hh' E. apply split_colon_inj in E as [E1 E]; [|done..].
  apply split_colon_inj in E as [E2 E]; [|by destruct d|by destruct d'].
  split; [by destruct h, h'; simplify_eq/=|]. split; [by destruct d, d'|].
  apply (f_equal dec_value) in E.
  rewrite (proj2 (proj2 (u64_to_string_digits _))), (proj2 (proj2 (u64_to_string_digits _))) in E.
  lia.
Qed.

Section Page.
Context `{SerdeJson} `{BigUintText} `{Base64Engine} `{TonAddressParser} `{TonTransactions}
  `{Crc32c} `{TonCoreBoc}.

(** The normalized hash that names a transaction. *)
Definition hash_of (transaction : Transaction) : option Base64Hash :=
  base64_hash_try_from (tid_hash (tr_transaction_id transaction)).

Lemma normalized_no_colon value hash :
  base64_hash_try_from value = Some hash -> contains 58%N (b64_str hash) = false.
Proof.
  unfold base64_hash_try_from, base64_hash_from_bytes. intros (data & _ & Hd)%bind_Some.
  destruct (negb _); [done|]. injection Hd as <-. apply standard_encode_no_colon.
Qed.

(** *** What a row says *)

(** The raw transaction did not take effect. *)
Definition stopped (description : TxDescr) : Prop :=
  match description with
  | Descr_Storage => False
  | Descr_SplitInstall installed => installed = false
  | Descr_Ord aborted | Descr_TickTock aborted | Descr_SplitPrepare aborted
  | Descr_MergePrepare aborted | Descr_MergeInstall aborted => aborted = true
  end.

(** The outcome that the raw transaction and its raw message report. *)
Definition outcome (tx : Tx) (raw : TonMessage) (status : ActivityStatus) : Prop :=
  match status with
  | Activity_Bounced => raw.1 = true
  | Activity_Failed => raw.1 = false /\ stopped (tx_descr tx)
  | Activity_Success => raw.1 = false /\ ~ stopped (tx_descr tx)
  end.

(** A comment is the text after the opcode 0, an encrypted one the whole body under the
    opcode of encrypted comments. *)
Definition plain_text (body : TonCell) (text : rstr) : Prop :=
  exists snake, read_opcode body = Some 0%N /\ snake_after_opcode body = Some snake /\
    text = from_utf8_lossy snake.
Definition encrypted_text (body : TonCell) (boc : Boc) : Prop :=
  exists data, read_opcode body = Some 560454219%N /\ cell_to_boc body = Some data /\
    boc_try_from_bytes data = Ok boc.

(** An address is given as a text or as an object with the text. *)
Definition names_address (value : Value) (address : TonAddress) : Prop :=
  exists text, match value with Str text => Some text | _ => value_get "account_address" value ≫= as_str end
    = Some text /\ text <> [] /\ ton_address_from_str text = Some address.

Abbreviation amount_of message amount :=
  (parse_unsigned_decimal (msg_value message) "message value" = Ok amount) (only parsing).

(** The row of one message, the message number [index] of its direction: every field. *)
Record describes (t : Transaction) (tx : Tx) (direction : ActivityDirection) (index : nat)
    (message : Message) (raw : TonMessage) (row : ActivityRecord) : Prop := {
  row_hash : hash_of t = Some (ar_transaction_hash row);
  row_identifier : ar_id row = row_id (ar_transaction_hash row) direction index;
  row_logical_time : parse_unsigned_decimal (tid_lt (tr_transaction_id t)) "logical time"
                     = Ok (ar_logical_time row);
  row_timestamp : ar_timestamp row = tr_utime t;
  row_direction : ar_direction row = direction;
  row_amount : amount_of message (ar_amount_nanograms row) /\ (0 < ar_amount_nanograms row)%N;
  row_fee : parse_unsigned_decimal (tr_fee t) "transaction fee" = Ok (ar_transaction_fee_nanograms row);
  row_status : outcome tx raw (ar_status row);
  row_comment : forall text, ar_comment row = Some text <-> plain_text raw.2 text;
  row_encrypted : forall boc, ar_encrypted_comment row = Some boc <-> encrypted_text raw.2 boc;
  row_counterparty : exists address, ar_counterparty row = Some address /\
    names_address (match direction with Received => msg_source message | Sent => msg_destination message end)
      address;
}.

(** The rows of messages in a row, numbered from [index]: a message of value gives one row,
    a message without value none. *)
Inductive rows_for (t : Transaction) (tx : Tx) (direction : ActivityDirection)
  : nat -> list (Message * option TonMessage) -> list ActivityRecord -> Prop :=
  | rows_none index : rows_for t tx direction index [] []
  | rows_skip index message raw rest rows :
      amount_of message 0%N -> rows_for t tx direction (S index) rest rows ->
      rows_for t tx direction index ((message, raw) :: rest) rows
  | rows_take index message raw rest row rows :
      describes t tx direction index message raw row -> rows_for t tx direction (S index) rest rows ->
      rows_for t tx direction index ((message, Some raw) :: rest) (row :: rows).

Lemma chain_message_comment raw text :
  cm_comment (chain_message raw) = Some text <-> plain_text raw.2 text.
Proof.
  unfold chain_message, plaintext_comment, plain_text. cbn [cm_comment]. split.
  - intros (opcode & Ho & E)%bind_Some. destruct (N.eqb_spec opcode 0) as [->|]; [|done].
    apply bind_Some in E as (snake & Hs & [= <-]). by exists snake.
  - intros (snake & Ho & Hs & ->). rewrite Ho. cbn. by rewrite Hs.
Qed.

Lemma chain_message_encrypted raw boc :
  cm_encrypted_comment (chain_message raw) = Some boc <-> encrypted_text raw.2 boc.
Proof.
  unfold chain_message, encrypted_comment_body, is_encrypted_comment_body, encrypted_text, ENCRYPTED_COMMENT_OPCODE.
  cbn [cm_encrypted_comment]. split.
  - case_bool_decide as Ho; [|done]. intros (data & Hc & E)%bind_Some. exists data. split; [done|]. split; [done|].
    destruct (boc_try_from_bytes data); [|done]. by injection E as ->.
  - intros (data & Ho & Hc & E). rewrite bool_decide_true by done. cbn [negb]. rewrite Hc. cbn. by rewrite E.
Qed.

Lemma chain_message_outcome tx raw :
  outcome tx raw (if cm_bounced (chain_message raw) then Activity_Bounced
                  else if transaction_aborted (tx_descr tx) then Activity_Failed else Activity_Success).
Proof.
  assert (transaction_aborted (tx_descr tx) = true <-> stopped (tx_descr tx)) as Hs
    by (destruct (tx_descr tx) as [[]| |[]|[]|[]|[]|[]]; done).
  unfold chain_message. cbn [cm_bounced]. destruct raw.1 eqn:Eb; [done|].
  destruct (transaction_aborted (tx_descr tx)); cbn [outcome]; (split; [done|]); naive_solver.
Qed.

Lemma message_address_names value field address :
  message_address value field = Ok address -> names_address value address.
Proof.
  unfold message_address, names_address. intros (text & Ht%ok_or_ok & Ha%ok_or_ok)%rbind_ok.
  apply bind_Some in Ht as (found & Hf & Ht). destruct found as [|c found]; [done|]. injection Ht as <-.
  exists (c :: found). split; [|done]. by destruct value.
Qed.

(** One message. *)
Lemma activity_from_message_spec t tx message raw fee direction index item :
  parse_unsigned_decimal (tr_fee t) "transaction fee" = Ok fee ->
  activity_from_message t message (chain_message <$> raw) fee (transaction_aborted (tx_descr tx))
    direction index = Ok item ->
  match item with
  | Some row => exists raw', raw = Some raw' /\ describes t tx direction index message raw' row
  | None => amount_of message 0%N
  end.
Proof.
  intros Hfee Hi. unfold activity_from_message in Hi. apply rbind_ok in Hi as (amount & Hamount & Hi).
  destruct (N.eqb_spec amount 0) as [->|Hpos]; [by injection Hi as <-|].
  apply rbind_ok in Hi as (chain & Hchain%ok_or_ok & Hi). apply rbind_ok in Hi as (party & Hparty & Hi).
  apply rbind_ok in Hi as (time & Htime & Hi). apply rbind_ok in Hi as (hash & Hhash%ok_or_ok & [= <-]).
  apply fmap_Some in Hchain as (raw' & -> & ->). exists raw'. split; [done|]. constructor;
    cbn [ar_transaction_hash ar_id ar_logical_time ar_timestamp ar_direction ar_amount_nanograms
         ar_transaction_fee_nanograms ar_status ar_comment ar_encrypted_comment ar_counterparty]; try done.
  - split; [done|lia].
  - apply chain_message_outcome.
  - intros text. apply chain_message_comment.
  - intros boc. apply chain_message_encrypted.
  - exists party. split; [done|]. destruct direction; by eapply message_address_names.
Qed.

(** *** Outgoing messages *)

(** The creation time and the hash that order the messages of a transaction. *)
Definition created (message : Message) : option N :=
  msg_created_lt message ≫= fun value =>
  result_ok (parse_unsigned_decimal value "message created logical time").
Definition hash_text (message : Message) : option rstr :=
  b64_str <$> (msg_hash message ≫= base64_hash_try_from).

(** Absent values come first. *)
Definition option_before {A} (before : A -> A -> Prop) (a b : option A) : Prop :=
  match a, b with
  | None, Some _ => True
  | Some a, Some b => before a b
  | _, None => False
  end.

(** Messages with their places in the transaction: by creation time, then by hash, then by
    place. *)
Definition sent_before (a b : nat * Message) : Prop :=
  option_before N.lt (created a.2) (created b.2) \/
  (created a.2 = created b.2 /\
   (option_before (fun x y => str_cmp x y = Lt) (hash_text a.2) (hash_text b.2) \/
    (hash_text a.2 = hash_text b.2 /\ a.1 <= b.1))).

Lemma insert_message_perm x l : insert_message x l ≡ₚ x :: l.
Proof.
  induction l as [|y l IH]; simpl; [done|]. destruct (ordered_message_order x y); try done.
  rewrite IH. apply Permutation_swap.
Qed.

Lemma sort_messages_perm l : sort_messages l ≡ₚ l.
Proof. induction l as [|x l IH]; simpl; [done|]. by rewrite insert_message_perm, IH. Qed.

Definition message_le (a b : OrderedMessage) : Prop := ordered_message_order a b <> Gt.

Lemma option_cmp_antisym {A} (cmp : A -> A -> comparison) a b :
  (forall x y, cmp y x = CompOpp (cmp x y)) -> option_cmp cmp b a = CompOpp (option_cmp cmp a b).
Proof. intros Hc. destruct a, b; cbn; [apply Hc|done..]. Qed.

Lemma message_le_total a b : ordered_message_order a b = Gt -> message_le b a.
Proof.
  unfold message_le, ordered_message_order, then_with.
  rewrite (option_cmp_antisym N.compare (om_created_logical_time a) (om_created_logical_time b)),
    (option_cmp_antisym _ (om_hash a) (om_hash b)), (Nat.compare_antisym (om_original_index a));
    [|intros; apply str_cmp_antisym|intros; apply N.compare_antisym].
  destruct (option_cmp N.compare _ _), (option_cmp _ (om_hash a) _), (om_original_index a ?= om_original_index b);
    cbn; congruence.
Qed.

Lemma insert_message_sorted x l : Sorted message_le l -> Sorted message_le (insert_message x l).
Proof.
  induction 1 as [|y l Hs IH Hhd]; cbn [insert_message]; [repeat constructor|].
  destruct (ordered_message_order x y) eqn:E; [by repeat constructor; unfold message_le; rewrite ?E..|].
  constructor; [done|]. apply message_le_total in E. destruct l as [|z l]; cbn [insert_message]; [by constructor|].
  inversion Hhd; subst. destruct (ordered_message_order x z); by constructor.
Qed.

Lemma sort_messages_sorted l : Sorted message_le (sort_messages l).
Proof. induction l; cbn; [constructor|by apply insert_message_sorted]. Qed.

(** The keys of an ordered message are those of its message. *)
Definition keyed (o : OrderedMessage) : Prop :=
  om_created_logical_time o = created (om_message o) /\ b64_str <$> om_hash o = hash_text (om_message o).

Lemma collect_messages_all start messages ordered :
  collect_messages start messages = Ok ordered ->
  map (fun o => (om_original_index o, om_message o)) ordered = zip (seq start (length messages)) messages /\
  Forall keyed ordered.
Proof.
  revert start ordered. induction messages as [|m messages IH]; intros start ordered Hc.
  - by injection Hc as <-.
  - cbn [collect_messages] in Hc. apply rbind_ok in Hc as (lt & Hlt & Hc).
    apply rbind_ok in Hc as (h & Hh & Hc). apply rbind_ok in Hc as (others & Ho & [= <-]).
    destruct (IH _ _ Ho) as [Hm Hk]. cbn. split; [by rewrite Hm|]. constructor; [|done].
    split; cbn [om_created_logical_time om_hash om_message].
    + unfold created. destruct (msg_created_lt m) as [v|]; cbn in Hlt |- *; [|by injection Hlt as <-].
      destruct (parse_unsigned_decimal v _); [|done]. by injection Hlt as <-.
    + unfold hash_text. destruct (msg_hash m) as [v|]; cbn in Hh |- *; [|by injection Hh as <-].
      unfold parse_hash in Hh. destruct (base64_hash_try_from v); [|done]. by injection Hh as <-.
Qed.

Lemma message_le_before a b :
  keyed a -> keyed b -> message_le a b ->
  sent_before (om_original_index a, om_message a) (om_original_index b, om_message b).
Proof.
  intros [Hca Hha] [Hcb Hhb]. unfold message_le, ordered_message_order, sent_before, then_with. cbn [fst snd].
  rewrite <- Hca, <- Hha, <- Hcb, <- Hhb.
  assert (forall x y, option_cmp N.compare x y = Lt -> option_before N.lt x y) as Hn.
  { by intros [x|] [y|]. }
  assert (forall x y, option_cmp N.compare x y = Eq -> x = y) as Hn'.
  { intros [x|] [y|]; cbn; try done. by intros ->%N.compare_eq_iff. }
  assert (forall x y, option_cmp (fun a b => str_cmp (b64_str a) (b64_str b)) x y = Lt ->
    option_before (fun x y => str_cmp x y = Lt) (b64_str <$> x) (b64_str <$> y)) as Hs by (by intros [x|] [y|]).
  assert (forall x y, option_cmp (fun a b => str_cmp (b64_str a) (b64_str b)) x y = Eq ->
    b64_str <$> x = b64_str <$> y) as Hs'.
  { intros [x|] [y|]; cbn; try done. by intros ->%str_cmp_eq. }
  destruct (option_cmp N.compare _ _) eqn:En; [|intros _; left; by apply Hn|done].
  destruct (option_cmp _ (om_hash a) _) eqn:Eh; [|intros _; right; split; [by apply Hn'|left; by apply Hs]|done].
  intros Hi. right. split; [by apply Hn'|]. right. split; [by apply Hs'|].
  destruct (Nat.compare_spec (om_original_index a) (om_original_index b)); [lia|lia|done].
Qed.

Lemma ordered_out_messages_spec t ordered :
  ordered_out_messages t = Ok ordered ->
  let order := map (fun o => (om_original_index o, om_message o)) ordered in
  order ≡ₚ zip (seq 0 (length (tr_out_msgs t))) (tr_out_msgs t) /\ Sorted sent_before order.
Proof.
  unfold ordered_out_messages. intros (raw & [Hm Hk]%collect_messages_all & [= <-])%rbind_ok. cbn zeta. split.
  - rewrite sort_messages_perm. by rewrite Hm.
  - rewrite <- (sort_messages_perm raw) in Hk. pose proof (sort_messages_sorted raw) as Hs.
    induction Hs as [|o l Hs IH Hhd]; [constructor|]. apply Forall_cons in Hk as [Ho Hk].
    cbn [map]. constructor; [by apply IH|]. inversion Hhd as [|o' l' Hle]; subst; [constructor|].
    apply Forall_cons in Hk as [Ho' _]. constructor. by apply message_le_before.
Qed.

(** *** Transactions and pages *)

(** The rows of a transaction: that of the incoming message, then those of the outgoing
    messages in their order. *)
Definition rows_of (t : Transaction) (rows : list ActivityRecord) : Prop :=
  exists tx received order sent,
    tx_from_boc_base64 (tr_data t) = Ok tx /\
    rows_for t tx Received 0 (option_list ((fun m => (m, tx_in_msg tx)) <$> tr_in_msg t)) received /\
    order ≡ₚ zip (seq 0 (length (tr_out_msgs t))) (tr_out_msgs t) /\ Sorted sent_before order /\
    rows_for t tx Sent 0 (map (fun '(place, m) => (m, tx_out_msgs tx !! place)) order) sent /\
    rows = received ++ sent.

Lemma rows_for_one t tx direction index message raw rest item rows :
  match item with
  | Some row => exists raw', raw = Some raw' /\ describes t tx direction index message raw' row
  | None => amount_of message 0%N
  end ->
  rows_for t tx direction (S index) rest rows ->
  rows_for t tx direction index ((message, raw) :: rest) (option_list item ++ rows).
Proof. destruct item as [row|]; [intros (raw' & -> & Hd)|intros Hz]; intros Hr; by constructor. Qed.

Lemma outgoing_rows t tx fee ordered rows index :
  parse_unsigned_decimal (tr_fee t) "transaction fee" = Ok fee ->
  outgoing_items t (mkChainTransaction (transaction_aborted (tx_descr tx)) (chain_message <$> tx_in_msg tx)
    (map chain_message (tx_out_msgs tx))) fee index ordered = Ok rows ->
  rows_for t tx Sent index
    (map (fun '(place, m) => (m, tx_out_msgs tx !! place))
       (map (fun o => (om_original_index o, om_message o)) ordered)) rows.
Proof.
  intros Hfee. revert index rows. induction ordered as [|o ordered IH]; intros index rows Hrows.
  - injection Hrows as <-. constructor.
  - cbn [outgoing_items map] in *.
    apply rbind_ok in Hrows as (item & Hi & (others & Hothers & [= <-])%rbind_ok).
    apply rows_for_one; [|by apply IH]. cbn [ct_out_msgs ct_aborted] in Hi. rewrite list_lookup_fmap in Hi.
    by apply (activity_from_message_spec _ _ _ _ _ _ _ _ Hfee Hi).
Qed.

Lemma transaction_items_rows t rows : transaction_items t = Ok rows -> rows_of t rows.
Proof.
  unfold transaction_items, parse_transaction_chain_data.
  intros (chain & (tx & Htx%map_err_ok & [= <-])%rbind_ok & Hk)%rbind_ok.
  apply rbind_ok in Hk as (fee & Hfee & Hk).
  apply rbind_ok in Hk as (received & Hr & (ordered & Hord & (sent & Hs & [= <-])%rbind_ok)%rbind_ok).
  destruct (ordered_out_messages_spec _ _ Hord) as [Hp Hsort].
  exists tx, received, (map (fun o => (om_original_index o, om_message o)) ordered), sent.
  split; [done|]. split; [|split; [done|split; [done|split; [by apply (outgoing_rows _ _ _ _ _ _ Hfee)|done]]]].
  unfold incoming_items in Hr. destruct (tr_in_msg t) as [m|]; cbn [fmap option_fmap option_map option_list].
  - apply rbind_ok in Hr as (item & Hi & [= <-]). rewrite <- (app_nil_r (option_list item)).
    apply rows_for_one; [|constructor]. by apply (activity_from_message_spec _ _ _ _ _ _ _ _ Hfee Hi).
  - injection Hr as <-. constructor.
Qed.

Lemma all_items_rows transactions rows :
  all_items transactions = Ok rows -> exists groups, Forall2 rows_of transactions groups /\ rows = concat groups.
Proof.
  revert rows. induction transactions as [|t transactions IH]; intros rows Hrows.
  - injection Hrows as <-. by exists [].
  - cbn [all_items] in Hrows. apply rbind_ok in Hrows as (items & Hi & (others & Ho & [= <-])%rbind_ok).
    destruct (IH _ Ho) as (groups & Hg & ->). exists (items :: groups). split; [|done].
    constructor; [by apply transaction_items_rows|done].
Qed.

(** *** Identifiers *)

Definition identified (t : Transaction) (direction : ActivityDirection) (from : nat) (row : ActivityRecord) : Prop :=
  exists tx index message raw, from <= index /\ describes t tx direction index message raw row.

Lemma identified_inj t tx d i m raw row t' d' from row' :
  describes t tx d i m raw row -> identified t' d' from row' -> ar_id row = ar_id row' ->
  hash_of t = hash_of t' /\ d = d' /\ from <= i.
Proof.
  intros Hr (tx' & i' & m' & raw' & Hle & Hr') E. rewrite (row_identifier _ _ _ _ _ _ _ Hr) in E.
  rewrite (row_identifier _ _ _ _ _ _ _ Hr') in E. pose proof (row_hash _ _ _ _ _ _ _ Hr) as Hh.
  pose proof (row_hash _ _ _ _ _ _ _ Hr') as Hh'.
  apply row_id_inj in E as (Eh & -> & ->); [|by eapply normalized_no_colon..]. by rewrite Hh, Hh', Eh.
Qed.

Lemma rows_for_identified t tx d index slots rows :
  rows_for t tx d index slots rows -> Forall (identified t d index) rows /\ NoDup (map ar_id rows).
Proof.
  assert (forall i row, identified t d (S i) row -> identified t d i row) as Hweak.
  { intros i row (tx' & j & m & raw & Hle & Hd). exists tx', j, m, raw. split; [lia|done]. }
  induction 1 as [i|i m raw rest rows _ _ [Hf Hn]|i m raw rest row rows Hd _ [Hf Hn]]; [by split; constructor| |].
  - split; [|done]. eapply Forall_impl; [exact Hf|]. apply Hweak.
  - split; [constructor; [by exists tx, i, m, raw|]; eapply Forall_impl; [exact Hf|]; apply Hweak|].
    cbn [map]. constructor; [|done]. intros (row' & E & Hin)%list_elem_of_fmap. rewrite Forall_forall in Hf.
    destruct (identified_inj _ _ _ _ _ _ _ _ _ _ _ Hd (Hf _ Hin) E) as (_ & _ & ?). lia.
Qed.

Lemma rows_of_identified t rows :
  rows_of t rows -> Forall (fun row => exists d, identified t d 0 row) rows /\ NoDup (map ar_id rows).
Proof.
  intros (tx & received & order & sent & _ & [Hrf Hrn]%rows_for_identified & _ & _ & [Hsf Hsn]%rows_for_identified & ->).
  split.
  - apply Forall_app. split; (eapply Forall_impl; [eassumption|]); eauto.
  - rewrite map_app. apply NoDup_app. split; [done|]. split; [|done].
    intros id (row & -> & Hin)%list_elem_of_fmap (row' & E & Hin')%list_elem_of_fmap.
    rewrite Forall_forall in Hrf, Hsf. destruct (Hrf _ Hin) as (tx' & i & m & raw & _ & Hd).
    by destruct (identified_inj _ _ _ _ _ _ _ _ _ _ _ Hd (Hsf _ Hin') E) as (_ & ? & _).
Qed.

Lemma grouped_row_identified transactions groups row :
  Forall2 rows_of transactions groups -> row ∈ concat groups ->
  exists t d, t ∈ transactions /\ identified t d 0 row.
Proof.
  induction 1 as [|t rows transactions groups [Hf _]%rows_of_identified _ IH]; [by intros ?%not_elem_of_nil|].
  cbn [concat]. intros [Hin|Hin]%elem_of_app.
  - rewrite Forall_forall in Hf. destruct (Hf _ Hin) as [d Hd]. exists t, d. split; [left|done].
  - destruct (IH Hin) as (t' & d & Ht & Hd). exists t', d. split; [by right|done].
Qed.

Lemma groups_identified transactions groups :
  Forall2 rows_of transactions groups -> NoDup (map hash_of transactions) -> NoDup (map ar_id (concat groups)).
Proof.
  induction 1 as [|t rows transactions groups [Hf Hn]%rows_of_identified Hg IH]; [constructor|].
  cbn [map concat]. intros [Hnew Hd]%NoDup_cons. rewrite map_app. apply NoDup_app.
  split; [done|]. split; [|by apply IH].
  intros id (row & -> & Hin)%list_elem_of_fmap (row' & E & Hin')%list_elem_of_fmap. rewrite Forall_forall in Hf.
  destruct (Hf _ Hin) as (d & tx & i & m & raw & _ & Hr). apply Hnew.
  destruct (grouped_row_identified _ _ _ Hg Hin') as (t' & d' & Ht' & Hr').
  destruct (identified_inj _ _ _ _ _ _ _ _ _ _ _ Hr Hr' E) as (-> & _ & _). by apply list_elem_of_fmap_2.
Qed.

(** The cursor of a page is the position of its last transaction. *)
Definition cursor_of (last : option Transaction) (cursor : option ActivityPageCursor) : Prop :=
  match last, cursor with
  | None, None => True
  | Some t, Some cursor =>
      parse_unsigned_decimal (tid_lt (tr_transaction_id t)) "logical time" = Ok (apc_logical_time cursor) /\
      hash_of t = Some (apc_hash cursor)
  | _, _ => False
  end.

Lemma page_cursor_spec last cursor : transpose_map page_cursor last = Ok cursor -> cursor_of last cursor.
Proof.
  destruct last as [t|]; cbn [transpose_map]; [|by intros [= <-]]. unfold page_cursor.
  destruct (parse_unsigned_decimal _ _) as [time|] eqn:Et; [|done]. cbn [rbind].
  destruct (parse_hash _ _) as [hash|] eqn:Eh; [|done]. intros [= <-]. split; [done|]. by apply ok_or_ok in Eh.
Qed.

(** C36: A parsed page of activity is exactly the value transfers of its transactions.
    Each transaction gives one row for its incoming message if that carries value, and one
    for each outgoing message that does, numbered by creation time, hash and place; the
    page holds these rows and no others, newest first.  A row states the hash, logical
    time, time and fee of its transaction, the direction, value and counterparty of its
    message, and the outcome and the plain or encrypted comment of the raw message in the
    same place.  The cursor is the position of the last transaction even when it has no
    row; more pages are announced exactly when the page is full.  When the provider does
    not repeat a transaction, row identifiers are unique, so that the page is already the
    canonical list that merging would produce. *)
Theorem parsed_activity_is_faithful body page_size page :
  parse_activity body page_size = Ok page ->
  exists transactions groups,
    decode_envelope (decode_vec decode_Transaction) body = Ok transactions /\
    Forall2 rows_of transactions groups /\
    ap_items page ≡ₚ concat groups /\
    StronglySorted newest_first (ap_items page) /\
    cursor_of (list.last transactions) (ap_cursor page) /\
    (ap_has_more page = true <-> (page_size <= N.of_nat (length transactions))%N) /\
    (NoDup (map hash_of transactions) -> canonical_list (ap_items page) (ap_items page)).
Proof.
  unfold parse_activity. intros (transactions & Hd & (cursor & Hc%page_cursor_spec & Hk)%rbind_ok)%rbind_ok.
  apply rbind_ok in Hk as (rows & Hrows & [= <-]). destruct (all_items_rows _ _ Hrows) as (groups & Hg & ->).
  exists transactions, groups. cbn [ap_items ap_cursor ap_has_more].
  pose proof (sort_records_perm (concat groups)) as Hp. pose proof (sort_records_sorted (concat groups)) as Hs.
  split; [done|]. split; [done|]. split; [done|]. split; [by apply newest_first_sorted|]. split; [done|].
  split; [apply N.leb_le|]. intros Hdup.
  assert (NoDup (map ar_id (sort_records (concat groups)))) as Hids by (rewrite Hp; by apply (groups_identified transactions)).
  constructor; [done|by apply newest_first_sorted|]. intros row. symmetry. by apply newest_row_NoDup.
Qed.
End Page.

(** * A concrete page of activity

    A document, a reader of it and raw transactions, on which the theorem about
    parsed pages is applied. *)

(** Bodies that are the empty comment, in a transaction that was not aborted. *)
#[export] Instance RefTransactions : TonTransactions := {
  TonCell := bytes;
  read_opcode _ := Some 0%N;
  snake_after_opcode cell := Some cell;
  cell_to_boc _ := None;
  Tx := unit;
  tx_from_boc_base64 _ := Ok tt;
  tx_descr _ := Descr_Ord false;
  tx_in_msg _ := Some (false, []);
  tx_out_msgs _ := [(false, []); (true, utf8 (lit "refund"))];
}.

Definition page_document : Value :=
  object [("ok", Bool true); ("result", Array [object
    [("utime", Num (PosInt 1700000000)); ("data", Str (lit "te6")); ("fee", Str (lit "12"));
     ("transaction_id", object [("lt", Str (lit "77"));
                                ("hash", Str (standard_encode (repeat 7%N 32)))]);
     ("in_msg", object [("value", Str (lit "0"))]);
     ("out_msgs", Array [object [("value", Num (PosInt 5)); ("created_lt", Str (lit "79"));
                                 ("destination", Str zero_address)];
                         object [("value", Str (lit "6")); ("created_lt", Str (lit "78"));
                                 ("destination", Str zero_address)]])]])]%string.

#[export] Instance PageJson : SerdeJson := {
  value_to_vec v := Ok (utf8 (json_text v));
  document_from_slice body := if is_empty body then Ok page_document else Err (lit "unknown document");
  value_to_string v := json_text v;
  serde_error _ := lit "invalid type";
  serde_value_error _ := lit "invalid type";
}.

Definition demo_page : ActivityPage :=
  match parse_activity [] 1 with Ok page => page | Err _ => mkActivityPage [] None false end.

(** Outgoing messages are numbered by creation time; each keeps its own raw body. *)
Example demo_page_rows :
  map (fun row => (ar_amount_nanograms row, ar_status row, ar_comment row)) (ap_items demo_page) =
    [(6%N, Activity_Bounced, Some (lit "refund")); (5%N, Activity_Success, Some [])].
Proof. vm_compute. reflexivity. Qed.

Lemma parsed_activity_is_faithful_witness :
  StronglySorted newest_first (ap_items demo_page) /\ length (ap_items demo_page) = 2.
Proof.
  destruct (parsed_activity_is_faithful [] 1 demo_page) as (ts & groups & _ & _ & _ & Hsorted & _).
  - vm_compute. reflexivity.
  - split; [exact Hsorted|]. vm_compute. reflexivity.
Defined.
